(* ===== verification/_CoqProject ===== *)
-Q . S2P
Prelude.v
CString.v
FsFormat.v
Ring.v
Bio.v
BlockDev.v
DiskReq.v
Log.v
LogProof.v
LogCrash.v
LogTx.v
LogAdmit.v
KFs.v
KFsProof.v
Ipc.v
FssCache.v
FssFile.v
FssGrow.v
FssDir.v
FssRefs.v
FssServer.v
FssInv.v
FssTheorems.v
Proc.v
ProcMail.v
ProcInv.v
ProcAuth.v
ProcTheorems.v
ProcKill.v
Pipe.v
Mmu.v
Syscall.v
FileTab.v
SysFile.v
FileInv.v
FileProof.v
FilePipe.v
Remote.v
Sh.v
ShProof.v
ShRoundtrip.v
Kalloc.v
PgTable.v
Vm.v
VmWalk.v
VmSpace.v
VmProc.v
VmSystem.v
VmBoot.v
Grep.v
Printf.v
Console.v
ConsoleProof.v
Kbd.v
ConsoleTheorems.v
Spinlock.v
Umalloc.v
UmallocProof.v
UmallocTheorems.v
Mkfs.v
MkfsData.v
MkfsProof.v
MkfsTheorems.v
MkfsServer.v
KRead.v
Exec.v
ExecMem.v
ExecSpec.v
ExecProof.v
ExecTheorems.v
Trap.v
Clock.v
UserProgs.v
ShRun.v
ShWires.v
