(* ===== verification/Prelude.v ===== *)
(** * A verification of xv6 with a user-level file server

    The program is a 64-bit xv6 in which file requests of user processes go,
    by message passing, to a file server that is itself a user process
    (fsserver.c).  The kernel provides processes and mailboxes (proc.c), the
    system calls (syscall.c, sysfile.c, sysproc.c), virtual memory (vm.c,
    kalloc.c), pipes, the console, and a disk behind a buffer cache (bio.c,
    memide.c) that the server reaches with [disk_request].  The kernel keeps
    its own logged file system (log.c, fs.c) for itself, for [exec] and for
    when no server runs.  mkfs.c builds the disk image on the host; sh.c,
    grep.c, printf.c, umalloc.c, ulib.c are user programs and their library.

    ** How code is modelled

    Every C function is a Rocq function of the same name.  Integers are [Z]
    with the wrap-around of their width written out ([u32], [s32], ...), byte
    arrays are [list Z], a pointer into a table is an index, a null pointer is
    [None].  Code with state is a computation of the monad [M S A]: it returns
    a value or halts with a reason ([Panic] of the kernel, [Exited],
    [NullDeref], [OutOfBounds], [WouldBlock] where a thread that runs alone
    would sleep for ever, [NoFuel]).  [wp m Q E s] says that [m] from [s]
    returns in [Q] or halts in [E]; with [no_halt] for [E] it is total
    correctness: no panic, no stray access, no endless loop.  Loops that are
    not structural are [while] with a fuel that the definition computes from
    its arguments (a byte count, a number of pages, the length of a string);
    the theorems with [no_halt] show that it is never used up.

    ** Files

    - [Prelude], [CString], [FsFormat], [Ring]: machine integers, the monad
      and its rules; string.c and ulib.c; fs.h, param.h and the encodings of
      superblock, inodes and directory entries; circular lists.
    - [Bio], [BlockDev], [DiskReq]: sleeplock.c, memide.c and bio.c; the
      interface [BlockDev] that the server is written against, with its laws;
      [sys_disk_request] implements it.
    - [Log], [LogProof], [LogCrash], [LogTx], [LogAdmit]: log.c; every
      operation is atomic across a power failure between any two disk writes;
      the admission test of [begin_op] for concurrent operations.
    - [KFs], [KFsProof], [KRead]: fs.c; the block allocator, path elements,
      and lookup and reading on an image.
    - [Ipc], [FssCache], [FssFile], [FssDir], [FssRefs], [FssServer],
      [FssInv], [FssTheorems]: ipc.h and fsserver.c from its block cache to
      the request loop, for any [BlockDev].
    - [Proc], [ProcMail], [ProcInv], [ProcAuth], [ProcTheorems]: the process
      table of proc.c as a step relation over interleaved processes: fork,
      exit, wait, kill, sleep and wakeup, send and receive.
    - [Pipe], [Syscall], [FileTab], [SysFile], [FileInv], [FileProof],
      [Remote]: pipe.c; arguments of system calls; file.c; sysfile.c with its
      remote files; the way of a read from the client through its mailbox to
      the server and back.
    - [Mmu], [Kalloc], [PgTable], [Vm], [VmWalk], [VmSpace], [VmProc],
      [VmSystem], [VmBoot]: kalloc.c and vm.c over byte memory with page
      tables in it, and the abstract machine of private memories.
    - [Spinlock]: spinlock.c on several processors, as a step relation.
    - [Console], [ConsoleProof], [Kbd], [ConsoleTheorems]: console.c, uart.c,
      kbd.c and procdump; the console refines a terminal with a line editor.
    - [Sh], [ShProof], [ShRoundtrip], [Grep], [Printf], [Umalloc],
      [UmallocProof], [UmallocTheorems]: the parser of sh.c, grep.c, printf.c
      and umalloc.c.
    - [Mkfs], [MkfsData], [MkfsProof], [MkfsTheorems], [MkfsServer]: mkfs.c,
      the image it writes, and the server started on it.
    - [Exec], [ExecMem], [ExecSpec], [ExecProof], [ExecTheorems]: exec.c,
      elf.h and loaduvm of vm.c, on the file system of [KRead] and the memory
      of [VmSystem]; [ExecSpec] says what a program starts with.
    - [Trap], [Clock]: trap.c, the dispatch of syscall.c, sleep and uptime of
      sysproc.c; the machine of processes, system calls and interrupts on any
      number of processors.
    - [UserProgs], [ShRun], [ShWires]: wc.c, cat.c, echo.c, the names of ls.c,
      gets; [runcmd] and [main] of sh.c as interleaved processes with tables of
      descriptors.
    - [FssGrow]: how a write of fsserver.c takes new blocks ([balloc], [bmap],
      [uwritei] beyond the blocks of the file).
    - [ProcKill], [FilePipe]: what [kill(0)] does to the next process, and the
      system call pipe with an accepted or a refused pointer.
    ** What the theorems show

    - The server: every request gets one reply, references to inodes and
      buffers balance over any sequence of requests, a request touches only
      the descriptors of its sender, reads and writes move exactly the bytes
      they should, and what is written is read back.  Started on an image of
      mkfs it serves every file by its name ([mkfs_files_are_served]).
    - The kernel: transactions are atomic; mailboxes neither lose, forge nor
      duplicate messages and their senders are genuine; sleeping senders and
      receivers are woken; the process table, the table of open files and the
      pipes keep their invariants; page tables implement private memories and
      no page is lost; [exec] starts exactly the program of the file, or
      changes nothing; a sleeper is woken when its time has come; spin locks
      exclude each other.
    - The user programs: the shell's parser terminates and inverts printing,
      and the shell starts the commands of a line with exactly the descriptors
      the line asks for; grep decides the language of its patterns, printf and
      atoi agree, wc counts, malloc and free hand out disjoint blocks.
    - Where the code fails, the theorem says so: a server that crashes when
      its inode table is full, a kill of pid 0, a log one block short, a system
      call that goes on with a pointer it refused.

    ** Bounds

    Sizes are those of param.h and the sources (30 buffers, 30 log blocks, 64
    processes, 1000 disk blocks).  Theorems on address spaces are for sizes
    below 4 GB, where [copyuvm] does not truncate them; the number of pages is
    arbitrary.  Concurrency is modelled where the code is about it: processes
    in [Proc], pipes in [Pipe], processors in [Spinlock], operations of the
    log in [LogAdmit], interrupts in [Clock], processes of the shell in
    [ShRun].  Elsewhere a function runs alone, as its locks have it.

    ** Not modelled

    Assembly and code whose effect is on the machine itself: bootasm.S,
    entry.S, entryother.S, swtch.S, trapasm.S, initcode.S, usys.S, and
    bootmain.c, lapic.c, ioapic.c, mp.c, ide.c (the configuration
    modelled uses memide.c), the descriptor tables of vm.c ([seginit],
    [syscallinit], [switchuvm]), x86.h.  Their meaning is that of the
    hardware, of which the sources contain no description.  Of proc.c the
    context switch in [scheduler] and [sched] is the interleaving of the step
    relation.  Of trap.c [idtinit] loads a machine register.  kill.c, ln.c,
    mkdir.c, rm.c and init.c make a few system calls, as do the [main]
    functions of the small programs.  The test and demonstration programs
    (usertests.c, fstest.c, ipctest.c, forktest.c, stressfs.c, bench.c,
    fsdemo.c) only exercise the system calls.  Diagnostics printed by the server, by mkfs and by the trap
    handler are left out. *)
From stdpp Require Export base numbers list strings option gmap.
From Stdlib Require Export ZArith Lia.

#[global] Open Scope Z_scope.

(** ** Machine integers *)

Definition u8 (x : Z) : Z := x mod 2 ^ 8.
Definition u16 (x : Z) : Z := x mod 2 ^ 16.
Definition u32 (x : Z) : Z := x mod 2 ^ 32.
Definition u64 (x : Z) : Z := x mod 2 ^ 64.
Definition s16 (x : Z) : Z := (x + 2 ^ 15) mod 2 ^ 16 - 2 ^ 15.
Definition s32 (x : Z) : Z := (x + 2 ^ 31) mod 2 ^ 32 - 2 ^ 31.

Definition is_u8 (x : Z) : Prop := 0 <= x < 2 ^ 8.
Definition is_u16 (x : Z) : Prop := 0 <= x < 2 ^ 16.
Definition is_u32 (x : Z) : Prop := 0 <= x < 2 ^ 32.
Definition is_s16 (x : Z) : Prop := - 2 ^ 15 <= x < 2 ^ 15.
Definition is_s32 (x : Z) : Prop := - 2 ^ 31 <= x < 2 ^ 31.

Lemma u8_id x : is_u8 x -> u8 x = x.
Proof. intros. by apply Z.mod_small. Qed.
Lemma u16_id x : is_u16 x -> u16 x = x.
Proof. intros. by apply Z.mod_small. Qed.
Lemma u32_id x : is_u32 x -> u32 x = x.
Proof. intros. by apply Z.mod_small. Qed.
Lemma s16_id x : is_s16 x -> s16 x = x.
Proof. unfold is_s16, s16. intros. rewrite Z.mod_small; lia. Qed.
Lemma s32_id x : is_s32 x -> s32 x = x.
Proof. unfold is_s32, s32. intros. rewrite Z.mod_small; lia. Qed.
Lemma s32_add_l x y : s32 (s32 x + y) = s32 (x + y).
Proof.
  unfold s32. f_equal.
  replace ((x + 2 ^ 31) mod 2 ^ 32 - 2 ^ 31 + y + 2 ^ 31) with ((x + 2 ^ 31) mod 2 ^ 32 + y) by lia.
  rewrite Zplus_mod_idemp_l. f_equal. lia.
Qed.
Lemma u8_range x : is_u8 (u8 x).
Proof. by apply Z.mod_pos_bound. Qed.
Lemma u16_range x : is_u16 (u16 x).
Proof. by apply Z.mod_pos_bound. Qed.
Lemma u32_range x : is_u32 (u32 x).
Proof. by apply Z.mod_pos_bound. Qed.
Lemma s16_u16 x : is_s16 x -> s16 (u16 x) = x.
Proof.
  unfold is_s16, s16, u16. intros.
  rewrite Zplus_mod_idemp_l, Z.mod_small; lia.
Qed.
Lemma s32_u32 x : is_s32 x -> s32 (u32 x) = x.
Proof.
  unfold is_s32, s32, u32. intros.
  rewrite Zplus_mod_idemp_l, Z.mod_small; lia.
Qed.

(** ** Little-endian byte strings

    Memory and disk blocks are lists of bytes, a byte being a [Z] in
    [0, 256).  Integers are stored little-endian, as on x86. *)

Fixpoint le_bytes (n : nat) (x : Z) : list Z :=
  match n with
  | O => []
  | S n => x mod 256 :: le_bytes n (x / 256)
  end.

Fixpoint le_Z (bs : list Z) : Z :=
  match bs with
  | [] => 0
  | b :: bs => b + 256 * le_Z bs
  end.

Abbreviation bytes_ok := (Forall is_u8).

Lemma length_le_bytes n x : length (le_bytes n x) = n.
Proof. revert x. induction n; intros; simpl; auto. Qed.

Lemma le_bytes_ok n x : bytes_ok (le_bytes n x).
Proof.
  revert x. induction n; intros; simpl; constructor; auto.
  by apply Z.mod_pos_bound.
Qed.

Lemma le_Z_bytes n x : le_Z (le_bytes n x) = x mod 256 ^ Z.of_nat n.
Proof.
  revert x. induction n as [|n IH]; intros x; cbn [le_bytes le_Z].
  { by rewrite Z.mod_1_r. }
  rewrite IH, Nat2Z.inj_succ, Z.pow_succ_r by lia.
  rewrite Z.rem_mul_r by lia. lia.
Qed.

Lemma le_bytes_Z bs : bytes_ok bs -> le_bytes (length bs) (le_Z bs) = bs.
Proof.
  induction 1 as [|b bs Hb _ IH]; cbn [le_bytes le_Z length]; [done|].
  unfold is_u8 in Hb.
  rewrite (Z.mul_comm 256), Z.mod_add, Z.div_add by lia.
  rewrite Z.mod_small, Z.div_small, Z.add_0_l by lia. by rewrite IH.
Qed.

Lemma le_Z_range bs : bytes_ok bs -> 0 <= le_Z bs < 256 ^ Z.of_nat (length bs).
Proof.
  induction 1 as [|b bs Hb _ IH]; cbn [le_Z length]; [done|].
  unfold is_u8 in Hb. rewrite Nat2Z.inj_succ, Z.pow_succ_r by lia. lia.
Qed.

Lemma le_Z_bytes_4 x : is_u32 x -> le_Z (le_bytes 4 x) = x.
Proof. intros. rewrite le_Z_bytes. apply Z.mod_small. exact H. Qed.
Lemma le_Z_bytes_2 x : is_u16 x -> le_Z (le_bytes 2 x) = x.
Proof. intros. rewrite le_Z_bytes. apply Z.mod_small. exact H. Qed.

(** ** Slices of byte arrays

    [slice off n l] is [l[off .. off+n)], what a [memmove] out of a buffer
    reads; [splice off src l] is [l] after [memmove(l + off, src, |src|)]. *)

Definition slice {A} (off n : nat) (l : list A) : list A := take n (drop off l).

Definition splice {A} (off : nat) (src l : list A) : list A :=
  take off l ++ src ++ drop (off + length src) l.

Section slices.
Context {A : Type}.
Implicit Types (l src : list A).

Lemma length_slice off n l : (off + n <= length l)%nat -> length (slice off n l) = n.
Proof. intros. unfold slice. rewrite length_take, length_drop. lia. Qed.

Lemma length_splice off src l :
  (off + length src <= length l)%nat -> length (splice off src l) = length l.
Proof.
  intros. unfold splice. rewrite !length_app, length_take, length_drop. lia.
Qed.

Lemma lookup_slice off n l i : (i < n)%nat -> slice off n l !! i = l !! (off + i)%nat.
Proof. intros. unfold slice. by rewrite lookup_take_lt, lookup_drop by done. Qed.

Lemma lookup_splice_in off src l i :
  (off <= length l)%nat -> (off <= i < off + length src)%nat ->
  splice off src l !! i = src !! (i - off)%nat.
Proof.
  intros. unfold splice.
  rewrite lookup_app_r by (rewrite length_take; lia).
  rewrite lookup_app_l by (rewrite length_take; lia).
  f_equal. rewrite length_take. lia.
Qed.

Lemma lookup_splice_out off src l i :
  (off + length src <= length l)%nat -> ¬ (off <= i < off + length src)%nat ->
  splice off src l !! i = l !! i.
Proof.
  intros. unfold splice. destruct (decide (i < off)%nat).
  - by rewrite lookup_app_l, lookup_take_lt by (rewrite ?length_take; lia).
  - rewrite lookup_app_r by (rewrite length_take; lia).
    rewrite lookup_app_r by (rewrite length_take; lia).
    rewrite lookup_drop. f_equal. rewrite length_take. lia.
Qed.

Lemma slice_splice_same off src l :
  (off <= length l)%nat -> slice off (length src) (splice off src l) = src.
Proof.
  intros. unfold slice, splice.
  rewrite drop_app_le by (rewrite length_take; lia).
  rewrite drop_ge by (rewrite length_take; lia). simpl.
  by rewrite take_app_le, take_ge by lia.
Qed.

Lemma slice_splice_disjoint off n off' src l :
  (off' + length src <= length l)%nat ->
  (off + n <= off' \/ off' + length src <= off)%nat ->
  slice off n (splice off' src l) = slice off n l.
Proof.
  intros. apply list_eq; intros i. destruct (decide (i < n)%nat).
  - rewrite !lookup_slice, lookup_splice_out by lia. done.
  - unfold slice. rewrite !lookup_take_ge by lia. done.
Qed.

Lemma splice_slice_id off n l :
  (off + n <= length l)%nat -> splice off (slice off n l) l = l.
Proof.
  intros. apply list_eq; intros i. destruct (decide (off <= i < off + n)%nat).
  - rewrite lookup_splice_in by (rewrite ?length_slice; lia).
    rewrite lookup_slice by lia. f_equal. lia.
  - rewrite lookup_splice_out; [done|rewrite length_slice; lia..].
Qed.

Lemma length_filter_insert (P : A -> bool) l i a b :
  l !! i = Some a ->
  (length (List.filter P (<[i := b]> l)) + Nat.b2n (P a) = length (List.filter P l) + Nat.b2n (P b))%nat.
Proof.
  revert i. induction l as [|x l IH]; intros i Hi; [done|]. destruct i as [|i].
  - injection Hi as ->. change (<[0%nat := b]> (a :: l)) with (b :: l). cbn [List.filter].
    destruct (P a), (P b); cbn [length Nat.b2n]; lia.
  - change (<[S i := b]> (x :: l)) with (x :: <[i := b]> l). cbn [List.filter].
    specialize (IH i Hi). destruct (P x); cbn [length]; lia.
Qed.

Lemma alter_as_insert (f : A -> A) i x l : l !! i = Some x -> alter f i l = <[i := f x]> l.
Proof.
  intros Hx. apply list_eq. intros j. destruct (decide (i = j)) as [->|].
  - rewrite list_lookup_alter_eq, Hx, list_lookup_insert_eq; [done|by eapply lookup_lt_Some].
  - by rewrite list_lookup_alter_ne, list_lookup_insert_ne.
Qed.

Lemma alter_none (f : A -> A) i l : l !! i = None -> alter f i l = l.
Proof.
  intros H. apply list_eq. intros j. destruct (decide (i = j)) as [<-|]; [by rewrite list_lookup_alter_eq, H|].
  by apply list_lookup_alter_ne.
Qed.

Lemma Forall_splice (P : A -> Prop) off src l :
  Forall P src -> Forall P l -> Forall P (splice off src l).
Proof.
  intros. unfold splice. rewrite !Forall_app. repeat split; auto using Forall_take, Forall_drop.
Qed.

Lemma Forall_slice (P : A -> Prop) off n l : Forall P l -> Forall P (slice off n l).
Proof. intros. unfold slice. auto using Forall_take, Forall_drop. Qed.
End slices.

(** The first integer of a range that satisfies a test. *)
Lemma find_seqZ (P : Z -> bool) n : forall a,
  match List.find P (seqZ a n) with
  | Some i => a <= i < a + n /\ P i = true /\ forall j, a <= j < i -> P j = false
  | None => forall j, a <= j < a + n -> P j = false
  end.
Proof.
  destruct (Z.lt_ge_cases 0 n) as [Hn|Hn].
  2: { intros a. rewrite seqZ_nil by lia. cbn. intros; lia. }
  assert (exists k, n = Z.of_nat k) as [k ->] by (exists (Z.to_nat n); lia). clear Hn.
  induction k as [|k IH]; intros a; [rewrite seqZ_nil by lia; cbn; intros; lia|].
  rewrite seqZ_cons by lia. cbn [List.find]. destruct (P a) eqn:Ea.
  - split_and!; [lia..|done|intros; lia].
  - replace (Z.pred (Z.of_nat (S k))) with (Z.of_nat k) by lia. specialize (IH (Z.succ a)).
    destruct (List.find _ _) as [i|].
    + destruct IH as (? & ? & Hlt). split_and!; [lia..|done|]. intros j Hj.
      destruct (decide (j = a)) as [->|]; [done|apply Hlt; lia].
    + intros j Hj. destruct (decide (j = a)) as [->|]; [done|apply IH; lia].
Qed.

(** ** The effect monad

    C code that threads state and can stop is a function of its state into
    an outcome and a final state.  [Ret] is a normal return; [Halt] says why
    control did not come back: a kernel [panic], a process [exit], a null
    pointer dereference, an access past the end of an object, a call that
    would sleep, or (for loops written with fuel) exhausted fuel. *)

Inductive halt : Type :=
| Panic (msg : string)
| Exited
| NullDeref
| OutOfBounds
| WouldBlock
| NoFuel.

#[global] Instance halt_eq_dec : EqDecision halt.
Proof. solve_decision. Defined.

Inductive outcome (A : Type) : Type :=
| Ret (a : A)
| Halt (h : halt).
Arguments Ret {A} a.
Arguments Halt {A} h.

Definition M (S A : Type) : Type := S -> outcome A * S.

#[global] Instance M_ret S : MRet (M S) := fun A a s => (Ret a, s).
#[global] Instance M_bind S : MBind (M S) := fun A B f m s =>
  match m s with
  | (Ret a, s') => f a s'
  | (Halt h, s') => (Halt h, s')
  end.

Section monad.
Context {S : Type}.

Definition getS : M S S := fun s => (Ret s, s).
Definition gets {A} (f : S -> A) : M S A := fun s => (Ret (f s), s).
Definition modify (f : S -> S) : M S unit := fun s => (Ret tt, f s).
Definition halt_with {A} (h : halt) : M S A := fun s => (Halt h, s).
Definition panic {A} (msg : string) : M S A := halt_with (Panic msg).

(** [when b m] is [if(b) m;] and [option_or] dereferences a pointer that
    the model represents by an option. *)
Definition when (b : bool) (m : M S unit) : M S unit := if b then m else mret tt.
Definition of_option {A} (h : halt) (o : option A) : M S A :=
  match o with Some a => mret a | None => halt_with h end.

(** [for_each xs body] runs [body] on each element in turn; a body that
    answers [Some r] is an early [return r] (or a [break] carrying [r]). *)
Fixpoint for_each {X R} (xs : list X) (body : X -> M S (option R)) : M S (option R) :=
  match xs with
  | [] => mret None
  | x :: xs =>
      r ← body x;
      match r with
      | Some _ => mret r
      | None => for_each xs body
      end
  end.

(** [while fuel step a] iterates a loop body on its loop-carried variables:
    [inl a'] goes round again, [inr r] leaves the loop with [r]. *)
Fixpoint while {X R} (fuel : nat) (step : X -> M S (X + R)) (a : X) : M S R :=
  match fuel with
  | O => halt_with NoFuel
  | Datatypes.S fuel =>
      r ← step a;
      match r with
      | inl a' => while fuel step a'
      | inr r => mret r
      end
  end.

(** *** Weakest preconditions

    [wp m Q E s]: run from [s], [m] either returns with [Q] or halts with
    [E].  With [E := no_halt] this is total correctness: [m] returns. *)
Definition wp {A} (m : M S A) (Q : A -> S -> Prop) (E : halt -> S -> Prop) (s : S) : Prop :=
  match m s with
  | (Ret a, s') => Q a s'
  | (Halt h, s') => E h s'
  end.

Definition no_halt : halt -> S -> Prop := fun _ _ => False.

Lemma wp_ret {A} (a : A) (Q : A -> S -> Prop) (E : halt -> S -> Prop) s :
  Q a s -> wp (mret a) Q E s.
Proof. done. Qed.

Lemma wp_bind {A B} (m : M S A) (f : A -> M S B) Q E s :
  wp m (fun a s' => wp (f a) Q E s') E s -> wp (m ≫= f) Q E s.
Proof. unfold wp, mbind, M_bind. by destruct (m s) as [[a|h] s']. Qed.

Lemma wp_bind_inv {A B} (m : M S A) (f : A -> M S B) Q E s :
  wp (m ≫= f) Q E s -> wp m (fun a s' => wp (f a) Q E s') E s.
Proof. unfold wp, mbind, M_bind. by destruct (m s) as [[a|h] s']. Qed.

Lemma wp_mono {A} (m : M S A) (Q Q' : A -> S -> Prop) (E E' : halt -> S -> Prop) s :
  wp m Q E s -> (forall a s', Q a s' -> Q' a s') -> (forall h s', E h s' -> E' h s') ->
  wp m Q' E' s.
Proof. unfold wp. destruct (m s) as [[a|h] s']; eauto. Qed.

Lemma wp_conseq {A} (m : M S A) (Q Q' : A -> S -> Prop) (E : halt -> S -> Prop) s :
  wp m Q E s -> (forall a s', Q a s' -> Q' a s') -> wp m Q' E s.
Proof. intros. eapply wp_mono; eauto. Qed.

Lemma wp_total {A} (m : M S A) (Q Q' : A -> S -> Prop) (E : halt -> S -> Prop) s :
  wp m Q no_halt s -> (forall a s', Q a s' -> Q' a s') -> wp m Q' E s.
Proof. intros. eapply wp_mono; eauto. by intros ? ? []. Qed.

Lemma wp_and {A} (m : M S A) (Q Q' : A -> S -> Prop) (E : halt -> S -> Prop) s :
  wp m Q no_halt s -> wp m Q' E s -> wp m (fun a s' => Q a s' /\ Q' a s') no_halt s.
Proof. unfold wp. by destruct (m s) as [[a|h] s']. Qed.

Lemma wp_get (Q : S -> S -> Prop) E s : Q s s -> wp getS Q E s.
Proof. done. Qed.
Lemma wp_gets {A} (f : S -> A) (Q : A -> S -> Prop) E s : Q (f s) s -> wp (gets f) Q E s.
Proof. done. Qed.
Lemma wp_modify f (Q : unit -> S -> Prop) E s : Q tt (f s) -> wp (modify f) Q E s.
Proof. done. Qed.
Lemma wp_halt {A} h (Q : A -> S -> Prop) (E : halt -> S -> Prop) s :
  E h s -> wp (halt_with h) Q E s.
Proof. done. Qed.
Lemma wp_of_option {A} h (o : option A) a (Q : A -> S -> Prop) E s :
  o = Some a -> Q a s -> wp (of_option h o) Q E s.
Proof. by intros ->. Qed.

(** A run that returns, read off its weakest precondition. *)
Lemma wp_run {A} (m : M S A) Q s :
  wp m Q no_halt s <-> exists a s', m s = (Ret a, s') /\ Q a s'.
Proof.
  unfold wp, no_halt. destruct (m s) as [[a|h] s']; split; [|naive_solver..]. eauto.
Qed.

(** The state a run ends in, when it is known to return. *)
Definition returned {A} (o : outcome A) : bool := match o with Ret _ => true | Halt _ => false end.

Lemma wp_final {A} (m : M S A) (Q : S -> Prop) E s : wp m (fun _ s' => Q s') E s -> returned (m s).1 = true -> Q (m s).2.
Proof. unfold wp. by destruct (m s) as [[a|h] s']. Qed.

(** A loop that may return early: [I] holds of what is left to visit. *)
Lemma wp_for_each {X R} (I : list X -> S -> Prop) (xs : list X)
    (body : X -> M S (option R)) (Q : option R -> S -> Prop) E s :
  I xs s ->
  (forall x xs s, I (x :: xs) s ->
     wp (body x) (fun r s' => match r with Some _ => Q r s' | None => I xs s' end) E s) ->
  (forall s, I [] s -> Q None s) ->
  wp (for_each xs body) Q E s.
Proof.
  intros HI Hbody Hnil. revert s HI. induction xs as [|x xs IH]; intros s HI.
  { by apply wp_ret, Hnil. }
  cbn [for_each]. apply wp_bind. eapply wp_conseq; [by apply Hbody|].
  intros [r|] s' H; [by apply wp_ret|by apply IH].
Qed.

(** A counting loop [for(i = a; i < a + n; i++)] without early exit. *)
Lemma wp_for_seqZ {R} (J : Z -> S -> Prop) a n (body : Z -> M S (option R)) (Q : option R -> S -> Prop) E s :
  0 <= n -> J a s ->
  (forall i s, a <= i < a + n -> J i s -> wp (body i) (fun r s' => r = None /\ J (i + 1) s') E s) ->
  (forall s, J (a + n) s -> Q None s) ->
  wp (for_each (seqZ a n) body) Q E s.
Proof.
  intros Hn HJ Hbody Hend.
  apply (wp_for_each (fun xs s => exists i, xs = seqZ i (a + n - i) /\ a <= i <= a + n /\ J i s)).
  - exists a. split_and!; [f_equal; lia|lia..|done].
  - intros x xs s0 (i & E0 & Hi & Hs). destruct (decide (i = a + n)) as [->|Hne].
    { rewrite Z.sub_diag in E0. done. }
    rewrite seqZ_cons in E0 by lia. injection E0 as -> ->.
    eapply wp_conseq; [apply Hbody; [lia|done]|]. intros r s1 [-> Hs1]. exists (i + 1).
    split_and!; [unfold Z.succ; f_equal; lia|lia..|done].
  - intros s0 (i & E0 & Hi & Hs). destruct (decide (i = a + n)) as [->|Hne]; [by apply Hend|].
    rewrite seqZ_cons in E0 by lia. done.
Qed.

(** A [while] loop terminates when a measure below the fuel decreases. *)
Lemma wp_while {X R} (I : X -> S -> Prop) (mu : X -> nat) (step : X -> M S (X + R))
    (Q : R -> S -> Prop) E fuel x s :
  I x s -> (mu x < fuel)%nat ->
  (forall x s, I x s ->
     wp (step x) (fun r s' => match r with
                              | inl x' => I x' s' /\ (mu x' < mu x)%nat
                              | inr r => Q r s'
                              end) E s) ->
  wp (while fuel step x) Q E s.
Proof.
  intros HI Hmu Hstep. revert x s HI Hmu.
  induction fuel as [|fuel IH]; intros x s HI Hmu; [lia|].
  cbn [while]. apply wp_bind. eapply wp_conseq; [by apply Hstep|].
  intros [x'|r] s'; simpl; [|by intros; apply wp_ret].
  intros [HI' Hlt]. apply IH; [done|lia].
Qed.

(** When any way of stopping is acceptable, the invariant of a loop suffices. *)
Definition any_halt : halt -> S -> Prop := fun _ _ => True.

Lemma wp_while_any {X R} (I : X -> S -> Prop) (step : X -> M S (X + R)) (Q : R -> S -> Prop) fuel x s :
  I x s ->
  (forall x s, I x s ->
     wp (step x) (fun r s' => match r with inl x' => I x' s' | inr r => Q r s' end) any_halt s) ->
  wp (while fuel step x) Q any_halt s.
Proof.
  intros HI Hstep. revert x s HI. induction fuel as [|fuel IH]; intros x s HI; [done|].
  cbn [while]. apply wp_bind. eapply wp_conseq; [by apply Hstep|].
  intros [x'|r] s'; simpl; [apply IH|apply wp_ret].
Qed.

(** A run that is known to return has nothing to say about stopping. *)
Lemma wp_any_total {A} (m : M S A) (Q : A -> S -> Prop) s :
  wp m Q any_halt s -> wp m (fun _ _ => True) no_halt s -> wp m Q no_halt s.
Proof. unfold wp. by destruct (m s) as [[a|h] s']. Qed.

Lemma wp_of_option_any {A} h (o : option A) (Q : A -> S -> Prop) s :
  (forall a, o = Some a -> Q a s) -> wp (of_option h o) Q any_halt s.
Proof. intros HQ. destruct o; [by apply wp_ret, HQ|done]. Qed.
End monad.

(** [wp_step] peels one operation off the goal; [wp_call L] consumes a call
    whose specification is the total-correctness lemma [L]. *)
Ltac wp_step :=
  lazymatch goal with
  | |- wp (mbind _ _) _ _ _ => apply wp_bind
  | |- wp (mret _) _ _ _ => apply wp_ret
  | |- wp getS _ _ _ => apply wp_get
  | |- wp (gets _) _ _ _ => apply wp_gets
  | |- wp (modify _) _ _ _ => apply wp_modify
  | |- wp (halt_with _) _ _ _ => apply wp_halt
  | |- wp (when true _) _ _ _ => cbn [when]
  | |- wp (when false _) _ _ _ => cbn [when]
  | |- wp (if ?b then _ else _) _ _ _ => let H := fresh "Hif" in destruct b eqn:H
  | |- wp (match ?o with Some _ => _ | None => _ end) _ _ _ =>
      let H := fresh "Hopt" in destruct o eqn:H
  end.
Ltac wp_steps := repeat (wp_step; try done).
Tactic Notation "wp_call" uconstr(L) := eapply wp_total; [eapply L|].
