(* ===== verification/CString.v ===== *)
(** * CString: the byte-string routines of string.c and ulib.c

    Memory is a list of bytes and a pointer an index into it, so that source
    and destination of a move may overlap.  The NUL-terminated routines take
    the memory from the pointer on; reading or writing past its end is
    [None] (the C code has no such check and would read whatever follows). *)
From S2P Require Import Prelude.

(** ** Moving and filling memory *)

(** x86.h: [rep stosb] and [rep stosl] (the latter stores a little-endian
    32-bit word per iteration). *)
Definition stosb (mem : list Z) (addr : nat) (data : Z) (cnt : nat) : list Z :=
  splice addr (replicate cnt (u8 data)) mem.
Definition stosl (mem : list Z) (addr : nat) (data : Z) (cnt : nat) : list Z :=
  splice addr (mjoin (replicate cnt (le_bytes 4 (u32 data)))) mem.

(** string.c [memset]: word stores when pointer and length are 4-aligned. *)
Definition memset (mem : list Z) (dst : nat) (c : Z) (n : nat) : list Z :=
  if ((dst mod 4 =? 0)%nat && (n mod 4 =? 0)%nat)%bool then
    let c := Z.land c 255 in
    stosl mem dst
      (Z.lor (Z.lor (Z.lor (Z.shiftl c 24) (Z.shiftl c 16)) (Z.shiftl c 8)) c)
      (n / 4)%nat
  else stosb mem dst c n.

(** [while(n-- > 0) *d++ = *s++;] *)
Fixpoint copy_up (mem : list Z) (d s n : nat) : list Z :=
  match n with
  | O => mem
  | S n => copy_up (<[d := default 0 (mem !! s)]> mem) (S d) (S s) n
  end.

(** [while(n-- > 0) *--d = *--s;], entered with both pointers past the end. *)
Fixpoint copy_down (mem : list Z) (d s n : nat) : list Z :=
  match n with
  | O => mem
  | S n' => copy_down (<[(d + n')%nat := default 0 (mem !! (s + n')%nat)]> mem) d s n'
  end.

(** string.c [memmove] (kernel). *)
Definition memmove (mem : list Z) (dst src n : nat) : list Z :=
  if ((src <? dst)%nat && (dst <? src + n)%nat)%bool
  then copy_down mem dst src n
  else copy_up mem dst src n.

(** ulib.c [memmove] (user programs): always copies upwards. *)
Definition umemmove (mem : list Z) (dst src n : nat) : list Z := copy_up mem dst src n.

(** string.c [memcmp]. *)
Fixpoint memcmp (v1 v2 : list Z) (n : nat) {struct n} : option Z :=
  match n with
  | O => Some 0
  | S n =>
      match v1, v2 with
      | a :: v1, b :: v2 => if a =? b then memcmp v1 v2 n else Some (a - b)
      | _, _ => None
      end
  end.

(** ** NUL-terminated strings *)

(** string.c [strncmp]; both bytes are read on every exit except [n == 0]. *)
Fixpoint strncmp (p q : list Z) (n : nat) {struct n} : option Z :=
  match n with
  | O => Some 0
  | S n =>
      match p, q with
      | a :: p', b :: q' =>
          if (negb (a =? 0) && (a =? b))%bool then strncmp p' q' n else Some (a - b)
      | _, _ => None
      end
  end.

(** ulib.c [strcmp]. *)
Fixpoint strcmp (p q : list Z) : option Z :=
  match p, q with
  | a :: p', b :: q' =>
      if (negb (a =? 0) && (a =? b))%bool then strcmp p' q' else Some (a - b)
  | _, _ => None
  end.

(** string.c and ulib.c [strlen]. *)
Fixpoint strlen (s : list Z) : option nat :=
  match s with
  | [] => None
  | c :: s => if c =? 0 then Some O else S <$> strlen s
  end.

(** [while(n-- > 0) *s++ = 0;] *)
Fixpoint zero_fill (s : list Z) (n : nat) {struct n} : option (list Z) :=
  match n with
  | O => Some s
  | S n => match s with _ :: s => (fun r => 0 :: r) <$> zero_fill s n | [] => None end
  end.

(** string.c and fsserver.c [strncpy]: copy up to the NUL, then pad with NULs. *)
Fixpoint strncpy (s t : list Z) (n : nat) {struct n} : option (list Z) :=
  match n with
  | O => Some s
  | S n =>
      match s, t with
      | _ :: s, c :: t =>
          (fun r => c :: r) <$> (if c =? 0 then zero_fill s n else strncpy s t n)
      | _, _ => None
      end
  end.

(** The loop of [safestrcpy], entered with [n > 0]; the final [*s = 0] lands
    on the byte after the copied NUL when the loop stopped at a NUL. *)
Fixpoint safestrcpy_loop (s t : list Z) (n : nat) {struct n} : option (list Z) :=
  match n with
  | O => match s with _ :: s => Some (0 :: s) | [] => None end
  | S n =>
      match s, t with
      | _ :: s, c :: t =>
          (fun r => c :: r) <$>
          (if c =? 0 then match s with _ :: s => Some (0 :: s) | [] => None end
           else safestrcpy_loop s t n)
      | _, _ => None
      end
  end.

(** string.c [safestrcpy]. *)
Definition safestrcpy (s t : list Z) (n : Z) : option (list Z) :=
  if n <=? 0 then Some s else safestrcpy_loop s t (Z.to_nat (n - 1)).

(** ulib.c [strcpy]. *)
Fixpoint strcpy (s t : list Z) : option (list Z) :=
  match s, t with
  | _ :: s, c :: t => (fun r => c :: r) <$> (if c =? 0 then Some s else strcpy s t)
  | _, _ => None
  end.

(** ulib.c [strchr]: the suffix at the first occurrence, [Some None] for the
    null pointer. *)
Fixpoint strchr (s : list Z) (c : Z) : option (option (list Z)) :=
  match s with
  | [] => None
  | x :: s' => if x =? 0 then Some None else if x =? c then Some (Some s) else strchr s' c
  end.

(** ulib.c [atoi]: accumulates in a 32-bit [int]. *)
Fixpoint atoi_loop (s : list Z) (n : Z) : option Z :=
  match s with
  | [] => None
  | c :: s =>
      if ((48 <=? c) && (c <=? 57))%bool
      then atoi_loop s (s32 (n * 10 + c - 48))
      else Some n
  end.
Definition atoi (s : list Z) : option Z := atoi_loop s 0.

(** ** Specifications *)

(** The characters of the C string at [s] that a routine bounded by [n]
    sees: up to the first NUL, at most [n] of them. *)
Fixpoint cstrn (n : nat) (s : list Z) : list Z :=
  match n, s with
  | S n, c :: s => if c =? 0 then [] else c :: cstrn n s
  | _, _ => []
  end.

(** The C string at [s], unbounded. *)
Fixpoint cstr (s : list Z) : list Z :=
  match s with
  | c :: s => if c =? 0 then [] else c :: cstr s
  | [] => []
  end.

Definition nul_terminated (s : list Z) : Prop := 0 ∈ s.

(** ** Scanning path names *)

Definition SLASH : Z := 47.

(** [while( *p == '/') p++;] *)
Fixpoint skip_slashes (p : list Z) : option (list Z) :=
  match p with
  | [] => None
  | c :: p' => if c =? SLASH then skip_slashes p' else Some p
  end.

(** [s = p; while( *p && *p != '/') p++; len = p - s;] *)
Fixpoint scan_elem (p : list Z) : option (nat * list Z) :=
  match p with
  | [] => None
  | c :: p' =>
      if (negb (c =? 0) && negb (c =? SLASH))%bool
      then (fun '(n, r) => (S n, r)) <$> scan_elem p'
      else Some (O, p)
  end.

Lemma lookup_copy_up n : forall mem d s i,
  (d + n <= length mem)%nat -> (s + n <= length mem)%nat -> (d <= s \/ s + n <= d)%nat ->
  copy_up mem d s n !! i =
    if decide (d <= i < d + n)%nat then mem !! (s + (i - d))%nat else mem !! i.
Proof.
  induction n as [|n IH]; intros mem d s i Hd Hs Hov; cbn [copy_up].
  { rewrite decide_False by lia. done. }
  destruct (lookup_lt_is_Some_2 mem s) as [x Hx]; [lia|]. rewrite Hx; cbn [from_option id].
  rewrite IH by (rewrite ?length_insert; lia).
  case_decide; case_decide; try lia.
  - rewrite list_lookup_insert_ne by lia. f_equal. lia.
  - assert (i = d) as -> by lia. rewrite list_lookup_insert_eq by lia.
    rewrite Nat.sub_diag, Nat.add_0_r. done.
  - rewrite list_lookup_insert_ne by lia. done.
Qed.

Lemma lookup_copy_down n : forall mem d s i,
  (d + n <= length mem)%nat -> (s <= d)%nat ->
  copy_down mem d s n !! i =
    if decide (d <= i < d + n)%nat then mem !! (s + (i - d))%nat else mem !! i.
Proof.
  induction n as [|n IH]; intros mem d s i Hd Hs; cbn [copy_down].
  { rewrite decide_False by lia. done. }
  destruct (lookup_lt_is_Some_2 mem (s + n)) as [x Hx]; [lia|]. rewrite Hx; cbn [from_option id].
  rewrite IH by (rewrite ?length_insert; lia).
  case_decide; case_decide; try lia.
  - rewrite list_lookup_insert_ne by lia. done.
  - assert (i = d + n)%nat as -> by lia. rewrite list_lookup_insert_eq by lia.
    rewrite <- Hx. f_equal. lia.
  - rewrite list_lookup_insert_ne by lia. done.
Qed.

Lemma lookup_splice_slice (mem : list Z) d s n i :
  (d + n <= length mem)%nat -> (s + n <= length mem)%nat ->
  splice d (slice s n mem) mem !! i =
    if decide (d <= i < d + n)%nat then mem !! (s + (i - d))%nat else mem !! i.
Proof.
  intros. case_decide.
  - rewrite lookup_splice_in by (rewrite ?length_slice; lia). by rewrite lookup_slice by lia.
  - rewrite lookup_splice_out; [done|rewrite length_slice; lia..].
Qed.

(** The kernel's [memmove] copies correctly whether or not the ranges
    overlap: afterwards the destination range holds what the source range
    held before the call, and every other byte is unchanged. *)
Lemma memmove_splice mem dst src n :
  (dst + n <= length mem)%nat -> (src + n <= length mem)%nat ->
  memmove mem dst src n = splice dst (slice src n mem) mem.
Proof.
  intros. apply list_eq; intros i. rewrite lookup_splice_slice by done. unfold memmove.
  destruct (_ && _)%bool eqn:E.
  - apply andb_prop in E as [E1%Nat.ltb_lt E2%Nat.ltb_lt]. by rewrite lookup_copy_down by lia.
  - rewrite lookup_copy_up; [done|lia..|].
    apply andb_false_iff in E as [E%Nat.ltb_ge|E%Nat.ltb_ge]; lia.
Qed.

Lemma umemmove_splice mem dst src n :
  (dst + n <= length mem)%nat -> (src + n <= length mem)%nat ->
  (dst <= src \/ src + n <= dst)%nat ->
  umemmove mem dst src n = splice dst (slice src n mem) mem.
Proof.
  intros. apply list_eq; intros i.
  by rewrite lookup_splice_slice, <- lookup_copy_up by done.
Qed.

Lemma memset_word c :
  0 <= c < 256 ->
  le_bytes 4 (u32 (Z.lor (Z.lor (Z.lor (Z.shiftl c 24) (Z.shiftl c 16)) (Z.shiftl c 8)) c))
  = replicate 4 c.
Proof.
  intros Hc.
  assert (Forall (fun c => le_bytes 4 (u32 (Z.lor (Z.lor (Z.lor (Z.shiftl c 24)
            (Z.shiftl c 16)) (Z.shiftl c 8)) c)) = replicate 4 c) (seqZ 0 256)) as H
    by (apply (bool_decide_unpack _); vm_compute; done).
  rewrite Forall_forall in H. apply H, elem_of_seqZ. lia.
Qed.

Lemma mjoin_replicate k m (x : Z) :
  mjoin (replicate k (replicate m x)) = replicate (k * m) x.
Proof.
  induction k as [|k IH]; [done|]. cbn [replicate].
  cbn [Nat.mul]. rewrite replicate_add, <- IH. done.
Qed.

Lemma memset_splice mem dst c n :
  memset mem dst c n = splice dst (replicate n (u8 c)) mem.
Proof.
  unfold memset. destruct (_ && _)%bool eqn:E; [|done].
  apply andb_prop in E as [_ E%Nat.eqb_eq].
  change 255 with (Z.ones 8). rewrite Z.land_ones by lia.
  pose proof (Z.mod_pos_bound c (2 ^ 8)) as Hr. unfold stosl, u8.
  rewrite memset_word by (apply Hr; lia). rewrite mjoin_replicate.
  do 2 f_equal. pose proof (Nat.div_mod_eq n 4). lia.
Qed.

Lemma cstrn_length n s : (length (cstrn n s) <= n)%nat.
Proof. revert s. induction n; intros [|c s]; simpl; try lia. case_match; simpl; [lia|]. specialize (IHn s). lia. Qed.

Lemma cstrn_cstr n s : (length s <= n)%nat -> cstrn n s = cstr s.
Proof.
  revert s. induction n; intros [|c s] H; simpl in *; try done; [lia|].
  case_match; [done|]. rewrite IHn by lia. done.
Qed.

Lemma cstrn_take n s : cstrn n s = take n (cstr s).
Proof.
  revert s. induction n; intros [|c s]; simpl; try done. case_match; [done|]. by rewrite IHn.
Qed.

Lemma cstr_no_nul s : 0 ∉ cstr s.
Proof.
  induction s as [|c s IH]; simpl; [set_solver|].
  destruct (Z.eqb_spec c 0); [set_solver|]. rewrite not_elem_of_cons; split; congruence || done.
Qed.

Lemma cstr_app_nul l r : 0 ∉ l -> cstr (l ++ 0 :: r) = l.
Proof.
  induction l as [|c l IH]; simpl; [done|]. rewrite not_elem_of_cons. intros [? ?].
  destruct (Z.eqb_spec c 0); [done|]. by rewrite IH.
Qed.

Lemma strlen_cstr s : nul_terminated s -> strlen s = Some (length (cstr s)).
Proof.
  unfold nul_terminated. induction s as [|c s IH]; simpl; [set_solver|].
  destruct (Z.eqb_spec c 0); [done|]. intros [|]%elem_of_cons; [done|]. by rewrite IH.
Qed.

Lemma zero_fill_spec n : forall s,
  (n <= length s)%nat -> zero_fill s n = Some (replicate n 0 ++ drop n s).
Proof.
  induction n as [|n IH]; intros s Hs; [done|]. destruct s as [|x s]; simpl in *; [lia|].
  rewrite IH by lia. reflexivity.
Qed.

Lemma strncpy_spec n : forall s t,
  (n <= length s)%nat -> (n <= length t \/ nul_terminated t)%nat ->
  strncpy s t n =
    Some (cstrn n t ++ replicate (n - length (cstrn n t)) 0 ++ drop n s).
Proof.
  induction n as [|n IH]; intros s t Hs Ht; [done|].
  destruct s as [|x s]; simpl in *; [lia|].
  destruct t as [|c t].
  { destruct Ht as [Ht|Ht]; [simpl in Ht; lia|by apply not_elem_of_nil in Ht]. }
  simpl. destruct (Z.eqb_spec c 0) as [->|Hc].
  - rewrite zero_fill_spec by lia. done.
  - rewrite IH; [done|lia|]. destruct Ht as [Ht|Ht]; [left; simpl in Ht; lia|right].
    by apply elem_of_cons in Ht as [|].
Qed.

Lemma safestrcpy_loop_spec n : forall s t,
  (n < length s)%nat -> (n <= length t \/ nul_terminated t)%nat ->
  exists r, safestrcpy_loop s t n = Some r /\ length r = length s /\
            nul_terminated r /\ cstr r = cstrn n t.
Proof.
  unfold nul_terminated. induction n as [|n IH]; intros s t Hs Ht.
  { destruct s as [|x s]; simpl in *; [lia|]. eexists; repeat split; [set_solver..]. }
  destruct s as [|x s]; simpl in *; [lia|].
  destruct t as [|c t]; [destruct Ht as [Ht|Ht]; [simpl in Ht; lia|set_solver]|].
  destruct (Z.eqb_spec c 0) as [->|Hc].
  - destruct s as [|y s]; simpl in *; [lia|]. eexists; repeat split; [set_solver..].
  - destruct (IH s t) as (r & -> & Hl & Hz & Hc'); [lia| |].
    { destruct Ht as [Ht|Ht]; [left; simpl in Ht; lia|right; set_solver]. }
    eexists; repeat split; simpl; [by rewrite Hl|set_solver|].
    destruct (Z.eqb_spec c 0); [done|]. by rewrite Hc'.
Qed.

(** [strncmp] answers 0 exactly when the two bounded C strings are equal. *)
Lemma strncmp_eq0 n : forall p q,
  (n <= length p \/ nul_terminated p)%nat -> (n <= length q \/ nul_terminated q)%nat ->
  exists r, strncmp p q n = Some r /\ (r = 0 <-> cstrn n p = cstrn n q).
Proof.
  unfold nul_terminated. induction n as [|n IH]; intros p q Hp Hq; [by eexists|].
  destruct p as [|a p]; [destruct Hp as [Hp|Hp]; [simpl in Hp; lia|by apply not_elem_of_nil in Hp]|].
  destruct q as [|b q]; [destruct Hq as [Hq|Hq]; [simpl in Hq; lia|by apply not_elem_of_nil in Hq]|].
  simpl. destruct (Z.eqb_spec a 0) as [->|Ha]; simpl.
  { eexists; split; [done|]. destruct (Z.eqb_spec b 0); split; try done; lia. }
  destruct (Z.eqb_spec a b) as [->|Hab].
  - destruct (IH p q) as (r & -> & Hr).
    { rewrite elem_of_cons in Hp. simpl in Hp. destruct Hp as [?|[?|?]]; [left; lia|done|by right]. }
    { rewrite elem_of_cons in Hq. simpl in Hq. destruct Hq as [?|[?|?]]; [left; lia|done|by right]. }
    eexists; split; [done|]. rewrite Hr. destruct (Z.eqb_spec b 0); [done|].
    split; [congruence|]. by intros [=].
  - eexists; split; [done|]. split; [lia|]. destruct (Z.eqb_spec b 0); congruence.
Qed.

(** C0: [safestrcpy] always leaves a NUL-terminated string, the first
    [n - 1] characters of the source, inside its [n]-byte destination. *)
Theorem safestrcpy_terminates s t n :
  0 < n <= Z.of_nat (length s) -> nul_terminated t ->
  exists r, safestrcpy s t n = Some r /\ length r = length s /\ nul_terminated r /\
            cstr r = take (Z.to_nat (n - 1)) (cstr t).
Proof.
  intros Hn Ht. unfold safestrcpy. rewrite (proj2 (Z.leb_gt _ _)) by lia.
  destruct (safestrcpy_loop_spec (Z.to_nat (n - 1)) s t) as (r & E & Hl & Hz & Hc); [lia|by right|].
  exists r. by rewrite E, Hc, cstrn_take.
Qed.

Lemma safestrcpy_terminates_witness :
  exists r, safestrcpy [9; 9; 9; 9] [97; 98; 99; 100; 0] 4 = Some r /\ length r = 4%nat /\
            nul_terminated r /\ cstr r = take 3 (cstr [97; 98; 99; 100; 0]).
Proof. apply safestrcpy_terminates; [done|]. unfold nul_terminated. set_solver. Defined.

Lemma memmove_splice_witness :
  memmove [1; 2; 3; 4; 5] 1 0 4 = splice 1 (slice 0 4 [1; 2; 3; 4; 5]) [1; 2; 3; 4; 5].
Proof. apply memmove_splice; cbn; lia. Defined.
