(* ===== verification/FsFormat.v ===== *)
(** * FsFormat: configuration constants and the on-disk structures

    The constants of param.h, fs.h, stat.h, fcntl.h and ipc.h, and the
    structs that live in disk blocks (fs.h): [superblock], [dinode] and
    [dirent], each with the byte encoding gcc gives it on x86-64 (no
    padding, little-endian) and its round trips. *)
From S2P Require Import Prelude.

(** ** Constants *)
Definition ROOTINO : Z := 1.
Definition BSIZE : Z := 512.
Definition NDIRECT : Z := 12.
Definition NINDIRECT : Z := BSIZE / 4.
Definition MAXFILE : Z := NDIRECT + NINDIRECT.
Definition IPB : Z := BSIZE / 64.
Definition BPB : Z := BSIZE * 8.
Definition DIRSIZ : nat := 14.

Definition ROOTDEV : Z := 1.
Definition MAXOPBLOCKS : Z := 10.
Definition LOGSIZE : Z := MAXOPBLOCKS * 3.
Definition FSSIZE : Z := 1000.

Definition T_DIR : Z := 1.
Definition T_FILE : Z := 2.
Definition T_DEV : Z := 3.

Definition MAXARG : nat := 32.
Definition O_RDONLY : Z := 0.
Definition O_WRONLY : Z := 1.
Definition O_RDWR : Z := 2.
Definition O_CREATE : Z := 512.

(** ** fs.h structs *)
Record superblock := mkSb {
  sb_size : Z;
  sb_nblocks : Z;
  sb_ninodes : Z;
  sb_nlog : Z;
  sb_logstart : Z;
  sb_inodestart : Z;
  sb_bmapstart : Z;
}.

Record dinode := mkDinode {
  di_type : Z;
  di_major : Z;
  di_minor : Z;
  di_nlink : Z;
  di_size : Z;
  di_addrs : list Z;
}.

Record dirent := mkDirent {
  de_inum : Z;
  de_name : list Z;
}.

(** A [uint] of a block viewed as [uint*], and storing one. *)
Definition word_at (bs : list Z) (i : nat) : Z := le_Z (slice (4 * i) 4 bs).
Definition set_word (i : nat) (x : Z) (bs : list Z) : list Z :=
  splice (4 * i) (le_bytes 4 x) bs.

Definition decode_sb (bs : list Z) : superblock :=
  mkSb (word_at bs 0) (word_at bs 1) (word_at bs 2) (word_at bs 3)
       (word_at bs 4) (word_at bs 5) (word_at bs 6).
Definition encode_sb (sb : superblock) : list Z :=
  le_bytes 4 (sb_size sb) ++ le_bytes 4 (sb_nblocks sb) ++ le_bytes 4 (sb_ninodes sb) ++
  le_bytes 4 (sb_nlog sb) ++ le_bytes 4 (sb_logstart sb) ++ le_bytes 4 (sb_inodestart sb) ++
  le_bytes 4 (sb_bmapstart sb).

Definition sizeof_dinode : nat := 64.
Definition decode_dinode (bs : list Z) : dinode :=
  mkDinode (s16 (le_Z (slice 0 2 bs))) (s16 (le_Z (slice 2 2 bs)))
           (s16 (le_Z (slice 4 2 bs))) (s16 (le_Z (slice 6 2 bs)))
           (word_at bs 2) (word_at bs <$> seq 3 13).
Definition encode_dinode (d : dinode) : list Z :=
  le_bytes 2 (u16 (di_type d)) ++ le_bytes 2 (u16 (di_major d)) ++
  le_bytes 2 (u16 (di_minor d)) ++ le_bytes 2 (u16 (di_nlink d)) ++
  le_bytes 4 (di_size d) ++ mjoin (le_bytes 4 <$> di_addrs d).

Definition sizeof_dirent : nat := 16.
Definition decode_dirent (bs : list Z) : dirent :=
  mkDirent (le_Z (slice 0 2 bs)) (slice 2 DIRSIZ bs).
Definition encode_dirent (d : dirent) : list Z :=
  le_bytes 2 (u16 (de_inum d)) ++ de_name d.

(** [IBLOCK], [BBLOCK] (fs.h macros); the result is passed as a [uint]. *)
Definition IBLOCK (i : Z) (sb : superblock) : Z := u32 (i / IPB + sb_inodestart sb).
Definition BBLOCK (b : Z) (sb : superblock) : Z := u32 (b / BPB + sb_bmapstart sb).

(** [(struct dinode* )bp->data + inum % IPB]: byte offset within the block. *)
Definition dinode_off (inum : Z) : nat := Z.to_nat (inum mod IPB * 64).
Definition dinode_at (bs : list Z) (inum : Z) : dinode :=
  decode_dinode (slice (dinode_off inum) sizeof_dinode bs).
Definition set_dinode (inum : Z) (d : dinode) (bs : list Z) : list Z :=
  splice (dinode_off inum) (encode_dinode d) bs.

Definition zero_dinode : dinode := mkDinode 0 0 0 0 0 (replicate 13 0).

(** ** Bitmaps *)

(** [for(x = lo; x < hi; x += step)] *)
Definition for_range (lo hi step : Z) : list Z :=
  (fun k => lo + k * step) <$> seqZ 0 ((hi - lo + step - 1) / step).

Definition byte_at (d : list Z) (i : Z) : Z := default 0 (d !! Z.to_nat i).
Definition bit_mask (bi : Z) : Z := Z.shiftl 1 (bi mod 8).
Definition bit_clear (d : list Z) (bi : Z) : bool := Z.land (byte_at d (bi / 8)) (bit_mask bi) =? 0.
Definition set_bit (bi : Z) (d : list Z) : list Z :=
  <[Z.to_nat (bi / 8) := Z.lor (byte_at d (bi / 8)) (bit_mask bi)]> d.
Definition clear_bit (bi : Z) (d : list Z) : list Z :=
  <[Z.to_nat (bi / 8) := Z.ldiff (byte_at d (bi / 8)) (bit_mask bi)]> d.

(** ** Well-formedness *)
Definition dinode_ok (d : dinode) : Prop :=
  is_s16 (di_type d) /\ is_s16 (di_major d) /\ is_s16 (di_minor d) /\ is_s16 (di_nlink d) /\
  is_u32 (di_size d) /\ length (di_addrs d) = 13%nat /\ Forall is_u32 (di_addrs d).
Definition dirent_ok (d : dirent) : Prop :=
  is_u16 (de_inum d) /\ length (de_name d) = DIRSIZ /\ bytes_ok (de_name d).
Definition block_ok (bs : list Z) : Prop := length bs = 512%nat /\ bytes_ok bs.

(** ** Round trips *)

Lemma slice_join {A} (l : list A) a n m : slice a n l ++ slice (a + n) m l = slice a (n + m) l.
Proof.
  unfold slice. rewrite <- drop_drop. generalize (drop a l). intros k.
  rewrite <- (take_drop n k) at 3. destruct (decide (n <= length k)%nat).
  - rewrite take_app_ge by (rewrite length_take; lia).
    rewrite length_take, Nat.min_l by lia. by replace (n + m - n)%nat with m by lia.
  - rewrite (drop_ge k n), take_nil, !app_nil_r by lia. rewrite !take_ge; rewrite ?take_ge; lia || done.
Qed.

Lemma slice_all {A} (l : list A) n : length l = n -> slice 0 n l = l.
Proof. intros <-. apply take_ge. done. Qed.

Lemma le_bytes_slice off n bs :
  bytes_ok bs -> (off + n <= length bs)%nat -> le_bytes n (le_Z (slice off n bs)) = slice off n bs.
Proof.
  intros. rewrite <- (length_slice off n bs) at 1 by done. by apply le_bytes_Z, Forall_slice.
Qed.

Lemma le_Z_slice_range off n bs :
  bytes_ok bs -> (off + n <= length bs)%nat -> 0 <= le_Z (slice off n bs) < 256 ^ Z.of_nat n.
Proof.
  intros Hok Hl. pose proof (le_Z_range (slice off n bs)) as Hr.
  rewrite length_slice in Hr by done. by apply Hr, Forall_slice.
Qed.

Lemma u16_s16 x : is_u16 x -> u16 (s16 x) = x.
Proof.
  unfold is_u16, u16, s16. intros. rewrite Zminus_mod_idemp_l.
  replace (x + 2 ^ 15 - 2 ^ 15) with x by lia. by apply Z.mod_small.
Qed.

Lemma mjoin_words bs k m :
  bytes_ok bs -> (4 * (k + m) <= length bs)%nat ->
  mjoin (le_bytes 4 <$> (word_at bs <$> seq k m)) = slice (4 * k) (4 * m) bs.
Proof.
  intros Hok. revert k. induction m as [|m IH]; intros k Hl.
  { done. }
  cbn [seq fmap list_fmap mjoin list_join]. fold (mjoin (M:=list) (A:=Z)).
  change (list_fmap _ _ (le_bytes 4)) with (fmap (M:=list) (le_bytes 4)).
  change (list_fmap _ _ (word_at bs)) with (fmap (M:=list) (word_at bs)).
  rewrite IH by lia. unfold word_at. rewrite le_bytes_slice by (done || lia).
  replace (4 * S k)%nat with (4 * k + 4)%nat by lia. rewrite slice_join. f_equal. lia.
Qed.

(** Writing back the dinode read from a slot restores its bytes. *)
Lemma encode_decode_dinode bs :
  length bs = sizeof_dinode -> bytes_ok bs -> encode_dinode (decode_dinode bs) = bs.
Proof.
  unfold sizeof_dinode. intros Hl Hok. unfold encode_dinode, decode_dinode.
  cbn [di_type di_major di_minor di_nlink di_size di_addrs].
  assert (Hr : forall off, (off + 2 <= 64)%nat -> is_u16 (le_Z (slice off 2 bs))).
  { intros. apply (le_Z_slice_range off 2 bs); [done|lia]. }
  rewrite !u16_s16 by (apply Hr; lia).
  rewrite !le_bytes_slice, mjoin_words by (done || lia). unfold word_at.
  rewrite le_bytes_slice by (done || lia).
  pose proof (slice_join bs 8 4 52) as E5. pose proof (slice_join bs 6 2 56) as E4.
  pose proof (slice_join bs 4 2 58) as E3. pose proof (slice_join bs 2 2 60) as E2.
  pose proof (slice_join bs 0 2 62) as E1. simpl in *.
  rewrite E5, E4, E3, E2, E1. by apply slice_all.
Qed.

(** The dinode found in a slot is the one last stored there. *)
Lemma decode_encode_dinode d : dinode_ok d -> decode_dinode (encode_dinode d) = d.
Proof.
  destruct d as [ty ma mi nl sz ad]. unfold dinode_ok.
  cbn [di_type di_major di_minor di_nlink di_size di_addrs].
  intros (Ht & Hma & Hmi & Hnl & Hsz & Hlen & Hall).
  do 13 (destruct ad as [|? ad]; [done|]). destruct ad; [|done].
  rewrite !Forall_cons in Hall. destruct_and? Hall.
  unfold decode_dinode, encode_dinode.
  cbn [di_type di_major di_minor di_nlink di_size di_addrs].
  assert (Hs2 : forall x, is_s16 x -> s16 (le_Z (le_bytes 2 (u16 x))) = x).
  { intros. rewrite le_Z_bytes_2 by apply u16_range. by apply s16_u16. }
  f_equal; [by apply Hs2..|by apply le_Z_bytes_4|].
  cbn [seq fmap list_fmap]. unfold word_at.
  repeat (f_equal; [by apply le_Z_bytes_4|]). f_equal. by apply le_Z_bytes_4.
Qed.

Lemma length_encode_dinode d : length (di_addrs d) = 13%nat -> length (encode_dinode d) = sizeof_dinode.
Proof.
  destruct d as [ty ma mi nl sz ad]. cbn [di_addrs]. intros Hlen.
  do 13 (destruct ad as [|? ad]; [done|]). by destruct ad.
Qed.

Lemma decode_dinode_ok bs :
  length bs = sizeof_dinode -> bytes_ok bs -> dinode_ok (decode_dinode bs).
Proof.
  unfold sizeof_dinode. intros Hl Hok.
  assert (Hs : forall x, is_s16 (s16 x)).
  { intros x. unfold is_s16, s16. pose proof (Z.mod_pos_bound (x + 2 ^ 15) (2 ^ 16)). lia. }
  assert (Hw : forall i, (4 * i + 4 <= 64)%nat -> is_u32 (word_at bs i)).
  { intros i Hi. apply (le_Z_slice_range (4 * i) 4 bs); [done|lia]. }
  unfold dinode_ok, decode_dinode. cbn [di_type di_major di_minor di_nlink di_size di_addrs].
  repeat split; try apply Hs; try (apply Hw; lia).
  apply Forall_fmap, Forall_forall. intros i Hi%elem_of_seq. apply Hw. lia.
Qed.

Lemma decode_encode_dirent d : dirent_ok d -> decode_dirent (encode_dirent d) = d.
Proof.
  destruct d as [inum name]. unfold dirent_ok, decode_dirent, encode_dirent.
  cbn [de_inum de_name]. intros (Hi & Hl & _).
  rewrite u16_id by done. f_equal; [by apply le_Z_bytes_2|].
  cbn [le_bytes app slice]. unfold slice. cbn [drop skipn]. apply take_ge. by rewrite Hl.
Qed.

Lemma decode_encode_sb sb :
  is_u32 (sb_size sb) -> is_u32 (sb_nblocks sb) -> is_u32 (sb_ninodes sb) ->
  is_u32 (sb_nlog sb) -> is_u32 (sb_logstart sb) -> is_u32 (sb_inodestart sb) ->
  is_u32 (sb_bmapstart sb) -> decode_sb (encode_sb sb) = sb.
Proof.
  destruct sb. unfold decode_sb, encode_sb, word_at.
  cbn [sb_size sb_nblocks sb_ninodes sb_nlog sb_logstart sb_inodestart sb_bmapstart].
  intros. f_equal; by apply le_Z_bytes_4.
Qed.

Lemma length_set_word i x d : (4 * i + 4 <= length d)%nat -> length (set_word i x d) = length d.
Proof. intros H. unfold set_word. rewrite length_splice; [done|]. rewrite length_le_bytes. lia. Qed.

Lemma word_set_word i x d : (4 * i + 4 <= length d)%nat -> is_u32 x -> word_at (set_word i x d) i = x.
Proof.
  intros H Hx. unfold word_at, set_word. pose proof (slice_splice_same (4 * i) (le_bytes 4 x) d) as E.
  rewrite length_le_bytes in E. rewrite E by lia. by apply le_Z_bytes_4.
Qed.

Lemma word_set_word_ne i j x d : i ≠ j -> (4 * i + 4 <= length d)%nat -> word_at (set_word i x d) j = word_at d j.
Proof.
  intros Hij H. unfold word_at, set_word. f_equal. apply slice_splice_disjoint; rewrite ?length_le_bytes; lia.
Qed.

Lemma dinode_off_bound inum : (dinode_off inum + sizeof_dinode <= 512)%nat.
Proof.
  unfold dinode_off, sizeof_dinode. change IPB with 8.
  assert (0 <= inum mod 8 < 8) by (by apply Z.mod_pos_bound). lia.
Qed.

Lemma length_set_dinode inum d bs :
  length (di_addrs d) = 13%nat -> length bs = 512%nat -> length (set_dinode inum d bs) = 512%nat.
Proof.
  intros Hd Hb. unfold set_dinode. rewrite length_splice; [done|].
  rewrite length_encode_dinode, Hb by done. apply dinode_off_bound.
Qed.

(** An on-disk inode stored in its slot is the inode read back from it,
    and the other inodes of the block are not disturbed. *)
Theorem dinode_slot_roundtrip inum d bs :
  dinode_ok d -> length bs = 512%nat ->
  dinode_at (set_dinode inum d bs) inum = d /\
  forall j, j mod IPB ≠ inum mod IPB -> dinode_at (set_dinode inum d bs) j = dinode_at bs j.
Proof.
  intros Hd Hb. assert (H13 : length (di_addrs d) = 13%nat) by apply Hd.
  pose proof (length_encode_dinode d H13) as Hl. pose proof (dinode_off_bound inum) as Hi.
  unfold dinode_at, set_dinode. split.
  - rewrite <- Hl, slice_splice_same by lia. by apply decode_encode_dinode.
  - intros j Hj. f_equal. apply slice_splice_disjoint; [lia|]. rewrite Hl.
    unfold dinode_off, sizeof_dinode. change IPB with 8 in *.
    assert (0 <= inum mod 8 < 8 /\ 0 <= j mod 8 < 8) as [? ?] by (split; by apply Z.mod_pos_bound). lia.
Qed.

Lemma dinode_slot_roundtrip_witness :
  dinode_at (set_dinode 5 (mkDinode 2 0 0 1 600 (seqZ 20 13)) (replicate 512 0)) 5
    = mkDinode 2 0 0 1 600 (seqZ 20 13) /\
  forall j, j mod IPB ≠ 5 mod IPB ->
    dinode_at (set_dinode 5 (mkDinode 2 0 0 1 600 (seqZ 20 13)) (replicate 512 0)) j
    = dinode_at (replicate 512 0) j.
Proof.
  apply (dinode_slot_roundtrip 5); [|done]. split_and!; try done.
  repeat (constructor; [done|]). constructor.
Defined.

Lemma for_range_cons k hi step :
  0 < step -> 0 <= k -> k * step < hi ->
  (fun k => 0 + k * step) <$> seqZ k ((hi + step - 1) / step - k)
  = k * step :: ((fun k => 0 + k * step) <$> seqZ (k + 1) ((hi + step - 1) / step - (k + 1))).
Proof.
  intros Hs Hk Hlt. assert (k < (hi + step - 1) / step).
  { apply Z.lt_le_trans with (k + 1); [lia|]. apply Z.div_le_lower_bound; lia. }
  rewrite seqZ_cons by lia. cbn [fmap list_fmap]. f_equal. f_equal. f_equal; lia.
Qed.

Lemma length_set_bit bi d : length (set_bit bi d) = length d.
Proof. apply length_insert. Qed.

Lemma BBLOCK_group k bi sb : 0 <= bi < BPB -> BBLOCK (k * BPB + bi) sb = BBLOCK (k * BPB) sb.
Proof.
  intros Hbi. unfold BBLOCK. rewrite Z.div_add_l, Z.div_mul by done.
  rewrite (Z.div_small bi) by done. by rewrite Z.add_0_r.
Qed.

Lemma group_mod k bi : 0 <= bi < BPB -> (k * BPB + bi) mod BPB = bi.
Proof. intros. rewrite Z.add_comm, Z.mod_add by done. by apply Z.mod_small. Qed.

(** A loop [for(x = 0; x < hi; x += step)] that may return early; [J k] holds
    before the round of [k * step]. *)
Lemma wp_for_range {S R} (J : Z -> S -> Prop) hi step (body : Z -> M S (option R)) (Q : option R -> S -> Prop) E s :
  0 < step -> 0 <= hi -> J 0 s ->
  (forall k s, 0 <= k -> k * step < hi -> J k s ->
     wp (body (k * step)) (fun r s' => match r with Some _ => Q r s' | None => J (k + 1) s' end) E s) ->
  (forall k s, 0 <= k -> hi <= k * step -> J k s -> Q None s) ->
  wp (for_each (for_range 0 hi step) body) Q E s.
Proof.
  intros Hs Hh HJ Hbody Hend. unfold for_range. rewrite !Z.sub_0_r. set (cnt := (hi + step - 1) / step).
  assert (Hcnt : 0 <= cnt) by (apply Z.div_pos; lia).
  assert (Hlow : hi <= cnt * step).
  { pose proof (Z.mul_succ_div_gt (hi + step - 1) step Hs) as H. fold cnt in H. lia. }
  assert (Hup : forall k, k < cnt -> k * step < hi).
  { intros k Hk. pose proof (Z.mul_div_le (hi + step - 1) step Hs) as H. fold cnt in H. nia. }
  apply (wp_for_each (fun xs s => exists k, 0 <= k <= cnt /\
    xs = ((fun k => 0 + k * step) <$> seqZ k (cnt - k)) /\ J k s)).
  - exists 0. split_and!; [lia..|by rewrite Z.sub_0_r|done].
  - intros x xs s' (k & Hk & Hxs & Hj). destruct (decide (k = cnt)) as [->|]; [by rewrite Z.sub_diag, seqZ_nil in Hxs|].
    unfold cnt in Hxs. rewrite for_range_cons in Hxs by (done || lia || apply Hup; lia). injection Hxs as -> ->.
    eapply wp_conseq; [apply Hbody; [lia|apply Hup; lia|done]|].
    intros [r|] s2; [done|]. intros Hj2. exists (k + 1). split_and!; [lia..|done|done].
  - intros s' (k & Hk & Hxs & Hj). destruct (decide (k = cnt)) as [->|]; [by eapply Hend|].
    exfalso. rewrite seqZ_cons in Hxs by lia. done.
Qed.
