(* ===== verification/Ring.v ===== *)
(** * Ring: the circular doubly linked buffer list

    bio.c and fsserver.c both thread their buffers on a ring through the
    [prev]/[next] fields, with a header node.  Nodes are indices: [0 .. n-1]
    are the array elements and [n] is the header.  The pointer
    manipulations are kept as stores to the two arrays of links; [ring]
    relates a pair of link arrays to the sequence of nodes they thread. *)
From S2P Require Import Prelude.

Record links := mkLinks { l_prev : list nat; l_next : list nat }.

Definition prev_of (k : links) (i : nat) : nat := default O (l_prev k !! i).
Definition next_of (k : links) (i : nat) : nat := default O (l_next k !! i).
Definition set_prev (i v : nat) (k : links) : links := mkLinks (<[i := v]> (l_prev k)) (l_next k).
Definition set_next (i v : nat) (k : links) : links := mkLinks (l_prev k) (<[i := v]> (l_next k)).

(** [b->next = head.next; b->prev = &head; head.next->prev = b; head.next = b;] *)
Definition link_front (hd b : nat) (k : links) : links :=
  let k := set_next b (next_of k hd) k in
  let k := set_prev b hd k in
  let k := set_prev (next_of k hd) b k in
  set_next hd b k.

(** [b->next->prev = b->prev; b->prev->next = b->next;] *)
Definition unlink (b : nat) (k : links) : links :=
  let k := set_prev (next_of k b) (prev_of k b) k in
  set_next (prev_of k b) (next_of k b) k.

(** [head.prev = head.next = &head;], then every element linked at the front. *)
Definition links_init (n : nat) : links :=
  let k := mkLinks (replicate (S n) O) (replicate (S n) O) in
  let k := set_next n n (set_prev n n k) in
  foldl (fun k b => link_front n b k) k (seq 0 n).

(** [for(b = p; b != &head; b = step(b)) if(P(b)) return b;]: [None] when the
    fuel runs out, [Some None] when the header is reached. *)
Fixpoint scan (step : nat -> nat) (hd fuel p : nat) (P : nat -> bool) : option (option nat) :=
  match fuel with
  | O => None
  | S fuel =>
      if (p =? hd)%nat then Some None
      else if P p then Some (Some p) else scan step hd fuel (step p) P
  end.

Definition scan_next (k : links) (hd fuel : nat) (P : nat -> bool) : option (option nat) :=
  scan (next_of k) hd fuel (next_of k hd) P.
Definition scan_prev (k : links) (hd fuel : nat) (P : nat -> bool) : option (option nat) :=
  scan (prev_of k) hd fuel (prev_of k hd) P.

(** ** What the links represent *)

(** From node [a], following [next] visits [l] and arrives at [z]; the
    [prev] links lead back. *)
Fixpoint chain (nx pv : list nat) (a : nat) (l : list nat) (z : nat) : Prop :=
  match l with
  | [] => nx !! a = Some z /\ pv !! z = Some a
  | b :: l => nx !! a = Some b /\ pv !! b = Some a /\ chain nx pv b l z
  end.

Definition ring (n : nat) (k : links) (l : list nat) : Prop :=
  chain (l_next k) (l_prev k) n l n /\ NoDup (n :: l) /\
  length (l_next k) = S n /\ length (l_prev k) = S n.

Lemma chain_app nx pv l1 : forall a b l2 z,
  chain nx pv a (l1 ++ b :: l2) z <-> chain nx pv a l1 b /\ chain nx pv b l2 z.
Proof. induction l1 as [|c l1 IH]; intros; simpl; [tauto|]. rewrite IH. tauto. Qed.

Lemma chain_rev nx pv l : forall a z, chain nx pv a l z -> chain pv nx z (reverse l) a.
Proof.
  induction l as [|b l IH]; intros a z; simpl; [tauto|].
  intros (? & ? & Hc%IH). rewrite reverse_cons. apply chain_app. simpl. auto.
Qed.

Lemma chain_set nx pv i v j w l : forall a z,
  i ∉ a :: l -> j ∉ l ++ [z] ->
  chain nx pv a l z -> chain (<[i := v]> nx) (<[j := w]> pv) a l z.
Proof.
  induction l as [|b l IH]; intros a z Hi Hj; simpl.
  - rewrite !list_lookup_insert_ne by set_solver. done.
  - rewrite !list_lookup_insert_ne by set_solver. intros (?&?&?).
    repeat split; [done..|]. apply IH; set_solver.
Qed.

Lemma chain_lt nx pv l : forall a z x,
  chain nx pv a l z -> x ∈ a :: l -> (x < length nx)%nat.
Proof.
  induction l as [|b l IH]; intros a z x Hc Hx; simpl in Hc.
  - apply list_elem_of_singleton in Hx as ->. destruct Hc. by eapply lookup_lt_Some.
  - destruct Hc as (Ha & _ & Hc). apply elem_of_cons in Hx as [->|Hx]; [|by eapply IH].
    by eapply lookup_lt_Some.
Qed.

Lemma chain_lt_prev nx pv l : forall a z x,
  chain nx pv a l z -> x ∈ l ++ [z] -> (x < length pv)%nat.
Proof.
  intros a z x Hc Hx. eapply chain_lt; [by apply chain_rev|].
  rewrite elem_of_cons, elem_of_reverse. set_solver.
Qed.

Lemma chain_end nx pv l : forall a z, chain nx pv a l z -> exists y, pv !! z = Some y.
Proof. induction l; intros ? ?; simpl; [|naive_solver]. intros [_ ?]; eauto. Qed.

(** Evaluate lookups in updated link arrays. *)
Ltac links_simpl :=
  repeat match goal with
    | |- context [<[?i := ?x]> ?l !! ?j] =>
        first
          [ rewrite (list_lookup_insert_ne l i j x) by (congruence || lia)
          | rewrite (list_lookup_insert_eq l i x) by (rewrite ?length_insert; lia) ]
    end.

(** Pushing a node that is not on the ring, and removing one that is. *)
Lemma ring_link_front n k l b :
  ring n k l -> (b < n)%nat -> b ∉ l -> ring n (link_front n b k) (b :: l).
Proof.
  intros (Hc & Hnd & Hln & Hlp) Hb Hbl. unfold ring, link_front, set_next, set_prev.
  cbn [l_next l_prev]. rewrite !length_insert.
  split; [|split; [|done]].
  2:{ apply NoDup_cons in Hnd as [? ?]. rewrite !NoDup_cons. set_solver by lia. }
  assert (Hbn : b ≠ n) by lia.
  pose proof (NoDup_cons_1_1 _ _ Hnd) as Hnl.
  destruct l as [|c l]; unfold next_of; cbn [l_next l_prev chain] in *.
  - destruct Hc as [Hn Hp]. rewrite Hn. cbn [from_option id]. links_simpl.
    rewrite Hn. cbn [from_option id]. links_simpl. done.
  - destruct Hc as (Hn & Hp & Hc). rewrite Hn. cbn [from_option id]. links_simpl.
    rewrite Hn. cbn [from_option id].
    assert (c ≠ n /\ c ≠ b) as [Hcn Hcb] by set_solver.
    assert (c < S n)%nat by (rewrite <- Hln; eapply chain_lt; [exact Hc|set_solver]).
    links_simpl.
    repeat split; try done.
    apply NoDup_cons in Hnd as [Hncl Hnd]. apply NoDup_cons in Hnd as [Hcl Hnd].
    apply chain_set; [set_solver|set_solver|]. apply chain_set; set_solver.
Qed.

Lemma chain_prev_in nx pv l : forall a b y,
  chain nx pv a l b -> pv !! b = Some y -> y ∈ a :: l.
Proof.
  induction l as [|x l IH]; intros a b y; simpl; [intros [_ ->] [= ->]; set_solver|].
  intros (_ & _ & Hc) Hy. apply elem_of_cons; right. by eapply IH.
Qed.

Lemma chain_next_in nx pv l a b y : chain nx pv b l a -> nx !! b = Some y -> y ∈ l ++ [a].
Proof.
  destruct l; simpl; [intros [-> _] [= ->]; set_solver|]. intros (-> & _ & _) [= ->]. set_solver.
Qed.

Lemma chain_unlink nx pv b y c l1 : forall a l2 z,
  chain nx pv a (l1 ++ b :: l2) z -> NoDup (a :: l1 ++ b :: l2) -> z ∉ l1 ++ b :: l2 ->
  nx !! b = Some c -> pv !! b = Some y ->
  chain (<[y := c]> nx) (<[c := y]> pv) a (l1 ++ l2) z.
Proof.
  induction l1 as [|x l1 IH]; intros a l2 z; cbn [app chain].
  - intros (Ha & Hb & Hc) [Hnin Hnd]%NoDup_cons Hz Hnb Hpb.
    apply NoDup_cons in Hnd as [Hb2 Hnd]. assert (y = a) as -> by congruence.
    destruct l2 as [|d l2]; cbn [chain] in *.
    + destruct Hc as [Hbz Hzb]. assert (c = z) as -> by congruence.
      rewrite !list_lookup_insert_eq by (by eapply lookup_lt_Some). done.
    + destruct Hc as (Hbd & Hdb & Hc). assert (c = d) as -> by congruence.
      rewrite !list_lookup_insert_eq by (by eapply lookup_lt_Some).
      apply NoDup_cons in Hnd as [Hd _]. repeat split; try done.
      apply chain_set; [set_solver|set_solver|done].
  - intros (Ha & Hx & Hc) [Hnin Hnd]%NoDup_cons Hz Hnb Hpb.
    apply chain_app in Hc as Hc'. destruct Hc' as [Hc1 Hc2].
    pose proof (chain_prev_in _ _ _ _ _ _ Hc1 Hpb) as Hy.
    pose proof (chain_next_in _ _ _ _ _ _ Hc2 Hnb) as Hcin.
    pose proof (NoDup_cons_1_1 _ _ Hnd).
    rewrite !list_lookup_insert_ne by set_solver. repeat split; try done.
    apply IH; try done. set_solver.
Qed.

Lemma ring_unlink n k l1 b l2 :
  ring n k (l1 ++ b :: l2) -> ring n (unlink b k) (l1 ++ l2).
Proof.
  intros (Hc & Hnd & Hln & Hlp). unfold ring, unlink, set_next, set_prev.
  cbn [l_next l_prev]. rewrite !length_insert.
  assert (Hnd' : NoDup (n :: l1 ++ l2)).
  { eapply sublist_NoDup; [exact Hnd|]. apply sublist_skip, sublist_app; [done|by apply sublist_cons]. }
  apply chain_app in Hc as Hc'. destruct Hc' as [Hc1 Hc2].
  destruct (chain_end _ _ _ _ _ Hc1) as [y Hy].
  destruct (chain_end _ _ _ _ _ (chain_rev _ _ _ _ _ Hc2)) as [c Hcb].
  pose proof (chain_next_in _ _ _ _ _ _ Hc2 Hcb) as Hcin.
  apply NoDup_cons in Hnd as Hnd2. destruct Hnd2 as [Hn Hnd2].
  apply NoDup_app in Hnd2 as (_ & _ & Hnd2). apply NoDup_cons in Hnd2 as [Hb2 _].
  unfold next_of, prev_of. cbn [l_next l_prev]. rewrite Hcb, Hy. cbn [from_option id].
  rewrite list_lookup_insert_ne, Hy by set_solver. cbn [from_option id].
  split; [|done]. by eapply chain_unlink.
Qed.

(** The ring after initialisation: the elements, last linked first. *)
Lemma ring_init n : ring n (links_init n) (reverse (seq 0 n)).
Proof.
  unfold links_init.
  assert (forall m k, (m <= n)%nat -> ring n k [] ->
    ring n (foldl (fun k b => link_front n b k) k (seq 0 m)) (reverse (seq 0 m))) as H.
  { induction m as [|m IH]; intros k Hm Hk; [done|].
    rewrite seq_S, foldl_app, reverse_snoc. cbn [foldl].
    apply ring_link_front; [apply IH; [lia|done]|lia|].
    rewrite elem_of_reverse, elem_of_seq. lia. }
  apply H; [done|]. unfold ring, set_next, set_prev. cbn [l_next l_prev chain].
  rewrite !length_insert, !length_replicate, !list_lookup_insert_eq by (rewrite ?length_replicate; lia).
  repeat split; [|done..]. apply NoDup_singleton.
Qed.

(** Scanning visits the nodes in ring order and always terminates within
    one fuel unit per node and one for the header. *)
Lemma scan_chain nx pv (step : nat -> nat) hd P l : forall a fuel,
  chain nx pv a l hd -> hd ∉ l -> (forall i j, nx !! i = Some j -> step i = j) ->
  (length l < fuel)%nat -> scan step hd fuel (step a) P = Some (List.find P l).
Proof.
  induction l as [|b l IH]; intros a fuel; cbn [chain length].
  - intros [Ha _] _ Hstep Hf. destruct fuel; [lia|]. cbn [scan].
    by rewrite (Hstep a hd), Nat.eqb_refl.
  - intros (Ha & _ & Hc) Hhd Hstep Hf. destruct fuel as [|fuel]; [lia|]. cbn [scan].
    rewrite (Hstep a b) by done. destruct (Nat.eqb_spec b hd); [set_solver|].
    cbn [List.find]. destruct (P b); [done|]. apply IH; (done || set_solver || lia).
Qed.

Lemma scan_next_ring n k l P fuel :
  ring n k l -> (length l < fuel)%nat -> scan_next k n fuel P = Some (List.find P l).
Proof.
  intros (Hc & Hnd & _) Hf. apply (scan_chain (l_next k) (l_prev k)); [done| | |done].
  - by apply NoDup_cons in Hnd as [].
  - intros i j H. unfold next_of. by rewrite H.
Qed.

Lemma scan_prev_ring n k l P fuel :
  ring n k l -> (length l < fuel)%nat ->
  scan_prev k n fuel P = Some (List.find P (reverse l)).
Proof.
  intros (Hc & Hnd & _) Hf. apply (scan_chain (l_prev k) (l_next k)).
  - by apply chain_rev.
  - rewrite elem_of_reverse. by apply NoDup_cons in Hnd as [].
  - intros i j H. unfold prev_of. by rewrite H.
  - by rewrite length_reverse.
Qed.

(** A scan that stops at a node stops at one that satisfies the test. *)
Lemma scan_some step hd P i : forall fuel a, scan step hd fuel a P = Some (Some i) -> P i = true.
Proof.
  induction fuel as [|fuel IH]; intros a; cbn [scan]; [done|].
  destruct (a =? hd)%nat; [done|]. destruct (P a) eqn:E; [by intros [= <-]|apply IH].
Qed.
