(* ===== verification/Bio.v ===== *)
(** * Bio: sleep locks, the in-memory disk and the kernel buffer cache

    sleeplock.c, memide.c and bio.c.  The functions are those of one kernel
    thread: an operation that would put the thread to sleep halts with
    [WouldBlock].  Buffers are named by their index in [bcache.buf]; the LRU
    list is the ring of Ring.v. *)
From S2P Require Import Prelude Ring FsFormat.

Definition NBUF : nat := Z.to_nat (MAXOPBLOCKS * 3).
Definition B_VALID : Z := 2.
Definition B_DIRTY : Z := 4.

(** ** sleeplock.c *)
Record sleeplock := mkSleeplock { sl_locked : Z; sl_pid : Z }.

Definition initsleeplock : sleeplock := mkSleeplock 0 0.
(** [None]: [while(lk->locked) sleep(lk, &lk->lk)] puts the caller to sleep. *)
Definition acquiresleep (pid : Z) (lk : sleeplock) : option sleeplock :=
  if sl_locked lk =? 0 then Some (mkSleeplock 1 pid) else None.
Definition releasesleep (lk : sleeplock) : sleeplock := mkSleeplock 0 0.
Definition holdingsleep (lk : sleeplock) : bool := negb (sl_locked lk =? 0).

(** ** The cache state *)
Record buf := mkBuf {
  b_flags : Z;
  b_dev : Z;
  b_blockno : Z;
  b_lock : sleeplock;
  b_refcnt : Z;
  b_data : list Z;
}.

Definition set_flags (v : Z) (b : buf) : buf :=
  mkBuf v (b_dev b) (b_blockno b) (b_lock b) (b_refcnt b) (b_data b).
Definition set_lock (v : sleeplock) (b : buf) : buf :=
  mkBuf (b_flags b) (b_dev b) (b_blockno b) v (b_refcnt b) (b_data b).
Definition set_refcnt (v : Z) (b : buf) : buf :=
  mkBuf (b_flags b) (b_dev b) (b_blockno b) (b_lock b) v (b_data b).
Definition set_data (v : list Z) (b : buf) : buf :=
  mkBuf (b_flags b) (b_dev b) (b_blockno b) (b_lock b) (b_refcnt b) v.

(** [bcache] together with the memory disk behind it, and the writes the
    disk has performed so far, oldest first (what a power failure leaves
    behind is a prefix of them). *)
Record bcache := mkBcache {
  bc_buf : list buf;
  bc_links : links;
  bc_disk : list (list Z);
  bc_trace : list (nat * list Z);
}.

Definition upd_buf (i : nat) (f : buf -> buf) (s : bcache) : bcache :=
  mkBcache (alter f i (bc_buf s)) (bc_links s) (bc_disk s) (bc_trace s).
Definition set_links (k : links) (s : bcache) : bcache := mkBcache (bc_buf s) k (bc_disk s) (bc_trace s).
Definition set_disk (n : nat) (d : list Z) (s : bcache) : bcache :=
  mkBcache (bc_buf s) (bc_links s) (<[n := d]> (bc_disk s)) (bc_trace s ++ [(n, d)]).

Definition the_buf (i : nat) : M bcache buf :=
  s ← getS; of_option OutOfBounds (bc_buf s !! i).

(** [binit]: the static [bcache] is zeroed, then the list is threaded. *)
Definition zero_buf : buf := mkBuf 0 0 0 initsleeplock 0 (replicate 512 0).
Definition binit (disk : list (list Z)) : bcache :=
  mkBcache (replicate NBUF zero_buf) (links_init NBUF) disk [].

Definition has_flag (f : Z) (b : buf) : bool := negb (Z.land (b_flags b) f =? 0).

(** ** memide.c *)
Definition disksize (s : bcache) : Z := Z.of_nat (length (bc_disk s)).

Definition iderw (i : nat) : M bcache unit :=
  b ← the_buf i;
  if negb (holdingsleep (b_lock b)) then panic "iderw: buf not locked"
  else if Z.land (b_flags b) (Z.lor B_VALID B_DIRTY) =? B_VALID then panic "iderw: nothing to do"
  else if negb (b_dev b =? 1) then panic "iderw: request not for disk 1"
  else
    s ← getS;
    if disksize s <=? b_blockno b then panic "iderw: block out of range"
    else
      (if has_flag B_DIRTY b then
         modify (upd_buf i (set_flags (Z.ldiff (b_flags b) B_DIRTY)));;
         modify (set_disk (Z.to_nat (b_blockno b)) (b_data b))
       else
         d ← of_option OutOfBounds (bc_disk s !! Z.to_nat (b_blockno b));
         modify (upd_buf i (set_data d)));;
      modify (upd_buf i (fun b => set_flags (Z.lor (b_flags b) B_VALID) b)).

(** ** bio.c *)
Section bio.
(** [proc->pid] of the thread that runs the calls. *)
Context (mypid : Z).

Definition buf_is (s : bcache) (P : buf -> bool) (i : nat) : bool :=
  match bc_buf s !! i with Some b => P b | None => false end.

Definition acquire_buf (i : nat) : M bcache nat :=
  b ← the_buf i;
  match acquiresleep mypid (b_lock b) with
  | Some lk => modify (upd_buf i (set_lock lk));; mret i
  | None => halt_with WouldBlock
  end.

Definition bget (dev blockno : Z) : M bcache nat :=
  s ← getS;
  r ← of_option NoFuel (scan_next (bc_links s) NBUF (S NBUF)
        (buf_is s (fun b => (b_dev b =? dev) && (b_blockno b =? blockno))%bool));
  match r with
  | Some i =>
      modify (upd_buf i (fun b => set_refcnt (u32 (b_refcnt b + 1)) b));;
      acquire_buf i
  | None =>
      r ← of_option NoFuel (scan_prev (bc_links s) NBUF (S NBUF)
            (buf_is s (fun b => (b_refcnt b =? 0) && negb (has_flag B_DIRTY b))%bool));
      match r with
      | Some i =>
          modify (upd_buf i (fun b => mkBuf 0 dev blockno (b_lock b) 1 (b_data b)));;
          acquire_buf i
      | None => panic "bget: no buffers"
      end
  end.

Definition bread (dev blockno : Z) : M bcache nat :=
  i ← bget dev blockno;
  b ← the_buf i;
  when (negb (has_flag B_VALID b)) (iderw i);;
  mret i.

Definition bwrite (i : nat) : M bcache unit :=
  b ← the_buf i;
  if negb (holdingsleep (b_lock b)) then panic "bwrite"
  else
    modify (upd_buf i (fun b => set_flags (Z.lor (b_flags b) B_DIRTY) b));;
    iderw i.

Definition brelse (i : nat) : M bcache unit :=
  b ← the_buf i;
  if negb (holdingsleep (b_lock b)) then panic "brelse"
  else
    modify (upd_buf i (fun b => set_lock (releasesleep (b_lock b)) b));;
    modify (upd_buf i (fun b => set_refcnt (u32 (b_refcnt b - 1)) b));;
    b ← the_buf i;
    when (b_refcnt b =? 0)
      (modify (fun s => set_links (link_front NBUF i (unlink i (bc_links s))) s)).

(** *** How callers use the cache *)

(** [bp = bread(dev, n); ... bp->data ...; brelse(bp);] *)
Definition read_block (dev n : Z) : M bcache (list Z) :=
  i ← bread dev n;
  b ← the_buf i;
  brelse i;;
  mret (b_data b).

(** [bp = bread(dev, n); modify bp->data; bwrite(bp); brelse(bp);] *)
Definition update_block (dev n : Z) (f : list Z -> list Z) : M bcache unit :=
  i ← bread dev n;
  modify (upd_buf i (fun b => set_data (f (b_data b)) b));;
  bwrite i;;
  brelse i.
End bio.

(** ** The cache invariant *)

(** A buffer nobody uses: unlocked, unreferenced, and either never used or
    holding a valid block that equals the disk unless it is dirty. *)
Definition idle_ok (s : bcache) (b : buf) : Prop :=
  length (b_data b) = 512%nat /\ b_refcnt b = 0 /\ sl_locked (b_lock b) = 0 /\
  ((b_dev b = 0 /\ b_flags b = 0) \/
   (b_dev b = 1 /\ 0 <= b_blockno b < disksize s /\
    ((b_flags b = B_VALID /\ bc_disk s !! Z.to_nat (b_blockno b) = Some (b_data b)) \/
     b_flags b = Z.lor B_VALID B_DIRTY))).

(** The buffer a thread got from [bread] and may be modifying. *)
Definition held_ok (s : bcache) (b : buf) : Prop :=
  length (b_data b) = 512%nat /\ b_refcnt b = 1 /\ sl_locked (b_lock b) ≠ 0 /\
  b_dev b = 1 /\ 0 <= b_blockno b < disksize s /\
  (b_flags b = B_VALID \/ b_flags b = Z.lor B_VALID B_DIRTY).

(** No block is cached twice. *)
Definition uniq (bs : list buf) : Prop :=
  forall i j bi bj, bs !! i = Some bi -> bs !! j = Some bj ->
    b_dev bi = 1 -> b_dev bj = 1 -> b_blockno bi = b_blockno bj -> i = j.

(** [binv h l s]: the cache is coherent, [l] is the LRU order (most recently
    released first), and the buffers in use are those of [h]. *)
Definition binv (h : list nat) (l : list nat) (s : bcache) : Prop :=
  ring NBUF (bc_links s) l /\ l ≡ₚ seq 0 NBUF /\ length (bc_buf s) = NBUF /\
  Forall (fun d => length d = 512%nat) (bc_disk s) /\ uniq (bc_buf s) /\
  (forall i b, bc_buf s !! i = Some b -> if decide (i ∈ h) then held_ok s b else idle_ok s b).

Definition evictable (b : buf) : bool := (b_refcnt b =? 0) && negb (has_flag B_DIRTY b).

(** How many buffers can be recycled. *)
Definition nfree (s : bcache) : nat := length (List.filter evictable (bc_buf s)).

(** The contents of block [n] as the kernel sees them, and as the disk has them. *)
Definition is_block (n : Z) (b : buf) : bool := ((b_dev b =? 1) && (b_blockno b =? n))%bool.
Definition disk_at (s : bcache) (n : Z) : list Z := default [] (bc_disk s !! Z.to_nat n).
Definition view (s : bcache) (n : Z) : list Z :=
  match List.find (is_block n) (bc_buf s) with
  | Some b => b_data b
  | None => disk_at s n
  end.

(** ** Stepping lemmas *)
Definition with_buf (i : nat) (b : buf) (s : bcache) : bcache :=
  mkBcache (<[i := b]> (bc_buf s)) (bc_links s) (bc_disk s) (bc_trace s).

Lemma with_buf_twice i b b' s : with_buf i b' (with_buf i b s) = with_buf i b' s.
Proof. unfold with_buf. cbn. by rewrite list_insert_insert_eq. Qed.

Lemma with_buf_at i b b' s : bc_buf s !! i = Some b -> bc_buf (with_buf i b' s) !! i = Some b'.
Proof. intros H%lookup_lt_Some. by apply list_lookup_insert_eq. Qed.

Lemma with_buf_ne i j b s : i ≠ j -> bc_buf (with_buf i b s) !! j = bc_buf s !! j.
Proof. intros. by apply list_lookup_insert_ne. Qed.

Lemma upd_buf_with i f b s : bc_buf s !! i = Some b -> upd_buf i f s = with_buf i (f b) s.
Proof. intros H. unfold upd_buf, with_buf. f_equal. by apply alter_as_insert. Qed.

Lemma wp_upd i f b s (Q : unit -> bcache -> Prop) E :
  bc_buf s !! i = Some b -> Q tt (with_buf i (f b) s) -> wp (modify (upd_buf i f)) Q E s.
Proof. intros H HQ. apply wp_modify. by rewrite (upd_buf_with i f b). Qed.

Lemma wp_the_buf i b s (Q : buf -> bcache -> Prop) E :
  bc_buf s !! i = Some b -> Q b s -> wp (the_buf i) Q E s.
Proof. intros H HQ. unfold the_buf. apply wp_bind, wp_get. by apply wp_of_option with b. Qed.

Lemma iderw_read i b d s :
  bc_buf s !! i = Some b -> holdingsleep (b_lock b) = true -> b_flags b = 0 -> b_dev b = 1 ->
  b_blockno b < disksize s -> bc_disk s !! Z.to_nat (b_blockno b) = Some d ->
  wp (iderw i) (fun _ s' => s' = with_buf i (set_flags B_VALID (set_data d b)) s) no_halt s.
Proof.
  intros Hb Hl Hf Hdev Hn Hd. unfold iderw. wp_step. apply (wp_the_buf _ b); [done|].
  rewrite Hl, Hf, Hdev. cbn [negb].
  replace (Z.land 0 _ =? B_VALID) with false by done. cbn [Z.eqb Pos.eqb negb]. wp_step. wp_step.
  destruct (Z.leb_spec (disksize s) (b_blockno b)); [lia|].
  unfold has_flag. rewrite Hf. replace (Z.land 0 B_DIRTY =? 0) with true by done.
  cbn [negb]. wp_step. wp_step.
  apply (wp_of_option _ _ d); [done|]. apply (wp_upd _ _ b); [done|].
  eapply wp_upd; [by eapply with_buf_at|]. rewrite with_buf_twice. cbn. rewrite Hf. done.
Qed.

Lemma iderw_write i b s :
  bc_buf s !! i = Some b -> holdingsleep (b_lock b) = true -> has_flag B_DIRTY b = true ->
  b_dev b = 1 -> b_blockno b < disksize s ->
  wp (iderw i) (fun _ s' => s' =
      set_disk (Z.to_nat (b_blockno b)) (b_data b)
        (with_buf i (set_flags (Z.lor (Z.ldiff (b_flags b) B_DIRTY) B_VALID) b) s)) no_halt s.
Proof.
  intros Hb Hl Hf Hdev Hn. unfold iderw. wp_step. apply (wp_the_buf _ b); [done|].
  rewrite Hl, Hdev. cbn [negb].
  destruct (Z.eqb_spec (Z.land (b_flags b) (Z.lor B_VALID B_DIRTY)) B_VALID) as [E|E].
  { exfalso. revert Hf. unfold has_flag.
    replace (Z.land (b_flags b) B_DIRTY) with (Z.land (Z.land (b_flags b) (Z.lor B_VALID B_DIRTY)) B_DIRTY)
      by (rewrite <- Z.land_assoc; done).
    rewrite E. done. }
  cbn [Z.eqb Pos.eqb negb]. wp_step. wp_step.
  destruct (Z.leb_spec (disksize s) (b_blockno b)); [lia|].
  rewrite Hf. wp_step. wp_step. apply (wp_upd _ _ b); [done|]. apply wp_modify.
  eapply wp_upd; [by eapply with_buf_at|]. unfold set_disk, with_buf. cbn.
  by rewrite list_insert_insert_eq.
Qed.

Lemma binv_lookup h l s i : binv h l s -> i ∈ l -> exists b, bc_buf s !! i = Some b.
Proof.
  intros (_ & Hp & Hlen & _) Hi. apply lookup_lt_is_Some_2. rewrite Hlen.
  rewrite Hp in Hi. apply elem_of_seq in Hi. lia.
Qed.

Lemma binv_in_order h l s i b : binv h l s -> bc_buf s !! i = Some b -> i ∈ l.
Proof.
  intros (_ & Hp & Hlen & _) Hi. rewrite Hp. apply elem_of_seq. apply lookup_lt_Some in Hi. lia.
Qed.

Lemma order_length l : l ≡ₚ seq 0 NBUF -> (length l < S NBUF)%nat.
Proof. intros ->. rewrite length_seq. lia. Qed.

Lemma wp_acquire_buf pid i b s (Q : nat -> bcache -> Prop) E :
  bc_buf s !! i = Some b -> sl_locked (b_lock b) = 0 ->
  Q i (with_buf i (set_lock (mkSleeplock 1 pid) b) s) -> wp (acquire_buf pid i) Q E s.
Proof.
  intros Hb Hl HQ. unfold acquire_buf. wp_step. apply (wp_the_buf _ b); [done|].
  unfold acquiresleep. rewrite Hl. cbn [Z.eqb]. wp_step. apply (wp_upd _ _ b); [done|]. by wp_step.
Qed.

Lemma nfree_pos s : (0 < nfree s)%nat -> exists i b, bc_buf s !! i = Some b /\ evictable b = true.
Proof.
  unfold nfree. intros H. destruct (List.filter evictable (bc_buf s)) as [|b bs] eqn:E; [simpl in H; lia|].
  assert (Hin : List.In b (List.filter evictable (bc_buf s))) by (rewrite E; by left).
  apply List.filter_In in Hin as [Hin Hev]. apply list_elem_of_In, list_elem_of_lookup in Hin as [i Hi]. eauto.
Qed.

Lemma nfree_with i b b' s :
  bc_buf s !! i = Some b ->
  (nfree (with_buf i b' s) + Nat.b2n (evictable b) = nfree s + Nat.b2n (evictable b'))%nat.
Proof. intros Hb. unfold nfree. by apply length_filter_insert. Qed.

(** What [bget] hands out: the cached copy, or else the least recently
    released buffer that is neither referenced nor dirty. *)
Lemma bget_spec pid n h l s :
  binv h l s -> (0 < nfree s)%nat ->
  (forall i b, i ∈ h -> bc_buf s !! i = Some b -> is_block n b = false) ->
  wp (bget pid 1 n) (fun i s' => exists b b',
      bc_buf s !! i = Some b /\ (i ∉ h) /\ s' = with_buf i b' s /\
      ((is_block n b = true /\ b' = set_lock (mkSleeplock 1 pid) (set_refcnt 1 b)) \/
       (List.find (is_block n) (bc_buf s) = None /\ evictable b = true /\
        b' = mkBuf 0 1 n (mkSleeplock 1 pid) 1 (b_data b)))) no_halt s.
Proof.
  intros Hinv (j & bj & Hj & Hev)%nfree_pos Hfree. pose proof Hinv as (Hring & Hp & Hlen & Hdsk & Hu & Hall).
  unfold bget. wp_step. wp_step. wp_step.
  eapply wp_of_option; [by apply scan_next_ring, order_length|].
  destruct (List.find _ l) as [i|] eqn:Hf.
  - apply List.find_some in Hf as [Hin HP].
    destruct (binv_lookup _ _ _ i Hinv) as [b Hb]; [by apply list_elem_of_In|].
    unfold buf_is in HP. rewrite Hb in HP.
    assert (Hih : i ∉ h) by (intros Hih; specialize (Hfree _ _ Hih Hb); unfold is_block in Hfree; congruence).
    specialize (Hall _ _ Hb). rewrite decide_False in Hall by done. destruct Hall as (_ & Hrc & Hlk & _).
    wp_step. apply (wp_upd _ _ b); [done|].
    eapply wp_acquire_buf; [by eapply with_buf_at|done|].
    rewrite with_buf_twice, Hrc. exists b. eexists. split_and!; [done..|]. left. done.
  - wp_step. eapply wp_of_option; [by apply scan_prev_ring, order_length|].
    assert (Hnone : List.find (is_block n) (bc_buf s) = None).
    { destruct (List.find (is_block n) _) as [b|] eqn:Hfb; [|done].
      apply List.find_some in Hfb as [Hin%list_elem_of_In HP].
      apply list_elem_of_lookup in Hin as [i Hi].
      eapply List.find_none in Hf; [|apply list_elem_of_In; by eapply binv_in_order].
      unfold buf_is in Hf. rewrite Hi in Hf. unfold is_block in HP. congruence. }
    destruct (List.find _ (reverse l)) as [i|] eqn:Hfr.
    + apply List.find_some in Hfr as [Hin HP].
      apply list_elem_of_In in Hin. rewrite elem_of_reverse in Hin.
      destruct (binv_lookup _ _ _ i Hinv Hin) as [b Hb].
      unfold buf_is in HP. rewrite Hb in HP. pose proof HP as [Hrc0%Z.eqb_eq _]%andb_true_iff.
      specialize (Hall _ _ Hb). case_decide as Hih.
      { destruct Hall as (_ & Hrc & _). lia. }
      destruct Hall as (_ & _ & Hlk & _).
      wp_step. apply (wp_upd _ _ b); [done|].
      eapply wp_acquire_buf; [by eapply with_buf_at|done|].
      rewrite with_buf_twice. exists b. eexists. split_and!; [done..|]. right. done.
    + exfalso. eapply List.find_none in Hfr;
        [|apply list_elem_of_In, elem_of_reverse; by eapply binv_in_order].
      unfold buf_is in Hfr. rewrite Hj in Hfr. unfold evictable in Hev. congruence.
Qed.

Lemma is_block_true n b : is_block n b = true <-> b_dev b = 1 /\ b_blockno b = n.
Proof. unfold is_block. rewrite andb_true_iff, !Z.eqb_eq. done. Qed.

(** The view of a block is its cached copy when there is one. *)
Lemma view_cached s i b n :
  uniq (bc_buf s) -> bc_buf s !! i = Some b -> is_block n b = true -> view s n = b_data b.
Proof.
  intros Hu Hi HP. unfold view. destruct (List.find _ _) as [b'|] eqn:Hf.
  - apply List.find_some in Hf as [Hin%list_elem_of_In HP'].
    apply list_elem_of_lookup in Hin as [j Hj].
    apply is_block_true in HP as [? ?], HP' as [? ?].
    assert (i = j) as -> by (eapply Hu; eauto; congruence). congruence.
  - eapply List.find_none in Hf; [|apply list_elem_of_In, list_elem_of_lookup; eauto]. congruence.
Qed.

Lemma view_uncached s n :
  (forall i b, bc_buf s !! i = Some b -> is_block n b = false) -> view s n = disk_at s n.
Proof.
  intros H. unfold view. destruct (List.find _ _) as [b'|] eqn:Hf; [|done].
  apply List.find_some in Hf as [Hin%list_elem_of_In HP'].
  apply list_elem_of_lookup in Hin as [j Hj]. specialize (H _ _ Hj). congruence.
Qed.

Lemma find_none_lookup n bs : List.find (is_block n) bs = None ->
  forall i b, bs !! i = Some b -> is_block n b = false.
Proof.
  intros Hf i b Hi. eapply List.find_none; [exact Hf|].
  apply list_elem_of_In, list_elem_of_lookup; eauto.
Qed.

Lemma uniq_insert bs i b :
  uniq bs ->
  (forall j bj, j ≠ i -> bs !! j = Some bj -> b_dev b = 1 -> b_dev bj = 1 -> b_blockno bj ≠ b_blockno b) ->
  uniq (<[i := b]> bs).
Proof.
  intros Hu Hne j k bj bk Hj Hk Dj Dk En.
  apply list_lookup_insert_Some in Hj as [(<- & <- & _)|[Hj' Hj]];
    apply list_lookup_insert_Some in Hk as [(<- & <- & _)|[Hk' Hk]]; try done.
  - edestruct (Hne k bk); eauto.
  - edestruct (Hne j bj); eauto.
  - eapply Hu; eauto.
Qed.

Lemma uniq_same bs i b b' :
  uniq bs -> bs !! i = Some b -> b_dev b' = b_dev b -> b_blockno b' = b_blockno b ->
  uniq (<[i := b']> bs).
Proof.
  intros Hu Hi Hd Hn. apply uniq_insert; [done|]. intros j bj Hj Hbj D1 D2 E.
  apply Hj. eapply Hu; eauto; congruence.
Qed.

Lemma view_with_ne s i b b' m :
  uniq (bc_buf s) -> uniq (bc_buf (with_buf i b' s)) -> bc_buf s !! i = Some b ->
  is_block m b' = false -> (is_block m b = true -> b_data b = disk_at s m) ->
  view (with_buf i b' s) m = view s m.
Proof.
  intros Hu Hu' Hi Hb' Hb.
  destruct (List.find (is_block m) (bc_buf s)) as [bj|] eqn:Hf.
  - apply List.find_some in Hf as [Hin%list_elem_of_In HP].
    apply list_elem_of_lookup in Hin as [j Hj]. destruct (decide (i = j)) as [<-|Hne].
    + assert (b = bj) as <- by congruence.
      rewrite (view_cached s i b), Hb by done. rewrite view_uncached; [done|].
      intros k bk Hk. destruct (decide (i = k)) as [<-|Hik].
      { erewrite with_buf_at in Hk by done. congruence. }
      rewrite with_buf_ne in Hk by done. destruct (is_block m bk) eqn:E; [|done].
      apply is_block_true in E as [? ?], HP as [? ?]. destruct Hik. eapply Hu; eauto. congruence.
    + rewrite (view_cached s j bj) by done. rewrite (view_cached _ j bj); [done..| |done].
      by rewrite with_buf_ne.
  - pose proof (find_none_lookup _ _ Hf) as Hnone. rewrite !view_uncached; [done|done|].
    intros k bk Hk. destruct (decide (i = k)) as [<-|Hik].
    { erewrite with_buf_at in Hk by done. congruence. }
    rewrite with_buf_ne in Hk by done. eauto.
Qed.

(** What a thread that got buffer [i] from [bread] knows: it holds block [n]
    with data [d]. *)
Definition holds (i : nat) (n : Z) (d : list Z) (s : bcache) : Prop :=
  exists b, bc_buf s !! i = Some b /\ is_block n b = true /\ b_data b = d.

(** The buffer may be released: it equals the disk, or is marked dirty. *)
Definition settled (i : nat) (s : bcache) : Prop :=
  exists b, bc_buf s !! i = Some b /\ (b_flags b = B_VALID -> b_data b = disk_at s (b_blockno b)).

(** How many recyclable buffers releasing [i] gives back. *)
Definition gives_back (i : nat) (s : bcache) : nat :=
  match bc_buf s !! i with Some b => Nat.b2n (negb (has_flag B_DIRTY b)) | None => 0 end.

Lemma binv_hold h l s i b b' :
  binv h l s -> bc_buf s !! i = Some b -> i ∉ h -> held_ok s b' -> uniq (bc_buf (with_buf i b' s)) ->
  binv (i :: h) l (with_buf i b' s).
Proof.
  intros (Hr & Hp & Hlen & Hd & Hu & Hall) Hi Hih Hh Hu'.
  split_and!; try done; [cbn; by rewrite length_insert|].
  intros j bj Hj. destruct (decide (i = j)) as [<-|Hne].
  - rewrite decide_True by set_solver. erewrite with_buf_at in Hj by done. by injection Hj as <-.
  - rewrite with_buf_ne in Hj by done. specialize (Hall _ _ Hj).
    destruct (decide (j ∈ h)); [rewrite decide_True by set_solver|rewrite decide_False by set_solver]; done.
Qed.

(** Changing a buffer in use. *)
Lemma binv_held h l s i b b' :
  binv h l s -> bc_buf s !! i = Some b -> i ∈ h -> held_ok s b' ->
  b_dev b' = b_dev b -> b_blockno b' = b_blockno b -> binv h l (with_buf i b' s).
Proof.
  intros (Hr & Hp & Hlen & Hd & Hu & Hall) Hi Hih Hh E1 E2.
  split_and!; try done; [cbn; by rewrite length_insert|by eapply uniq_same|].
  intros j bj Hj. destruct (decide (i = j)) as [<-|Hne].
  - rewrite decide_True by done. erewrite with_buf_at in Hj by done. by injection Hj as <-.
  - rewrite with_buf_ne in Hj by done. by apply Hall.
Qed.

Lemma binv_held_ok h l s i b : binv h l s -> i ∈ h -> bc_buf s !! i = Some b -> held_ok s b.
Proof. intros (_ & _ & _ & _ & _ & Hall) Hi Hb. specialize (Hall _ _ Hb). by rewrite decide_True in Hall. Qed.

Lemma held_in_use s b : held_ok s b -> evictable b = false.
Proof. intros (_ & E & _). unfold evictable. by rewrite E. Qed.

Lemma block_lookup s n h l : binv h l s -> 0 <= n < disksize s ->
  exists d, bc_disk s !! Z.to_nat n = Some d /\ length d = 512%nat.
Proof.
  intros (_ & _ & _ & Hd & _) Hn.
  destruct (lookup_lt_is_Some_2 (bc_disk s) (Z.to_nat n)) as [d Hd'];
    [unfold disksize in Hn; lia|].
  exists d. split; [done|]. rewrite Forall_lookup in Hd. eauto.
Qed.

Lemma flags_not_dirty b : b_flags b = B_VALID -> has_flag B_DIRTY b = false.
Proof. intros E. unfold has_flag. by rewrite E. Qed.
Lemma flags_dirty b : b_flags b = Z.lor B_VALID B_DIRTY -> has_flag B_DIRTY b = true.
Proof. intros E. unfold has_flag. by rewrite E. Qed.

(** An evictable idle buffer agrees with the disk, so recycling it loses nothing. *)
Lemma evict_clean s b : idle_ok s b -> evictable b = true ->
  forall m, is_block m b = true -> b_data b = disk_at s m.
Proof.
  intros (_ & _ & _ & H) Hev m [Hd Hm]%is_block_true.
  apply andb_prop in Hev as [_ Hev]. destruct H as [[? _]|(_ & _ & [[_ H]|H])]; [congruence| |].
  - unfold disk_at. rewrite <- Hm. by rewrite H.
  - rewrite flags_dirty in Hev by done. done.
Qed.

Lemma view_with_same s i b b' m :
  uniq (bc_buf s) -> bc_buf s !! i = Some b -> b_dev b' = b_dev b -> b_blockno b' = b_blockno b ->
  b_data b' = b_data b -> view (with_buf i b' s) m = view s m.
Proof.
  intros Hu Hb E1 E2 E3. assert (Hu' : uniq (bc_buf (with_buf i b' s))) by (by eapply uniq_same).
  destruct (is_block m b) eqn:HP.
  - rewrite (view_cached s i b), (view_cached _ i b'); try done; [by eapply with_buf_at|].
    apply is_block_true in HP as [? ?]. apply is_block_true. split; congruence.
  - eapply view_with_ne; [done..| |by rewrite HP].
    apply not_true_iff_false. intros [? ?]%is_block_true. apply not_true_iff_false in HP.
    apply HP, is_block_true. split; congruence.
Qed.

(** What [bread] does to the cache. *)
Record took (h l : list nat) (s : bcache) (i : nat) (n : Z) (s' : bcache) : Prop := mkTook {
  tk_fresh : i ∉ h;
  tk_inv : binv (i :: h) l s';
  tk_holds : holds i n (view s n) s';
  tk_settled : settled i s';
  tk_others : forall j, j ≠ i -> bc_buf s' !! j = bc_buf s !! j;
  tk_view : forall m, view s' m = view s m;
  tk_disk : bc_disk s' = bc_disk s;
  tk_trace : bc_trace s' = bc_trace s;
  tk_free : nfree s = (nfree s' + gives_back i s')%nat;
}.

Lemma took_with h l s i n b b' :
  binv h l s -> bc_buf s !! i = Some b -> i ∉ h -> held_ok s b' -> is_block n b' = true ->
  uniq (bc_buf (with_buf i b' s)) -> b_data b' = view s n ->
  (b_flags b' = B_VALID -> b_data b' = disk_at s n) -> evictable b = negb (has_flag B_DIRTY b') ->
  (forall m, m ≠ n -> is_block m b = true -> b_data b = disk_at s m) ->
  took h l s i n (with_buf i b' s).
Proof.
  intros Hinv Hb Hih Hh HP Hu' Hd Hset Hev Hold.
  assert (Hb' : bc_buf (with_buf i b' s) !! i = Some b') by (by eapply with_buf_at).
  pose proof Hinv as (_ & _ & _ & _ & Hu & _). pose proof HP as [Hdev Hblk]%is_block_true.
  constructor; try done.
  - by eapply binv_hold.
  - by exists b'.
  - exists b'. split; [done|]. by rewrite Hblk.
  - intros j Hj. by apply with_buf_ne.
  - intros m. destruct (decide (m = n)) as [->|Hm].
    + by rewrite (view_cached (with_buf i b' s) i b').
    + eapply view_with_ne; [done..| |by apply Hold].
      apply not_true_iff_false. intros [_ E]%is_block_true. congruence.
  - unfold gives_back. rewrite Hb'. pose proof (nfree_with i b b' s Hb) as E.
    rewrite (held_in_use _ _ Hh), Hev in E. cbn [Nat.b2n] in E. lia.
Qed.

Lemma bread_spec pid n h l s :
  binv h l s -> (0 < nfree s)%nat ->
  (forall i b, i ∈ h -> bc_buf s !! i = Some b -> is_block n b = false) -> 0 <= n < disksize s ->
  wp (bread pid 1 n) (fun i s' => took h l s i n s') no_halt s.
Proof.
  intros Hinv Hroom Hfree Hn. pose proof Hinv as (_ & _ & _ & _ & Hu & Hall).
  destruct (block_lookup _ _ _ _ Hinv Hn) as (d & Hd & Hdl).
  unfold bread. wp_step. wp_call bget_spec; [done..|].
  intros i s' (b & b' & Hb & Hih & -> & [[HP ->]|(Hnone & Hev & ->)]);
    pose proof (Hall _ _ Hb) as Hok; rewrite decide_False in Hok by done.
  - pose proof Hok as (Hl & Hrc & Hlk & Hst). pose proof HP as [Hdev Hblk]%is_block_true.
    destruct Hst as [[? _]|(_ & Hrange & Hfl)]; [congruence|].
    assert (HV : has_flag B_VALID b = true) by (unfold has_flag; destruct Hfl as [[-> _]| ->]; done).
    wp_step. eapply wp_the_buf; [by eapply with_buf_at|]. unfold has_flag in *. cbn [b_flags set_lock set_refcnt].
    rewrite HV. cbn [negb when]. wp_step. wp_step. wp_step.
    apply (took_with h l s i n b); try done.
    + split_and!; cbn -[disksize]; try (done || lia).
    + by eapply uniq_same.
    + by rewrite (view_cached s i b).
    + intros Hcf. cbn in Hcf |- *. unfold disk_at. destruct Hfl as [[_ E]|E]; [|by rewrite E in Hcf].
      rewrite <- Hblk. by rewrite E.
    + unfold evictable. rewrite Hrc. done.
    + intros m Hm [_ E]%is_block_true. congruence.
  - set (b1 := mkBuf 0 1 n (mkSleeplock 1 pid) 1 (b_data b)).
    wp_step. eapply wp_the_buf; [by eapply with_buf_at|].
    replace (has_flag B_VALID b1) with false by done. cbn [negb when].
    wp_step. wp_call (iderw_read i b1 d); [by eapply with_buf_at|done..|change (n < disksize s); lia|done|].
    intros _ s' ->. rewrite with_buf_twice. wp_step.
    pose proof (find_none_lookup _ _ Hnone) as Hno.
    apply (took_with h l s i n b); try done.
    + split_and!; cbn -[disksize]; try (done || lia).
    + by apply is_block_true.
    + apply uniq_insert; [done|]. intros j bj _ Hj _ D E. specialize (Hno _ _ Hj).
      apply not_true_iff_false in Hno. by apply Hno, is_block_true.
    + rewrite view_uncached by done. unfold disk_at. by rewrite Hd.
    + intros _. unfold disk_at. by rewrite Hd.
    + intros m _ HP. by eapply evict_clean.
Qed.

(** Releasing a buffer makes it the most recently used one. *)
Definition move_front (i : nat) (l : list nat) : list nat := i :: filter (fun j => j ≠ i) l.

Lemma filter_id (l : list nat) i : i ∉ l -> filter (fun j => j ≠ i) l = l.
Proof.
  intros H. induction l as [|x l IH]; [done|]. apply not_elem_of_cons in H as [? ?].
  rewrite filter_cons_True by congruence. by rewrite IH.
Qed.

Lemma ring_move_front k l i :
  ring NBUF k l -> l ≡ₚ seq 0 NBUF -> i ∈ l ->
  ring NBUF (link_front NBUF i (unlink i k)) (move_front i l) /\ move_front i l ≡ₚ l.
Proof.
  intros Hr Hp Hi. pose proof Hr as (_ & Hnd & _). apply NoDup_cons in Hnd as [_ Hnd].
  apply list_elem_of_split in Hi as (l1 & l2 & ->).
  apply NoDup_app in Hnd as (_ & Hd & Hnd). apply NoDup_cons in Hnd as [Hi2 _].
  assert (Hi1 : i ∉ l1) by set_solver.
  assert (i < NBUF)%nat.
  { assert (i ∈ seq 0 NBUF) as Hin by (rewrite <- Hp; set_solver). apply elem_of_seq in Hin. lia. }
  unfold move_front. rewrite filter_app, filter_cons_False, !filter_id by (done || tauto).
  split; [|by rewrite Permutation_middle].
  apply ring_link_front; [by apply ring_unlink|done|set_solver].
Qed.

(** Writing the block of a buffer in use to the disk. *)
Lemma binv_set_disk h l s i b n d :
  binv h l s -> i ∈ h -> bc_buf s !! i = Some b -> b_blockno b = n -> 0 <= n -> length d = 512%nat ->
  binv h l (set_disk (Z.to_nat n) d s).
Proof.
  intros Hinv Hi Hb Hn H0 Hl. pose proof (binv_held_ok _ _ _ _ _ Hinv Hi Hb) as (_ & _ & _ & Hdev & _).
  destruct Hinv as (Hr & Hp & Hlen & Hdl & Hu & Hall).
  unfold binv, held_ok, idle_ok, disksize in *. cbn [bc_buf bc_links bc_disk set_disk].
  split_and!; try done; [by apply Forall_insert|]. intros j bj Hj. specialize (Hall _ _ Hj).
  rewrite length_insert. case_decide as E; [done|].
  destruct Hall as (? & ? & ? & [?|(? & ? & Hc)]); [auto 6|]. split_and!; try done.
  right. split_and!; try done; try lia. destruct Hc as [[? Hc]|?]; [left|by right].
  split; [done|]. rewrite list_lookup_insert_ne; [done|].
  intros E'. apply E. assert (i = j) as <- by (eapply (Hu i j); eauto; lia). done.
Qed.

Lemma view_set_disk s i b n d m :
  bc_buf s !! i = Some b -> is_block n b = true -> 0 <= n -> 0 <= m ->
  view (set_disk (Z.to_nat n) d s) m = view s m.
Proof.
  intros Hb HP Hn Hm. unfold view, disk_at. cbn [bc_buf bc_disk set_disk].
  destruct (List.find _ _) eqn:Hf; [done|]. rewrite list_lookup_insert_ne; [done|].
  intros E. assert (m = n) as -> by lia. pose proof (find_none_lookup _ _ Hf _ _ Hb). congruence.
Qed.

Lemma bwrite_spec h l i n d s :
  binv h l s -> i ∈ h -> holds i n d s ->
  wp (bwrite i) (fun _ s' =>
      binv h l s' /\ holds i n d s' /\ settled i s' /\ gives_back i s' = 1%nat /\ nfree s' = nfree s /\
      (forall j, j ≠ i -> bc_buf s' !! j = bc_buf s !! j) /\
      bc_disk s' = <[Z.to_nat n := d]> (bc_disk s) /\ bc_trace s' = bc_trace s ++ [(Z.to_nat n, d)] /\
      (forall m, 0 <= m -> view s' m = view s m)) no_halt s.
Proof.
  intros Hinv Hi (b & Hb & HP & Hd). pose proof Hinv as (Hr & Hp & Hlen & Hdl & Hu & Hall).
  pose proof (binv_held_ok _ _ _ _ _ Hinv Hi Hb) as (Hl & Hrc & Hlk & Hdev & Hrange & Hfl).
  pose proof HP as [_ Hn]%is_block_true.
  assert (Hhold : holdingsleep (b_lock b) = true)
    by (unfold holdingsleep; destruct (Z.eqb_spec (sl_locked (b_lock b)) 0); done).
  unfold bwrite. wp_step. apply (wp_the_buf _ b); [done|]. rewrite Hhold. cbn [negb].
  wp_step. apply (wp_upd _ _ b); [done|].
  set (b1 := set_flags (Z.lor (b_flags b) B_DIRTY) b).
  wp_call (iderw_write i b1); [by eapply with_buf_at|done| |done| |].
  { unfold has_flag, b1. cbn [b_flags set_flags]. by destruct Hfl as [-> | ->]. }
  { change (b_blockno b < disksize s). lia. }
  intros _ s' ->. rewrite with_buf_twice.
  replace (set_flags (Z.lor (Z.ldiff (b_flags b1) B_DIRTY) B_VALID) b1) with (set_flags B_VALID b)
    by (unfold b1; cbn; by destruct Hfl as [-> | ->]).
  cbn [b1 set_flags b_blockno b_data]. rewrite Hn, Hd.
  set (b2 := set_flags B_VALID b). set (s1 := with_buf i b2 s).
  assert (Hb2 : bc_buf s1 !! i = Some b2) by (by eapply with_buf_at).
  assert (Hinv1 : binv h l s1).
  { eapply binv_held; try done. split_and!; try (done || apply Hrange). by left. }
  split_and!; try done.
  - apply (binv_set_disk h l s1 i b2); try done; [lia|congruence].
  - by exists b2.
  - exists b2. split; [done|]. intros _. unfold disk_at. cbn. rewrite Hn, list_lookup_insert_eq; [done|].
    unfold disksize in Hrange. lia.
  - unfold gives_back. cbn [bc_buf set_disk]. by rewrite Hb2.
  - pose proof (nfree_with i b b2 s Hb) as E. change (nfree (set_disk (Z.to_nat n) d s1)) with (nfree s1).
    replace (evictable b2) with (evictable b) in E by (unfold evictable; cbn [b2 b_refcnt set_flags]; by rewrite Hrc).
    fold s1 in E. lia.
  - intros j Hj. by apply with_buf_ne.
  - intros m Hm. rewrite (view_set_disk s1 i b2) by (done || lia). by eapply view_with_same.
Qed.

Lemma brelse_spec h l i s :
  binv (i :: h) l s -> i ∉ h -> settled i s ->
  wp (brelse i) (fun _ s' =>
      binv h (move_front i l) s' /\ nfree s' = (nfree s + gives_back i s)%nat /\
      (forall j, j ≠ i -> bc_buf s' !! j = bc_buf s !! j) /\
      bc_disk s' = bc_disk s /\ bc_trace s' = bc_trace s /\ (forall m, view s' m = view s m)) no_halt s.
Proof.
  intros Hinv Hih (b & Hb & Hcoh). pose proof Hinv as (Hr & Hp & Hlen & Hdl & Hu & Hall).
  pose proof (binv_held_ok _ _ _ i b Hinv ltac:(by left) Hb) as Hh.
  pose proof Hh as (Hl & Hrc & Hlk & Hdev & Hrange & Hfl).
  assert (Hhold : holdingsleep (b_lock b) = true)
    by (unfold holdingsleep; destruct (Z.eqb_spec (sl_locked (b_lock b)) 0); done).
  unfold brelse. wp_step. apply (wp_the_buf _ b); [done|]. rewrite Hhold. cbn [negb].
  wp_step. apply (wp_upd _ _ b); [done|].
  wp_step. eapply wp_upd; [by eapply with_buf_at|]. rewrite with_buf_twice.
  wp_step. eapply wp_the_buf; [by eapply with_buf_at|].
  cbn [b_refcnt set_refcnt set_lock]. rewrite Hrc. cbn [Z.sub Z.opp Z.add u32].
  replace (u32 (1 - 1) =? 0) with true by done. cbn [when]. wp_step.
  set (b1 := set_refcnt _ _). set (s1 := with_buf i b1 s).
  destruct (ring_move_front (bc_links s) l i Hr Hp) as [Hr' Hp']; [by eapply binv_in_order|].
  split_and!; try done.
  - unfold binv. cbn [bc_buf bc_links bc_disk set_links]. split_and!; try done; [by rewrite Hp'| | |].
    + cbn. by rewrite length_insert.
    + by eapply uniq_same.
    + intros j bj Hj. unfold s1 in Hj. destruct (decide (i = j)) as [<-|Hne].
      * rewrite decide_False by done. erewrite with_buf_at in Hj by done. injection Hj as <-.
        split_and!; try done. right. split_and!; try done; try apply Hrange.
        destruct Hfl as [Hf|Hf]; [left|right; done]. split; [done|]. specialize (Hcoh Hf).
        unfold disk_at in Hcoh. cbn -[Z.to_nat].
        destruct (block_lookup _ (b_blockno b) _ _ Hinv Hrange) as (d & Hd & _).
        rewrite Hd in Hcoh |- *. cbn in Hcoh. congruence.
      * rewrite with_buf_ne in Hj by done. specialize (Hall _ _ Hj). clear -Hall Hne.
        destruct (decide (j ∈ h)); [rewrite decide_True in Hall by set_solver
                                   |rewrite decide_False in Hall by set_solver]; done.
  - pose proof (nfree_with i b b1 s Hb) as E. rewrite (held_in_use _ _ Hh) in E. unfold gives_back. rewrite Hb.
    change (nfree (set_links _ s1)) with (nfree s1). unfold evictable in E. cbn [b1 b_refcnt set_refcnt] in E.
    replace (u32 (1 - 1) =? 0) with true in E by done. unfold s1.
    change (has_flag B_DIRTY b1) with (has_flag B_DIRTY b) in E. cbn [andb Nat.b2n] in E. lia.
  - intros j Hj. by apply with_buf_ne.
  - intros m. by eapply view_with_same.
Qed.

(** Changing the data of a buffer in use. *)
Lemma set_data_spec h l i n d d' b s :
  binv h l s -> i ∈ h -> holds i n d s -> bc_buf s !! i = Some b -> length d' = 512%nat ->
  let s' := with_buf i (set_data d' b) s in
  binv h l s' /\ holds i n d' s' /\ nfree s' = nfree s /\ gives_back i s' = gives_back i s /\ view s' n = d' /\
  (forall m, m ≠ n -> view s' m = view s m).
Proof.
  intros Hinv Hi (b0 & Hb & HP & Hd) Hb' Hl. assert (b0 = b) as -> by congruence. clear Hb'.
  pose proof (binv_held_ok _ _ _ _ _ Hinv Hi Hb) as Hh. pose proof Hinv as (_ & _ & _ & _ & Hu & _).
  assert (Hat : bc_buf (with_buf i (set_data d' b) s) !! i = Some (set_data d' b)) by (by eapply with_buf_at).
  assert (Hinv' : binv h l (with_buf i (set_data d' b) s)).
  { eapply binv_held; try done. destruct Hh as (_ & Hh). by split. }
  pose proof Hinv' as (_ & _ & _ & _ & Hu' & _).
  split_and!; try done.
  - by exists (set_data d' b).
  - pose proof (nfree_with i b (set_data d' b) s Hb) as E.
    change (evictable (set_data d' b)) with (evictable b) in E. lia.
  - unfold gives_back. by rewrite Hat, Hb.
  - by rewrite (view_cached _ i (set_data d' b)).
  - intros m Hm. pose proof HP as [_ Hn]%is_block_true. eapply view_with_ne; [done..| |].
    + apply not_true_iff_false. intros [_ E]%is_block_true. cbn in E. congruence.
    + intros [_ E]%is_block_true. congruence.
Qed.

(** ** Reading and writing blocks through the cache *)

(** The cache is quiescent: coherent, no buffer in use, one recyclable. *)
Definition quiescent (s : bcache) : Prop := exists l, binv [] l s /\ (0 < nfree s)%nat.

Lemma view_length s h l n : binv h l s -> 0 <= n < disksize s -> length (view s n) = 512%nat.
Proof.
  intros Hinv Hn. destruct (block_lookup _ _ _ _ Hinv Hn) as (d & Hd & Hl).
  destruct Hinv as (_ & _ & _ & _ & _ & Hall). unfold view.
  destruct (List.find _ _) as [b|] eqn:Hf.
  - apply List.find_some in Hf as [Hin%list_elem_of_In _].
    apply list_elem_of_lookup in Hin as [i Hi]. apply Hall in Hi. case_decide; by destruct Hi.
  - unfold disk_at. by rewrite Hd.
Qed.

Lemma none_held (s : bcache) (n : Z) i b : i ∈ @nil nat -> bc_buf s !! i = Some b -> is_block n b = false.
Proof. by intros ?%elem_of_nil. Qed.

(** The specification of [read_block] with other buffers in use. *)
Lemma read_block_held pid n h l s :
  binv h l s -> (0 < nfree s)%nat ->
  (forall i b, i ∈ h -> bc_buf s !! i = Some b -> is_block n b = false) -> 0 <= n < disksize s ->
  wp (read_block pid 1 n) (fun d s' =>
      d = view s n /\ (exists l', binv h l' s') /\ nfree s' = nfree s /\ bc_disk s' = bc_disk s /\
      bc_trace s' = bc_trace s /\ forall m, view s' m = view s m) no_halt s.
Proof.
  intros Hinv Hroom Hfree Hn. unfold read_block. wp_step. wp_call bread_spec; [done..|].
  intros i s1 [Hi Hinv1 (b & Hb & HP & Hd) Hset1 Hoth1 Hview1 Hdisk1 Htr1 Hfree1].
  wp_step. apply (wp_the_buf _ b); [done|]. wp_step. wp_call brelse_spec; [done..|].
  intros _ s2 (Hinv2 & Hfree2 & _ & Hdisk2 & Htr2 & Hview2). wp_step. split_and!; try congruence. eauto.
Qed.

Lemma read_block_ok pid n s :
  quiescent s -> 0 <= n < disksize s ->
  wp (read_block pid 1 n) (fun d s' =>
      d = view s n /\ quiescent s' /\ bc_disk s' = bc_disk s /\
      forall m, view s' m = view s m) no_halt s.
Proof.
  intros (l & Hinv & Hroom) Hn. wp_call (read_block_held pid n [] l s); [done|done|by apply none_held|done|].
  intros d s' (-> & [l' Hl'] & Hf & Hdisk & _ & Hview). split_and!; try done. exists l'. split; [done|lia].
Qed.

Lemma update_block_ok pid n f s :
  quiescent s -> 0 <= n < disksize s -> length (f (view s n)) = 512%nat ->
  wp (update_block pid 1 n f) (fun _ s' =>
      quiescent s' /\ bc_disk s' = <[Z.to_nat n := f (view s n)]> (bc_disk s) /\
      view s' n = f (view s n) /\ forall m, 0 <= m -> m ≠ n -> view s' m = view s m) no_halt s.
Proof.
  intros (l & Hinv & Hroom) Hn Hf. unfold update_block.
  wp_step. wp_call bread_spec; [done|done|by apply none_held|done|].
  intros i s1 [Hi Hinv1 Hh1 _ _ Hview1 Hdisk1 _ Hfree1].
  pose proof Hh1 as (b & Hb & _ & Hd). wp_step. apply (wp_upd _ _ b); [done|]. rewrite Hd.
  destruct (set_data_spec _ _ _ _ _ (f (view s n)) b s1 Hinv1 ltac:(by left) Hh1 Hb Hf)
    as (Hinv2 & Hh2 & _ & _ & Hvn & Hvm).
  wp_step. wp_call bwrite_spec; [exact Hinv2|by left|exact Hh2|].
  intros _ s3 (Hinv3 & Hh3 & Hset3 & Hg3 & Hf3 & _ & Hdisk3 & _ & Hview3).
  wp_call brelse_spec; [exact Hinv3|done|done|].
  intros _ s4 (Hinv4 & Hf4 & _ & Hdisk4 & _ & Hview4). split_and!.
  - exists (move_front i l). split; [done|]. lia.
  - rewrite Hdisk4, Hdisk3. cbn. by rewrite Hdisk1.
  - rewrite Hview4, Hview3 by lia. done.
  - intros m Hm0 Hm. by rewrite Hview4, Hview3, Hvm, Hview1.
Qed.

(** A freshly initialised cache is quiescent and shows the disk as it is. *)
Lemma binit_quiescent disk :
  Forall (fun d => length d = 512%nat) disk ->
  quiescent (binit disk) /\ forall n, view (binit disk) n = disk_at (binit disk) n.
Proof.
  intros Hd. assert (Hz : forall i b, bc_buf (binit disk) !! i = Some b -> b = zero_buf).
  { intros i b Hi. by apply lookup_replicate in Hi as [-> _]. }
  split.
  - exists (reverse (seq 0 NBUF)). split.
    + split_and!; try done; [by apply ring_init|by apply reverse_Permutation| |].
      * intros i j bi bj Hi _ Di. apply Hz in Hi as ->. done.
      * intros i b Hi. rewrite decide_False by apply not_elem_of_nil. apply Hz in Hi as ->.
        split_and!; try done. by left.
    + vm_compute. lia.
  - intros n. apply view_uncached. intros i b Hi. by apply Hz in Hi as ->.
Qed.

(** The kernel's buffer cache is transparent: after a block is modified
    and written, reading any block (through whatever buffer is found or
    recycled) gives the new contents for that block and the old ones for
    every other; the disk itself holds the new block, and the cache ends
    with no buffer in use. *)
Theorem bcache_write_then_read pid n m f s :
  quiescent s -> 0 <= n < disksize s -> 0 <= m < disksize s -> length (f (view s n)) = 512%nat ->
  wp (update_block pid 1 n f;; read_block pid 1 m)
     (fun d s' => d = (if m =? n then f (view s n) else view s m) /\ quiescent s' /\
        bc_disk s' = <[Z.to_nat n := f (view s n)]> (bc_disk s)) no_halt s.
Proof.
  intros Hq Hn Hm Hl. wp_step. wp_call (update_block_ok pid n f s); [done..|].
  intros _ s1 (Hq1 & Hd1 & Hnew & Hother).
  assert (E : disksize s1 = disksize s) by (unfold disksize; by rewrite Hd1, length_insert).
  wp_call (read_block_ok pid m s1); [done|by rewrite E|].
  intros d s2 (-> & Hq2 & Hd2 & _). split; [|split; [done|congruence]].
  destruct (Z.eqb_spec m n) as [->|Hne]; [done|]. apply Hother; [lia|done].
Qed.

Lemma bcache_write_then_read_witness :
  let s := binit [replicate 512 0; replicate 512 1] in
  wp (update_block 4 1 1 (<[O := 7]>);; read_block 4 1 1)
     (fun d s' => d = <[O := 7]> (view s 1) /\ quiescent s' /\
        bc_disk s' = <[1%nat := <[O := 7]> (view s 1)]> (bc_disk s)) no_halt s.
Proof.
  apply (bcache_write_then_read 4 1 1 (<[O := 7]>) (binit [replicate 512 0; replicate 512 1])); [|done..].
  apply binit_quiescent. by repeat constructor.
Defined.
