(* ===== verification/BlockDev.v ===== *)
(** * BlockDev: the block device interface

    What fsserver.c relies on from the [disk_request] system call: reading
    returns the block, writing replaces it, nothing else changes.  The file
    server is verified against this interface; DiskReq.v shows that the
    kernel's [sys_disk_request] over the buffer cache provides it. *)
From S2P Require Import Prelude.

Class BlockDev (D : Type) := {
  (** [disk_request(sector, buf, operation)]: the result and the user
      buffer afterwards. *)
  disk_request : Z -> list Z -> Z -> M D (Z * list Z);
  dev_ok : D -> Prop;
  dev_size : D -> Z;
  dev_block : D -> Z -> list Z;
}.

(** One device state refines to the next with the same contents. *)
Definition same_blocks {D} `{BlockDev D} (d d' : D) : Prop :=
  dev_ok d' /\ dev_size d' = dev_size d /\
  forall m, 0 <= m < dev_size d -> dev_block d' m = dev_block d m.

Class BlockDevLaws (D : Type) `{BlockDev D} := {
  dev_block_length d n :
    dev_ok d -> 0 <= n < dev_size d -> length (dev_block d n) = 512%nat;
  dev_read d n buf :
    dev_ok d -> 0 <= n < dev_size d -> length buf = 512%nat ->
    wp (disk_request n buf 0)
       (fun r d' => r = (0, dev_block d n) /\ same_blocks d d') no_halt d;
  dev_write d n buf :
    dev_ok d -> 0 <= n < dev_size d -> length buf = 512%nat ->
    wp (disk_request n buf 1)
       (fun r d' => r = (0, buf) /\ dev_ok d' /\ dev_size d' = dev_size d /\
          dev_block d' n = buf /\
          forall m, 0 <= m < dev_size d -> m ≠ n -> dev_block d' m = dev_block d m)
       no_halt d;
}.

Lemma same_blocks_refl {D} `{BlockDev D} d : dev_ok d -> same_blocks d d.
Proof. intros. by split_and!. Qed.

Lemma same_blocks_trans {D} `{BlockDev D} d1 d2 d3 :
  same_blocks d1 d2 -> same_blocks d2 d3 -> same_blocks d1 d3.
Proof.
  intros (_ & E1 & B1) (? & E2 & B2). split_and!; [done|congruence|].
  intros m Hm. rewrite B2, B1 by (rewrite ?E1; done). done.
Qed.
