(* ===== verification/DiskReq.v ===== *)
(** * DiskReq: the disk_request system call

    sysproc.c [sys_disk_request] over the buffer cache of Bio.v, and the
    proof that it provides the interface of BlockDev.v to the registered
    file server.  The system call arguments are the register values; the
    user buffer is passed by its contents.  The test of the arguments is left
    out: [argint] returns 0, and the result of [argptr] is unsigned and never
    less than 0 ([argptr_unsigned] of Syscall.v), so it returns no error. *)
From S2P Require Import Prelude Ring FsFormat Bio BlockDev.

(** The kernel state the call touches: the cache, the registered file
    server's pid, and the caller's [pid] and [killed] fields. *)
Record kdisk := mkKdisk {
  kd_cache : bcache;
  kd_fsserver_pid : Z;
  kd_pid : Z;
  kd_killed : Z;
}.

(** Run a cache operation on the cache component. *)
Definition on_cache {A} (m : M bcache A) : M kdisk A := fun s =>
  let '(r, c) := m (kd_cache s) in
  (r, mkKdisk c (kd_fsserver_pid s) (kd_pid s) (kd_killed s)).

Definition sys_disk_request (sector : Z) (buf : list Z) (operation : Z) : M kdisk (Z * list Z) :=
  s ← getS;
  let sector := u32 sector in
  if ((kd_fsserver_pid s <=? 0) || negb (kd_pid s =? kd_fsserver_pid s))%bool then
    modify (fun s => mkKdisk (kd_cache s) (kd_fsserver_pid s) (kd_pid s) 1);;
    mret (-1, buf)
  else if operation =? 0 then
    i ← on_cache (bread (kd_pid s) ROOTDEV sector);
    b ← on_cache (the_buf i);
    on_cache (brelse i);;
    mret (0, b_data b)
  else if operation =? 1 then
    i ← on_cache (bread (kd_pid s) ROOTDEV sector);
    on_cache (modify (upd_buf i (set_data buf)));;
    on_cache (bwrite i);;
    on_cache (brelse i);;
    mret (0, buf)
  else mret (-1, buf).

(** ** The interface is provided *)

Lemma wp_on_cache {A} (m : M bcache A) (Q : A -> kdisk -> Prop) E s :
  wp m (fun a c => Q a (mkKdisk c (kd_fsserver_pid s) (kd_pid s) (kd_killed s)))
       (fun h c => E h (mkKdisk c (kd_fsserver_pid s) (kd_pid s) (kd_killed s))) (kd_cache s) ->
  wp (on_cache m) Q E s.
Proof. unfold wp, on_cache. by destruct (m (kd_cache s)) as [[a|h] c]. Qed.

(** The read branch is [read_block], the write branch [update_block]. *)
Lemma on_cache_read pid n s :
  (i ← on_cache (bread pid ROOTDEV n); b ← on_cache (the_buf i);
   on_cache (brelse i);; mret (0, b_data b)) s
  = (d ← on_cache (read_block pid ROOTDEV n); mret (0, d) : M kdisk (Z * list Z)) s.
Proof.
  unfold read_block, on_cache, mbind, M_bind, mret, M_ret, modify. cbn.
  destruct (bread pid ROOTDEV n (kd_cache s)) as [[i|h] c]; [|done]. cbn.
  destruct (the_buf i c) as [[b|h] c']; [|done]. cbn.
  by destruct (brelse i c') as [[[]|h] c''].
Qed.

Lemma on_cache_write pid n buf s :
  (i ← on_cache (bread pid ROOTDEV n);
   on_cache (modify (upd_buf i (set_data buf)));;
   on_cache (bwrite i);; on_cache (brelse i);; mret (0, buf)) s
  = (on_cache (update_block pid ROOTDEV n (fun _ => buf));; mret (0, buf) : M kdisk (Z * list Z)) s.
Proof.
  unfold update_block, on_cache, mbind, M_bind, mret, M_ret, modify. cbn.
  destruct (bread pid ROOTDEV n (kd_cache s)) as [[i|h] c]; [|done]. cbn.
  change (upd_buf i (fun b => set_data buf b)) with (upd_buf i (set_data buf)).
  destruct (bwrite i (upd_buf i (set_data buf) c)) as [[[]|h] c']; [|done]. cbn.
  by destruct (brelse i c') as [[[]|h] c''].
Qed.

(** The caller is the registered server and the cache is quiescent. *)
Definition kdisk_ok (s : kdisk) : Prop :=
  quiescent (kd_cache s) /\ 0 < kd_fsserver_pid s /\ kd_pid s = kd_fsserver_pid s /\
  disksize (kd_cache s) <= 2 ^ 32.

#[export] Instance kdisk_dev : BlockDev kdisk := {|
  disk_request := sys_disk_request;
  dev_ok := kdisk_ok;
  dev_size := fun s => disksize (kd_cache s);
  dev_block := fun s n => view (kd_cache s) n;
|}.

Lemma wp_eq {S A} (m m' : M S A) Q E s : m s = m' s -> wp m' Q E s -> wp m Q E s.
Proof. unfold wp. by intros ->. Qed.

Lemma sys_disk_request_read d n buf :
  kdisk_ok d -> 0 <= n < disksize (kd_cache d) ->
  wp (sys_disk_request n buf 0)
     (fun r d' => r = (0, view (kd_cache d) n) /\ same_blocks d d') no_halt d.
Proof.
  intros (Hq & Hpos & Hpid & Hsz) Hn. unfold sys_disk_request. wp_step. wp_step.
  rewrite Hpid, Z.eqb_refl, orb_false_r, (u32_id n) by (split; lia).
  destruct (Z.leb_spec (kd_fsserver_pid d) 0); [lia|]. cbn [Z.eqb].
  eapply wp_eq; [apply on_cache_read|]. wp_step. apply wp_on_cache.
  eapply wp_mono; [by apply read_block_ok| |by intros ? ? []].
  intros ? c (-> & Hq' & Hdisk & Hview). wp_step. split; [done|].
  assert (disksize c = disksize (kd_cache d)) as E by (unfold disksize; by rewrite Hdisk).
  unfold same_blocks. cbn -[kdisk_ok]. split_and!; [|done|intros m _; apply Hview].
  unfold kdisk_ok. cbn. rewrite E. split_and!; done.
Qed.

Lemma sys_disk_request_write d n buf :
  kdisk_ok d -> 0 <= n < disksize (kd_cache d) -> length buf = 512%nat ->
  wp (sys_disk_request n buf 1)
     (fun r d' => r = (0, buf) /\ kdisk_ok d' /\ disksize (kd_cache d') = disksize (kd_cache d) /\
        view (kd_cache d') n = buf /\
        bc_disk (kd_cache d') = <[Z.to_nat n := buf]> (bc_disk (kd_cache d)) /\
        forall m, 0 <= m < disksize (kd_cache d) -> m ≠ n ->
          view (kd_cache d') m = view (kd_cache d) m) no_halt d.
Proof.
  intros (Hq & Hpos & Hpid & Hsz) Hn Hl. unfold sys_disk_request. wp_step. wp_step.
  rewrite Hpid, Z.eqb_refl, orb_false_r, (u32_id n) by (split; lia).
  destruct (Z.leb_spec (kd_fsserver_pid d) 0); [lia|]. cbn [Z.eqb Pos.eqb].
  eapply wp_eq; [apply on_cache_write|]. wp_step. apply wp_on_cache.
  eapply wp_mono; [by apply update_block_ok| |by intros ? ? []].
  intros ? c (Hq' & Hdisk & Hview & Hframe). wp_step.
  assert (disksize c = disksize (kd_cache d)) as E
    by (unfold disksize; by rewrite Hdisk, length_insert).
  cbn -[kdisk_ok]. split_and!; try done; [|intros m [? _]; by apply Hframe].
  unfold kdisk_ok. cbn. rewrite E. split_and!; done.
Qed.

#[export] Instance kdisk_laws : BlockDevLaws kdisk.
Proof.
  constructor; cbn.
  - intros d n ((l & Hinv & _) & _) Hn. by eapply view_length.
  - intros d n buf Hok Hn _. by apply sys_disk_request_read.
  - intros d n buf Hok Hn Hl. wp_call sys_disk_request_write; [done..|]. tauto.
Qed.

(** C32: only the registered file server reaches the disk: any other caller
    of [disk_request] gets -1 and is marked killed, and neither the cache nor
    the disk nor its own buffer changes. *)
Theorem disk_request_unauthorised s sector buf operation :
  kd_fsserver_pid s <= 0 \/ kd_pid s ≠ kd_fsserver_pid s ->
  sys_disk_request sector buf operation s =
    (Ret (-1, buf), mkKdisk (kd_cache s) (kd_fsserver_pid s) (kd_pid s) 1).
Proof.
  intros Hun. unfold sys_disk_request, mbind, M_bind, getS.
  replace (_ || _)%bool with true; [done|].
  destruct (Z.leb_spec (kd_fsserver_pid s) 0), (Z.eqb_spec (kd_pid s) (kd_fsserver_pid s));
    cbn; (done || lia).
Qed.

Lemma disk_request_unauthorised_witness :
  let s := mkKdisk (binit []) 3 5 0 in
  sys_disk_request 0 [] 1 s = (Ret (-1, []), mkKdisk (binit []) 3 5 1).
Proof. apply (disk_request_unauthorised (mkKdisk (binit []) 3 5 0)). by right. Defined.

(** C31: for the registered server, [disk_request] is a block device: a
    write followed by a read returns the written block for that sector and
    the previous contents for any other, without ever failing. *)
Theorem disk_request_write_then_read s n m buf out :
  kdisk_ok s -> 0 <= n < disksize (kd_cache s) -> 0 <= m < disksize (kd_cache s) ->
  length buf = 512%nat ->
  wp (r ← sys_disk_request n buf 1; r' ← sys_disk_request m out 0; mret (r.1, r'))
     (fun r s' => r = (0, (0, if m =? n then buf else view (kd_cache s) m)) /\ kdisk_ok s') no_halt s.
Proof.
  intros Hok Hn Hm Hl. wp_step. wp_call (sys_disk_request_write s n buf); [done..|].
  intros r s1 (-> & Hok1 & Hsz & Hnew & _ & Hother). wp_step.
  wp_call (sys_disk_request_read s1 m out); [done|by rewrite Hsz|].
  intros r s2 (-> & Hok2 & _). wp_step. cbn. split; [|done]. do 2 f_equal.
  destruct (Z.eqb_spec m n) as [->|Hne]; [done|by apply Hother].
Qed.

Lemma disk_request_write_then_read_witness :
  let s := mkKdisk (binit [replicate 512 0; replicate 512 1]) 3 3 0 in
  wp (r ← sys_disk_request 1 (replicate 512 9) 1; r' ← sys_disk_request 0 [] 0; mret (r.1, r'))
     (fun r s' => r = (0, (0, view (kd_cache s) 0)) /\ kdisk_ok s') no_halt s.
Proof.
  apply (disk_request_write_then_read (mkKdisk (binit [replicate 512 0; replicate 512 1]) 3 3 0)
           1 0 (replicate 512 9) []); [|done..].
  split; [|done]. apply binit_quiescent. by repeat constructor.
Defined.
