(* ===== verification/Log.v ===== *)
(** * Log: the write-ahead log of the kernel file system

    log.c over the buffer cache of Bio.v, run by one kernel thread (a call
    that would sleep halts with [WouldBlock]; the admission of concurrent
    operations is the subject of LogAdmit.v).  A power failure keeps a prefix
    of the disk writes, each of one block; recovery runs on a fresh cache. *)
From S2P Require Import Prelude Ring FsFormat Bio.

(** [struct log] with its [struct logheader]. *)
Record log := mkLog {
  lg_start : Z;
  lg_size : Z;
  lg_outstanding : Z;
  lg_committing : Z;
  lg_dev : Z;
  lg_n : Z;
  lg_block : list Z;
}.

Definition zero_log : log := mkLog 0 0 0 0 0 0 (replicate (Z.to_nat LOGSIZE) 0).

Definition set_n v g := mkLog (lg_start g) (lg_size g) (lg_outstanding g) (lg_committing g) (lg_dev g) v (lg_block g).
Definition set_block v g := mkLog (lg_start g) (lg_size g) (lg_outstanding g) (lg_committing g) (lg_dev g) (lg_n g) v.
Definition set_outstanding v g := mkLog (lg_start g) (lg_size g) v (lg_committing g) (lg_dev g) (lg_n g) (lg_block g).
Definition set_committing v g := mkLog (lg_start g) (lg_size g) (lg_outstanding g) v (lg_dev g) (lg_n g) (lg_block g).

(** The kernel state these functions work on. *)
Record lsys := mkLsys { ls_log : log; ls_cache : bcache }.

Definition on_bc {A} (m : M bcache A) : M lsys A := fun s =>
  let '(r, c) := m (ls_cache s) in (r, mkLsys (ls_log s) c).
Definition set_log (f : log -> log) : M lsys unit := modify (fun s => mkLsys (f (ls_log s)) (ls_cache s)).

Section log.
(** [proc->pid] of the running thread. *)
Context (mypid : Z).

(** [log.lh.block[i]] of the array in memory. *)
Definition lh_block (i : Z) : M lsys Z :=
  g ← gets ls_log; of_option OutOfBounds (lg_block g !! Z.to_nat i).

Definition readsb (dev : Z) : M lsys superblock :=
  bp ← on_bc (bread mypid dev 1);
  b ← on_bc (the_buf bp);
  on_bc (brelse bp);;
  mret (decode_sb (b_data b)).

Definition install_trans : M lsys unit :=
  g ← gets ls_log;
  for_each (R := unit) (seqZ 0 (lg_n g)) (fun tail =>
    lbuf ← on_bc (bread mypid (lg_dev g) (u32 (lg_start g + tail + 1)));
    blk ← lh_block tail;
    dbuf ← on_bc (bread mypid (lg_dev g) (u32 blk));
    lb ← on_bc (the_buf lbuf);
    on_bc (modify (upd_buf dbuf (set_data (b_data lb))));;
    on_bc (bwrite dbuf);;
    on_bc (brelse lbuf);;
    on_bc (brelse dbuf);;
    mret None);;
  mret tt.

(** The header block is an array of [int]s: [n], then the block numbers. *)
Definition read_head : M lsys unit :=
  g ← gets ls_log;
  buf ← on_bc (bread mypid (lg_dev g) (u32 (lg_start g)));
  lh ← on_bc (the_buf buf);
  let n := s32 (word_at (b_data lh) 0) in
  set_log (set_n n);;
  for_each (R := unit) (seqZ 0 n) (fun i =>
    g ← gets ls_log;
    if (Z.to_nat i <? length (lg_block g))%nat then
      set_log (fun g => set_block (<[Z.to_nat i := s32 (word_at (b_data lh) (S (Z.to_nat i)))]> (lg_block g)) g);;
      mret None
    else halt_with OutOfBounds);;
  on_bc (brelse buf).

Definition write_head : M lsys unit :=
  g ← gets ls_log;
  buf ← on_bc (bread mypid (lg_dev g) (u32 (lg_start g)));
  on_bc (modify (upd_buf buf (fun b => set_data (set_word 0 (u32 (lg_n g)) (b_data b)) b)));;
  for_each (R := unit) (seqZ 0 (lg_n g)) (fun i =>
    x ← lh_block i;
    on_bc (modify (upd_buf buf (fun b => set_data (set_word (S (Z.to_nat i)) (u32 x) (b_data b)) b)));;
    mret None);;
  on_bc (bwrite buf);;
  on_bc (brelse buf).

Definition recover_from_log : M lsys unit :=
  read_head;; install_trans;; set_log (set_n 0);; write_head.

Definition initlog (dev : Z) : M lsys unit :=
  sb ← readsb dev;
  set_log (fun g => mkLog (s32 (sb_logstart sb)) (s32 (sb_nlog sb)) (lg_outstanding g) (lg_committing g)
                          dev (lg_n g) (lg_block g));;
  recover_from_log.

Definition write_log : M lsys unit :=
  g ← gets ls_log;
  for_each (R := unit) (seqZ 0 (lg_n g)) (fun tail =>
    to ← on_bc (bread mypid (lg_dev g) (u32 (lg_start g + tail + 1)));
    blk ← lh_block tail;
    from ← on_bc (bread mypid (lg_dev g) (u32 blk));
    fb ← on_bc (the_buf from);
    on_bc (modify (upd_buf to (set_data (b_data fb))));;
    on_bc (bwrite to);;
    on_bc (brelse from);;
    on_bc (brelse to);;
    mret None);;
  mret tt.

Definition commit : M lsys unit :=
  g ← gets ls_log;
  when (0 <? lg_n g) (
    write_log;;
    write_head;;
    install_trans;;
    set_log (set_n 0);;
    write_head).

Definition begin_op : M lsys unit :=
  g ← gets ls_log;
  if negb (lg_committing g =? 0) then halt_with WouldBlock
  else if LOGSIZE <? lg_n g + (lg_outstanding g + 1) * MAXOPBLOCKS then halt_with WouldBlock
  else set_log (fun g => set_outstanding (lg_outstanding g + 1) g).

Definition end_op : M lsys unit :=
  set_log (fun g => set_outstanding (lg_outstanding g - 1) g);;
  g ← gets ls_log;
  if negb (lg_committing g =? 0) then panic "log.committing"
  else if lg_outstanding g =? 0 then
    set_log (set_committing 1);;
    commit;;
    set_log (set_committing 0)
  else mret tt.

(** The slot [log_write] puts block [b] in: where it is already, or the end. *)
Definition log_slot (bs : list Z) (n : Z) (b : Z) : Z :=
  default n (List.find (fun i => default 0 (bs !! Z.to_nat i) =? b) (seqZ 0 n)).

Definition log_write (buf : nat) : M lsys unit :=
  g ← gets ls_log;
  if ((LOGSIZE <=? lg_n g) || (lg_size g - 1 <=? lg_n g))%bool then panic "too big a transaction"
  else if lg_outstanding g <? 1 then panic "log_write outside of trans"
  else
    b ← on_bc (the_buf buf);
    let i := log_slot (lg_block g) (lg_n g) (s32 (b_blockno b)) in
    set_log (set_block (<[Z.to_nat i := s32 (b_blockno b)]> (lg_block g)));;
    when (i =? lg_n g) (set_log (set_n (lg_n g + 1)));;
    on_bc (modify (upd_buf buf (fun b => set_flags (Z.lor (b_flags b) B_DIRTY) b))).

(** [bp = bread(dev, n); modify bp->data; log_write(bp); brelse(bp);], as
    file-system code changes a block. *)
Definition log_update (dev n : Z) (f : list Z -> list Z) : M lsys unit :=
  bp ← on_bc (bread mypid dev n);
  on_bc (modify (upd_buf bp (fun b => set_data (f (b_data b)) b)));;
  log_write bp;;
  on_bc (brelse bp).
End log.

(** ** Sequences of disk writes *)

Definition apply_writes (D : list (list Z)) (w : list (nat * list Z)) : list (list Z) :=
  foldl (fun D p => <[p.1 := p.2]> D) D w.

(** What block [m] holds after the writes [w], if it held [d] before. *)
Fixpoint latest (w : list (nat * list Z)) (m : nat) (d : list Z) : list Z :=
  match w with
  | [] => d
  | (k, x) :: w => latest w m (if decide (k = m) then x else d)
  end.

Lemma apply_writes_app D w w' : apply_writes D (w ++ w') = apply_writes (apply_writes D w) w'.
Proof. apply foldl_app. Qed.

Lemma length_apply_writes D w : length (apply_writes D w) = length D.
Proof. revert D. induction w as [|[k x] w IH]; intros D; [done|]. cbn. rewrite IH. apply length_insert. Qed.

Lemma latest_app w w' m d : latest (w ++ w') m d = latest w' m (latest w m d).
Proof. revert d. induction w as [|[k x] w IH]; intros d; [done|]. apply IH. Qed.

Lemma latest_notin w m d : m ∉ w.*1 -> latest w m d = d.
Proof.
  revert d. induction w as [|[k x] w IH]; intros d; cbn; [done|].
  intros [H1 H2]%not_elem_of_cons. by rewrite IH, decide_False by done.
Qed.

Lemma latest_in w m x d : NoDup w.*1 -> (m, x) ∈ w -> latest w m d = x.
Proof.
  revert d. induction w as [|[k y] w IH]; intros d; cbn; [by intros _ ?%elem_of_nil|].
  intros [Hk Hnd]%NoDup_cons [E|H]%elem_of_cons; [|by apply IH]. injection E as -> ->.
  by rewrite latest_notin, decide_True.
Qed.

Lemma apply_writes_lookup D w m d :
  D !! m = Some d -> apply_writes D w !! m = Some (latest w m d).
Proof.
  revert D d. induction w as [|[k x] w IH]; intros D d Hd; [done|]. cbn.
  apply IH. destruct (decide (k = m)) as [->|Hne].
  - apply list_lookup_insert_eq. by eapply lookup_lt_Some.
  - by rewrite list_lookup_insert_ne.
Qed.

(** A run that wrote [w] through the cache, left it coherent and idle, and
    changed the contents of blocks accordingly. *)
Record wrote (c : bcache) (w : list (nat * list Z)) (c' : bcache) : Prop := mkWrote {
  wr_inv : exists l, binv [] l c';
  wr_free : (nfree c <= nfree c')%nat;
  wr_disk : bc_disk c' = apply_writes (bc_disk c) w;
  wr_trace : bc_trace c' = bc_trace c ++ w;
  wr_view : forall m, 0 <= m -> view c' m = latest w (Z.to_nat m) (view c m);
}.

Lemma wrote_nothing c l : binv [] l c -> wrote c [] c.
Proof. intros H. constructor; try done; [eauto|by rewrite app_nil_r]. Qed.

Lemma wrote_trans c w c1 w' c2 : wrote c w c1 -> wrote c1 w' c2 -> wrote c (w ++ w') c2.
Proof.
  intros [_ F1 D1 T1 V1] [I2 F2 D2 T2 V2]. constructor; [done|lia| | |].
  - by rewrite D2, D1, apply_writes_app.
  - by rewrite T2, T1, app_assoc.
  - intros m Hm. by rewrite V2, V1, latest_app.
Qed.

Lemma wrote_size c w c' : wrote c w c' -> disksize c' = disksize c.
Proof. intros H. unfold disksize. by rewrite (wr_disk _ _ _ H), length_apply_writes. Qed.

(** ** Copying one block to another *)

Lemma binv_perm h h' l s : h ≡ₚ h' -> binv h l s -> binv h' l s.
Proof.
  intros Hh (Hr & Hp & Hl & Hd & Hu & Hall). split_and!; try done. intros i b Hi. specialize (Hall i b Hi).
  destruct (decide (i ∈ h)) as [E|E]; rewrite Hh in E; [rewrite decide_True|rewrite decide_False]; done.
Qed.

Lemma wp_on_bc {A} (m : M bcache A) (Q : A -> lsys -> Prop) E s :
  wp m (fun a c => Q a (mkLsys (ls_log s) c)) (fun h c => E h (mkLsys (ls_log s) c)) (ls_cache s) ->
  wp (on_bc m) Q E s.
Proof. unfold wp, on_bc. by destruct (m (ls_cache s)) as [[a|h] c]. Qed.

Lemma wp_on_bc_total {A} (m : M bcache A) (P : A -> bcache -> Prop) (Q : A -> lsys -> Prop) s :
  wp m P no_halt (ls_cache s) -> (forall a c, P a c -> Q a (mkLsys (ls_log s) c)) -> wp (on_bc m) Q no_halt s.
Proof. intros H HQ. apply wp_on_bc. eapply wp_mono; [exact H|done|by intros ?? []]. Qed.

(** The state in which a copying loop holds its source [q] (block [a]) and
    its destination [p] (block [b]). *)
Record copying (c : bcache) (p q : nat) (a b : Z) (c' : bcache) : Prop := mkCopying {
  cp_inv : exists l, binv [p; q] l c';
  cp_ne : p ≠ q;
  cp_dst : holds p b (view c b) c';
  cp_src : holds q a (view c a) c';
  cp_settled : settled q c';
  cp_view : forall m, view c' m = view c m;
  cp_disk : bc_disk c' = bc_disk c;
  cp_trace : bc_trace c' = bc_trace c;
  cp_free : nfree c = (nfree c' + gives_back p c' + gives_back q c')%nat;
}.

Lemma took_twice l c i a c1 j b c2 :
  took [] l c i a c1 -> took [i] l c1 j b c2 ->
  copying c j i a b c2 /\ copying c i j b a c2.
Proof.
  intros [_ I1 H1 S1 O1 V1 D1 T1 F1] [N2 I2 H2 S2 O2 V2 D2 T2 F2].
  assert (Hne : j ≠ i) by set_solver.
  assert (Hi : bc_buf c2 !! i = bc_buf c1 !! i) by (by apply O2).
  assert (H1' : holds i a (view c a) c2) by (unfold holds; by rewrite Hi).
  assert (S1' : settled i c2) by (unfold settled, disk_at; by rewrite Hi, D2).
  assert (G : gives_back i c2 = gives_back i c1) by (unfold gives_back; by rewrite Hi).
  rewrite V1 in H2.
  split; constructor; try done; try congruence.
  - eauto.
  - exists l. eapply binv_perm; [|exact I2]. apply Permutation_swap.
  - rewrite F1, F2. lia.
Qed.

Lemma copying_range c p q a b c' : copying c p q a b c' -> 0 <= a < disksize c' /\ 0 <= b < disksize c'.
Proof.
  intros [[l I] _ (bp & Hp & HP & _) (bq & Hq & HQ & _) _ _ _ _ _].
  apply is_block_true in HP as [_ <-], HQ as [_ <-].
  split; [apply (binv_held_ok _ _ _ q bq I)|apply (binv_held_ok _ _ _ p bp I)]; (done || set_solver).
Qed.

Lemma copy_finish c p q a b c' fb :
  copying c p q a b c' -> bc_buf c' !! q = Some fb ->
  wp (modify (upd_buf p (set_data (b_data fb)));; bwrite p;; brelse q;; brelse p)
     (fun _ c2 => wrote c [(Z.to_nat b, view c a)] c2) no_halt c'.
Proof.
  intros Hc Hfb. pose proof (copying_range _ _ _ _ _ _ Hc) as [Ha Hb].
  destruct Hc as [[l I] Hne Hp (bq & Hq & HPq & Hdq) Sq V D T F].
  assert (bq = fb) as -> by congruence. clear Hfb. pose proof Hp as (bp & Hbp & HPp & _).
  assert (Hlen : length (b_data fb) = 512%nat).
  { by destruct (binv_held_ok _ _ _ q fb I ltac:(set_solver) Hq) as [? _]. }
  wp_step. apply (wp_upd _ _ bp); [done|].
  destruct (set_data_spec _ _ p b _ (b_data fb) bp c' I ltac:(set_solver) Hp Hbp Hlen)
    as (I1 & H1 & F1 & G1 & Vn & Vm).
  wp_step. wp_call (bwrite_spec [p; q]); [exact I1|set_solver|exact H1|].
  intros _ c3 (I3 & H3 & S3 & G3 & F3 & O3 & D3 & T3 & V3).
  assert (Hq3 : bc_buf c3 !! q = Some fb) by (rewrite O3 by done; by rewrite with_buf_ne).
  wp_step. wp_call (brelse_spec [p]); [eapply binv_perm; [|exact I3]; apply Permutation_swap|set_solver| |].
  { destruct Sq as (x & Hx & Sx). assert (x = fb) as -> by congruence. exists fb. split; [done|]. intros Hf.
    rewrite Sx by done. unfold disk_at. rewrite D3. cbn [bc_disk with_buf].
    destruct (decide (b_blockno fb = b)) as [E|Hn].
    - exfalso. apply Hne. destruct I as (_ & _ & _ & _ & Hu & _). apply is_block_true in HPp as [? ?], HPq as [? ?].
      eapply Hu; eauto. congruence.
    - rewrite list_lookup_insert_ne; [done|]. apply is_block_true in HPq as [_ ?]. lia. }
  intros _ c4 (I4 & F4 & O4 & D4 & T4 & V4).
  wp_call (brelse_spec []); [exact I4|set_solver| |].
  { destruct S3 as (x & Hx & Sx). exists x. unfold disk_at in *. rewrite O4, D4 by done. done. }
  intros _ c5 (I5 & F5 & O5 & D5 & T5 & V5). constructor.
  - eauto.
  - assert (gives_back p c4 = 1%nat) as Hg4 by (unfold gives_back in *; by rewrite O4 by done).
    assert (gives_back q c3 = gives_back q c') as Hg3 by (unfold gives_back; by rewrite Hq3, Hq).
    assert (gives_back p c' <= 1)%nat by (unfold gives_back; rewrite Hbp; destruct (has_flag _ _); cbn; lia).
    lia.
  - rewrite D5, D4, D3. cbn [bc_disk with_buf]. by rewrite D, <- Hdq.
  - rewrite T5, T4, T3. cbn [bc_trace with_buf]. by rewrite T, <- Hdq.
  - intros m Hm. rewrite V5, V4, V3 by done. cbn. rewrite <- Hdq. destruct (decide (Z.to_nat b = Z.to_nat m)) as [E|E].
    + assert (b = m) as <- by lia. done.
    + rewrite Vm, V; [done|congruence].
Qed.
