(* ===== verification/LogProof.v ===== *)
(** * LogProof: crash safety of the log

    Specifications of the functions of Log.v, and the proof that a
    transaction is atomic: after a power failure at any moment, recovery
    finds either none or all of its updates. *)
From S2P Require Import Prelude Ring FsFormat Bio Log.

(** ** The log in memory *)

(** Blocks outside the log area [start, start + size). *)
Definition home (g : log) (b : Z) : Prop := b < lg_start g \/ lg_start g + lg_size g <= b.

(** [bs] are the blocks logged so far, on a disk of [size] blocks that has
    room for the log. *)
Record log_ok (g : log) (bs : list Z) (size : Z) : Prop := mkLogOk {
  lo_dev : lg_dev g = 1;
  lo_start : 0 <= lg_start g;
  lo_area : lg_start g + lg_size g <= size <= 2 ^ 31;
  lo_fit : Z.of_nat (length bs) < lg_size g;
  lo_n : lg_n g = Z.of_nat (length bs);
  lo_len : (length bs <= Z.to_nat LOGSIZE)%nat;
  lo_array : length (lg_block g) = Z.to_nat LOGSIZE;
  lo_block : forall i b, bs !! i = Some b -> lg_block g !! i = Some b;
  lo_nodup : NoDup bs;
  lo_home : forall b, b ∈ bs -> 0 <= b < size /\ home g b;
}.

(** The writes of [write_log] and of [install_trans]. *)
Definition log_writes (g : log) (v : Z -> list Z) (bs : list Z) : list (nat * list Z) :=
  imap (fun i b => (Z.to_nat (lg_start g + Z.of_nat i + 1), v b)) bs.
Definition home_writes (g : log) (v : Z -> list Z) (bs : list Z) : list (nat * list Z) :=
  imap (fun i b => (Z.to_nat b, v (lg_start g + Z.of_nat i + 1))) bs.

Lemma lookup_log_writes g v bs i b :
  bs !! i = Some b -> log_writes g v bs !! i = Some (Z.to_nat (lg_start g + Z.of_nat i + 1), v b).
Proof. intros H. unfold log_writes. by rewrite list_lookup_imap, H. Qed.
Lemma lookup_home_writes g v bs i b :
  bs !! i = Some b -> home_writes g v bs !! i = Some (Z.to_nat b, v (lg_start g + Z.of_nat i + 1)).
Proof. intros H. unfold home_writes. by rewrite list_lookup_imap, H. Qed.

(** Writes to the log area leave home blocks alone and the other way round. *)
Lemma latest_log_writes g v bs size k m d :
  log_ok g bs size -> 0 <= m -> home g m \/ m = lg_start g -> latest (take k (log_writes g v bs)) (Z.to_nat m) d = d.
Proof.
  intros Hok Hm Hh. apply latest_notin. intros ([? x] & E & Hx)%list_elem_of_fmap. cbn in E. subst.
  apply elem_of_take in Hx as (i & Hx & _). unfold log_writes in Hx.
  rewrite list_lookup_imap in Hx. destruct (bs !! i) as [b|] eqn:Hb; [|done]. injection Hx as E _.
  pose proof (lo_start _ _ _ Hok). apply lookup_lt_Some in Hb. pose proof (lo_fit _ _ _ Hok).
  unfold home in Hh. lia.
Qed.

Lemma latest_home_writes g v bs size k m d :
  log_ok g bs size -> 0 <= m -> ~ home g m -> latest (take k (home_writes g v bs)) (Z.to_nat m) d = d.
Proof.
  intros Hok Hm Hh. apply latest_notin. intros ([? x] & E & Hx)%list_elem_of_fmap. cbn in E. subst.
  apply elem_of_take in Hx as (i & Hx & _). unfold home_writes in Hx.
  rewrite list_lookup_imap in Hx. destruct (bs !! i) as [b|] eqn:Hb; [|done]. injection Hx as E _.
  destruct (lo_home _ _ _ Hok b) as [Hr Hb']; [by apply list_elem_of_lookup; eauto|].
  assert (b = m) as -> by lia. done.
Qed.

Lemma latest_log_all g v bs size m d :
  log_ok g bs size -> 0 <= m -> home g m \/ m = lg_start g -> latest (log_writes g v bs) (Z.to_nat m) d = d.
Proof. rewrite <- (firstn_all (log_writes g v bs)). apply latest_log_writes. Qed.

Lemma log_slot_home g bs size i :
  log_ok g bs size -> (i < length bs)%nat -> ~ home g (lg_start g + Z.of_nat i + 1) /\
  0 <= lg_start g + Z.of_nat i + 1 < size.
Proof.
  intros Hok Hi. pose proof (lo_fit _ _ _ Hok). pose proof (lo_start _ _ _ Hok). pose proof (lo_area _ _ _ Hok).
  unfold home. lia.
Qed.

(** ** The header block *)

(** The header block [d] after [write_head] stored the first [k] of [bs]. *)
Definition header_store (bs : list Z) (n : Z) (k : nat) (d : list Z) : list Z :=
  foldl (fun d i => set_word (S i) (u32 (default 0 (bs !! i))) d) (set_word 0 (u32 n) d) (seq 0 k).

(** The block numbers in a header block. *)
Definition header_of (d : list Z) : list Z :=
  (fun i => s32 (word_at d (S i))) <$> seq 0 (Z.to_nat (s32 (word_at d 0))).

Lemma header_store_S bs n k d :
  header_store bs n (S k) d = set_word (S k) (u32 (default 0 (bs !! k))) (header_store bs n k d).
Proof. unfold header_store. by rewrite seq_S, foldl_app. Qed.

Lemma header_store_spec bs n k d :
  (4 * k + 4 <= length d)%nat ->
  length (header_store bs n k d) = length d /\ word_at (header_store bs n k d) 0 = u32 n /\
  forall i, (i < k)%nat -> word_at (header_store bs n k d) (S i) = u32 (default 0 (bs !! i)).
Proof.
  intros Hd. induction k as [|k IH].
  - unfold header_store. cbn [seq foldl]. split_and!; [apply length_set_word; lia| |lia].
    apply word_set_word; [lia|apply u32_range].
  - destruct IH as (Hl & H0 & Hi); [lia|]. rewrite header_store_S. split_and!.
    + rewrite length_set_word; [done|lia].
    + rewrite word_set_word_ne; [done|lia..].
    + intros i Hik. destruct (decide (i = k)) as [->|Hne].
      * apply word_set_word; [lia|apply u32_range].
      * rewrite word_set_word_ne by lia. apply Hi. lia.
Qed.

(** A header that was stored is read back. *)
Lemma header_of_store bs d :
  (length bs <= Z.to_nat LOGSIZE)%nat -> length d = 512%nat -> (forall b, b ∈ bs -> 0 <= b < 2 ^ 31) ->
  header_of (header_store bs (Z.of_nat (length bs)) (length bs) d) = bs.
Proof.
  intros Hl Hd Hr. change (Z.to_nat LOGSIZE) with 30%nat in Hl.
  destruct (header_store_spec bs (Z.of_nat (length bs)) (length bs) d) as (_ & H0 & Hi); [lia|].
  unfold header_of. rewrite H0, s32_u32, Nat2Z.id by (unfold is_s32; lia). apply list_eq. intros i.
  rewrite list_lookup_fmap. destruct (decide (i < length bs)%nat) as [Hlt|Hge].
  - rewrite lookup_seq_lt, Nat.add_0_l by done. unfold fmap at 1, option_fmap, option_map. rewrite Hi by done.
    destruct (lookup_lt_is_Some_2 bs i Hlt) as [b Hb]. rewrite Hb. cbn. f_equal. apply s32_u32.
    assert (b ∈ bs) as Hin by (apply list_elem_of_lookup; eauto). specialize (Hr b Hin). split; lia.
  - rewrite lookup_seq_ge, (lookup_ge_None_2 bs) by lia. done.
Qed.

Lemma header_of_cleared d : (4 <= length d)%nat -> header_of (set_word 0 (u32 0) d) = [].
Proof. intros H. unfold header_of. by rewrite word_set_word by (done || lia). Qed.

Section specs.
Context (pid : Z).

Lemma wp_lh_block s i b (Q : Z -> lsys -> Prop) E :
  lg_block (ls_log s) !! Z.to_nat i = Some b -> Q b s -> wp (lh_block i) Q E s.
Proof. intros H HQ. unfold lh_block. wp_step. wp_step. by apply wp_of_option with b. Qed.

(** Taking the two buffers of a copying loop. *)
Lemma bread_free n i a c1 l c :
  took [] l c i a c1 -> n ≠ a -> forall j b, j ∈ [i] -> bc_buf c1 !! j = Some b -> is_block n b = false.
Proof.
  intros Ht Hne j b ->%list_elem_of_singleton Hb. destruct (tk_holds _ _ _ _ _ _ Ht) as (x & Hx & HP & _).
  assert (x = b) as -> by congruence. apply not_true_iff_false. intros [_ E]%is_block_true.
  apply is_block_true in HP as [_ ?]. congruence.
Qed.

Lemma bread_on_bc h l n (Q : nat -> lsys -> Prop) s :
  binv h l (ls_cache s) -> (0 < nfree (ls_cache s))%nat ->
  (forall i b, i ∈ h -> bc_buf (ls_cache s) !! i = Some b -> is_block n b = false) ->
  0 <= n < disksize (ls_cache s) ->
  (forall i c, took h l (ls_cache s) i n c -> Q i (mkLsys (ls_log s) c)) -> wp (on_bc (bread pid 1 n)) Q no_halt s.
Proof. intros. eapply wp_on_bc_total; [by apply bread_spec|done]. Qed.

Lemma gives_back_le i c : (gives_back i c <= 1)%nat.
Proof. unfold gives_back. destruct (bc_buf c !! i); [destruct (has_flag _ _)|]; cbn; lia. Qed.

(** The four cache operations that end an iteration of a copying loop. *)
Lemma on_bc_copy (m1 m2 m3 m4 : M bcache unit) (Q : option unit -> lsys -> Prop) E s :
  wp (on_bc (m1;; m2;; m3;; m4);; mret None) Q E s ->
  wp (on_bc m1;; on_bc m2;; on_bc m3;; on_bc m4;; mret None) Q E s.
Proof.
  unfold wp, on_bc, mbind, M_bind. cbn.
  destruct (m1 (ls_cache s)) as [[[]|h] c1]; [|done]. cbn. destruct (m2 c1) as [[[]|h] c2]; [|done]. cbn.
  destruct (m3 c2) as [[[]|h] c3]; [|done]. cbn. by destruct (m4 c3) as [[[]|h] c4].
Qed.

Lemma copy_tail c p q a b fb s (Q : option unit -> lsys -> Prop) :
  copying c p q a b (ls_cache s) -> bc_buf (ls_cache s) !! q = Some fb ->
  (forall c', wrote c [(Z.to_nat b, view c a)] c' -> Q None (mkLsys (ls_log s) c')) ->
  wp (on_bc (modify (upd_buf p (set_data (b_data fb))));; on_bc (bwrite p);;
      on_bc (brelse q);; on_bc (brelse p);; mret None) Q no_halt s.
Proof.
  intros Hc Hfb HQ. apply on_bc_copy. wp_step. eapply wp_on_bc_total; [by eapply copy_finish|].
  intros ? c' Hw. wp_step. by apply HQ.
Qed.

(** A thread that took buffer [i] for block [n] when the state was [g] and
    [c], and gave it the data [d]. *)
Record editing (g : log) (c : bcache) (i : nat) (n : Z) (d : list Z) (s : lsys) : Prop := mkEditing {
  ed_log : ls_log s = g;
  ed_inv : exists l, binv [i] l (ls_cache s);
  ed_holds : holds i n d (ls_cache s);
  ed_free : nfree c = (nfree (ls_cache s) + gives_back i (ls_cache s))%nat;
  ed_disk : bc_disk (ls_cache s) = bc_disk c;
  ed_trace : bc_trace (ls_cache s) = bc_trace c;
  ed_view : forall m, m ≠ n -> view (ls_cache s) m = view c m;
}.

Lemma editing_took l i n s c : took [] l (ls_cache s) i n c ->
  editing (ls_log s) (ls_cache s) i n (view (ls_cache s) n) (mkLsys (ls_log s) c).
Proof. intros []. by constructor; eauto. Qed.

Lemma editing_range g c i n d s : editing g c i n d s -> 0 <= n < disksize c /\ length d = 512%nat.
Proof.
  intros [_ [l I] (b & Hb & HP & Hd) _ D _ _]. apply is_block_true in HP as [_ <-].
  destruct (binv_held_ok _ _ _ i b I ltac:(by left) Hb) as (Hl & _ & _ & _ & Hr & _).
  unfold disksize in *. rewrite D in Hr. by rewrite <- Hd.
Qed.

Lemma editing_upd g c i n d f s :
  editing g c i n d s -> length (f d) = 512%nat ->
  wp (on_bc (modify (upd_buf i (fun b => set_data (f (b_data b)) b))))
     (fun _ s' => editing g c i n (f d) s') no_halt s.
Proof.
  intros [Hg [l I] H F D T V] Hl. pose proof H as (b & Hb & HP & Hd). apply wp_on_bc, (wp_upd _ _ b); [done|].
  rewrite Hd. destruct (set_data_spec _ _ i n d (f d) b _ I ltac:(by left) H Hb Hl) as (I1 & H1 & F1 & G1 & _ & Vm).
  constructor; cbn [ls_log ls_cache]; try done; [eauto|lia|]. intros m Hm. rewrite Vm by done. by apply V.
Qed.

Lemma editing_write g c i n d s :
  editing g c i n d s ->
  wp (on_bc (bwrite i);; on_bc (brelse i))
     (fun _ s' => ls_log s' = g /\ wrote c [(Z.to_nat n, d)] (ls_cache s')) no_halt s.
Proof.
  intros Hed. destruct (editing_range _ _ _ _ _ _ Hed) as [Hn _]. destruct Hed as [Hg [l I] H F D T V].
  wp_step. eapply wp_on_bc_total; [eapply bwrite_spec; [exact I|by left|exact H]|].
  intros ? c1 (I1 & H1 & S1 & G1 & F1 & O1 & D1 & T1 & V1).
  eapply wp_on_bc_total; [by eapply brelse_spec; [exact I1|set_solver|]|].
  intros ? c2 (I2 & F2 & O2 & D2 & T2 & V2). cbn [ls_log ls_cache] in *. split; [done|]. constructor; [eauto|..].
  - pose proof (gives_back_le i (ls_cache s)). lia.
  - by rewrite D2, D1, D.
  - by rewrite T2, T1, T.
  - intros m Hm. rewrite V2, V1 by done. cbn. destruct (decide (Z.to_nat n = Z.to_nat m)) as [E|E].
    + assert (n = m) as <- by lia. destruct H as (b & Hb & HP & Hd). destruct I as (_ & _ & _ & _ & Hu & _).
      by rewrite (view_cached _ i b).
    + apply V. congruence.
Qed.

(** The progress of a copying loop: its first [k] writes are done. *)
Definition progress (g : log) (c : bcache) (w : list (nat * list Z)) (k : Z) (s : lsys) : Prop :=
  ls_log s = g /\ wrote c (take (Z.to_nat k) w) (ls_cache s).

Lemma progress_step g c w k p s' :
  0 <= k -> w !! Z.to_nat k = Some p -> ls_log s' = g ->
  wrote c (take (Z.to_nat k) w ++ [p]) (ls_cache s') -> progress g c w (k + 1) s'.
Proof.
  intros Hk Hp Hg Hw. split; [done|]. replace (Z.to_nat (k + 1)) with (S (Z.to_nat k)) by lia.
  by erewrite take_S_r.
Qed.

Section loops.
Context (g : log) (bs : list Z) (l : list nat) (c : bcache).
Context (Hok : log_ok g bs (disksize c)) (Hinv : binv [] l c) (Hfree : (2 <= nfree c)%nat).

Lemma logged_block k : 0 <= k < lg_n g -> exists b,
  bs !! Z.to_nat k = Some b /\ lg_block g !! Z.to_nat k = Some b /\ u32 b = b /\ 0 <= b < disksize c /\ home g b.
Proof using Hok Hfree.
  intros Hk. rewrite (lo_n _ _ _ Hok) in Hk.
  destruct (lookup_lt_is_Some_2 bs (Z.to_nat k) ltac:(lia)) as [b Hb]. exists b.
  destruct (lo_home _ _ _ Hok b) as [Hr Hh]; [by apply list_elem_of_lookup; eauto|].
  pose proof (lo_area _ _ _ Hok). split_and!; try done; [by apply (lo_block _ _ _ Hok)| |lia..].
  apply u32_id. split; lia.
Qed.

Lemma log_block_slot k : 0 <= k < lg_n g ->
  u32 (lg_start g + k + 1) = lg_start g + k + 1 /\ 0 <= lg_start g + k + 1 < disksize c /\
  ~ home g (lg_start g + k + 1).
Proof using Hok Hfree.
  intros Hk. rewrite (lo_n _ _ _ Hok) in Hk. pose proof (lo_area _ _ _ Hok).
  destruct (log_slot_home g bs (disksize c) (Z.to_nat k) Hok ltac:(lia)) as [Hh Hr].
  rewrite Z2Nat.id in Hh, Hr by lia. split_and!; try done; [|lia..]. apply u32_id. split; lia.
Qed.

Lemma wrote_ready w c' : wrote c w c' ->
  exists l', binv [] l' c' /\ (2 <= nfree c')%nat /\ disksize c' = disksize c.
Proof using Hfree.
  intros Hw. destruct (wr_inv _ _ _ Hw) as [l' Hl']. exists l'. split_and!; [done| |by eapply wrote_size].
  pose proof (wr_free _ _ _ Hw). lia.
Qed.

Lemma install_trans_spec s :
  ls_log s = g -> ls_cache s = c ->
  wp (install_trans pid) (fun _ s' => ls_log s' = g /\ wrote c (home_writes g (view c) bs) (ls_cache s')) no_halt s.
Proof using Hok Hinv Hfree.
  intros Hg Hc. unfold install_trans. wp_step. wp_step. wp_step. rewrite Hg, (lo_dev _ _ _ Hok).
  apply (wp_for_seqZ (progress g c (home_writes g (view c) bs))).
  - rewrite (lo_n _ _ _ Hok). lia.
  - split; [done|]. rewrite Hc. by eapply wrote_nothing.
  - intros k s1 Hk [Hg1 Hw]. destruct (wrote_ready _ _ Hw) as (l1 & I1 & F1 & E1).
    destruct (logged_block k ltac:(lia)) as (b & Hb & Hgb & Hub & Hr & Hh).
    destruct (log_block_slot k ltac:(lia)) as (-> & Hsr & Hsh).
    assert (Hne : b ≠ lg_start g + k + 1) by (by intros ->).
    wp_step. eapply bread_on_bc; [exact I1|lia|by apply none_held|by rewrite E1|]. intros lbuf c1 T1.
    wp_step. eapply wp_lh_block; [by rewrite Hg1|]. rewrite Hub. pose proof (tk_free _ _ _ _ _ _ T1) as Fr1.
    pose proof (gives_back_le lbuf c1).
    wp_step. eapply bread_on_bc; [exact (tk_inv _ _ _ _ _ _ T1)|cbn [ls_cache]; lia|by eapply bread_free| |].
    { cbn [ls_cache]. unfold disksize in *. by rewrite (tk_disk _ _ _ _ _ _ T1), E1. }
    intros dbuf c2 T2. cbn [ls_cache ls_log] in *. destruct (took_twice _ _ _ _ _ _ _ _ T1 T2) as [Cp _].
    destruct (cp_src _ _ _ _ _ _ Cp) as (lb & Hlb & _).
    wp_step. apply wp_on_bc. apply (wp_the_buf _ lb); [done|].
    eapply copy_tail; [exact Cp|done|]. intros c3 Hw3. split; [done|]. cbn [ls_log ls_cache].
    eapply progress_step; [lia|by apply lookup_home_writes|done|]. cbn [ls_cache].
    rewrite Z2Nat.id by lia.
    rewrite (wr_view _ _ _ Hw), (latest_home_writes g _ bs (disksize c)) in Hw3 by (done || lia).
    by eapply wrote_trans.
  - intros s1 [Hg1 Hw]. wp_step. split; [done|]. rewrite take_ge in Hw; [done|].
    unfold home_writes. rewrite length_imap, (lo_n _ _ _ Hok). lia.
Qed.

Lemma write_log_spec s :
  ls_log s = g -> ls_cache s = c ->
  wp (write_log pid) (fun _ s' => ls_log s' = g /\ wrote c (log_writes g (view c) bs) (ls_cache s')) no_halt s.
Proof using Hok Hinv Hfree.
  intros Hg Hc. unfold write_log. wp_step. wp_step. wp_step. rewrite Hg, (lo_dev _ _ _ Hok).
  apply (wp_for_seqZ (progress g c (log_writes g (view c) bs))).
  - rewrite (lo_n _ _ _ Hok). lia.
  - split; [done|]. rewrite Hc. by eapply wrote_nothing.
  - intros k s1 Hk [Hg1 Hw]. destruct (wrote_ready _ _ Hw) as (l1 & I1 & F1 & E1).
    destruct (logged_block k ltac:(lia)) as (b & Hb & Hgb & Hub & Hr & Hh).
    destruct (log_block_slot k ltac:(lia)) as (-> & Hsr & Hsh).
    assert (Hne : b ≠ lg_start g + k + 1) by (by intros ->).
    wp_step. eapply bread_on_bc; [exact I1|lia|by apply none_held|by rewrite E1|]. intros to c1 T1.
    wp_step. eapply wp_lh_block; [by rewrite Hg1|]. rewrite Hub. pose proof (tk_free _ _ _ _ _ _ T1) as Fr1.
    pose proof (gives_back_le to c1).
    wp_step. eapply bread_on_bc; [exact (tk_inv _ _ _ _ _ _ T1)|cbn [ls_cache]; lia|by eapply bread_free| |].
    { cbn [ls_cache]. unfold disksize in *. by rewrite (tk_disk _ _ _ _ _ _ T1), E1. }
    intros from c2 T2. cbn [ls_cache ls_log] in *. destruct (took_twice _ _ _ _ _ _ _ _ T1 T2) as [_ Cp].
    destruct (cp_src _ _ _ _ _ _ Cp) as (fb & Hfb & _).
    wp_step. apply wp_on_bc. apply (wp_the_buf _ fb); [done|].
    eapply copy_tail; [exact Cp|done|]. intros c3 Hw3. split; [done|]. cbn [ls_log ls_cache].
    eapply progress_step; [lia|by apply lookup_log_writes|done|]. cbn [ls_cache].
    rewrite Z2Nat.id by lia.
    rewrite (wr_view _ _ _ Hw), (latest_log_writes g _ bs (disksize c)) in Hw3 by (done || lia || by left).
    by eapply wrote_trans.
  - intros s1 [Hg1 Hw]. wp_step. split; [done|]. rewrite take_ge in Hw; [done|].
    unfold log_writes. rewrite length_imap, (lo_n _ _ _ Hok). lia.
Qed.


Lemma write_head_spec s :
  ls_log s = g -> ls_cache s = c ->
  wp (write_head pid) (fun _ s' => ls_log s' = g /\
      wrote c [(Z.to_nat (lg_start g), header_store bs (lg_n g) (length bs) (view c (lg_start g)))] (ls_cache s'))
    no_halt s.
Proof using Hok Hinv Hfree.
  intros Hg Hc. pose proof (lo_area _ _ _ Hok) as Ha. pose proof (lo_start _ _ _ Hok) as Hs0.
  pose proof (lo_n _ _ _ Hok) as Hn. pose proof (lo_len _ _ _ Hok) as Hl30.
  change (Z.to_nat LOGSIZE) with 30%nat in Hl30. pose proof (lo_fit _ _ _ Hok) as Hft.
  unfold write_head. wp_step. wp_step. wp_step. rewrite Hg, (lo_dev _ _ _ Hok), u32_id by (split; lia).
  eapply bread_on_bc; [by rewrite Hc|rewrite Hc; lia|by apply none_held|rewrite Hc; lia|].
  intros buf c1 T1%editing_took. rewrite Hg, Hc in T1. rewrite Hg. wp_step.
  pose proof (view_length c [] l (lg_start g) Hinv ltac:(lia)) as Hd.
  wp_call editing_upd; [exact T1|rewrite length_set_word; lia|]. intros ? s1 H1. wp_step.
  apply (wp_for_seqZ (fun k => editing g c buf (lg_start g)
                         (header_store bs (lg_n g) (Z.to_nat k) (view c (lg_start g))))); [lia|exact H1| |].
  - intros k s2 Hk H2. destruct (logged_block k Hk) as (b & Hb & Hgb & _).
    wp_step. eapply wp_lh_block; [by rewrite (ed_log _ _ _ _ _ _ H2)|]. wp_step.
    destruct (header_store_spec bs (lg_n g) (Z.to_nat k) (view c (lg_start g))) as (Hl & _); [lia|].
    wp_call editing_upd; [exact H2|rewrite length_set_word; lia|]. intros ? s3 H3. wp_step. split; [done|].
    replace (Z.to_nat (k + 1)) with (S (Z.to_nat k)) by lia. rewrite header_store_S, Hb. done.
  - intros s2 H2. rewrite Z.add_0_l in H2. wp_call editing_write; [exact H2|].
    rewrite Hn, Nat2Z.id. done.
Qed.
End loops.

(** ** Committing *)

Definition final_writes (v : Z -> list Z) (bs : list Z) : list (nat * list Z) := (fun b => (Z.to_nat b, v b)) <$> bs.

(** The writes of [commit], in order: log blocks, header, home blocks, and
    the cleared header. *)
Definition commit_writes (g : log) (v : Z -> list Z) (bs : list Z) : list (nat * list Z) :=
  let H := header_store bs (lg_n g) (length bs) (v (lg_start g)) in
  log_writes g v bs ++ [(Z.to_nat (lg_start g), H)] ++ final_writes v bs ++
  [(Z.to_nat (lg_start g), set_word 0 (u32 0) H)].

Lemma log_ok_clear g bs size : log_ok g bs size -> log_ok (set_n 0 g) [] size.
Proof. intros []. constructor; try done; [cbn; lia|cbn; lia|constructor|by intros b ?%elem_of_nil]. Qed.

Lemma NoDup_log_writes g v bs size : log_ok g bs size -> NoDup (log_writes g v bs).*1.
Proof.
  intros Hok. apply NoDup_fmap_2_strong.
  - intros [a x] [b y] (i & Hi)%list_elem_of_lookup (j & Hj)%list_elem_of_lookup E. cbn in E. subst.
    unfold log_writes in Hi, Hj. rewrite list_lookup_imap in Hi, Hj.
    destruct (bs !! i) as [bi|] eqn:Ei; [|done]. destruct (bs !! j) as [bj|] eqn:Ej; [|done].
    cbn in Hi, Hj. injection Hi as Hi <-. injection Hj as Hj <-. pose proof (lo_start _ _ _ Hok).
    assert (i = j) as <- by lia. congruence.
  - apply NoDup_alt. intros i j x Hi Hj. unfold log_writes in Hi, Hj. rewrite list_lookup_imap in Hi, Hj.
    destruct (bs !! i) as [bi|] eqn:Ei; [|done]. destruct (bs !! j) as [bj|] eqn:Ej; [|done].
    cbn in Hi, Hj. injection Hi as <-. injection Hj as Hj _. pose proof (lo_start _ _ _ Hok). lia.
Qed.

Lemma latest_log_slot g v bs size i b d :
  log_ok g bs size -> bs !! i = Some b ->
  latest (log_writes g v bs) (Z.to_nat (lg_start g + Z.of_nat i + 1)) d = v b.
Proof.
  intros Hok Hb. apply latest_in; [by eapply NoDup_log_writes|].
  eapply list_elem_of_lookup_2. by apply lookup_log_writes.
Qed.

Lemma home_writes_final g v v' bs :
  (forall i b, bs !! i = Some b -> v' (lg_start g + Z.of_nat i + 1) = v b) -> home_writes g v' bs = final_writes v bs.
Proof.
  intros H. apply list_eq. intros i. unfold home_writes, final_writes. rewrite list_lookup_imap, list_lookup_fmap.
  destruct (bs !! i) as [b|] eqn:E; [|done]. cbn. by rewrite (H i b).
Qed.

Lemma latest_final_other v bs m d : 0 <= m -> (forall b, b ∈ bs -> 0 <= b) -> m ∉ bs -> latest (final_writes v bs) (Z.to_nat m) d = d.
Proof.
  intros Hm Hbs Hn. apply latest_notin. intros ([? x] & E & (b & Eb & Hb)%list_elem_of_fmap)%list_elem_of_fmap.
  cbn in E. injection Eb as -> ->. specialize (Hbs b Hb). assert (m = b) as -> by lia. done.
Qed.

Lemma latest_final_in v bs m d :
  NoDup bs -> (forall b, b ∈ bs -> 0 <= b) -> m ∈ bs -> latest (final_writes v bs) (Z.to_nat m) d = v m.
Proof.
  intros Hnd Hbs Hm. apply latest_in; [|by apply (list_elem_of_fmap_2 (fun b => (Z.to_nat b, v b)))].
  unfold final_writes. rewrite <- list_fmap_compose. apply NoDup_fmap_2_strong; [|done].
  intros x y Hx Hy E. cbn in E. pose proof (Hbs x Hx). pose proof (Hbs y Hy). lia.
Qed.

Lemma start_not_home g bs size : log_ok g bs size -> ~ home g (lg_start g).
Proof. intros Hok. pose proof (lo_fit _ _ _ Hok). unfold home. lia. Qed.

Lemma commit_spec g bs l c s :
  log_ok g bs (disksize c) -> binv [] l c -> (2 <= nfree c)%nat -> bs ≠ [] -> ls_log s = g -> ls_cache s = c ->
  wp (commit pid) (fun _ s' => ls_log s' = set_n 0 g /\ wrote c (commit_writes g (view c) bs) (ls_cache s')) no_halt s.
Proof.
  intros Hok Hinv Hfree Hne Hg Hc. pose proof (lo_start _ _ _ Hok) as Hs.
  unfold commit. wp_step. wp_step. rewrite Hg, (lo_n _ _ _ Hok).
  assert ((0 <? Z.of_nat (length bs)) = true) as -> by (destruct bs; [done|]; apply Z.ltb_lt; cbn; lia).
  wp_step. wp_step. wp_call (write_log_spec g bs l c); [done..|]. intros ? s1 (G1 & W1).
  destruct (wrote_ready c Hfree _ _ W1) as (l1 & I1 & F1 & E1).
  wp_step. wp_call (write_head_spec g bs l1 (ls_cache s1)); [by rewrite E1|done..|]. intros ? s2 (G2 & W2).
  rewrite (wr_view _ _ _ W1), (latest_log_all g _ bs (disksize c)) in W2 by (done || by right).
  pose proof (wrote_trans _ _ _ _ _ W1 W2) as W12.
  destruct (wrote_ready c Hfree _ _ W12) as (l2 & I2 & F2 & E2).
  wp_step. wp_call (install_trans_spec g bs l2 (ls_cache s2)); [by rewrite E2|done..|]. intros ? s3 (G3 & W3).
  rewrite (home_writes_final g (view c)) in W3.
  2: { intros i b Hb. rewrite (wr_view _ _ _ W12), latest_app by lia. cbn. rewrite decide_False by lia.
       by eapply latest_log_slot. }
  pose proof (wrote_trans _ _ _ _ _ W12 W3) as W123.
  destruct (wrote_ready c Hfree _ _ W123) as (l3 & I3 & F3 & E3).
  wp_step. apply wp_modify. wp_call (write_head_spec (set_n 0 g) [] l3 (ls_cache s3)); [|done|done|by cbn; rewrite G3|done|].
  { rewrite E3. by eapply log_ok_clear. }
  intros ? s4 (G4 & W4). split; [done|]. rewrite (wr_view _ _ _ W123), !latest_app in W4 by done.
  rewrite (latest_log_all g _ bs (disksize c)) in W4 by (done || by right).
  rewrite latest_final_other in W4; [|done| |].
  - cbn [latest] in W4. rewrite decide_True in W4 by done.
    pose proof (wrote_trans _ _ _ _ _ W123 W4) as W. unfold commit_writes. by rewrite <- !app_assoc in W.
  - intros b Hb. by destruct (lo_home _ _ _ Hok b Hb) as [[? _] _].
  - intros Hin. destruct (lo_home _ _ _ Hok _ Hin) as [_ Hst]. exact (start_not_home g _ _ Hok Hst).
Qed.

(** ** Recovery *)

(** The header block [d] describes a log that can be replayed. *)
Record header_ok (g : log) (d : list Z) (size : Z) : Prop := mkHeaderOk {
  ho_n : 0 <= s32 (word_at d 0) <= LOGSIZE;
  ho_fit : s32 (word_at d 0) < lg_size g;
  ho_nodup : NoDup (header_of d);
  ho_home : forall b, b ∈ header_of d -> 0 <= b < size /\ home g b;
}.

Lemma length_header_of d : length (header_of d) = Z.to_nat (s32 (word_at d 0)).
Proof. unfold header_of. by rewrite length_fmap, length_seq. Qed.

Lemma lookup_header_of d i : (i < Z.to_nat (s32 (word_at d 0)))%nat -> header_of d !! i = Some (s32 (word_at d (S i))).
Proof. intros Hi. unfold header_of. by rewrite list_lookup_fmap, lookup_seq_lt. Qed.

(** Progress of the loop of [read_head]. *)
Record reading (g : log) (c : bcache) (i : nat) (d : list Z) (k : Z) (s : lsys) : Prop := mkReading {
  rd_cache : editing (ls_log s) c i (lg_start g) d s;
  rd_settled : settled i (ls_cache s);
  rd_log : exists bl, ls_log s = set_block bl (set_n (s32 (word_at d 0)) g) /\ length bl = Z.to_nat LOGSIZE /\
           forall j, (j < Z.to_nat k)%nat -> bl !! j = header_of d !! j;
}.

Lemma read_head_spec g l c s :
  log_ok (set_n 0 g) [] (disksize c) -> binv [] l c -> (2 <= nfree c)%nat -> ls_log s = g -> ls_cache s = c ->
  header_ok g (view c (lg_start g)) (disksize c) ->
  wp (read_head pid) (fun _ s' =>
      log_ok (ls_log s') (header_of (view c (lg_start g))) (disksize c) /\
      lg_start (ls_log s') = lg_start g /\ lg_size (ls_log s') = lg_size g /\ wrote c [] (ls_cache s')) no_halt s.
Proof.
  intros Hok Hinv Hfree Hg Hc [Hn Hft Hnd Hh]. pose proof (lo_area _ _ _ Hok) as Ha. pose proof (lo_fit _ _ _ Hok) as Hft0. pose proof (lo_start _ _ _ Hok) as Hs0.
  cbn [lg_start lg_size set_n length] in Ha, Hs0, Hft0. set (d := view c (lg_start g)) in *.
  unfold read_head. wp_step. wp_step. wp_step. rewrite Hg. pose proof (lo_dev _ _ _ Hok) as Hdev. cbn in Hdev.
  rewrite Hdev, u32_id by (split; lia).
  eapply bread_on_bc; [by rewrite Hc|rewrite Hc; lia|by apply none_held|rewrite Hc; lia|].
  intros buf c1 T1. pose proof (editing_took _ _ _ _ _ T1) as E1. rewrite Hc in E1, T1. fold d in E1.
  destruct (ed_holds _ _ _ _ _ _ E1) as (lh & Hlh & _ & Hd). cbn [ls_cache] in Hlh.
  wp_step. apply wp_on_bc, (wp_the_buf _ lh); [done|]. wp_step. rewrite Hd. apply wp_modify. cbn [ls_log ls_cache]. wp_step.
  apply (wp_for_seqZ (reading g c buf d)); [lia| | |].
  - constructor; cbn [ls_log ls_cache]; [|exact (tk_settled _ _ _ _ _ _ T1)|].
    + by destruct E1; constructor.
    + exists (lg_block g). rewrite Hg. split_and!; [done|exact (lo_array _ _ _ Hok)|lia].
  - intros k s1 Hk [Ed St (bl & Hbl & Hlen & Hpre)]. wp_step. wp_step. rewrite Hbl. cbn [lg_block set_block].
    change (Z.to_nat LOGSIZE) with 30%nat in Hlen. change LOGSIZE with 30 in Hn.
    rewrite (proj2 (Nat.ltb_lt _ _)) by lia. wp_step. apply wp_modify. wp_step. split; [done|]. constructor.
    + by destruct Ed; constructor.
    + done.
    + exists (<[Z.to_nat k := s32 (word_at d (S (Z.to_nat k)))]> bl). cbn [ls_log]. rewrite Hbl.
      split_and!; [done|by rewrite length_insert|]. intros j Hj. destruct (decide (j = Z.to_nat k)) as [->|Hne].
      * rewrite list_lookup_insert_eq by lia. rewrite lookup_header_of by lia. done.
      * rewrite list_lookup_insert_ne by done. apply Hpre. lia.
  - intros s1 [Ed St (bl & Hbl & Hlen & Hpre)]. rewrite Z.add_0_l in Hpre. destruct (ed_inv _ _ _ _ _ _ Ed) as [l1 I1].
    eapply wp_on_bc_total; [by apply (brelse_spec [] l1); [|set_solver|]|].
    intros ? c2 (I2 & F2 & _ & D2 & T2 & V2). cbn [ls_log ls_cache]. rewrite Hbl. split_and!; [|done|done|].
    + destruct Hok. constructor; cbn [lg_dev lg_start lg_size lg_n lg_block set_block set_n]; try done;
        [rewrite length_header_of; lia|rewrite length_header_of; lia|..].
      * rewrite length_header_of. lia.
      * intros i b Hb. rewrite Hpre; [done|]. rewrite <- length_header_of. by eapply lookup_lt_Some.
    + destruct Ed as [_ _ Hh' F D T V]. constructor; [eauto|lia|by rewrite D2, D|by rewrite T2, T, app_nil_r|].
      intros m Hm. rewrite V2. cbn [latest]. destruct (decide (m = lg_start g)) as [->|Hne]; [|by apply V].
      destruct Hh' as (b & Hb & HP & Hbd). destruct I1 as (_ & _ & _ & _ & Hu & _). by rewrite (view_cached _ buf b).
Qed.

Lemma recover_spec g l c s :
  log_ok (set_n 0 g) [] (disksize c) -> binv [] l c -> (2 <= nfree c)%nat -> ls_log s = g -> ls_cache s = c ->
  header_ok g (view c (lg_start g)) (disksize c) ->
  let bs := header_of (view c (lg_start g)) in
  wp (recover_from_log pid) (fun _ s' =>
      lg_n (ls_log s') = 0 /\
      wrote c (home_writes g (view c) bs ++ [(Z.to_nat (lg_start g), set_word 0 (u32 0) (view c (lg_start g)))])
        (ls_cache s')) no_halt s.
Proof.
  intros Hok Hinv Hfree Hg Hc Hhd bs. pose proof (lo_start _ _ _ Hok) as Hs0. cbn in Hs0.
  unfold recover_from_log. wp_step. wp_call (read_head_spec g l c); [done..|].
  intros ? s1 (Hok1 & Hst1 & _ & W1). fold bs in Hok1. destruct (wrote_ready c Hfree _ _ W1) as (l1 & I1 & F1 & E1).
  wp_step. wp_call (install_trans_spec (ls_log s1) bs l1 (ls_cache s1)); [by rewrite E1|done..|].
  intros ? s2 (G2 & W2). pose proof (wrote_trans _ _ _ _ _ W1 W2) as W12. cbn [app] in W12.
  assert (Hhw : home_writes (ls_log s1) (view (ls_cache s1)) bs = home_writes g (view c) bs).
  { unfold home_writes. apply imap_ext. intros i b Hb. rewrite Hst1, (wr_view _ _ _ W1) by lia. done. }
  rewrite Hhw in W12. destruct (wrote_ready c Hfree _ _ W12) as (l2 & I2 & F2 & E2).
  wp_step. apply wp_modify.
  wp_call (write_head_spec (set_n 0 (ls_log s1)) [] l2 (ls_cache s2)); [|done|done|by cbn; rewrite G2|done|].
  { rewrite E2. by eapply log_ok_clear. }
  intros ? s3 (G3 & W3). split; [by rewrite G3|]. cbn [lg_start set_n] in W3. rewrite Hst1 in W3.
  rewrite (wr_view _ _ _ W12), <- Hhw in W3 by done.
  rewrite <- (firstn_all (home_writes _ _ _)), (latest_home_writes _ _ bs (disksize c)) in W3;
    [|done|done|rewrite <- Hst1; by eapply start_not_home].
  by eapply wrote_trans.
Qed.
End specs.
