(* ===== verification/LogCrash.v ===== *)
(** * LogCrash: transactions are atomic across power failures

    What the disk looks like when power fails between two block writes of a
    commit, what recovery makes of it, and the transaction theorem. *)
From S2P Require Import Prelude Ring FsFormat Bio Log LogProof.

(** The contents of the blocks outside the log area. *)
Definition home_is (g : log) (c : bcache) (f : Z -> list Z) : Prop :=
  forall m, 0 <= m < disksize c -> home g m -> disk_at c m = f m.

(** The machine after a power failure that kept the first [k] of the writes
    [w]: a fresh cache over that disk. *)
Definition reboot (c : bcache) (w : list (nat * list Z)) (k : nat) : bcache :=
  binit (apply_writes (bc_disk c) (take k w)).

Lemma reboot_spec h l c w k :
  binv h l c -> (forall p, p ∈ w -> length p.2 = 512%nat) ->
  (exists l', binv [] l' (reboot c w k)) /\ (2 <= nfree (reboot c w k))%nat /\
  disksize (reboot c w k) = disksize c /\
  (forall m, view (reboot c w k) m = disk_at (reboot c w k) m) /\
  (forall m, 0 <= m < disksize c -> disk_at (reboot c w k) m = latest (take k w) (Z.to_nat m) (disk_at c m)).
Proof.
  intros Hinv Hw. assert (HD : Forall (fun d => length d = 512%nat) (apply_writes (bc_disk c) (take k w))).
  { destruct Hinv as (_ & _ & _ & HD & _). assert (Hw' : forall p, p ∈ take k w -> length p.2 = 512%nat).
    { intros p (i & Hp & _)%elem_of_take. apply Hw. by eapply list_elem_of_lookup_2. }
    revert Hw' HD. generalize (take k w), (bc_disk c). clear. intros w. induction w as [|p w IH]; intros D Hw HD; [done|].
    cbn. apply IH; [intros; apply Hw; by right|]. apply Forall_insert; [done|]. apply Hw. by left. }
  destruct (binit_quiescent _ HD) as [(l' & I' & _) V].
  assert (Hs : disksize (reboot c w k) = disksize c).
  { unfold disksize, reboot, binit. cbn [bc_disk]. by rewrite length_apply_writes. }
  split_and!; [by exists l'|by vm_compute; repeat constructor|done|done|].
  intros m Hm. unfold disk_at, reboot. cbn [bc_disk binit].
  destruct (block_lookup _ _ _ _ Hinv Hm) as (d & Hd & _). rewrite Hd. by erewrite apply_writes_lookup by done.
Qed.

Section commit.
Context (pid : Z) (g g0 : log) (bs : list Z) (l : list nat) (c : bcache).
Context (Hok : log_ok g bs (disksize c)) (Hinv : binv [] l c).
(** [g0] is the log structure of the rebooted kernel. *)
Context (Hg0 : log_ok (set_n 0 g0) [] (disksize c)) (Hst : lg_start g0 = lg_start g) (Hls : lg_size g0 = lg_size g).
(** No transaction is on the disk yet, and only logged blocks differ from it. *)
Context (Hempty : s32 (word_at (disk_at c (lg_start g)) 0) = 0).
Context (Hclean : forall m, 0 <= m < disksize c -> m ∉ bs -> view c m = disk_at c m).

Definition header : list Z := header_store bs (lg_n g) (length bs) (view c (lg_start g)).

Lemma bs_pos b : b ∈ bs -> 0 <= b < disksize c.
Proof using Hok. intros Hb. by destruct (lo_home _ _ _ Hok b Hb). Qed.

Lemma start_range : 0 <= lg_start g < disksize c.
Proof using Hok.
  pose proof (lo_start _ _ _ Hok). pose proof (lo_area _ _ _ Hok). pose proof (lo_fit _ _ _ Hok). lia.
Qed.

Lemma header_length : length header = 512%nat /\ header_of header = bs /\ s32 (word_at header 0) = Z.of_nat (length bs).
Proof using Hok Hinv.
  pose proof (view_length _ _ _ _ Hinv start_range) as Hv. pose proof (lo_len _ _ _ Hok) as Hl.
  change (Z.to_nat LOGSIZE) with 30%nat in Hl. pose proof (lo_n _ _ _ Hok) as Hn.
  destruct (header_store_spec bs (lg_n g) (length bs) (view c (lg_start g))) as (H1 & H2 & _); [lia|].
  unfold header. rewrite H1, H2, Hn. split_and!; [done| |apply s32_u32; split; lia].
  apply header_of_store; [done|done|]. intros b Hb%bs_pos. pose proof (lo_area _ _ _ Hok). lia.
Qed.

Lemma commit_writes_length p : p ∈ commit_writes g (view c) bs -> length p.2 = 512%nat.
Proof using Hok Hinv.
  destruct header_length as (Hh & _). assert (Hb : forall b, b ∈ bs -> length (view c b) = 512%nat).
  { intros b Hb%bs_pos. by eapply view_length. }
  unfold commit_writes. rewrite !elem_of_app, !list_elem_of_singleton. intros [H|[E|[H|E]]]; [|by rewrite E| |rewrite E].
  - apply list_elem_of_lookup in H as [i H]. unfold log_writes in H. rewrite list_lookup_imap in H.
    destruct (bs !! i) as [b|] eqn:E; [|done]. cbn in H. injection H as <-. apply Hb. by eapply list_elem_of_lookup_2.
  - apply list_elem_of_fmap in H as (b & -> & H). by apply Hb.
  - cbn [snd]. rewrite length_set_word; [done|]. fold header. rewrite Hh. lia.
Qed.

(** What recovery makes of a rebooted disk whose header block lists [es]. *)
Lemma recover_reboot w k es s :
  (forall p, p ∈ w -> length p.2 = 512%nat) -> ls_log s = g0 -> ls_cache s = reboot c w k ->
  header_ok g0 (disk_at (reboot c w k) (lg_start g)) (disksize c) ->
  header_of (disk_at (reboot c w k) (lg_start g)) = es ->
  wp (recover_from_log pid) (fun _ s' => lg_n (ls_log s') = 0 /\ quiescent (ls_cache s') /\
      disksize (ls_cache s') = disksize c /\ forall m, 0 <= m < disksize c -> home g m ->
      disk_at (ls_cache s') m =
        latest (home_writes g0 (disk_at (reboot c w k)) es) (Z.to_nat m) (disk_at (reboot c w k) m)) no_halt s.
Proof using Hok Hinv Hg0 Hst.
  intros Hw Hg Hc Hhd Hes. destruct (reboot_spec _ _ c w k Hinv Hw) as ([l' I'] & F' & S' & V' & _).
  wp_call (recover_spec pid g0 l' (reboot c w k)); [by rewrite S'|done|done|done|done|by rewrite V', Hst, S'|].
  intros ? s' [Hn W]. rewrite V', Hst, Hes in W.
  assert (Hhw : home_writes g0 (view (reboot c w k)) es = home_writes g0 (disk_at (reboot c w k)) es).
  { unfold home_writes. apply imap_ext. intros. by rewrite V'. }
  rewrite Hhw in W. split_and!; [done| | |].
  - destruct (wr_inv _ _ _ W) as [l2 I2]. exists l2. split; [done|]. pose proof (wr_free _ _ _ W). lia.
  - by rewrite (wrote_size _ _ _ W).
  - intros m Hm Hh. unfold disk_at at 1. rewrite (wr_disk _ _ _ W).
    destruct (block_lookup (reboot c w k) m _ _ I') as (d & Hd & _); [by rewrite S'|].
    erewrite apply_writes_lookup by done. cbn [default]. rewrite latest_app. cbn [latest].
    rewrite decide_False; [by unfold disk_at; rewrite Hd|]. intros E.
    assert (lg_start g = m) as <- by (pose proof start_range; lia). exact (start_not_home g _ _ Hok Hh).
Qed.

Lemma take_commit_writes k :
  let w := commit_writes g (view c) bs in
  (k <= length bs)%nat /\ take k w = take k (log_writes g (view c) bs) \/
  (exists j, take k w = log_writes g (view c) bs ++ (Z.to_nat (lg_start g), header) :: take j (final_writes (view c) bs)) \/
  take k w = w.
Proof.
  cbv zeta. unfold commit_writes. fold header. set (A := log_writes g (view c) bs). set (F := final_writes (view c) bs).
  assert (HA : length A = length bs) by apply length_imap. assert (HF : length F = length bs) by apply length_fmap.
  destruct (decide (k <= length bs)%nat) as [Hk|Hk]; [left; split; [done|]; by rewrite take_app_le by lia|right].
  rewrite take_app_ge, HA by lia. destruct (k - length bs)%nat as [|j] eqn:Ej; [lia|]. cbn [app take].
  destruct (decide (j <= length bs)%nat) as [Hj|Hj].
  - left. exists j. by rewrite take_app_le by lia.
  - right. by rewrite (take_ge (F ++ _)) by (rewrite length_app; cbn; lia).
Qed.

Lemma home_start_ne m : home g m -> m ≠ lg_start g.
Proof using Hok. intros Hh ->. exact (start_not_home g _ _ Hok Hh). Qed.

Lemma latest_final_home m j d :
  0 <= m < disksize c -> d = disk_at c m \/ d = view c m ->
  latest (final_writes (view c) bs) (Z.to_nat m) (latest (take j (final_writes (view c) bs)) (Z.to_nat m) d) = view c m.
Proof using Hok Hclean.
  intros Hm Hd. assert (Hp : forall b, b ∈ bs -> 0 <= b) by (intros b Hb%bs_pos; lia).
  destruct (decide (m ∈ bs)) as [Hin|Hin].
  - apply latest_final_in; [exact (lo_nodup _ _ _ Hok)|done|done].
  - rewrite latest_final_other by (done || lia). unfold final_writes. rewrite <- fmap_take.
    fold (final_writes (view c) (take j bs)). rewrite latest_final_other; [|lia| |].
    + destruct Hd as [-> | ->]; [symmetry; apply Hclean; [lia|done]|done].
    + intros b Hb. by apply Hp, (subseteq_take j).
    + intros H. by apply Hin, (subseteq_take j).
Qed.

(** Before the header is written, recovery finds an empty log. *)
Lemma crash_old k s :
  let w := commit_writes g (view c) bs in
  take k w = take k (log_writes g (view c) bs) -> ls_log s = g0 -> ls_cache s = reboot c w k ->
  wp (recover_from_log pid) (fun _ s' => lg_n (ls_log s') = 0 /\ quiescent (ls_cache s') /\
      disksize (ls_cache s') = disksize c /\ home_is g (ls_cache s') (disk_at c)) no_halt s.
Proof using Hok Hinv Hg0 Hst Hempty.
  cbv zeta. intros Hk Hg Hc. set (w := commit_writes g (view c) bs) in *. pose proof start_range as Hs.
  assert (Hw : forall p, p ∈ w -> length p.2 = 512%nat) by apply commit_writes_length.
  destruct (reboot_spec _ _ c w k Hinv Hw) as (_ & _ & _ & _ & Hd).
  assert (Hkeep : forall m, 0 <= m < disksize c -> home g m \/ m = lg_start g ->
    disk_at (reboot c w k) m = disk_at c m).
  { intros m Hm Hh. rewrite Hd, Hk by done. apply (latest_log_writes g _ bs (disksize c)); [done|lia|done]. }
  assert (Hes : header_of (disk_at (reboot c w k) (lg_start g)) = []).
  { unfold header_of. rewrite Hkeep, Hempty by auto. done. }
  wp_call (recover_reboot w k []); [done..| |done|].
  - split; [rewrite Hkeep, Hempty by auto; done|rewrite Hkeep, Hempty by auto; exact (lo_fit _ _ _ Hg0)|rewrite Hes; constructor|]. intros b Hb. rewrite Hes in Hb.
    by apply elem_of_nil in Hb.
  - intros ? s' (Hn & Hq & Hsz & Hdisk). split_and!; [done..|]. intros m Hm Hh. rewrite Hsz in Hm.
    rewrite Hdisk by done. cbn. apply Hkeep; [done|by left].
Qed.

(** Once it is written, recovery completes the transaction. *)
Lemma crash_new k s :
  let w := commit_writes g (view c) bs in
  (exists j, take k w = log_writes g (view c) bs ++ (Z.to_nat (lg_start g), header) :: take j (final_writes (view c) bs)) ->
  ls_log s = g0 -> ls_cache s = reboot c w k ->
  wp (recover_from_log pid) (fun _ s' => lg_n (ls_log s') = 0 /\ quiescent (ls_cache s') /\
      disksize (ls_cache s') = disksize c /\ home_is g (ls_cache s') (view c)) no_halt s.
Proof using Hok Hinv Hg0 Hst Hls Hclean.
  cbv zeta. intros [j Hk] Hg Hc. set (w := commit_writes g (view c) bs) in *. pose proof start_range as Hs.
  assert (Hw : forall p, p ∈ w -> length p.2 = 512%nat) by apply commit_writes_length.
  destruct (reboot_spec _ _ c w k Hinv Hw) as (_ & _ & _ & _ & Hd). destruct header_length as (_ & Hhd & Hhn).
  assert (Hp : forall b, b ∈ bs -> 0 <= b) by (intros b Hb%bs_pos; lia).
  assert (Hfin : forall m d, 0 <= m -> ~ home g m -> latest (take j (final_writes (view c) bs)) (Z.to_nat m) d = d).
  { intros m d Hm Hh. unfold final_writes. rewrite <- fmap_take. apply latest_final_other; [done| |].
    - intros b Hb. by apply Hp, (subseteq_take j).
    - intros H%(subseteq_take j). by destruct (lo_home _ _ _ Hok m H). }
  assert (Hhdr : disk_at (reboot c w k) (lg_start g) = header).
  { rewrite Hd, Hk, latest_app by done. cbn [latest]. rewrite decide_True by done.
    apply Hfin; [lia|by eapply start_not_home]. }
  assert (Hslot : forall i b, bs !! i = Some b -> disk_at (reboot c w k) (lg_start g0 + Z.of_nat i + 1) = view c b).
  { intros i b Hb. rewrite Hst. pose proof (lookup_lt_Some _ _ _ Hb) as Hi.
    destruct (log_slot_home _ _ _ i Hok Hi) as [Hh Hr]. rewrite Hd, Hk, latest_app by done. cbn [latest].
    rewrite decide_False, Hfin by (done || lia). by eapply latest_log_slot. }
  wp_call (recover_reboot w k bs); [done..| |by rewrite Hhdr|].
  - rewrite Hhdr. pose proof (lo_len _ _ _ Hok) as Hl. change (Z.to_nat LOGSIZE) with 30%nat in Hl.
    split; rewrite ?Hhd, ?Hhn; [change LOGSIZE with 30; lia|rewrite Hls; apply (lo_fit _ _ _ Hok)|exact (lo_nodup _ _ _ Hok)|].
    unfold home. rewrite Hst, Hls. apply (lo_home _ _ _ Hok).
  - intros ? s' (Hn & Hq & Hsz & Hdisk). split_and!; [done..|]. intros m Hm Hh. rewrite Hsz in Hm.
    rewrite Hdisk by done. rewrite (home_writes_final g0 (view c) _ bs Hslot), Hd, Hk, latest_app by done. cbn [latest].
    rewrite decide_False by (pose proof (home_start_ne m Hh); lia).
    rewrite (latest_log_all g _ bs (disksize c)) by (done || lia || by left). apply latest_final_home; [done|by left].
Qed.

Lemma latest_commit m d :
  0 <= m < disksize c -> home g m -> d = disk_at c m \/ d = view c m ->
  latest (commit_writes g (view c) bs) (Z.to_nat m) d = view c m.
Proof using Hok Hclean.
  intros Hm Hh Hd. pose proof (home_start_ne m Hh). pose proof start_range as Hs.
  unfold commit_writes. rewrite !latest_app. cbn [latest]. rewrite !decide_False by lia.
  rewrite (latest_log_all g _ bs (disksize c)) by (done || lia || by left). by apply (latest_final_home m 0).
Qed.

(** The last write clears the header: recovery has nothing to do. *)
Lemma crash_done k s :
  let w := commit_writes g (view c) bs in
  take k w = w -> ls_log s = g0 -> ls_cache s = reboot c w k ->
  wp (recover_from_log pid) (fun _ s' => lg_n (ls_log s') = 0 /\ quiescent (ls_cache s') /\
      disksize (ls_cache s') = disksize c /\ home_is g (ls_cache s') (view c)) no_halt s.
Proof using Hok Hinv Hg0 Hst Hls Hclean.
  cbv zeta. intros Hk Hg Hc. set (w := commit_writes g (view c) bs) in *. pose proof start_range as Hs.
  assert (Hw : forall p, p ∈ w -> length p.2 = 512%nat) by apply commit_writes_length.
  destruct (reboot_spec _ _ c w k Hinv Hw) as (_ & _ & _ & _ & Hd). destruct header_length as (Hl & _ & _).
  assert (Hhdr : disk_at (reboot c w k) (lg_start g) = set_word 0 (u32 0) header).
  { rewrite Hd, Hk by done. unfold w, commit_writes. fold header. rewrite !latest_app. cbn [latest].
    by rewrite decide_True. }
  assert (Hes : header_of (disk_at (reboot c w k) (lg_start g)) = []).
  { rewrite Hhdr. apply header_of_cleared. lia. }
  wp_call (recover_reboot w k []); [done..| |done|].
  - split; [rewrite Hhdr, word_set_word by (done || lia); done|rewrite Hhdr, word_set_word by (done || lia); exact (lo_fit _ _ _ Hg0)|rewrite Hes; constructor|]. intros b Hb.
    rewrite Hes in Hb. by apply elem_of_nil in Hb.
  - intros ? s' (Hn & Hq & Hsz & Hdisk). split_and!; [done..|]. intros m Hm Hh. rewrite Hsz in Hm.
    rewrite Hdisk, Hd, Hk by done. cbn [home_writes imap latest]. apply latest_commit; [done|done|by left].
Qed.

(** Whatever prefix of a commit's writes survives, recovery finds the home
    blocks all as they were or all as the transaction left them. *)
Lemma crash_anywhere k :
  wp (recover_from_log pid) (fun _ s' => lg_n (ls_log s') = 0 /\ quiescent (ls_cache s') /\
      disksize (ls_cache s') = disksize c /\
      (home_is g (ls_cache s') (disk_at c) \/ home_is g (ls_cache s') (view c))) no_halt
     (mkLsys g0 (reboot c (commit_writes g (view c) bs) k)).
Proof using Hok Hinv Hg0 Hst Hls Hempty Hclean.
  destruct (take_commit_writes k) as [[_ E]|[E|E]].
  - eapply wp_conseq; [by apply (crash_old k)|]. cbn beta. tauto.
  - eapply wp_conseq; [by apply (crash_new k)|]. cbn beta. tauto.
  - eapply wp_conseq; [by apply (crash_done k)|]. cbn beta. tauto.
Qed.
End commit.
