(* ===== verification/LogTx.v ===== *)
(** * LogTx: file-system operations as transactions

    [begin_op], block updates through [log_write], and [end_op], and the
    theorem that such an operation is atomic with respect to crashes. *)
From S2P Require Import Prelude Ring FsFormat Bio Log LogProof LogCrash.

(** ** log_write in memory *)

(** The log after [log_write] of block [n]. *)
Definition log_add (n : Z) (bs : list Z) : list Z := if decide (n ∈ bs) then bs else bs ++ [n].

Definition log_with (n : Z) (g : log) : log :=
  let i := log_slot (lg_block g) (lg_n g) n in
  let g := set_block (<[Z.to_nat i := n]> (lg_block g)) g in
  if i =? lg_n g then set_n (lg_n g + 1) g else g.

Lemma log_slot_spec g bs size n :
  log_ok g bs size ->
  match list_find (n =.) bs with
  | Some (i, _) => log_slot (lg_block g) (lg_n g) n = Z.of_nat i
  | None => log_slot (lg_block g) (lg_n g) n = lg_n g
  end.
Proof.
  intros Hok. unfold log_slot. pose proof (find_seqZ (fun i => default 0 (lg_block g !! Z.to_nat i) =? n) (lg_n g) 0) as Hf.
  assert (Hb : forall k b, bs !! k = Some b -> default 0 (lg_block g !! k) = b).
  { intros k b Hk. by rewrite (lo_block _ _ _ Hok k b Hk). }
  destruct (list_find (n =.) bs) as [[i x]|] eqn:E.
  - apply list_find_Some in E as (Hi & <- & Hmin). pose proof (lookup_lt_Some _ _ _ Hi) as Hlt.
    rewrite (lo_n _ _ _ Hok) in Hf |- *. destruct (List.find _ _) as [k|].
    + destruct Hf as (Hk & Hkn%Z.eqb_eq & Hless). cbn. destruct (Z.lt_trichotomy k (Z.of_nat i)) as [Hlti|[?|Hgt]]; [|done|].
      * destruct (lookup_lt_is_Some_2 bs (Z.to_nat k) ltac:(lia)) as [b Hkb].
        exfalso. apply (Hmin _ _ Hkb ltac:(lia)). by rewrite <- (Hb _ _ Hkb).
      * specialize (Hless (Z.of_nat i) ltac:(lia)). rewrite Nat2Z.id, (Hb _ _ Hi) in Hless. lia.
    + specialize (Hf (Z.of_nat i) ltac:(lia)). rewrite Nat2Z.id, (Hb _ _ Hi) in Hf. lia.
  - destruct (List.find _ _) as [k|]; [|done]. destruct Hf as (Hk & Hkn%Z.eqb_eq & _).
    rewrite (lo_n _ _ _ Hok) in Hk. destruct (lookup_lt_is_Some_2 bs (Z.to_nat k) ltac:(lia)) as [b Hkb].
    rewrite (Hb _ _ Hkb) in Hkn. exfalso. eapply list_find_None in E. rewrite Forall_forall in E.
    by apply (E b); [eapply list_elem_of_lookup_2|].
Qed.

Lemma log_with_ok g bs size n :
  log_ok g bs size -> 0 <= n < size -> home g n -> (length bs < Z.to_nat LOGSIZE)%nat -> Z.of_nat (length bs) < lg_size g - 1 ->
  log_ok (log_with n g) (log_add n bs) size.
Proof.
  intros Hok Hn Hh Hroom Hfit. pose proof (log_slot_spec _ _ _ n Hok) as Hs. unfold log_with, log_add.
  pose proof Hok as [H1 H2 H3 H3' H4 H5 H6 H7 H8 H9].
  destruct (list_find (n =.) bs) as [[i x]|] eqn:E.
  - apply list_find_Some in E as (Hi & <- & _). pose proof (lookup_lt_Some _ _ _ Hi).
    rewrite decide_True by (by eapply list_elem_of_lookup_2). rewrite Hs, Nat2Z.id. cbn [lg_n set_block].
    rewrite (proj2 (Z.eqb_neq _ _)) by lia. constructor; try done; cbn [lg_block set_block].
    + by rewrite length_insert.
    + intros j b Hj. destruct (decide (i = j)) as [<-|Hne].
      * rewrite list_lookup_insert_eq by lia. congruence.
      * rewrite list_lookup_insert_ne by done. by apply H7.
  - eapply list_find_None in E. rewrite Forall_forall in E.
    rewrite decide_False by (intros Hin; by apply (E n Hin)).
    rewrite Hs. cbn [lg_n set_block]. rewrite Z.eqb_refl. constructor; try done; cbn [lg_block set_block set_n lg_n lg_size].
    + rewrite length_app. cbn. lia.
    + rewrite length_app. cbn. lia.
    + rewrite length_app. cbn. lia.
    + by rewrite length_insert.
    + intros j b Hj. rewrite H4, Nat2Z.id. apply lookup_app_Some in Hj as [Hj|[Hj Hb]].
      * rewrite list_lookup_insert_ne; [by apply H7|]. apply lookup_lt_Some in Hj. lia.
      * apply list_lookup_singleton_Some in Hb as [Hj0 <-]. replace j with (length bs) by lia.
        apply list_lookup_insert_eq. lia.
    + apply NoDup_app. split_and!; [done| |by apply NoDup_singleton].
      intros x Hx ->%list_elem_of_singleton. by apply (E n Hx).
    + intros b [Hb| ->%list_elem_of_singleton]%elem_of_app; [by apply H9|done].
Qed.

(** ** A running transaction *)

(** The state of a transaction that began on cache [c0], has logged the
    blocks [bs] and gave the blocks the contents [v]; at least [room] buffers
    are recyclable. *)
Record tx (g : log) (bs : list Z) (v : Z -> list Z) (c0 : bcache) (room : nat) (s : lsys) : Prop := mkTx {
  tx_log : ls_log s = g;
  tx_ok : log_ok g bs (disksize c0);
  tx_open : lg_outstanding g = 1;
  tx_idle : lg_committing g = 0;
  tx_inv : exists l, binv [] l (ls_cache s);
  tx_disk : bc_disk (ls_cache s) = bc_disk c0;
  tx_trace : bc_trace (ls_cache s) = bc_trace c0;
  tx_view : forall m, view (ls_cache s) m = v m;
  tx_clean : forall m, 0 <= m < disksize c0 -> m ∉ bs -> v m = disk_at c0 m;
  tx_room : (room <= nfree (ls_cache s))%nat;
}.

Definition upd_view (n : Z) (f : list Z -> list Z) (v : Z -> list Z) : Z -> list Z :=
  fun m => if m =? n then f (v n) else v m.

Lemma log_add_length n bs : (length bs <= length (log_add n bs) <= S (length bs))%nat.
Proof. unfold log_add. case_decide; [lia|]. rewrite length_app. cbn. lia. Qed.

Lemma log_add_elem n bs m : m ∈ log_add n bs <-> m = n \/ m ∈ bs.
Proof. unfold log_add. case_decide; set_solver. Qed.

Lemma log_with_same n g :
  lg_start (log_with n g) = lg_start g /\ lg_size (log_with n g) = lg_size g /\
  lg_outstanding (log_with n g) = lg_outstanding g /\ lg_committing (log_with n g) = lg_committing g /\
  lg_dev (log_with n g) = lg_dev g.
Proof. unfold log_with. cbn. by destruct (_ =? _). Qed.

(** [log_write] on a buffer that is being edited: the block is logged and the
    buffer pinned. *)
Lemma log_write_spec g c i n d s :
  editing g c i n d s -> lg_n g < LOGSIZE -> lg_n g < lg_size g - 1 -> 0 < lg_outstanding g ->
  disksize c <= 2 ^ 31 ->
  wp (log_write i) (fun _ s' => exists b,
      ls_log s' = log_with n g /\ bc_buf (ls_cache s) !! i = Some b /\
      ls_cache s' = with_buf i (set_flags (Z.lor (b_flags b) B_DIRTY) b) (ls_cache s)) no_halt s.
Proof.
  intros Hed H1 H2 H3 Hsz. destruct (editing_range _ _ _ _ _ _ Hed) as [Hn _].
  pose proof (ed_log _ _ _ _ _ _ Hed) as Hg. destruct (ed_holds _ _ _ _ _ _ Hed) as (b & Hb & HP & _).
  apply is_block_true in HP as [_ Hbn]. unfold log_write. wp_step. wp_step. rewrite Hg.
  destruct (Z.leb_spec LOGSIZE (lg_n g)); [lia|]. destruct (Z.leb_spec (lg_size g - 1) (lg_n g)); [lia|]. cbn [orb].
  destruct (Z.ltb_spec (lg_outstanding g) 1); [lia|].
  wp_step. apply wp_on_bc, (wp_the_buf _ b); [done|]. rewrite Hbn, s32_id by (split; lia).
  wp_step. apply wp_modify. wp_step. cbn [ls_log ls_cache]. rewrite Hg.
  unfold log_with. cbn [lg_n set_block]. destruct (_ =? lg_n g).
  - apply wp_modify. apply wp_on_bc, (wp_upd _ _ b); [done|]. by exists b.
  - apply wp_ret. apply wp_on_bc, (wp_upd _ _ b); [done|]. by exists b.
Qed.

(** [log_write] and [brelse] end an edit of block [n] begun in state [s0]. *)
Lemma log_finish_spec g bs v c0 room s0 i n d s :
  tx g bs v c0 (S room) s0 -> editing g (ls_cache s0) i n d s -> home g n ->
  (length bs < Z.to_nat LOGSIZE)%nat -> Z.of_nat (length bs) < lg_size g - 1 ->
  wp (log_write i;; on_bc (brelse i))
     (fun _ s' => tx (log_with n g) (log_add n bs) (upd_view n (fun _ => d) v) c0 room s') no_halt s.
Proof.
  intros [Hg Hok Hop Hid [l I] D T V Cl R] E2 Hh Hlen Hsz.
  assert (Es : disksize (ls_cache s0) = disksize c0) by (unfold disksize; by rewrite D).
  destruct (editing_range _ _ _ _ _ _ E2) as [Hn _]. rewrite Es in Hn.
  pose proof (lo_n _ _ _ Hok) as Hln. pose proof (lo_area _ _ _ Hok) as Ha.
  pose proof (log_add_length n bs) as Hal.
  wp_step. wp_call log_write_spec; [exact E2|change (Z.to_nat LOGSIZE) with 30%nat in Hlen; change LOGSIZE with 30; lia|lia|lia|lia|].
  intros ? s3 (b & Hg3 & Hb & Hc3). destruct E2 as [G2 [l2 I2] H2 F2 D2 T2 V2].
  pose proof H2 as (b' & Hb' & HP & Hd). assert (b' = b) as -> by congruence.
  set (b1 := set_flags (Z.lor (b_flags b) B_DIRTY) b) in *.
  pose proof (binv_held_ok _ _ _ i b I2 ltac:(by left) Hb) as Hhb.
  assert (Hfl : b_flags b1 = Z.lor B_VALID B_DIRTY).
  { destruct Hhb as (_ & _ & _ & _ & _ & [E|E]); cbn; by rewrite E. }
  assert (I3 : binv [i] l2 (ls_cache s3)).
  { rewrite Hc3. eapply binv_held; [exact I2|exact Hb|by left| |done|done].
    destruct Hhb as (Q1 & Q2 & Q3 & Q4 & Q5 & _). split_and!; try (done || apply Q5). by right. }
  assert (Hb1 : bc_buf (ls_cache s3) !! i = Some b1) by (rewrite Hc3; by eapply with_buf_at).
  assert (Hu2 : uniq (bc_buf (ls_cache s))) by apply I2.
  assert (V3 : forall m, view (ls_cache s3) m = view (ls_cache s) m).
  { intros m. rewrite Hc3. by eapply view_with_same. }
  assert (Hn3 : nfree (ls_cache s3) = nfree (ls_cache s)).
  { pose proof (nfree_with i b b1 _ Hb) as E. rewrite Hc3. rewrite (held_in_use _ _ Hhb) in E.
    assert (evictable b1 = false) as E' by (unfold evictable, has_flag; by rewrite Hfl, andb_false_r).
    rewrite E' in E. lia. }
  eapply wp_on_bc_total; [apply (brelse_spec [] l2); [exact I3|set_solver|]|].
  { exists b1. split; [done|]. rewrite Hfl. done. }
  intros ? c4 (I4 & F4 & O4 & D4 & T4 & V4). cbn [ls_log ls_cache] in *.
  destruct (log_with_same n g) as (_ & _ & Ho & Hc & _). constructor; cbn [ls_log ls_cache].
  - done.
  - by apply log_with_ok.
  - by rewrite Ho.
  - by rewrite Hc.
  - eauto.
  - rewrite D4, Hc3. cbn. by rewrite D2.
  - rewrite T4, Hc3. cbn. by rewrite T2.
  - intros m. rewrite V4, V3. unfold upd_view. destruct (Z.eqb_spec m n) as [->|Hm].
    + by rewrite (view_cached _ i b), Hd by done.
    + rewrite V2 by done. apply V.
  - intros m Hm0 Hm. rewrite log_add_elem in Hm. unfold upd_view. rewrite (proj2 (Z.eqb_neq _ _)) by tauto.
    apply Cl; tauto.
  - rewrite F4. assert (gives_back i (ls_cache s3) = O) as -> by (unfold gives_back, has_flag; by rewrite Hb1, Hfl).
    rewrite Hn3. pose proof (gives_back_le i (ls_cache s)). lia.
Qed.

(** Taking a buffer during a transaction. *)
Lemma tx_bread pid g bs v c0 room s n (Q : nat -> lsys -> Prop) :
  tx g bs v c0 (S room) s -> 0 <= n < disksize c0 ->
  (forall l i c, took [] l (ls_cache s) i n c -> editing g (ls_cache s) i n (v n) (mkLsys g c) ->
     Q i (mkLsys g c)) ->
  wp (on_bc (bread pid 1 n)) Q no_halt s.
Proof.
  intros [Hg Hok Hop Hid [l I] D T V Cl R] Hn HQ.
  assert (Es : disksize (ls_cache s) = disksize c0) by (unfold disksize; by rewrite D).
  eapply bread_on_bc; [exact I|lia|by apply none_held|by rewrite Es|].
  intros i c1 T1. pose proof (editing_took _ _ _ _ _ T1) as E1. rewrite Hg in *. apply (HQ l); [done|].
  by rewrite <- V.
Qed.

Lemma tx_view_length g bs v c0 room s n :
  tx g bs v c0 room s -> 0 <= n < disksize c0 -> length (v n) = 512%nat.
Proof.
  intros [Hg Hok Hop Hid [l I] D T V Cl R] Hn. rewrite <- V. eapply view_length; [exact I|].
  unfold disksize in *. by rewrite D.
Qed.

Lemma tx_ext g bs v v' c0 room s : (forall m, v m = v' m) -> tx g bs v c0 room s -> tx g bs v' c0 room s.
Proof. intros E []. constructor; try done; intros m; rewrite <- E; auto. Qed.

Lemma log_update_spec pid g bs v c0 room s n f :
  tx g bs v c0 (S room) s -> 0 <= n < disksize c0 -> home g n ->
  (length bs < Z.to_nat LOGSIZE)%nat -> Z.of_nat (length bs) < lg_size g - 1 ->
  (forall d, length d = 512%nat -> length (f d) = 512%nat) ->
  wp (log_update pid 1 n f) (fun _ s' => tx (log_with n g) (log_add n bs) (upd_view n f v) c0 room s') no_halt s.
Proof.
  intros Htx Hn Hh Hlen Hsz Hf. unfold log_update. wp_step. eapply tx_bread; [done..|].
  intros l i c1 _ E1. wp_step. wp_call editing_upd; [exact E1|by apply Hf; eapply tx_view_length|].
  intros ? s2 E2. eapply wp_conseq; [eapply (log_finish_spec g bs v c0 room s); [exact Htx|exact E2|done..]|]. cbn beta. intros ? s3. by apply tx_ext.
Qed.

(** ** A whole operation *)

(** A list of block updates, and what they make of the blocks. *)
Definition updates : Type := list (Z * (list Z -> list Z)).
Definition updated (us : updates) (v : Z -> list Z) : Z -> list Z := foldl (fun v u => upd_view u.1 u.2 v) v us.

Definition updates_ok (g : log) (size : Z) (us : updates) : Prop :=
  forall u, u ∈ us -> 0 <= u.1 < size /\ home g u.1 /\ forall d, length d = 512%nat -> length (u.2 d) = 512%nat.

(** [begin_op(); ... log_write ...; end_op();] *)
Definition fs_op (pid : Z) (us : updates) : M lsys unit :=
  begin_op;;
  for_each (R := unit) us (fun u => log_update pid 1 u.1 u.2;; mret None);;
  end_op pid.

Lemma log_updates_spec pid g c0 us : forall bs v s k,
  tx g bs v c0 (length us + k) s -> updates_ok g (disksize c0) us ->
  (length bs + length us <= Z.to_nat LOGSIZE)%nat -> Z.of_nat (length bs + length us) < lg_size g ->
  wp (for_each (R := unit) us (fun u => log_update pid 1 u.1 u.2;; mret None))
     (fun _ s' => exists g' bs', tx g' bs' (updated us v) c0 k s' /\ lg_start g' = lg_start g /\ lg_size g' = lg_size g /\
        (us ≠ [] \/ bs ≠ [] -> bs' ≠ [])) no_halt s.
Proof.
  revert g. induction us as [|u us IH]; intros g bs v s k Htx Hus Hlen Hsz; cbn [for_each].
  - wp_step. exists g, bs. split_and!; [done..|naive_solver].
  - wp_step. wp_step. cbn [length] in *. destruct (Hus u) as (Hu1 & Hu2 & Hu3); [by left|].
    wp_call log_update_spec; [exact Htx|done|done|lia|lia|done|]. intros ? s1 Htx1. wp_step.
    pose proof (log_add_length u.1 bs). destruct (log_with_same u.1 g) as (E1 & E2 & _).
    eapply wp_conseq; [apply (IH (log_with u.1 g)); [exact Htx1| |lia|lia]|].
    + intros u' Hu'. unfold home. rewrite E1, E2. apply Hus. by right.
    + cbn beta. intros ? s2 (g' & bs' & Htx' & Es & Es' & Hne). exists g', bs'. split_and!; [done|congruence..|].
      intros _. apply Hne. right. intros E. assert (u.1 ∈ log_add u.1 bs) as Hin by (apply log_add_elem; by left).
      rewrite E in Hin. by apply elem_of_nil in Hin.
Qed.

(** The file system between operations: nothing logged, in memory or on the
    disk, and every cached block as on the disk. *)
Record at_rest (g : log) (c : bcache) : Prop := mkAtRest {
  ar_log : log_ok g [] (disksize c);
  ar_out : lg_outstanding g = 0;
  ar_com : lg_committing g = 0;
  ar_inv : exists l, binv [] l c;
  ar_empty : s32 (word_at (disk_at c (lg_start g)) 0) = 0;
  ar_clean : forall m, 0 <= m < disksize c -> view c m = disk_at c m;
}.

Lemma log_ok_flags g bs size a b :
  log_ok g bs size -> log_ok (set_committing a (set_outstanding b g)) bs size.
Proof. by intros []. Qed.

Lemma latest_covered w m d d' : m ∈ w.*1 -> latest w m d = latest w m d'.
Proof.
  revert d d'. induction w as [|[k x] w IH]; intros d d'; cbn; [by intros ?%elem_of_nil|].
  destruct (decide (k = m)) as [->|Hne]; [done|]. intros [->|H]%elem_of_cons; [done|by apply IH].
Qed.

(** After a commit the file system is at rest again. *)
Lemma commit_at_rest g bs l c c' :
  log_ok g bs (disksize c) -> binv [] l c -> (forall m, 0 <= m < disksize c -> m ∉ bs -> view c m = disk_at c m) ->
  wrote c (commit_writes g (view c) bs) c' -> at_rest (set_committing 0 (set_outstanding 0 (set_n 0 g))) c'.
Proof.
  intros Hok I Hcl W. pose proof (start_range g bs c Hok) as Hs.
  assert (Hd : forall m, 0 <= m < disksize c ->
    disk_at c' m = latest (commit_writes g (view c) bs) (Z.to_nat m) (disk_at c m)).
  { intros m Hm. unfold disk_at. rewrite (wr_disk _ _ _ W). destruct (block_lookup c m _ _ I Hm) as (d & Hd & _).
    erewrite apply_writes_lookup by done. by rewrite Hd. }
  constructor; try done; cbn [lg_start set_committing set_outstanding set_n].
  - rewrite (wrote_size _ _ _ W). by eapply log_ok_flags, log_ok_clear.
  - exact (wr_inv _ _ _ W).
  - rewrite Hd by done. unfold commit_writes. rewrite !latest_app. cbn [latest]. rewrite decide_True by done.
    destruct (header_length g bs l c Hok I) as (Hl & _). unfold header in Hl.
    by rewrite word_set_word by (done || lia).
  - intros m Hm. rewrite (wrote_size _ _ _ W) in Hm. rewrite (wr_view _ _ _ W), Hd by lia.
    destruct (decide (m ∈ bs)) as [Hin|Hin]; [|by rewrite Hcl].
    apply latest_covered. unfold commit_writes. rewrite !fmap_app, !elem_of_app. right. right. left.
    apply list_elem_of_fmap. exists (Z.to_nat m, view c m). split; [done|].
    by apply (list_elem_of_fmap_2 (fun b => (Z.to_nat b, view c b))).
Qed.

(** [end_op] of the last operation, with the crash behaviour of its commit. *)
Lemma end_op_spec pid g bs v c0 k s g0 :
  tx g bs v c0 (S (S k)) s -> bs ≠ [] -> log_ok (set_n 0 g0) [] (disksize c0) -> lg_start g0 = lg_start g ->
  lg_size g0 = lg_size g -> s32 (word_at (disk_at c0 (lg_start g)) 0) = 0 ->
  wp (end_op pid) (fun _ s' =>
      at_rest (ls_log s') (ls_cache s') /\ (S (S k) <= nfree (ls_cache s'))%nat /\ home_is g (ls_cache s') v /\
      (forall m, 0 <= m < disksize c0 -> home g m -> view (ls_cache s') m = v m) /\
      exists w, bc_trace (ls_cache s') = bc_trace c0 ++ w /\ forall k,
        wp (recover_from_log pid) (fun _ r => lg_n (ls_log r) = 0 /\ quiescent (ls_cache r) /\
            disksize (ls_cache r) = disksize c0 /\
            (home_is g (ls_cache r) (disk_at c0) \/ home_is g (ls_cache r) v)) no_halt
           (mkLsys g0 (reboot c0 w k))) no_halt s.
Proof.
  intros [Hg Hok Hop Hid [l I] D T V Cl R] Hne Hg0 Hst Hls Hempty. unfold end_op.
  set (c := ls_cache s) in *.
  assert (Ed : forall m, disk_at c m = disk_at c0 m) by (intros m; unfold disk_at; by rewrite D).
  assert (Es : disksize c = disksize c0) by (unfold disksize; by rewrite D).
  wp_step. apply wp_modify. wp_step. wp_step. cbn [ls_log]. rewrite Hg. cbn [lg_committing lg_outstanding set_outstanding].
  rewrite Hid, Hop. replace (1 - 1) with 0 by lia. cbn [Z.eqb negb]. wp_step. apply wp_modify. cbn [ls_log ls_cache]. wp_step.
  set (g1 := set_committing 1 (set_outstanding 0 g)).
  assert (Hok1 : log_ok g1 bs (disksize c)) by (rewrite Es; by apply log_ok_flags).
  wp_call (commit_spec pid g1 bs l c); [done|done|lia|done|done|done|]. intros ? s1 [G1 W1]. apply wp_modify.
  cbn [ls_log ls_cache]. rewrite G1.
  assert (Hcl : forall m, 0 <= m < disksize c -> m ∉ bs -> view c m = disk_at c m).
  { intros m Hm Hx. rewrite V, Ed. apply Cl; [by rewrite <- Es|done]. }
  assert (Hmem : forall m, 0 <= m < disksize c -> disk_at (ls_cache s1) m =
    latest (commit_writes g1 (view c) bs) (Z.to_nat m) (disk_at c m)).
  { intros m Hm. unfold disk_at. rewrite (wr_disk _ _ _ W1). destruct (block_lookup c m _ _ I Hm) as (d & Hd & _).
    erewrite apply_writes_lookup by done. by rewrite Hd. }
  split_and!; [|pose proof (wr_free _ _ _ W1); lia| | |].
  - exact (commit_at_rest g1 bs l c _ Hok1 I Hcl W1).
  - intros m Hm Hh. rewrite (wrote_size _ _ _ W1) in Hm. rewrite Hmem, <- V by done.
    apply (latest_commit g1 bs c Hok1); [done..|by left].
  - intros m Hm Hh. rewrite (wr_view _ _ _ W1), <- V by lia.
    apply (latest_commit g1 bs c Hok1); [done|by rewrite Es|done|by right].
  - exists (commit_writes g1 (view c) bs). split; [by rewrite (wr_trace _ _ _ W1), T|]. intros k'.
    replace (reboot c0 (commit_writes g1 (view c) bs) k') with (reboot c (commit_writes g1 (view c) bs) k')
      by (unfold reboot; by rewrite D).
    eapply wp_conseq; [eapply (crash_anywhere pid g1 g0 bs l c Hok1 I); [by rewrite Es|done|done|by rewrite Ed|done]|].
    + intros ? r (Hn & Hq & Hs & Hor). rewrite Es in Hs. split_and!; [done..|].
      destruct Hor as [Hh|Hh]; [left|right]; intros m Hm Hhm; rewrite (Hh m Hm Hhm); [apply Ed|apply V].
Qed.

(** C6: a file-system operation is atomic.  Run from a file system at rest,
    [begin_op], any block updates through [log_write] (at most [MAXOPBLOCKS]
    of them) and [end_op] return, with the updates in the cache and on the
    disk; and if power fails after any number [k] of the disk writes this
    took, booting and running [recover_from_log] returns with every block
    outside the log area as before the operation, or every one as after it. *)
Theorem transaction_atomic pid g g0 c us :
  at_rest g c -> (length us + 2 <= nfree c)%nat -> us ≠ [] -> (length us <= Z.to_nat MAXOPBLOCKS)%nat ->
  Z.of_nat (length us) < lg_size g -> updates_ok g (disksize c) us ->
  log_ok (set_n 0 g0) [] (disksize c) -> lg_start g0 = lg_start g -> lg_size g0 = lg_size g ->
  wp (fs_op pid us) (fun _ s' =>
      at_rest (ls_log s') (ls_cache s') /\ home_is g (ls_cache s') (updated us (view c)) /\
      exists w, bc_trace (ls_cache s') = bc_trace c ++ w /\ forall k,
        wp (recover_from_log pid) (fun _ r => lg_n (ls_log r) = 0 /\ quiescent (ls_cache r) /\
            disksize (ls_cache r) = disksize c /\
            (home_is g (ls_cache r) (disk_at c) \/ home_is g (ls_cache r) (updated us (view c)))) no_halt
           (mkLsys g0 (reboot c w k))) no_halt (mkLsys g c).
Proof.
  intros [Hok Ho Hc I He Hcl] Hf Hne Hlen Hsz Hus Hg0 Hst Hls. pose proof (lo_n _ _ _ Hok) as Hn. cbn in Hn.
  unfold fs_op, begin_op. wp_step. wp_step. wp_step. cbn [ls_log]. rewrite Hn, Ho, Hc. cbn [Z.eqb negb].
  change (LOGSIZE <? 0 + (0 + 1) * MAXOPBLOCKS) with false. cbv iota. apply wp_modify. cbn [ls_log ls_cache]. wp_step.
  change (Z.to_nat MAXOPBLOCKS) with 10%nat in Hlen. rewrite Ho.
  wp_call (log_updates_spec pid (set_outstanding 1 g) c us [] (view c) _ 2); [|done| |done|].
  - assert (log_ok (set_outstanding 1 g) [] (disksize c)) by apply (log_ok_flags g [] _ (lg_committing g) 1 Hok).
    constructor; try done. intros m Hm _. by apply Hcl.
  - change (Z.to_nat LOGSIZE) with 30%nat. cbn. lia.
  - intros ? s1 (g' & bs' & Htx & Es & Es' & Hne'). cbn [lg_start lg_size set_outstanding] in Es, Es'.
    wp_call (end_op_spec pid g' bs' _ c 0 s1 g0); [exact Htx|by apply Hne'; left|done|congruence|congruence|by rewrite Es|].
    intros ? s2 (Hr & _ & Hh & _ & w & Hw & Hrec). unfold home_is, home in *. rewrite Es, Es' in *.
    split_and!; [done..|]. exists w. done.
Qed.

(** ** An instance: a disk of 40 blocks with the log at block 2 *)
Module Instances.
Definition demo_log : log := mkLog 2 30 0 0 1 0 (replicate 30 0).
Definition demo_cache : bcache := binit (replicate 40 (replicate 512 0)).
Definition demo_updates : updates := [(35, fun d => <[O := 7]> d); (36, fun d => <[1%nat := 9]> d)].

Lemma demo_log_ok : log_ok demo_log [] (disksize demo_cache).
Proof.
  assert (disksize demo_cache = 40) as -> by done.
  constructor; try done; [cbn; lia|constructor|by intros b ?%elem_of_nil].
Qed.

Lemma demo_at_rest : at_rest demo_log demo_cache.
Proof.
  destruct (binit_quiescent (replicate 40 (replicate 512 0))) as [(l & I & _) V]; [by apply Forall_replicate|].
  constructor; [apply demo_log_ok|done|done|by exists l|done|by intros m _; apply V].
Qed.

Lemma transaction_atomic_witness :
  wp (fs_op 1 demo_updates) (fun _ s' =>
      at_rest (ls_log s') (ls_cache s') /\
      home_is demo_log (ls_cache s') (updated demo_updates (view demo_cache))) no_halt (mkLsys demo_log demo_cache).
Proof.
  eapply wp_conseq.
  - apply (transaction_atomic 1 demo_log demo_log demo_cache demo_updates demo_at_rest);
      [apply Nat.leb_le; by vm_compute|done|apply Nat.leb_le; by vm_compute|done| |apply demo_log_ok|done|done].
    intros u Hu. unfold demo_updates in Hu. rewrite !elem_of_cons, elem_of_nil in Hu.
    destruct Hu as [E|[E|[]]]; rewrite E; (split; [change (disksize demo_cache) with 40; cbn; lia|split; [by right|intros d Hd; cbn [snd]; by rewrite length_insert]]).
  - cbn beta. intros ? s' (H1 & H2 & _). done.
Defined.
End Instances.
