(* ===== verification/LogAdmit.v ===== *)
(** * LogAdmit: admission of concurrent file-system operations to the log

    [begin_op], [log_write] and [end_op] of several operations interleave
    under [log.lock].  Each operation is bound to log at most [MAXOPBLOCKS]
    blocks.  The states are the log and, for each operation between its
    [begin_op] and [end_op], how many blocks it has added. *)
From S2P Require Import Prelude Ring FsFormat Bio Log LogProof LogTx.

(** ** The critical sections, on the log alone *)

(** [begin_op] lets the caller in, or makes it sleep. *)
Definition admit_op (g : log) : option log :=
  if negb (lg_committing g =? 0) then None
  else if LOGSIZE <? lg_n g + (lg_outstanding g + 1) * MAXOPBLOCKS then None
  else Some (set_outstanding (lg_outstanding g + 1) g).

(** [log_write] of block [n]; [None] is one of its two panics. *)
Definition write_op (n : Z) (g : log) : option log :=
  if ((LOGSIZE <=? lg_n g) || (lg_size g - 1 <=? lg_n g))%bool then None
  else if lg_outstanding g <? 1 then None
  else Some (log_with n g).

(** The first critical section of [end_op]; [None] is its panic. *)
Definition leave_op (g : log) : option log :=
  let g := set_outstanding (lg_outstanding g - 1) g in
  if negb (lg_committing g =? 0) then None
  else Some (if lg_outstanding g =? 0 then set_committing 1 g else g).

(** The second one, after [commit] emptied the log. *)
Definition commit_op (g : log) : log := set_committing 0 (set_n 0 g).

(** They are what the code of Log.v does. *)
Lemma begin_op_admit s :
  begin_op s = match admit_op (ls_log s) with
               | Some g => (Ret tt, mkLsys g (ls_cache s))
               | None => (Halt WouldBlock, s)
               end.
Proof.
  unfold begin_op, admit_op, mbind, M_bind, gets, set_log, modify, halt_with.
  destruct (negb _); [done|]. by destruct (_ <? _).
Qed.

Lemma end_op_leave pid s :
  end_op pid s = match leave_op (ls_log s) with
                 | None => (Halt (Panic "log.committing"),
                            mkLsys (set_outstanding (lg_outstanding (ls_log s) - 1) (ls_log s)) (ls_cache s))
                 | Some g =>
                     if lg_committing g =? 0 then (Ret tt, mkLsys g (ls_cache s))
                     else (commit pid;; set_log (set_committing 0)) (mkLsys g (ls_cache s))
                 end.
Proof.
  unfold end_op, leave_op, mbind, M_bind, gets, set_log, modify, panic, halt_with. cbn -[Z.sub Z.eqb commit].
  destruct (Z.eqb_spec (lg_committing (ls_log s)) 0) as [E|E]; cbn -[Z.sub Z.eqb commit]; [|done].
  destruct (lg_outstanding (ls_log s) - 1 =? 0); cbn -[Z.sub Z.eqb commit]; [done|]. by rewrite E.
Qed.

(** ** Interleavings *)

Definition budget : nat := Z.to_nat MAXOPBLOCKS.

Inductive adm_step : log * list nat -> log * list nat -> Prop :=
| adm_begin g g' used : admit_op g = Some g' -> adm_step (g, used) (g', used ++ [O])
| adm_write g g' used i u n :
    used !! i = Some u -> (u < budget)%nat -> write_op n g = Some g' ->
    adm_step (g, used) (g', <[i := (u + Z.to_nat (lg_n g' - lg_n g))%nat]> used)
| adm_end g g' used i u : used !! i = Some u -> leave_op g = Some g' -> adm_step (g, used) (g', delete i used)
| adm_commit g used : lg_committing g ≠ 0 -> adm_step (g, used) (commit_op g, used).

Inductive adm_reach (size : Z) : log * list nat -> Prop :=
| adm_start start dev bl : adm_reach size (mkLog start size 0 0 dev 0 bl, [])
| adm_next x y : adm_reach size x -> adm_step x y -> adm_reach size y.

(** What the operations under way may still add. *)
Definition slack (used : list nat) : nat := sum_list_with (fun u => budget - u)%nat used.

Lemma slack_cons u used : slack (u :: used) = (budget - u + slack used)%nat.
Proof. done. Qed.

Lemma slack_insert used i u u' :
  used !! i = Some u -> (slack (<[i := u']> used) + (budget - u) = slack used + (budget - u'))%nat.
Proof.
  revert i. induction used as [|x used IH]; intros i Hi; [done|]. destruct i as [|i].
  - injection Hi as ->. change (<[0%nat := u']> (u :: used)) with (u' :: used). rewrite !slack_cons. lia.
  - change (<[S i := u']> (x :: used)) with (x :: <[i := u']> used). specialize (IH i Hi). rewrite !slack_cons. lia.
Qed.

Lemma slack_delete used i u : used !! i = Some u -> (slack (delete i used) + (budget - u) = slack used)%nat.
Proof.
  revert i. induction used as [|x used IH]; intros i Hi; [done|]. destruct i as [|i].
  - injection Hi as ->. change (delete 0%nat (u :: used)) with used. rewrite slack_cons. lia.
  - change (delete (S i) (x :: used)) with (x :: delete i used). specialize (IH i Hi). rewrite !slack_cons. lia.
Qed.

Lemma log_with_n n g : 0 <= lg_n g -> lg_n (log_with n g) = lg_n g \/ lg_n (log_with n g) = lg_n g + 1.
Proof. unfold log_with. cbn. destruct (_ =? _); cbn; lia. Qed.

Record adm_inv (size : Z) (x : log * list nat) : Prop := mkAdmInv {
  ai_size : lg_size x.1 = size;
  ai_n : 0 <= lg_n x.1;
  ai_room : lg_n x.1 + Z.of_nat (slack x.2) <= LOGSIZE;
  ai_used : forall u, u ∈ x.2 -> (u <= budget)%nat;
  ai_out : lg_outstanding x.1 = Z.of_nat (length x.2);
  ai_commit : lg_committing x.1 ≠ 0 -> x.2 = [];
}.

Lemma slack_le used : (slack used <= length used * budget)%nat.
Proof. induction used as [|u used IH]; [done|]. rewrite slack_cons. cbn [length]. lia. Qed.

Lemma adm_step_inv size x y : adm_inv size x -> adm_step x y -> adm_inv size y.
Proof.
  intros [Hs Hn Hr Hu Ho Hc] Hst. destruct Hst as [g g' used E|g g' used i u n Hi Hub E|g g' used i u Hi E|g used Hcom];
    cbn [fst snd] in *.
  - unfold admit_op in E. destruct (Z.eqb_spec (lg_committing g) 0) as [E0|]; [|done]. cbn [negb] in E.
    destruct (Z.ltb_spec LOGSIZE (lg_n g + (lg_outstanding g + 1) * MAXOPBLOCKS)); [done|]. injection E as <-.
    constructor; cbn [fst snd lg_size lg_n lg_outstanding lg_committing set_outstanding]; try done.
    + assert (slack (used ++ [O]) = slack used + budget)%nat as -> by (unfold slack; rewrite sum_list_with_app; cbn; lia).
      pose proof (slack_le used). unfold budget in *. change (Z.to_nat MAXOPBLOCKS) with 10%nat in *.
      change LOGSIZE with 30 in *. change MAXOPBLOCKS with 10 in *. lia.
    + intros v [Hv| ->%list_elem_of_singleton]%elem_of_app; [by apply Hu|lia].
    + rewrite length_app. cbn. lia.
  - unfold write_op in E. destruct (_ || _)%bool; [done|]. destruct (_ <? 1); [done|]. injection E as <-.
    destruct (log_with_same n g) as (_ & E1 & E2 & E3 & _). pose proof (log_with_n n g Hn) as Hd.
    pose proof (slack_insert used i u (u + Z.to_nat (lg_n (log_with n g) - lg_n g)) Hi) as Hsl.
    constructor; cbn [fst snd]; rewrite ?E1, ?E2, ?E3, ?length_insert; try done; [lia|lia|..].
    + intros v (j & Hj)%list_elem_of_lookup. apply list_lookup_insert_Some in Hj as [(_ & <- & _)|[_ Hj]]; [lia|].
      apply Hu. by eapply list_elem_of_lookup_2.
    + intros Hcom. rewrite (Hc Hcom) in Hi. done.
  - unfold leave_op in E. cbn [lg_committing lg_outstanding set_outstanding] in E.
    destruct (Z.eqb_spec (lg_committing g) 0) as [E0|]; [|done]. cbn [negb] in E.
    pose proof (slack_delete _ _ _ Hi). pose proof (length_delete used i) as Hld. pose proof (lookup_lt_Some _ _ _ Hi).
    assert (Hlen : length used = S (length (delete i used))) by (rewrite Hld; [lia|eauto]).
    assert (Hel : forall v, v ∈ delete i used -> (v <= budget)%nat).
    { intros v Hv. apply Hu. by eapply list_elem_of_delete_inv. }
    injection E as <-. destruct (Z.eqb_spec (lg_outstanding g - 1) 0) as [Ez|Ez]; constructor;
      cbn [fst snd lg_size lg_n lg_outstanding lg_committing set_outstanding set_committing]; try done; try lia.
    intros _. apply length_zero_iff_nil. lia.
  - rewrite (Hc Hcom) in *. by constructor.
Qed.

Lemma adm_reach_inv size x : adm_reach size x -> adm_inv size x.
Proof.
  induction 1 as [start dev bl|x y _ IH Hst]; [|by eapply adm_step_inv].
  constructor; try done. by intros u ?%elem_of_nil.
Qed.

(** C20: the admission test of [begin_op] reserves enough log space: however
    operations interleave, an operation that has logged fewer than
    [MAXOPBLOCKS] blocks finds room in the log, no commit is running, and
    [log_write] does not panic, provided the log area holds the header and
    [LOGSIZE] blocks. *)
Theorem log_admission_sound size g used i u n :
  adm_reach size (g, used) -> LOGSIZE <= size - 1 -> used !! i = Some u -> (u < budget)%nat ->
  lg_n g < LOGSIZE /\ lg_committing g = 0 /\ 0 < lg_outstanding g /\ write_op n g = Some (log_with n g).
Proof.
  intros [Hs Hn Hr Hu Ho Hc]%adm_reach_inv Hsz Hi Hlt. cbn [fst snd] in *.
  pose proof (slack_delete _ _ _ Hi). pose proof (lookup_lt_Some _ _ _ Hi).
  assert (Hlg : lg_n g < LOGSIZE) by lia. split_and!; [done| |lia|].
  - destruct (decide (lg_committing g = 0)) as [|Hne]; [done|]. by rewrite (Hc Hne) in Hi.
  - unfold write_op. destruct (Z.leb_spec LOGSIZE (lg_n g)); [lia|].
    destruct (Z.leb_spec (lg_size g - 1) (lg_n g)); [lia|]. by destruct (Z.ltb_spec (lg_outstanding g) 1); [lia|].
Qed.

(** ** The log of mkfs is one block short *)

(** Running a schedule: [None] begins an operation, [Some (i, n)] lets the
    [i]-th of those under way log block [n]. *)
Fixpoint adm_run (acts : list (option (nat * Z))) (x : log * list nat) : option (log * list nat) :=
  match acts with
  | [] => Some x
  | None :: acts => match admit_op x.1 with Some g => adm_run acts (g, x.2 ++ [O]) | None => None end
  | Some (i, n) :: acts =>
      match x.2 !! i with
      | Some u =>
          if (u <? budget)%nat then
            match write_op n x.1 with
            | Some g => adm_run acts (g, <[i := (u + Z.to_nat (lg_n g - lg_n x.1))%nat]> x.2)
            | None => None
            end
          else None
      | None => None
      end
  end.

Lemma adm_run_reach size acts x y : adm_reach size x -> adm_run acts x = Some y -> adm_reach size y.
Proof.
  revert x. induction acts as [|[[i n]|] acts IH]; intros [g used] Hx; cbn [adm_run fst snd]; [by intros [= <-]|..].
  - destruct (used !! i) as [u|] eqn:Hi; [|done]. destruct (Nat.ltb_spec u budget); [|done].
    destruct (write_op n g) as [g'|] eqn:E; [|done]. apply IH. eapply adm_next; [exact Hx|by eapply adm_write].
  - destruct (admit_op g) as [g'|] eqn:E; [|done]. apply IH. eapply adm_next; [exact Hx|by apply adm_begin].
Qed.

Definition three_ops : list (option (nat * Z)) :=
  [None; None; None] ++ ((fun n => Some (O, n)) <$> seqZ 100 10) ++
  ((fun n => Some (1%nat, n)) <$> seqZ 200 10) ++ ((fun n => Some (2%nat, n)) <$> seqZ 300 9).

(** C38: mkfs gives the log [LOGSIZE] blocks including its header.  With a log
    of that size, three operations within their budgets reach a state where
    one of them has logged only 9 blocks and its next [log_write] panics. *)
Theorem log_one_block_short :
  exists g used, adm_reach LOGSIZE (g, used) /\ used !! 2%nat = Some 9%nat /\ (9 < budget)%nat /\
    0 < lg_outstanding g /\ write_op 309 g = None.
Proof.
  destruct (adm_run three_ops (mkLog 2 LOGSIZE 0 0 1 0 (replicate 30 0), [])) as [[g used]|] eqn:E;
    [|by vm_compute in E].
  exists g, used. split; [eapply adm_run_reach; [apply adm_start|exact E]|].
  vm_compute in E. injection E as <- <-. by vm_compute.
Qed.

Lemma log_admission_sound_witness :
  let x := default (zero_log, []) (adm_run [None; Some (O, 100)] (mkLog 2 31 0 0 1 0 (replicate 30 0), [])) in
  lg_n x.1 < LOGSIZE /\ lg_committing x.1 = 0 /\ 0 < lg_outstanding x.1 /\ write_op 101 x.1 = Some (log_with 101 x.1).
Proof.
  intros x. apply (log_admission_sound 31 x.1 x.2 0 1 101); [|done|by vm_compute|apply Nat.ltb_lt; by vm_compute].
  apply (adm_run_reach 31 [None; Some (O, 100)] (mkLog 2 31 0 0 1 0 (replicate 30 0), []) x); [apply adm_start|].
  by vm_compute.
Defined.
