(* ===== verification/KFs.v ===== *)
(** * KFs: the kernel's own file system (fs.c)

    Block and inode allocation, the inode cache, file contents, directories
    and path names, over the log of Log.v.  The kernel uses it for [exec],
    the console device and everything the file server does not handle.  An
    inode is named by its index in [icache.inode]; the code runs in one
    kernel thread and halts with [WouldBlock] where it would sleep. *)
From S2P Require Import Prelude CString Ring FsFormat Bio Log.

Definition NINODE : nat := 50.
Definition NDEV : Z := 10.
Definition I_VALID : Z := 2.

Record inode := mkInode {
  i_dev : Z;
  i_inum : Z;
  i_ref : Z;
  i_lock : sleeplock;
  i_flags : Z;
  i_din : dinode;
}.

Definition zero_inode : inode := mkInode 0 0 0 initsleeplock 0 zero_dinode.

Definition set_iref v ip := mkInode (i_dev ip) (i_inum ip) v (i_lock ip) (i_flags ip) (i_din ip).
Definition set_ilock v ip := mkInode (i_dev ip) (i_inum ip) (i_ref ip) v (i_flags ip) (i_din ip).
Definition set_iflags v ip := mkInode (i_dev ip) (i_inum ip) (i_ref ip) (i_lock ip) v (i_din ip).
Definition set_din v ip := mkInode (i_dev ip) (i_inum ip) (i_ref ip) (i_lock ip) (i_flags ip) v.

Definition set_type v d := mkDinode v (di_major d) (di_minor d) (di_nlink d) (di_size d) (di_addrs d).
Definition set_size v d := mkDinode (di_type d) (di_major d) (di_minor d) (di_nlink d) v (di_addrs d).
Definition set_addrs v d := mkDinode (di_type d) (di_major d) (di_minor d) (di_nlink d) (di_size d) v.
Definition addr (d : dinode) (k : Z) : Z := default 0 (di_addrs d !! Z.to_nat k).
Definition set_addr (k v : Z) (d : dinode) : dinode := set_addrs (<[Z.to_nat k := v]> (di_addrs d)) d.

(** The log and the block cache, the superblock in memory, and [icache]. *)
Record kfs := mkKfs { k_log : lsys; k_sb : superblock; k_ino : list inode }.

Definition on_log {A} (m : M lsys A) : M kfs A := fun s =>
  let '(r, l) := m (k_log s) in (r, mkKfs l (k_sb s) (k_ino s)).
Definition on_buf {A} (m : M bcache A) : M kfs A := on_log (on_bc m).
Definition set_sb (sb : superblock) : M kfs unit := modify (fun s => mkKfs (k_log s) sb (k_ino s)).
Definition the_inode (i : nat) : M kfs inode := s ← getS; of_option OutOfBounds (k_ino s !! i).
Definition upd_inode (i : nat) (f : inode -> inode) : M kfs unit :=
  modify (fun s => mkKfs (k_log s) (k_sb s) (alter f i (k_ino s))).
Definition upd_din (i : nat) (f : dinode -> dinode) : M kfs unit :=
  upd_inode i (fun ip => set_din (f (i_din ip)) ip).

(** [struct stat] *)
Record stat := mkStat { st_type : Z; st_dev : Z; st_ino : Z; st_nlink : Z; st_size : Z }.

(** ** Paths *)

(** [len >= DIRSIZ] leaves the name without a terminator. *)
Definition copy_name (s : list Z) (len : nat) (name : list Z) : list Z :=
  if (DIRSIZ <=? len)%nat then splice 0 (take DIRSIZ s) name
  else <[len := 0]> (splice 0 (take len s) name).

(** The rest of the path ([None]: the null pointer) and the name buffer; the
    outer [None] is a read past the end of the path. *)
Definition skipelem (path name : list Z) : option (option (list Z) * list Z) :=
  path ← skip_slashes path;
  c ← head path;
  if c =? 0 then Some (None, name)
  else
    e ← scan_elem path;
    rest ← skip_slashes e.2;
    Some (Some rest, copy_name path e.1 name).

Definition namecmp (s t : list Z) : option Z := strncmp s t DIRSIZ.

Section fs.
(** [proc->pid] and the index of [proc->cwd] of the running process, and the
    device switch: the read and write functions of each major number. *)
Context (mypid : Z) (cwd : nat).
Context (devsw_read : Z -> option (nat -> Z -> Z -> M kfs (Z * list Z))).
Context (devsw_write : Z -> option (nat -> Z -> list Z -> Z -> M kfs Z)).

Abbreviation bread' dev n := (on_buf (bread mypid dev n)).
Abbreviation brelse' bp := (on_buf (brelse bp)).
Abbreviation data bp := (b ← on_buf (the_buf bp); mret (b_data b)).
Definition set_buf (bp : nat) (f : list Z -> list Z) : M kfs unit :=
  on_buf (modify (upd_buf bp (fun b => set_data (f (b_data b)) b))).

(** ** Blocks *)

Definition bzero (dev bno : Z) : M kfs unit :=
  bp ← bread' dev (u32 bno);
  set_buf bp (fun _ => replicate 512 0);;
  on_log (log_write bp);;
  brelse' bp.

Definition balloc (dev : Z) : M kfs Z :=
  sb ← gets k_sb;
  r ← for_each (for_range 0 (sb_size sb) BPB) (fun b =>
    bp ← bread' dev (BBLOCK b sb);
    d ← data bp;
    match List.find (bit_clear d) (seqZ 0 (Z.min BPB (sb_size sb - b))) with
    | Some bi =>
        set_buf bp (set_bit bi);;
        on_log (log_write bp);;
        brelse' bp;;
        bzero dev (b + bi);;
        mret (Some (b + bi))
    | None => brelse' bp;; mret None
    end);
  match r with
  | Some b => mret b
  | None => panic "balloc: out of blocks"
  end.

Definition bfree (dev b : Z) : M kfs unit :=
  sb ← on_log (readsb mypid dev);
  set_sb sb;;
  bp ← bread' dev (BBLOCK b sb);
  d ← data bp;
  let bi := b mod BPB in
  if bit_clear d bi then panic "freeing free block"
  else
    set_buf bp (clear_bit bi);;
    on_log (log_write bp);;
    brelse' bp.

(** ** Inodes *)

Definition iinit (dev : Z) : M kfs unit :=
  modify (fun s => mkKfs (k_log s) (k_sb s) ((fun ip => set_ilock initsleeplock ip) <$> k_ino s));;
  sb ← on_log (readsb mypid dev);
  set_sb sb.

Definition iget (dev inum : Z) : M kfs nat :=
  s ← getS;
  let here i := match k_ino s !! i with
                | Some ip => ((0 <? i_ref ip) && (i_dev ip =? dev) && (i_inum ip =? inum))%bool
                | None => false
                end in
  let empty i := match k_ino s !! i with Some ip => i_ref ip =? 0 | None => false end in
  match List.find here (seq 0 (length (k_ino s))) with
  | Some i => upd_inode i (fun ip => set_iref (i_ref ip + 1) ip);; mret i
  | None =>
      match List.find empty (seq 0 (length (k_ino s))) with
      | Some i => upd_inode i (fun ip => mkInode dev inum 1 (i_lock ip) 0 (i_din ip));; mret i
      | None => panic "iget: no inodes"
      end
  end.

Definition idup (i : nat) : M kfs nat :=
  upd_inode i (fun ip => set_iref (i_ref ip + 1) ip);; mret i.

Definition ialloc (dev type : Z) : M kfs nat :=
  sb ← gets k_sb;
  r ← for_each (seqZ 1 (sb_ninodes sb - 1)) (fun inum =>
    bp ← bread' dev (IBLOCK inum sb);
    d ← data bp;
    if di_type (dinode_at d inum) =? 0 then
      set_buf bp (set_dinode inum (set_type type zero_dinode));;
      on_log (log_write bp);;
      brelse' bp;;
      i ← iget dev inum;
      mret (Some i)
    else brelse' bp;; mret None);
  match r with
  | Some i => mret i
  | None => panic "ialloc: no inodes"
  end.

Definition iupdate (i : nat) : M kfs unit :=
  ip ← the_inode i;
  sb ← gets k_sb;
  bp ← bread' (i_dev ip) (IBLOCK (i_inum ip) sb);
  set_buf bp (set_dinode (i_inum ip) (i_din ip));;
  on_log (log_write bp);;
  brelse' bp.

Definition ilock (i : option nat) : M kfs unit :=
  match i with
  | None => panic "ilock"
  | Some i =>
      ip ← the_inode i;
      if i_ref ip <? 1 then panic "ilock"
      else
        lk ← of_option WouldBlock (acquiresleep mypid (i_lock ip));
        upd_inode i (set_ilock lk);;
        if Z.land (i_flags ip) I_VALID =? 0 then
          sb ← gets k_sb;
          bp ← bread' (i_dev ip) (IBLOCK (i_inum ip) sb);
          d ← data bp;
          upd_inode i (set_din (dinode_at d (i_inum ip)));;
          brelse' bp;;
          upd_inode i (fun ip => set_iflags (Z.lor (i_flags ip) I_VALID) ip);;
          ip ← the_inode i;
          if di_type (i_din ip) =? 0 then panic "ilock: no type" else mret tt
        else mret tt
  end.

Definition iunlock (i : option nat) : M kfs unit :=
  match i with
  | None => panic "iunlock"
  | Some i =>
      ip ← the_inode i;
      if (negb (holdingsleep (i_lock ip)) || (i_ref ip <? 1))%bool then panic "iunlock"
      else upd_inode i (fun ip => set_ilock (releasesleep (i_lock ip)) ip)
  end.

(** ** Contents *)

(** The block whose number is in slot [k] of the inode, allocated on demand. *)
Definition bmap_addr (i : nat) (k : Z) : M kfs Z :=
  ip ← the_inode i;
  if addr (i_din ip) k =? 0 then
    a ← balloc (i_dev ip);
    upd_din i (set_addr k a);;
    mret a
  else mret (addr (i_din ip) k).

Definition bmap (i : nat) (bn : Z) : M kfs Z :=
  if bn <? NDIRECT then bmap_addr i bn
  else
    let bn := u32 (bn - NDIRECT) in
    if bn <? NINDIRECT then
      a ← bmap_addr i NDIRECT;
      ip ← the_inode i;
      bp ← bread' (i_dev ip) a;
      d ← data bp;
      let a := word_at d (Z.to_nat bn) in
      a ← (if a =? 0 then
             a ← balloc (i_dev ip);
             set_buf bp (set_word (Z.to_nat bn) a);;
             on_log (log_write bp);;
             mret a
           else mret a);
      brelse' bp;;
      mret a
    else panic "bmap: out of range".

Definition itrunc (i : nat) : M kfs unit :=
  for_each (R := unit) (seqZ 0 NDIRECT) (fun k =>
    ip ← the_inode i;
    when (negb (addr (i_din ip) k =? 0)) (
      bfree (i_dev ip) (addr (i_din ip) k);;
      upd_din i (set_addr k 0));;
    mret None);;
  ip ← the_inode i;
  when (negb (addr (i_din ip) NDIRECT =? 0)) (
    bp ← bread' (i_dev ip) (addr (i_din ip) NDIRECT);
    for_each (R := unit) (seqZ 0 NINDIRECT) (fun j =>
      d ← data bp;
      when (negb (word_at d (Z.to_nat j) =? 0)) (bfree (i_dev ip) (word_at d (Z.to_nat j)));;
      mret None);;
    brelse' bp;;
    bfree (i_dev ip) (addr (i_din ip) NDIRECT);;
    upd_din i (set_addr NDIRECT 0));;
  upd_din i (set_size 0);;
  iupdate i.

Definition iput (i : nat) : M kfs unit :=
  ip ← the_inode i;
  when ((i_ref ip =? 1) && negb (Z.land (i_flags ip) I_VALID =? 0) && (di_nlink (i_din ip) =? 0))%bool (
    itrunc i;;
    upd_din i (set_type 0);;
    iupdate i;;
    upd_inode i (set_iflags 0));;
  upd_inode i (fun ip => set_iref (i_ref ip - 1) ip).

Definition iunlockput (i : nat) : M kfs unit := iunlock (Some i);; iput i.

Definition stati (i : nat) : M kfs stat :=
  ip ← the_inode i;
  let d := i_din ip in
  mret (mkStat (di_type d) (s32 (i_dev ip)) (i_inum ip) (di_nlink d) (di_size d)).

(** One round of the loop of [readi] on [(tot, off, dst)]. *)
Definition readi_step (i : nat) (n : Z) (st : Z * Z * list Z) : M kfs ((Z * Z * list Z) + list Z) :=
  let '(tot, off, dst) := st in
  if tot <? n then
    ip ← the_inode i;
    a ← bmap i (off / BSIZE);
    bp ← bread' (i_dev ip) a;
    d ← data bp;
    let m := Z.min (n - tot) (BSIZE - off mod BSIZE) in
    brelse' bp;;
    mret (inl (u32 (tot + m), u32 (off + m), dst ++ slice (Z.to_nat (off mod BSIZE)) (Z.to_nat m) d))
  else mret (inr dst).

(** The result and the bytes stored at [dst]. *)
Definition readi (i : nat) (off n : Z) : M kfs (Z * list Z) :=
  ip ← the_inode i;
  let d := i_din ip in
  if di_type d =? T_DEV then
    if ((di_major d <? 0) || (NDEV <=? di_major d))%bool then mret (-1, [])
    else match devsw_read (di_major d) with
         | Some f => f i off (s32 n)
         | None => mret (-1, [])
         end
  else if ((di_size d <? off) || (u32 (off + n) <? off))%bool then mret (-1, [])
  else
    let n := if di_size d <? u32 (off + n) then u32 (di_size d - off) else n in
    dst ← while (S (Z.to_nat n)) (readi_step i n) (0, off, []);
    mret (s32 n, dst).

(** One round of the loop of [writei] on [(tot, off, src)]. *)
Definition writei_step (i : nat) (n : Z) (st : Z * Z * list Z) : M kfs ((Z * Z * list Z) + Z) :=
  let '(tot, off, src) := st in
  if tot <? n then
    ip ← the_inode i;
    a ← bmap i (off / BSIZE);
    bp ← bread' (i_dev ip) a;
    let m := Z.min (n - tot) (BSIZE - off mod BSIZE) in
    if (length src <? Z.to_nat m)%nat then halt_with OutOfBounds
    else
      set_buf bp (splice (Z.to_nat (off mod BSIZE)) (take (Z.to_nat m) src));;
      on_log (log_write bp);;
      brelse' bp;;
      mret (inl (u32 (tot + m), u32 (off + m), drop (Z.to_nat m) src))
  else mret (inr off).

Definition writei (i : nat) (src : list Z) (off n : Z) : M kfs Z :=
  ip ← the_inode i;
  let d := i_din ip in
  if di_type d =? T_DEV then
    if ((di_major d <? 0) || (NDEV <=? di_major d))%bool then mret (-1)
    else match devsw_write (di_major d) with
         | Some f => f i off src (s32 n)
         | None => mret (-1)
         end
  else if ((di_size d <? off) || (u32 (off + n) <? off))%bool then mret (-1)
  else if MAXFILE * BSIZE <? u32 (off + n) then mret (-1)
  else
    off ← while (S (Z.to_nat n)) (writei_step i n) (0, off, src);
    ip ← the_inode i;
    when ((0 <? n) && (di_size (i_din ip) <? off))%bool (upd_din i (set_size off);; iupdate i);;
    mret (s32 n).

(** ** Directories *)

(** The inode, and the offset stored in [*poff] when an entry matched. *)
Definition dirlookup (dp : nat) (name : list Z) : M kfs (option (nat * Z)) :=
  d ← the_inode dp;
  if negb (di_type (i_din d) =? T_DIR) then panic "dirlookup not DIR"
  else
    for_each (for_range 0 (di_size (i_din d)) 16) (fun off =>
      rd ← readi dp off 16;
      if negb (rd.1 =? 16) then panic "dirlookup read"
      else
        let de := decode_dirent rd.2 in
        if de_inum de =? 0 then mret None
        else
          c ← of_option OutOfBounds (namecmp name (de_name de));
          if c =? 0 then
            ip ← iget (i_dev d) (de_inum de);
            mret (Some (ip, off))
          else mret None).

Definition dirlink (dp : nat) (name : list Z) (inum : Z) : M kfs Z :=
  r ← dirlookup dp name;
  match r with
  | Some (ip, _) => iput ip;; mret (-1)
  | None =>
      d ← the_inode dp;
      r ← for_each (for_range 0 (di_size (i_din d)) 16) (fun off =>
        rd ← readi dp off 16;
        if negb (rd.1 =? 16) then panic "dirlink read"
        else if de_inum (decode_dirent rd.2) =? 0 then mret (Some off) else mret None);
      let off := default (16 * ((di_size (i_din d) + 15) / 16)) r in
      nm ← of_option OutOfBounds (strncpy (replicate DIRSIZ 0) name DIRSIZ);
      w ← writei dp (encode_dirent (mkDirent (u16 inum) nm)) (u32 off) 16;
      if negb (w =? 16) then panic "dirlink" else mret 0
  end.

(** ** Path lookup *)

Fixpoint namex_loop (fuel : nat) (nameiparent : bool) (path name : list Z) (ip : nat)
    : M kfs (option nat * list Z) :=
  match fuel with
  | O => halt_with NoFuel
  | S fuel =>
      e ← of_option OutOfBounds (skipelem path name);
      match e with
      | (None, name) => if nameiparent then iput ip;; mret (None, name) else mret (Some ip, name)
      | (Some path, name) =>
          ilock (Some ip);;
          d ← the_inode ip;
          if negb (di_type (i_din d) =? T_DIR) then iunlockput ip;; mret (None, name)
          else
            c ← of_option OutOfBounds (head path);
            if (nameiparent && (c =? 0))%bool then iunlock (Some ip);; mret (Some ip, name)
            else
              nx ← dirlookup ip name;
              match nx with
              | None => iunlockput ip;; mret (None, name)
              | Some (next, _) => iunlockput ip;; namex_loop fuel nameiparent path name next
              end
      end
  end.

Definition namex (path : list Z) (nameiparent : bool) (name : list Z) : M kfs (option nat * list Z) :=
  c ← of_option OutOfBounds (head path);
  ip ← (if c =? SLASH then iget ROOTDEV ROOTINO else idup cwd);
  namex_loop (S (length path)) nameiparent path name ip.

Definition namei (path : list Z) : M kfs (option nat) :=
  r ← namex path false (replicate DIRSIZ 0); mret r.1.

Definition nameiparent (path name : list Z) : M kfs (option nat * list Z) := namex path true name.
End fs.
