(* ===== verification/KFsProof.v ===== *)
(** * KFsProof: block allocation and path names of the kernel file system *)
From S2P Require Import Prelude CString Ring FsFormat Bio Log LogProof LogCrash LogTx KFs.

(** ** Block allocation inside a transaction *)

Definition with_log (l : lsys) (s : kfs) : kfs := mkKfs l (k_sb s) (k_ino s).

Lemma wp_on_log {A} (m : M lsys A) (Q : A -> kfs -> Prop) E s :
  wp m (fun a l => Q a (with_log l s)) (fun h l => E h (with_log l s)) (k_log s) -> wp (on_log m) Q E s.
Proof. unfold wp, on_log. by destruct (m (k_log s)) as [[a|h] l]. Qed.

Lemma wp_on_log_total {A} (m : M lsys A) (P : A -> lsys -> Prop) (Q : A -> kfs -> Prop) E s :
  wp m P no_halt (k_log s) -> (forall a l, P a l -> Q a (with_log l s)) -> wp (on_log m) Q E s.
Proof. intros H HQ. apply wp_on_log. eapply wp_mono; [exact H|done|by intros ?? []]. Qed.

(** Block [b] is marked in the bitmap, when blocks have the contents [v]. *)
Definition marked (sb : superblock) (v : Z -> list Z) (b : Z) : bool :=
  negb (bit_clear (v (BBLOCK b sb)) (b mod BPB)).

Lemma marked_group sb v k bi :
  0 <= bi < BPB -> marked sb v (k * BPB + bi) = negb (bit_clear (v (BBLOCK (k * BPB) sb)) bi).
Proof. intros. unfold marked. by rewrite BBLOCK_group, group_mod by done. Qed.

(** The bitmap and the blocks it governs lie on the disk, outside the log. *)
Record bitmap_geo (sb : superblock) (g : log) (size : Z) : Prop := mkBitmapGeo {
  bg_size : 0 <= sb_size sb <= size;
  bg_map : forall b, 0 <= b < sb_size sb -> 0 <= BBLOCK b sb < size /\ home g (BBLOCK b sb);
}.

(** What [balloc] makes of the blocks: the bit of [b] is set, [b] is zeroed. *)
Definition balloced (sb : superblock) (b : Z) (v : Z -> list Z) : Z -> list Z :=
  upd_view b (fun _ => replicate 512 0) (upd_view (BBLOCK b sb) (set_bit (b mod BPB)) v).

Section balloc.
Context (pid : Z) (sb : superblock) (g : log) (bs : list Z) (v : Z -> list Z) (c0 : bcache) (room : nat).
Context (Hgeo : bitmap_geo sb g (disksize c0)).
(** Free blocks may be used for data. *)
Context (Hfree : forall b, 0 <= b < sb_size sb -> marked sb v b = false -> home g b).
Context (Hcap : (length bs + 2 <= Z.to_nat LOGSIZE)%nat) (Hsize : Z.of_nat (length bs) + 2 < lg_size g).

(** The state between operations on blocks. *)
Definition ktx (s : kfs) : Prop := tx g bs v c0 (S (S room)) (k_log s) /\ k_sb s = sb.

(** What [balloc] answers. *)
Definition kballoc_post (b : Z) (s' : kfs) : Prop :=
  0 <= b < sb_size sb /\ marked sb v b = false /\ (forall b', 0 <= b' < b -> marked sb v b' = true) /\
  k_sb s' = sb /\ exists g' bs', tx g' bs' (balloced sb b v) c0 room (k_log s').

(** Releasing a buffer that was only read. *)
Lemma tx_release l s i n c r :
  tx g bs v c0 r s -> took [] l (ls_cache s) i n c ->
  wp (on_bc (brelse i)) (fun _ s' => tx g bs v c0 r s') no_halt (mkLsys g c).
Proof using.
  clear Hgeo Hfree Hcap Hsize. intros [Hg Hok Hop Hid [l0 I] D T V Cl R] [F1 I1 H1 S1 O1 V1 D1 T1 N1].
  eapply wp_on_bc_total; [by apply (brelse_spec [] l)|].
  intros ? c2 (I2 & F2 & _ & D2 & T2 & V2). cbn [ls_log ls_cache] in *. constructor; cbn [ls_log ls_cache]; try done; [eauto|..].
  - by rewrite D2, D1.
  - by rewrite T2, T1.
  - intros m. by rewrite V2, V1.
  - lia.
Qed.

Lemma bzero_spec g1 bs1 v1 s b :
  tx g1 bs1 v1 c0 (S room) (k_log s) -> 0 <= b < disksize c0 -> home g1 b ->
  (length bs1 < Z.to_nat LOGSIZE)%nat -> Z.of_nat (length bs1) < lg_size g1 - 1 ->
  wp (bzero pid 1 b) (fun _ s' => k_sb s' = k_sb s /\
      tx (log_with b g1) (log_add b bs1) (upd_view b (fun _ => replicate 512 0) v1) c0 room (k_log s')) no_halt s.
Proof.
  intros Htx Hb Hh Hl Hs. pose proof (lo_area _ _ _ (tx_ok _ _ _ _ _ _ Htx)) as Ha. unfold bzero.
  rewrite u32_id by (split; lia). wp_step. apply wp_on_log. eapply tx_bread; [done..|]. intros l i c1 _ E1.
  wp_step. apply wp_on_log. wp_call (editing_upd g1 _ i b _ (fun _ => replicate 512 0)); [exact E1|done|].
  intros ? s2 E2. wp_step.
  pose proof (log_finish_spec _ _ _ _ _ _ _ _ _ _ Htx E2 Hh Hl Hs) as Hfin. apply wp_bind_inv in Hfin.
  eapply wp_on_log_total; [exact Hfin|]. intros ? l3 H3. apply wp_on_log. eapply wp_mono; [exact H3|done|by intros ?? []].
Qed.

(** One group of [BPB] blocks. *)
Lemma kballoc_group s k :
  ktx s -> 0 <= k -> k * BPB < sb_size sb -> (forall b, 0 <= b < k * BPB -> marked sb v b = true) ->
  wp (bp ← on_buf (bread pid 1 (BBLOCK (k * BPB) sb));
      d ← (b ← on_buf (the_buf bp); mret (b_data b));
      match List.find (bit_clear d) (seqZ 0 (Z.min BPB (sb_size sb - k * BPB))) with
      | Some bi =>
          set_buf bp (set_bit bi);;
          on_log (log_write bp);;
          on_buf (brelse bp);;
          bzero pid 1 (k * BPB + bi);;
          mret (Some (k * BPB + bi))
      | None => on_buf (brelse bp);; mret None
      end)
     (fun r s' => match r with
        | Some b => kballoc_post b s'
        | None => ktx s' /\ forall b, 0 <= b < Z.min (sb_size sb) ((k + 1) * BPB) -> marked sb v b = true
        end) no_halt s.
Proof using Hgeo Hfree Hcap Hsize.
  intros [Htx Hsb] Hk Hlt Hbelow. destruct (bg_map _ _ _ Hgeo (k * BPB)) as [Hr Hh]; [unfold BPB, BSIZE in *; lia|].
  set (n := BBLOCK (k * BPB) sb) in *.
  wp_step. apply wp_on_log. eapply tx_bread; [exact Htx|done|]. intros l i c1 T1 E1.
  destruct (ed_holds _ _ _ _ _ _ E1) as (b & Hb & _ & Hd). cbn [ls_cache] in Hb.
  wp_step. wp_step. apply wp_on_log, wp_on_bc, (wp_the_buf _ b); [done|]. wp_step. rewrite Hd.
  pose proof (find_seqZ (bit_clear (v n)) (Z.min BPB (sb_size sb - k * BPB)) 0) as Hf.
  assert (Hless : forall bi, 0 <= bi < Z.min BPB (sb_size sb - k * BPB) ->
    marked sb v (k * BPB + bi) = negb (bit_clear (v n) bi)) by (intros; apply marked_group; lia).
  destruct (List.find _ _) as [bi|].
  - destruct Hf as (Hbi & Hclr & Hmin). set (r := k * BPB + bi).
    assert (Hrf : marked sb v r = false) by (unfold r; rewrite Hless, Hclr by lia; done).
    assert (Hrr : 0 <= r < sb_size sb) by (unfold r, BPB, BSIZE in *; lia).
    pose proof (bg_size _ _ _ Hgeo) as Hgs. pose proof (Hfree r Hrr Hrf) as Hhr.
    wp_step. apply wp_on_log. wp_call (editing_upd g _ i n _ (set_bit bi)); [exact E1| |].
    { rewrite length_set_bit. by eapply tx_view_length. }
    intros ? s2 E2. wp_step.
    pose proof (log_finish_spec _ _ _ _ _ _ _ _ _ _ Htx E2 Hh ltac:(lia) ltac:(lia)) as Hfin. apply wp_bind_inv in Hfin.
    eapply wp_on_log_total; [exact Hfin|]. intros ? l3 H3. wp_step.
    eapply wp_on_log_total; [exact H3|]. cbn beta. intros ? l4 H4.
    pose proof (log_add_length n bs) as Hal. destruct (log_with_same n g) as (Est & Esz & _).
    wp_step. wp_call (bzero_spec (log_with n g) (log_add n bs) _ _ r); [exact H4|lia| |lia|lia|].
    { unfold home. by rewrite Est, Esz. }
    intros ? s5 [Hsb5 H5]. wp_step. split_and!; [lia|lia|done| | |].
    + intros b' Hb'. destruct (Z.lt_ge_cases b' (k * BPB)); [apply Hbelow; lia|].
      replace b' with (k * BPB + (b' - k * BPB)) by lia. rewrite Hless by lia. apply negb_true_iff, Hmin. lia.
    + by rewrite Hsb5.
    + do 2 eexists. eapply tx_ext; [|exact H5]. intros m. unfold balloced, upd_view.
      assert (BBLOCK r sb = n) as -> by (apply BBLOCK_group; lia).
      assert (r mod BPB = bi) as -> by (apply group_mod; lia). done.
  - wp_step. apply wp_on_log. wp_call tx_release; [exact Htx|exact T1|]. intros ? l2 H2. wp_step.
    split; [by split|]. intros b' Hb'. destruct (Z.lt_ge_cases b' (k * BPB)); [apply Hbelow; lia|].
    replace b' with (k * BPB + (b' - k * BPB)) by lia. rewrite Hless by lia. apply negb_true_iff, Hf. lia.
Qed.

Lemma kballoc_spec s :
  ktx s ->
  wp (balloc pid 1) kballoc_post
     (fun h s' => h = Panic "balloc: out of blocks" /\ forall b, 0 <= b < sb_size sb -> marked sb v b = true) s.
Proof using Hgeo Hfree Hcap Hsize.
  intros Hs. unfold balloc. wp_step. wp_step. rewrite (proj2 Hs). wp_step.
  apply (wp_for_range (fun k s' => ktx s' /\ forall b, 0 <= b < Z.min (sb_size sb) (k * BPB) -> marked sb v b = true));
    [done|apply (bg_size _ _ _ Hgeo)| | |].
  - split; [done|]. intros; lia.
  - intros k s' Hk Hlt [Hs' Hu]. wp_call (kballoc_group s' k); [done..| |].
    { intros b Hb. apply Hu. lia. }
    intros [b|] s2; [by intros; wp_step|done].
  - intros k s' Hk Hge [Hs' Hu]. apply wp_halt. split; [done|]. intros b Hb. apply Hu. lia.
Qed.
End balloc.

(** ** Path names *)

(** The elements of a path: the non-empty pieces between slashes. *)
Fixpoint split_slash (p : list Z) : list (list Z) :=
  match p with
  | [] => [[]]
  | c :: p =>
      if c =? SLASH then [] :: split_slash p
      else match split_slash p with e :: es => (c :: e) :: es | [] => [[c]] end
  end.
Definition components (p : list Z) : list (list Z) := filter (fun e => e ≠ []) (split_slash p).

Definition plain (e : list Z) : Prop := forall c, c ∈ e -> c ≠ 0 /\ c ≠ SLASH.

Lemma components_slash p : components (SLASH :: p) = components p.
Proof. unfold components. cbn [split_slash]. by rewrite Z.eqb_refl, filter_cons_False by (intros H; by apply H). Qed.

Lemma split_slash_plain e p : plain e -> match split_slash p with f :: fs => split_slash (e ++ p) = (e ++ f) :: fs | [] => True end.
Proof.
  induction e as [|c e IH]; intros He; cbn [app]; [by destruct (split_slash p)|].
  assert (He' : plain e) by (intros x Hx; apply He; by right). specialize (IH He').
  destruct (split_slash p) as [|f fs]; [done|]. cbn [split_slash].
  destruct (Z.eqb_spec c SLASH) as [->|_]; [by destruct (He SLASH) as [_ []]; [left|]|]. by rewrite IH.
Qed.

Lemma components_elem e p :
  plain e -> e ≠ [] -> p = [] \/ head p = Some SLASH -> components (e ++ p) = e :: components p.
Proof.
  intros He Hne Hp. pose proof (split_slash_plain e p He) as H. unfold components.
  destruct Hp as [->|Hp].
  - cbn [split_slash] in H |- *. rewrite H, app_nil_r. rewrite filter_cons_True by done.
    by rewrite filter_cons_False by (intros E; by apply E).
  - destruct p as [|c p]; [done|]. injection Hp as ->. cbn [split_slash] in H |- *. rewrite Z.eqb_refl in H |- *.
    rewrite H, app_nil_r. rewrite filter_cons_True by done. by rewrite filter_cons_False by (intros E; by apply E).
Qed.

Lemma nul_cons c p : nul_terminated (c :: p) -> c ≠ 0 -> nul_terminated p.
Proof. intros [->|H]%elem_of_cons Hc; done. Qed.

Lemma skip_slashes_spec p :
  nul_terminated p -> exists q c, skip_slashes p = Some q /\ nul_terminated q /\ head q = Some c /\ c ≠ SLASH /\
    components (cstr q) = components (cstr p) /\ (length q <= length p)%nat.
Proof.
  induction p as [|c p IH]; intros Hp; [by apply not_elem_of_nil in Hp|]. cbn [skip_slashes].
  destruct (Z.eqb_spec c SLASH) as [->|Hne].
  - destruct IH as (q & c & Hq & Hn & Hh & Hc & E & Hl); [by eapply nul_cons|]. exists q, c.
    split_and!; try done. cbn [length]. lia.
  - by exists (c :: p), c.
Qed.

Lemma scan_elem_spec p :
  nul_terminated p -> exists n r, scan_elem p = Some (n, r) /\ nul_terminated r /\ p = take n p ++ r /\
    length (take n p) = n /\ plain (take n p) /\ cstr p = take n p ++ cstr r /\ (cstr r = [] \/ head (cstr r) = Some SLASH) /\
    (n = O -> head p = Some 0 \/ head p = Some SLASH).
Proof.
  induction p as [|c p IH]; intros Hp; [by apply not_elem_of_nil in Hp|]. cbn [scan_elem].
  destruct (Z.eqb_spec c 0) as [->|H0]; [|destruct (Z.eqb_spec c SLASH) as [->|Hs]]; cbn [negb andb].
  - exists O, (0 :: p). split_and!; try done; [by intros x ?%elem_of_nil|by left|by left].
  - exists O, (SLASH :: p). split_and!; try done; [by intros x ?%elem_of_nil|by right|by right].
  - destruct IH as (n & r & E & Hr & Hp' & Hl & Hpl & Hc & Hh & _); [by eapply nul_cons|].
    exists (S n), r. rewrite E. cbn [take app length]. split_and!; try done; [by rewrite <- Hp'|by rewrite Hl| |].
    + intros x [->|Hx]%elem_of_cons; [done|by apply Hpl].
    + cbn [cstr]. rewrite (proj2 (Z.eqb_neq c 0)) by done. by rewrite Hc.
Qed.

Lemma copy_name_spec e name rest :
  plain e -> length name = DIRSIZ -> cstrn DIRSIZ (copy_name (e ++ rest) (length e) name) = take DIRSIZ e.
Proof.
  intros He Hn. unfold copy_name. rewrite cstrn_take.
  assert (Hc : forall a b, plain a -> cstr (a ++ 0 :: b) = a).
  { intros a b. induction a as [|x a IH]; intros Ha; [done|]. cbn. destruct (Z.eqb_spec x 0) as [->|_].
    - by destruct (Ha 0) as [[] _]; [left|].
    - rewrite IH; [done|]. intros y Hy. apply Ha. by right. }
  assert (Hc' : forall a, plain a -> cstr a = a).
  { intros a. induction a as [|x a IH]; intros Ha; [done|]. cbn. destruct (Z.eqb_spec x 0) as [->|_].
    - by destruct (Ha 0) as [[] _]; [left|].
    - rewrite IH; [done|]. intros y Hy. apply Ha. by right. }
  destruct (Nat.leb_spec DIRSIZ (length e)) as [Hge|Hlt].
  - rewrite take_app_le by done. unfold splice. rewrite take_0, app_nil_l, length_take, drop_ge, app_nil_r by lia.
    rewrite Hc'; [by rewrite take_take, Nat.min_id|]. intros x Hx. apply He. by apply (subseteq_take DIRSIZ).
  - rewrite take_app_length. unfold splice. rewrite take_0, app_nil_l, Nat.add_0_l.
    destruct (drop (length e) name) as [|y ys] eqn:E.
    { apply (f_equal length) in E. rewrite length_drop in E. cbn in E. lia. }
    rewrite (insert_app_r_alt _ _ (length e)), Nat.sub_diag by lia. cbn [insert list_insert]. rewrite Hc by done. done.
Qed.

(** C0: [skipelem] takes paths apart: it fails exactly when no element is
    left; otherwise the name buffer holds the first element, cut to [DIRSIZ]
    bytes, and the rest of the path, which has no leading slash and is
    shorter, has the remaining elements. *)
Theorem skipelem_next path name :
  nul_terminated path -> length name = DIRSIZ ->
  match components (cstr path) with
  | [] => skipelem path name = Some (None, name)
  | e :: es => exists rest name', skipelem path name = Some (Some rest, name') /\
      cstrn DIRSIZ name' = take DIRSIZ e /\ components (cstr rest) = es /\ nul_terminated rest /\
      head rest ≠ Some SLASH /\ (length rest < length path)%nat
  end.
Proof.
  intros Hp Hn. unfold skipelem. destruct (skip_slashes_spec path Hp) as (q & c & Hq & Hnq & Hh & Hc & E & Hl).
  rewrite Hq, <- E. cbn [mbind option_bind]. rewrite Hh. cbn [mbind option_bind].
  destruct (Z.eqb_spec c 0) as [->|H0].
  - destruct q as [|x q]; [done|]. injection Hh as ->. done.
  - destruct (scan_elem_spec q Hnq) as (n & r & Hs & Hnr & Hqr & Hlen & Hpl & Hcs & Hcr & Hz).
    rewrite Hs. cbn [mbind option_bind snd fst].
    destruct (skip_slashes_spec r Hnr) as (q2 & c2 & Hq2 & Hnq2 & Hh2 & Hc2 & E2 & Hl2). rewrite Hq2. cbn [mbind option_bind].
    assert (Hne : take n q ≠ []).
    { intros En. rewrite En in Hlen. cbn in Hlen. destruct Hz; [done|congruence..]. }
    rewrite Hcs, components_elem by done. exists q2, (copy_name q n name). split_and!; try done.
    + pose proof (copy_name_spec (take n q) name r Hpl Hn) as H. by rewrite <- Hqr, Hlen in H.
    + rewrite Hh2. congruence.
    + assert (0 < length (take n q))%nat by (destruct (take n q); [done|cbn; lia]).
      apply (f_equal length) in Hqr. rewrite length_app in Hqr. lia.
Qed.

(** C26: inside a transaction, [balloc] returns the lowest block that is free
    in the bitmap, marks exactly it, fills it with zeros and changes no other
    block; everything it changed is logged.  It panics exactly when no block
    is free. *)
Theorem kernel_balloc_zeroes pid sb g bs v c0 room s :
  bitmap_geo sb g (disksize c0) ->
  (forall b, 0 <= b < sb_size sb -> marked sb v b = false -> home g b) ->
  (length bs + 2 <= Z.to_nat LOGSIZE)%nat -> Z.of_nat (length bs) + 2 < lg_size g ->
  tx g bs v c0 (S (S room)) (k_log s) -> k_sb s = sb ->
  wp (balloc pid 1)
     (fun b s' =>
        0 <= b < sb_size sb /\ marked sb v b = false /\ (forall b', 0 <= b' < b -> marked sb v b' = true) /\
        k_sb s' = sb /\ exists g' bs', tx g' bs' (balloced sb b v) c0 room (k_log s'))
     (fun h s' => h = Panic "balloc: out of blocks" /\ forall b, 0 <= b < sb_size sb -> marked sb v b = true) s.
Proof. intros Hgeo Hfree Hcap Hsize Htx Hsb. by apply (kballoc_spec pid sb g bs v c0 room). Qed.

(** ** Instances *)
Module Instances.
Definition demo_sb : superblock := mkSb 40 6 8 30 2 32 33.
Definition demo_bitmap : list Z := [255; 255; 255; 255; 3] ++ replicate 507 0.
Definition demo_cache : bcache := binit (<[33%nat := demo_bitmap]> (replicate 40 (replicate 512 0))).
Definition demo_log : log := mkLog 2 30 1 0 1 0 (replicate 30 0).
Definition demo_kfs : kfs := mkKfs (mkLsys demo_log demo_cache) demo_sb (replicate NINODE zero_inode).

Lemma demo_tx : tx demo_log [] (view demo_cache) demo_cache 12 (k_log demo_kfs).
Proof.
  destruct (binit_quiescent (<[33%nat := demo_bitmap]> (replicate 40 (replicate 512 0)))) as [(l & I & _) _].
  { apply Forall_insert; [by apply Forall_replicate|done]. }
  constructor; try done.
  - assert (disksize demo_cache = 40) as -> by done.
    constructor; try done; [cbn; lia|constructor|by intros b ?%elem_of_nil].
  - by exists l.
  - apply Nat.leb_le. by vm_compute.
Qed.

Definition safe_block (b : Z) : bool := (marked demo_sb (view demo_cache) b || (b <? 2) || (32 <=? b))%bool.

Lemma kernel_balloc_zeroes_witness :
  wp (balloc 1 1)
     (fun b s' => 0 <= b < 40 /\ marked demo_sb (view demo_cache) b = false /\
        (forall b', 0 <= b' < b -> marked demo_sb (view demo_cache) b' = true) /\ k_sb s' = demo_sb /\
        exists g' bs', tx g' bs' (balloced demo_sb b (view demo_cache)) demo_cache 10 (k_log s'))
     (fun h s' => h = Panic "balloc: out of blocks" /\ forall b, 0 <= b < 40 -> marked demo_sb (view demo_cache) b = true)
     demo_kfs.
Proof.
  apply (kernel_balloc_zeroes 1 demo_sb demo_log [] (view demo_cache) demo_cache 10 demo_kfs);
    [| |apply Nat.leb_le; by vm_compute|done|apply demo_tx|done].
  - assert (disksize demo_cache = 40) as -> by done. constructor; [cbn; lia|]. intros b Hb. cbn in Hb.
    assert (BBLOCK b demo_sb = 33) as ->; [|split; [lia|by right]].
    unfold BBLOCK. change BPB with 4096. rewrite Z.div_small by lia. done.
  - intros b Hb Hm. assert (Hs : forallb safe_block (seqZ 0 40) = true) by (by vm_compute).
    rewrite forallb_forall in Hs. specialize (Hs b). rewrite <- list_elem_of_In, elem_of_seqZ in Hs.
    specialize (Hs Hb). unfold safe_block in Hs. rewrite Hm in Hs. cbn [orb] in Hs. unfold home. cbn [lg_start lg_size demo_log].
    apply orb_true_iff in Hs as [H%Z.ltb_lt|H%Z.leb_le]; lia.
Defined.

(** ["//ab/c"] *)
Lemma skipelem_next_witness :
  exists rest name', skipelem [47; 47; 97; 98; 47; 99; 0] (replicate DIRSIZ 9) = Some (Some rest, name') /\
    cstrn DIRSIZ name' = [97; 98] /\ components (cstr rest) = [[99]] /\ nul_terminated rest /\
    head rest ≠ Some SLASH /\ (length rest < 7)%nat.
Proof.
  apply (skipelem_next [47; 47; 97; 98; 47; 99; 0] (replicate DIRSIZ 9)); [|done].
  unfold nul_terminated. set_solver.
Defined.
End Instances.
