(* ===== verification/Ipc.v ===== *)
(** * Ipc: the message format shared by kernel, clients and file server

    ipc.h: the message types and [struct ipc_msg]; proc.c: [valid_ipc_msg],
    the check every message passes before it is delivered. *)
From S2P Require Import Prelude.

Definition IPC_PATH_SIZE : Z := 64.
Definition IPC_DATA_SIZE : Z := 128.

Definition IPC_TYPE_FS_OPEN : Z := 1.
Definition IPC_TYPE_FS_READ : Z := 2.
Definition IPC_TYPE_FS_WRITE : Z := 3.
Definition IPC_TYPE_FS_CLOSE : Z := 4.
Definition IPC_TYPE_FS_LINK : Z := 5.
Definition IPC_TYPE_FS_UNLINK : Z := 6.
Definition IPC_TYPE_FS_MKDIR : Z := 7.
Definition IPC_TYPE_FS_MKNOD : Z := 8.
Definition IPC_TYPE_FS_CHDIR : Z := 9.
Definition IPC_TYPE_FS_FSTAT : Z := 10.
Definition IPC_TYPE_FS_STAT : Z := 11.
Definition IPC_TYPE_FS_REPLY : Z := 100.
Definition IPC_TYPE_FS_SHUTDOWN : Z := 101.
Definition IPC_TYPE_FS_CLIENT_EXIT : Z := 102.

Record ipc_msg := mkMsg {
  m_sender_pid : Z;
  m_request_id : Z;
  m_type : Z;
  m_fd : Z;
  m_flags : Z;
  m_nbytes : Z;
  m_result : Z;
  m_error : Z;
  m_path : list Z;
  m_data : list Z;
}.

#[export] Instance ipc_msg_eq_dec : EqDecision ipc_msg.
Proof. solve_decision. Defined.

(** [memset(&msg, 0, sizeof(msg))] *)
Definition zero_msg : ipc_msg :=
  mkMsg 0 0 0 0 0 0 0 0 (replicate 64 0) (replicate 128 0).

Definition set_sender (pid : Z) (m : ipc_msg) : ipc_msg :=
  mkMsg pid (m_request_id m) (m_type m) (m_fd m) (m_flags m) (m_nbytes m) (m_result m)
        (m_error m) (m_path m) (m_data m).

Definition valid_ipc_msg (m : ipc_msg) : bool :=
  if ((m_nbytes m <? 0) || (IPC_DATA_SIZE <? m_nbytes m))%bool then false
  else
    let t := m_type m in
    ((t =? IPC_TYPE_FS_OPEN) || (t =? IPC_TYPE_FS_READ) || (t =? IPC_TYPE_FS_WRITE) ||
     (t =? IPC_TYPE_FS_CLOSE) || (t =? IPC_TYPE_FS_REPLY) || (t =? IPC_TYPE_FS_SHUTDOWN) ||
     (t =? IPC_TYPE_FS_CLIENT_EXIT))%bool.

(** The arrays of a message have their declared sizes. *)
Definition msg_ok (m : ipc_msg) : Prop :=
  length (m_path m) = 64%nat /\ length (m_data m) = 128%nat.
