(* ===== verification/FssCache.v ===== *)
(** * FssCache: state, block cache, inode cache and block allocator of fsserver.c

    The server is a single-threaded user program, so its functions are
    computations over one state: the buffer cache, the inode cache, the
    superblock copy, the descriptor table, the device behind [disk_request]
    (any [BlockDev]) and the replies sent so far.  Buffers and inodes are
    named by their index in [ubuf_cache] and [uinode_cache]; a null pointer
    is [None]. *)
From S2P Require Import Prelude Ring FsFormat BlockDev Ipc.

(** fsserver.c has its own sizes. *)
Definition UNBUF : nat := 32.
Definition UNINODE : nat := 32.
Definition MAX_REMOTE_FDS : nat := 64.
Definition UB_VALID : Z := 2.

Record ubuf := mkUbuf {
  ub_flags : Z;
  ub_dev : Z;
  ub_blockno : Z;
  ub_refcnt : Z;
  ub_data : list Z;
}.

Record uinode := mkUinode {
  ui_dev : Z;
  ui_inum : Z;
  ui_ref : Z;
  ui_type : Z;
  ui_major : Z;
  ui_minor : Z;
  ui_nlink : Z;
  ui_size : Z;
  ui_addrs : list Z;
  ui_valid : Z;
}.

Record fd_entry := mkFd {
  fe_used : Z;
  fe_owner_pid : Z;
  fe_fd : Z;
  fe_off : Z;
  fe_readable : Z;
  fe_writable : Z;
}.

Record fss (D : Type) := mkFss {
  fs_bufs : list ubuf;
  fs_links : links;
  fs_inodes : list uinode;
  fs_sb : superblock;
  fs_fdt : list fd_entry;
  fs_fdi : list (option nat);
  fs_dev : D;
  fs_sent : list (Z * ipc_msg);
}.
Arguments mkFss {D}.
Arguments fs_bufs {D}.
Arguments fs_links {D}.
Arguments fs_inodes {D}.
Arguments fs_sb {D}.
Arguments fs_fdt {D}.
Arguments fs_fdi {D}.
Arguments fs_dev {D}.
Arguments fs_sent {D}.

(** The static data of the program: all zero. *)
Definition zero_ubuf : ubuf := mkUbuf 0 0 0 0 (replicate 512 0).
Definition zero_uinode : uinode := mkUinode 0 0 0 0 0 0 0 0 (replicate 13 0) 0.
Definition zero_fd : fd_entry := mkFd 0 0 0 0 0 0.

(** *** Field updates *)
Definition ub_set_flags v b := mkUbuf v (ub_dev b) (ub_blockno b) (ub_refcnt b) (ub_data b).
Definition ub_set_refcnt v b := mkUbuf (ub_flags b) (ub_dev b) (ub_blockno b) v (ub_data b).
Definition ub_set_data v b := mkUbuf (ub_flags b) (ub_dev b) (ub_blockno b) (ub_refcnt b) v.

Definition ui_set_ref v i := mkUinode (ui_dev i) (ui_inum i) v (ui_type i) (ui_major i)
  (ui_minor i) (ui_nlink i) (ui_size i) (ui_addrs i) (ui_valid i).
Definition ui_set_nlink v i := mkUinode (ui_dev i) (ui_inum i) (ui_ref i) (ui_type i) (ui_major i)
  (ui_minor i) v (ui_size i) (ui_addrs i) (ui_valid i).
Definition ui_set_size v i := mkUinode (ui_dev i) (ui_inum i) (ui_ref i) (ui_type i) (ui_major i)
  (ui_minor i) (ui_nlink i) v (ui_addrs i) (ui_valid i).
Definition ui_set_addrs v i := mkUinode (ui_dev i) (ui_inum i) (ui_ref i) (ui_type i) (ui_major i)
  (ui_minor i) (ui_nlink i) (ui_size i) v (ui_valid i).
Definition ui_set_valid v i := mkUinode (ui_dev i) (ui_inum i) (ui_ref i) (ui_type i) (ui_major i)
  (ui_minor i) (ui_nlink i) (ui_size i) (ui_addrs i) v.

(** The part of an in-memory inode that is copied to and from disk. *)
Definition ui_dinode (i : uinode) : dinode :=
  mkDinode (ui_type i) (ui_major i) (ui_minor i) (ui_nlink i) (ui_size i) (ui_addrs i).
Definition ui_set_dinode (d : dinode) (i : uinode) : uinode :=
  mkUinode (ui_dev i) (ui_inum i) (ui_ref i) (di_type d) (di_major d) (di_minor d)
           (di_nlink d) (di_size d) (di_addrs d) (ui_valid i).

Section fsserver.
Context {D : Type} `{BlockDev D}.
Implicit Types s : fss D.

Definition set_bufs v s : fss D := mkFss v (fs_links s) (fs_inodes s) (fs_sb s) (fs_fdt s) (fs_fdi s) (fs_dev s) (fs_sent s).
Definition set_ulinks v s : fss D := mkFss (fs_bufs s) v (fs_inodes s) (fs_sb s) (fs_fdt s) (fs_fdi s) (fs_dev s) (fs_sent s).
Definition set_inodes v s : fss D := mkFss (fs_bufs s) (fs_links s) v (fs_sb s) (fs_fdt s) (fs_fdi s) (fs_dev s) (fs_sent s).
Definition set_sb v s : fss D := mkFss (fs_bufs s) (fs_links s) (fs_inodes s) v (fs_fdt s) (fs_fdi s) (fs_dev s) (fs_sent s).
Definition set_fdt v s : fss D := mkFss (fs_bufs s) (fs_links s) (fs_inodes s) (fs_sb s) v (fs_fdi s) (fs_dev s) (fs_sent s).
Definition set_fdi v s : fss D := mkFss (fs_bufs s) (fs_links s) (fs_inodes s) (fs_sb s) (fs_fdt s) v (fs_dev s) (fs_sent s).
Definition set_dev v s : fss D := mkFss (fs_bufs s) (fs_links s) (fs_inodes s) (fs_sb s) (fs_fdt s) (fs_fdi s) v (fs_sent s).
Definition set_sent v s : fss D := mkFss (fs_bufs s) (fs_links s) (fs_inodes s) (fs_sb s) (fs_fdt s) (fs_fdi s) (fs_dev s) v.

Definition upd_ubuf (i : nat) (f : ubuf -> ubuf) s : fss D := set_bufs (alter f i (fs_bufs s)) s.
Definition upd_inode (i : nat) (f : uinode -> uinode) s : fss D := set_inodes (alter f i (fs_inodes s)) s.
Definition upd_fd (i : nat) (f : fd_entry -> fd_entry) s : fss D := set_fdt (alter f i (fs_fdt s)) s.

Definition the_ubuf (i : nat) : M (fss D) ubuf :=
  s ← getS; of_option OutOfBounds (fs_bufs s !! i).
Definition the_inode (i : nat) : M (fss D) uinode :=
  s ← getS; of_option OutOfBounds (fs_inodes s !! i).

(** The state of the process image before [main] runs. *)
Definition fss_static (d : D) : fss D :=
  mkFss (replicate UNBUF zero_ubuf) (mkLinks (replicate (S UNBUF) O) (replicate (S UNBUF) O))
        (replicate UNINODE zero_uinode) (mkSb 0 0 0 0 0 0 0)
        (replicate MAX_REMOTE_FDS zero_fd) (replicate MAX_REMOTE_FDS None) d [].

(** *** Block cache *)
Definition ubuf_init : M (fss D) unit := modify (set_ulinks (links_init UNBUF)).

Definition ubuf_is s (P : ubuf -> bool) (i : nat) : bool :=
  match fs_bufs s !! i with Some b => P b | None => false end.

Definition ubuf_get (dev blockno : Z) : M (fss D) (option nat) :=
  s ← getS;
  r ← of_option NoFuel (scan_next (fs_links s) UNBUF (S UNBUF)
        (ubuf_is s (fun b => (ub_dev b =? dev) && (ub_blockno b =? blockno))%bool));
  match r with
  | Some i => modify (upd_ubuf i (fun b => ub_set_refcnt (s32 (ub_refcnt b + 1)) b));; mret (Some i)
  | None =>
      r ← of_option NoFuel (scan_prev (fs_links s) UNBUF (S UNBUF)
            (ubuf_is s (fun b => ub_refcnt b =? 0)));
      match r with
      | Some i => modify (upd_ubuf i (fun b => mkUbuf 0 dev blockno 1 (ub_data b)));; mret (Some i)
      | None => mret None
      end
  end.

(** The system call [disk_request], on the device component. *)
Definition udisk_request (blockno : Z) (buf : list Z) (op : Z) : M (fss D) (Z * list Z) := fun s =>
  let '(r, d) := disk_request blockno buf op (fs_dev s) in (r, set_dev d s).

Definition ubrelse (i : nat) : M (fss D) unit :=
  modify (upd_ubuf i (fun b => ub_set_refcnt (s32 (ub_refcnt b - 1)) b)).

Definition ubread (dev blockno : Z) : M (fss D) (option nat) :=
  r ← ubuf_get dev blockno;
  match r with
  | None => mret None
  | Some i =>
      b ← the_ubuf i;
      if Z.land (ub_flags b) UB_VALID =? 0 then
        res ← udisk_request blockno (ub_data b) 0;
        modify (upd_ubuf i (ub_set_data res.2));;
        if res.1 <? 0 then
          modify (upd_ubuf i (fun b => ub_set_refcnt (s32 (ub_refcnt b - 1)) b));;
          mret None
        else
          modify (upd_ubuf i (fun b => ub_set_flags (Z.lor (ub_flags b) UB_VALID) b));;
          mret (Some i)
      else mret (Some i)
  end.

Definition ubwrite (i : nat) : M (fss D) unit :=
  b ← the_ubuf i;
  res ← udisk_request (ub_blockno b) (ub_data b) 1;
  modify (upd_ubuf i (ub_set_data res.2)).

(** *** Inode cache *)
Definition uinode_init : M (fss D) unit :=
  modify (fun s => set_inodes (ui_set_ref 0 <$> fs_inodes s) s).

(** The loop of [uiget]: [inl i] is the early return of a cached inode,
    [inr empty] the remembered free slot. *)
Fixpoint uiget_loop (dev inum : Z) (l : list uinode) (i : nat) (empty : option nat) : nat + option nat :=
  match l with
  | [] => inr empty
  | ip :: l =>
      if ((0 <? ui_ref ip) && (ui_dev ip =? dev) && (ui_inum ip =? inum))%bool then inl i
      else uiget_loop dev inum l (S i)
             (match empty with
              | None => if ui_ref ip =? 0 then Some i else None
              | Some _ => empty
              end)
  end.

Definition uiget (dev inum : Z) : M (fss D) (option nat) :=
  s ← getS;
  match uiget_loop dev inum (fs_inodes s) O None with
  | inl i => modify (upd_inode i (fun ip => ui_set_ref (s32 (ui_ref ip + 1)) ip));; mret (Some i)
  | inr None => mret None
  | inr (Some i) =>
      modify (upd_inode i (fun ip =>
        mkUinode dev inum 1 (ui_type ip) (ui_major ip) (ui_minor ip) (ui_nlink ip)
                 (ui_size ip) (ui_addrs ip) 0));;
      mret (Some i)
  end.

Definition uilock (i : nat) : M (fss D) unit :=
  ip ← the_inode i;
  if negb (ui_valid ip =? 0) then mret tt
  else
    sb ← gets fs_sb;
    r ← ubread (ui_dev ip) (IBLOCK (ui_inum ip) sb);
    match r with
    | None => mret tt
    | Some bp =>
        b ← the_ubuf bp;
        modify (upd_inode i (ui_set_dinode (dinode_at (ub_data b) (ui_inum ip))));;
        ubrelse bp;;
        modify (upd_inode i (ui_set_valid 1))
    end.

Definition uiput (i : nat) : M (fss D) unit :=
  modify (upd_inode i (fun ip => ui_set_ref (s32 (ui_ref ip - 1)) ip));;
  ip ← the_inode i;
  when (ui_ref ip =? 0) (modify (upd_inode i (ui_set_valid 0))).

Definition uiupdate (i : nat) : M (fss D) unit :=
  ip ← the_inode i;
  sb ← gets fs_sb;
  r ← ubread (ui_dev ip) (IBLOCK (ui_inum ip) sb);
  match r with
  | None => mret tt
  | Some bp =>
      modify (upd_ubuf bp (fun b => ub_set_data (set_dinode (ui_inum ip) (ui_dinode ip) (ub_data b)) b));;
      ubwrite bp;;
      ubrelse bp
  end.

Definition readsb : M (fss D) unit :=
  r ← ubread ROOTDEV 1;
  match r with
  | None => mret tt
  | Some bp =>
      b ← the_ubuf bp;
      modify (set_sb (decode_sb (ub_data b)));;
      ubrelse bp
  end.

(** *** Block allocator *)

(** The inner loop only reads the buffer until it finds a clear bit. *)
Definition balloc : M (fss D) Z :=
  sb ← gets fs_sb;
  r ← for_each (for_range 0 (sb_size sb) BPB) (fun b =>
    r ← ubread ROOTDEV (BBLOCK b sb);
    match r with
    | None => mret None
    | Some bp =>
        bf ← the_ubuf bp;
        match List.find (bit_clear (ub_data bf)) (seqZ 0 (Z.min BPB (sb_size sb - b))) with
        | Some bi =>
            modify (upd_ubuf bp (fun x => ub_set_data (set_bit bi (ub_data x)) x));;
            ubwrite bp;;
            ubrelse bp;;
            mret (Some (b + bi))
        | None => ubrelse bp;; mret None
        end
    end);
  mret (default 0 r).

Definition bfree (b : Z) : M (fss D) unit :=
  readsb;;
  sb ← gets fs_sb;
  r ← ubread ROOTDEV (BBLOCK b sb);
  match r with
  | None => mret tt
  | Some bp =>
      bf ← the_ubuf bp;
      let bi := b mod BPB in
      if bit_clear (ub_data bf) bi then ubrelse bp
      else
        modify (upd_ubuf bp (fun x => ub_set_data (clear_bit bi (ub_data x)) x));;
        ubwrite bp;;
        ubrelse bp
  end.
End fsserver.

(** ** The block cache is coherent

    [cinv p s]: every valid buffer equals its block on the device, no block
    is cached twice, and [p] lists the outstanding references (buffers got
    from [ubread] and not yet released, with repetition). *)
Section coherence.
Context {D : Type} `{BlockDevLaws D}.
Implicit Types (s : fss D) (p : list nat).

Definition blocks s (n : Z) : list Z := dev_block (fs_dev s) n.
Definition nblk s : Z := dev_size (fs_dev s).
Definition refs (p : list nat) (i : nat) : Z := Z.of_nat (count_occ Nat.eq_dec p i).

Definition ub_ok s (b : ubuf) : Prop :=
  length (ub_data b) = 512%nat /\
  (ub_flags b = 0 \/
   ub_flags b = UB_VALID /\ ub_dev b = ROOTDEV /\ 0 <= ub_blockno b < nblk s /\ ub_data b = blocks s (ub_blockno b)).

Definition ub_uniq (bs : list ubuf) : Prop :=
  forall i j bi bj, bs !! i = Some bi -> bs !! j = Some bj ->
    ub_dev bi = ROOTDEV -> ub_dev bj = ROOTDEV -> ub_blockno bi = ub_blockno bj -> i = j.

Record cinv p s : Prop := mkCinv {
  ci_links : fs_links s = links_init UNBUF;
  ci_length : length (fs_bufs s) = UNBUF;
  ci_dev : dev_ok (fs_dev s);
  ci_buf : forall i b, fs_bufs s !! i = Some b -> ub_ok s b /\ ub_refcnt b = refs p i;
  ci_uniq : ub_uniq (fs_bufs s);
}.

(** Buffer [i] caches block [n]. *)
Definition pinned s (i : nat) (n : Z) : Prop :=
  exists b, fs_bufs s !! i = Some b /\ ub_dev b = ROOTDEV /\ ub_blockno b = n /\ ub_flags b = UB_VALID.

(** What an operation on the block cache leaves alone: everything outside
    the cache and the device, and which block each referenced buffer holds. *)
Record keeps p s s' : Prop := mkKeeps {
  kp_inodes : fs_inodes s' = fs_inodes s;
  kp_sb : fs_sb s' = fs_sb s;
  kp_fdt : fs_fdt s' = fs_fdt s;
  kp_fdi : fs_fdi s' = fs_fdi s;
  kp_sent : fs_sent s' = fs_sent s;
  kp_size : nblk s' = nblk s;
  kp_pinned : forall i n, i ∈ p -> pinned s i n -> pinned s' i n;
}.

Definition blocks_eq s s' : Prop := forall m, 0 <= m < nblk s -> blocks s' m = blocks s m.

Lemma keeps_refl p s : keeps p s s.
Proof. by constructor. Qed.

Lemma keeps_trans p s1 s2 s3 : keeps p s1 s2 -> keeps p s2 s3 -> keeps p s1 s3.
Proof. intros [] []. constructor; try congruence. eauto. Qed.

Lemma keeps_sub p q s s' : p ⊆ q -> keeps q s s' -> keeps p s s'.
Proof. intros Hpq []. constructor; auto. Qed.

Lemma blocks_eq_refl s : blocks_eq s s.
Proof. by intros m ?. Qed.

Lemma blocks_eq_trans s1 s2 s3 :
  nblk s2 = nblk s1 -> blocks_eq s1 s2 -> blocks_eq s2 s3 -> blocks_eq s1 s3.
Proof. intros E H1 H2 m Hm. rewrite H2, H1; [done|done|by rewrite E]. Qed.

(** An operation that only reads. *)
Definition reads p s s' : Prop := keeps p s s' /\ blocks_eq s s'.

Lemma reads_refl p s : reads p s s.
Proof. split; [apply keeps_refl|apply blocks_eq_refl]. Qed.

Lemma reads_trans p s1 s2 s3 : reads p s1 s2 -> reads p s2 s3 -> reads p s1 s3.
Proof.
  intros [K1 B1] [K2 B2]. split; [by eapply keeps_trans|].
  eapply blocks_eq_trans; [apply K1|done..].
Qed.

Lemma reads_size p s s' : reads p s s' -> nblk s' = nblk s.
Proof. intros [K _]. apply K. Qed.

Lemma pinned_data p s i n :
  cinv p s -> pinned s i n ->
  exists b, fs_bufs s !! i = Some b /\ ub_data b = blocks s n /\ ub_blockno b = n /\
            0 <= n < nblk s /\ length (ub_data b) = 512%nat.
Proof.
  intros Hc (b & Hb & Hd & <- & Hf). exists b.
  destruct (ci_buf _ _ Hc i b Hb) as [[Hl [Hz|(_ & _ & Hr & Hdata)]] _]; [|by repeat (split; [done|])].
  rewrite Hf in Hz. done.
Qed.

Lemma blocks_length p s n : cinv p s -> 0 <= n < nblk s -> length (blocks s n) = 512%nat.
Proof. intros [] Hn. by apply dev_block_length. Qed.

(** With fewer references than buffers some buffer is free: the cache can
    only run out when as many references are outstanding. *)
Lemma free_ubuf p s :
  cinv p s -> (length p < UNBUF)%nat ->
  exists i b, fs_bufs s !! i = Some b /\ ub_refcnt b = 0.
Proof.
  intros Hc Hlt.
  destruct (decide (Exists (fun i => i ∉ p) (seq 0 UNBUF))) as [He|Hn].
  - apply Exists_exists in He as (i & Hi & Hp). apply elem_of_seq in Hi.
    destruct (lookup_lt_is_Some_2 (fs_bufs s) i) as [b Hb]; [rewrite (ci_length _ _ Hc); lia|].
    exists i, b. split; [done|]. rewrite (proj2 (ci_buf _ _ Hc i b Hb)). unfold refs.
    rewrite (proj1 (count_occ_not_In Nat.eq_dec p i)); [done|]. by rewrite <- list_elem_of_In.
  - exfalso. apply not_Exists_Forall in Hn; [|intros; apply _].
    assert (length (seq 0 UNBUF) <= length p)%nat; [|rewrite length_seq in *; lia].
    apply NoDup_incl_length; [apply NoDup_ListNoDup, NoDup_seq|].
    intros i Hi%list_elem_of_In. apply list_elem_of_In.
    rewrite Forall_forall in Hn. specialize (Hn i Hi). by destruct (decide (i ∈ p)).
Qed.

(** Replacing one buffer. *)
Definition with_ubuf (i : nat) (b : ubuf) s : fss D := set_bufs (<[i := b]> (fs_bufs s)) s.

Lemma upd_ubuf_with i f b s : fs_bufs s !! i = Some b -> upd_ubuf i f s = with_ubuf i (f b) s.
Proof. intros Hb. unfold upd_ubuf, with_ubuf. f_equal. by apply alter_as_insert. Qed.

Lemma with_ubuf_twice i b b' s : with_ubuf i b' (with_ubuf i b s) = with_ubuf i b' s.
Proof. unfold with_ubuf, set_bufs. cbn. by rewrite list_insert_insert_eq. Qed.

Lemma with_ubuf_at i b b' s : fs_bufs s !! i = Some b -> fs_bufs (with_ubuf i b' s) !! i = Some b'.
Proof. intros Hb. apply list_lookup_insert_eq. by eapply lookup_lt_Some. Qed.

Lemma wp_upd_ubuf i f b s (Q : unit -> fss D -> Prop) E :
  fs_bufs s !! i = Some b -> Q tt (with_ubuf i (f b) s) -> wp (modify (upd_ubuf i f)) Q E s.
Proof. intros Hb HQ. apply wp_modify. by rewrite (upd_ubuf_with i f b). Qed.

Lemma wp_the_ubuf i b s (Q : ubuf -> fss D -> Prop) E :
  fs_bufs s !! i = Some b -> Q b s -> wp (the_ubuf i) Q E s.
Proof. intros Hb HQ. unfold the_ubuf. wp_step. wp_step. by eapply wp_of_option. Qed.

Lemma refs_cons_eq i p : refs (i :: p) i = refs p i + 1.
Proof. unfold refs. cbn. destruct (Nat.eq_dec i i); [lia|done]. Qed.
Lemma refs_cons_ne i j p : j ≠ i -> refs (i :: p) j = refs p j.
Proof. intros. unfold refs. cbn. by destruct (Nat.eq_dec i j); [subst|]. Qed.
Lemma refs_bound i p : 0 <= refs p i <= Z.of_nat (length p).
Proof. unfold refs. pose proof (count_occ_bound Nat.eq_dec i p). lia. Qed.

Lemma cinv_with p p' s i b b' :
  cinv p s -> fs_bufs s !! i = Some b -> ub_ok s b' -> ub_refcnt b' = refs p' i ->
  (forall j, j ≠ i -> refs p' j = refs p j) ->
  (forall j bj, j ≠ i -> fs_bufs s !! j = Some bj -> ub_dev b' = ROOTDEV -> ub_dev bj = ROOTDEV ->
     ub_blockno b' ≠ ub_blockno bj) ->
  cinv p' (with_ubuf i b' s).
Proof.
  intros [Hl Hlen Hdev Hbuf Hu] Hb Hok Hr Hp' Hne. constructor; cbn; try done.
  - by rewrite length_insert.
  - intros j bj. rewrite list_lookup_insert_Some. intros [(<- & <- & _)|[? Hj]]; [done|].
    rewrite Hp' by done. by apply Hbuf.
  - intros j k bj bk. rewrite !list_lookup_insert_Some.
    intros [(<- & <- & _)|[? Hj]] [(<- & <- & _)|[? Hk]] Dj Dk E; [done| | |by eapply Hu].
    + by destruct (Hne k bk).
    + by destruct (Hne j bj).
Qed.

Lemma keeps_with p s i b b' :
  fs_bufs s !! i = Some b ->
  (i ∈ p -> ub_dev b = ROOTDEV -> ub_flags b = UB_VALID ->
     ub_dev b' = ROOTDEV /\ ub_blockno b' = ub_blockno b /\ ub_flags b' = UB_VALID) ->
  keeps p s (with_ubuf i b' s).
Proof.
  intros Hb Hsame. constructor; try done. intros j n Hj (bj & Hbj & Dj & Nj & Fj).
  destruct (decide (j = i)) as [->|].
  - rewrite Hb in Hbj. injection Hbj as <-. destruct Hsame as (? & ? & ?); [done..|].
    exists b'. rewrite (with_ubuf_at i b) by done. naive_solver.
  - exists bj. unfold with_ubuf. cbn. by rewrite list_lookup_insert_ne.
Qed.

Lemma find_ubuf s P (l : list nat) :
  match List.find (ubuf_is s P) l with
  | Some i => exists b, fs_bufs s !! i = Some b /\ P b = true
  | None => forall i b, i ∈ l -> fs_bufs s !! i = Some b -> P b = false
  end.
Proof.
  destruct (List.find (ubuf_is s P) l) as [i|] eqn:E.
  - apply find_some in E as [_ E]. unfold ubuf_is in E.
    destruct (fs_bufs s !! i) as [b|] eqn:Hb; [|done]. by exists b.
  - intros i b Hi Hb. pose proof (find_none _ _ E i) as Hn. unfold ubuf_is in Hn.
    rewrite Hb in Hn. apply Hn. by apply list_elem_of_In.
Qed.

(** The buffers in the order [ubuf_init] threads them. *)
Lemma ubuf_order p s : cinv p s ->
  exists l, ring UNBUF (fs_links s) l /\ (length l < S UNBUF)%nat /\
            forall i b, fs_bufs s !! i = Some b -> i ∈ l.
Proof.
  intros Hc. exists (reverse (seq 0 UNBUF)). rewrite (ci_links _ _ Hc). split; [apply ring_init|].
  rewrite length_reverse, length_seq. split; [lia|]. intros i b Hb%lookup_lt_Some.
  rewrite (ci_length _ _ Hc) in Hb. rewrite elem_of_reverse, elem_of_seq. lia.
Qed.

(** [ubuf_get] returns the buffer that caches the block, or recycles a free one. *)
Lemma ubuf_get_spec p s n :
  cinv p s -> (length p < UNBUF)%nat -> 0 <= n < nblk s ->
  wp (ubuf_get ROOTDEV n)
     (fun r s' => exists i b', r = Some i /\ s' = with_ubuf i b' s /\
        fs_bufs s' !! i = Some b' /\ ub_dev b' = ROOTDEV /\ ub_blockno b' = n /\
        cinv (i :: p) s' /\ keeps p s s') no_halt s.
Proof.
  intros Hc Hlt Hn. unfold ubuf_get. wp_step. wp_step. wp_step.
  destruct (ubuf_order _ _ Hc) as (l & Hring & Hlen & Hin).
  rewrite (scan_next_ring _ _ _ _ _ Hring), (scan_prev_ring _ _ _ _ _ Hring) by done.
  cbn [of_option]. wp_step.
  pose proof (find_ubuf s (fun b => (ub_dev b =? ROOTDEV) && (ub_blockno b =? n))%bool l) as Hf.
  destruct (List.find _ l) as [i|].
  - destruct Hf as (b & Hb & [E1%Z.eqb_eq E2%Z.eqb_eq]%andb_prop). wp_step.
    eapply wp_upd_ubuf; [done|]. wp_step. destruct (ci_buf _ _ Hc i b Hb) as [Hok Hr].
    pose proof (refs_bound i p). eexists i, _. rewrite (with_ubuf_at i b) by done.
    split_and!; [done..| |].
    + apply (cinv_with p _ s i b); [done..| | |].
      * cbn. rewrite refs_cons_eq, Hr, s32_id; [done|]. unfold is_s32, UNBUF in *. lia.
      * intros. by apply refs_cons_ne.
      * cbn. intros j bj Hj Hbj _ Dj Ej. apply Hj. by eapply (ci_uniq _ _ Hc); eauto; congruence.
    + by apply (keeps_with p s i b).
  - wp_step. pose proof (find_ubuf s (fun b => ub_refcnt b =? 0) (reverse l)) as Hg.
    destruct (List.find _ (reverse l)) as [i|].
    2: { destruct (free_ubuf p s Hc Hlt) as (i & b & Hb & Hr0).
         specialize (Hg i b). rewrite Hr0, elem_of_reverse in Hg. discriminate Hg; eauto. }
    destruct Hg as (b & Hb & Hr0%Z.eqb_eq). cbn [of_option]. wp_step. wp_step.
    eapply wp_upd_ubuf; [done|]. wp_step. destruct (ci_buf _ _ Hc i b Hb) as [[Hl _] Hr].
    eexists i, _. rewrite (with_ubuf_at i b) by done. split_and!; [done..| |].
    + apply (cinv_with p _ s i b); [done..| | | |].
      * split; [done|]. by left.
      * cbn. rewrite refs_cons_eq, <- Hr, Hr0. done.
      * intros. by apply refs_cons_ne.
      * cbn. intros j bj Hj Hbj _ Dj Ej.
        specialize (Hf j bj). rewrite Dj, <- Ej, !Z.eqb_refl in Hf. discriminate Hf; eauto.
    + apply (keeps_with p s i b); [done|]. intros Hip.
      exfalso. rewrite Hr in Hr0. unfold refs in Hr0.
      apply list_elem_of_In, (count_occ_In Nat.eq_dec) in Hip. lia.
Qed.

Lemma wp_udisk_request n buf op s (Q : Z * list Z -> fss D -> Prop) :
  wp (disk_request n buf op) (fun r d => Q r (set_dev d s)) no_halt (fs_dev s) ->
  wp (udisk_request n buf op) Q no_halt s.
Proof. unfold wp, udisk_request. by destruct (disk_request n buf op (fs_dev s)) as [[a|h] d]. Qed.

Lemma ub_ok_dev s d b : same_blocks (fs_dev s) d -> ub_ok s b -> ub_ok (set_dev d s) b.
Proof.
  intros (_ & E & Hb) [Hl [Hz|(Hv & Dv & Hr & Hd)]]; split; [done|by left|done|right].
  unfold nblk, blocks in *. cbn. rewrite E, Hb by done. done.
Qed.

Lemma cinv_dev p s d : same_blocks (fs_dev s) d -> cinv p s -> cinv p (set_dev d s).
Proof.
  intros Hd [Hl Hlen Hdev Hbuf Hu]. constructor; cbn; try done; [by destruct Hd|].
  intros i b Hb. destruct (Hbuf i b Hb). split; [by apply ub_ok_dev|done].
Qed.

Lemma keeps_dev p s d : dev_size d = nblk s -> keeps p s (set_dev d s).
Proof. intros. by constructor. Qed.

(** [ubread] returns a referenced buffer with the contents of the block; no
    block changes. *)
Lemma ubread_spec p s n :
  cinv p s -> (length p < UNBUF)%nat -> 0 <= n < nblk s ->
  wp (ubread ROOTDEV n)
     (fun r s' => exists i, r = Some i /\ cinv (i :: p) s' /\ pinned s' i n /\
        reads p s s') no_halt s.
Proof.
  intros Hc Hlt Hn. unfold ubread. wp_step. wp_call (ubuf_get_spec p s n); [done..|].
  intros ? s1 (i & b & -> & -> & Hb & Hd & <- & Hc1 & Hk1). cbv beta iota.
  wp_step. eapply wp_the_ubuf; [done|].
  destruct (ci_buf _ _ Hc1 i b Hb) as [[Hl [Hz|(Hv & _ & Hr & Hdata)]] Href].
  - rewrite Hz. change (Z.land 0 UB_VALID =? 0) with true. cbv iota. wp_step. apply wp_udisk_request.
    eapply wp_mono; [by apply dev_read; [apply Hc1|..]| |by intros ? ? []].
    intros ? d [-> Hsame]. cbn [fst snd].
    pose proof (cinv_dev _ _ _ Hsame Hc1) as Hc2.
    set (s2 := set_dev d (with_ubuf i b s)) in *.
    assert (Hb2 : fs_bufs s2 !! i = Some b) by done.
    wp_step. eapply wp_upd_ubuf; [done|]. cbn [Z.ltb Z.compare]. wp_step.
    eapply wp_upd_ubuf; [by eapply with_ubuf_at|]. wp_step. exists i.
    rewrite with_ubuf_twice. destruct Hsame as (Hok & Hsz & Hblk).
    split_and!; [done| | |split; [|done]].
    + apply (cinv_with (i :: p) _ s2 i b); [done..| |done|done|].
      * split; [by apply dev_block_length; [apply Hc|]|]. right. cbn. rewrite Hz.
        split; [done|]. split; [done|]. unfold nblk, blocks. cbn. rewrite Hsz. split; [done|].
        symmetry. by apply Hblk.
      * cbn. intros j bj Hj Hbj _ Dj Ej. apply Hj. by eapply (ci_uniq _ _ Hc2).
    + eexists. split; [by eapply with_ubuf_at|]. cbn. by rewrite Hz.
    + eapply keeps_trans; [apply Hk1|]. eapply keeps_trans; [by apply (keeps_dev p _ d)|].
      apply (keeps_with p s2 i b); [done|]. cbn. rewrite Hz. done.
  - rewrite Hv. change (Z.land UB_VALID UB_VALID =? 0) with false. cbv iota. wp_step. exists i.
    split_and!; [done..| |by split]. by exists b.
Qed.

(** Changing a buffer without moving it to another block keeps every pin. *)
Lemma keeps_with_same p s i b b' :
  fs_bufs s !! i = Some b -> ub_dev b' = ub_dev b -> ub_blockno b' = ub_blockno b ->
  ub_flags b' = ub_flags b -> keeps p s (with_ubuf i b' s).
Proof. intros Hb E1 E2 E3. apply (keeps_with p s i b); [done|]. by rewrite E1, E2, E3. Qed.

(** [ubrelse] gives the reference back. *)
Lemma ubrelse_spec i n p q s :
  cinv (i :: p) s -> (length p < UNBUF)%nat -> pinned s i n ->
  wp (ubrelse i) (fun _ s' => cinv p s' /\ reads q s s') no_halt s.
Proof.
  intros Hc Hlt (b & Hb & Hd & Hn & Hf). destruct (ci_buf _ _ Hc i b Hb) as [Hok Hr].
  eapply wp_upd_ubuf; [done|]. split; [|by split; [eapply keeps_with_same|]].
  pose proof (refs_bound i p). rewrite refs_cons_eq in Hr. unfold UNBUF in *.
  eapply cinv_with; [done..| | |].
  - cbn. rewrite s32_id; [lia|]. unfold is_s32. lia.
  - intros j Hj. by rewrite refs_cons_ne.
  - cbn. intros j bj Hj Hbj _ Dj Ej. apply Hj. by eapply (ci_uniq _ _ Hc); eauto.
Qed.

Lemma ub_uniq_same bs i b b' :
  ub_uniq bs -> bs !! i = Some b -> ub_dev b' = ub_dev b -> ub_blockno b' = ub_blockno b ->
  ub_uniq (<[i := b']> bs).
Proof.
  intros Hu Hb E1 E2 j k bj bk. rewrite !list_lookup_insert_Some.
  intros [(<- & <- & _)|[? Hj]] [(<- & <- & _)|[? Hk]]; [done|rewrite E1, E2|rewrite E1, E2|];
    by apply Hu.
Qed.

(** Modifying a referenced buffer and writing it through: the block has the
    new contents, on the device and in the cache, and no other block changes. *)
Lemma ubwrite_spec i n p q s f :
  cinv p s -> pinned s i n -> length (f (blocks s n)) = 512%nat ->
  wp (ubwrite i)
     (fun _ s' => cinv p s' /\ keeps q s s' /\ blocks s' n = f (blocks s n) /\
        forall m, 0 <= m < nblk s -> m ≠ n -> blocks s' m = blocks s m) no_halt
     (upd_ubuf i (fun b => ub_set_data (f (ub_data b)) b) s).
Proof.
  intros Hc Hp Hl. destruct (pinned_data _ _ _ _ Hc Hp) as (b & Hb & Hdata & Hno & Hrange & _).
  rewrite (upd_ubuf_with i _ b), Hdata by done. unfold ubwrite. wp_step.
  eapply wp_the_ubuf; [by eapply with_ubuf_at|]. cbn [ub_data ub_blockno ub_set_data]. rewrite Hno.
  wp_step. apply wp_udisk_request.
  eapply wp_mono; [by apply dev_write; [apply Hc|..]| |by intros ? ? []].
  intros ? d (-> & Hok & Hsz & Hnew & Hother). cbn [snd].
  eapply wp_upd_ubuf; [by eapply with_ubuf_at|].
  match goal with |- cinv _ ?s' /\ _ => set (s2 := s') end.
  assert (s2 = set_dev d (with_ubuf i (ub_set_data (f (blocks s n)) b) s)) as ->.
  { unfold s2, with_ubuf, set_bufs, set_dev. cbn. by rewrite list_insert_insert_eq. }
  destruct Hp as (b0 & Hb0 & Dp & _ & Fp). rewrite Hb in Hb0. injection Hb0 as <-.
  destruct (ci_buf _ _ Hc i b Hb) as [_ Hr]. split_and!; [| |done|done].
  - constructor; cbn; [apply Hc|by rewrite length_insert, (ci_length _ _ Hc)|done| |].
    + intros j bj. rewrite list_lookup_insert_Some. intros [(<- & <- & _)|[Hj Hbj]].
      * split; [|done]. split; [done|]. right. unfold nblk, blocks. cbn.
        by rewrite Hno, Hsz, Hnew.
      * destruct (ci_buf _ _ Hc j bj Hbj) as [[Hlj Hj'] Hrj]. split; [|done]. split; [done|].
        destruct Hj' as [?|(Vj & Dj & Rj & Ej)]; [by left|right]. unfold nblk, blocks in *. cbn.
        rewrite Hsz, Hother; [done..|]. intros E. apply Hj.
        eapply (ci_uniq _ _ Hc i j b bj); congruence.
    + by eapply ub_uniq_same; [apply Hc|..].
  - eapply keeps_trans; [|by apply keeps_dev]; by apply (keeps_with_same q s i b).
Qed.

(** ** The block allocator *)

(** Block [b] is marked in the bitmap. *)
Definition in_use s (b : Z) : bool :=
  negb (bit_clear (blocks s (BBLOCK b (fs_sb s))) (b mod BPB)).

(** The bitmap of the superblock lies on the device. *)
Definition bitmap_ok s : Prop :=
  0 <= sb_size (fs_sb s) /\ 0 <= sb_bmapstart (fs_sb s) /\
  sb_bmapstart (fs_sb s) + sb_size (fs_sb s) / BPB < Z.min (nblk s) (2 ^ 32).

Lemma BBLOCK_ok s b :
  bitmap_ok s -> 0 <= b < sb_size (fs_sb s) ->
  BBLOCK b (fs_sb s) = b / BPB + sb_bmapstart (fs_sb s) /\ 0 <= BBLOCK b (fs_sb s) < nblk s.
Proof.
  intros (Hs & Hb & Hlt) Hr. unfold BBLOCK.
  assert (0 <= b / BPB <= sb_size (fs_sb s) / BPB).
  { split; [apply Z.div_pos; [lia|done]|]. apply Z.div_le_mono; [done|lia]. }
  rewrite u32_id by (unfold is_u32; lia). split; [done|lia].
Qed.

Lemma in_use_group s k bi :
  0 <= bi < BPB ->
  in_use s (k * BPB + bi) = negb (bit_clear (blocks s (BBLOCK (k * BPB) (fs_sb s))) bi).
Proof. intros. unfold in_use. by rewrite BBLOCK_group, group_mod by done. Qed.

(** What [balloc] answers: the least block that is not in use, which it
    marks, or 0 when every block is in use. *)
Definition balloc_post p s (r : Z) s' : Prop :=
  cinv p s' /\ keeps p s s' /\
  ((0 <= r < sb_size (fs_sb s) /\ in_use s r = false /\
    (forall b, 0 <= b < r -> in_use s b = true) /\
    blocks s' (BBLOCK r (fs_sb s)) = set_bit (r mod BPB) (blocks s (BBLOCK r (fs_sb s))) /\
    forall m, 0 <= m < nblk s -> m ≠ BBLOCK r (fs_sb s) -> blocks s' m = blocks s m) \/
   (r = 0 /\ (forall b, 0 <= b < sb_size (fs_sb s) -> in_use s b = true) /\ blocks_eq s s')).

(** One group of [BPB] blocks. *)
Lemma balloc_group p s0 s k :
  cinv p s -> (length p < UNBUF)%nat -> bitmap_ok s0 -> reads p s0 s ->
  0 <= k -> k * BPB < sb_size (fs_sb s0) ->
  (forall b, 0 <= b < k * BPB -> in_use s0 b = true) ->
  wp (r ← ubread ROOTDEV (BBLOCK (k * BPB) (fs_sb s0));
      match r with
      | None => mret None
      | Some bp =>
          bf ← the_ubuf bp;
          match List.find (bit_clear (ub_data bf)) (seqZ 0 (Z.min BPB (sb_size (fs_sb s0) - k * BPB))) with
          | Some bi =>
              modify (upd_ubuf bp (fun x => ub_set_data (set_bit bi (ub_data x)) x));;
              ubwrite bp;;
              ubrelse bp;;
              mret (Some (k * BPB + bi))
          | None => ubrelse bp;; mret None
          end
      end)
     (fun r s' => match r with
        | Some b => balloc_post p s0 b s'
        | None => cinv p s' /\ reads p s0 s' /\
                  forall b, 0 <= b < Z.min (sb_size (fs_sb s0)) ((k + 1) * BPB) -> in_use s0 b = true
        end) no_halt s.
Proof.
  intros Hc Hlt Hbm Hk Hk0 Hkb Hbelow. pose proof (BBLOCK_ok s0 (k * BPB) Hbm) as Hr. unfold BPB, BSIZE in *. set (BP := 512 * 8) in *.
  destruct Hr as [_ Hr]; [lia|].
  pose proof (reads_size _ _ _ Hk) as Hnb.
  wp_step. wp_call (ubread_spec p s); [done|done|by rewrite Hnb|].
  intros ? s1 (bp & -> & Hc1 & Hp1 & Hk1). cbv beta iota.
  pose proof (reads_trans _ _ _ _ Hk Hk1) as [Hk01 He01].
  destruct (pinned_data _ _ _ _ Hc1 Hp1) as (b & Hb & Hd & _ & _ & Hlen).
  wp_step. eapply wp_the_ubuf; [done|]. rewrite Hd, He01 by done.
  pose proof (find_seqZ (bit_clear (blocks s0 (BBLOCK (k * BP) (fs_sb s0))))
                (Z.min BP (sb_size (fs_sb s0) - k * BP)) 0) as Hf.
  destruct (List.find _ _) as [bi|].
  - destruct Hf as (Hbi & Hfree & Hless). wp_step. wp_step. wp_step.
    wp_call (ubwrite_spec bp _ (bp :: p) (bp :: p) s1 (set_bit bi)); [done..| |].
    { rewrite length_set_bit. eapply blocks_length; [done|]. by rewrite (kp_size _ _ _ Hk01). }
    intros _ s2 (Hc2 & Hk2 & Hnew & Hother). wp_step.
    wp_call (ubrelse_spec bp _ p p s2); [done|done|by eapply kp_pinned; [|left|]|].
    intros _ s3 (Hc3 & Hk3 & He3). wp_step.
    assert (Hk23 : keeps p s1 s3).
    { eapply keeps_trans; [|done]. eapply keeps_sub; [|done]. set_solver. }
    split; [done|]. split; [by eapply keeps_trans|]. left.
    assert (Hn3 : nblk s2 = nblk s0) by (by rewrite (kp_size _ _ _ Hk2), (kp_size _ _ _ Hk01)).
    rewrite BBLOCK_group, group_mod by (unfold BPB, BSIZE; lia). split_and!; [lia|lia| | | |].
    + rewrite in_use_group by (unfold BPB, BSIZE; lia). by apply negb_false_iff.
    + intros b' Hb'. destruct (Z.lt_ge_cases b' (k * BP)); [apply Hbelow; lia|].
      replace b' with (k * BPB + (b' - k * BP)) by (unfold BPB, BSIZE; lia).
      rewrite in_use_group by (unfold BPB, BSIZE; lia). apply negb_true_iff, Hless. lia.
    + change BPB with BP. rewrite He3, Hnew, He01 by (rewrite ?Hn3; done). done.
    + intros m Hm Hne. rewrite He3, Hother, He01 by (rewrite ?Hn3, ?(kp_size _ _ _ Hk01); done). done.
  - wp_step. wp_call (ubrelse_spec bp _ p p s1); [done..|]. intros _ s2 (Hc2 & Hk2). wp_step.
    split; [done|]. split; [by eapply reads_trans; [|done]|].
    intros b' Hb'. destruct (Z.lt_ge_cases b' (k * BP)); [apply Hbelow; lia|].
    replace b' with (k * BPB + (b' - k * BP)) by (unfold BPB, BSIZE; lia).
    rewrite in_use_group by (unfold BPB, BSIZE; lia). apply negb_true_iff, Hf. lia.
Qed.

Lemma balloc_spec p s :
  cinv p s -> (length p < UNBUF)%nat -> bitmap_ok s ->
  wp balloc (balloc_post p s) no_halt s.
Proof.
  intros Hc Hlt Hbm. unfold balloc. wp_step. wp_step. wp_step.
  apply (wp_for_range (fun k s' => cinv p s' /\ reads p s s' /\
    forall b, 0 <= b < Z.min (sb_size (fs_sb s)) (k * BPB) -> in_use s b = true)); [done|apply Hbm| | |].
  - split; [done|]. split; [apply reads_refl|]. intros; lia.
  - intros k s' Hk Hlt' (Hc' & Hk' & Hu). wp_call (balloc_group p s s' k); try done.
    { intros b Hb. apply Hu. lia. }
    intros [b|] s2; [by intros; wp_step|done].
  - intros k s' Hk Hge (Hc' & Hk' & Hu). wp_step. split; [done|]. split; [apply Hk'|].
    right. split; [done|]. split; [|apply Hk']. intros b Hb. apply Hu. lia.
Qed.

(** Bits of the bitmap. *)
Lemma bit_clear_testbit d bi :
  bit_clear d bi = negb (Z.testbit (byte_at d (bi / 8)) (bi mod 8)).
Proof.
  unfold bit_clear, bit_mask. rewrite Z.shiftl_1_l.
  assert (Hm : 0 <= bi mod 8) by (by apply Z.mod_pos_bound).
  generalize dependent (bi mod 8). intros k Hk. set (x := byte_at d (bi / 8)).
  destruct (Z.testbit x k) eqn:E; cbn [negb]; [apply Z.eqb_neq|apply Z.eqb_eq].
  - intros H1%(f_equal (fun z => Z.testbit z k)).
    by rewrite Z.land_spec, E, Z.pow2_bits_true, Z.bits_0 in H1.
  - apply Z.bits_inj_0. intros j. rewrite Z.land_spec, Z.pow2_bits_eqb by done.
    destruct (Z.eqb_spec k j) as [->|]; [by rewrite E|by rewrite andb_false_r].
Qed.

Lemma byte_at_insert d i j x :
  0 <= i < Z.of_nat (length d) -> 0 <= j ->
  byte_at (<[Z.to_nat i := x]> d) j = if i =? j then x else byte_at d j.
Proof.
  intros Hi Hj. unfold byte_at. destruct (Z.eqb_spec i j) as [->|].
  - rewrite list_lookup_insert_eq by lia. done.
  - rewrite list_lookup_insert_ne by lia. done.
Qed.

(** Setting a bit sets that bit and no other. *)
Lemma bit_clear_set_bit d bi bj :
  0 <= bi < 8 * Z.of_nat (length d) -> 0 <= bj ->
  bit_clear (set_bit bi d) bj = if bi =? bj then false else bit_clear d bj.
Proof.
  intros Hbi Hbj. rewrite !bit_clear_testbit. unfold set_bit.
  rewrite byte_at_insert by (split || idtac; Z.to_euclidean_division_equations; lia).
  unfold bit_mask. rewrite Z.shiftl_1_l.
  assert (0 <= bi mod 8 /\ 0 <= bj mod 8) as [H1 H2] by (split; by apply Z.mod_pos_bound).
  destruct (Z.eqb_spec (bi / 8) (bj / 8)) as [E|E].
  - rewrite Z.lor_spec, Z.pow2_bits_eqb, E by done.
    destruct (Z.eqb_spec bi bj) as [->|Hne]; [by rewrite Z.eqb_refl, orb_true_r|].
    destruct (Z.eqb_spec (bi mod 8) (bj mod 8)) as [E'|]; [|by rewrite orb_false_r].
    exfalso. apply Hne. rewrite (Z.div_mod bi 8), (Z.div_mod bj 8) by done. congruence.
  - destruct (Z.eqb_spec bi bj) as [->|]; done.
Qed.

(** A block marked in the bitmap, and no other. *)
Lemma in_use_set p s s' r : cinv p s -> bitmap_ok s -> fs_sb s' = fs_sb s -> 0 <= r < sb_size (fs_sb s) ->
  blocks s' (BBLOCK r (fs_sb s)) = set_bit (r mod BPB) (blocks s (BBLOCK r (fs_sb s))) ->
  (forall m, 0 <= m < nblk s -> m ≠ BBLOCK r (fs_sb s) -> blocks s' m = blocks s m) ->
  forall b, 0 <= b < sb_size (fs_sb s) -> in_use s' b = if b =? r then true else in_use s b.
Proof.
  intros Hc Hbm Hsb Hr Hnew Hother b Hb. destruct (BBLOCK_ok s b Hbm Hb) as [Eb Rb], (BBLOCK_ok s r Hbm Hr) as [Er Rr].
  unfold in_use. rewrite Hsb. pose proof (blocks_length _ _ _ Hc Rr) as Hlen.
  assert (0 <= r mod BPB < BPB /\ 0 <= b mod BPB < BPB) as [Hrm Hbm'] by (split; by apply Z.mod_pos_bound).
  destruct (decide (BBLOCK b (fs_sb s) = BBLOCK r (fs_sb s))) as [E|E].
  - rewrite E, Hnew, bit_clear_set_bit by (rewrite ?Hlen; unfold BPB, BSIZE in *; lia).
    destruct (Z.eqb_spec b r) as [->|Hne]; [by rewrite Z.eqb_refl|].
    destruct (Z.eqb_spec (r mod BPB) (b mod BPB)) as [E'|]; [|done]. exfalso. apply Hne.
    rewrite (Z.div_mod b BPB), (Z.div_mod r BPB) by done. rewrite Eb, Er in E. f_equal; [f_equal|]; lia.
  - rewrite Hother by done. destruct (Z.eqb_spec b r) as [->|]; done.
Qed.
End coherence.
