(* ===== verification/FssFile.v ===== *)
(** * FssFile: inode contents in fsserver.c ([bmap], [uwritei], [ureadi]) *)
From S2P Require Import Prelude Ring FsFormat BlockDev Ipc FssCache.

Section fsserver.
Context {D : Type} `{BlockDev D}.
Implicit Types s : fss D.

Definition addr_of (ip : uinode) (bn : Z) : Z := default 0 (ui_addrs ip !! Z.to_nat bn).
Definition set_addr (bn addr : Z) (ip : uinode) : uinode :=
  ui_set_addrs (<[Z.to_nat bn := addr]> (ui_addrs ip)) ip.

(** [if((addr = ip->addrs[k]) == 0) { addr = balloc(); if(addr == 0) return 0;
    ip->addrs[k] = addr; }]; the result 0 stands for the early return. *)
Definition bmap_slot (i : nat) (k : Z) : M (fss D) Z :=
  ip ← the_inode i;
  if addr_of ip k =? 0 then
    addr ← balloc;
    if addr =? 0 then mret 0
    else modify (upd_inode i (set_addr k addr));; mret addr
  else mret (addr_of ip k).

Definition bmap (i : nat) (bn : Z) : M (fss D) Z :=
  if bn <? NDIRECT then bmap_slot i bn
  else
    let bn := u32 (bn - NDIRECT) in
    if bn <? NINDIRECT then
      addr ← bmap_slot i NDIRECT;
      if addr =? 0 then mret 0
      else
        r ← ubread ROOTDEV addr;
        match r with
        | None => mret 0
        | Some bp =>
            b ← the_ubuf bp;
            let addr := word_at (ub_data b) (Z.to_nat bn) in
            if addr =? 0 then
              addr ← balloc;
              if addr =? 0 then ubrelse bp;; mret 0
              else
                modify (upd_ubuf bp (fun b => ub_set_data (set_word (Z.to_nat bn) addr (ub_data b)) b));;
                ubwrite bp;;
                ubrelse bp;;
                mret addr
            else ubrelse bp;; mret addr
        end
    else mret 0.

(** One round of the loop of [uwritei] on [(tot, off, src)]; leaving the
    loop with [None] is [return -1], with [Some off] falling out of it. *)
Definition uwritei_step (i : nat) (n : Z) (st : Z * Z * list Z)
    : M (fss D) ((Z * Z * list Z) + option Z) :=
  let '(tot, off, src) := st in
  if tot <? n then
    addr ← bmap i (off / BSIZE);
    if addr =? 0 then mret (inr None)
    else
      r ← ubread ROOTDEV addr;
      match r with
      | None => mret (inr None)
      | Some bp =>
          let m := Z.min (n - tot) (BSIZE - off mod BSIZE) in
          if (length src <? Z.to_nat m)%nat then halt_with OutOfBounds
          else
            modify (upd_ubuf bp (fun b =>
              ub_set_data (splice (Z.to_nat (off mod BSIZE)) (take (Z.to_nat m) src) (ub_data b)) b));;
            ubwrite bp;;
            ubrelse bp;;
            mret (inl (u32 (tot + m), u32 (off + m), drop (Z.to_nat m) src))
      end
  else mret (inr (Some off)).

Definition uwritei (i : nat) (src : list Z) (off n : Z) : M (fss D) Z :=
  if u32 (off + n) <? off then mret (-1)
  else
    r ← while (S (Z.to_nat n)) (uwritei_step i n) (0, off, src);
    match r with
    | None => mret (-1)
    | Some off =>
        ip ← the_inode i;
        when ((0 <? n) && (ui_size ip <? off))
          (modify (upd_inode i (ui_set_size off));; uiupdate i);;
        mret (s32 n)
    end.

(** One round of the loop of [ureadi] on [(tot, off, dst)], [dst] being the
    bytes stored so far; the boolean says whether the loop ran to its end. *)
Definition ureadi_step (i : nat) (n : Z) (st : Z * Z * list Z)
    : M (fss D) ((Z * Z * list Z) + (bool * list Z)) :=
  let '(tot, off, dst) := st in
  if tot <? n then
    addr ← bmap i (off / BSIZE);
    if addr =? 0 then mret (inr (false, dst))
    else
      r ← ubread ROOTDEV addr;
      match r with
      | None => mret (inr (false, dst))
      | Some bp =>
          let m := Z.min (n - tot) (BSIZE - off mod BSIZE) in
          b ← the_ubuf bp;
          ubrelse bp;;
          mret (inl (u32 (tot + m), u32 (off + m),
                     dst ++ slice (Z.to_nat (off mod BSIZE)) (Z.to_nat m) (ub_data b)))
      end
  else mret (inr (true, dst)).

(** The result and the bytes stored at [dst]. *)
Definition ureadi (i : nat) (off n : Z) : M (fss D) (Z * list Z) :=
  ip ← the_inode i;
  if ui_size ip <=? off then mret (0, [])
  else
    let n := if ui_size ip <? u32 (off + n) then ui_size ip - off else n in
    r ← while (S (Z.to_nat n)) (ureadi_step i n) (0, off, []);
    mret (if r.1 : bool then s32 n else -1, r.2).
End fsserver.

(** ** Reading and writing mapped blocks *)
Section contents.
Context {D : Type} `{BlockDevLaws D}.
Implicit Types (s : fss D) (p : list nat) (ip : uinode).

(** The device block that holds block [bn] of the file, by the inode's
    direct addresses and its indirect block. *)
Definition fblock s ip (bn : Z) : Z :=
  if bn <? NDIRECT then addr_of ip bn
  else word_at (blocks s (addr_of ip NDIRECT)) (Z.to_nat (bn - NDIRECT)).

Definition on_disk s (a : Z) : Prop := a ≠ 0 /\ 0 <= a < nblk s.

(** Block [bn] of the file is allocated. *)
Definition mapped s ip (bn : Z) : Prop :=
  0 <= bn < MAXFILE /\ on_disk s (fblock s ip bn) /\
  (NDIRECT <= bn -> on_disk s (addr_of ip NDIRECT)).

(** Byte [x] of the file, and [n] bytes from [off] on. *)
Definition fbyte s ip (x : Z) : Z := byte_at (blocks s (fblock s ip (x / BSIZE))) (x mod BSIZE).
Definition fbytes s ip (off n : Z) : list Z := fbyte s ip <$> seqZ off n.

Lemma wp_the_inode i ip s (Q : uinode -> fss D -> Prop) E :
  fs_inodes s !! i = Some ip -> Q ip s -> wp (the_inode i) Q E s.
Proof. intros Hi HQ. unfold the_inode. wp_step. wp_step. by eapply wp_of_option. Qed.

Lemma bmap_slot_mapped i k ip s (Q : Z -> fss D -> Prop) E :
  fs_inodes s !! i = Some ip -> addr_of ip k ≠ 0 -> Q (addr_of ip k) s ->
  wp (bmap_slot i k) Q E s.
Proof.
  intros Hi Hk HQ. unfold bmap_slot. wp_step. eapply wp_the_inode; [done|].
  rewrite (proj2 (Z.eqb_neq _ _) Hk). by wp_step.
Qed.

(** On an allocated block [bmap] only looks the address up. *)
Lemma bmap_mapped p s i ip bn :
  cinv p s -> (length p < UNBUF)%nat -> fs_inodes s !! i = Some ip -> mapped s ip bn ->
  wp (bmap i bn) (fun r s' => r = fblock s ip bn /\ cinv p s' /\ reads p s s') no_halt s.
Proof.
  intros Hc Hlt Hi (Hbn & [Hnz Hr] & Hind). unfold bmap, fblock in *.
  destruct (Z.ltb_spec bn NDIRECT) as [|Hge].
  { eapply bmap_slot_mapped; [done..|]. split_and!; [done..|apply reads_refl]. }
  destruct (Hind Hge) as [Hinz Hir]. unfold MAXFILE in Hbn.
  rewrite u32_id by (change NINDIRECT with 128 in *; change NDIRECT with 12 in *; split; lia).
  rewrite (proj2 (Z.ltb_lt (bn - NDIRECT) NINDIRECT)) by lia.
  wp_step. eapply bmap_slot_mapped; [done..|]. rewrite (proj2 (Z.eqb_neq _ _) Hinz).
  wp_step. wp_call (ubread_spec p s); [done..|].
  intros ? s1 (bp & -> & Hc1 & Hp1 & Hk1). cbv beta iota.
  destruct (pinned_data _ _ _ _ Hc1 Hp1) as (b & Hb & Hd & _).
  wp_step. eapply wp_the_ubuf; [done|]. rewrite Hd, (proj2 Hk1) by done.
  rewrite (proj2 (Z.eqb_neq _ _) Hnz). wp_step. wp_call (ubrelse_spec bp _ p p s1); [done..|].
  intros _ s2 (Hc2 & Hk2). wp_step. split; [done|]. split; [done|]. by eapply reads_trans.
Qed.

(** Addresses depend on the blocks only through the indirect block. *)
Lemma fblock_eq s s' ip bn :
  blocks_eq s s' -> (NDIRECT <= bn -> on_disk s (addr_of ip NDIRECT)) ->
  fblock s' ip bn = fblock s ip bn.
Proof.
  intros He Hi. unfold fblock. destruct (Z.ltb_spec bn NDIRECT) as [|Hge]; [done|].
  rewrite He; [done|]. by apply Hi.
Qed.

Lemma mapped_eq p s s' ip bn : reads p s s' -> mapped s ip bn -> mapped s' ip bn.
Proof.
  intros Hr (H1 & H2 & H3). unfold mapped. rewrite (fblock_eq s s') by (done || apply Hr).
  unfold on_disk in *. by rewrite (reads_size _ _ _ Hr).
Qed.

(** A run of bytes inside one block. *)
Lemma fbytes_block p s ip off m :
  cinv p s -> mapped s ip (off / BSIZE) -> 0 <= off -> 0 <= m <= BSIZE - off mod BSIZE ->
  slice (Z.to_nat (off mod BSIZE)) (Z.to_nat m) (blocks s (fblock s ip (off / BSIZE)))
  = fbytes s ip off m.
Proof.
  intros Hc (_ & [_ Hr] & _) Hoff Hm. pose proof (blocks_length _ _ _ Hc Hr) as Hl.
  assert (0 <= off mod BSIZE < BSIZE) by (by apply Z.mod_pos_bound). unfold BSIZE in *.
  apply list_eq. intros k. unfold fbytes. rewrite list_lookup_fmap.
  destruct (decide (k < Z.to_nat m)%nat) as [Hk|Hk].
  - rewrite lookup_slice, lookup_seqZ_lt by lia. cbn. unfold fbyte, byte_at, BSIZE.
    replace ((off + Z.of_nat k) / 512) with (off / 512) by (Z.to_euclidean_division_equations; lia).
    replace (Z.to_nat ((off + Z.of_nat k) mod 512)) with (Z.to_nat (off mod 512) + k)%nat
      by (Z.to_euclidean_division_equations; lia).
    destruct (lookup_lt_is_Some_2 (blocks s (fblock s ip (off / 512))) (Z.to_nat (off mod 512) + k)) as [x ->];
      [lia|done].
  - rewrite lookup_seqZ_ge by lia. cbn. unfold slice. apply lookup_take_ge. lia.
Qed.

Lemma fbytes_app s ip off n m :
  0 <= n -> 0 <= m -> fbytes s ip off (n + m) = fbytes s ip off n ++ fbytes s ip (off + n) m.
Proof. intros. unfold fbytes. by rewrite seqZ_app, fmap_app by lia. Qed.

Lemma fbyte_eq s s' ip x :
  blocks_eq s s' -> mapped s ip (x / BSIZE) -> fbyte s' ip x = fbyte s ip x.
Proof.
  intros He (H1 & [H2 H2'] & H3). unfold fbyte. rewrite (fblock_eq s s'), He by done. done.
Qed.

(** One round of [ureadi] copies the bytes up to the next block boundary. *)
Lemma ureadi_step_ok p s0 s i ip off n tot :
  cinv p s -> (length p < UNBUF)%nat -> fs_inodes s0 !! i = Some ip -> reads p s0 s ->
  0 <= off -> 0 <= tot < n -> off + n < 2 ^ 32 ->
  (forall x, off <= x < off + n -> mapped s0 ip (x / BSIZE)) ->
  wp (ureadi_step i n (tot, off + tot, fbytes s0 ip off tot))
     (fun r s' => cinv p s' /\ reads p s0 s' /\
        exists tot', tot < tot' <= n /\ r = inl (tot', off + tot', fbytes s0 ip off tot')) no_halt s.
Proof.
  intros Hc Hlt Hi Hk Hoff Htot Hmax Hmap.
  assert (Hm0 : mapped s0 ip ((off + tot) / BSIZE)) by (apply Hmap; lia).
  pose proof (mapped_eq _ _ _ _ _ Hk Hm0) as Hm.
  unfold ureadi_step. rewrite (proj2 (Z.ltb_lt _ _) (proj2 Htot)).
  wp_step. wp_call (bmap_mapped p s i ip); [done..|by rewrite (kp_inodes _ _ _ (proj1 Hk))|done|].
  intros ? s1 (-> & Hc1 & Hk1). pose proof Hm as (_ & [Hnz Hr] & _).
  rewrite (proj2 (Z.eqb_neq _ _) Hnz). wp_step.
  wp_call (ubread_spec p s1); [done..|by rewrite (reads_size _ _ _ Hk1)|].
  intros ? s2 (bp & -> & Hc2 & Hp2 & Hk2). cbv beta iota.
  destruct (pinned_data _ _ _ _ Hc2 Hp2) as (b & Hb & Hd & _). wp_step. eapply wp_the_ubuf; [done|].
  wp_step. wp_call (ubrelse_spec bp _ p p s2); [done..|]. intros _ s3 (Hc3 & Hk3). wp_step.
  pose proof (reads_trans _ _ _ _ Hk1 Hk2) as Hk02.
  rewrite Hd, (proj2 Hk02) by done.
  assert (0 <= (off + tot) mod BSIZE < BSIZE) by (by apply Z.mod_pos_bound).
  set (m := Z.min (n - tot) (BSIZE - (off + tot) mod BSIZE)).
  split; [done|]. split; [by do 2 (eapply reads_trans; [done|])|]. exists (tot + m).
  assert (1 <= m <= n - tot) by lia. split; [lia|].
  rewrite !u32_id by (unfold is_u32; lia). rewrite Z.add_assoc. do 3 f_equal.
  rewrite fbytes_app by lia. f_equal. rewrite (fbytes_block p) by (done || lia).
  apply list_fmap_ext. intros k x Hx. apply lookup_seqZ in Hx as [-> Hx].
  apply fbyte_eq; [apply Hk|]. apply Hmap. lia.
Qed.

(** [ureadi] returns the bytes of the file from [off] on, cut at its size. *)
Lemma ureadi_spec p s i ip off n :
  cinv p s -> (length p < UNBUF)%nat -> fs_inodes s !! i = Some ip -> is_u32 (ui_size ip) ->
  0 <= off -> 0 <= n < 2 ^ 31 -> off + n < 2 ^ 32 ->
  (forall x, off <= x < Z.min (off + n) (ui_size ip) -> mapped s ip (x / BSIZE)) ->
  let k := Z.max 0 (Z.min n (ui_size ip - off)) in
  wp (ureadi i off n)
     (fun r s' => r = (k, fbytes s ip off k) /\ cinv p s' /\ reads p s s') no_halt s.
Proof.
  intros Hc Hlt Hi Hsz Hoff Hn Hmax Hmap k. unfold ureadi. wp_step. eapply wp_the_inode; [done|].
  destruct (Z.leb_spec (ui_size ip) off).
  { wp_step. replace k with 0 by lia. split_and!; [done..|apply reads_refl]. }
  rewrite u32_id by (unfold is_u32; lia).
  assert ((if ui_size ip <? off + n then ui_size ip - off else n) = k) as ->.
  { destruct (Z.ltb_spec (ui_size ip) (off + n)); lia. }
  wp_step. eapply (wp_while
    (fun st s' => exists tot, st = (tot, off + tot, fbytes s ip off tot) /\ 0 <= tot <= k /\
                  cinv p s' /\ reads p s s')
    (fun st => Z.to_nat (k - st.1.1))).
  - exists 0. rewrite Z.add_0_r. split_and!; [done|lia|lia|done|apply reads_refl].
  - cbn. lia.
  - intros st s' (tot & -> & Htot & Hc' & Hr'). destruct (decide (tot = k)) as [->|].
    + unfold ureadi_step. rewrite Z.ltb_irrefl. wp_step. wp_step. cbn [fst snd].
      rewrite s32_id by (unfold is_s32; lia). done.
    + wp_call (ureadi_step_ok p s s' i ip off k tot); try done; [lia|lia|..].
      { intros x Hx. apply Hmap. lia. }
      intros ? s2 (Hc2 & Hr2 & tot' & Htot' & ->). split; [|cbn; lia]. exists tot'.
      split_and!; [done|lia|lia|done|done].
Qed.

(** The first [nb] blocks of the file are allocated, to distinct blocks
    that are not the indirect block. *)
Record layout s ip (nb : Z) : Prop := mkLayout {
  lay_mapped : forall bn, 0 <= bn < nb -> mapped s ip bn;
  lay_inj : forall a b, 0 <= a < nb -> 0 <= b < nb -> fblock s ip a = fblock s ip b -> a = b;
  lay_ind : forall bn, 0 <= bn < nb -> NDIRECT < nb -> fblock s ip bn ≠ addr_of ip NDIRECT;
}.

Definition not_of_file s ip (nb m : Z) : Prop := forall bn, 0 <= bn < nb -> m ≠ fblock s ip bn.

(** [s'] is [s] with the bytes [src] stored in the file at [off]. *)
Record wrote s s' ip (nb off : Z) (src : list Z) : Prop := mkWrote {
  wr_block : forall bn, 0 <= bn < nb -> fblock s' ip bn = fblock s ip bn;
  wr_byte : forall x, 0 <= x < nb * BSIZE ->
    fbyte s' ip x = if (off <=? x) && (x <? off + Z.of_nat (length src))
                    then byte_at src (x - off) else fbyte s ip x;
  wr_frame : forall m, 0 <= m < nblk s -> not_of_file s ip nb m -> blocks s' m = blocks s m;
}.

Lemma wrote_nil p s s' ip nb off :
  reads p s s' -> layout s ip nb -> wrote s s' ip nb off [].
Proof.
  intros Hr Hl. constructor.
  - intros bn Hbn. apply fblock_eq; [apply Hr|by apply Hl].
  - intros x Hx. cbn [length]. destruct (Z.leb_spec off x), (Z.ltb_spec x (off + Z.of_nat 0));
      try lia; cbn [andb]; apply fbyte_eq; try apply Hr; apply Hl; unfold BSIZE in *;
      Z.to_euclidean_division_equations; lia.
  - intros m Hm _. by apply Hr.
Qed.

Lemma layout_wrote s s' ip nb off src :
  wrote s s' ip nb off src -> nblk s' = nblk s -> layout s ip nb -> layout s' ip nb.
Proof.
  intros Hw Hn Hl. constructor.
  - intros bn Hbn. destruct (lay_mapped _ _ _ Hl bn Hbn) as (H1 & H2 & H3).
    unfold mapped, on_disk in *. by rewrite (wr_block _ _ _ _ _ _ Hw), Hn by done.
  - intros a b Ha Hb. rewrite !(wr_block _ _ _ _ _ _ Hw) by done. by apply Hl.
  - intros bn Hbn. rewrite (wr_block _ _ _ _ _ _ Hw) by done. by apply Hl.
Qed.

(** Storing into one block of the file. *)
Lemma wrote_block p s s' ip nb off d :
  cinv p s -> layout s ip nb -> 0 <= off -> off / BSIZE < nb ->
  off mod BSIZE + Z.of_nat (length d) <= BSIZE ->
  let a := fblock s ip (off / BSIZE) in
  blocks s' a = splice (Z.to_nat (off mod BSIZE)) d (blocks s a) ->
  (forall m, 0 <= m < nblk s -> m ≠ a -> blocks s' m = blocks s m) ->
  wrote s s' ip nb off d.
Proof.
  intros Hc Hl Hoff Hnb Hd a Ha Hother.
  assert (Hbn : 0 <= off / BSIZE < nb) by (split; [by apply Z.div_pos|done]).
  assert (0 <= off mod BSIZE < BSIZE) by (by apply Z.mod_pos_bound).
  pose proof (lay_mapped _ _ _ Hl _ Hbn) as (_ & [_ Har] & _). fold a in Har.
  pose proof (blocks_length _ _ _ Hc Har) as Hlen.
  assert (Hfb : forall bn, 0 <= bn < nb -> fblock s' ip bn = fblock s ip bn).
  { intros bn Hb. unfold fblock. destruct (Z.ltb_spec bn NDIRECT); [done|].
    pose proof (lay_mapped _ _ _ Hl _ Hb) as (_ & _ & Hi). destruct (Hi ltac:(done)).
    rewrite Hother; [done|done|]. intros E. by apply (lay_ind _ _ _ Hl (off / BSIZE)); [|lia|]. }
  constructor; [done| |].
  - intros x Hx. assert (Hxb : 0 <= x / BSIZE < nb).
    { unfold BSIZE in *. split; Z.to_euclidean_division_equations; lia. }
    pose proof (lay_mapped _ _ _ Hl _ Hxb) as (_ & [_ Hxr] & _).
    unfold fbyte. rewrite Hfb by done. destruct (decide (x / BSIZE = off / BSIZE)) as [E|E].
    + rewrite E. fold a. rewrite Ha. unfold byte_at, BSIZE in *.
      destruct (Z.leb_spec off x), (Z.ltb_spec x (off + Z.of_nat (length d))); cbn [andb];
        [|rewrite lookup_splice_out; [done|..]; Z.to_euclidean_division_equations; lia..].
      rewrite lookup_splice_in by (Z.to_euclidean_division_equations; lia).
      do 2 f_equal. Z.to_euclidean_division_equations; lia.
    + rewrite Hother; [|done|].
      * destruct (Z.leb_spec off x), (Z.ltb_spec x (off + Z.of_nat (length d))); cbn [andb]; try done.
        exfalso. apply E. unfold BSIZE in *. Z.to_euclidean_division_equations; lia.
      * intros E'. by apply E, (lay_inj _ _ _ Hl).
  - intros m Hm Hnf. apply Hother; [done|by apply Hnf].
Qed.

Lemma byte_at_app d1 d2 k :
  0 <= k -> byte_at (d1 ++ d2) k = if k <? Z.of_nat (length d1) then byte_at d1 k
                                   else byte_at d2 (k - Z.of_nat (length d1)).
Proof.
  intros Hk. unfold byte_at. destruct (Z.ltb_spec k (Z.of_nat (length d1))).
  - rewrite lookup_app_l by lia. done.
  - rewrite lookup_app_r by lia. do 2 f_equal. lia.
Qed.

Lemma wrote_app s0 s s' ip nb off d1 d2 :
  nblk s = nblk s0 -> wrote s0 s ip nb off d1 ->
  wrote s s' ip nb (off + Z.of_nat (length d1)) d2 -> wrote s0 s' ip nb off (d1 ++ d2).
Proof.
  intros Hn H1 H2. constructor.
  - intros bn Hbn. by rewrite (wr_block _ _ _ _ _ _ H2), (wr_block _ _ _ _ _ _ H1).
  - intros x Hx. rewrite (wr_byte _ _ _ _ _ _ H2), (wr_byte _ _ _ _ _ _ H1) by done.
    rewrite length_app, Nat2Z.inj_add.
    destruct (Z.leb_spec off x); cbn [andb].
    + rewrite byte_at_app by lia.
      destruct (Z.leb_spec (off + Z.of_nat (length d1)) x),
        (Z.ltb_spec x (off + Z.of_nat (length d1) + Z.of_nat (length d2))),
        (Z.ltb_spec x (off + Z.of_nat (length d1))),
        (Z.ltb_spec x (off + (Z.of_nat (length d1) + Z.of_nat (length d2)))),
        (Z.ltb_spec (x - off) (Z.of_nat (length d1))); cbn [andb]; try lia; try done.
      f_equal. lia.
    + destruct (Z.leb_spec (off + Z.of_nat (length d1)) x); [lia|done].
  - intros m Hm Hnf. rewrite (wr_frame _ _ _ _ _ _ H2), (wr_frame _ _ _ _ _ _ H1); try done.
    + by rewrite Hn.
    + intros bn Hbn. rewrite (wr_block _ _ _ _ _ _ H1) by done. by apply Hnf.
Qed.

Lemma wrote_reads p s0 s s' ip nb off d :
  nblk s = nblk s0 -> layout s ip nb -> wrote s0 s ip nb off d -> reads p s s' ->
  wrote s0 s' ip nb off d.
Proof.
  intros Hn Hl Hw Hr. rewrite <- (app_nil_r d). eapply wrote_app; [done..|]. by eapply wrote_nil.
Qed.

(** One round of [uwritei] stores the bytes up to the next block boundary. *)
Lemma uwritei_step_ok p s0 s i ip nb off n tot src :
  cinv p s -> (length p < UNBUF)%nat -> fs_inodes s0 !! i = Some ip -> keeps p s0 s ->
  layout s0 ip nb -> wrote s0 s ip nb off (take (Z.to_nat tot) src) ->
  0 <= off -> 0 <= tot < n -> n <= Z.of_nat (length src) -> off + n < 2 ^ 32 ->
  off + n <= nb * BSIZE ->
  wp (uwritei_step i n (tot, off + tot, drop (Z.to_nat tot) src))
     (fun r s' => cinv p s' /\ keeps p s0 s' /\
        exists tot', tot < tot' <= n /\ r = inl (tot', off + tot', drop (Z.to_nat tot') src) /\
          wrote s0 s' ip nb off (take (Z.to_nat tot') src)) no_halt s.
Proof.
  intros Hc Hlt Hi Hk Hl0 Hw Hoff Htot Hsrc Hmax Hnb.
  pose proof (layout_wrote _ _ _ _ _ _ Hw (kp_size _ _ _ Hk) Hl0) as Hl.
  assert (Hbn : 0 <= (off + tot) / BSIZE < nb)
    by (unfold BSIZE in *; Z.to_euclidean_division_equations; lia).
  pose proof (lay_mapped _ _ _ Hl _ Hbn) as Hm.
  unfold uwritei_step. rewrite (proj2 (Z.ltb_lt _ _) (proj2 Htot)).
  wp_step. wp_call (bmap_mapped p s i ip); [done..|by rewrite (kp_inodes _ _ _ Hk)|done|].
  intros ? s1 (-> & Hc1 & Hk1). pose proof Hm as (_ & [Hnz Hr] & _).
  rewrite (proj2 (Z.eqb_neq _ _) Hnz). wp_step.
  wp_call (ubread_spec p s1); [done..|by rewrite (reads_size _ _ _ Hk1)|].
  intros ? s2 (bp & -> & Hc2 & Hp2 & Hk2). cbv beta iota.
  assert (0 <= (off + tot) mod BSIZE < BSIZE) by (by apply Z.mod_pos_bound).
  set (m := Z.min (n - tot) (BSIZE - (off + tot) mod BSIZE)).
  assert (Hmb : 1 <= m <= n - tot) by lia.
  rewrite length_drop, (proj2 (Nat.ltb_ge _ _)) by lia.
  set (d := take (Z.to_nat m) (drop (Z.to_nat tot) src)).
  assert (Hd : Z.of_nat (length d) = m) by (unfold d; rewrite length_take, length_drop; lia).
  pose proof (reads_trans _ _ _ _ Hk1 Hk2) as Hk02.
  pose proof (blocks_length _ _ _ Hc Hr) as Hlen.
  wp_step. wp_step. wp_step.
  wp_call (ubwrite_spec bp _ (bp :: p) (bp :: p) s2 (splice (Z.to_nat ((off + tot) mod BSIZE)) d)); [done..| |].
  { rewrite (proj2 Hk02) by done. rewrite length_splice; [done|]. unfold BSIZE in *. lia. }
  intros _ s3 (Hc3 & Hk3 & Hnew & Hother). wp_step.
  wp_call (ubrelse_spec bp _ p p s3); [done|done|by eapply kp_pinned; [|left|]|].
  intros _ s4 (Hc4 & Hk4). wp_step. split; [done|].
  assert (Hk03 : keeps p s0 s3).
  { eapply keeps_trans; [exact Hk|]. eapply keeps_trans; [apply Hk02|].
    eapply keeps_sub; [|exact Hk3]. set_solver. }
  split; [by eapply keeps_trans; [|apply Hk4]|]. exists (tot + m). split; [lia|].
  rewrite !u32_id by (unfold is_u32; lia). rewrite Z.add_assoc, drop_drop.
  replace (Z.to_nat tot + Z.to_nat m)%nat with (Z.to_nat (tot + m)) by lia. split; [done|].
  replace (take (Z.to_nat (tot + m)) src) with (take (Z.to_nat tot) src ++ d).
  2: { unfold d. rewrite take_take_drop. f_equal. lia. }
  assert (Hw1 : wrote s s3 ip nb (off + tot) d).
  { apply (wrote_block p); try done; [lia|lia|lia|by rewrite Hnew, (proj2 Hk02)|].
    intros k Hkr Hne. rewrite Hother, (proj2 Hk02); try done. by rewrite (reads_size _ _ _ Hk02). }
  eapply wrote_app; [apply Hk|done|].
  rewrite length_take, Nat.min_l, Z2Nat.id by lia.
  assert (Hn3 : nblk s3 = nblk s) by (rewrite (kp_size _ _ _ Hk3), (reads_size _ _ _ Hk02); done).
  eapply wrote_reads; [exact Hn3| |exact Hw1|done]. by eapply layout_wrote.
Qed.

(** [uiupdate] stores the inode in its slot of its inode block. *)
Lemma uiupdate_spec p s i ip :
  cinv p s -> (length p < UNBUF)%nat -> fs_inodes s !! i = Some ip -> ui_dev ip = ROOTDEV ->
  length (ui_addrs ip) = 13%nat ->
  let ib := IBLOCK (ui_inum ip) (fs_sb s) in
  0 <= ib < nblk s ->
  wp (uiupdate i)
     (fun _ s' => cinv p s' /\ keeps p s s' /\
        blocks s' ib = set_dinode (ui_inum ip) (ui_dinode ip) (blocks s ib) /\
        forall m, 0 <= m < nblk s -> m ≠ ib -> blocks s' m = blocks s m) no_halt s.
Proof.
  intros Hc Hlt Hi Hdev Hlen ib Hib. unfold uiupdate. wp_step. eapply wp_the_inode; [done|].
  wp_step. wp_step. rewrite Hdev. wp_step. wp_call (ubread_spec p s); [done..|].
  intros ? s1 (bp & -> & Hc1 & Hp1 & Hk1). cbv beta iota. fold ib in Hp1.
  wp_step. wp_step. wp_step.
  wp_call (ubwrite_spec bp _ (bp :: p) (bp :: p) s1 (set_dinode (ui_inum ip) (ui_dinode ip))); [done..| |].
  { apply length_set_dinode; [done|]. rewrite (proj2 Hk1) by done. by eapply blocks_length. }
  intros _ s2 (Hc2 & Hk2 & Hnew & Hother).
  wp_call (ubrelse_spec bp _ p p s2); [done|done|by eapply kp_pinned; [|left|]|].
  intros _ s3 (Hc3 & Hk3). pose proof (reads_size _ _ _ Hk1) as Hn1.
  pose proof (kp_size _ _ _ Hk2) as Hn2. split; [done|]. split.
  { eapply keeps_trans; [apply Hk1|]. eapply keeps_trans; [|apply Hk3].
    eapply keeps_sub; [|exact Hk2]. set_solver. }
  split.
  - rewrite (proj2 Hk3), Hnew, (proj2 Hk1) by (rewrite ?Hn2, ?Hn1; done). done.
  - intros m Hm Hne. rewrite (proj2 Hk3), Hother, (proj2 Hk1) by (rewrite ?Hn2, ?Hn1; done). done.
Qed.

(** The inode block of the file is on the device and is not a block of the
    file itself. *)
Definition inode_apart s ip nb : Prop :=
  let ib := IBLOCK (ui_inum ip) (fs_sb s) in
  ui_dev ip = ROOTDEV /\ length (ui_addrs ip) = 13%nat /\ 0 <= ib < nblk s /\
  not_of_file s ip nb ib /\ ib ≠ addr_of ip NDIRECT.

Lemma wrote_outside s0 s s' ip nb off d ib :
  nblk s = nblk s0 -> layout s ip nb -> wrote s0 s ip nb off d -> 
  not_of_file s0 ip nb ib -> ib ≠ addr_of ip NDIRECT ->
  (forall m, 0 <= m < nblk s -> m ≠ ib -> blocks s' m = blocks s m) ->
  (forall bn, 0 <= bn < nb -> fblock s' ip bn = fblock s0 ip bn) /\
  forall x, 0 <= x < nb * BSIZE -> fbyte s' ip x = fbyte s ip x.
Proof.
  intros Hn Hl Hw Hnf Hni Hm.
  assert (Hfb : forall bn, 0 <= bn < nb -> fblock s' ip bn = fblock s ip bn).
  { intros bn Hb. unfold fblock. destruct (Z.ltb_spec bn NDIRECT) as [|Hge]; [done|].
    destruct (lay_mapped _ _ _ Hl _ Hb) as (_ & _ & Hi). destruct (Hi Hge).
    rewrite Hm; [done|done|]. by intros E. }
  split; [intros bn Hb; rewrite Hfb by done; by apply Hw|].
  intros x Hx. assert (Hb : 0 <= x / BSIZE < nb).
  { unfold BSIZE in *. Z.to_euclidean_division_equations; lia. }
  unfold fbyte. rewrite Hfb by done. rewrite Hm; [done|by apply Hl|].
  rewrite (wr_block _ _ _ _ _ _ Hw) by done. intros E. by apply (Hnf (x / BSIZE)).
Qed.

Lemma cinv_inodes p s v : cinv p s -> cinv p (set_inodes v s).
Proof. by intros []. Qed.

Lemma wp_upd_inode i f ip s (Q : unit -> fss D -> Prop) E :
  fs_inodes s !! i = Some ip -> Q tt (set_inodes (<[i := f ip]> (fs_inodes s)) s) ->
  wp (modify (upd_inode i f)) Q E s.
Proof. intros Hi HQ. apply wp_modify. unfold upd_inode. by rewrite (alter_as_insert f i ip). Qed.

(** The file and the rest of the server after a write. *)
Record written s s' (i : nat) ip (nb off n : Z) (src : list Z) : Prop := mkWritten {
  wn_inodes : fs_inodes s' = <[i := ui_set_size (Z.max (ui_size ip) (off + n)) ip]> (fs_inodes s);
  wn_bytes : forall x, 0 <= x < nb * BSIZE ->
    fbyte s' ip x = if (off <=? x) && (x <? off + n) then byte_at src (x - off) else fbyte s ip x;
  wn_block : forall bn, 0 <= bn < nb -> fblock s' ip bn = fblock s ip bn;
  wn_frame : forall m, 0 <= m < nblk s -> not_of_file s ip nb m ->
    m ≠ IBLOCK (ui_inum ip) (fs_sb s) -> blocks s' m = blocks s m;
  wn_rest : fs_sb s' = fs_sb s /\ fs_fdt s' = fs_fdt s /\ fs_fdi s' = fs_fdi s /\
            fs_sent s' = fs_sent s /\ nblk s' = nblk s;
}.

(** What the loop of [uwritei] leaves, before the size is updated. *)
Lemma uwritei_loop_ok p s i ip nb off n src :
  cinv p s -> (length p < UNBUF)%nat -> fs_inodes s !! i = Some ip ->
  layout s ip nb -> 0 <= off -> 0 <= n -> n <= Z.of_nat (length src) -> off + n < 2 ^ 32 ->
  off + n <= nb * BSIZE ->
  wp (while (S (Z.to_nat n)) (uwritei_step i n) (0, off, src))
     (fun r s' => r = Some (off + n) /\ cinv p s' /\ keeps p s s' /\
                  wrote s s' ip nb off (take (Z.to_nat n) src)) no_halt s.
Proof.
  intros Hc Hlt Hi Hl Hoff Hn Hsrc Hmax Hnb. eapply (wp_while
    (fun st s' => exists tot, st = (tot, off + tot, drop (Z.to_nat tot) src) /\ 0 <= tot <= n /\
       cinv p s' /\ keeps p s s' /\ wrote s s' ip nb off (take (Z.to_nat tot) src))
    (fun st => Z.to_nat (n - st.1.1))).
  - exists 0. rewrite Z.add_0_r. split_and!; [done|lia|lia|done|apply keeps_refl|].
    by eapply (wrote_nil p), Hl; apply reads_refl.
  - cbn. lia.
  - intros st s' (tot & -> & Htot & Hc' & Hk' & Hw'). destruct (decide (tot = n)) as [->|].
    + unfold uwritei_step. rewrite Z.ltb_irrefl. by wp_step.
    + wp_call (uwritei_step_ok p s s' i ip nb off n tot src); try done; [lia|].
      intros ? s2 (Hc2 & Hk2 & tot' & Htot' & -> & Hw2). split; [|cbn; lia]. exists tot'.
      split_and!; [done|lia|lia|done..].
Qed.

(** [uwritei] on allocated blocks stores exactly the [n] bytes. *)
Lemma uwritei_spec p s i ip nb off n src :
  cinv p s -> (length p < UNBUF)%nat -> fs_inodes s !! i = Some ip ->
  layout s ip nb -> inode_apart s ip nb -> 0 <= off -> 0 <= n < 2 ^ 31 ->
  n <= Z.of_nat (length src) -> off + n < 2 ^ 32 -> off + n <= nb * BSIZE -> 
  (n = 0 -> off <= ui_size ip) ->
  wp (uwritei i src off n)
     (fun r s' => r = n /\ cinv p s' /\ written s s' i ip nb off n src) no_halt s.
Proof.
  intros Hc Hlt Hi Hl (Hdev & H13 & Hib & Hnf & Hni) Hoff Hn Hsrc Hmax Hnb Hz. unfold uwritei.
  rewrite u32_id, (proj2 (Z.ltb_ge _ _)) by (unfold is_u32; lia).
  wp_step. wp_call (uwritei_loop_ok p s i ip nb off n src); try done; [lia|].
  intros ? s1 (-> & Hc1 & Hk1 & Hw1). cbv beta iota.
  assert (Hi1 : fs_inodes s1 !! i = Some ip) by (by rewrite (kp_inodes _ _ _ Hk1)).
  pose proof (kp_size _ _ _ Hk1) as Hn1.
  assert (Hb1 : forall x, 0 <= x < nb * BSIZE -> fbyte s1 ip x =
            if (off <=? x) && (x <? off + n) then byte_at src (x - off) else fbyte s ip x).
  { intros x Hx. rewrite (wr_byte _ _ _ _ _ _ Hw1) by done.
    rewrite length_take, Nat.min_l, Z2Nat.id by lia. unfold byte_at.
    destruct (Z.leb_spec off x), (Z.ltb_spec x (off + n)); cbn [andb]; try done.
    by rewrite lookup_take_lt by lia. }
  wp_step. eapply wp_the_inode; [done|]. wp_step. rewrite s32_id by (unfold is_s32; lia).
  destruct (Z.ltb_spec 0 n) as [Hn0|Hn0], (Z.ltb_spec (ui_size ip) (off + n)) as [Hs|Hs]; cbn [andb].
  2,3,4: wp_step; wp_step; wp_step; split; [done|]; split; [done|];
    constructor; [|done|apply Hw1|intros; by apply Hw1|by destruct Hk1];
    rewrite (kp_inodes _ _ _ Hk1), Z.max_l by lia; destruct ip; by rewrite list_insert_id.
  wp_step. wp_step. eapply wp_upd_inode; [done|].
  set (ip' := ui_set_size (off + n) ip). set (s2 := set_inodes _ s1).
  assert (Hi2 : fs_inodes s2 !! i = Some ip') by (apply list_lookup_insert_eq; by eapply lookup_lt_Some).
  assert (Eib : IBLOCK (ui_inum ip') (fs_sb s2) = IBLOCK (ui_inum ip) (fs_sb s))
    by (cbn; by rewrite (kp_sb _ _ _ Hk1)).
  wp_call (uiupdate_spec p s2 i ip'); try done; [by apply cinv_inodes| |].
  { rewrite Eib. change (nblk s2) with (nblk s1). by rewrite Hn1. }
  intros _ s3 (Hc3 & Hk3 & _ & Hother). rewrite Eib in Hother. wp_step.
  destruct (wrote_outside s s1 s3 ip nb off _ _ Hn1 (layout_wrote _ _ _ _ _ _ Hw1 Hn1 Hl) Hw1 Hnf Hni Hother)
    as [Hfb3 Hby3].
  change (nblk s2) with (nblk s1) in Hother. rewrite Hn1 in Hother.
  split; [done|]. split; [done|]. constructor.
  - rewrite (kp_inodes _ _ _ Hk3), Z.max_r by lia. cbn. by rewrite (kp_inodes _ _ _ Hk1).
  - intros x Hx. rewrite Hby3 by done. by apply Hb1.
  - done.
  - intros m Hm Hm1 Hm2. rewrite Hother by done. by apply Hw1.
  - destruct Hk1, Hk3. unfold nblk in *. cbn in *. split_and!; congruence.
Qed.
End contents.
