(* ===== verification/FssGrow.v ===== *)
(** * FssGrow: writing that allocates blocks in fsserver.c

    [uwritei] on any file of a consistent file system: blocks that the file
    has are reused, missing ones are taken from the bitmap, and the call fails
    only when the disk is full or the file would exceed [MAXFILE] blocks. *)
From S2P Require Import Prelude Ring FsFormat BlockDev Ipc FssCache FssFile.

(** ** Consistency *)
Section consistency.
Context {D : Type} `{BlockDevLaws D}.
Implicit Types (s : fss D) (p : list nat) (ip : uinode).
(** Whether a write reaches past the direct blocks. *)
Context (big : Prop).

Definition bitmap_block s (m : Z) : Prop := exists b, 0 <= b < sb_size (fs_sb s) /\ m = BBLOCK b (fs_sb s).
Definition meta s ip (m : Z) : Prop := m = 0 \/ m = IBLOCK (ui_inum ip) (fs_sb s) \/ bitmap_block s m.
Definition held s (m : Z) : Prop := 0 <= m < sb_size (fs_sb s) /\ in_use s m = true.
Definition full s : Prop := forall b, 0 <= b < sb_size (fs_sb s) -> in_use s b = true.

(** Blocks that are free are zero, as mkfs leaves them. *)
Definition free_zero s : Prop := forall b, 0 <= b < sb_size (fs_sb s) -> in_use s b = false -> blocks s b = replicate 512 0.

(** The file [ip] has its first [nb] blocks and no others; its blocks, the
    inode block and the bitmap are marked in use and do not overlap.  A new
    indirect block is not cleared by the server, so one that has to be taken
    for this write must be zero already. *)
Record sound s ip (nb : Z) : Prop := mkSound {
  so_nb : 0 <= nb <= MAXFILE;
  so_bitmap : bitmap_ok s /\ sb_size (fs_sb s) <= Z.min (nblk s) (2 ^ 32);
  so_inode : ui_dev ip = ROOTDEV /\ length (ui_addrs ip) = 13%nat /\ ~ bitmap_block s (IBLOCK (ui_inum ip) (fs_sb s));
  so_meta : forall m, meta s ip m -> held s m;
  so_file : forall bn, 0 <= bn < nb -> held s (fblock s ip bn) /\ ~ meta s ip (fblock s ip bn);
  so_inj : forall a b, 0 <= a < nb -> 0 <= b < nb -> fblock s ip a = fblock s ip b -> a = b;
  so_ind : addr_of ip NDIRECT ≠ 0 -> held s (addr_of ip NDIRECT) /\ ~ meta s ip (addr_of ip NDIRECT) /\ not_of_file s ip nb (addr_of ip NDIRECT);
  so_has : NDIRECT < nb -> addr_of ip NDIRECT ≠ 0;
  so_rest : forall bn, nb <= bn < MAXFILE -> bn < NDIRECT \/ addr_of ip NDIRECT ≠ 0 -> fblock s ip bn = 0;
  so_zero : big -> addr_of ip NDIRECT = 0 -> free_zero s;
}.

Lemma held_range s ip nb m : sound s ip nb -> held s m -> 0 <= m < nblk s.
Proof. intros Hs [Hm _]. pose proof (proj2 (so_bitmap _ _ _ Hs)). lia. Qed.

Lemma sound_layout s ip nb : sound s ip nb -> layout s ip nb.
Proof.
  intros Hs. pose proof (so_nb _ _ _ Hs) as Hnb. constructor.
  - intros bn Hbn. destruct (so_file _ _ _ Hs bn Hbn) as [Hh Hm]. split; [lia|]. split.
    + split; [intros E; apply Hm; by left|by eapply held_range].
    + intros Hge. destruct (so_ind _ _ _ Hs) as [Hi _]; [apply (so_has _ _ _ Hs); lia|].
      split; [apply (so_has _ _ _ Hs); lia|by eapply held_range].
  - apply (so_inj _ _ _ Hs).
  - intros bn Hbn Hlt E. destruct (so_ind _ _ _ Hs) as (_ & _ & Hn); [by apply (so_has _ _ _ Hs)|]. by apply (Hn bn).
Qed.

(** Only the bitmap, the indirect block and the free blocks matter. *)
Lemma sound_frame s s' ip nb : sound s ip nb -> fs_sb s' = fs_sb s -> nblk s' = nblk s ->
  (forall b, 0 <= b < sb_size (fs_sb s) -> in_use s' b = in_use s b) ->
  (addr_of ip NDIRECT ≠ 0 -> blocks s' (addr_of ip NDIRECT) = blocks s (addr_of ip NDIRECT)) ->
  (forall b, 0 <= b < sb_size (fs_sb s) -> in_use s b = false -> blocks s' b = blocks s b) -> sound s' ip nb.
Proof.
  intros Hs Hsb Hn Hu Hi Hf. pose proof Hs as [H1 H2 H3 H4 H5 H6 H7 H8 H9 H10].
  assert (Eh : forall m, held s m -> held s' m) by (intros m [Hm1 Hm2]; split; [by rewrite Hsb|by rewrite Hu]).
  assert (Em : forall m, meta s' ip m <-> meta s ip m) by (intros m; unfold meta, bitmap_block; by rewrite Hsb).
  assert (Ef : forall bn, bn < NDIRECT \/ addr_of ip NDIRECT ≠ 0 -> fblock s' ip bn = fblock s ip bn).
  { intros bn Hbn. unfold fblock. destruct (Z.ltb_spec bn NDIRECT); [done|]. destruct Hbn as [?|Hbn]; [lia|]. by rewrite Hi. }
  assert (Ef' : forall bn, 0 <= bn < nb -> fblock s' ip bn = fblock s ip bn).
  { intros bn Hbn. apply Ef. destruct (Z.lt_ge_cases bn NDIRECT); [by left|right; apply H8; lia]. }
  constructor.
  - done.
  - unfold bitmap_ok in *. rewrite Hsb, Hn. done.
  - unfold bitmap_block. rewrite Hsb. done.
  - intros m Hm%Em. auto.
  - intros bn Hbn. rewrite Ef', Em by done. destruct (H5 bn Hbn). auto.
  - intros a b Ha Hb. rewrite !Ef' by done. by apply H6.
  - intros Ha. destruct (H7 Ha) as (? & ? & Hno). rewrite Em. split_and!; [auto|done|]. intros bn Hbn. rewrite Ef' by done. by apply Hno.
  - done.
  - intros bn Hbn Hor. rewrite Ef by done. by apply H9.
  - intros Hb Ha b Hbr Hbu. rewrite Hsb in Hbr. rewrite Hu in Hbu by done. rewrite Hf by done. by apply (H10 Hb Ha).
Qed.

Lemma in_use_eq s s' b : fs_sb s' = fs_sb s -> blocks s' (BBLOCK b (fs_sb s)) = blocks s (BBLOCK b (fs_sb s)) -> in_use s' b = in_use s b.
Proof. intros E1 E2. unfold in_use. by rewrite E1, E2. Qed.

(** Changes outside the bitmap, the indirect block and the free blocks. *)
Lemma sound_outside s s' ip nb a : sound s ip nb -> fs_sb s' = fs_sb s -> nblk s' = nblk s ->
  (forall m, 0 <= m < nblk s -> m ≠ a -> blocks s' m = blocks s m) ->
  held s a -> ~ bitmap_block s a -> (addr_of ip NDIRECT ≠ 0 -> a ≠ addr_of ip NDIRECT) -> sound s' ip nb.
Proof.
  intros Hs Hsb Hn Hm [_ Ha] Hb Hi. apply (sound_frame s); try done.
  - intros b Hbr. apply in_use_eq; [done|]. apply Hm; [|intros E; apply Hb; by exists b].
    apply (held_range s ip nb); [done|]. apply (so_meta _ _ _ Hs). right; right. by exists b.
  - intros Hne. apply Hm; [|by intros E; apply Hi]. eapply (held_range s ip nb); [done|]. by apply (so_ind _ _ _ Hs).
  - intros b Hbr Hbu. apply Hm; [pose proof (proj2 (so_bitmap _ _ _ Hs)); lia|]. intros ->. congruence.
Qed.

(** ** Taking a block *)
Record taken s s' (r : Z) : Prop := mkTaken {
  tk_r : 0 <= r < sb_size (fs_sb s) /\ in_use s r = false;
  tk_sb : fs_sb s' = fs_sb s;
  tk_size : nblk s' = nblk s;
  tk_use : forall b, 0 <= b < sb_size (fs_sb s) -> in_use s' b = if b =? r then true else in_use s b;
  tk_blocks : forall m, 0 <= m < nblk s -> ~ bitmap_block s m -> blocks s' m = blocks s m;
}.

Lemma taken_held s s' r m : taken s s' r -> held s m -> held s' m /\ m ≠ r.
Proof.
  intros [[Hr Hf] Hsb _ Hu _] [Hm Hi]. split; [|by intros ->; congruence]. split; [by rewrite Hsb|]. rewrite Hu by done. by destruct (m =? r).
Qed.

Lemma taken_new s s' r : taken s s' r -> held s' r /\ ~ held s r.
Proof.
  intros [[Hr Hf] Hsb _ Hu _]. split; [|by intros [_ ?]; congruence]. split; [by rewrite Hsb|]. by rewrite Hu, Z.eqb_refl.
Qed.

Lemma taken_free_zero s s' ip nb r : sound s ip nb -> taken s s' r -> free_zero s -> free_zero s'.
Proof.
  intros Hs Ht Hz b Hb Hu. pose proof Ht as [_ Hsb _ Huse Hbl]. rewrite Hsb in Hb. rewrite Huse in Hu by done.
  destruct (b =? r); [done|]. rewrite Hbl; [by apply Hz|pose proof (proj2 (so_bitmap _ _ _ Hs)); lia|].
  intros Hbb. destruct (so_meta _ _ _ Hs b) as [_ ?]; [by right; right|congruence].
Qed.

Lemma balloc_taken p s ip nb : cinv p s -> (length p < UNBUF)%nat -> sound s ip nb ->
  wp balloc (fun r s' => cinv p s' /\ keeps p s s' /\ (r ≠ 0 /\ taken s s' r \/ r = 0 /\ full s /\ blocks_eq s s')) no_halt s.
Proof.
  intros Hc Hlt Hs. destruct (so_bitmap _ _ _ Hs) as [Hbm Hsz]. wp_call (balloc_spec p s); [done..|].
  intros r s' (Hc' & Hk & [(Hr & Hfree & _ & Hnew & Hother)|(-> & Hfull & He)]); (split; [done|]; split; [done|]); [left|right; done].
  assert (Hz : in_use s 0 = true) by (apply (so_meta _ _ _ Hs); by left).
  split; [intros ->; congruence|]. constructor; [done|apply Hk|apply Hk|by apply (in_use_set p); [done|done|apply Hk|..]|].
  intros m Hm Hb. apply Hother; [done|]. intros ->. apply Hb. by exists r.
Qed.

(** ** Growing a file *)

(** [s'] with the file [ip'] of [nb'] blocks comes from [s] with [ip] of [nb]
    blocks: the old blocks stay, new ones and a new indirect block were free,
    and outside the bitmap only blocks of the file change. *)
Record ext s s' ip ip' (nb nb' : Z) : Prop := mkExt {
  ex_nb : nb <= nb';
  ex_ip : ip' = ui_set_addrs (ui_addrs ip') ip;
  ex_sb : fs_sb s' = fs_sb s /\ nblk s' = nblk s;
  ex_block : forall bn, 0 <= bn < nb -> fblock s' ip' bn = fblock s ip bn;
  ex_new : forall bn, nb <= bn < nb' -> ~ held s (fblock s' ip' bn);
  ex_ind : addr_of ip' NDIRECT = addr_of ip NDIRECT \/ addr_of ip NDIRECT = 0 /\ ~ held s (addr_of ip' NDIRECT);
  ex_held : forall m, held s m -> held s' m;
  ex_frame : forall m, 0 < m < nblk s -> ~ bitmap_block s m -> m ≠ addr_of ip' NDIRECT -> not_of_file s' ip' nb' m -> blocks s' m = blocks s m;
}.

Lemma ext_refl s ip nb : ext s s ip ip nb nb.
Proof. constructor; try done; [by destruct ip|intros; lia|by left]. Qed.

Lemma bitmap_block_sb s s' m : fs_sb s' = fs_sb s -> bitmap_block s' m <-> bitmap_block s m.
Proof. intros E. unfold bitmap_block. by rewrite E. Qed.

Lemma ext_trans s1 s2 s3 ip1 ip2 ip3 n1 n2 n3 : 0 <= n1 -> ext s1 s2 ip1 ip2 n1 n2 -> ext s2 s3 ip2 ip3 n2 n3 -> ext s1 s3 ip1 ip3 n1 n3.
Proof.
  intros Hn0 [A1 A2 [A3 A3'] A4 A5 A6 A7 A8] [B1 B2 [B3 B3'] B4 B5 B6 B7 B8]. constructor.
  - lia.
  - rewrite B2, A2. by destruct ip1.
  - split; congruence.
  - intros bn Hbn. rewrite B4, A4 by lia. done.
  - intros bn Hbn. destruct (Z.lt_ge_cases bn n2); [rewrite B4 by lia; apply A5; lia|]. intros Hh%A7. by apply (B5 bn); [lia|].
  - destruct B6 as [B6|[B6 B6']]; [by rewrite B6|]. destruct A6 as [A6|[A6 _]]; (right; split; [congruence|]); intros Hh%A7; done.
  - auto.
  - intros m Hm Hb Hi Hno. assert (Hno2 : not_of_file s2 ip2 n2 m) by (intros bn Hbn; rewrite <- B4 by done; apply Hno; lia).
    rewrite B8; [|by rewrite A3'|by rewrite (bitmap_block_sb s1)|done|done]. apply A8; try done. destruct B6 as [B6|[B6 _]]; [congruence|lia].
Qed.

(** What [bmap] changes besides the bitmap is the indirect block. *)
Definition same_data s s' ip' : Prop :=
  forall m, 0 < m < nblk s -> ~ bitmap_block s m -> m ≠ addr_of ip' NDIRECT -> blocks s' m = blocks s m.

Lemma addr_of_set ip k r j : length (ui_addrs ip) = 13%nat -> 0 <= k < 13 -> 0 <= j -> addr_of (set_addr k r ip) j = if j =? k then r else addr_of ip j.
Proof.
  intros Hl Hk Hj. unfold addr_of, set_addr. cbn [ui_addrs ui_set_addrs]. destruct (Z.eqb_spec j k) as [->|Hne].
  - rewrite list_lookup_insert_eq by lia. done.
  - rewrite list_lookup_insert_ne by lia. done.
Qed.

Lemma length_set_addr ip k r : length (ui_addrs (set_addr k r ip)) = length (ui_addrs ip).
Proof. cbn. apply length_insert. Qed.

(** The bytes of the blocks that were there. *)
Lemma ext_bytes s s' ip ip' nb nb' : sound s ip nb -> ext s s' ip ip' nb nb' -> same_data s s' ip' ->
  forall x, 0 <= x < nb * BSIZE -> fbyte s' ip' x = fbyte s ip x.
Proof.
  intros Hs He Hd x Hx. assert (Hbn : 0 <= x / BSIZE < nb) by (unfold BSIZE in *; split; Z.to_euclidean_division_equations; lia).
  unfold fbyte. rewrite (ex_block _ _ _ _ _ _ He) by done. destruct (so_file _ _ _ Hs _ Hbn) as [Hh Hm].
  pose proof (held_range _ _ _ _ Hs Hh) as Hr. rewrite Hd; [done| | |].
  - assert (fblock s ip (x / BSIZE) ≠ 0) by (intros E; apply Hm; by left). lia.
  - intros Hb. apply Hm. by right; right.
  - destruct (ex_ind _ _ _ _ _ _ He) as [E|[_ E]]; [|by intros E'; apply E; rewrite <- E'].
    rewrite E. intros E'. destruct (decide (addr_of ip NDIRECT = 0)) as [E0|E0]; [apply Hm; left; congruence|].
    destruct (so_ind _ _ _ Hs E0) as (_ & _ & Hno). by apply (Hno (x / BSIZE)).
Qed.

Section take_block.
Context (s s' : fss D) (ip : uinode) (nb r : Z).
Context (Hs : sound s ip nb) (Ht : taken s s' r).

Lemma taken_meta m : meta s' ip m <-> meta s ip m.
Proof. unfold meta. by rewrite (bitmap_block_sb s), (tk_sb _ _ _ Ht) by apply (tk_sb _ _ _ Ht). Qed.

Lemma taken_not_meta : ~ meta s ip r.
Proof. intros Hm%(so_meta _ _ _ Hs). by apply (taken_new _ _ _ Ht). Qed.

Lemma taken_ind : addr_of ip NDIRECT ≠ 0 -> blocks s' (addr_of ip NDIRECT) = blocks s (addr_of ip NDIRECT).
Proof.
  intros Ha. destruct (so_ind _ _ _ Hs Ha) as (Hh & Hm & _). apply (tk_blocks _ _ _ Ht); [by eapply held_range|]. intros Hb. apply Hm. by right; right.
Qed.

(** Addresses through an inode with the same indirect block. *)
Lemma taken_fblock ip' bn : addr_of ip' NDIRECT = addr_of ip NDIRECT -> addr_of ip' bn = addr_of ip bn ->
  bn < NDIRECT \/ addr_of ip NDIRECT ≠ 0 -> fblock s' ip' bn = fblock s ip bn.
Proof.
  intros E1 E2 Hor. unfold fblock. destruct (Z.ltb_spec bn NDIRECT); [done|]. destruct Hor as [?|Hor]; [lia|]. by rewrite E1, taken_ind.
Qed.

Lemma has_or bn : bn < nb -> bn < NDIRECT \/ addr_of ip NDIRECT ≠ 0.
Proof. intros. destruct (Z.lt_ge_cases bn NDIRECT); [by left|right; apply (so_has _ _ _ Hs); lia]. Qed.

(** The new block is a direct block. *)
Lemma take_direct : nb < NDIRECT ->
  let ip' := set_addr nb r ip in sound s' ip' (nb + 1) /\ ext s s' ip ip' nb (nb + 1) /\ same_data s s' ip' /\ fblock s' ip' nb = r.
Proof.
  intros Hlt ip'. pose proof Hs as [H1 [H2 H2'] (H3 & H3' & H3'') H4 H5 H6 H7 H8 H9 H10]. pose proof (taken_new _ _ _ Ht) as [Hnew Hnh].
  unfold MAXFILE in *. change NDIRECT with 12 in *. change NINDIRECT with 128 in *.
  assert (Ea : forall j, 0 <= j -> addr_of ip' j = if j =? nb then r else addr_of ip j) by (intros; apply addr_of_set; lia).
  assert (Ei : addr_of ip' 12 = addr_of ip 12) by (rewrite Ea by lia; destruct (Z.eqb_spec 12 nb); [lia|done]).
  assert (Er : fblock s' ip' nb = r).
  { unfold fblock. change NDIRECT with 12. rewrite (proj2 (Z.ltb_lt nb 12)) by lia. by rewrite Ea, Z.eqb_refl by lia. }
  assert (Ef : forall bn, 0 <= bn -> bn ≠ nb -> bn < 12 \/ addr_of ip 12 ≠ 0 -> fblock s' ip' bn = fblock s ip bn).
  { intros bn Hb Hne Hor. apply taken_fblock; [done| |done]. rewrite Ea by done. by destruct (Z.eqb_spec bn nb). }
  assert (Eold : forall bn, 0 <= bn < nb -> fblock s' ip' bn = fblock s ip bn) by (intros bn Hb; apply Ef; lia).
  assert (Hmm : forall m, meta s' ip' m <-> meta s ip m) by apply taken_meta.
  assert (Hrf : forall bn, 0 <= bn < nb -> fblock s ip bn ≠ r) by (intros bn Hb; by eapply taken_held, H5).
  split; [constructor|split; [constructor|split]].
  - unfold MAXFILE. change NDIRECT with 12. change NINDIRECT with 128. lia.
  - unfold bitmap_ok in *. by rewrite (tk_sb _ _ _ Ht), (tk_size _ _ _ Ht).
  - split; [done|]. split; [by unfold ip'; rewrite length_set_addr|]. rewrite (bitmap_block_sb s) by apply (tk_sb _ _ _ Ht). by rewrite (tk_sb _ _ _ Ht).
  - intros m Hm%Hmm. by eapply taken_held, H4.
  - intros bn Hb. rewrite Hmm. destruct (decide (bn = nb)) as [->|]; [rewrite Er; split; [done|by apply taken_not_meta]|].
    rewrite Eold by lia. destruct (H5 bn) as [? ?]; [lia|]. split; [by eapply taken_held|done].
  - intros a b Ha Hb. destruct (decide (a = nb)) as [->|], (decide (b = nb)) as [->|]; rewrite ?Er, ?Eold by lia; [done|..].
    + intros E. by destruct (Hrf b); [lia|].
    + intros E. by destruct (Hrf a); [lia|].
    + apply H6; lia.
  - change NDIRECT with 12. rewrite Ei. intros Ha. destruct (H7 Ha) as (? & ? & Hno). rewrite Hmm. split; [by eapply taken_held|]. split; [done|].
    intros bn Hb. destruct (decide (bn = nb)) as [->|]; [rewrite Er; by eapply taken_held|rewrite Eold by lia; apply Hno; lia].
  - change NDIRECT with 12. lia.
  - change NDIRECT with 12. rewrite Ei. intros bn Hb Hor. rewrite Ef by (done || lia). apply H9; [unfold MAXFILE in Hb; change NDIRECT with 12 in Hb; change NINDIRECT with 128 in Hb; lia|done].
  - change NDIRECT with 12. rewrite Ei. intros Hb Ha. eapply taken_free_zero; [done..|by apply H10].
  - lia.
  - by destruct ip.
  - split; apply Ht.
  - done.
  - intros bn Hb. assert (bn = nb) as -> by lia. by rewrite Er.
  - by left.
  - intros m Hm. by eapply taken_held.
  - intros m Hm Hb _ _. apply (tk_blocks _ _ _ Ht); [lia|done].
  - intros m Hm Hb _. apply (tk_blocks _ _ _ Ht); [lia|done].
  - done.
Qed.

Lemma word_zeros k : word_at (replicate 512 0) k = 0.
Proof.
  unfold word_at, slice. rewrite drop_replicate, take_replicate. by induction (4 `min` (512 - 4 * k))%nat as [|n IH]; [|cbn [replicate le_Z]; rewrite IH].
Qed.

(** The new block is the indirect block. *)
Lemma take_indirect : big -> nb = NDIRECT -> addr_of ip NDIRECT = 0 -> r ≠ 0 ->
  let ip' := set_addr NDIRECT r ip in sound s' ip' nb /\ ext s s' ip ip' nb nb /\ same_data s s' ip'.
Proof.
  intros Hbig Hnb Hz Hr0 ip'. pose proof Hs as [H1 [H2 H2'] (H3 & H3' & H3'') H4 H5 H6 H7 H8 H9 H10]. pose proof (taken_new _ _ _ Ht) as [Hnew Hnh].
  unfold MAXFILE in *. change NDIRECT with 12 in *. change NINDIRECT with 128 in *.
  assert (Ea : forall j, 0 <= j -> addr_of ip' j = if j =? 12 then r else addr_of ip j) by (intros; apply addr_of_set; lia).
  assert (Ei : addr_of ip' 12 = r) by (by rewrite Ea by lia).
  assert (Hmm : forall m, meta s' ip' m <-> meta s ip m) by apply taken_meta.
  assert (Eold : forall bn, 0 <= bn < nb -> fblock s' ip' bn = fblock s ip bn).
  { intros bn Hb. unfold fblock. change NDIRECT with 12. rewrite (proj2 (Z.ltb_lt bn 12)) by lia. rewrite Ea by lia. by rewrite (proj2 (Z.eqb_neq bn 12)) by lia. }
  assert (Hrb : ~ bitmap_block s r) by (intros Hb; apply taken_not_meta; by right; right).
  assert (Ezero : blocks s' r = replicate 512 0).
  { rewrite (tk_blocks _ _ _ Ht); [|pose proof (tk_r _ _ _ Ht); lia|done]. apply (H10 Hbig Hz); apply Ht. }
  split; [constructor|split; [constructor|]].
  - unfold MAXFILE. change NDIRECT with 12. change NINDIRECT with 128. lia.
  - unfold bitmap_ok in *. by rewrite (tk_sb _ _ _ Ht), (tk_size _ _ _ Ht).
  - split; [done|]. split; [by unfold ip'; rewrite length_set_addr|]. rewrite (bitmap_block_sb s) by apply (tk_sb _ _ _ Ht). by rewrite (tk_sb _ _ _ Ht).
  - intros m Hm%Hmm. by eapply taken_held, H4.
  - intros bn Hb. rewrite Hmm, Eold by done. destruct (H5 bn) as [? ?]; [done|]. split; [by eapply taken_held|done].
  - intros a b Ha Hb. rewrite !Eold by done. by apply H6.
  - change NDIRECT with 12. rewrite Ei, Hmm. intros _. split; [done|]. split; [by apply taken_not_meta|]. intros bn Hb. rewrite Eold by done.
    intros E. destruct (taken_held _ _ _ _ Ht (proj1 (H5 bn Hb))). done.
  - change NDIRECT with 12. lia.
  - intros bn Hb _. unfold fblock. change NDIRECT with 12. rewrite (proj2 (Z.ltb_ge bn 12)) by lia. rewrite Ei, Ezero. apply word_zeros.
  - change NDIRECT with 12. rewrite Ei. done.
  - lia.
  - by destruct ip.
  - split; apply Ht.
  - done.
  - lia.
  - change NDIRECT with 12. rewrite Ei. by right.
  - intros m Hm. by eapply taken_held.
  - intros m Hm Hb _ _. apply (tk_blocks _ _ _ Ht); [lia|done].
  - intros m Hm Hb _. apply (tk_blocks _ _ _ Ht); [lia|done].
Qed.

(** The new block is entered in the indirect block. *)
Lemma take_entry s2 : NDIRECT <= nb < MAXFILE -> addr_of ip NDIRECT ≠ 0 -> fs_sb s2 = fs_sb s' -> nblk s2 = nblk s' ->
  length (blocks s' (addr_of ip NDIRECT)) = 512%nat ->
  blocks s2 (addr_of ip NDIRECT) = set_word (Z.to_nat (nb - NDIRECT)) r (blocks s' (addr_of ip NDIRECT)) ->
  (forall m, 0 <= m < nblk s' -> m ≠ addr_of ip NDIRECT -> blocks s2 m = blocks s' m) ->
  sound s2 ip (nb + 1) /\ ext s s2 ip ip nb (nb + 1) /\ same_data s s2 ip /\ fblock s2 ip nb = r.
Proof.
  intros Hnb Ha Hsb2 Hn2 Hlen Hset Hother. pose proof Hs as [H1 [H2 H2'] (H3 & H3' & H3'') H4 H5 H6 H7 H8 H9 H10].
  pose proof (taken_new _ _ _ Ht) as [Hnew Hnh]. pose proof (taken_ind Ha) as Eind. destruct (H7 Ha) as (Hah & Ham & Hano).
  unfold MAXFILE in *. change NDIRECT with 12 in *. change NINDIRECT with 128 in *. set (a := addr_of ip 12) in *.
  assert (Hsb : fs_sb s2 = fs_sb s) by (rewrite Hsb2; apply Ht). assert (Hn : nblk s2 = nblk s) by (rewrite Hn2; apply Ht).
  assert (Hab : ~ bitmap_block s a) by (intros Hb; apply Ham; by right; right).
  assert (Hu : forall b, 0 <= b < sb_size (fs_sb s) -> in_use s2 b = if b =? r then true else in_use s b).
  { intros b Hb. rewrite <- (tk_use _ _ _ Ht) by done. apply in_use_eq; [done|]. rewrite (tk_sb _ _ _ Ht). apply Hother.
    - rewrite (tk_size _ _ _ Ht). eapply (held_range s ip nb); [done|]. apply H4. right; right. by exists b.
    - intros E. apply Hab. by exists b. }
  assert (Hkeep : forall m, held s m -> held s2 m /\ m ≠ r).
  { intros m [Hm1 Hm2]. split; [split; [by rewrite Hsb|rewrite Hu by done; by destruct (m =? r)]|]. intros ->. by apply Hnh. }
  assert (Hnew2 : held s2 r). { split; [rewrite Hsb; apply Ht|]. rewrite Hu by apply Ht. by rewrite Z.eqb_refl. }
  assert (Hmm : forall m, meta s2 ip m <-> meta s ip m) by (intros m; unfold meta; by rewrite (bitmap_block_sb s), Hsb by done).
  assert (Hru : is_u32 r) by (pose proof (tk_r _ _ _ Ht); unfold is_u32; lia).
  assert (Er : fblock s2 ip nb = r).
  { unfold fblock. change NDIRECT with 12. rewrite (proj2 (Z.ltb_ge nb 12)) by lia. fold a. rewrite Hset. apply word_set_word; [lia|done]. }
  assert (Ef : forall bn, 0 <= bn -> bn ≠ nb -> bn < 140 -> fblock s2 ip bn = fblock s ip bn).
  { intros bn Hb Hne Hl. unfold fblock. change NDIRECT with 12. destruct (Z.ltb_spec bn 12); [done|]. fold a. rewrite Hset, <- Eind.
    apply word_set_word_ne; lia. }
  assert (Hfr : forall m, 0 < m < nblk s -> ~ bitmap_block s m -> m ≠ a -> blocks s2 m = blocks s m).
  { intros m Hm Hb Hne. rewrite Hother; [|rewrite (tk_size _ _ _ Ht); lia|done]. apply (tk_blocks _ _ _ Ht); [lia|done]. }
  split; [constructor|split; [constructor|]].
  - unfold MAXFILE. change NDIRECT with 12. change NINDIRECT with 128. lia.
  - unfold bitmap_ok in *. by rewrite Hsb, Hn.
  - rewrite (bitmap_block_sb s), Hsb by done. done.
  - intros m Hm%Hmm. by apply Hkeep, H4.
  - intros bn Hb. rewrite Hmm. destruct (decide (bn = nb)) as [->|]; [rewrite Er; split; [done|by apply taken_not_meta]|].
    rewrite Ef by lia. destruct (H5 bn) as [? ?]; [lia|]. split; [by apply Hkeep|done].
  - intros x y Hx Hy. assert (Hrf : forall bn, 0 <= bn < nb -> fblock s ip bn ≠ r) by (intros bn Hb; by apply Hkeep, H5).
    destruct (decide (x = nb)) as [->|], (decide (y = nb)) as [->|]; rewrite ?Er, ?Ef by lia; [done|..].
    + intros E. by destruct (Hrf y); [lia|].
    + intros E. by destruct (Hrf x); [lia|].
    + apply H6; lia.
  - intros _. change NDIRECT with 12. fold a. rewrite Hmm. split; [by apply Hkeep|]. split; [done|]. intros bn Hb.
    destruct (decide (bn = nb)) as [->|]; [rewrite Er; by apply Hkeep|rewrite Ef by lia; apply Hano; lia].
  - done.
  - unfold MAXFILE. change NDIRECT with 12. change NINDIRECT with 128. intros bn Hb Hor. rewrite Ef by lia. apply H9; [lia|done].
  - done.
  - lia.
  - by destruct ip.
  - done.
  - intros bn Hb. apply Ef; lia.
  - intros bn Hb. assert (bn = nb) as -> by lia. by rewrite Er.
  - by left.
  - intros m Hm. by apply Hkeep.
  - intros m Hm Hb Hne _. by apply Hfr.
  - split; [|done]. intros m Hm Hb Hne. by apply Hfr.
Qed.
End take_block.

(** ** [bmap] *)

(** The parts of the server that writing leaves alone. *)
Record rest p s s' : Prop := mkRest {
  rs_sb : fs_sb s' = fs_sb s;
  rs_fdt : fs_fdt s' = fs_fdt s;
  rs_fdi : fs_fdi s' = fs_fdi s;
  rs_sent : fs_sent s' = fs_sent s;
  rs_size : nblk s' = nblk s;
  rs_pinned : forall i n, i ∈ p -> pinned s i n -> pinned s' i n;
}.

Lemma rest_keeps p s s' : keeps p s s' -> rest p s s'.
Proof. by intros []. Qed.
Lemma rest_trans p s1 s2 s3 : rest p s1 s2 -> rest p s2 s3 -> rest p s1 s3.
Proof. intros [] []. constructor; try congruence. eauto. Qed.
Lemma rest_inodes p s v : rest p s (set_inodes v s).
Proof. by constructor. Qed.

Lemma sound_reads p s s' ip nb : reads p s s' -> sound s ip nb -> sound s' ip nb.
Proof.
  intros [Hk He] Hs. apply (sound_frame s); [done|apply Hk|apply Hk|..].
  - intros b Hb. apply in_use_eq; [apply Hk|]. apply He. apply (held_range s ip nb); [done|]. apply (so_meta _ _ _ Hs). right; right. by exists b.
  - intros Ha. apply He. apply (held_range s ip nb); [done|]. by apply (so_ind _ _ _ Hs).
  - intros b Hb _. apply He. pose proof (proj2 (so_bitmap _ _ _ Hs)). lia.
Qed.

Lemma sound_has s ip nb bn : sound s ip nb -> bn < nb -> bn < NDIRECT \/ addr_of ip NDIRECT ≠ 0.
Proof. intros Hs Hb. destruct (Z.lt_ge_cases bn NDIRECT); [by left|right; apply (so_has _ _ _ Hs); lia]. Qed.

Lemma ext_reads p s s' ip nb : reads p s s' -> sound s ip nb -> ext s s' ip ip nb nb /\ same_data s s' ip.
Proof.
  intros Hr Hs. pose proof (sound_layout _ _ _ Hs) as Hl. pose proof Hr as [Hk He]. split; [constructor|].
  - lia.
  - by destruct ip.
  - split; apply Hk.
  - intros bn Hb. apply fblock_eq; [done|]. by apply Hl.
  - lia.
  - by left.
  - intros m [Hm Hu]. split; [by rewrite (kp_sb _ _ _ Hk)|]. rewrite <- Hu. apply in_use_eq; [apply Hk|]. apply He.
    apply (held_range s ip nb); [done|]. apply (so_meta _ _ _ Hs). right; right. by exists m.
  - intros m Hm _ _ _. apply He. lia.
  - intros m Hm _ _. apply He. lia.
Qed.

Lemma full_reads p s s' ip nb : reads p s s' -> sound s ip nb -> full s -> full s'.
Proof.
  intros Hr Hs Hf b Hb. rewrite (kp_sb _ _ _ (proj1 Hr)) in Hb. destruct (ext_reads p s s' ip nb Hr Hs) as [He _].
  destruct (ex_held _ _ _ _ _ _ He b); [by split; [|apply Hf]|done].
Qed.

(** [bmap] for a block the file has or the next one. *)
Definition bmap_post p s i ip nb bn (r : Z) s' : Prop :=
  cinv p s' /\ rest p s s' /\ exists ip' nb',
    fs_inodes s' = <[i := ip']> (fs_inodes s) /\ sound s' ip' nb' /\ ext s s' ip ip' nb nb' /\ same_data s s' ip' /\
    (r = fblock s' ip' bn /\ bn < nb' \/ r = 0 /\ full s').

(** Nothing but reading happened. *)
Lemma bmap_read_post p s s' i ip nb bn r : cinv p s' -> reads p s s' -> fs_inodes s !! i = Some ip -> sound s ip nb ->
  r = fblock s ip bn /\ 0 <= bn < nb \/ r = 0 /\ full s -> bmap_post p s i ip nb bn r s'.
Proof.
  intros Hc Hr Hi Hs Hor. destruct (ext_reads p s s' ip nb Hr Hs) as [He Hd]. split; [done|]. split; [apply rest_keeps, Hr|]. exists ip, nb.
  split; [rewrite (kp_inodes _ _ _ (proj1 Hr)); by rewrite list_insert_id|]. split; [by eapply sound_reads|]. split; [done|]. split; [done|].
  destruct Hor as [[-> Hb]|[-> Hf]]; [left|right; split; [done|by eapply full_reads]]. split; [|lia]. symmetry. by apply (ex_block _ _ _ _ _ _ He).
Qed.

Lemma bmap_slot_empty i k ip s (Q : Z -> fss D -> Prop) E : fs_inodes s !! i = Some ip -> addr_of ip k = 0 ->
  wp balloc (fun addr s' => addr = 0 /\ Q 0 s' \/ addr ≠ 0 /\ wp (modify (upd_inode i (set_addr k addr))) (fun _ s2 => Q addr s2) E s') E s -> wp (bmap_slot i k) Q E s.
Proof.
  intros Hi Hk HQ. unfold bmap_slot. wp_step. eapply wp_the_inode; [done|]. rewrite Hk. cbn [Z.eqb]. wp_step.
  eapply wp_conseq; [exact HQ|]. intros addr s' [[-> H1]|[H1 H2]]; [by wp_step|]. rewrite (proj2 (Z.eqb_neq _ _) H1).
  wp_step. eapply wp_conseq; [exact H2|]. intros [] s2 H3. by wp_step.
Qed.

Lemma full_taken s s' : fs_sb s' = fs_sb s -> (forall m, held s m -> held s' m) -> full s -> full s'.
Proof. intros E Hh Hf b Hb. rewrite E in Hb. by apply Hh; split; [|apply Hf]. Qed.

Lemma sound_inodes s v ip nb : sound s ip nb -> sound (set_inodes v s) ip nb.
Proof. intros Hs. by apply (sound_frame s). Qed.
Lemma ext_inodes s s' v ip ip' nb nb' : ext s s' ip ip' nb nb' -> ext s (set_inodes v s') ip ip' nb nb'.
Proof. by intros []. Qed.

(** A direct block. *)
Lemma bmap_direct p s i ip nb : cinv p s -> (length p < UNBUF)%nat -> fs_inodes s !! i = Some ip -> sound s ip nb -> nb < NDIRECT ->
  wp (bmap_slot i nb) (bmap_post p s i ip nb nb) no_halt s.
Proof.
  intros Hc Hlt Hi Hs Hnb. pose proof (so_nb _ _ _ Hs) as Hn0.
  assert (Hz : addr_of ip nb = 0).
  { pose proof (so_rest _ _ _ Hs nb) as Hr. unfold fblock in Hr. rewrite (proj2 (Z.ltb_lt _ _)) in Hr by lia. apply Hr; [|by left].
    unfold MAXFILE. change NDIRECT with 12 in *. change NINDIRECT with 128. lia. }
  eapply bmap_slot_empty; [done..|]. eapply wp_conseq; [by apply (balloc_taken p s ip nb)|].
  intros r s' (Hc' & Hk & [[Hr Ht]|(-> & Hf & He)]); [right|left; split; [done|]; apply bmap_read_post; [done|by split|done|done|by right]].
  split; [done|]. assert (Hi' : fs_inodes s' !! i = Some ip) by (by rewrite (kp_inodes _ _ _ Hk)).
  eapply wp_upd_inode; [done|]. destruct (take_direct s s' ip nb r Hs Ht Hnb) as (Hs' & He & Hd & Hfb).
  split; [by apply cinv_inodes|]. split; [eapply rest_trans; [by apply rest_keeps|apply rest_inodes]|].
  exists (set_addr nb r ip), (nb + 1). split; [cbn; by rewrite (kp_inodes _ _ _ Hk)|].
  split; [by apply sound_inodes|]. split; [by apply ext_inodes|]. split; [done|]. left. split; [exact (eq_sym Hfb)|lia].
Qed.

(** The rest of [bmap] once the indirect block is known. *)
Definition bmap_entry (addr bn : Z) : M (fss D) Z :=
  r ← ubread ROOTDEV addr;
  match r with
  | None => mret 0
  | Some bp =>
      b ← the_ubuf bp;
      let addr := word_at (ub_data b) (Z.to_nat bn) in
      if addr =? 0 then
        addr ← balloc;
        if addr =? 0 then ubrelse bp;; mret 0
        else
          modify (upd_ubuf bp (fun b => ub_set_data (set_word (Z.to_nat bn) addr (ub_data b)) b));;
          ubwrite bp;;
          ubrelse bp;;
          mret addr
      else ubrelse bp;; mret addr
  end.

Lemma bmap_entry_grow p s i ip nb : cinv p s -> (S (length p) < UNBUF)%nat -> fs_inodes s !! i = Some ip -> sound s ip nb ->
  NDIRECT <= nb < MAXFILE -> addr_of ip NDIRECT ≠ 0 -> wp (bmap_entry (addr_of ip NDIRECT) (nb - NDIRECT)) (bmap_post p s i ip nb nb) no_halt s.
Proof.
  intros Hc Hlt Hi Hs Hnb Ha. set (a := addr_of ip NDIRECT) in *. destruct (so_ind _ _ _ Hs Ha) as (Hah & _ & _). fold a in Hah.
  pose proof (held_range _ _ _ _ Hs Hah) as Har.
  assert (Hz : word_at (blocks s a) (Z.to_nat (nb - NDIRECT)) = 0).
  { pose proof (so_rest _ _ _ Hs nb) as Hr. unfold fblock in Hr. rewrite (proj2 (Z.ltb_ge _ _)) in Hr by lia. apply Hr; [lia|by right]. }
  unfold bmap_entry. wp_step. wp_call (ubread_spec p s); [done|lia|done|]. intros ? s1 (bp & -> & Hc1 & Hp1 & Hk1). cbv beta iota.
  destruct (pinned_data _ _ _ _ Hc1 Hp1) as (b & Hb & Hd & _). wp_step. eapply wp_the_ubuf; [done|]. rewrite Hd, (proj2 Hk1), Hz by done. cbn [Z.eqb].
  pose proof (sound_reads _ _ _ _ _ Hk1 Hs) as Hs1. wp_step. wp_call (balloc_taken (bp :: p) s1 ip nb); [done..|].
  intros r s2 (Hc2 & Hk2 & [[Hr Ht]|(-> & Hf & He)]).
  2: { cbn [Z.eqb]. wp_step. wp_call (ubrelse_spec bp a p p s2); [done|lia|by eapply (kp_pinned _ _ _ Hk2); [left|]|]. intros _ s3 (Hc3 & Hk3). wp_step.
       assert (Hk02 : reads p s s2) by (eapply reads_trans; [exact Hk1|split; [eapply keeps_sub; [|exact Hk2]; set_solver|done]]).
       apply bmap_read_post; [done|by eapply reads_trans|done|done|right; split; [done|]].
       intros x Hx. rewrite <- (in_use_eq s s1); [apply Hf; by rewrite (kp_sb _ _ _ (proj1 Hk1))|apply Hk1|]. apply Hk1.
       apply (held_range s ip nb); [done|]. apply (so_meta _ _ _ Hs). right; right. by exists x. }
  rewrite (proj2 (Z.eqb_neq _ _) Hr). assert (Hp2 : pinned s2 bp a) by (by eapply (kp_pinned _ _ _ Hk2); [left|]).
  assert (Hn2 : nblk s2 = nblk s) by (rewrite (kp_size _ _ _ Hk2); by apply (reads_size p)).
  assert (Hl2 : length (blocks s2 a) = 512%nat) by (eapply blocks_length; [exact Hc2|by rewrite Hn2]).
  assert (Hw : (4 * Z.to_nat (nb - NDIRECT) + 4 <= 512)%nat) by (unfold MAXFILE in Hnb; change NDIRECT with 12 in *; change NINDIRECT with 128 in *; lia).
  wp_step. wp_step. wp_step. wp_call (ubwrite_spec bp a (bp :: p) (bp :: p) s2 (set_word (Z.to_nat (nb - NDIRECT)) r)); [done..| |].
  { by rewrite length_set_word by (rewrite Hl2; lia). }
  intros _ s3 (Hc3 & Hk3 & Hnew & Hother). wp_step. wp_call (ubrelse_spec bp a p p s3); [done|lia|by eapply (kp_pinned _ _ _ Hk3); [left|]|].
  intros _ s4 (Hc4 & Hk4). wp_step.
  assert (Ht02 : taken s1 s2 r) by done.
  destruct (take_entry s1 s2 ip nb r Hs1 Ht02 s3) as (Hs3 & He3 & Hd3 & Hfb3); [done|done|apply Hk3|apply Hk3|done|done|done|].
  destruct (ext_reads p s s1 ip nb Hk1 Hs) as [He1 Hd1]. destruct (ext_reads p s3 s4 ip (nb + 1) Hk4 Hs3) as [He4 Hd4].
  assert (Hkk : keeps p s s4).
  { eapply keeps_trans; [apply Hk1|]. eapply keeps_trans; [eapply keeps_sub; [|exact Hk2]; set_solver|].
    eapply keeps_trans; [eapply keeps_sub; [|exact Hk3]; set_solver|apply Hk4]. }
  split; [done|]. split; [by apply rest_keeps|]. exists ip, (nb + 1). pose proof (so_nb _ _ _ Hs).
  split; [by rewrite (kp_inodes _ _ _ Hkk), list_insert_id|]. split; [by eapply sound_reads|].
  split; [eapply ext_trans; [lia|exact He1|]; eapply ext_trans; [lia|exact He3|exact He4]|]. split.
  - intros m Hm Hb' Hne. rewrite Hd4, Hd3, Hd1; try done; [by rewrite (proj2 (ex_sb _ _ _ _ _ _ He1))| | |].
    + by rewrite (bitmap_block_sb s) by apply (ex_sb _ _ _ _ _ _ He1).
    + by rewrite (proj2 (ex_sb _ _ _ _ _ _ He3)), (proj2 (ex_sb _ _ _ _ _ _ He1)).
    + by rewrite (bitmap_block_sb s1), (bitmap_block_sb s) by (apply (ex_sb _ _ _ _ _ _ He3) || apply (ex_sb _ _ _ _ _ _ He1)).
  - left. split; [|lia]. rewrite (ex_block _ _ _ _ _ _ He4) by lia. done.
Qed.

Lemma bmap_post_after p s s1 i ip ip1 nb bn r s' : 0 <= nb -> rest p s s1 -> fs_inodes s1 = <[i := ip1]> (fs_inodes s) ->
  ext s s1 ip ip1 nb nb -> same_data s s1 ip1 -> addr_of ip1 NDIRECT ≠ 0 -> bmap_post p s1 i ip1 nb bn r s' -> bmap_post p s i ip nb bn r s'.
Proof.
  intros Hnb Hr Hi He Hd Ha (Hc' & Hr' & ip' & nb' & Hi' & Hs' & He' & Hd' & Hor). split; [done|]. split; [by eapply rest_trans|]. exists ip', nb'.
  split; [by rewrite Hi', Hi, list_insert_insert_eq|]. split; [done|]. split; [by eapply ext_trans|]. split; [|done].
  intros m Hm Hb Hne. destruct (ex_ind _ _ _ _ _ _ He') as [E|[E _]]; [|done].
  rewrite Hd', Hd; try done; [congruence|by rewrite (proj2 (ex_sb _ _ _ _ _ _ He))|by rewrite (bitmap_block_sb s) by apply (ex_sb _ _ _ _ _ _ He)].
Qed.

Lemma bmap_indirect p s i ip nb : cinv p s -> (S (length p) < UNBUF)%nat -> fs_inodes s !! i = Some ip -> sound s ip nb ->
  NDIRECT <= nb < MAXFILE -> big ->
  wp (addr ← bmap_slot i NDIRECT; if addr =? 0 then mret 0 else bmap_entry addr (nb - NDIRECT)) (bmap_post p s i ip nb nb) no_halt s.
Proof.
  intros Hc Hlt Hi Hs Hnb Hbig. wp_step. destruct (decide (addr_of ip NDIRECT = 0)) as [Ha|Ha].
  2: { eapply bmap_slot_mapped; [done..|]. rewrite (proj2 (Z.eqb_neq _ _) Ha). by apply bmap_entry_grow. }
  assert (Hnb' : nb = NDIRECT). { destruct (Z.lt_ge_cases NDIRECT nb) as [Hl|]; [|lia]. by destruct (so_has _ _ _ Hs Hl). }
  eapply bmap_slot_empty; [done..|]. eapply wp_conseq; [apply (balloc_taken p s ip nb); [done|lia|done]|].
  intros r s1 (Hc1 & Hk1 & [[Hr Ht]|(-> & Hf & He)]); [right|left; split; [done|]; change (0 =? 0) with true; cbv iota; wp_step; apply bmap_read_post; [done|by split|done|done|by right]].
  split; [done|]. assert (Hi1 : fs_inodes s1 !! i = Some ip) by (by rewrite (kp_inodes _ _ _ Hk1)). eapply wp_upd_inode; [done|].
  destruct (take_indirect s s1 ip nb r Hs Ht Hbig Hnb' Ha Hr) as (Hs1 & He1 & Hd1). set (ip1 := set_addr NDIRECT r ip) in *. set (s2 := set_inodes _ s1).
  assert (Ea : addr_of ip1 NDIRECT = r) by (unfold ip1; rewrite addr_of_set, Z.eqb_refl; [done|apply (so_inode _ _ _ Hs)|done|done]).
  rewrite (proj2 (Z.eqb_neq _ _) Hr). rewrite <- Ea.
  eapply wp_conseq; [apply (bmap_entry_grow p s2 i ip1 nb)|].
  - by apply cinv_inodes.
  - done.
  - cbn. apply list_lookup_insert_eq. by eapply lookup_lt_Some.
  - by apply sound_inodes.
  - done.
  - by rewrite Ea.
  - intros r' s' Hp. eapply bmap_post_after; [pose proof (so_nb _ _ _ Hs); lia| | | | | |exact Hp].
    + eapply rest_trans; [by apply rest_keeps|apply rest_inodes].
    + cbn. by rewrite (kp_inodes _ _ _ Hk1).
    + by apply ext_inodes.
    + done.
    + by rewrite Ea.
Qed.

Lemma bmap_grow p s i ip nb bn : cinv p s -> (S (length p) < UNBUF)%nat -> fs_inodes s !! i = Some ip -> sound s ip nb ->
  0 <= bn <= nb -> bn < MAXFILE -> (NDIRECT <= bn -> big) -> wp (bmap i bn) (bmap_post p s i ip nb bn) no_halt s.
Proof.
  intros Hc Hlt Hi Hs Hbn Hmax Hbig. destruct (decide (bn < nb)) as [Hl|Hl].
  { wp_call (bmap_mapped p s i ip bn); [done|lia|done|apply (sound_layout _ _ _ Hs); lia|]. intros r s' (-> & Hc' & Hr).
    apply bmap_read_post; try done. left. split; [done|lia]. }
  assert (bn = nb) as -> by lia. unfold bmap. destruct (Z.ltb_spec nb NDIRECT) as [Hd|Hd]; [by apply bmap_direct; [|lia|..]|].
  unfold MAXFILE in Hmax. rewrite u32_id by (change NDIRECT with 12 in *; change NINDIRECT with 128 in *; unfold is_u32; lia).
  rewrite (proj2 (Z.ltb_lt (nb - NDIRECT) NINDIRECT)) by lia. apply bmap_indirect; [done|done|done|done|by split|by apply Hbig].
Qed.

Lemma bmap_beyond i bn s : MAXFILE <= bn < 2 ^ 32 -> wp (bmap i bn) (fun r s' => r = 0 /\ s' = s) no_halt s.
Proof.
  unfold MAXFILE, bmap. change NDIRECT with 12. change NINDIRECT with 128. intros Hb. rewrite (proj2 (Z.ltb_ge bn 12)), u32_id by (unfold is_u32; lia).
  rewrite (proj2 (Z.ltb_ge (bn - 12) 128)) by lia. by wp_step.
Qed.

(** ** [uwritei] *)

(** Storing into a block of the file. *)
Lemma data_ext s s' ip nb bn : sound s ip nb -> 0 <= bn < nb -> fs_sb s' = fs_sb s -> nblk s' = nblk s ->
  (forall m, 0 <= m < nblk s -> m ≠ fblock s ip bn -> blocks s' m = blocks s m) -> sound s' ip nb /\ ext s s' ip ip nb nb.
Proof.
  intros Hs Hb Hsb Hn Hm. destruct (so_file _ _ _ Hs bn Hb) as [Hh Hme]. set (a := fblock s ip bn) in *.
  assert (Hbm : ~ bitmap_block s a) by (intros H1; apply Hme; by right; right).
  assert (Hind : addr_of ip NDIRECT ≠ 0 -> a ≠ addr_of ip NDIRECT).
  { intros Ha E. destruct (so_ind _ _ _ Hs Ha) as (_ & _ & Hno). by apply (Hno bn). }
  assert (Hs' : sound s' ip nb) by (by apply (sound_outside s s' ip nb a)). split; [done|].
  assert (Hfb : forall k, 0 <= k < nb -> fblock s' ip k = fblock s ip k).
  { intros k Hk. unfold fblock. destruct (Z.ltb_spec k NDIRECT); [done|]. assert (Ha : addr_of ip NDIRECT ≠ 0) by (apply (so_has _ _ _ Hs); lia).
    rewrite Hm; [done| |by intros E; apply Hind]. apply (held_range s ip nb); [done|]. by apply (so_ind _ _ _ Hs). }
  constructor; try done; [by destruct ip|lia|by left| |].
  - intros m [Hr Hu]. split; [by rewrite Hsb|]. rewrite <- Hu. apply in_use_eq; [done|]. apply Hm; [|intros E; apply Hbm; by exists m].
    apply (held_range s ip nb); [done|]. apply (so_meta _ _ _ Hs). right; right. by exists m.
  - intros m Hr _ _ Hno. apply Hm; [lia|]. unfold a. rewrite <- Hfb by done. by apply Hno.
Qed.

(** After the bytes [d] have been stored at [off]. *)
Record progress p s s' (i : nat) ip ip' (nb nb' off : Z) (d : list Z) : Prop := mkProgress {
  pg_cache : cinv p s';
  pg_rest : rest p s s';
  pg_inodes : fs_inodes s' = <[i := ip']> (fs_inodes s);
  pg_sound : sound s' ip' nb';
  pg_ext : ext s s' ip ip' nb nb';
  pg_room : off + Z.of_nat (length d) <= nb' * BSIZE;
  pg_bytes : forall x, 0 <= x < Z.max (nb * BSIZE) (off + Z.of_nat (length d)) ->
    fbyte s' ip' x = if (off <=? x) && (x <? off + Z.of_nat (length d)) then byte_at d (x - off) else fbyte s ip x;
}.

Lemma progress_start p s i ip nb off : cinv p s -> fs_inodes s !! i = Some ip -> sound s ip nb -> 0 <= off <= nb * BSIZE -> progress p s s i ip ip nb nb off [].
Proof.
  intros Hc Hi Hs Hoff. constructor; [done|by apply rest_keeps, keeps_refl|by rewrite list_insert_id|done|apply ext_refl|cbn; lia|].
  intros x _. cbn [length]. destruct (Z.leb_spec off x), (Z.ltb_spec x (off + Z.of_nat 0)); cbn [andb]; (done || lia).
Qed.

(** [bmap] for the block of the next byte. *)
Lemma progress_bmap p s s1 s2 i ip ip1 nb nb1 off d bn r : 0 <= nb -> progress p s s1 i ip ip1 nb nb1 off d -> bmap_post p s1 i ip1 nb1 bn r s2 ->
  exists ip2 nb2, progress p s s2 i ip ip2 nb nb2 off d /\ (r = fblock s2 ip2 bn /\ bn < nb2 \/ r = 0 /\ full s2).
Proof.
  intros Hnb [C1 R1 I1 S1 E1 L1 B1] (C2 & R2 & ip2 & nb2 & I2 & S2 & E2 & D2 & Hor). exists ip2, nb2. split; [|done].
  pose proof (ex_nb _ _ _ _ _ _ E2). pose proof (ex_nb _ _ _ _ _ _ E1). unfold BSIZE in *. constructor.
  - done.
  - by eapply rest_trans.
  - by rewrite I2, I1, list_insert_insert_eq.
  - done.
  - by eapply ext_trans.
  - unfold BSIZE. lia.
  - intros x Hx. rewrite (ext_bytes _ _ _ _ _ _ S1 E2 D2); [by apply B1|]. unfold BSIZE in *. lia.
Qed.

(** Storing the bytes [d2] that follow, inside one block. *)
Lemma progress_store p s s2 s3 i ip ip2 nb nb2 off d d2 : 0 <= nb -> 0 <= off ->
  progress p s s2 i ip ip2 nb nb2 off d -> let x0 := off + Z.of_nat (length d) in
  x0 / BSIZE < nb2 -> x0 mod BSIZE + Z.of_nat (length d2) <= BSIZE -> cinv p s3 -> keeps p s2 s3 ->
  blocks s3 (fblock s2 ip2 (x0 / BSIZE)) = splice (Z.to_nat (x0 mod BSIZE)) d2 (blocks s2 (fblock s2 ip2 (x0 / BSIZE))) ->
  (forall m, 0 <= m < nblk s2 -> m ≠ fblock s2 ip2 (x0 / BSIZE) -> blocks s3 m = blocks s2 m) ->
  progress p s s3 i ip ip2 nb nb2 off (d ++ d2).
Proof.
  intros Hnb Hoff [C1 R1 I1 S1 E1 L1 B1] x0 Hbn Hd2 C3 K3 Hnew Hother.
  assert (Hx0 : 0 <= x0 / BSIZE) by (apply Z.div_pos; [lia|done]).
  destruct (data_ext s2 s3 ip2 nb2 (x0 / BSIZE) S1) as [S3 E3]; [done|apply K3|apply K3|done|].
  assert (Hw : wrote s2 s3 ip2 nb2 x0 d2) by (apply (wrote_block p); [done|by apply sound_layout|lia|done|done|done|done]).
  assert (Hend : x0 + Z.of_nat (length d2) <= nb2 * BSIZE) by (unfold BSIZE in *; Z.to_euclidean_division_equations; nia).
  constructor.
  - done.
  - eapply rest_trans; [done|]. by apply rest_keeps.
  - by rewrite (kp_inodes _ _ _ K3).
  - done.
  - by eapply ext_trans.
  - rewrite length_app. lia.
  - rewrite length_app, Nat2Z.inj_add. intros x Hx. pose proof (ex_nb _ _ _ _ _ _ E1). rewrite (wr_byte _ _ _ _ _ _ Hw) by (unfold BSIZE in *; lia).
    destruct (Z.leb_spec x0 x), (Z.ltb_spec x (x0 + Z.of_nat (length d2))); cbn [andb].
    + rewrite (proj2 (Z.leb_le off x)), (proj2 (Z.ltb_lt x _)) by lia. cbn [andb]. rewrite byte_at_app by lia.
      rewrite (proj2 (Z.ltb_ge (x - off) _)) by lia. f_equal. lia.
    + rewrite B1 by lia. rewrite (proj2 (Z.ltb_ge x (off + Z.of_nat (length d)))), (proj2 (Z.ltb_ge x (off + (_ + _)))) by lia. by rewrite !andb_false_r.
    + rewrite B1 by lia. rewrite (proj2 (Z.ltb_lt x (off + Z.of_nat (length d)))), (proj2 (Z.ltb_lt x (off + (_ + _)))) by lia.
      destruct (Z.leb_spec off x); cbn [andb]; [|done]. rewrite byte_at_app by lia. by rewrite (proj2 (Z.ltb_lt (x - off) _)) by lia.
    + lia.
Qed.

(** Why a write stops early. *)
Definition no_room s (e : Z) : Prop := full s \/ MAXFILE * BSIZE < e.

Section write.
Context (p : list nat) (s : fss D) (i : nat) (ip : uinode) (nb off n : Z) (src : list Z).
Context (Hlen : (S (length p) < UNBUF)%nat) (Hnb : 0 <= nb) (Hoff : 0 <= off <= nb * BSIZE).
Context (Hsrc : n <= Z.of_nat (length src)) (Hmax : off + n < 2 ^ 32) (Hbig : NDIRECT * BSIZE < off + n -> big).

Lemma uwritei_step_grow s1 ip1 nb1 tot : (i < length (fs_inodes s))%nat -> 0 <= tot < n -> progress p s s1 i ip ip1 nb nb1 off (take (Z.to_nat tot) src) ->
  wp (uwritei_step i n (tot, off + tot, drop (Z.to_nat tot) src))
     (fun r s' => exists ip' nb',
        (exists tot', tot < tot' <= n /\ r = inl (tot', off + tot', drop (Z.to_nat tot') src) /\ progress p s s' i ip ip' nb nb' off (take (Z.to_nat tot') src)) \/
        r = inr None /\ no_room s' (off + n) /\ progress p s s' i ip ip' nb nb' off (take (Z.to_nat tot) src)) no_halt s1.
Proof.
  intros Hi Htot Hpg. pose proof Hpg as [C1 R1 I1 S1 E1 L1 B1].
  assert (Hl : Z.of_nat (length (take (Z.to_nat tot) src)) = tot) by (rewrite length_take; lia). rewrite Hl in L1.
  set (bn := (off + tot) / BSIZE). assert (Hbn : 0 <= bn <= nb1) by (unfold bn, BSIZE in *; split; Z.to_euclidean_division_equations; lia).
  assert (Hbx : bn * BSIZE <= off + tot) by (unfold bn, BSIZE; Z.to_euclidean_division_equations; lia).
  assert (Hi1 : fs_inodes s1 !! i = Some ip1) by (rewrite I1; by apply list_lookup_insert_eq).
  unfold uwritei_step. rewrite (proj2 (Z.ltb_lt _ _) (proj2 Htot)). fold bn. wp_step.
  destruct (Z.lt_ge_cases bn MAXFILE) as [Hlt|Hge].
  2: { wp_call (bmap_beyond i bn s1); [split; [done|]; unfold BSIZE in *; lia|]. intros r s' [-> ->]. change (0 =? 0) with true. cbv iota. wp_step.
       exists ip1, nb1. right. split; [done|]. split; [right; unfold BSIZE in *; lia|done]. }
  wp_call (bmap_grow p s1 i ip1 nb1 bn); [done|done|done|done|done|done|intros; apply Hbig; unfold BSIZE in *; lia|].
  intros r s2 Hpost. destruct (progress_bmap _ _ _ _ _ _ _ _ _ _ _ _ _ Hnb Hpg Hpost) as (ip2 & nb2 & Hpg2 & [[-> Hb2]|[-> Hf]]).
  2: { change (0 =? 0) with true. cbv iota. wp_step. exists ip2, nb2. right. split; [done|]. split; [by left|done]. }
  pose proof Hpg2 as [C2 R2 I2 S2 E2 L2 B2]. destruct (so_file _ _ _ S2 bn) as [Hh Hme]; [lia|]. pose proof (held_range _ _ _ _ S2 Hh) as Hr.
  rewrite (proj2 (Z.eqb_neq (fblock s2 ip2 bn) 0)) by (intros E; apply Hme; by left). wp_step.
  wp_call (ubread_spec p s2); [done|lia|done|]. intros ? s3 (bp & -> & C3 & P3 & K3). cbv beta iota.
  assert (0 <= (off + tot) mod BSIZE < BSIZE) by (by apply Z.mod_pos_bound).
  set (m := Z.min (n - tot) (BSIZE - (off + tot) mod BSIZE)). assert (Hm : 1 <= m <= n - tot) by lia.
  rewrite length_drop, (proj2 (Nat.ltb_ge _ _)) by lia. set (d := take (Z.to_nat m) (drop (Z.to_nat tot) src)).
  assert (Hd : Z.of_nat (length d) = m) by (unfold d; rewrite length_take, length_drop; lia). pose proof (blocks_length _ _ _ C2 Hr) as Hbl.
  wp_step. wp_step. wp_step. wp_call (ubwrite_spec bp _ (bp :: p) (bp :: p) s3 (splice (Z.to_nat ((off + tot) mod BSIZE)) d)); [done..| |].
  { rewrite (proj2 K3) by done. rewrite length_splice; [done|]. unfold BSIZE in *. lia. }
  intros _ s4 (C4 & K4 & Hnew & Hother). wp_step. wp_call (ubrelse_spec bp _ p p s4); [done|lia|by eapply (kp_pinned _ _ _ K4); [left|]|].
  intros _ s5 (C5 & K5). wp_step. pose proof (reads_size _ _ _ K3) as N3. pose proof (kp_size _ _ _ K4) as N4. exists ip2, nb2. left. exists (tot + m).
  split; [lia|]. rewrite !u32_id by (unfold is_u32; lia). rewrite Z.add_assoc, drop_drop.
  replace (Z.to_nat tot + Z.to_nat m)%nat with (Z.to_nat (tot + m)) by lia. split; [done|].
  replace (take (Z.to_nat (tot + m)) src) with (take (Z.to_nat tot) src ++ d) by (unfold d; rewrite take_take_drop; f_equal; lia).
  apply (progress_store p s s2 s5 i ip ip2 nb nb2 off _ d); rewrite ?Hl; fold bn; [done|lia|done|done|lia|done| | |].
  - eapply keeps_trans; [apply K3|]. eapply keeps_trans; [eapply keeps_sub; [|exact K4]; set_solver|apply K5].
  - rewrite (proj2 K5), Hnew, (proj2 K3) by (done || by rewrite N4, N3). done.
  - intros k Hk Hne. rewrite (proj2 K5), Hother, (proj2 K3) by (done || by rewrite ?N4, N3). done.
Qed.

Lemma uwritei_loop_grow : cinv p s -> fs_inodes s !! i = Some ip -> sound s ip nb -> 0 <= n ->
  wp (while (S (Z.to_nat n)) (uwritei_step i n) (0, off, src))
     (fun r s' => exists ip' nb',
        r = Some (off + n) /\ progress p s s' i ip ip' nb nb' off (take (Z.to_nat n) src) \/
        r = None /\ no_room s' (off + n) /\ exists tot, 0 <= tot < n /\ progress p s s' i ip ip' nb nb' off (take (Z.to_nat tot) src)) no_halt s.
Proof.
  intros Hc Hi Hs Hn. eapply (wp_while
    (fun st s' => exists tot ip' nb', st = (tot, off + tot, drop (Z.to_nat tot) src) /\ 0 <= tot <= n /\
       progress p s s' i ip ip' nb nb' off (take (Z.to_nat tot) src)) (fun st => Z.to_nat (n - st.1.1))).
  - exists 0, ip, nb. rewrite Z.add_0_r. split; [done|]. split; [lia|]. by apply progress_start.
  - cbn. lia.
  - intros st s' (tot & ip' & nb' & -> & Htot & Hpg). destruct (decide (tot = n)) as [->|].
    + unfold uwritei_step. rewrite Z.ltb_irrefl. wp_step. exists ip', nb'. by left.
    + wp_call (uwritei_step_grow s' ip' nb' tot); [by eapply lookup_lt_Some|lia|done|].
      intros r s2 (ip2 & nb2 & [(tot' & Ht' & -> & Hp2)|(-> & Hno & Hp2)]).
      * split; [|cbn; lia]. exists tot', ip2, nb2. split; [done|]. split; [lia|done].
      * exists ip2, nb2. right. split; [done|]. split; [done|]. exists tot. split; [lia|done].
Qed.
End write.

(** The server after [d] was stored at [off] and the size became [sz]: the
    file has the new bytes, is consistent again, and the blocks in use by
    anything else are as before. *)
Record stored s s' (i : nat) ip ip' (nb nb' off : Z) (d : list Z) (sz : Z) : Prop := mkStored {
  st_inodes : fs_inodes s' = <[i := ip']> (fs_inodes s);
  st_ip : ip' = ui_set_size sz (ui_set_addrs (ui_addrs ip') ip);
  st_sound : sound s' ip' nb';
  st_room : sz <= nb' * BSIZE;
  st_bytes : forall x, 0 <= x < Z.max (nb * BSIZE) (off + Z.of_nat (length d)) ->
    fbyte s' ip' x = if (off <=? x) && (x <? off + Z.of_nat (length d)) then byte_at d (x - off) else fbyte s ip x;
  st_frame : forall m, held s m -> ~ meta s ip m -> m ≠ addr_of ip NDIRECT -> not_of_file s ip nb m -> blocks s' m = blocks s m;
  st_rest : fs_sb s' = fs_sb s /\ fs_fdt s' = fs_fdt s /\ fs_fdi s' = fs_fdi s /\ fs_sent s' = fs_sent s /\ nblk s' = nblk s;
}.

Lemma ext_outside s s' ip ip' nb nb' m : sound s ip nb -> ext s s' ip ip' nb nb' ->
  held s m -> ~ meta s ip m -> m ≠ addr_of ip NDIRECT -> not_of_file s ip nb m -> blocks s' m = blocks s m.
Proof.
  intros Hs He Hh Hm Hi Hno. pose proof (held_range _ _ _ _ Hs Hh) as Hr. apply (ex_frame _ _ _ _ _ _ He).
  - assert (m ≠ 0) by (intros ->; apply Hm; by left). lia.
  - intros Hb. apply Hm. by right; right.
  - destruct (ex_ind _ _ _ _ _ _ He) as [->|[_ Hf]]; [done|]. by intros ->.
  - intros bn Hb. destruct (Z.lt_ge_cases bn nb) as [Hl|Hl]; [rewrite (ex_block _ _ _ _ _ _ He) by lia; apply Hno; lia|].
    intros ->. apply (ex_new _ _ _ _ _ _ He bn); [lia|done].
Qed.

(** The size stays. *)
Lemma stored_same p s s' i ip ip' nb nb' off d : sound s ip nb -> ui_size ip <= nb * BSIZE -> progress p s s' i ip ip' nb nb' off d ->
  stored s s' i ip ip' nb nb' off d (ui_size ip).
Proof.
  intros Hs Hsz [C R I S E L B]. pose proof (ex_nb _ _ _ _ _ _ E). constructor; try done.
  - rewrite (ex_ip _ _ _ _ _ _ E). by destruct ip.
  - unfold BSIZE in *. lia.
  - intros m. by eapply ext_outside.
  - by destruct R.
Qed.

(** The size grows and the inode is written back. *)
Lemma uiupdate_grow p s s1 i ip ip1 nb nb1 off d : (length p < UNBUF)%nat -> sound s ip nb -> (i < length (fs_inodes s))%nat -> progress p s s1 i ip ip1 nb nb1 off d ->
  let sz := off + Z.of_nat (length d) in let ip' := ui_set_size sz ip1 in let ib := IBLOCK (ui_inum ip) (fs_sb s) in
  wp (modify (upd_inode i (ui_set_size sz));; uiupdate i)
     (fun _ s' => cinv p s' /\ stored s s' i ip ip' nb nb1 off d sz /\ blocks s' ib = set_dinode (ui_inum ip) (ui_dinode ip') (blocks s1 ib)) no_halt s1.
Proof.
  intros Hlen Hs Hi [C R I S E L B] sz ip' ib. pose proof S as [_ _ (S1 & S2 & S3) S4 _ _ _ _ _ _].
  assert (Hnum : ui_inum ip1 = ui_inum ip) by (by rewrite (ex_ip _ _ _ _ _ _ E)).
  assert (Hib : ib = IBLOCK (ui_inum ip1) (fs_sb s1)) by (unfold ib; by rewrite Hnum, (rs_sb _ _ _ R)).
  assert (Hh : held s1 ib) by (apply S4; right; left; done). pose proof (held_range _ _ _ _ S Hh) as Hr. rewrite <- Hib in S3.
  assert (Hi1 : fs_inodes s1 !! i = Some ip1) by (rewrite I; by apply list_lookup_insert_eq).
  wp_step. eapply wp_upd_inode; [done|]. set (s2 := set_inodes _ s1).
  assert (Hi2 : fs_inodes s2 !! i = Some ip') by (apply list_lookup_insert_eq; by eapply lookup_lt_Some).
  assert (Eib : IBLOCK (ui_inum ip') (fs_sb s2) = ib) by done.
  wp_call (uiupdate_spec p s2 i ip'); [by apply cinv_inodes|done|done|done|done|by rewrite Eib|]. rewrite Eib.
  intros _ s3 (C3 & K3 & Hnew & Hother). change (nblk s2) with (nblk s1) in Hother. split; [done|].
  assert (Hne : addr_of ip1 NDIRECT ≠ 0 -> ib ≠ addr_of ip1 NDIRECT).
  { intros Ha E'. destruct (so_ind _ _ _ S Ha) as (_ & Hm & _). apply Hm. right; left. by rewrite <- E'. }
  assert (Sx : sound s3 ip1 nb1) by (apply (sound_outside s1 s3 ip1 nb1 ib); try done; [by rewrite (kp_sb _ _ _ K3)|by rewrite (kp_size _ _ _ K3)]).
  assert (Hfb : forall k, 0 <= k < nb1 -> fblock s3 ip1 k = fblock s1 ip1 k).
  { intros k Hk. unfold fblock. destruct (Z.ltb_spec k NDIRECT); [done|]. assert (Ha : addr_of ip1 NDIRECT ≠ 0) by (apply (so_has _ _ _ S); lia).
    rewrite Hother; [done| |by intros E'; apply Hne]. apply (held_range s1 ip1 nb1); [done|]. by apply (so_ind _ _ _ S). }
  split; [constructor|rewrite Hnew; change (ui_inum ip') with (ui_inum ip1); by rewrite Hnum].
  - rewrite (kp_inodes _ _ _ K3). cbn. by rewrite I, list_insert_insert_eq.
  - unfold ip'. rewrite (ex_ip _ _ _ _ _ _ E). by destruct ip.
  - by destruct Sx.
  - done.
  - intros x Hx. rewrite <- B by done. unfold fbyte. change (fblock s3 ip' (x / BSIZE)) with (fblock s3 ip1 (x / BSIZE)).
    pose proof (ex_nb _ _ _ _ _ _ E). assert (Hxb : 0 <= x / BSIZE < nb1) by (unfold BSIZE in *; split; Z.to_euclidean_division_equations; lia).
    rewrite Hfb by done. destruct (so_file _ _ _ S _ Hxb) as [Hxh Hxm]. rewrite Hother; [done|by eapply held_range|].
    intros E'. apply Hxm. right; left. by rewrite E'.
  - intros m Hmh Hmm Hmi Hmo. rewrite Hother; [by apply (ext_outside s s1 ip ip1 nb nb1 m)| |intros ->; apply Hmm; by right; left].
    rewrite (rs_size _ _ _ R). by apply (held_range s ip nb).
  - destruct R, K3. unfold nblk in *. cbn in *. split_and!; congruence.
Qed.

(** The inode is on the disk as [ip]. *)
Definition saved s ip : Prop := exists b, blocks s (IBLOCK (ui_inum ip) (fs_sb s)) = set_dinode (ui_inum ip) (ui_dinode ip) b.

Lemma uwritei_grow p s i ip nb off n src : cinv p s -> (S (length p) < UNBUF)%nat -> fs_inodes s !! i = Some ip -> sound s ip nb ->
  ui_size ip <= nb * BSIZE -> 0 <= off <= ui_size ip -> 0 <= n < 2 ^ 31 -> n <= Z.of_nat (length src) -> (NDIRECT * BSIZE < off + n -> big) ->
  wp (uwritei i src off n)
     (fun r s' => cinv p s' /\ exists ip' nb',
        r = n /\ stored s s' i ip ip' nb nb' off (take (Z.to_nat n) src) (Z.max (ui_size ip) (off + n)) /\ (ui_size ip < off + n -> saved s' ip') \/
        r = -1 /\ no_room s' (off + n) /\ exists tot, 0 <= tot < n /\ stored s s' i ip ip' nb nb' off (take (Z.to_nat tot) src) (ui_size ip)) no_halt s.
Proof.
  intros Hc Hlt Hi Hs Hsz Hoff Hn Hsrc Hbig. pose proof (so_nb _ _ _ Hs) as Hnb. unfold MAXFILE in Hnb. change NDIRECT with 12 in Hnb. change NINDIRECT with 128 in Hnb.
  assert (Hmax : off + n < 2 ^ 32) by (unfold BSIZE in *; lia).
  unfold uwritei. rewrite u32_id, (proj2 (Z.ltb_ge _ _)) by (unfold is_u32; lia). wp_step.
  wp_call (uwritei_loop_grow p s i ip nb off n src); [done|lia|lia|done|done|done|done|done|done|lia|].
  intros r s1 (ip1 & nb1 & [[-> Hpg]|(-> & Hno & tot & Htot & Hpg)]); cbv beta iota.
  2: { wp_step. split; [apply Hpg|]. exists ip1, nb1. right. split; [done|]. split; [done|]. exists tot. split; [done|]. by apply (stored_same p). }
  assert (Hl : Z.of_nat (length (take (Z.to_nat n) src)) = n) by (rewrite length_take; lia).
  assert (Hi1 : fs_inodes s1 !! i = Some ip1) by (rewrite (pg_inodes _ _ _ _ _ _ _ _ _ _ Hpg); apply list_lookup_insert_eq; by eapply lookup_lt_Some).
  assert (Hsz1 : ui_size ip1 = ui_size ip) by (by rewrite (ex_ip _ _ _ _ _ _ (pg_ext _ _ _ _ _ _ _ _ _ _ Hpg))).
  wp_step. eapply wp_the_inode; [done|]. rewrite Hsz1, s32_id by (unfold is_s32; lia). wp_step.
  destruct (Z.ltb_spec 0 n) as [Hn0|Hn0], (Z.ltb_spec (ui_size ip) (off + n)) as [Hg|Hg]; cbn [andb when].
  2,3,4: wp_step; wp_step; split; [apply Hpg|]; exists ip1, nb1; left; split; [done|]; split; [|lia]; rewrite Z.max_l by lia; by apply (stored_same p).
  pose proof (uiupdate_grow p s s1 i ip ip1 nb nb1 off _ ltac:(lia) Hs ltac:(by eapply lookup_lt_Some) Hpg) as Hu. rewrite Hl in Hu.
  wp_call Hu. intros _ s2 (Hc2 & Hst & Hib). wp_step. split; [done|]. exists (ui_set_size (off + n) ip1), nb1. left. split; [done|].
  rewrite Z.max_r by lia. split; [done|]. intros _. exists (blocks s1 (IBLOCK (ui_inum ip) (fs_sb s))).
  assert (Hnum : ui_inum (ui_set_size (off + n) ip1) = ui_inum ip) by (by rewrite (st_ip _ _ _ _ _ _ _ _ _ _ Hst)).
  rewrite Hnum, (proj1 (st_rest _ _ _ _ _ _ _ _ _ _ Hst)). done.
Qed.
End consistency.
