(* ===== verification/FssDir.v ===== *)
(** * FssDir: directories, path lookup and inode allocation in fsserver.c

    A [char*] into a buffer is the rest of the buffer from that byte on;
    running off its end halts with [OutOfBounds]. *)
From S2P Require Import Prelude Ring FsFormat BlockDev Ipc CString FssCache FssFile.

(** [while( *s1 && *s2 && *s1 == *s2) { s1++; s2++; } return *s1 - *s2;] *)
Fixpoint unamecmp (s1 s2 : list Z) : option Z :=
  match s1, s2 with
  | a :: s1', b :: s2' =>
      if (negb (a =? 0) && negb (b =? 0) && (a =? b))%bool then unamecmp s1' s2' else Some (a - b)
  | _, _ => None
  end.

(** [if(len >= DIRSIZ) { memmove(name, s, DIRSIZ); name[DIRSIZ-1] = 0; }
    else { memmove(name, s, len); name[len] = 0; }] *)
Definition copy_elem (s : list Z) (len : nat) (name : list Z) : list Z :=
  if (DIRSIZ <=? len)%nat then <[(DIRSIZ - 1)%nat := 0]> (splice 0 (take DIRSIZ s) name)
  else <[len := 0]> (splice 0 (take len s) name).

Section fsserver.
Context {D : Type} `{BlockDev D}.
Implicit Types s : fss D.

(** The result and, when an entry matched, the value stored in [*poff]. *)
Definition dirlookup (dp : nat) (name : list Z) : M (fss D) (option nat * option Z) :=
  d ← the_inode dp;
  if negb (ui_type d =? T_DIR) then mret (None, None)
  else
    r ← for_each (for_range 0 (ui_size d) 16) (fun off =>
      rd ← ureadi dp off 16;
      if negb (rd.1 =? 16) then mret (Some (None, None))
      else
        let de := decode_dirent rd.2 in
        if de_inum de =? 0 then mret None
        else
          c ← of_option OutOfBounds (unamecmp name (de_name de));
          if c =? 0 then
            ip ← uiget (ui_dev d) (de_inum de);
            mret (Some (ip, Some off))
          else mret None);
    mret (default (None, None) r).

Definition dirlink (dp : nat) (name : list Z) (inum : Z) : M (fss D) Z :=
  r ← dirlookup dp name;
  match r.1 with
  | Some ip => uiput ip;; mret (-1)
  | None =>
      d ← the_inode dp;
      r ← for_each (for_range 0 (ui_size d) 16) (fun off =>
        rd ← ureadi dp off 16;
        if negb (rd.1 =? 16) then halt_with Exited
        else if de_inum (decode_dirent rd.2) =? 0 then mret (Some off) else mret None);
      let off := default (16 * ((ui_size d + 15) / 16)) r in
      nm ← of_option OutOfBounds (strncpy (replicate DIRSIZ 0) name DIRSIZ);
      w ← uwritei dp (encode_dirent (mkDirent (u16 inum) nm)) (u32 off) 16;
      if negb (w =? 16) then halt_with Exited else mret 0
  end.

(** A pointer that the code dereferences without a null check. *)
Definition nonnull {A} (o : option A) : M (fss D) A := of_option NullDeref o.

Fixpoint namei_loop (fuel : nat) (p name : list Z) (ip : option nat) : M (fss D) (option nat) :=
  match fuel with
  | O => halt_with NoFuel
  | S fuel =>
      c ← of_option OutOfBounds (head p);
      if c =? 0 then mret ip
      else
        e ← of_option OutOfBounds (scan_elem p);
        let name := copy_elem p e.1 name in
        p ← of_option OutOfBounds (skip_slashes e.2);
        i ← nonnull ip;
        uilock i;;
        d ← the_inode i;
        if negb (ui_type d =? T_DIR) then uiput i;; mret None
        else
          nx ← dirlookup i name;
          c ← of_option OutOfBounds (head p);
          match nx.1 with
          | None => if c =? 0 then uiput i;; mret None else uiput i;; mret None
          | Some _ => uiput i;; namei_loop fuel p name nx.1
          end
  end.

Definition namei (path : list Z) : M (fss D) (option nat) :=
  ip ← uiget ROOTDEV ROOTINO;
  p ← of_option OutOfBounds (skip_slashes path);
  namei_loop (S (length path)) p (replicate DIRSIZ 0) ip.

(** [nameiparent] also returns the final element it left in [name]. *)
Fixpoint nameiparent_loop (fuel : nat) (p name : list Z) (ip : option nat)
    : M (fss D) (option nat * list Z) :=
  match fuel with
  | O => halt_with NoFuel
  | S fuel =>
      c ← of_option OutOfBounds (head p);
      if c =? 0 then mret (None, name)
      else
        e ← of_option OutOfBounds (scan_elem p);
        let name := copy_elem p e.1 name in
        p ← of_option OutOfBounds (skip_slashes e.2);
        c ← of_option OutOfBounds (head p);
        if c =? 0 then mret (ip, name)
        else
          i ← nonnull ip;
          uilock i;;
          d ← the_inode i;
          if negb (ui_type d =? T_DIR) then uiput i;; mret (None, name)
          else
            nx ← dirlookup i name;
            uiput i;;
            match nx.1 with
            | None => mret (None, name)
            | Some _ => nameiparent_loop fuel p name nx.1
            end
  end.

Definition nameiparent (path name : list Z) : M (fss D) (option nat * list Z) :=
  c ← of_option OutOfBounds (head path);
  if negb (c =? SLASH) then mret (None, name)
  else
    ip ← uiget ROOTDEV ROOTINO;
    p ← of_option OutOfBounds (skip_slashes path);
    nameiparent_loop (S (length path)) p name ip.

Definition ialloc (type : Z) : M (fss D) (option nat) :=
  sb ← gets fs_sb;
  r ← for_each (for_range 1 (sb_ninodes sb) 1) (fun inum =>
    r ← ubread ROOTDEV (IBLOCK inum sb);
    match r with
    | None => mret None
    | Some bp =>
        b ← the_ubuf bp;
        if di_type (dinode_at (ub_data b) inum) =? 0 then
          modify (upd_ubuf bp (fun b =>
            ub_set_data (set_dinode inum (mkDinode (s16 type) 0 0 0 0 (replicate 13 0)) (ub_data b)) b));;
          ubwrite bp;;
          ubrelse bp;;
          ip ← uiget ROOTDEV inum;
          mret (Some ip)
        else ubrelse bp;; mret None
    end);
  mret (default None r).
End fsserver.
