(* ===== verification/FssRefs.v ===== *)
(** * FssRefs: reference counts of the file server

    [rinv p q s]: the reference counts of the block cache and of the inode
    cache are those of the references [p] and [q] that the running code
    holds.  Every operation of fsserver.c is shown to hold, when it returns,
    exactly the references its result stands for. *)
From S2P Require Import Prelude Ring FsFormat BlockDev Ipc CString FssCache FssFile FssDir.

Section refs.
Context {D : Type} `{BlockDev D}.
Implicit Types (s : fss D) (p q : list nat).

Record rinv p q s : Prop := mkRinv {
  ri_bufs : forall i b, fs_bufs s !! i = Some b -> ub_refcnt b = s32 (refs p i);
  ri_inodes : forall i ip, fs_inodes s !! i = Some ip -> ui_ref ip = s32 (refs q i);
  ri_length : length (fs_inodes s) = UNINODE;
  ri_valid : Forall (fun i => i < UNINODE)%nat q;
}.

(** [s] holds the references [p] and [q], and the descriptor table and the
    replies are those of [s0]. *)
Record st p q s0 s : Prop := mkSt {
  st_rinv : rinv p q s;
  st_fdt : fs_fdt s = fs_fdt s0;
  st_fdi : fs_fdi s = fs_fdi s0;
  st_sent : fs_sent s = fs_sent s0;
}.

(** A returned pointer is one more reference. *)
Definition ref_opt (o : option nat) (p : list nat) : list nat :=
  match o with Some i => i :: p | None => p end.

Lemma refs_perm p p' i : p ≡ₚ p' -> refs p i = refs p' i.
Proof. intros Hp. unfold refs. f_equal. by apply (proj1 (Permutation_count_occ Nat.eq_dec p p')). Qed.

Lemma st_perm p q q' s0 s : q ≡ₚ q' -> st p q s0 s -> st p q' s0 s.
Proof.
  intros Hq [[Hb Hi] ? ? ?]. constructor; try done. constructor; [done| |done|by rewrite <- Hq].
  intros i ip Hip. rewrite <- (refs_perm q q') by done. by apply Hi.
Qed.

Lemma st_upd_inode p q s0 s i f :
  (forall ip, ui_ref (f ip) = ui_ref ip) -> st p q s0 s -> st p q s0 (upd_inode i f s).
Proof.
  intros Hf [[Hb Hi] ? ? ?]. constructor; try done.
  constructor; [done| |by cbn; rewrite length_alter|done]. cbn.
  intros j ip. rewrite list_lookup_alter. destruct (decide (i = j)) as [<-|]; [|by apply Hi].
  destruct (fs_inodes s !! i) as [x|] eqn:E; [|done]. cbn. intros [= <-]. rewrite Hf. by apply Hi.
Qed.

Lemma st_upd_ubuf p q s0 s i f :
  (forall b, ub_refcnt (f b) = ub_refcnt b) -> st p q s0 s -> st p q s0 (upd_ubuf i f s).
Proof.
  intros Hf [[Hb Hi] ? ? ?]. constructor; try done. constructor; [|done..]. cbn.
  intros j b. rewrite list_lookup_alter. destruct (decide (i = j)) as [<-|]; [|by apply Hb].
  destruct (fs_bufs s !! i) as [x|] eqn:E; [|done]. cbn. intros [= <-]. rewrite Hf. by apply Hb.
Qed.

Lemma st_set_dev p q s0 s d : st p q s0 s -> st p q s0 (set_dev d s).
Proof. by intros [[] ? ? ?]. Qed.
Lemma st_set_sb p q s0 s sb : st p q s0 s -> st p q s0 (set_sb sb s).
Proof. by intros [[] ? ? ?]. Qed.

(** Taking and giving back a reference to buffer or inode [i]. *)
Lemma st_ref_ubuf p p' q s0 s i f :
  (forall b, fs_bufs s !! i = Some b -> ub_refcnt (f b) = s32 (refs p' i)) ->
  (forall j, j ≠ i -> refs p' j = refs p j) ->
  st p q s0 s -> st p' q s0 (upd_ubuf i f s).
Proof.
  intros Hf Hp [[Hb Hi] ? ? ?]. constructor; try done. constructor; [|done..]. cbn.
  intros j b. rewrite list_lookup_alter. destruct (decide (i = j)) as [<-|].
  - destruct (fs_bufs s !! i) as [x|] eqn:E; [|done]. cbn. intros [= <-]. by apply Hf.
  - rewrite Hp by done. apply Hb.
Qed.

Lemma st_ref_inode p q q' s0 s i f :
  (forall ip, fs_inodes s !! i = Some ip -> ui_ref (f ip) = s32 (refs q' i)) ->
  (forall j, j ≠ i -> refs q' j = refs q j) -> (Forall (fun i => i < UNINODE)%nat q') ->
  st p q s0 s -> st p q' s0 (upd_inode i f s).
Proof.
  intros Hf Hq Hv [[Hb Hi] ? ? ?]. constructor; try done.
  constructor; [done| |by cbn; rewrite length_alter|done]. cbn.
  intros j ip. rewrite list_lookup_alter. destruct (decide (i = j)) as [<-|].
  - destruct (fs_inodes s !! i) as [x|] eqn:E; [|done]. cbn. intros [= <-]. by apply Hf.
  - rewrite Hq by done. apply Hi.
Qed.

Lemma refs_succ p i : s32 (s32 (refs p i) + 1) = s32 (refs (i :: p) i).
Proof. rewrite s32_add_l. by rewrite refs_cons_eq. Qed.

Lemma refs_pred p i : s32 (s32 (refs (i :: p) i) - 1) = s32 (refs p i).
Proof. rewrite <- Z.add_opp_r, s32_add_l, refs_cons_eq. f_equal. lia. Qed.

Lemma refs_first p i : s32 (refs p i) = 0 -> s32 (refs (i :: p) i) = 1.
Proof. intros E. rewrite <- refs_succ, E. done. Qed.

(** A specification: from a state that holds [p] and [q], a run that returns
    [r] holds [(post r).1] and [(post r).2]. *)
Definition holding {A} p q (m : M (fss D) A) (post : A -> list nat * list nat) : Prop :=
  forall s0 s, st p q s0 s -> wp m (fun r s' => st (post r).1 (post r).2 s0 s') any_halt s.

Lemma holding_ret {A} p q (a : A) post : post a = (p, q) -> holding p q (mret a) post.
Proof. intros E s0 s Hs. apply wp_ret. by rewrite E. Qed.

Lemma holding_bind {A B} p q (m : M (fss D) A) (f : A -> M (fss D) B) mid post :
  holding p q m mid -> (forall a, holding (mid a).1 (mid a).2 (f a) post) -> holding p q (m ≫= f) post.
Proof.
  intros Hm Hf s0 s Hs. apply wp_bind. eapply wp_conseq; [by apply Hm|]. intros a s' Hs'. by apply Hf.
Qed.

(** The common case of a first step that keeps the references. *)
Lemma holding_then {A B} p q (m : M (fss D) A) (f : A -> M (fss D) B) post :
  holding p q m (fun _ => (p, q)) -> (forall a, holding p q (f a) post) -> holding p q (m ≫= f) post.
Proof. intros Hm Hf. by eapply holding_bind. Qed.

Lemma holding_read {A} p q (f : fss D -> A) : holding p q (gets f) (fun _ => (p, q)).
Proof. by intros s0 s Hs. Qed.
Lemma holding_of_option {A} p q h (o : option A) : holding p q (of_option h o) (fun _ => (p, q)).
Proof. intros s0 s Hs. by apply wp_of_option_any. Qed.
Lemma holding_ubuf p q i : holding p q (the_ubuf i) (fun _ => (p, q)).
Proof. intros s0 s Hs. unfold the_ubuf. wp_step. wp_step. by apply wp_of_option_any. Qed.
Lemma holding_inode p q i : holding p q (the_inode i) (fun _ => (p, q)).
Proof. intros s0 s Hs. unfold the_inode. wp_step. wp_step. by apply wp_of_option_any. Qed.
Lemma holding_upd_ubuf p q i f :
  (forall b, ub_refcnt (f b) = ub_refcnt b) -> holding p q (modify (upd_ubuf i f)) (fun _ => (p, q)).
Proof. intros Hf s0 s Hs. apply wp_modify. by apply st_upd_ubuf. Qed.
Lemma holding_upd_inode p q i f :
  (forall ip, ui_ref (f ip) = ui_ref ip) -> holding p q (modify (upd_inode i f)) (fun _ => (p, q)).
Proof. intros Hf s0 s Hs. apply wp_modify. by apply st_upd_inode. Qed.
Lemma holding_halt {A} p q h post : holding p q (halt_with h : M (fss D) A) post.
Proof. by intros s0 s Hs. Qed.
Lemma holding_when p q b (m : M (fss D) unit) :
  holding p q m (fun _ => (p, q)) -> holding p q (when b m) (fun _ => (p, q)).
Proof. intros Hm. destruct b; [done|by apply holding_ret]. Qed.

Lemma holding_for_each {X R} p q (xs : list X) (body : X -> M (fss D) (option R)) post :
  (forall x, holding p q (body x) (fun r => match r with Some _ => post r | None => (p, q) end)) ->
  post None = (p, q) -> holding p q (for_each xs body) post.
Proof.
  intros Hb Hn s0 s Hs. eapply (wp_for_each (fun _ s => st p q s0 s)); [done|..].
  - intros x _ s1 Hs1. eapply wp_conseq; [by apply Hb|]. by intros [r|] s2.
  - intros s1. by rewrite Hn.
Qed.

Lemma holding_while {X R} p q fuel (step : X -> M (fss D) (X + R)) x post :
  (forall x, holding p q (step x) (fun r => match r with inl _ => (p, q) | inr r => post r end)) ->
  holding p q (while fuel step x) post.
Proof.
  intros Hb s0 s Hs. apply (wp_while_any (fun _ s => st p q s0 s)); [done|].
  intros y s1 Hs1. eapply wp_conseq; [by apply Hb|]. by intros [y'|r] s2.
Qed.

Lemma holding_perm {A} p q q' (m : M (fss D) A) post :
  q ≡ₚ q' -> holding p q m post -> holding p q' m post.
Proof. intros Hq Hm s0 s Hs. apply Hm. by eapply st_perm. Qed.
End refs.

Create HintDb holding.
#[export] Hint Resolve holding_read holding_of_option holding_ubuf holding_inode holding_halt
  holding_upd_ubuf holding_upd_inode holding_when : holding.

(** [hold_step] splits off the first operation of a computation, looking its
    specification up in the database. *)
Ltac hold_step :=
  lazymatch goal with
  | |- holding _ _ (mret _) _ => apply holding_ret; done
  | |- holding _ _ (halt_with _) _ => apply holding_halt
  | |- holding _ _ (mbind _ _) _ =>
      (apply holding_then; [solve [eauto with holding]|intros ?])
      || (eapply holding_bind; [solve [eauto with holding]|intros ?; cbn [fst snd]])
  | |- holding _ _ (if ?b then _ else _) _ => destruct b
  | |- holding _ _ (match ?o with Some _ => _ | None => _ end) _ => destruct o; cbn [ref_opt fst snd]
  | |- _ => solve [eauto with holding]
  end.

Section operations.
Context {D : Type} `{BlockDev D}.
Implicit Types (s : fss D) (p q : list nat).

Lemma ubuf_get_holding p q dev n :
  holding p q (ubuf_get (D := D) dev n) (fun r => (ref_opt r p, q)).
Proof.
  intros s0 s Hs. unfold ubuf_get. wp_step. wp_step. wp_step. apply wp_of_option_any.
  intros [i|] _; cbv beta iota.
  - wp_step. wp_step. wp_step. apply (st_ref_ubuf p); [|intros; by apply refs_cons_ne|done].
    intros b Hb. cbn. rewrite (ri_bufs _ _ _ (st_rinv _ _ _ _ Hs) i b Hb). apply refs_succ.
  - wp_step. apply wp_of_option_any. intros [i|] Hi; wp_step; [|done]. wp_step. wp_step.
    apply (st_ref_ubuf p); [|intros; by apply refs_cons_ne|done]. intros b Hb. cbn.
    apply scan_some in Hi. unfold ubuf_is in Hi. rewrite Hb in Hi. apply Z.eqb_eq in Hi.
    symmetry. apply refs_first. by rewrite <- (ri_bufs _ _ _ (st_rinv _ _ _ _ Hs) i b Hb).
Qed.

Lemma ubrelse_holding p q i : holding (i :: p) q (ubrelse (D := D) i) (fun _ => (p, q)).
Proof.
  intros s0 s Hs. apply wp_modify. apply (st_ref_ubuf (i :: p)); [| |done].
  - intros b Hb. cbn. rewrite (ri_bufs _ _ _ (st_rinv _ _ _ _ Hs) i b Hb). apply refs_pred.
  - intros j Hj. by rewrite refs_cons_ne.
Qed.

Lemma udisk_request_holding p q n buf op :
  holding p q (udisk_request (D := D) n buf op) (fun _ => (p, q)).
Proof.
  intros s0 s Hs. unfold wp, udisk_request. destruct (disk_request _ _ _ _) as [[r|h] d]; [|done].
  by apply st_set_dev.
Qed.
#[local] Hint Resolve ubuf_get_holding ubrelse_holding udisk_request_holding : holding.

Lemma ubread_holding p q dev n :
  holding p q (ubread (D := D) dev n) (fun r => (ref_opt r p, q)).
Proof.
  unfold ubread. hold_step. destruct a as [i|]; cbn [ref_opt]; [|hold_step].
  hold_step. hold_step; [|hold_step]. hold_step. hold_step. hold_step.
  - eapply holding_bind; [apply ubrelse_holding|]. intros ?. hold_step.
  - hold_step. hold_step.
Qed.

Lemma ubwrite_holding p q i : holding p q (ubwrite (D := D) i) (fun _ => (p, q)).
Proof. unfold ubwrite. repeat hold_step. Qed.
#[local] Hint Resolve ubread_holding ubwrite_holding : holding.

Lemma uiget_loop_free dev inum l : forall i e j,
  uiget_loop dev inum l i e = inr (Some j) ->
  e = Some j \/ exists ip, l !! (j - i)%nat = Some ip /\ (i <= j)%nat /\ ui_ref ip = 0.
Proof.
  induction l as [|ip l IH]; intros i e j; cbn [uiget_loop]; [by intros [= ->]; left|].
  destruct (_ && _ && _)%bool; [done|]. intros [He|(x & Hx & Hij & Hr)]%IH.
  - destruct e as [k|]; [by left|]. destruct (Z.eqb_spec (ui_ref ip) 0); [|done].
    injection He as <-. right. exists ip. by rewrite Nat.sub_diag.
  - right. exists x. replace (j - i)%nat with (S (j - S i)) by lia. split_and!; [done|lia|done].
Qed.

Lemma uiget_loop_found dev inum l : forall i e j,
  uiget_loop dev inum l i e = inl j -> (i <= j < i + length l)%nat.
Proof.
  induction l as [|ip l IH]; intros i e j; cbn [uiget_loop length]; [done|].
  destruct (_ && _ && _)%bool; [intros [= <-]; lia|]. intros ?%IH. lia.
Qed.

Lemma uiget_holding p q dev inum :
  holding p q (uiget (D := D) dev inum) (fun r => (p, ref_opt r q)).
Proof.
  intros s0 s Hs. unfold uiget. wp_step. wp_step.
  destruct (uiget_loop _ _ _ _ _) as [i|[i|]] eqn:E; [..|by wp_step].
  - wp_step. wp_step. wp_step. apply (st_ref_inode p q); [|intros; by apply refs_cons_ne| |done].
    2: { apply uiget_loop_found in E. rewrite (ri_length _ _ _ (st_rinv _ _ _ _ Hs)) in E.
         constructor; [lia|apply Hs]. }
    intros ip Hi. cbn. rewrite (ri_inodes _ _ _ (st_rinv _ _ _ _ Hs) i ip Hi). apply refs_succ.
  - apply uiget_loop_free in E as [|(x & Hx & _ & Hr)]; [done|]. rewrite Nat.sub_0_r in Hx.
    wp_step. wp_step. wp_step. apply (st_ref_inode p q); [|intros; by apply refs_cons_ne| |done].
    + intros ip Hi. cbn. symmetry. apply refs_first.
      rewrite <- (ri_inodes _ _ _ (st_rinv _ _ _ _ Hs) i ip Hi). congruence.
    + apply lookup_lt_Some in Hx. rewrite (ri_length _ _ _ (st_rinv _ _ _ _ Hs)) in Hx.
      constructor; [done|apply Hs].
Qed.

Lemma uiput_holding p q i : holding p (i :: q) (uiput (D := D) i) (fun _ => (p, q)).
Proof.
  unfold uiput. eapply holding_bind with (mid := fun _ => (p, q)).
  - intros s0 s Hs. apply wp_modify. apply (st_ref_inode p (i :: q)); [| |by eapply Forall_inv_tail, Hs|done].
    + intros ip Hi. cbn. rewrite (ri_inodes _ _ _ (st_rinv _ _ _ _ Hs) i ip Hi). apply refs_pred.
    + intros j Hj. by rewrite refs_cons_ne.
  - intros ?. cbn [fst snd]. repeat hold_step.
Qed.
End operations.
#[export] Hint Resolve ubuf_get_holding ubrelse_holding udisk_request_holding ubread_holding
  ubwrite_holding uiget_holding uiput_holding : holding.

(** A pattern of the code: get a block, work on it, release it. *)
Ltac hold_read :=
  eapply holding_bind; [apply ubread_holding|];
  let bp := fresh "bp" in intros [bp|]; cbn [fst snd ref_opt].

Section files.
Context {D : Type} `{BlockDev D}.
Implicit Types (s : fss D) (p q : list nat).

Lemma uilock_holding p q i : holding p q (uilock (D := D) i) (fun _ => (p, q)).
Proof. unfold uilock. do 2 hold_step; [hold_step|]. hold_step. hold_read; repeat hold_step. Qed.

Lemma uiupdate_holding p q i : holding p q (uiupdate (D := D) i) (fun _ => (p, q)).
Proof. unfold uiupdate. do 2 hold_step. hold_read; repeat hold_step. Qed.

Lemma readsb_holding p q : holding p q (readsb (D := D)) (fun _ => (p, q)).
Proof.
  unfold readsb. hold_read; [|hold_step]. hold_step. apply holding_then; [|intros; hold_step].
  intros s0 s Hs. apply wp_modify. by apply st_set_sb.
Qed.

Lemma balloc_holding p q : holding p q (balloc (D := D)) (fun _ => (p, q)).
Proof.
  unfold balloc. hold_step. apply holding_then; [|intros; hold_step].
  apply holding_for_each; [|done]. intros b. hold_read; [|hold_step].
  hold_step. destruct (List.find _ _); repeat hold_step.
Qed.

Lemma bfree_holding p q b : holding p q (bfree (D := D) b) (fun _ => (p, q)).
Proof.
  unfold bfree. apply holding_then; [apply readsb_holding|intros _]. hold_step.
  hold_read; repeat hold_step.
Qed.
#[local] Hint Resolve uilock_holding uiupdate_holding balloc_holding : holding.

Lemma bmap_slot_holding p q i k : holding p q (bmap_slot (D := D) i k) (fun _ => (p, q)).
Proof. unfold bmap_slot. repeat hold_step. Qed.
#[local] Hint Resolve bmap_slot_holding : holding.

Lemma bmap_holding p q i bn : holding p q (bmap (D := D) i bn) (fun _ => (p, q)).
Proof.
  unfold bmap. hold_step; [hold_step|]. hold_step; [|hold_step]. hold_step. hold_step; [hold_step|].
  hold_read; repeat hold_step.
Qed.
#[local] Hint Resolve bmap_holding : holding.

Lemma uwritei_holding p q i src off n : holding p q (uwritei (D := D) i src off n) (fun _ => (p, q)).
Proof.
  unfold uwritei. hold_step; [hold_step|]. apply holding_then; [|intros [o|]; repeat hold_step].
  - apply holding_while. intros [[tot o] sr]. unfold uwritei_step. hold_step; [|hold_step].
    hold_step. hold_step; [hold_step|]. hold_read; repeat hold_step.
  - apply holding_then; [apply holding_when|intros]; repeat hold_step.
Qed.

Lemma ureadi_holding p q i off n : holding p q (ureadi (D := D) i off n) (fun _ => (p, q)).
Proof.
  unfold ureadi. hold_step. hold_step; [hold_step|]. apply holding_then; [|intros; hold_step].
  apply holding_while. intros [[tot o] sr]. unfold ureadi_step. hold_step; [|hold_step].
  hold_step. hold_step; [hold_step|]. hold_read; repeat hold_step.
Qed.
End files.
#[export] Hint Resolve uilock_holding uiupdate_holding readsb_holding balloc_holding bfree_holding
  bmap_holding uwritei_holding ureadi_holding : holding.

Section directories.
Context {D : Type} `{BlockDev D}.
Implicit Types (s : fss D) (p q : list nat).

Lemma dirlookup_holding p q dp name :
  holding p q (dirlookup (D := D) dp name) (fun r => (p, ref_opt r.1 q)).
Proof.
  unfold dirlookup. hold_step. hold_step; [hold_step|].
  eapply holding_bind with
    (mid := fun r : option (option nat * option Z) => (p, ref_opt (default (None, None) r).1 q));
    [|intros [[o x]|]; hold_step].
  apply holding_for_each; [|done]. intros off. hold_step. hold_step; [hold_step|].
  hold_step; [hold_step|]. hold_step. hold_step; [|hold_step].
  eapply holding_bind; [apply uiget_holding|]. intros o. hold_step.
Qed.

Lemma dirlink_holding p q dp name inum :
  holding p q (dirlink (D := D) dp name inum) (fun _ => (p, q)).
Proof.
  unfold dirlink. eapply holding_bind; [apply dirlookup_holding|]. intros [[ip|] x]; cbn [fst snd ref_opt].
  - eapply holding_bind; [apply uiput_holding|]. intros ?. hold_step.
  - hold_step. apply holding_then.
    + apply holding_for_each; [|done]. intros off. repeat hold_step.
    + intros r. repeat hold_step.
Qed.

Lemma namei_loop_holding fuel p q : forall pa name ip,
  holding p (ref_opt ip q) (namei_loop (D := D) fuel pa name ip) (fun r => (p, ref_opt r q)).
Proof.
  induction fuel as [|fuel IH]; intros pa name ip; cbn [namei_loop]; [hold_step|].
  hold_step. hold_step; [hold_step|]. hold_step. hold_step.
  destruct ip as [i|]; cbn [nonnull of_option ref_opt]; [|by intros s0 s Hs].
  eapply holding_bind with (mid := fun j => (p, j :: q)); [by apply holding_ret|].
  clear i. intros i. cbn [fst snd]. hold_step. hold_step. hold_step.
  { eapply holding_bind; [apply uiput_holding|]. intros ?. hold_step. }
  eapply holding_bind; [apply dirlookup_holding|]. intros [nx x]. cbn [fst snd].
  hold_step. destruct nx as [j|]; cbn [ref_opt].
  - apply holding_perm with (q := i :: j :: q); [apply Permutation_swap|].
    eapply holding_bind; [apply uiput_holding|]. intros ?. apply (IH _ _ (Some j)).
  - destruct (_ =? 0); (eapply holding_bind; [apply uiput_holding|]; intros ?; hold_step).
Qed.

Lemma namei_holding p q path : holding p q (namei (D := D) path) (fun r => (p, ref_opt r q)).
Proof.
  unfold namei. eapply holding_bind; [apply uiget_holding|]. intros ip. cbn [fst snd].
  hold_step. apply namei_loop_holding.
Qed.

Lemma ialloc_holding p q type : holding p q (ialloc (D := D) type) (fun r => (p, ref_opt r q)).
Proof.
  unfold ialloc. hold_step.
  eapply holding_bind with (mid := fun r : option (option nat) => (p, ref_opt (default None r) q));
    [|intros [o|]; hold_step].
  apply holding_for_each; [|done]. intros inum. hold_read; [|hold_step].
  hold_step. hold_step; [|repeat hold_step].
  hold_step. hold_step. hold_step. eapply holding_bind; [apply uiget_holding|]. intros o. hold_step.
Qed.
End directories.
#[export] Hint Resolve dirlookup_holding dirlink_holding namei_holding ialloc_holding : holding.
