(* ===== verification/FssServer.v ===== *)
(** * FssServer: descriptor table and request loop of fsserver.c *)
From S2P Require Import Prelude Ring FsFormat BlockDev Ipc CString FssCache FssFile FssDir.

Definition fe_set_used v e := mkFd v (fe_owner_pid e) (fe_fd e) (fe_off e) (fe_readable e) (fe_writable e).
Definition fe_set_off v e := mkFd (fe_used e) (fe_owner_pid e) (fe_fd e) v (fe_readable e) (fe_writable e).

(** Index of the first entry of the table that is not in use. *)
Fixpoint free_slot (l : list fd_entry) (i : nat) : option nat :=
  match l with
  | [] => None
  | e :: l => if fe_used e =? 0 then Some i else free_slot l (S i)
  end.

(** A C truth value. *)
Definition cbool (b : bool) : Z := if b then 1 else 0.

Section fsserver.
Context {D : Type} `{BlockDev D}.
Implicit Types s : fss D.

Definition alloc_remote_fd (owner_pid flags : Z) : M (fss D) Z :=
  s ← getS;
  match free_slot (fs_fdt s) O with
  | Some i =>
      modify (upd_fd i (fun _ =>
        mkFd 1 owner_pid (Z.of_nat i) 0
             (cbool (Z.land flags O_WRONLY =? 0))
             (cbool (negb (Z.land flags O_WRONLY =? 0) || negb (Z.land flags O_RDWR =? 0)))));;
      mret (Z.of_nat i)
  | None => mret (-1)
  end.

(** The entry, by index, and its contents. *)
Definition lookup_remote_fd (owner_pid remote_fd : Z) : M (fss D) (option (nat * fd_entry)) :=
  if ((remote_fd <? 0) || (Z.of_nat MAX_REMOTE_FDS <=? remote_fd))%bool then mret None
  else
    s ← getS;
    e ← of_option OutOfBounds (fs_fdt s !! Z.to_nat remote_fd);
    if fe_used e =? 0 then mret None
    else if negb (fe_owner_pid e =? owner_pid) then mret None
    else mret (Some (Z.to_nat remote_fd, e)).

Definition fd_inode (i : nat) : M (fss D) (option nat) :=
  s ← getS; of_option OutOfBounds (fs_fdi s !! i).

Definition set_fd_inode (i : nat) (v : option nat) : M (fss D) unit :=
  modify (fun s => set_fdi (<[i := v]> (fs_fdi s)) s).

(** [if(fd_inodes[i]) { uiput(fd_inodes[i]); fd_inodes[i] = 0; }] *)
Definition drop_fd_inode (i : nat) : M (fss D) unit :=
  ip ← fd_inode i;
  match ip with
  | Some ip => uiput ip;; set_fd_inode i None
  | None => mret tt
  end.

Definition close_all_for_owner (owner_pid : Z) : M (fss D) unit :=
  _ ← for_each (seq 0 MAX_REMOTE_FDS) (fun i =>
    s ← getS;
    e ← of_option OutOfBounds (fs_fdt s !! i);
    when (negb (fe_used e =? 0) && (fe_owner_pid e =? owner_pid))
      (modify (upd_fd i (fe_set_used 0));; drop_fd_inode i);;
    mret (None : option unit));
  mret tt.

(** [data] is [None] for a null pointer.  The message is handed to the
    system call [send]; its result only decides a diagnostic. *)
Definition send_reply (client_pid request_id result fd nbytes : Z) (data : option (list Z))
    : M (fss D) unit :=
  let payload :=
    match data with
    | Some d => if 0 <? nbytes then splice 0 (take (Z.to_nat (Z.min nbytes IPC_DATA_SIZE)) d) (replicate 128 0)
                else replicate 128 0
    | None => replicate 128 0
    end in
  let reply := mkMsg 0 request_id IPC_TYPE_FS_REPLY fd 0 nbytes result 0 (replicate 64 0) payload in
  modify (fun s => set_sent (fs_sent s ++ [(client_pid, reply)]) s).

(** [send_reply(req.sender_pid, req.request_id, result, fd, 0, 0)] *)
Definition reply_to (req : ipc_msg) (result fd : Z) : M (fss D) unit :=
  send_reply (m_sender_pid req) (m_request_id req) result fd 0 None.

(** Opening a path that does not exist with O_CREATE.  [None] is the [break]
    after an error reply. *)
Definition create_file (req : ipc_msg) : M (fss D) (option nat) :=
  p ← of_option OutOfBounds (skip_slashes (m_path req ++ m_data req));
  e ← of_option OutOfBounds (scan_elem p);
  let name := copy_elem p e.1 (replicate DIRSIZ 0) in
  dp ← uiget ROOTDEV ROOTINO;
  match dp with
  | None => reply_to req (-1) (-1);; mret None
  | Some dp =>
      uilock dp;;
      ip ← ialloc T_FILE;
      match ip with
      | None => uiput dp;; reply_to req (-1) (-1);; mret None
      | Some ip =>
          uilock ip;;
          modify (upd_inode ip (ui_set_nlink 1));;
          uiupdate ip;;
          n ← the_inode ip;
          r ← dirlink dp name (ui_inum n);
          if r <? 0 then
            modify (upd_inode ip (ui_set_nlink 0));;
            uiupdate ip;;
            uiput ip;;
            uiput dp;;
            reply_to req (-1) (-1);;
            mret None
          else uiput dp;; mret (Some ip)
      end
  end.

(** The tail of the OPEN case, for a file that was found or created. *)
Definition open_found (req : ipc_msg) (ip : nat) : M (fss D) unit :=
  uilock ip;;
  remote_fd ← alloc_remote_fd (m_sender_pid req) (m_flags req);
  if remote_fd <? 0 then uiput ip;; reply_to req (-1) (-1)
  else set_fd_inode (Z.to_nat remote_fd) (Some ip);; reply_to req remote_fd remote_fd.

Definition serve_open (req : ipc_msg) : M (fss D) unit :=
  ip ← namei (m_path req ++ m_data req);
  match ip with
  | Some ip => open_found req ip
  | None =>
      if negb (Z.land (m_flags req) O_CREATE =? 0) then
        r ← create_file req;
        match r with Some ip => open_found req ip | None => mret tt end
      else reply_to req (-1) (-1)
  end.

Definition serve_read (req : ipc_msg) : M (fss D) unit :=
  let fail := reply_to req (-1) (m_fd req) in
  ent ← lookup_remote_fd (m_sender_pid req) (m_fd req);
  match ent with
  | None => fail
  | Some (k, e) =>
      if fe_readable e =? 0 then fail
      else
        ip ← fd_inode k;
        match ip with
        | None => fail
        | Some ip =>
            nd ← the_inode ip;
            let n := if IPC_DATA_SIZE <? m_nbytes req then IPC_DATA_SIZE else m_nbytes req in
            if ui_size nd <=? u32 (fe_off e) then reply_to req 0 (m_fd req)
            else
              let avail := u32 (ui_size nd - u32 (fe_off e)) in
              let n := if avail <? u32 n then s32 avail else n in
              rd ← ureadi ip (u32 (fe_off e)) (u32 n);
              let n := rd.1 in
              if n <? 0 then fail
              else
                modify (upd_fd k (fun e => fe_set_off (s32 (fe_off e + n)) e));;
                send_reply (m_sender_pid req) (m_request_id req) n (m_fd req) n
                           (Some (splice 0 rd.2 (m_data req)))
        end
  end.

Definition serve_write (req : ipc_msg) : M (fss D) unit :=
  let fail := reply_to req (-1) (m_fd req) in
  ent ← lookup_remote_fd (m_sender_pid req) (m_fd req);
  match ent with
  | None => fail
  | Some (k, e) =>
      if fe_writable e =? 0 then fail
      else
        ip ← fd_inode k;
        match ip with
        | None => fail
        | Some ip =>
            let n := if IPC_DATA_SIZE <? m_nbytes req then IPC_DATA_SIZE else m_nbytes req in
            n ← uwritei ip (m_data req) (u32 (fe_off e)) (u32 n);
            if n <? 0 then fail
            else
              modify (upd_fd k (fun e => fe_set_off (s32 (fe_off e + n)) e));;
              reply_to req n (m_fd req)
        end
  end.

Definition serve_close (req : ipc_msg) : M (fss D) unit :=
  ent ← lookup_remote_fd (m_sender_pid req) (m_fd req);
  match ent with
  | None => reply_to req (-1) (m_fd req)
  | Some (k, _) =>
      drop_fd_inode k;;
      modify (upd_fd k (fe_set_used 0));;
      reply_to req 0 (m_fd req)
  end.

(** One round of the loop of [main] on a received message; the result says
    whether the loop goes on. *)
Definition handle (req : ipc_msg) : M (fss D) bool :=
  if m_type req =? IPC_TYPE_FS_SHUTDOWN then
    close_all_for_owner (m_sender_pid req);;
    reply_to req 0 (-1);;
    mret false
  else if m_type req =? IPC_TYPE_FS_CLIENT_EXIT then
    close_all_for_owner (m_sender_pid req);;
    mret true
  else
    (if m_type req =? IPC_TYPE_FS_OPEN then serve_open req
     else if m_type req =? IPC_TYPE_FS_READ then serve_read req
     else if m_type req =? IPC_TYPE_FS_WRITE then serve_write req
     else if m_type req =? IPC_TYPE_FS_CLOSE then serve_close req
     else reply_to req (-1) (m_fd req));;
    mret true.

(** What [main] does before its loop, once registered. *)
Definition startup : M (fss D) unit := ubuf_init;; uinode_init;; readsb.

(** The loop of [main] on the messages that [recv] returns one after the
    other ([None]: [recv] failed); after [SHUTDOWN] the rest is not received. *)
Fixpoint serve (reqs : list (option ipc_msg)) : M (fss D) unit :=
  match reqs with
  | [] => mret tt
  | None :: reqs => serve reqs
  | Some req :: reqs => go ← handle req; if go : bool then serve reqs else mret tt
  end.

Definition main (reqs : list (option ipc_msg)) : M (fss D) unit := startup;; serve reqs.
End fsserver.
