(* ===== verification/FssInv.v ===== *)
(** * FssInv: the invariant of the file server and what a request may change

    Between two requests no block buffer is referenced, every inode is
    referenced exactly by the open descriptors that name it, and a
    descriptor is in use exactly when it names an inode.  A request leaves
    the descriptors of other clients alone and is answered once. *)
From S2P Require Import Prelude Ring FsFormat BlockDev Ipc CString FssCache FssFile FssGrow FssDir FssRefs FssServer.

(** Call an operation whose references are known, in the state of [H]. *)
Tactic Notation "hold_call" uconstr(L) uconstr(H) :=
  eapply wp_conseq; [eapply L; eapply H|cbn [fst snd ref_opt]].

Section invariant.
Context {D : Type} `{BlockDev D}.
Implicit Types (s : fss D) (req : ipc_msg).

(** The inodes named by open descriptors. *)
Definition live s : list nat := omap id (fs_fdi s).

Record sinv s : Prop := mkSinv {
  si_refs : rinv [] (live s) s;
  si_fdt : length (fs_fdt s) = MAX_REMOTE_FDS;
  si_fdi : length (fs_fdi s) = MAX_REMOTE_FDS;
  si_open : forall i e o, fs_fdt s !! i = Some e -> fs_fdi s !! i = Some o -> (fe_used e = 0 <-> o = None);
}.

(** What a request of the client [pid] may do to the descriptor table:
    entries that other clients have open stay as they are, and every open
    entry of the new table was there before or belongs to [pid]. *)
Record fd_step (pid : Z) s s' : Prop := mkFdStep {
  fs_iso : forall i e, fs_fdt s !! i = Some e -> fe_used e ≠ 0 -> fe_owner_pid e ≠ pid ->
    fs_fdt s' !! i = Some e /\ fs_fdi s' !! i = fs_fdi s !! i;
  fs_new : forall i e, fs_fdt s' !! i = Some e -> fe_used e ≠ 0 ->
    fe_owner_pid e = pid \/ fs_fdt s !! i = Some e;
}.

(** The reply to [req]. *)
Definition is_reply req (x : Z * ipc_msg) : Prop :=
  x.1 = m_sender_pid req /\ m_type x.2 = IPC_TYPE_FS_REPLY /\ m_request_id x.2 = m_request_id req.

Lemma live_length (l : list (option nat)) : (length (omap id l) <= length l)%nat.
Proof. induction l as [|[x|] l IH]; cbn in *; lia. Qed.

Lemma live_close (l : list (option nat)) k ip :
  l !! k = Some (Some ip) -> omap id l ≡ₚ ip :: omap id (<[k := None]> l).
Proof.
  intros Hk. pose proof (lookup_lt_Some _ _ _ Hk). rewrite insert_take_drop by done.
  rewrite <- (take_drop_middle l k (Some ip)) at 1 by done. rewrite !omap_app. cbn.
  symmetry. apply Permutation_middle.
Qed.

Lemma live_open (l : list (option nat)) k ip :
  l !! k = Some None -> omap id (<[k := Some ip]> l) ≡ₚ ip :: omap id l.
Proof.
  intros Hk. pose proof (lookup_lt_Some _ _ _ Hk). rewrite insert_take_drop by done.
  rewrite <- (take_drop_middle l k None) at 3 by done. rewrite !omap_app. cbn.
  symmetry. apply Permutation_middle.
Qed.

Lemma fd_step_refl pid s : fd_step pid s s.
Proof. constructor; auto. Qed.

Lemma fd_step_trans pid s1 s2 s3 : fd_step pid s1 s2 -> fd_step pid s2 s3 -> fd_step pid s1 s3.
Proof.
  intros [I1 N1] [I2 N2]. constructor.
  - intros i e He Hu Ho. destruct (I1 i e He Hu Ho) as [He2 Hi2].
    destruct (I2 i e He2 Hu Ho) as [He3 Hi3]. split; [done|congruence].
  - intros i e He Hu. destruct (N2 i e He Hu) as [|He2]; [by left|]. by apply N1.
Qed.

Lemma fd_step_same pid s s' : fs_fdt s' = fs_fdt s -> fs_fdi s' = fs_fdi s -> fd_step pid s s'.
Proof. intros E1 E2. constructor; rewrite E1, ?E2; auto. Qed.

(** After operations that only worked on the file system. *)
Lemma st_start s : sinv s -> st [] (live s) s s.
Proof. by intros []. Qed.

Lemma sinv_st s0 s : sinv s0 -> st [] (live s0) s0 s -> sinv s.
Proof.
  intros [_ Ht Hi Ho] [Hr E1 E2 _]. constructor; rewrite ?E1, ?E2; try done.
  unfold live. by rewrite E2.
Qed.

(** The state of the table and of the replies when a request is done. *)
Record served req s s' : Prop := mkServed {
  sv_inv : sinv s';
  sv_fds : fd_step (m_sender_pid req) s s';
  sv_reply : exists x, fs_sent s' = fs_sent s ++ [x] /\ is_reply req x;
}.

(** Ready to reply: everything but the reply is done. *)
Record ready (pid : Z) s s' : Prop := mkReady {
  rd_inv : sinv s';
  rd_fds : fd_step pid s s';
  rd_sent : fs_sent s' = fs_sent s;
}.

Lemma ready_st pid s0 s : sinv s0 -> st [] (live s0) s0 s -> ready pid s0 s.
Proof.
  intros Hs Hst. constructor; [by eapply sinv_st|apply fd_step_same; by destruct Hst|by destruct Hst].
Qed.

Lemma sinv_sent s v : sinv s -> sinv (set_sent v s).
Proof. intros [[] ? ? ?]. by constructor. Qed.

Lemma send_reply_served req result fd nbytes data s s' :
  ready (m_sender_pid req) s s' ->
  wp (send_reply (m_sender_pid req) (m_request_id req) result fd nbytes data)
     (fun _ s'' => served req s s'') no_halt s'.
Proof.
  intros [Hi Hf Hs]. apply wp_modify. constructor; [by apply sinv_sent| |].
  - eapply fd_step_trans; [done|]. by apply fd_step_same.
  - cbn. rewrite Hs. by eexists.
Qed.

Lemma ready_refl pid s : sinv s -> ready pid s s.
Proof. intros. constructor; [done|apply fd_step_refl|done]. Qed.

(** A descriptor the client may use. *)
Definition owns (pid : Z) s (k : nat) (e : fd_entry) : Prop :=
  fs_fdt s !! k = Some e /\ fe_used e ≠ 0 /\ fe_owner_pid e = pid.

Lemma lookup_remote_fd_spec pid fd s :
  sinv s ->
  wp (lookup_remote_fd pid fd)
     (fun r s' => s' = s /\
        match r with
        | Some (k, e) => owns pid s k e /\ k = Z.to_nat fd /\ 0 <= fd < Z.of_nat MAX_REMOTE_FDS
        | None => ~ exists e, 0 <= fd /\ owns pid s (Z.to_nat fd) e
        end) no_halt s.
Proof.
  intros Hs. unfold lookup_remote_fd.
  destruct (Z.ltb_spec fd 0), (Z.leb_spec (Z.of_nat MAX_REMOTE_FDS) fd); cbn [orb].
  1-3: wp_step; split; [done|]; intros (e & Hfd & He & _); apply lookup_lt_Some in He;
       rewrite (si_fdt _ Hs) in He; lia.
  wp_step. wp_step. destruct (lookup_lt_is_Some_2 (fs_fdt s) (Z.to_nat fd)) as [e He].
  { rewrite (si_fdt _ Hs). lia. }
  wp_step. eapply wp_of_option; [done|].
  destruct (Z.eqb_spec (fe_used e) 0) as [Hu|Hu].
  { wp_step. split; [done|]. intros (e' & _ & He' & Hu' & _). congruence. }
  destruct (Z.eqb_spec (fe_owner_pid e) pid) as [Ho|Ho]; cbn [negb]; wp_step; (split; [done|]).
  - split; [by repeat split|]. split; [done|lia].
  - intros (e' & _ & He' & _ & Ho'). congruence.
Qed.

Lemma fd_inode_spec s k (Q : option nat -> fss D -> Prop) E :
  sinv s -> (k < MAX_REMOTE_FDS)%nat -> (forall o, fs_fdi s !! k = Some o -> Q o s) ->
  wp (fd_inode k) Q E s.
Proof.
  intros Hs Hk HQ. unfold fd_inode. wp_step. wp_step.
  destruct (lookup_lt_is_Some_2 (fs_fdi s) k) as [o Ho]; [by rewrite (si_fdi _ Hs)|].
  eapply wp_of_option; [done|]. by apply HQ.
Qed.

Lemma owns_lt pid s k e : sinv s -> owns pid s k e -> (k < MAX_REMOTE_FDS)%nat.
Proof. intros Hs [He _]. rewrite <- (si_fdt _ Hs). by eapply lookup_lt_Some. Qed.

(** The client changes one of its own descriptors. *)
Lemma ready_upd_fd pid s0 s k e f :
  ready pid s0 s -> owns pid s k e -> fe_used (f e) = fe_used e -> fe_owner_pid (f e) = fe_owner_pid e ->
  ready pid s0 (upd_fd k f s).
Proof.
  intros [Hi Hf Hs] (He & Hu & Ho) Eu Eo.
  assert (E : upd_fd k f s = set_fdt (<[k := f e]> (fs_fdt s)) s)
    by (unfold upd_fd; by rewrite (alter_as_insert f k e)).
  rewrite E. constructor; [| |done].
  - destruct Hi as [[Hrb Hri] Ht Hl Hop]. constructor; cbn; [done|by rewrite length_insert|done|].
    intros i x o. rewrite list_lookup_insert_Some. intros [(<- & <- & _)|[? Hx]]; [|by apply Hop].
    rewrite Eu. by apply Hop.
  - eapply fd_step_trans; [done|]. constructor; cbn.
    + intros i x Hx Hux Hox. split; [|done]. rewrite list_lookup_insert_ne; [done|]. intros ->.
      congruence.
    + intros i x. rewrite list_lookup_insert_Some. intros [(<- & <- & _)|[? Hx]] _; [left; congruence|by right].
Qed.

Lemma owns_st pid s0 s q k e : st [] q s0 s -> owns pid s0 k e -> owns pid s k e.
Proof. intros Hst. unfold owns. by rewrite (st_fdt _ _ _ _ Hst). Qed.

Lemma serve_read_served req s :
  sinv s -> wp (serve_read req) (fun _ s' => served req s s') any_halt s.
Proof.
  intros Hs. unfold serve_read, reply_to. wp_step. wp_call (lookup_remote_fd_spec (m_sender_pid req) (m_fd req) s); [done|].
  intros [[k e]|] s1 [-> Hr]; cbv beta iota; [|by wp_call send_reply_served; [apply ready_refl|]].
  destruct Hr as (Ho & -> & Hfd).
  destruct (_ =? 0); [by wp_call send_reply_served; [apply ready_refl|]|].
  wp_step. apply fd_inode_spec; [done|lia|]. intros [ip|] Hip; [|by wp_call send_reply_served; [apply ready_refl|]].
  wp_step. hold_call holding_inode (st_start _ Hs).
  intros nd s2 H2. cbn [fst snd] in H2.
  destruct (_ <=? _); [by wp_call send_reply_served; [by apply ready_st|]|].
  wp_step. hold_call ureadi_holding H2.
  intros [n d] s3 H3. cbn [fst snd] in H3 |- *.
  destruct (_ <? 0); [by wp_call send_reply_served; [by apply ready_st|]|].
  wp_step. wp_step. wp_call (send_reply_served req _ _ _ _ s); [|done].
  eapply ready_upd_fd; [by apply ready_st|by eapply owns_st|done..].
Qed.

Lemma serve_write_served req s :
  sinv s -> wp (serve_write req) (fun _ s' => served req s s') any_halt s.
Proof.
  intros Hs. unfold serve_write, reply_to. wp_step. wp_call (lookup_remote_fd_spec (m_sender_pid req) (m_fd req) s); [done|].
  intros [[k e]|] s1 [-> Hr]; cbv beta iota; [|by wp_call send_reply_served; [apply ready_refl|]].
  destruct Hr as (Ho & -> & Hfd).
  destruct (_ =? 0); [by wp_call send_reply_served; [apply ready_refl|]|].
  wp_step. apply fd_inode_spec; [done|lia|]. intros [ip|] Hip; [|by wp_call send_reply_served; [apply ready_refl|]].
  wp_step. hold_call uwritei_holding (st_start _ Hs).
  intros n s3 H3. cbn [fst snd] in H3 |- *.
  destruct (_ <? 0); [by wp_call send_reply_served; [by apply ready_st|]|].
  wp_step. wp_step. wp_call (send_reply_served req _ _ _ _ s); [|done].
  eapply ready_upd_fd; [by apply ready_st|by eapply owns_st|done..].
Qed.

Lemma free_slot_spec (l : list fd_entry) : forall i k,
  free_slot l i = Some k ->
  (i <= k)%nat /\ exists e, l !! (k - i)%nat = Some e /\ fe_used e = 0.
Proof.
  induction l as [|e l IH]; intros i k; cbn [free_slot]; [done|].
  destruct (Z.eqb_spec (fe_used e) 0).
  - intros [= <-]. split; [done|]. exists e. by rewrite Nat.sub_diag.
  - intros (Hk & e' & He' & Hu)%IH. split; [lia|]. exists e'.
    by replace (k - i)%nat with (S (k - S i)) by lia.
Qed.

(** Entering a file in a free descriptor. *)
Lemma ready_open pid s0 s k e e' ip :
  sinv s0 -> st [] (ip :: live s0) s0 s -> fs_fdt s !! k = Some e -> fe_used e = 0 ->
  fe_used e' ≠ 0 -> fe_owner_pid e' = pid ->
  ready pid s0 (set_fdi (<[k := Some ip]> (fs_fdi s)) (set_fdt (<[k := e']> (fs_fdt s)) s)).
Proof.
  intros [_ Ht Hl Hop] [[Hrb Hri Hrl Hrv] E1 E2 E3] He Hu Hu' Ho'. rewrite E1 in He.
  assert (Hk : fs_fdi s0 !! k = Some None).
  { destruct (lookup_lt_is_Some_2 (fs_fdi s0) k) as [o Hk];
      [rewrite Hl, <- Ht; by eapply lookup_lt_Some|].
    rewrite Hk. f_equal. by apply (Hop k e o). }
  constructor; cbn; [|constructor; cbn|done].
  - constructor; cbn; rewrite ?length_insert, ?E1, ?E2; try done.
    + unfold live. cbn. rewrite ?E2. constructor; cbn; [done| |done|by rewrite live_open].
      intros i x Hx. rewrite (Hri i x Hx). f_equal. apply refs_perm. symmetry. by apply live_open.
    + intros i x o. rewrite !list_lookup_insert_Some.
      intros [(-> & <- & _)|[? Hx]] [(? & <- & _)|[? Hx']]; try done; by apply (Hop i).
  - rewrite E1, E2. intros i x Hx Hux Hox. rewrite !list_lookup_insert_ne; [done|..]; intros ->; congruence.
  - rewrite E1. intros i x. rewrite list_lookup_insert_Some.
    intros [(<- & <- & _)|[? Hx]] _; [by left|by right].
Qed.

Lemma open_found_served req ip s0 s :
  sinv s0 -> st [] (ip :: live s0) s0 s ->
  wp (open_found req ip) (fun _ s' => served req s0 s') any_halt s.
Proof.
  intros Hs Hst. unfold open_found, reply_to. wp_step.
  hold_call uilock_holding Hst. intros _ s1 H1. cbn [fst snd] in H1.
  wp_step. unfold alloc_remote_fd. wp_step. wp_step.
  destruct (free_slot (fs_fdt s1) 0) as [k|] eqn:Ek.
  - apply free_slot_spec in Ek as (_ & e & He & Hu). rewrite Nat.sub_0_r in He.
    wp_step. wp_step. wp_step. rewrite (proj2 (Z.ltb_ge _ _)) by lia. rewrite Nat2Z.id.
    wp_step. unfold set_fd_inode. wp_step. unfold upd_fd. rewrite (alter_as_insert _ k e) by done.
    wp_call (send_reply_served req _ _ _ _ s0); [|done].
    by apply (ready_open _ s0 s1 k e).
  - wp_step. change (-1 <? 0) with true. cbv iota. wp_step.
    hold_call uiput_holding H1. intros _ s2 H2. cbn [fst snd] in H2.
    wp_call (send_reply_served req _ _ _ _ s0); [by apply ready_st|done].
Qed.

Lemma create_file_served req s0 s :
  sinv s0 -> st [] (live s0) s0 s ->
  wp (create_file req)
     (fun r s' => match r with
                  | Some ip => st [] (ip :: live s0) s0 s'
                  | None => served req s0 s'
                  end) any_halt s.
Proof.
  intros Hs Hst. unfold create_file, reply_to.
  wp_step. apply wp_of_option_any. intros pa _. wp_step. apply wp_of_option_any. intros e _.
  wp_step. hold_call uiget_holding Hst.
  intros [dp|] s1 H1; cbn [fst snd ref_opt] in H1; cbv iota.
  2: { wp_step. wp_call (send_reply_served req _ _ _ _ s0); [by apply ready_st|]. intros. by wp_step. }
  wp_step. hold_call uilock_holding H1. intros _ s2 H2.
  wp_step. hold_call ialloc_holding H2.
  intros [ip|] s3 H3; cbn [fst snd ref_opt] in H3; cbv iota.
  2: { wp_step. hold_call uiput_holding H3. intros _ s4 H4.
       wp_step. wp_call (send_reply_served req _ _ _ _ s0); [by apply ready_st|]. intros. by wp_step. }
  wp_step. hold_call uilock_holding H3. intros _ s4 H4.
  wp_step. wp_step. wp_step.
  hold_call uiupdate_holding (st_upd_inode _ _ _ _ ip (ui_set_nlink 1) (fun _ => eq_refl) H4).
  intros _ s5 H5. wp_step. hold_call holding_inode H5.
  intros nd s6 H6. wp_step. hold_call dirlink_holding H6.
  intros r s7 H7. cbn [fst snd] in H7. destruct (r <? 0).
  - wp_step. wp_step. wp_step.
    hold_call uiupdate_holding (st_upd_inode _ _ _ _ ip (ui_set_nlink 0) (fun _ => eq_refl) H7).
    intros _ s8 H8. wp_step. hold_call uiput_holding H8.
    intros _ s9 H9. wp_step. hold_call uiput_holding H9.
    intros _ s10 H10. wp_step. wp_call (send_reply_served req _ _ _ _ s0); [by apply ready_st|].
    intros. by wp_step.
  - wp_step. hold_call uiput_holding (st_perm _ _ _ _ _ (perm_swap _ _ _) H7).
    intros _ s8 H8. by wp_step.
Qed.

Lemma uiput_spec p q i s0 s :
  st p (i :: q) s0 s -> wp (uiput i) (fun _ s' => st p q s0 s') no_halt s.
Proof.
  intros Hs. apply wp_any_total; [hold_call uiput_holding Hs; done|].
  pose proof (ri_valid _ _ _ (st_rinv _ _ _ _ Hs)) as Hv. apply Forall_inv in Hv.
  rewrite <- (ri_length _ _ _ (st_rinv _ _ _ _ Hs)) in Hv.
  unfold uiput. wp_step. wp_step. unfold the_inode. wp_step. wp_step. wp_step.
  destruct (lookup_lt_is_Some_2 (fs_inodes s) i Hv) as [ip Hip].
  eapply wp_of_option; [by cbn; rewrite list_lookup_alter_eq, Hip|]. by destruct (_ =? 0).
Qed.

(** Closing one descriptor. *)
Lemma drop_fd_inode_spec s k ip :
  rinv [] (live s) s -> fs_fdi s !! k = Some (Some ip) ->
  wp (drop_fd_inode k)
     (fun _ s' => rinv [] (live s') s' /\ fs_fdi s' = <[k := None]> (fs_fdi s) /\
                  fs_fdt s' = fs_fdt s /\ fs_sent s' = fs_sent s) no_halt s.
Proof.
  intros Hr Hk. unfold drop_fd_inode, fd_inode. wp_step. wp_step. wp_step.
  eapply wp_of_option; [done|]. cbv iota. wp_step.
  wp_call (uiput_spec [] (omap id (<[k := None]> (fs_fdi s))) ip s s).
  { eapply st_perm; [by apply live_close|]. by constructor. }
  intros _ s1 [[] E1 E2 E3]. unfold set_fd_inode. wp_step. split_and!; cbn; try done; [|by rewrite E2].
  unfold live. cbn. by rewrite E2.
Qed.

Lemma ready_close pid s k e s' :
  sinv s -> owns pid s k e -> rinv [] (live s') s' ->
  fs_fdi s' = <[k := None]> (fs_fdi s) -> fs_fdt s' = <[k := fe_set_used 0 e]> (fs_fdt s) ->
  fs_sent s' = fs_sent s -> ready pid s s'.
Proof.
  intros Hs (He & Hu & Ho) Hr E1 E2 E3. constructor; [| |done].
  - destruct Hs as [_ Ht Hl Hop]. constructor; rewrite ?E1, ?E2, ?length_insert; try done.
    intros i x o. rewrite !list_lookup_insert_Some.
    intros [(-> & <- & _)|[? Hx]] [(? & <- & _)|[? Hx']]; try done; by apply (Hop i).
  - constructor; rewrite E2, ?E1.
    + intros i x Hx Hux Hox. rewrite !list_lookup_insert_ne; [done|..]; intros ->; congruence.
    + intros i x. rewrite list_lookup_insert_Some. intros [(<- & <- & _)|[? Hx]]; [done|by right].
Qed.

Lemma owns_inode pid s k e : sinv s -> owns pid s k e -> exists ip, fs_fdi s !! k = Some (Some ip).
Proof.
  intros Hs Ho. destruct (lookup_lt_is_Some_2 (fs_fdi s) k) as [o Hk].
  { rewrite (si_fdi _ Hs). by eapply owns_lt. }
  destruct Ho as (He & Hu & _). destruct o as [ip|]; [by exists ip|].
  by destruct Hu; apply (si_open _ Hs k e None).
Qed.

Lemma serve_close_served req s :
  sinv s -> wp (serve_close req) (fun _ s' => served req s s') no_halt s.
Proof.
  intros Hs. unfold serve_close, reply_to. wp_step. wp_call (lookup_remote_fd_spec (m_sender_pid req) (m_fd req) s); [done|].
  intros [[k e]|] s1 [-> Hr]; cbv beta iota; [|by wp_call send_reply_served; [apply ready_refl|]].
  destruct Hr as (Ho & -> & Hfd). destruct (owns_inode _ _ _ _ Hs Ho) as [ip Hip].
  wp_step. wp_call (drop_fd_inode_spec s _ ip); [apply Hs|done|]. intros _ s2 (Hr2 & E1 & E2 & E3).
  wp_step. wp_step. unfold upd_fd. rewrite E2, (alter_as_insert _ _ e) by apply Ho.
  wp_call (send_reply_served req _ _ _ _ s); [|done]. eapply ready_close; try done. by destruct Hr2.
Qed.

Lemma ready_trans pid s1 s2 s3 : ready pid s1 s2 -> ready pid s2 s3 -> ready pid s1 s3.
Proof.
  intros [_ F1 E1] [I2 F2 E2]. constructor; [done|by eapply fd_step_trans|congruence].
Qed.

Lemma close_slot_spec pid s j e :
  sinv s -> fs_fdt s !! j = Some e ->
  wp (when (negb (fe_used e =? 0) && (fe_owner_pid e =? pid))
        (modify (upd_fd j (fe_set_used 0));; drop_fd_inode j))
     (fun _ s' => ready pid s s' /\ (forall x, ~ owns pid s' j x) /\
        forall k x, k ≠ j -> owns pid s' k x -> owns pid s k x) no_halt s.
Proof.
  intros Hs He. destruct (Z.eqb_spec (fe_used e) 0) as [Hu|Hu], (Z.eqb_spec (fe_owner_pid e) pid) as [Ho|Ho];
    cbn [negb andb when].
  1,2,4: wp_step; split; [by apply ready_refl|]; split; [|done]; intros x (Hx & Hux & Hox); congruence.
  assert (Hown : owns pid s j e) by done. destruct (owns_inode _ _ _ _ Hs Hown) as [ip Hip].
  wp_step. wp_step. unfold upd_fd. rewrite (alter_as_insert _ _ e) by done.
  wp_call (drop_fd_inode_spec _ j ip); [|done|].
  { destruct Hs as [[] ? ? ?]. done. }
  intros _ s2 (Hr2 & E1 & E2 & E3). cbn in E1, E2, E3. split; [by eapply ready_close|].
  unfold owns. rewrite E2. split.
  - intros x (Hx & Hux & _). rewrite list_lookup_insert_eq in Hx by (by eapply lookup_lt_Some).
    by injection Hx as <-.
  - intros k x Hk. by rewrite list_lookup_insert_ne.
Qed.

(** [close_all_for_owner] returns and leaves no descriptor of the client open. *)
Lemma close_all_spec pid s :
  sinv s ->
  wp (close_all_for_owner pid)
     (fun _ s' => ready pid s s' /\ forall k e, ~ owns pid s' k e) no_halt s.
Proof.
  intros Hs. unfold close_all_for_owner. wp_step.
  eapply (wp_for_each (fun xs s' => exists j, (j <= MAX_REMOTE_FDS)%nat /\
    xs = seq j (MAX_REMOTE_FDS - j) /\ ready pid s s' /\ forall k e, (k < j)%nat -> ~ owns pid s' k e)).
  - exists O. split_and!; [lia|done|by apply ready_refl|]. intros. lia.
  - intros x xs s1 (j & Hj & Hxs & Hrd & Hclosed).
    destruct (decide (j = MAX_REMOTE_FDS)) as [->|]; [done|].
    replace (MAX_REMOTE_FDS - j)%nat with (S (MAX_REMOTE_FDS - S j)) in Hxs by lia.
    injection Hxs as -> ->. pose proof (rd_inv _ _ _ Hrd) as Hs1.
    destruct (lookup_lt_is_Some_2 (fs_fdt s1) j) as [e He]; [rewrite (si_fdt _ Hs1); lia|].
    wp_step. wp_step. wp_step. eapply wp_of_option; [done|]. wp_step.
    wp_call (close_slot_spec pid s1 j e); [done..|]. intros _ s2 (Hrd2 & Hj2 & Hother). wp_step.
    exists (S j). split; [lia|]. split; [done|]. split; [by eapply ready_trans|].
    intros k x Hk Hown. destruct (decide (k = j)) as [->|]; [by eapply Hj2|].
    eapply Hclosed; [|by apply Hother]. lia.
  - intros s1 (j & Hj & Hxs & Hrd & Hclosed). wp_step. split; [done|].
    assert (j = MAX_REMOTE_FDS) as ->.
    { destruct (MAX_REMOTE_FDS - j)%nat eqn:E; [lia|done]. }
    intros k e Hown. eapply Hclosed; [|done]. eapply owns_lt; [apply Hrd|done].
Qed.

Lemma serve_open_served req s :
  sinv s -> wp (serve_open req) (fun _ s' => served req s s') any_halt s.
Proof.
  intros Hs. unfold serve_open. wp_step. hold_call namei_holding (st_start _ Hs).
  intros [ip|] s1 H1; cbn [ref_opt] in H1; [by apply open_found_served|].
  destruct (negb _).
  - wp_step. eapply wp_conseq; [by apply (create_file_served req s s1)|].
    intros [ip|] s2 H2; cbv iota; [by apply open_found_served|by wp_step].
  - unfold reply_to. wp_call (send_reply_served req _ _ _ _ s); [by apply ready_st|done].
Qed.

(** A handled request: the invariant, the descriptor table, the reply. *)
Record handled req s s' : Prop := mkHandled {
  hd_inv : sinv s';
  hd_fds : fd_step (m_sender_pid req) s s';
  hd_reply : if m_type req =? IPC_TYPE_FS_CLIENT_EXIT then fs_sent s' = fs_sent s
             else exists x, fs_sent s' = fs_sent s ++ [x] /\ is_reply req x;
}.

Lemma handled_served req s s' :
  m_type req ≠ IPC_TYPE_FS_CLIENT_EXIT -> served req s s' -> handled req s s'.
Proof. intros Ht%Z.eqb_neq []. constructor; [done..|]. by rewrite Ht. Qed.

Lemma handle_spec req s :
  sinv s ->
  wp (handle req)
     (fun go s' => handled req s s' /\ go = negb (m_type req =? IPC_TYPE_FS_SHUTDOWN)) any_halt s.
Proof.
  intros Hs. unfold handle.
  destruct (Z.eqb_spec (m_type req) IPC_TYPE_FS_SHUTDOWN) as [Ht|Ht].
  { wp_step. wp_call (close_all_spec (m_sender_pid req) s); [done|]. intros _ s1 [Hr _].
    wp_step. unfold reply_to. wp_call (send_reply_served req _ _ _ _ s); [done|].
    intros ? s2 H2. wp_step. split; [|done]. apply handled_served; [by rewrite Ht|done]. }
  destruct (Z.eqb_spec (m_type req) IPC_TYPE_FS_CLIENT_EXIT) as [Hx|Hx].
  { wp_step. wp_call (close_all_spec (m_sender_pid req) s); [done|]. intros _ s1 [[] _]. wp_step.
    split; [|done]. constructor; [done..|]. by rewrite Hx. }
  wp_step. eapply (wp_conseq _ (fun _ s' => served req s s')).
  2: { intros _ s1 H1. wp_step. split; [by apply handled_served|done]. }
  repeat (wp_step; [solve [auto using serve_open_served, serve_read_served, serve_write_served]|]).
  - wp_step; [wp_call serve_close_served; done|].
    unfold reply_to. wp_call (send_reply_served req _ _ _ _ s); [by apply ready_refl|done].
Qed.
End invariant.

(** ** From the first instruction on *)
Section runs.
Context {D : Type} `{BlockDev D}.
Implicit Types (s : fss D) (req : ipc_msg).

Lemma live_none n : omap id (replicate n (None : option nat)) = [].
Proof. by induction n. Qed.

Lemma st_static (d : D) : st [] [] (fss_static d) (fss_static d).
Proof.
  constructor; try done. constructor; cbn -[replicate]; [| |apply length_replicate|done].
  - intros i b Hb. apply lookup_replicate in Hb as [-> _]. done.
  - intros i ip Hip. apply lookup_replicate in Hip as [-> _]. done.
Qed.

Lemma sinv_static (d : D) : sinv (fss_static d).
Proof.
  constructor; cbn -[replicate MAX_REMOTE_FDS]; try apply length_replicate.
  - unfold live. cbn -[replicate MAX_REMOTE_FDS]. rewrite live_none. apply st_static.
  - intros i e o He Ho. apply lookup_replicate in He as [-> _].
    apply lookup_replicate in Ho as [-> _]. done.
Qed.

Lemma startup_spec d : wp startup (fun _ s' => sinv s' /\ fs_sent s' = []) any_halt (fss_static (D := D) d).
Proof.
  unfold startup. wp_step. unfold ubuf_init. wp_step. wp_step. unfold uinode_init. wp_step.
  match goal with |- wp _ _ _ ?s => set (s1 := s) end.
  assert (H1 : st [] [] (fss_static d) s1).
  { by destruct (st_static d) as [[Hb Hi Hl Hv] _ _ _]. }
  eapply wp_conseq; [eapply readsb_holding, H1|]. intros ? s2 H2. cbn [fst snd] in H2.
  split; [|by apply H2]. apply (sinv_st (fss_static d)); [apply sinv_static|].
  unfold live. cbn -[replicate MAX_REMOTE_FDS]. by rewrite live_none.
Qed.

(** The requests that are answered, in order. *)
Fixpoint answered (reqs : list (option ipc_msg)) : list ipc_msg :=
  match reqs with
  | [] => []
  | None :: reqs => answered reqs
  | Some req :: reqs =>
      if m_type req =? IPC_TYPE_FS_SHUTDOWN then [req]
      else if m_type req =? IPC_TYPE_FS_CLIENT_EXIT then answered reqs
      else req :: answered reqs
  end.

Lemma serve_spec reqs : forall s,
  sinv s ->
  wp (serve reqs) (fun _ s' => sinv s' /\
    exists l, fs_sent s' = fs_sent s ++ l /\ Forall2 is_reply (answered reqs) l) any_halt s.
Proof.
  induction reqs as [|[req|] reqs IH]; intros s Hs; cbn [serve answered].
  - wp_step. split; [done|]. exists []. by rewrite app_nil_r.
  - wp_step. eapply wp_conseq; [by apply handle_spec|]. intros go s1 [[Hi _ Hrep] ->].
    destruct (Z.eqb_spec (m_type req) IPC_TYPE_FS_SHUTDOWN) as [Ht|Ht]; cbn [negb].
    { rewrite Ht in Hrep. destruct Hrep as (x & E & Hx). wp_step. split; [done|]. exists [x]. auto. }
    destruct (m_type req =? IPC_TYPE_FS_CLIENT_EXIT).
    + eapply wp_conseq; [by apply IH|]. intros _ s2 (Hi2 & l & E2 & Hl). split; [done|].
      exists l. by rewrite E2, Hrep.
    + destruct Hrep as (x & E & Hx). eapply wp_conseq; [by apply IH|].
      intros _ s2 (Hi2 & l & E2 & Hl). split; [done|]. exists (x :: l).
      rewrite E2, E, <- app_assoc. split; [done|by constructor].
  - by apply IH.
Qed.
End runs.

(** ** Reading and writing through a descriptor *)
Section transfers.
Context {D : Type} `{BlockDevLaws D}.
Implicit Types (s : fss D) (req : ipc_msg).

(** The descriptor of the request is open for its sender as entry [e] on
    inode [nd] (slot [ip]), and sizes and offsets are those of a file. *)
Record opened s req (e : fd_entry) (ip : nat) (nd : uinode) : Prop := mkOpened {
  op_fd : 0 <= m_fd req;
  op_owns : owns (m_sender_pid req) s (Z.to_nat (m_fd req)) e;
  op_ip : fs_fdi s !! Z.to_nat (m_fd req) = Some (Some ip);
  op_nd : fs_inodes s !! ip = Some nd;
  op_size : 0 <= ui_size nd < 2 ^ 31;
  op_off : 0 <= fe_off e < 2 ^ 30;
  op_n : 0 <= m_nbytes req <= IPC_DATA_SIZE;
}.

(** A reply with [n] as its result and its byte count, carrying [d]. *)
Definition data_reply req (n : Z) (d : list Z) : ipc_msg :=
  mkMsg 0 (m_request_id req) IPC_TYPE_FS_REPLY (m_fd req) 0 n n 0 (replicate 64 0)
        (splice 0 d (replicate 128 0)).

Lemma length_fbytes s nd off n : length (fbytes s nd off n) = Z.to_nat n.
Proof. unfold fbytes. by rewrite length_fmap, length_seqZ. Qed.

Lemma take_splice_0 (d l : list Z) : take (length d) (splice 0 d l) = d.
Proof. change (splice 0 d l) with (d ++ drop (0 + length d) l). apply take_app_length. Qed.

Lemma fe_set_off_same e : fe_set_off (fe_off e) e = e.
Proof. by destruct e. Qed.

Lemma lookup_opened s req e ip nd (Q : option (nat * fd_entry) -> fss D -> Prop) E :
  sinv s -> opened s req e ip nd -> Q (Some (Z.to_nat (m_fd req), e)) s ->
  wp (lookup_remote_fd (m_sender_pid req) (m_fd req)) Q E s.
Proof.
  intros Hs Ho HQ. eapply wp_total; [by apply lookup_remote_fd_spec|].
  intros [[k e']|] s' [-> Hr]; [|by destruct Hr; exists e; split; apply Ho].
  destruct Hr as ((He' & _) & -> & _). destruct (op_owns _ _ _ _ _ Ho) as [He _].
  rewrite He in He'. by injection He' as <-.
Qed.

Lemma serve_read_spec s req e ip nd :
  sinv s -> cinv [] s -> opened s req e ip nd -> fe_readable e ≠ 0 ->
  (forall x, fe_off e <= x < Z.min (fe_off e + m_nbytes req) (ui_size nd) -> mapped s nd (x / BSIZE)) ->
  let n := Z.max 0 (Z.min (m_nbytes req) (ui_size nd - fe_off e)) in
  wp (serve_read req)
     (fun _ s' => cinv [] s' /\ blocks_eq s s' /\
        fs_fdt s' = <[Z.to_nat (m_fd req) := fe_set_off (fe_off e + n) e]> (fs_fdt s) /\
        fs_sent s' = fs_sent s ++ [(m_sender_pid req, data_reply req n (fbytes s nd (fe_off e) n))] /\
        fs_inodes s' = fs_inodes s /\ fs_fdi s' = fs_fdi s /\ nblk s' = nblk s)
     no_halt s.
Proof.
  intros Hs Hc Ho Hrd Hmap n. pose proof Ho as [_ Hown Hip Hnd Hsz Hoff Hn]. unfold IPC_DATA_SIZE in Hn.
  unfold serve_read, reply_to. wp_step. eapply lookup_opened; [done..|]. cbv iota.
  rewrite (proj2 (Z.eqb_neq _ _) Hrd). wp_step.
  apply fd_inode_spec; [done|by eapply owns_lt|]. intros o. rewrite Hip. intros [= <-].
  wp_step. eapply wp_the_inode; [done|]. unfold IPC_DATA_SIZE.
  rewrite (proj2 (Z.ltb_ge 128 (m_nbytes req))), !(u32_id (fe_off e)) by (unfold is_u32; lia).
  destruct (Z.leb_spec (ui_size nd) (fe_off e)) as [Hend|Hend].
  { apply wp_modify. replace n with 0 by lia. rewrite Z.add_0_r, fe_set_off_same.
    rewrite list_insert_id by apply Hown. split_and!; [|done..]. by destruct Hc. }
  rewrite (u32_id (ui_size nd - fe_off e)), (u32_id (m_nbytes req)) by (unfold is_u32; lia).
  assert ((if ui_size nd - fe_off e <? m_nbytes req then s32 (ui_size nd - fe_off e)
           else m_nbytes req) = n) as ->.
  { destruct (Z.ltb_spec (ui_size nd - fe_off e) (m_nbytes req)); [rewrite s32_id by (unfold is_s32; lia)|]; lia. }
  rewrite (u32_id n) by (unfold is_u32; lia). wp_step.
  wp_call (ureadi_spec [] s ip nd (fe_off e) n); try done; [cbn; unfold UNBUF; lia|unfold is_u32; lia|lia..| |].
  { intros x Hx. apply Hmap. lia. }
  intros ? s1 (-> & Hc1 & [Hk1 He1]).
  replace (Z.max 0 (Z.min n (ui_size nd - fe_off e))) with n by lia. cbn [fst snd].
  rewrite (proj2 (Z.ltb_ge n 0)) by lia. wp_step. wp_step. apply wp_modify.
  split_and!; [by destruct Hc1|done| | |apply Hk1..].
  - cbn. rewrite (kp_fdt _ _ _ Hk1), (alter_as_insert _ _ e) by apply Hown.
    by rewrite s32_id by (unfold is_s32; lia).
  - cbn -[take splice replicate IPC_DATA_SIZE]. rewrite (kp_sent _ _ _ Hk1). unfold data_reply, IPC_DATA_SIZE.
    do 4 f_equal. destruct (Z.ltb_spec 0 n).
    + rewrite Z.min_l by lia. rewrite <- (length_fbytes s nd (fe_off e) n), take_splice_0. done.
    + replace n with 0 by lia. done.
Qed.

Lemma sound_set_sent big s v w nd nb : sound big s nd nb -> sound big (set_sent v (set_fdt w s)) nd nb.
Proof. intros Hs. by apply (sound_frame big s). Qed.

(** A reply without data. *)
Definition plain_reply req (r : Z) : ipc_msg :=
  mkMsg 0 (m_request_id req) IPC_TYPE_FS_REPLY (m_fd req) 0 0 r 0 (replicate 64 0) (replicate 128 0).

Lemma serve_write_spec big s req e ip nd nb :
  sinv s -> cinv [] s -> opened s req e ip nd -> fe_writable e ≠ 0 -> msg_ok req ->
  sound big s nd nb -> ui_size nd <= nb * BSIZE -> fe_off e <= ui_size nd ->
  let off := fe_off e in let n := m_nbytes req in (NDIRECT * BSIZE < off + n -> big) ->
  wp (serve_write req)
     (fun _ s' => cinv [] s' /\ exists nd' nb' s1,
        (s' = set_sent (fs_sent s ++ [(m_sender_pid req, plain_reply req n)]) (set_fdt (<[Z.to_nat (m_fd req) := fe_set_off (off + n) e]> (fs_fdt s)) s1) /\
         stored big s s1 ip nd nd' nb nb' off (take (Z.to_nat n) (m_data req)) (Z.max (ui_size nd) (off + n)) /\ (ui_size nd < off + n -> saved s1 nd')) \/
        (s' = set_sent (fs_sent s ++ [(m_sender_pid req, plain_reply req (-1))]) (set_fdt (fs_fdt s) s1) /\ no_room s1 (off + n) /\
         exists tot, 0 <= tot < n /\ stored big s s1 ip nd nd' nb nb' off (take (Z.to_nat tot) (m_data req)) (ui_size nd)))
     no_halt s.
Proof.
  intros Hs Hc Ho Hwr [_ Hlen] Hso Hszb Hle off n Hbig. pose proof Ho as [_ Hown Hip Hnd Hsz Hoff Hn]. unfold IPC_DATA_SIZE in Hn.
  unfold serve_write, reply_to. wp_step. eapply lookup_opened; [done..|]. cbv iota.
  rewrite (proj2 (Z.eqb_neq _ _) Hwr). wp_step.
  apply fd_inode_spec; [done|by eapply owns_lt|]. intros o. rewrite Hip. intros [= <-].
  unfold IPC_DATA_SIZE. rewrite (proj2 (Z.ltb_ge 128 (m_nbytes req))) by lia. fold n. fold off.
  rewrite !u32_id by (unfold is_u32, off, n; lia). wp_step.
  wp_call (uwritei_grow big [] s ip nd nb off n (m_data req)); try done; [cbn; unfold UNBUF; lia|unfold off; lia|unfold n; lia|unfold n; lia|].
  intros r s1 (Hc1 & nd' & nb' & [(-> & Hst & Hsv)|(-> & Hno & tot & Htot & Hst)]); destruct (st_rest _ _ _ _ _ _ _ _ _ _ _ Hst) as (_ & Ht & _ & Hse & _).
  - rewrite (proj2 (Z.ltb_ge n 0)) by (unfold n; lia). wp_step. wp_step. apply wp_modify.
    split; [by destruct Hc1|]. exists nd', nb', s1. left. split; [|done].
    unfold upd_fd. rewrite Ht, (alter_as_insert _ _ e), s32_id by (apply Hown || unfold is_s32, n; lia). by cbn; rewrite Hse.
  - change (-1 <? 0) with true. cbv iota. apply wp_modify. split; [by destruct Hc1|]. exists nd', nb', s1. right. split; [|split; [done|by exists tot]].
    rewrite <- Ht, <- Hse. by destruct s1.
Qed.
End transfers.
