(* ===== verification/FssTheorems.v ===== *)
(** * FssTheorems: the file server over the kernel's disk

    The main results about fsserver.c, stated for any device that satisfies
    the interface of BlockDev.v, with instances over the kernel's own
    [sys_disk_request] and buffer cache on a small file system image. *)
From S2P Require Import Prelude Ring FsFormat Bio BlockDev DiskReq Ipc CString.
From S2P Require Import FssCache FssFile FssGrow FssDir FssRefs FssServer FssInv.

(** ** A file system image

    Forty blocks: boot block, superblock, two inode blocks, the bitmap and
    data.  The root directory (inode 1) holds [.] and [..]; blocks 10 and 11
    are in use by a file. *)
Module Demo.
Definition str (l : string) : list Z := (fun a => Z.of_N (Ascii.N_of_ascii a)) <$> String.list_ascii_of_string l.
Definition pad (n : nat) (l : list Z) : list Z := take n (l ++ replicate n 0).

Definition image : list (list Z) :=
  [replicate 512 0;
   pad 512 (encode_sb (mkSb 40 30 16 0 2 2 4));
   set_dinode 1 (mkDinode 1 0 0 1 32 (5 :: replicate 12 0)) (replicate 512 0);
   replicate 512 0;
   pad 512 [63; 12];
   pad 512 (encode_dirent (mkDirent 1 (pad 14 (str "."))) ++ encode_dirent (mkDirent 1 (pad 14 (str ".."))))]
  ++ replicate 34 (replicate 512 0).

(** The kernel after boot, with process 3 registered as the server. *)
Definition kernel : kdisk := mkKdisk (binit image) 3 3 0.

(** The server after [ubuf_init], with the superblock of the image and one
    open file of two blocks, [inode], at descriptor 0 of process 7. *)
Definition inode : uinode := mkUinode 1 2 1 2 0 0 1 600 (10 :: 11 :: replicate 11 0) 1.
Definition entry : fd_entry := mkFd 1 7 0 100 1 1.
Definition serving (nd : uinode) (e : fd_entry) : fss kdisk :=
  mkFss (replicate UNBUF zero_ubuf) (links_init UNBUF)
        (nd :: replicate 31 zero_uinode) (mkSb 40 30 16 0 2 2 4)
        (e :: replicate 63 zero_fd) (Some O :: replicate 63 None) kernel [].
Definition server : fss kdisk := serving inode entry.

(** The file fills its two blocks and the descriptor is at its end. *)
Definition inode_full : uinode := ui_set_size 1024 inode.
Definition entry_end : fd_entry := fe_set_off 1024 entry.
Definition server_end : fss kdisk := serving inode_full entry_end.

Definition request (t fd flags n : Z) (path data : string) : ipc_msg :=
  mkMsg 7 1 t fd flags n 0 0 (pad 64 (str path)) (pad 128 (str data)).

Lemma kernel_ok : dev_ok kernel.
Proof.
  unfold dev_ok. cbn -[image kernel]. unfold kdisk_ok. split; [|done].
  apply (binit_quiescent image). by repeat constructor.
Qed.

Lemma server_cinv nd e : cinv [] (serving nd e).
Proof.
  constructor; [done|done|apply kernel_ok|..].
  - intros i b Hb. apply lookup_replicate in Hb as [-> _]. split; [|done]. split; [done|by left].
  - intros i j bi bj Hi _ Di. apply lookup_replicate in Hi as [-> _]. done.
Qed.

Lemma server_sinv nd e : ui_ref nd = 1 -> fe_used e = 1 -> sinv (serving nd e).
Proof.
  intros Hnd He1. constructor; [|done|done|].
  - constructor; [| |done|by repeat constructor; unfold UNINODE; lia].
    + intros i b Hb. apply lookup_replicate in Hb as [-> _]. done.
    + intros [|i] ip; cbn -[replicate refs]; [by intros [= <-]; rewrite Hnd|]. intros Hi.
      apply lookup_replicate in Hi as [-> _]. by destruct i.
  - intros [|i] e' o; cbn -[replicate]; [by intros [= <-] [= <-]; rewrite He1|].
    intros He Ho. apply lookup_replicate in He as [-> _]. apply lookup_replicate in Ho as [-> _]. done.
Qed.

Lemma server_mapped bn : 0 <= bn < 2 -> mapped server inode bn.
Proof.
  intros Hbn. assert (bn = 0 \/ bn = 1) as [-> | ->] by lia; (split; [done|]; split; [by split|done]).
Qed.

Lemma server_layout : layout server inode 2.
Proof.
  constructor; [apply server_mapped| |done].
  intros a b Ha Hb. assert (a = 0 \/ a = 1) as [-> | ->] by lia;
    assert (b = 0 \/ b = 1) as [-> | ->] by lia; done.
Qed.

Lemma server_apart : inode_apart server inode 2.
Proof.
  split_and!; try done. intros bn Hbn. by assert (bn = 0 \/ bn = 1) as [-> | ->] by lia.
Qed.

Lemma server_bitmap m : bitmap_block server m -> m = 4.
Proof.
  intros (b & Hb & ->). cbn in Hb. unfold BBLOCK. cbn [sb_bmapstart fs_sb server]. unfold BPB, BSIZE.
  rewrite Z.div_small by lia. done.
Qed.

Lemma server_held m : bool_decide (m ∈ [0; 2; 4; 10; 11]) = true -> held server m.
Proof.
  intros Hm%bool_decide_eq_true. split; [change (sb_size (fs_sb server)) with 40; set_unfold; lia|].
  rewrite !elem_of_cons in Hm. destruct Hm as [-> | [-> | [-> | [-> | [-> | []%not_elem_of_nil]]]]]; by vm_compute.
Qed.

Lemma server_meta m : meta server inode m -> m = 0 \/ m = 2 \/ m = 4.
Proof. intros [-> | [-> | Hb%server_bitmap]]; [by left|right; left; by vm_compute|by right; right]. Qed.

Lemma server_free : free_zero server.
Proof.
  assert (Hall : Forall (fun b => in_use server b = true \/ blocks server b = replicate 512 0) (seqZ 0 40)).
  { apply (bool_decide_unpack _). by vm_compute. }
  intros b Hb Hu. cbn in Hb. rewrite Forall_forall in Hall. destruct (Hall b) as [E|E]; [apply elem_of_seqZ; lia|congruence|done].
Qed.

Lemma server_sound_at nd e : ui_addrs nd = ui_addrs inode -> ui_dev nd = ui_dev inode -> ui_inum nd = ui_inum inode -> sound True (serving nd e) nd 2.
Proof.
  intros E1 E2 E3. enough (Hs : sound True server inode 2).
  { apply (sound_frame True server) with (s' := serving nd e) in Hs; try done. destruct Hs. unfold meta, fblock, addr_of, not_of_file in *.
    constructor; unfold meta, fblock, addr_of, not_of_file in *; rewrite ?E1, ?E2, ?E3; done. }
  assert (Hfb : forall bn, 0 <= bn < 2 -> fblock server inode bn = 10 + bn).
  { intros bn Hb. by assert (bn = 0 \/ bn = 1) as [-> | ->] by lia. }
  constructor.
  - done.
  - by vm_compute.
  - split_and!; [done|done|]. intros E%server_bitmap. by vm_compute in E.
  - intros m [-> | [-> | ->]]%server_meta; by apply server_held.
  - intros bn Hb. rewrite Hfb by done. split; [assert (bn = 0 \/ bn = 1) as [-> | ->] by lia; by apply server_held|].
    intros Hm%server_meta. lia.
  - intros a b Ha Hb. rewrite !Hfb by done. lia.
  - done.
  - unfold NDIRECT. lia.
  - intros bn Hb [Hl|Hn]; [|done]. unfold fblock. rewrite (proj2 (Z.ltb_lt _ _)) by done. unfold addr_of, inode, NDIRECT in *. cbn [ui_addrs].
    destruct (Z.to_nat bn) as [|[|k]] eqn:Ek; [lia|lia|]. change ((_ :: _ :: replicate 11 0) !! S (S k)) with (replicate 11 0 !! k : option Z).
    by rewrite lookup_replicate_2 by lia.
  - intros _ _. apply server_free.
Qed.
End Demo.

Section theorems.
Context {D : Type} `{BlockDevLaws D}.
Implicit Types (s : fss D) (req : ipc_msg).

(** Read block [n], change it with [f], write it through and release it. *)
Definition modify_block (n : Z) (f : list Z -> list Z) : M (fss D) unit :=
  r ← ubread ROOTDEV n;
  match r with
  | None => mret tt
  | Some bp =>
      modify (upd_ubuf bp (fun b => ub_set_data (f (ub_data b)) b));;
      ubwrite bp;;
      ubrelse bp
  end.

(** The contents [ubread] delivers for block [m]. *)
Definition fetch_block (m : Z) : M (fss D) (option (list Z)) :=
  r ← ubread ROOTDEV m;
  match r with
  | None => mret None
  | Some bp => b ← the_ubuf bp; ubrelse bp;; mret (Some (ub_data b))
  end.

Lemma modify_block_spec p s n f :
  cinv p s -> (length p < UNBUF)%nat -> 0 <= n < nblk s -> length (f (blocks s n)) = 512%nat ->
  wp (modify_block n f)
     (fun _ s' => cinv p s' /\ keeps p s s' /\ blocks s' n = f (blocks s n) /\
        forall m, 0 <= m < nblk s -> m ≠ n -> blocks s' m = blocks s m) no_halt s.
Proof.
  intros Hc Hlt Hn Hl. unfold modify_block. wp_step. wp_call (ubread_spec p s); [done..|].
  intros ? s1 (bp & -> & Hc1 & Hp1 & Hk1). cbv beta iota. wp_step. wp_step. wp_step.
  pose proof (reads_size _ _ _ Hk1) as Hn1.
  wp_call (ubwrite_spec bp _ (bp :: p) (bp :: p) s1 f); [done..|by rewrite (proj2 Hk1)|].
  intros _ s2 (Hc2 & Hk2 & Hnew & Hother). pose proof (kp_size _ _ _ Hk2) as Hn2.
  wp_call (ubrelse_spec bp _ p p s2); [done|done|by eapply kp_pinned; [|left|]|].
  intros _ s3 (Hc3 & Hk3). split; [done|]. split.
  { eapply keeps_trans; [apply Hk1|]. eapply keeps_trans; [|apply Hk3].
    eapply keeps_sub; [|exact Hk2]. set_solver. }
  split.
  - rewrite (proj2 Hk3), Hnew, (proj2 Hk1) by (rewrite ?Hn2, ?Hn1; done). done.
  - intros m Hm Hne. rewrite (proj2 Hk3), Hother, (proj2 Hk1) by (rewrite ?Hn2, ?Hn1; done). done.
Qed.

Lemma fetch_block_spec p s m :
  cinv p s -> (length p < UNBUF)%nat -> 0 <= m < nblk s ->
  wp (fetch_block m) (fun r s' => r = Some (blocks s m) /\ cinv p s' /\ reads p s s') no_halt s.
Proof.
  intros Hc Hlt Hm. unfold fetch_block. wp_step. wp_call (ubread_spec p s); [done..|].
  intros ? s1 (bp & -> & Hc1 & Hp1 & Hk1). cbv beta iota.
  destruct (pinned_data _ _ _ _ Hc1 Hp1) as (b & Hb & Hd & _).
  wp_step. eapply wp_the_ubuf; [done|]. wp_step. wp_call (ubrelse_spec bp _ p p s1); [done..|].
  intros _ s2 (Hc2 & Hk2). wp_step. rewrite Hd, (proj2 Hk1) by done.
  split; [done|]. split; [done|]. by eapply reads_trans.
Qed.

(** The server's block cache is transparent: after a block is modified
    and written through, every later [ubread] delivers the new contents for
    that block and the old contents for every other, whatever buffers are
    recycled in between, and no buffer stays referenced. *)
Theorem cache_write_then_read s n f m :
  cinv [] s -> 0 <= n < nblk s -> 0 <= m < nblk s -> length (f (blocks s n)) = 512%nat ->
  wp (modify_block n f;; fetch_block m)
     (fun r s' => r = Some (if m =? n then f (blocks s n) else blocks s m) /\ cinv [] s') no_halt s.
Proof.
  intros Hc Hn Hm Hl. wp_step. wp_call (modify_block_spec [] s n f); [done|cbn; unfold UNBUF; lia|done..|].
  intros _ s1 (Hc1 & Hk1 & Hnew & Hother).
  wp_call (fetch_block_spec [] s1 m); [done|cbn; unfold UNBUF; lia|by rewrite (kp_size _ _ _ Hk1)|].
  intros ? s2 (-> & Hc2 & _). split; [|done]. f_equal.
  destruct (Z.eqb_spec m n) as [->|Hne]; [done|by apply Hother].
Qed.

(** C30: [balloc] returns the lowest block that the bitmap marks free and
    marks exactly that block used, changing no other block of the disk than
    the one bitmap block; when no block is free it returns 0 and changes
    nothing. *)
Theorem balloc_allocates s :
  cinv [] s -> bitmap_ok s ->
  wp balloc
     (fun r s' => cinv [] s' /\ fs_inodes s' = fs_inodes s /\
        ((0 <= r < sb_size (fs_sb s) /\ in_use s r = false /\
          (forall b, 0 <= b < r -> in_use s b = true) /\
          (forall b, 0 <= b < sb_size (fs_sb s) ->
             in_use s' b = if b =? r then true else in_use s b) /\
          forall m, 0 <= m < nblk s -> m ≠ BBLOCK r (fs_sb s) -> blocks s' m = blocks s m) \/
         (r = 0 /\ (forall b, 0 <= b < sb_size (fs_sb s) -> in_use s b = true) /\ blocks_eq s s')))
     no_halt s.
Proof.
  intros Hc Hbm. wp_call (balloc_spec [] s); [done|cbn; unfold UNBUF; lia|done|].
  intros r s' (Hc' & Hk & Hpost). split; [done|]. split; [apply Hk|].
  destruct Hpost as [(Hr & Hfree & Hless & Hnew & Hother)|]; [left|by right].
  split; [done|]. split; [done|]. split; [done|]. split; [|done].
  by apply (in_use_set [] s); [done|done|apply Hk|..].
Qed.

(** Reading through [ureadi] a range whose blocks are allocated always
    returns, and returns exactly the file's bytes from [off] on, cut at the
    file size; it changes no block and keeps the cache invariant. *)
Theorem ureadi_reads_file s i ip off n :
  cinv [] s -> fs_inodes s !! i = Some ip -> is_u32 (ui_size ip) ->
  0 <= off -> 0 <= n < 2 ^ 31 -> off + n < 2 ^ 32 ->
  (forall x, off <= x < Z.min (off + n) (ui_size ip) -> mapped s ip (x / BSIZE)) ->
  let k := Z.max 0 (Z.min n (ui_size ip - off)) in
  wp (ureadi i off n)
     (fun r s' => r = (k, fbytes s ip off k) /\ cinv [] s' /\ blocks_eq s s') no_halt s.
Proof.
  intros. wp_call (ureadi_spec [] s i ip off n); try done; [cbn; unfold UNBUF; lia|].
  intros r s' (-> & Hc & _ & Hb). done.
Qed.

(** C27: writing through [uwritei] into allocated blocks always returns [n]
    and changes exactly the bytes [off, off+n) of the file to those of the
    source; the inode's size becomes the maximum of the old size and
    [off+n], and no block changes but those of the file and its inode
    block. *)
Theorem uwritei_writes_exactly s i ip nb off n src :
  cinv [] s -> fs_inodes s !! i = Some ip -> layout s ip nb -> inode_apart s ip nb ->
  0 <= off <= ui_size ip -> 0 <= n < 2 ^ 31 -> n <= Z.of_nat (length src) ->
  off + n < 2 ^ 32 -> off + n <= nb * BSIZE ->
  wp (uwritei i src off n)
     (fun r s' => r = n /\ cinv [] s' /\
        fs_inodes s' = <[i := ui_set_size (Z.max (ui_size ip) (off + n)) ip]> (fs_inodes s) /\
        (forall x, 0 <= x < nb * BSIZE ->
           fbyte s' ip x = if (off <=? x) && (x <? off + n) then byte_at src (x - off) else fbyte s ip x) /\
        (forall m, 0 <= m < nblk s -> not_of_file s ip nb m -> m ≠ IBLOCK (ui_inum ip) (fs_sb s) ->
           blocks s' m = blocks s m)) no_halt s.
Proof.
  intros Hc Hi Hl Ha Hoff Hn Hsrc Hmax Hnb.
  wp_call (uwritei_spec [] s i ip nb off n src); try done; [cbn; unfold UNBUF; lia|lia..|].
  intros r s' (-> & Hc' & Hw). split; [done|]. split; [done|]. by destruct Hw.
Qed.

(** C12: on a consistent file system, a write at any offset up to the end of
    the file followed by a read of the same range returns the bytes written,
    whether the file had the blocks or the write allocated them; the write
    fails only when no block of the disk is free or the file would exceed
    [MAXFILE] blocks.  Neither call halts.  [big] stands for a write that
    reaches the indirect blocks: the server does not clear a new indirect
    block, so then the free blocks must be zero. *)
Theorem write_read_roundtrip (big : Prop) s i ip nb off n src :
  cinv [] s -> fs_inodes s !! i = Some ip -> sound big s ip nb -> ui_size ip <= nb * BSIZE ->
  0 <= off <= ui_size ip -> 0 <= n < 2 ^ 31 -> n <= Z.of_nat (length src) -> (NDIRECT * BSIZE < off + n -> big) ->
  wp (w ← uwritei i src off n; r ← ureadi i off n; mret (w, r))
     (fun x s' => cinv [] s' /\
        (x = (n, (n, take (Z.to_nat n) src)) \/ x.1 = -1 /\ (full s' \/ MAXFILE * BSIZE < off + n))) no_halt s.
Proof.
  intros Hc Hi Hs Hsz Hoff Hn Hsrc Hbig. pose proof (so_nb _ _ _ _ Hs) as Hnb0. wp_step.
  wp_call (uwritei_grow big [] s i ip nb off n src); try done; [cbn; unfold UNBUF; lia|].
  intros w s' (Hc' & ip' & nb' & Hor). wp_step.
  assert (Hread : forall d sz, stored big s s' i ip ip' nb nb' off d sz -> 0 <= sz ->
    wp (ureadi i off n) (fun r s2 => r = (Z.max 0 (Z.min n (sz - off)), fbytes s' ip' off (Z.max 0 (Z.min n (sz - off)))) /\ cinv [] s2 /\ blocks_eq s' s2 /\ fs_sb s2 = fs_sb s' /\ nblk s2 = nblk s') no_halt s').
  { intros d sz [I1 E1 S1 R1 _ _ _] H0z. pose proof (so_nb _ _ _ _ S1) as Hnb. change MAXFILE with 140 in Hnb, Hnb0. unfold BSIZE in *.
    assert (Hz : ui_size ip' = sz) by (by rewrite E1). rewrite <- Hz.
    wp_call (ureadi_spec [] s' i ip' off n); try done; [cbn; unfold UNBUF; lia|rewrite I1; apply list_lookup_insert_eq; by eapply lookup_lt_Some|unfold is_u32; lia|lia|lia| |].
    { intros x Hx. apply (sound_layout _ _ _ _ S1). unfold BSIZE. Z.to_euclidean_division_equations; lia. }
    intros r s2 (-> & Hc2 & Hk & He). split; [done|]. split; [done|]. split; [done|]. split; apply Hk. }
  destruct Hor as [(-> & Hst & _)|(-> & Hno & tot & Htot & Hst)].
  - wp_call (Hread _ _ Hst); [lia|]. intros r s2 (-> & Hc2 & _). wp_step. split; [done|]. left.
    replace (Z.max 0 (Z.min n (Z.max (ui_size ip) (off + n) - off))) with n by lia. do 2 f_equal.
    apply list_eq. intros k. unfold fbytes. rewrite list_lookup_fmap. destruct (decide (k < Z.to_nat n)%nat).
    + rewrite lookup_seqZ_lt by lia. cbn. rewrite (st_bytes _ _ _ _ _ _ _ _ _ _ _ Hst) by (rewrite length_take; lia).
      rewrite length_take, (proj2 (Z.leb_le _ _)), (proj2 (Z.ltb_lt _ _)) by lia. cbn [andb]. unfold byte_at.
      replace (Z.to_nat (off + Z.of_nat k - off)) with k by lia.
      destruct (lookup_lt_is_Some_2 (take (Z.to_nat n) src) k) as [x ->]; [rewrite length_take; lia|done].
    + rewrite lookup_seqZ_ge, lookup_take_ge by lia. done.
  - wp_call (Hread _ _ Hst); [lia|]. intros r s2 (_ & Hc2 & He & Hsb & Hn2). wp_step. split; [done|]. right. split; [done|].
    destruct Hno as [Hf|]; [left|by right]. intros b Hb. rewrite Hsb in Hb. rewrite (in_use_eq s'); [by apply Hf|done|].
    apply He. pose proof (st_sound _ _ _ _ _ _ _ _ _ _ _ Hst) as S1. apply (held_range big s' ip' nb'); [done|].
    apply (so_meta _ _ _ _ S1). right; right. by exists b.
Qed.
End theorems.

Section server.
Context {D : Type} `{BlockDev D}.
Implicit Types (s : fss D) (req : ipc_msg).

(** C2: from the process image on, whatever messages arrive, every time the
    server is back in its loop no block buffer is referenced, the reference
    count of every inode is the number of open descriptors naming it, and a
    descriptor is in use exactly when it names an inode: nothing leaks and
    nothing is freed early. *)
Theorem server_never_leaks (d : D) reqs :
  wp (main reqs)
     (fun _ s' =>
        (forall i b, fs_bufs s' !! i = Some b -> ub_refcnt b = 0) /\
        (forall i ip, fs_inodes s' !! i = Some ip ->
           ui_ref ip = Z.of_nat (count_occ Nat.eq_dec (omap id (fs_fdi s')) i)) /\
        (forall i e o, fs_fdt s' !! i = Some e -> fs_fdi s' !! i = Some o ->
           (fe_used e = 0 <-> o = None)))
     any_halt (fss_static d).
Proof.
  unfold main. wp_step. eapply wp_conseq; [apply startup_spec|]. intros _ s [Hs _].
  eapply wp_conseq; [by apply serve_spec|]. intros _ s' [[[Hb Hi _ _] _ Hl Ho] _].
  split; [|split; [|done]]; [by intros i b Hib; rewrite (Hb i b Hib)|].
  intros i ip Hip. rewrite (Hi i ip Hip). apply s32_id.
  pose proof (refs_bound i (live s')).
  assert (length (live s') <= MAX_REMOTE_FDS)%nat.
  { rewrite <- Hl. apply live_length. }
  unfold is_s32, MAX_REMOTE_FDS, refs, live in *. lia.
Qed.

(** C17: the server answers every request it handles exactly once and in
    order: the messages it sends are one reply per request, addressed to the
    process that sent it and carrying its request id; client-exit notices
    are not answered, and nothing is sent after a shutdown. *)
Theorem one_reply_per_request (d : D) reqs :
  wp (main reqs) (fun _ s' => Forall2 is_reply (answered reqs) (fs_sent s')) any_halt (fss_static d).
Proof.
  unfold main. wp_step. eapply wp_conseq; [apply startup_spec|]. intros _ s [Hs E].
  eapply wp_conseq; [by apply serve_spec|]. intros _ s' (_ & l & El & Hl). by rewrite El, E.
Qed.

(** C16: whatever a client sends, the descriptors other clients have open
    keep their entry (offset and access rights included) and their inode,
    and no descriptor appears for anybody but the sender. *)
Theorem requests_are_isolated req s :
  sinv s ->
  wp (handle req)
     (fun _ s' =>
        (forall i e, fs_fdt s !! i = Some e -> fe_used e ≠ 0 -> fe_owner_pid e ≠ m_sender_pid req ->
           fs_fdt s' !! i = Some e /\ fs_fdi s' !! i = fs_fdi s !! i) /\
        (forall i e, fs_fdt s' !! i = Some e -> fe_used e ≠ 0 ->
           fe_owner_pid e = m_sender_pid req \/ fs_fdt s !! i = Some e)) any_halt s.
Proof.
  intros Hs. eapply wp_conseq; [by apply handle_spec|]. by intros go s' [[_ [] _] _].
Qed.

(** C33: a client-exit notice always returns, closes every descriptor of
    that client and no other, and sends nothing. *)
Theorem client_exit_closes_all req s :
  sinv s -> m_type req = IPC_TYPE_FS_CLIENT_EXIT ->
  wp (handle req)
     (fun go s' => go = true /\ sinv s' /\ fs_sent s' = fs_sent s /\
        (forall i e, fs_fdt s' !! i = Some e -> fe_used e ≠ 0 -> fe_owner_pid e ≠ m_sender_pid req) /\
        (forall i e, fs_fdt s !! i = Some e -> fe_used e ≠ 0 -> fe_owner_pid e ≠ m_sender_pid req ->
           fs_fdt s' !! i = Some e)) no_halt s.
Proof.
  intros Hs Ht. unfold handle. rewrite Ht.
  change (IPC_TYPE_FS_CLIENT_EXIT =? IPC_TYPE_FS_SHUTDOWN) with false. rewrite Z.eqb_refl. cbv iota.
  wp_step. wp_call (close_all_spec (m_sender_pid req) s); [done|].
  intros _ s' [[Hi [Hiso _] Hsent] Hno]. wp_step. split; [done|]. split; [done|]. split; [done|].
  split.
  - intros i e He Hu Ho. by apply (Hno i e).
  - intros i e He Hu Ho. by apply Hiso.
Qed.

(** A close request always returns with one reply; it succeeds exactly
    when the descriptor is open and owned by the sender, and then the
    descriptor is free again. *)
Theorem close_frees_descriptor req s :
  sinv s ->
  wp (serve_close req)
     (fun _ s' => sinv s' /\ (exists x, fs_sent s' = fs_sent s ++ [x] /\ is_reply req x /\
        ((m_result x.2 = 0 /\ exists e, owns (m_sender_pid req) s (Z.to_nat (m_fd req)) e /\
            fs_fdt s' !! Z.to_nat (m_fd req) = Some (fe_set_used 0 e)) \/
         (m_result x.2 = -1 /\ fs_fdt s' = fs_fdt s /\
            ~ exists e, 0 <= m_fd req /\ owns (m_sender_pid req) s (Z.to_nat (m_fd req)) e)))) no_halt s.
Proof.
  intros Hs. unfold serve_close, reply_to. wp_step.
  wp_call (lookup_remote_fd_spec (m_sender_pid req) (m_fd req) s); [done|].
  intros [[k e]|] s1 [-> Hr]; cbv beta iota.
  2: { apply wp_modify. split; [by apply sinv_sent|]. eexists. split; [done|]. split; [done|]. by right. }
  destruct Hr as (Ho & -> & Hfd). destruct (owns_inode _ _ _ _ Hs Ho) as [ip Hip].
  wp_step. wp_call (drop_fd_inode_spec s _ ip); [apply Hs|done|]. intros _ s2 (Hr2 & E1 & E2 & E3).
  wp_step. wp_step. unfold upd_fd. rewrite E2, (alter_as_insert _ _ e) by apply Ho.
  apply wp_modify. split.
  - apply sinv_sent. eapply (rd_inv (m_sender_pid req) s), ready_close; try done. by destruct Hr2.
  - eexists. cbn -[replicate]. rewrite E3. split; [done|]. split; [done|]. left. split; [done|].
    exists e. split; [done|]. apply list_lookup_insert_eq. by eapply lookup_lt_Some, Ho.
Qed.
End server.

Section requests.
Context {D : Type} `{BlockDevLaws D}.
Implicit Types (s : fss D) (req : ipc_msg).

(** C28: a read request on a readable descriptor of the sender always
    returns; the single reply carries exactly the bytes of the file at the
    descriptor's offset (at most 128, cut at the end of the file), the offset
    advances by that many, and the disk does not change. *)
Theorem read_request_returns_bytes s req e ip nd :
  sinv s -> cinv [] s -> opened s req e ip nd -> fe_readable e ≠ 0 ->
  (forall x, fe_off e <= x < Z.min (fe_off e + m_nbytes req) (ui_size nd) -> mapped s nd (x / BSIZE)) ->
  let n := Z.max 0 (Z.min (m_nbytes req) (ui_size nd - fe_off e)) in
  wp (serve_read req)
     (fun _ s' => cinv [] s' /\ blocks_eq s s' /\
        fs_fdt s' = <[Z.to_nat (m_fd req) := fe_set_off (fe_off e + n) e]> (fs_fdt s) /\
        fs_sent s' = fs_sent s ++ [(m_sender_pid req, data_reply req n (fbytes s nd (fe_off e) n))])
     no_halt s.
Proof. intros. wp_call (serve_read_spec s req e ip nd); [done..|]. by intros ? s' (? & ? & ? & ? & _). Qed.

(** C29: a write request on a writable descriptor of the sender, on a
    consistent file system, is answered by one reply.  Either the reply
    reports all bytes: they are stored at the descriptor's offset, which
    advances by their number, a file that grew has the new size also on the
    disk, and all other bytes of the file are as before.  Or it reports -1,
    because the disk is full or the file would exceed [MAXFILE] blocks: size,
    offset and the bytes outside the range are as before.  Blocks in use by
    anything but this file do not change and the file system is consistent
    again.  As above, [big] is for a write that reaches the indirect blocks. *)
Theorem write_request_stores_bytes (big : Prop) s req e ip nd nb :
  sinv s -> cinv [] s -> opened s req e ip nd -> fe_writable e ≠ 0 -> msg_ok req ->
  sound big s nd nb -> ui_size nd <= nb * BSIZE -> fe_off e <= ui_size nd ->
  let off := fe_off e in let n := m_nbytes req in (NDIRECT * BSIZE < off + n -> big) ->
  wp (serve_write req)
     (fun _ s' => cinv [] s' /\ exists nd' nb' x,
        fs_inodes s' = <[ip := nd']> (fs_inodes s) /\ sound big s' nd' nb' /\ ui_size nd' <= nb' * BSIZE /\
        (forall m, held s m -> ~ meta s nd m -> m ≠ addr_of nd NDIRECT -> not_of_file s nd nb m -> blocks s' m = blocks s m) /\
        fs_sent s' = fs_sent s ++ [x] /\ is_reply req x /\
        (m_result x.2 = n /\ ui_size nd' = Z.max (ui_size nd) (off + n) /\
         fs_fdt s' = <[Z.to_nat (m_fd req) := fe_set_off (off + n) e]> (fs_fdt s) /\ (ui_size nd < off + n -> saved s' nd') /\
         (forall y, 0 <= y < ui_size nd' -> fbyte s' nd' y = if (off <=? y) && (y <? off + n) then byte_at (m_data req) (y - off) else fbyte s nd y) \/
         m_result x.2 = -1 /\ (full s' \/ MAXFILE * BSIZE < off + n) /\ ui_size nd' = ui_size nd /\ fs_fdt s' = fs_fdt s /\
         forall y, 0 <= y < off \/ off + n <= y < ui_size nd -> fbyte s' nd' y = fbyte s nd y)) no_halt s.
Proof.
  intros Hs Hc Ho Hw Hm Hso Hsz Hle off n Hbig. pose proof Ho as [_ _ _ _ _ Hoff Hn]. destruct Hm as [Hm0 Hlen]. unfold IPC_DATA_SIZE in Hn.
  wp_call (serve_write_spec big s req e ip nd nb); try done. intros _ s' (Hc' & nd' & nb' & s1 & Hor). split; [done|].
  assert (Hl : forall z, 0 <= z <= n -> Z.of_nat (length (take (Z.to_nat z) (m_data req))) = z) by (intros z Hz; rewrite length_take; unfold n in *; lia).
  destruct Hor as [(-> & [I1 E1 S1 R1 B1 F1 _] & Hsv)|(-> & Hno & tot & Htot & [I1 E1 S1 R1 B1 F1 _])];
    (eexists nd', nb', _; split; [done|]; split; [by apply sound_set_sent|]; pose proof (f_equal ui_size E1) as Hz; cbn [ui_size ui_set_size] in Hz;
     split; [rewrite Hz; exact R1|]; split; [done|]; split; [reflexivity|]; split; [done|]).
  - left. split; [done|]. split; [done|]. split; [done|]. split; [exact Hsv|]. intros y Hy. rewrite Hl in B1 by (unfold n; lia).
    change (fbyte (set_sent _ _) nd' y) with (fbyte s1 nd' y). rewrite B1 by (unfold BSIZE in *; lia).
    unfold off, n in *. destruct (Z.leb_spec (fe_off e) y), (Z.ltb_spec y (fe_off e + m_nbytes req)); cbn [andb]; try done. unfold byte_at.
    by rewrite lookup_take_lt by lia.
  - right. split; [done|]. split; [exact Hno|]. split; [done|]. split; [done|]. intros y Hy. rewrite Hl in B1 by lia.
    change (fbyte (set_sent _ _) nd' y) with (fbyte s1 nd' y). rewrite B1 by (unfold BSIZE in *; lia).
    unfold off, n in *. destruct (Z.leb_spec (fe_off e) y), (Z.ltb_spec y (fe_off e + tot)); cbn [andb]; (done || lia).
Qed.

Lemma uiget_loop_full dev inum l : forall i,
  Forall (fun ip => ui_ref ip ≠ 0 /\ (ui_dev ip ≠ dev \/ ui_inum ip ≠ inum)) l ->
  uiget_loop dev inum l i None = inr None.
Proof.
  induction l as [|ip l IH]; intros i; [done|].
  intros [[Hr Hne] Hl]%Forall_cons. cbn [uiget_loop].
  replace (_ && _ && _)%bool with false
    by (destruct (0 <? ui_ref ip), (Z.eqb_spec (ui_dev ip) dev), (Z.eqb_spec (ui_inum ip) inum);
        cbn; intuition).
  rewrite (proj2 (Z.eqb_neq _ _) Hr). by apply IH.
Qed.

(** C39: when all 32 inode slots are taken by open files other than the root
    directory, an open request for any non-empty path makes the server
    dereference the null pointer that [uiget] returned for the root. *)
Theorem open_crashes_when_inodes_exhausted s req pa len rest rest' :
  Forall (fun ip => ui_ref ip ≠ 0 /\ (ui_dev ip ≠ ROOTDEV \/ ui_inum ip ≠ ROOTINO)) (fs_inodes s) ->
  m_type req = IPC_TYPE_FS_OPEN ->
  skip_slashes (m_path req ++ m_data req) = Some pa -> head pa ≠ Some 0 ->
  scan_elem pa = Some (len, rest) -> skip_slashes rest = Some rest' ->
  handle req s = (Halt NullDeref, s).
Proof.
  intros Hf Ht Hp Hh He Hr. unfold handle, serve_open, namei, uiget. rewrite Ht.
  unfold mbind, M_bind, getS. cbn -[skip_slashes namei_loop uiget_loop]. rewrite uiget_loop_full by done.
  unfold of_option. rewrite Hp. cbn [mret M_ret namei_loop].
  destruct pa as [|c pa]; [by cbn in He|]. cbn [head] in *.
  unfold mbind, M_bind. cbn -[skip_slashes scan_elem]. destruct (Z.eqb_spec c 0); [congruence|].
  rewrite He. cbn -[skip_slashes]. by rewrite Hr.
Qed.
End requests.

(** ** Instances over the kernel's disk *)
Module Instances.
Import Demo.

Lemma cache_write_then_read_witness :
  wp (modify_block 10 (<[O := 5]>);; fetch_block 10)
     (fun r s' => r = Some (<[O := 5]> (blocks server 10)) /\ cinv [] s') no_halt server.
Proof. apply (cache_write_then_read server 10 (<[O := 5]>) 10); [apply server_cinv|done..]. Defined.

Lemma balloc_allocates_witness :
  wp balloc
     (fun r s' => cinv [] s' /\ fs_inodes s' = fs_inodes server /\
        ((0 <= r < sb_size (fs_sb server) /\ in_use server r = false /\
          (forall b, 0 <= b < r -> in_use server b = true) /\
          (forall b, 0 <= b < sb_size (fs_sb server) ->
             in_use s' b = if b =? r then true else in_use server b) /\
          forall m, 0 <= m < nblk server -> m ≠ BBLOCK r (fs_sb server) -> blocks s' m = blocks server m) \/
         (r = 0 /\ (forall b, 0 <= b < sb_size (fs_sb server) -> in_use server b = true) /\ blocks_eq server s')))
     no_halt server.
Proof. apply balloc_allocates; [apply server_cinv|]. by vm_compute. Defined.

Lemma ureadi_reads_file_witness :
  wp (ureadi 0 500 100)
     (fun r s' => r = (100, fbytes server inode 500 100) /\ cinv [] s' /\ blocks_eq server s') no_halt server.
Proof.
  apply (ureadi_reads_file server 0 inode 500 100); [apply server_cinv|done..|].
  intros x Hx. apply server_mapped. cbn in Hx. unfold BSIZE. Z.to_euclidean_division_equations; lia.
Defined.

Lemma uwritei_writes_exactly_witness :
  wp (uwritei 0 [1; 2; 3] 511 3)
     (fun r s' => r = 3 /\ cinv [] s' /\
        fs_inodes s' = <[O := ui_set_size 600 inode]> (fs_inodes server) /\
        (forall x, 0 <= x < 2 * BSIZE ->
           fbyte s' inode x = if (511 <=? x) && (x <? 511 + 3) then byte_at [1; 2; 3] (x - 511) else fbyte server inode x) /\
        (forall m, 0 <= m < nblk server -> not_of_file server inode 2 m ->
           m ≠ IBLOCK (ui_inum inode) (fs_sb server) -> blocks s' m = blocks server m)) no_halt server.
Proof.
  apply (uwritei_writes_exactly server 0 inode 2 511 3 [1; 2; 3]);
    [apply server_cinv|done|apply server_layout|apply server_apart|done..].
Defined.

(** A write that allocates three blocks. *)
Lemma write_read_roundtrip_witness :
  (uwritei 0 (replicate 1800 7) 600 1800 server).1 = Ret 1800 /\
  wp (w ← uwritei 0 (replicate 1800 7) 600 1800; r ← ureadi 0 600 1800; mret (w, r))
     (fun x s' => cinv [] s' /\
        (x = (1800, (1800, take (Z.to_nat 1800) (replicate 1800 7))) \/ x.1 = -1 /\ (full s' \/ MAXFILE * BSIZE < 600 + 1800))) no_halt server.
Proof.
  split; [by vm_compute|].
  apply (write_read_roundtrip True server 0 inode 2 600 1800 (replicate 1800 7));
    [apply server_cinv|done|by apply server_sound_at|done|done|done|by rewrite length_replicate|done].
Defined.

Lemma requests_are_isolated_witness :
  let req := request IPC_TYPE_FS_CLOSE 0 0 0 EmptyString EmptyString in
  wp (handle req)
     (fun _ s' =>
        (forall i e, fs_fdt server !! i = Some e -> fe_used e ≠ 0 -> fe_owner_pid e ≠ m_sender_pid req ->
           fs_fdt s' !! i = Some e /\ fs_fdi s' !! i = fs_fdi server !! i) /\
        (forall i e, fs_fdt s' !! i = Some e -> fe_used e ≠ 0 ->
           fe_owner_pid e = m_sender_pid req \/ fs_fdt server !! i = Some e)) any_halt server.
Proof. apply (requests_are_isolated (request IPC_TYPE_FS_CLOSE 0 0 0 EmptyString EmptyString) server); by apply server_sinv. Defined.

Lemma client_exit_closes_all_witness :
  let req := request IPC_TYPE_FS_CLIENT_EXIT 0 0 0 EmptyString EmptyString in
  wp (handle req)
     (fun go s' => go = true /\ sinv s' /\ fs_sent s' = fs_sent server /\
        (forall i e, fs_fdt s' !! i = Some e -> fe_used e ≠ 0 -> fe_owner_pid e ≠ m_sender_pid req) /\
        (forall i e, fs_fdt server !! i = Some e -> fe_used e ≠ 0 -> fe_owner_pid e ≠ m_sender_pid req ->
           fs_fdt s' !! i = Some e)) no_halt server.
Proof.
  apply (client_exit_closes_all (request IPC_TYPE_FS_CLIENT_EXIT 0 0 0 EmptyString EmptyString) server);
    [by apply server_sinv|done].
Defined.

Lemma close_frees_descriptor_witness :
  let req := request IPC_TYPE_FS_CLOSE 0 0 0 EmptyString EmptyString in
  wp (serve_close req)
     (fun _ s' => sinv s' /\ (exists x, fs_sent s' = fs_sent server ++ [x] /\ is_reply req x /\
        ((m_result x.2 = 0 /\ exists e, owns (m_sender_pid req) server (Z.to_nat (m_fd req)) e /\
            fs_fdt s' !! Z.to_nat (m_fd req) = Some (fe_set_used 0 e)) \/
         (m_result x.2 = -1 /\ fs_fdt s' = fs_fdt server /\
            ~ exists e, 0 <= m_fd req /\ owns (m_sender_pid req) server (Z.to_nat (m_fd req)) e)))) no_halt server.
Proof. apply (close_frees_descriptor (request IPC_TYPE_FS_CLOSE 0 0 0 EmptyString EmptyString) server); by apply server_sinv. Defined.

Lemma server_opened t n : 0 <= n <= 128 -> opened server (request t 0 0 n EmptyString "abc") entry 0 inode.
Proof. intros Hn. constructor; try done. Qed.

Lemma read_request_returns_bytes_witness :
  let req := request IPC_TYPE_FS_READ 0 0 128 EmptyString "abc" in
  wp (serve_read req)
     (fun _ s' => cinv [] s' /\ blocks_eq server s' /\
        fs_fdt s' = <[O := fe_set_off 228 entry]> (fs_fdt server) /\
        fs_sent s' = [(7, data_reply req 128 (fbytes server inode 100 128))]) no_halt server.
Proof.
  apply (read_request_returns_bytes server (request IPC_TYPE_FS_READ 0 0 128 EmptyString "abc") entry 0 inode);
    [by apply server_sinv|apply server_cinv|by apply server_opened|done|].
  intros x Hx. apply server_mapped. cbn in Hx. unfold BSIZE. Z.to_euclidean_division_equations; lia.
Defined.

(** The request takes a new block for the file. *)
Lemma write_request_stores_bytes_witness :
  let req := request IPC_TYPE_FS_WRITE 0 0 3 EmptyString "abc" in
  (m_result <$> (fs_sent (serve_write req server_end).2).*2) = [3] /\
  wp (serve_write req)
     (fun _ s' => cinv [] s' /\ exists nd' nb', fs_inodes s' = <[O := nd']> (fs_inodes server_end) /\ sound True s' nd' nb') no_halt server_end.
Proof.
  split; [by vm_compute|].
  eapply wp_conseq; [apply (write_request_stores_bytes True server_end (request IPC_TYPE_FS_WRITE 0 0 3 EmptyString "abc") entry_end 0 inode_full 2);
    [by apply server_sinv|apply server_cinv|by constructor|done|done|by apply server_sound_at|done..]|].
  cbv beta. intros _ s' (Hc & nd' & nb' & x & H1 & H2 & _). split; [done|]. by exists nd', nb'.
Defined.

(** Thirty-two files open, none of them the root directory. *)
Definition crowded : fss kdisk := set_inodes (replicate UNINODE inode) server.

Lemma open_crashes_when_inodes_exhausted_witness :
  handle (request IPC_TYPE_FS_OPEN 0 0 0 "/a" EmptyString) crowded = (Halt NullDeref, crowded).
Proof.
  eapply (open_crashes_when_inodes_exhausted crowded); [|reflexivity..|done|reflexivity|reflexivity].
  apply Forall_replicate. split; [done|by right].
Defined.
End Instances.
