(* ===== verification/Proc.v ===== *)
(** * Proc: processes, sleeping and message passing in proc.c

    The process table is shared by all kernel threads and protected by
    [ptable.lock]; what a thread does between taking the lock and releasing
    it (or sleeping) is one atomic function of the table here.  Code of
    [allocproc] and [fork] that touches a slot without the lock is a separate
    function.  A process is named by its slot.  [fork] stores the parent of
    the new slot a little before it makes it runnable; the two stores are one
    function, as only the parent itself, which is busy in [fork], ever
    compares that field with its own slot. *)
From S2P Require Import Prelude Ipc.

Definition NPROC : nat := 64.

Inductive procstate : Type :=
| UNUSED | EMBRYO | SLEEPING | RUNNABLE | RUNNING | ZOMBIE | WAITING_IPC_REPLY.

#[export] Instance procstate_eq_dec : EqDecision procstate.
Proof. solve_decision. Defined.

(** Sleep channels are addresses: of a [struct proc], of its [has_msg]
    field, or of something else in the kernel. *)
Inductive chan : Type :=
| ChProc (i : nat)
| ChMsg (i : nat)
| ChOther (a : Z).

#[export] Instance chan_eq_dec : EqDecision chan.
Proof. solve_decision. Defined.

Record proc := mkProc {
  p_state : procstate;
  p_pid : Z;
  p_parent : option nat;
  p_chan : option chan;
  p_killed : Z;
  p_mailbox : ipc_msg;
  p_has_msg : Z;
}.

Record ptable := mkPtable {
  pt_proc : list proc;
  pt_initproc : nat;
  pt_nextpid : Z;
  pt_fsserver_pid : Z;
}.

Definition zero_proc : proc := mkProc UNUSED 0 None None 0 zero_msg 0.

Definition set_state v p := mkProc v (p_pid p) (p_parent p) (p_chan p) (p_killed p) (p_mailbox p) (p_has_msg p).
Definition set_pid v p := mkProc (p_state p) v (p_parent p) (p_chan p) (p_killed p) (p_mailbox p) (p_has_msg p).
Definition set_parent v p := mkProc (p_state p) (p_pid p) v (p_chan p) (p_killed p) (p_mailbox p) (p_has_msg p).
Definition set_chan v p := mkProc (p_state p) (p_pid p) (p_parent p) v (p_killed p) (p_mailbox p) (p_has_msg p).
Definition set_killed v p := mkProc (p_state p) (p_pid p) (p_parent p) (p_chan p) v (p_mailbox p) (p_has_msg p).
Definition set_mail m v p := mkProc (p_state p) (p_pid p) (p_parent p) (p_chan p) (p_killed p) m v.

Definition set_procs v t := mkPtable v (pt_initproc t) (pt_nextpid t) (pt_fsserver_pid t).
Definition set_nextpid v t := mkPtable (pt_proc t) (pt_initproc t) v (pt_fsserver_pid t).
Definition set_fsserver v t := mkPtable (pt_proc t) (pt_initproc t) (pt_nextpid t) v.

Definition procn (t : ptable) (i : nat) : proc := default zero_proc (pt_proc t !! i).
Definition upd (i : nat) (f : proc -> proc) (t : ptable) : ptable := set_procs (alter f i (pt_proc t)) t.

(** The first slot that satisfies a test, as the loops over the table look. *)
Definition find_slot (P : proc -> bool) (t : ptable) : option nat :=
  List.find (fun i => P (procn t i)) (seq 0 (length (pt_proc t))).

Definition is_state (x : procstate) (p : proc) : bool := bool_decide (p_state p = x).

(** ** Sleep and wakeup *)

Definition wakeup1 (c : chan) (t : ptable) : ptable :=
  set_procs ((fun p => if (is_state SLEEPING p && bool_decide (p_chan p = Some c))%bool
                       then set_state RUNNABLE p else p) <$> pt_proc t) t.

(** [sleep] up to the call of [sched], and what it does when it is resumed. *)
Definition sleep (cur : nat) (c : chan) (t : ptable) : ptable :=
  upd cur (fun p => set_state SLEEPING (set_chan (Some c) p)) t.
Definition sleep_return (cur : nat) (t : ptable) : ptable := upd cur (set_chan None) t.

(** [yield], and the scheduler's switch to a runnable process. *)
Definition yield (cur : nat) (t : ptable) : ptable := upd cur (set_state RUNNABLE) t.
Definition scheduler_run (i : nat) (t : ptable) : option ptable :=
  if is_state RUNNABLE (procn t i) then Some (upd i (set_state RUNNING) t) else None.

Definition kill (pid : Z) (t : ptable) : Z * ptable :=
  match find_slot (fun p => p_pid p =? pid) t with
  | Some i =>
      (0, upd i (fun p => let p := set_killed 1 p in
                          if is_state SLEEPING p then set_state RUNNABLE p else p) t)
  | None => (-1, t)
  end.

(** ** Creating processes *)

(** [allocproc] until it releases the lock. *)
Definition allocproc (t : ptable) : option nat * ptable :=
  match find_slot (is_state UNUSED) t with
  | Some i =>
      (Some i, set_nextpid (s32 (pt_nextpid t + 1))
                 (upd i (fun p => set_pid (pt_nextpid t) (set_state EMBRYO p)) t))
  | None => (None, t)
  end.

(** The rest of [allocproc], without the lock: the mailbox is emptied. *)
Definition allocproc_reset (np : nat) (t : ptable) : ptable := upd np (set_mail zero_msg 0) t.

(** Giving the slot up when memory runs out ([allocproc] and [fork]). *)
Definition fork_fail (np : nat) (t : ptable) : ptable := upd np (set_state UNUSED) t.

(** The end of [fork]: the child becomes runnable. *)
Definition fork_done (cur np : nat) (t : ptable) : ptable :=
  upd np (fun p => set_state RUNNABLE (set_parent (Some cur) p)) t.

Definition userinit (t : ptable) : option ptable :=
  match allocproc t with
  | (Some i, t) =>
      let t := allocproc_reset i t in
      Some (upd i (set_state RUNNABLE) (mkPtable (pt_proc t) i (pt_nextpid t) (pt_fsserver_pid t)))
  | (None, _) => None
  end.

(** The table at boot. *)
Definition ptable_static : ptable := mkPtable (replicate NPROC zero_proc) O 1 (-1).

(** ** Messages *)

Definition register_fsserver (cur : nat) (t : ptable) : ptable := set_fsserver (p_pid (procn t cur)) t.
Definition get_fsserver_pid (t : ptable) : Z := pt_fsserver_pid t.
Definition is_fsserver (cur : nat) (t : ptable) : bool := pt_fsserver_pid t =? p_pid (procn t cur).

(** A call that has to wait answers [None] after putting the caller to sleep. *)

(** The loop of [ipc_send_msg] and the delivery after it. *)
Definition send_loop (cur tgt : nat) (kmsg : ipc_msg) (t : ptable) : option Z * ptable :=
  let q := procn t tgt in
  if p_has_msg q =? 1 then
    if (negb (p_killed (procn t cur) =? 0) || is_state UNUSED q || is_state ZOMBIE q || negb (p_killed q =? 0))%bool
    then (Some (-1), t)
    else (None, sleep cur (ChMsg tgt) t)
  else (Some 0, wakeup1 (ChProc tgt) (upd tgt (set_mail kmsg 1) t)).

(** [ipc_send_msg] up to its return or its first sleep; a sleeping sender
    remembers the target slot and its copy of the message. *)
Definition ipc_send_msg (cur : nat) (pid : Z) (msg : ipc_msg) (t : ptable)
    : option Z * option (nat * ipc_msg) * ptable :=
  let kmsg := set_sender (p_pid (procn t cur)) msg in
  if negb (valid_ipc_msg kmsg) then (Some (-1), None, t)
  else
    match find_slot (fun p => p_pid p =? pid) t with
    | None => (Some (-1), None, t)
    | Some tgt =>
        let q := procn t tgt in
        if (is_state UNUSED q || is_state EMBRYO q || is_state ZOMBIE q || negb (p_killed q =? 0))%bool
        then (Some (-1), None, t)
        else let '(r, t) := send_loop cur tgt kmsg t in (r, Some (tgt, kmsg), t)
    end.

Definition send_resume (cur tgt : nat) (kmsg : ipc_msg) (t : ptable) : option Z * ptable :=
  send_loop cur tgt kmsg (sleep_return cur t).

(** The loop of [ipc_recv_msg] and taking the message out. *)
Definition recv_loop (cur : nat) (t : ptable) : option (Z * ipc_msg) * ptable :=
  let p := procn t cur in
  if p_has_msg p =? 0 then
    if negb (p_killed p =? 0) then (Some (-1, zero_msg), t)
    else (None, sleep cur (ChProc cur) t)
  else (Some (0, p_mailbox p), wakeup1 (ChMsg cur) (upd cur (set_mail zero_msg 0) t)).

Definition ipc_recv_msg (cur : nat) (t : ptable) : option (Z * ipc_msg) * ptable := recv_loop cur t.
Definition recv_resume (cur : nat) (t : ptable) : option (Z * ipc_msg) * ptable :=
  recv_loop cur (sleep_return cur t).

(** The system calls [send] and [recv]; [copyin] and [copyout] (vm.c) give
    the message read from user memory and whether it could be stored. *)
Definition send (cur : nat) (pid : Z) (copyin : option ipc_msg) (t : ptable)
    : option Z * option (nat * ipc_msg) * ptable :=
  match copyin with
  | None => (Some (-1), None, t)
  | Some msg => ipc_send_msg cur pid msg t
  end.
Definition recv_result (r : Z * ipc_msg) (copyout_ok : bool) : Z :=
  if r.1 <? 0 then -1 else if copyout_ok then 0 else -1.

(** ** Exit and wait *)

(** The notice [exit] sends to the file server, if one is registered. *)
Definition exit_notice (cur : nat) (t : ptable) : option Z :=
  if ((0 <? pt_fsserver_pid t) && negb (pt_fsserver_pid t =? p_pid (procn t cur)))%bool
  then Some (pt_fsserver_pid t) else None.
Definition exit_msg : ipc_msg :=
  mkMsg 0 0 IPC_TYPE_FS_CLIENT_EXIT 0 0 0 0 0 (replicate 64 0) (replicate 128 0).

(** Children of [cur] go to init, which is woken if one of them is a zombie. *)
Definition reparent1 (cur : nat) (t : ptable) (i : nat) : ptable :=
  if bool_decide (p_parent (procn t i) = Some cur) then
    let t := upd i (set_parent (Some (pt_initproc t))) t in
    if is_state ZOMBIE (procn t i) then wakeup1 (ChProc (pt_initproc t)) t else t
  else t.
Definition reparent (cur : nat) (t : ptable) : ptable :=
  foldl (reparent1 cur) t (seq 0 (length (pt_proc t))).

(** The last critical section of [exit]. *)
Definition exit_finish (cur : nat) (t : ptable) : ptable :=
  let t := if pt_fsserver_pid t =? p_pid (procn t cur) then set_fsserver (-1) t else t in
  let t := upd cur (set_mail zero_msg 0) t in
  let t := wakeup1 (ChMsg cur) t in
  let t := match p_parent (procn t cur) with Some q => wakeup1 (ChProc q) t | None => t end in
  let t := reparent cur t in
  upd cur (set_state ZOMBIE) t.

(** One scan of the loop of [wait]. *)
Definition reap (i : nat) (t : ptable) : ptable :=
  upd i (fun p => mkProc UNUSED 0 None (p_chan p) 0 zero_msg 0) t.

(** The answer is the pid and, for the bookkeeping below, the slot it had. *)
Definition wait_loop (cur : nat) (t : ptable) : option (Z * option nat) * ptable :=
  let child p := bool_decide (p_parent p = Some cur) in
  match find_slot (fun p => child p && is_state ZOMBIE p)%bool t with
  | Some i => (Some (p_pid (procn t i), Some i), reap i t)
  | None =>
      if (negb (existsb child (pt_proc t)) || negb (p_killed (procn t cur) =? 0))%bool
      then (Some (-1, None), t)
      else (None, sleep cur (ChProc cur) t)
  end.
Definition wait_resume (cur : nat) (t : ptable) : option (Z * option nat) * ptable := wait_loop cur (sleep_return cur t).

(** ** The system of processes

    Each slot carries where its kernel thread is: in user mode (or anywhere
    in the kernel outside this file), blocked in one of the calls above, or
    in the middle of [fork] or [exit]. *)
Inductive kont : Type :=
| KUser
| KSend (tgt : nat) (kmsg : ipc_msg) (exiting : bool)
| KRecv
| KWait
| KExiting
| KForkNew (np : nat)
| KForkReady (np : nat).

(** Messages entering and leaving mailboxes, in order: delivered by the
    process with pid [from] to slot [tgt]; taken out of it by [recv]; or
    erased with the slot. *)
Inductive event : Type :=
| EvDeliver (from : Z) (tgt : nat) (m : ipc_msg)
| EvTake (tgt : nat) (m : ipc_msg)
| EvErase (tgt : nat) (m : ipc_msg).

Record sys := mkSys {
  y_pt : ptable;
  y_kont : nat -> kont;
  y_log : list event;
}.

Definition set_kont (i : nat) (k : kont) (f : nat -> kont) : nat -> kont :=
  fun j => if decide (j = i) then k else f j.

Inductive act : Type :=
| ASend (pid : Z) (msg : ipc_msg)
| ARecv
| AWait
| AExit
| AExitFinish
| AFork
| AForkReset
| AForkFail
| AForkDone
| AYield
| AKill (pid : Z)
| ARegister
| ASleepOther (a : Z)
| AWakeOther (a : Z)
| AResume.

(** Emptying mailbox [i] erases the message in it, if any. *)
Definition erased (i : nat) (t : ptable) : list event :=
  if p_has_msg (procn t i) =? 1 then [EvErase i (p_mailbox (procn t i))] else [].

(** After a send call: delivered, refused, or asleep. *)
Definition after_send (s : sys) (cur : nat) (exiting : bool) (r : option Z) (w : option (nat * ipc_msg))
    (t : ptable) : sys :=
  let back := if exiting then KExiting else KUser in
  match r, w with
  | Some r, Some (tgt, m) =>
      mkSys t (set_kont cur back (y_kont s))
            (if r =? 0 then y_log s ++ [EvDeliver (p_pid (procn (y_pt s) cur)) tgt m] else y_log s)
  | Some _, None => mkSys t (set_kont cur back (y_kont s)) (y_log s)
  | None, Some (tgt, m) => mkSys t (set_kont cur (KSend tgt m exiting) (y_kont s)) (y_log s)
  | None, None => s
  end.

Definition after_recv (s : sys) (cur : nat) (r : option (Z * ipc_msg)) (t : ptable) : sys :=
  match r with
  | Some (r, m) => mkSys t (set_kont cur KUser (y_kont s)) (if r =? 0 then y_log s ++ [EvTake cur m] else y_log s)
  | None => mkSys t (set_kont cur KRecv (y_kont s)) (y_log s)
  end.

Definition after_wait (s : sys) (cur : nat) (r : option (Z * option nat)) (t : ptable) : sys :=
  match r with
  | Some (_, gone) =>
      mkSys t (set_kont cur KUser (y_kont s))
            (y_log s ++ match gone with Some i => erased i (y_pt s) | None => [] end)
  | None => mkSys t (set_kont cur KWait (y_kont s)) (y_log s)
  end.

(** One atomic step of the thread of slot [cur]; [None] when the thread is
    not at that point, or the kernel panics. *)
Definition exec (cur : nat) (a : act) (s : sys) : option sys :=
  let t := y_pt s in
  let at_ t' k l := Some (mkSys t' (set_kont cur k (y_kont s)) (y_log s ++ l)) in
  match a, y_kont s cur with
  | ASend pid msg, KUser =>
      let '(r, w, t') := ipc_send_msg cur pid msg t in Some (after_send s cur false r w t')
  | ARecv, KUser => let '(r, t') := ipc_recv_msg cur t in Some (after_recv s cur r t')
  | AWait, KUser => let '(r, t') := wait_loop cur t in Some (after_wait s cur r t')
  | AExit, KUser =>
      if (cur =? pt_initproc t)%nat then None
      else match exit_notice cur t with
           | None => at_ t KExiting []
           | Some pid => let '(r, w, t') := ipc_send_msg cur pid exit_msg t in Some (after_send s cur true r w t')
           end
  | AExitFinish, KExiting => at_ (exit_finish cur t) KUser (erased cur t)
  | AFork, KUser =>
      match allocproc t with
      | (Some np, t') => at_ t' (KForkNew np) []
      | (None, t') => at_ t' KUser []
      end
  | AForkReset, KForkNew np => at_ (allocproc_reset np t) (KForkReady np) (erased np t)
  | AForkFail, KForkReady np => at_ (fork_fail np t) KUser []
  | AForkDone, KForkReady np => at_ (fork_done cur np t) KUser []
  | AYield, k =>
      match k with
      | KUser | KExiting | KForkNew _ | KForkReady _ => at_ (yield cur t) k []
      | _ => None
      end
  | AKill pid, KUser => at_ (kill pid t).2 KUser []
  | ARegister, KUser => at_ (register_fsserver cur t) KUser []
  | ASleepOther a, k =>
      match k with
      | KUser | KExiting => at_ (sleep cur (ChOther a) t) k []
      | _ => None
      end
  | AWakeOther a, k => at_ (wakeup1 (ChOther a) t) k []
  | AResume, KSend tgt m ex => let '(r, t') := send_resume cur tgt m t in Some (after_send s cur ex r (Some (tgt, m)) t')
  | AResume, KRecv => let '(r, t') := recv_resume cur t in Some (after_recv s cur r t')
  | AResume, KWait => let '(r, t') := wait_resume cur t in Some (after_wait s cur r t')
  | _, _ => None
  end.

(** The scheduler switches to a runnable process, or a running process takes
    an atomic step. *)
Inductive step : sys -> sys -> Prop :=
| step_run i s t' :
    scheduler_run i (y_pt s) = Some t' -> step s (mkSys t' (y_kont s) (y_log s))
| step_act cur a s s' :
    is_state RUNNING (procn (y_pt s) cur) = true -> exec cur a s = Some s' -> step s s'.

Inductive reach : nat -> sys -> Prop :=
| reach_boot t : userinit ptable_static = Some t -> reach 0 (mkSys t (fun _ => KUser) [])
| reach_step n s s' : reach n s -> step s s' -> reach (S n) s'.

(** ** Reading the table after an update *)

Definition in_table (t : ptable) (i : nat) : Prop := (i < length (pt_proc t))%nat.
#[export] Instance in_table_dec t i : Decision (in_table t i).
Proof. unfold in_table. apply _. Defined.

Lemma procn_upd i f t j :
  procn (upd i f t) j = if decide (j = i /\ in_table t i) then f (procn t i) else procn t j.
Proof.
  unfold procn, upd. cbn. rewrite list_lookup_alter. destruct (decide (i = j)) as [->|Hne].
  - destruct (decide (in_table t j)) as [Hj|Hj].
    + rewrite decide_True by done. by destruct (lookup_lt_is_Some_2 _ _ Hj) as [p ->].
    + rewrite decide_False by tauto. unfold in_table in Hj. rewrite lookup_ge_None_2 by lia. done.
  - by rewrite decide_False by intuition.
Qed.

Lemma procn_upd_ne i f t j : j ≠ i -> procn (upd i f t) j = procn t j.
Proof. intros. rewrite procn_upd. by rewrite decide_False by tauto. Qed.

Lemma procn_upd_eq i f t : in_table t i -> procn (upd i f t) i = f (procn t i).
Proof. intros. rewrite procn_upd. by rewrite decide_True. Qed.

Definition woken (c : chan) (p : proc) : proc :=
  if (is_state SLEEPING p && bool_decide (p_chan p = Some c))%bool then set_state RUNNABLE p else p.

Lemma procn_wakeup1 c t j : procn (wakeup1 c t) j = woken c (procn t j).
Proof. unfold procn, wakeup1. cbn. rewrite list_lookup_fmap. by destruct (pt_proc t !! j). Qed.

Lemma length_upd i f t : length (pt_proc (upd i f t)) = length (pt_proc t).
Proof. apply length_alter. Qed.
Lemma length_wakeup1 c t : length (pt_proc (wakeup1 c t)) = length (pt_proc t).
Proof. apply length_fmap. Qed.

(** A field that an update does not touch. *)
Section field.
Context {A : Type} (g : proc -> A).

Lemma field_upd i f t j : (g (f (procn t i)) = g (procn t i)) -> g (procn (upd i f t) j) = g (procn t j).
Proof. intros E. rewrite procn_upd. case_decide as Hd; [destruct Hd as [-> _]|]; done. Qed.

Lemma field_wakeup1 c t j :
  (forall p, g (set_state RUNNABLE p) = g p) -> g (procn (wakeup1 c t) j) = g (procn t j).
Proof. intros E. rewrite procn_wakeup1. unfold woken. by destruct (_ && _)%bool. Qed.

Lemma field_reparent cur t j :
  (forall p v, g (set_parent v p) = g p) -> (forall p, g (set_state RUNNABLE p) = g p) ->
  g (procn (reparent cur t) j) = g (procn t j).
Proof.
  intros E1 E2. unfold reparent. generalize (seq 0 (length (pt_proc t))). intros l. revert t.
  induction l as [|i l IH]; intros t; [done|]. cbn [foldl]. rewrite IH. unfold reparent1.
  case_bool_decide; [|done]. destruct (is_state _ _); [rewrite field_wakeup1 by done|]; by apply field_upd.
Qed.
End field.

Lemma find_slot_spec P t i : find_slot P t = Some i -> in_table t i /\ P (procn t i) = true.
Proof. intros [Hi HP]%find_some. apply in_seq in Hi. split; [unfold in_table; lia|done]. Qed.

Lemma find_slot_none P t i : find_slot P t = None -> in_table t i -> P (procn t i) = false.
Proof. intros E Hi. apply (find_none _ _ E i). apply in_seq. unfold in_table in Hi. lia. Qed.
