(* ===== verification/ProcMail.v ===== *)
(** * ProcMail: mailboxes never lose, forge or duplicate a message

    Invariants of the message events of Proc.v over every reachable system. *)
From S2P Require Import Prelude Ipc Proc.

(** The messages put into mailbox [i], and those that left it. *)
Definition delivered (i : nat) (l : list event) : list ipc_msg :=
  omap (fun e => match e with EvDeliver _ j m => if decide (j = i) then Some m else None | _ => None end) l.
Definition consumed (i : nat) (l : list event) : list ipc_msg :=
  omap (fun e => match e with
                 | EvTake j m | EvErase j m => if decide (j = i) then Some m else None
                 | _ => None
                 end) l.
(** The message waiting in a mailbox. *)
Definition waiting (p : proc) : list ipc_msg := if p_has_msg p =? 1 then [p_mailbox p] else [].

Definition kont_ok (t : ptable) (k : kont) : Prop :=
  match k with
  | KSend i _ _ | KForkNew i | KForkReady i => in_table t i
  | _ => True
  end.

Record mail_inv (s : sys) : Prop := mkMailInv {
  mi_flag : forall i, p_has_msg (procn (y_pt s) i) = 0 \/ p_has_msg (procn (y_pt s) i) = 1;
  mi_log : forall i, delivered i (y_log s) = consumed i (y_log s) ++ waiting (procn (y_pt s) i);
  mi_kont : forall i, kont_ok (y_pt s) (y_kont s i);
}.

(** The mailbox fields, and tables that agree on them. *)
Definition mailbox_of (p : proc) : ipc_msg * Z := (p_mailbox p, p_has_msg p).
Definition quiet (t t' : ptable) : Prop :=
  length (pt_proc t') = length (pt_proc t) /\ forall i, mailbox_of (procn t' i) = mailbox_of (procn t i).

Lemma quiet_refl t : quiet t t.
Proof. done. Qed.
Lemma quiet_trans t1 t2 t3 : quiet t1 t2 -> quiet t2 t3 -> quiet t1 t3.
Proof. intros [L1 H1] [L2 H2]. split; [congruence|]. intros i. by rewrite H2. Qed.

Lemma quiet_upd i f t : mailbox_of (f (procn t i)) = mailbox_of (procn t i) -> quiet t (upd i f t).
Proof. intros E. split; [apply length_upd|]. intros j. by apply field_upd. Qed.
Lemma quiet_wakeup1 c t : quiet t (wakeup1 c t).
Proof. split; [apply length_wakeup1|]. intros j. by apply field_wakeup1. Qed.
Lemma quiet_sleep cur c t : quiet t (sleep cur c t).
Proof. by apply quiet_upd. Qed.
Lemma quiet_sleep_return cur t : quiet t (sleep_return cur t).
Proof. by apply quiet_upd. Qed.
Lemma length_reparent cur t : length (pt_proc (reparent cur t)) = length (pt_proc t).
Proof.
  unfold reparent. generalize (seq 0 (length (pt_proc t))). intros l. revert t.
  induction l as [|i l IH]; intros t; [done|]. cbn [foldl]. rewrite IH. unfold reparent1.
  case_bool_decide; [|done]. destruct (is_state _ _); [rewrite length_wakeup1|]; apply length_upd.
Qed.
Lemma quiet_reparent cur t : quiet t (reparent cur t).
Proof. split; [apply length_reparent|]. intros j. by apply field_reparent. Qed.

Create HintDb quiet.
#[export] Hint Resolve quiet_refl quiet_wakeup1 quiet_sleep quiet_sleep_return quiet_reparent : quiet.
#[export] Hint Extern 2 (quiet _ (upd _ _ _)) => by apply quiet_upd : quiet.

Lemma waiting_quiet t t' i : quiet t t' -> waiting (procn t' i) = waiting (procn t i).
Proof. intros [_ Hq]. specialize (Hq i). unfold waiting. injection Hq as E1 E2. by rewrite E1, E2. Qed.

Lemma kont_ok_quiet t t' k : quiet t t' -> kont_ok t k -> kont_ok t' k.
Proof. intros [L _]. unfold kont_ok, in_table. by rewrite L. Qed.

Lemma flag_quiet t t' i : quiet t t' -> p_has_msg (procn t' i) = p_has_msg (procn t i).
Proof. intros [_ Hq]. specialize (Hq i). by injection Hq. Qed.

(** A step that moves no message. *)
Lemma mail_quiet s t' cur k :
  mail_inv s -> quiet (y_pt s) t' -> kont_ok (y_pt s) k ->
  mail_inv (mkSys t' (set_kont cur k (y_kont s)) (y_log s)).
Proof.
  intros [Hf Hl Hk] Hq Hok. constructor; cbn [y_pt y_log y_kont].
  - intros i. rewrite (flag_quiet _ _ _ Hq). apply Hf.
  - intros i. rewrite (waiting_quiet _ _ _ Hq). apply Hl.
  - intros i. eapply kont_ok_quiet; [done|]. unfold set_kont. by case_decide.
Qed.

Lemma delivered_app i l l' : delivered i (l ++ l') = delivered i l ++ delivered i l'.
Proof. apply omap_app. Qed.
Lemma consumed_app i l l' : consumed i (l ++ l') = consumed i l ++ consumed i l'.
Proof. apply omap_app. Qed.

(** Putting a message into the empty mailbox of slot [tgt]. *)
Lemma mail_deliver s t1 t' tgt m from cur k :
  mail_inv s -> quiet (y_pt s) t1 -> in_table (y_pt s) tgt -> (p_has_msg (procn t1 tgt) =? 1) = false ->
  quiet (upd tgt (set_mail m 1) t1) t' -> kont_ok (y_pt s) k ->
  mail_inv (mkSys t' (set_kont cur k (y_kont s)) (y_log s ++ [EvDeliver from tgt m])).
Proof.
  intros [Hf Hl Hk] Hq1 Ht Hempty Hq2 Hok.
  assert (Ht1 : in_table t1 tgt) by (unfold in_table; by rewrite (proj1 Hq1)).
  constructor; cbn [y_pt y_log y_kont].
  - intros i. rewrite (flag_quiet _ _ _ Hq2), procn_upd. case_decide as Hd; [by right|].
    rewrite (flag_quiet _ _ _ Hq1). apply Hf.
  - intros i. rewrite delivered_app, consumed_app, (waiting_quiet _ _ _ Hq2), procn_upd, Hl.
    cbn [delivered consumed omap list_omap]. rewrite app_nil_r. destruct (decide (tgt = i)) as [->|Hne].
    + rewrite decide_True by done. rewrite <- (waiting_quiet _ _ i Hq1). unfold waiting at 1.
      rewrite Hempty. by rewrite app_nil_r.
    + rewrite decide_False by (intros [-> _]; done). rewrite app_nil_r.
      by rewrite (waiting_quiet _ _ _ Hq1).
  - intros i. unfold set_kont. case_decide; (eapply kont_ok_quiet; [done|]);
      unfold kont_ok, in_table in *; rewrite length_upd, (proj1 Hq1); [done|apply Hk].
Qed.

(** Emptying mailbox [i], with the events that account for its message. *)
Lemma mail_empty s t1 t' i f ev cur k :
  mail_inv s -> quiet (y_pt s) t1 -> in_table (y_pt s) i -> p_has_msg (f (procn t1 i)) = 0 ->
  quiet (upd i f t1) t' -> kont_ok (y_pt s) k ->
  (forall j, delivered j ev = [] /\ consumed j ev = if decide (j = i) then waiting (procn (y_pt s) i) else []) ->
  mail_inv (mkSys t' (set_kont cur k (y_kont s)) (y_log s ++ ev)).
Proof.
  intros [Hf Hl Hk] Hq1 Ht Hz Hq2 Hok Hev.
  assert (Ht1 : in_table t1 i) by (unfold in_table; by rewrite (proj1 Hq1)).
  constructor; cbn [y_pt y_log y_kont].
  - intros j. rewrite (flag_quiet _ _ _ Hq2), procn_upd. case_decide as Hd; [by left|].
    rewrite (flag_quiet _ _ _ Hq1). apply Hf.
  - intros j. destruct (Hev j) as [E1 E2].
    rewrite delivered_app, consumed_app, E1, E2, (waiting_quiet _ _ _ Hq2), procn_upd, app_nil_r, Hl.
    destruct (decide (j = i)) as [->|Hne].
    + rewrite decide_True by done. unfold waiting at 3. rewrite Hz. by rewrite app_nil_r.
    + rewrite decide_False by tauto. by rewrite (waiting_quiet _ _ _ Hq1), app_nil_r.
  - intros j. unfold set_kont. case_decide; (eapply kont_ok_quiet; [done|]);
      unfold kont_ok, in_table in *; rewrite length_upd, (proj1 Hq1); [done|apply Hk].
Qed.

Lemma erased_events i t j :
  delivered j (erased i t) = [] /\
  consumed j (erased i t) = if decide (j = i) then waiting (procn t i) else [].
Proof.
  unfold erased, waiting. destruct (p_has_msg (procn t i) =? 1); [|by case_decide].
  split; [done|]. cbn. repeat case_decide; congruence.
Qed.

Lemma running_in_table t i : is_state RUNNING (procn t i) = true -> in_table t i.
Proof.
  unfold in_table, procn, is_state. intros Hr. destruct (decide (i < length (pt_proc t))%nat); [done|].
  rewrite lookup_ge_None_2 in Hr by lia. done.
Qed.

(** ** Each step keeps the invariant *)

Lemma send_loop_mail s cur tgt m ex t1 :
  mail_inv s -> quiet (y_pt s) t1 -> in_table (y_pt s) tgt ->
  let '(r, t') := send_loop cur tgt m t1 in mail_inv (after_send s cur ex r (Some (tgt, m)) t').
Proof.
  intros Hi Hq Ht. unfold send_loop. destruct (p_has_msg (procn t1 tgt) =? 1) eqn:E.
  - destruct (_ || _ || _ || _)%bool; cbn [after_send].
    + apply mail_quiet; [done|done|by destruct ex].
    + apply mail_quiet; [done|by eapply quiet_trans; [|apply quiet_sleep]|done].
  - cbn [after_send Z.eqb]. eapply mail_deliver; [done..| |by destruct ex]. apply quiet_wakeup1.
Qed.

Lemma ipc_send_mail s cur pid msg ex :
  mail_inv s ->
  let '(r, w, t') := ipc_send_msg cur pid msg (y_pt s) in mail_inv (after_send s cur ex r w t').
Proof.
  intros Hi. unfold ipc_send_msg.
  assert (Href : mail_inv (after_send s cur ex (Some (-1)) None (y_pt s))).
  { apply mail_quiet; [done|apply quiet_refl|by destruct ex]. }
  destruct (negb _); [done|]. destruct (find_slot _ _) as [tgt|] eqn:E; [|done].
  apply find_slot_spec in E as [Ht _]. destruct (_ || _ || _ || _)%bool; [done|].
  pose proof (send_loop_mail s cur tgt (set_sender (p_pid (procn (y_pt s) cur)) msg) ex (y_pt s) Hi
                (quiet_refl _) Ht) as Hs.
  by destruct (send_loop _ _ _ _).
Qed.

Lemma recv_loop_mail s cur t1 :
  mail_inv s -> quiet (y_pt s) t1 -> in_table (y_pt s) cur ->
  let '(r, t') := recv_loop cur t1 in mail_inv (after_recv s cur r t').
Proof.
  intros Hi Hq Ht. unfold recv_loop. destruct (p_has_msg (procn t1 cur) =? 0) eqn:E.
  - destruct (negb _); cbn [after_recv Z.eqb]; apply mail_quiet; try done.
    eapply quiet_trans; [done|apply quiet_sleep].
  - cbn [after_recv Z.eqb]. eapply mail_empty; [done|done|done| |apply quiet_wakeup1|done|]; [done|].
    assert (Hw : waiting (procn (y_pt s) cur) = [p_mailbox (procn t1 cur)]).
    { rewrite <- (waiting_quiet _ _ _ Hq). unfold waiting.
      destruct (mi_flag _ Hi cur) as [Hf|Hf]; rewrite (flag_quiet _ _ _ Hq), Hf in *; done. }
    intros j. rewrite Hw. split; [done|]. cbn. repeat case_decide; congruence.
Qed.

Lemma wait_loop_mail s cur t1 :
  mail_inv s -> quiet (y_pt s) t1 ->
  let '(r, t') := wait_loop cur t1 in mail_inv (after_wait s cur r t').
Proof.
  intros Hi Hq. unfold wait_loop. destruct (find_slot _ _) as [i|] eqn:E.
  - apply find_slot_spec in E as [Ht _]. unfold in_table in Ht. rewrite (proj1 Hq) in Ht.
    cbn [after_wait]. eapply mail_empty; [done|done|done| |apply quiet_refl|done|]; [done|].
    intros j. apply erased_events.
  - destruct (_ || _)%bool; cbn [after_wait]; [rewrite app_nil_r|]; apply mail_quiet; try done.
    eapply quiet_trans; [done|apply quiet_sleep].
Qed.

Lemma exit_finish_mail cur t :
  exists t1, quiet t t1 /\ p_has_msg (set_mail zero_msg 0 (procn t1 cur)) = 0 /\
             quiet (upd cur (set_mail zero_msg 0) t1) (exit_finish cur t).
Proof.
  unfold exit_finish.
  exists (if pt_fsserver_pid t =? p_pid (procn t cur) then set_fsserver (-1) t else t).
  split; [by destruct (_ =? _)|]. split; [done|].
  set (t0 := upd cur (set_mail zero_msg 0) _). eapply quiet_trans; [apply (quiet_wakeup1 (ChMsg cur))|].
  set (t1 := wakeup1 (ChMsg cur) t0).
  eapply quiet_trans; [|by apply quiet_upd]. eapply quiet_trans; [|apply quiet_reparent].
  destruct (p_parent _); [apply quiet_wakeup1|apply quiet_refl].
Qed.

Lemma exec_mail cur a s s' :
  mail_inv s -> is_state RUNNING (procn (y_pt s) cur) = true -> exec cur a s = Some s' -> mail_inv s'.
Proof.
  intros Hi Hrun%running_in_table He. pose proof (mi_kont _ Hi cur) as Hk. unfold exec in He.
  destruct a, (y_kont s cur) eqn:Ek; try discriminate He; cbn [kont_ok] in Hk.
  all: try (injection He as <-; rewrite app_nil_r; apply mail_quiet;
            [done|by (apply quiet_upd || apply quiet_wakeup1)|done]).
  - pose proof (ipc_send_mail s cur pid msg false Hi) as Hs.
    destruct (ipc_send_msg _ _ _ _) as [[r w] t']. by injection He as <-.
  - pose proof (recv_loop_mail s cur (y_pt s) Hi (quiet_refl _) Hrun) as Hs.
    unfold ipc_recv_msg in He. destruct (recv_loop _ _) as [r t']. by injection He as <-.
  - pose proof (wait_loop_mail s cur (y_pt s) Hi (quiet_refl _)) as Hs.
    destruct (wait_loop _ _) as [r t']. by injection He as <-.
  - destruct (_ =? _)%nat; [done|]. destruct (exit_notice _ _) as [pid|].
    + pose proof (ipc_send_mail s cur pid exit_msg true Hi) as Hs.
      destruct (ipc_send_msg _ _ _ _) as [[r w] t']. by injection He as <-.
    + injection He as <-. rewrite app_nil_r. by apply mail_quiet; [|apply quiet_refl|].
  - injection He as <-. destruct (exit_finish_mail cur (y_pt s)) as (t1 & Hq1 & Hz & Hq2).
    eapply mail_empty; [done..|]. intros j. apply erased_events.
  - unfold allocproc in He. destruct (find_slot _ _) as [np|] eqn:E; injection He as <-; rewrite app_nil_r.
    + apply find_slot_spec in E as [Ht _]. apply mail_quiet; [done| |done].
      by apply (quiet_upd np (fun p => set_pid (pt_nextpid (y_pt s)) (set_state EMBRYO p)) (y_pt s)).
    + by apply mail_quiet; [|apply quiet_refl|].
  - injection He as <-. eapply mail_empty; [done|apply quiet_refl|done| |apply quiet_refl|done|]; [done|].
    intros j. apply erased_events.
  - injection He as <-. rewrite app_nil_r. apply mail_quiet; [done| |done]. unfold kill.
    destruct (find_slot _ _); [|apply quiet_refl]. apply quiet_upd. by destruct (is_state _ _).
  - injection He as <-. rewrite app_nil_r. by apply mail_quiet.
  - pose proof (send_loop_mail s cur tgt kmsg exiting (sleep_return cur (y_pt s)) Hi
                  (quiet_sleep_return _ _) Hk) as Hs.
    unfold send_resume in He. destruct (send_loop _ _ _ _) as [r t']. by injection He as <-.
  - pose proof (recv_loop_mail s cur (sleep_return cur (y_pt s)) Hi (quiet_sleep_return _ _) Hrun) as Hs.
    unfold recv_resume in He. destruct (recv_loop _ _) as [r t']. by injection He as <-.
  - pose proof (wait_loop_mail s cur (sleep_return cur (y_pt s)) Hi (quiet_sleep_return _ _)) as Hs.
    unfold wait_resume in He. destruct (wait_loop _ _) as [r t']. by injection He as <-.
Qed.

Lemma boot_table t : userinit ptable_static = Some t ->
  t = mkPtable (mkProc RUNNABLE 1 None None 0 zero_msg 0 :: replicate 63 zero_proc) 0 2 (-1).
Proof. intros E. vm_compute in E. injection E as <-. reflexivity. Qed.

Lemma procn_boot t i : userinit ptable_static = Some t ->
  procn t i = mkProc RUNNABLE 1 None None 0 zero_msg 0 /\ i = O \/ procn t i = zero_proc /\ i ≠ O.
Proof.
  intros ->%boot_table. destruct i as [|i]; [by left|right]. split; [|done].
  unfold procn. cbn -[replicate]. destruct (replicate 63 zero_proc !! i) eqn:E; [|done].
  by apply lookup_replicate in E as [-> _].
Qed.

Lemma reach_mail n s : reach n s -> mail_inv s.
Proof.
  induction 1 as [t Ht|n s s' _ IH Hst].
  - constructor; cbn [y_pt y_log y_kont]; [| |done]; intros i;
      destruct (procn_boot t i Ht) as [[-> _]|[-> _]]; done || by left.
  - destruct Hst as [i s t' Hr|cur a s s' Hr He]; [|by eapply exec_mail].
    unfold scheduler_run in Hr. destruct (is_state _ _); [|done]. injection Hr as <-.
    assert (quiet (y_pt s) (upd i (set_state RUNNING) (y_pt s))) as Hq by (by apply quiet_upd).
    destruct IH as [Hf Hl Hk]. constructor; cbn [y_pt y_log y_kont]; intros j.
    + rewrite (flag_quiet _ _ _ Hq). apply Hf.
    + rewrite (waiting_quiet _ _ _ Hq). apply Hl.
    + by eapply kont_ok_quiet.
Qed.

(** C7: in every reachable state of the kernel, the messages delivered to a
    mailbox are, in order, exactly those that left it (received by its owner
    or erased with the process) followed by the one waiting in it: no message
    is overwritten, duplicated, reordered or made up, whatever the
    interleaving of senders, receivers, exits and forks. *)
Theorem mailbox_exactly_once n s i :
  reach n s -> delivered i (y_log s) = consumed i (y_log s) ++ waiting (procn (y_pt s) i).
Proof. intros Hr. apply (reach_mail n s Hr). Qed.
