(* ===== verification/ProcInv.v ===== *)
(** * ProcInv: identity, parenthood and blocked calls of processes

    Invariants of every reachable process table of Proc.v: pids name one
    process, every process that can still run or be reaped has a live parent,
    and a process asleep in a call has nothing to wake up for. *)
From S2P Require Import Prelude Ipc Proc ProcMail.

Definition used (p : proc) : Prop := p_state p ≠ UNUSED.
Definition live (p : proc) : Prop :=
  match p_state p with SLEEPING | RUNNABLE | RUNNING => True | _ => False end.

(** The slot a thread is in the middle of forking into. *)
Definition forking (k : kont) : option nat :=
  match k with KForkNew np | KForkReady np => Some np | _ => None end.

(** The thread is on its way through [exit]. *)
Definition exiting (k : kont) : bool :=
  match k with KExiting => true | KSend _ _ ex => ex | _ => false end.

(** [b] bounds the pids handed out so far. *)
Record pinv (b : Z) (t : ptable) (k : nat -> kont) : Prop := mkPinv {
  pv_next : 1 < pt_nextpid t <= b;
  pv_range : forall i, used (procn t i) -> 0 < p_pid (procn t i) < pt_nextpid t;
  pv_uniq : forall i j, used (procn t i) -> used (procn t j) ->
    p_pid (procn t i) = p_pid (procn t j) -> i = j;
  pv_fork : forall i np, forking (k i) = Some np -> p_state (procn t np) = EMBRYO;
  pv_fork_uniq : forall i j np, forking (k i) = Some np -> forking (k j) = Some np -> i = j;
  pv_kont : forall i, k i ≠ KUser -> live (procn t i);
  pv_init : live (procn t (pt_initproc t));
  pv_parent : forall i, live (procn t i) \/ p_state (procn t i) = ZOMBIE -> i ≠ pt_initproc t ->
    exists q, p_parent (procn t i) = Some q /\ live (procn t q);
  pv_noself : forall i, p_parent (procn t i) ≠ Some i;
  pv_root : p_parent (procn t (pt_initproc t)) = None;
  pv_exit : forall i, exiting (k i) = true -> i ≠ pt_initproc t;
}.

Lemma live_used p : live p -> used p.
Proof. unfold live, used. by destruct (p_state p). Qed.

Lemma live_in_table t i : used (procn t i) -> in_table t i.
Proof.
  unfold used, in_table, procn. intros Hu. destruct (decide (i < length (pt_proc t))%nat); [done|].
  by rewrite lookup_ge_None_2 in Hu by lia.
Qed.

(** What the invariant looks at; tables that agree on it. *)
Definition same_core (p p' : proc) : Prop :=
  p_pid p' = p_pid p /\ p_parent p' = p_parent p /\
  (p_state p' = p_state p \/ live p /\ live p').

Record similar (t t' : ptable) : Prop := mkSimilar {
  sim_proc : forall i, same_core (procn t i) (procn t' i);
  sim_init : pt_initproc t' = pt_initproc t;
  sim_next : pt_nextpid t' = pt_nextpid t;
}.

Lemma same_core_refl p : same_core p p.
Proof. split_and!; auto. Qed.

Lemma core_live p p' : same_core p p' -> (live p' <-> live p).
Proof. intros (_ & _ & [E|[H1 H2]]); [unfold live; by rewrite E|tauto]. Qed.
Lemma core_used p p' : same_core p p' -> (used p' <-> used p).
Proof. intros (_ & _ & [E|[H1%live_used H2%live_used]]); [unfold used; by rewrite E|tauto]. Qed.
Lemma core_state p p' x : same_core p p' -> x = EMBRYO \/ x = ZOMBIE \/ x = UNUSED ->
  (p_state p' = x <-> p_state p = x).
Proof.
  intros (_ & _ & [E|[H1 H2]]) Hx; [by rewrite E|]. unfold live in *.
  destruct Hx as [->|[->| ->]]; split; intros E; rewrite E in *; done.
Qed.

Lemma same_core_trans p1 p2 p3 : same_core p1 p2 -> same_core p2 p3 -> same_core p1 p3.
Proof.
  intros H1 H2. pose proof (core_live _ _ H1) as L1. pose proof (core_live _ _ H2) as L2.
  destruct H1 as (E1 & E2 & E3), H2 as (F1 & F2 & F3). split_and!; [congruence..|].
  destruct E3 as [E3|[? ?]], F3 as [F3|[? ?]]; [left; congruence|right; tauto..].
Qed.

Lemma similar_refl t : similar t t.
Proof. constructor; [intros; apply same_core_refl|done..]. Qed.
Lemma similar_trans t1 t2 t3 : similar t1 t2 -> similar t2 t3 -> similar t1 t3.
Proof.
  intros [P1 I1 N1] [P2 I2 N2]. constructor; [|congruence..].
  intros i. by eapply same_core_trans.
Qed.

Lemma similar_upd i f t : same_core (procn t i) (f (procn t i)) -> similar t (upd i f t).
Proof.
  intros Hf. constructor; [|done..]. intros j. rewrite procn_upd.
  case_decide as Hd; [destruct Hd as [-> _]; done|apply same_core_refl].
Qed.

Lemma similar_wakeup1 c t : similar t (wakeup1 c t).
Proof.
  constructor; [|done..]. intros j. rewrite procn_wakeup1. unfold woken.
  destruct (_ && _)%bool eqn:E; [|apply same_core_refl].
  apply andb_prop in E as [E%bool_decide_eq_true _]. split_and!; [done..|]. right.
  unfold live. by rewrite E.
Qed.

Lemma pinv_similar b t t' k : pinv b t k -> similar t t' -> pinv b t' k.
Proof.
  intros [H1 H2 H3 H4 H5 H6 H7 H8 H9 H10 H11] [S I N]. pose proof (fun i => core_live _ _ (S i)) as L.
  pose proof (fun i => core_used _ _ (S i)) as U.
  assert (P : forall i, p_pid (procn t' i) = p_pid (procn t i)) by (intros i; apply S).
  constructor; rewrite ?N, ?I.
  - done.
  - intros i. rewrite U, P. apply H2.
  - intros i j. rewrite !U, !P. apply H3.
  - intros i np Hf. apply (core_state _ _ EMBRYO (S np)); [tauto|]. by eapply H4.
  - done.
  - intros i. rewrite L. apply H6.
  - by rewrite L.
  - intros i. rewrite L, (core_state _ _ ZOMBIE (S i)) by tauto. intros Hi Hne.
    destruct (H8 i Hi Hne) as (q & E & Hq). exists q. rewrite L. split; [|done].
    rewrite <- E. apply (S i).
  - intros i. destruct (S i) as (_ & -> & _). apply H9.
  - destruct (S (pt_initproc t)) as (_ & -> & _). apply H10.
  - done.
Qed.

(** Moving a thread to another point. *)
Lemma pinv_kont b t k cur k' :
  pinv b t k -> (forall np, forking k' = Some np -> forking (k cur) = Some np) ->
  (k' ≠ KUser -> live (procn t cur)) -> (exiting k' = true -> cur ≠ pt_initproc t) ->
  pinv b t (set_kont cur k' k).
Proof.
  intros [H1 H2 H3 H4 H5 H6 H7 H8 H9 H10 H11] Hf Hl Hx.
  assert (G : forall i np, forking (set_kont cur k' k i) = Some np -> forking (k i) = Some np).
  { intros i np. unfold set_kont. case_decide as E; [rewrite E; apply Hf|done]. }
  constructor; try done.
  - intros i np ?%G. by eapply H4.
  - intros i j np ?%G ?%G. by eapply H5.
  - intros i. unfold set_kont. case_decide as E; [rewrite E; done|apply H6].
  - intros i. unfold set_kont. case_decide as E; [rewrite E; done|apply H11].
Qed.

Lemma pinv_next b b' t k : b <= b' -> pinv b t k -> pinv b' t k.
Proof. intros Hb []. constructor; try done. lia. Qed.

(** Taking a free slot for a new process. *)
Lemma pinv_alloc b t k cur np :
  pinv b t k -> b < 2 ^ 31 - 1 -> live (procn t cur) -> in_table t np -> p_state (procn t np) = UNUSED ->
  pinv (b + 1) (set_nextpid (s32 (pt_nextpid t + 1))
                  (upd np (fun p => set_pid (pt_nextpid t) (set_state EMBRYO p)) t))
       (set_kont cur (KForkNew np) k).
Proof.
  intros [H1 H2 H3 H4 H5 H6 H7 H8 H9 H10 H11] Hb Hcur Ht Hnp. set (t' := set_nextpid _ _).
  assert (Hlu : forall i, live (procn t i) -> i ≠ np).
  { intros i Hi ->. unfold live in Hi. by rewrite Hnp in Hi. }
  assert (Eq : procn t' np = set_pid (pt_nextpid t) (set_state EMBRYO (procn t np)))
    by (by apply procn_upd_eq).
  assert (Ne : forall i, i ≠ np -> procn t' i = procn t i) by (intros; by apply procn_upd_ne).
  assert (Nx : pt_nextpid t' = pt_nextpid t + 1) by (apply s32_id; unfold is_s32; lia).
  constructor; rewrite ?Nx; [lia|..].
  - intros i. destruct (decide (i = np)) as [->|Hi]; [rewrite Eq; cbn; lia|].
    rewrite Ne by done. intros ?%H2. lia.
  - intros i j. destruct (decide (i = np)) as [->|Hi], (decide (j = np)) as [->|Hj];
      rewrite ?Eq, ?Ne by done; cbn; [done|intros _ ?%H2; lia|intros ?%H2 _; lia|apply H3].
  - intros i p. unfold set_kont. case_decide; [intros [= <-]; by rewrite Eq|].
    intros Hf. pose proof (H4 i p Hf) as E. rewrite Ne; [done|]. intros ->. congruence.
  - intros i j p. unfold set_kont. repeat case_decide; [congruence|..]; cbn [forking].
    + intros [= <-] Hf. pose proof (H4 j np Hf). congruence.
    + intros Hf [= <-]. pose proof (H4 i np Hf). congruence.
    + apply H5.
  - intros i. unfold set_kont. case_decide as E; [intros _; rewrite E, Ne by auto; done|].
    intros Hi%H6. rewrite Ne by auto. done.
  - change (pt_initproc t') with (pt_initproc t). rewrite Ne by auto. done.
  - change (pt_initproc t') with (pt_initproc t). intros i. destruct (decide (i = np)) as [->|Hi].
    + rewrite Eq. intros [[]|[=]].
    + rewrite Ne by done. intros Hl Hne. destruct (H8 i Hl Hne) as (q & E & Hq). exists q.
      rewrite Ne by auto. done.
  - intros i. destruct (decide (i = np)) as [->|Hi]; [rewrite Eq|rewrite Ne by done]; apply H9.
  - change (pt_initproc t') with (pt_initproc t). rewrite Ne by auto. done.
  - intros i. unfold set_kont. case_decide; [done|apply H11].
Qed.

(** Ending a fork: the slot is given up, or becomes a child of the forker. *)
Lemma pinv_forked b t k cur np f :
  pinv b t k -> forking (k cur) = Some np -> live (procn t cur) ->
  p_pid (f (procn t np)) = p_pid (procn t np) ->
  p_parent (f (procn t np)) = p_parent (procn t np) \/ p_parent (f (procn t np)) = Some cur ->
  (p_state (f (procn t np)) = UNUSED \/
   p_state (f (procn t np)) = RUNNABLE /\ p_parent (f (procn t np)) = Some cur) ->
  pinv b (upd np f t) (set_kont cur KUser k).
Proof.
  intros [H1 H2 H3 H4 H5 H6 H7 H8 H9 H10 H11] Hf Hcur Hpid Hpar Hst.
  pose proof (H4 cur np Hf) as Hnp.
  assert (Hu : used (procn t np)) by (unfold used; by rewrite Hnp).
  assert (Hlu : forall i, live (procn t i) -> i ≠ np).
  { intros i Hi ->. unfold live in Hi. by rewrite Hnp in Hi. }
  assert (Eq : procn (upd np f t) np = f (procn t np)) by (by apply procn_upd_eq, live_in_table).
  assert (Ne : forall i, i ≠ np -> procn (upd np f t) i = procn t i) by (intros; by apply procn_upd_ne).
  constructor; [done|..].
  - intros i. destruct (decide (i = np)) as [->|Hi]; [rewrite Eq, Hpid; intros _; by apply H2|].
    rewrite Ne by done. apply H2.
  - intros i j. destruct (decide (i = np)) as [->|Hi], (decide (j = np)) as [->|Hj];
      rewrite ?Eq, ?Ne, ?Hpid by done; intros; [done|by apply H3..].
  - intros i p. unfold set_kont. case_decide as Ei; [done|]. intros Hp. rewrite Ne; [by eapply H4|].
    intros ->. by apply Ei, (H5 i cur np).
  - intros i j p. unfold set_kont. repeat case_decide; [done..|apply H5].
  - intros i. unfold set_kont. case_decide; [done|]. intros Hi%H6. rewrite Ne by auto. done.
  - change (pt_initproc (upd np f t)) with (pt_initproc t). rewrite Ne by auto. done.
  - change (pt_initproc (upd np f t)) with (pt_initproc t). intros i. destruct (decide (i = np)) as [->|Hi].
    + rewrite Eq. intros Hl _. destruct Hst as [E|[E Ep]]; [unfold live in Hl; rewrite E in Hl; naive_solver|].
      exists cur. by rewrite Ne by auto.
    + rewrite Ne by done. intros Hl Hne. destruct (H8 i Hl Hne) as (q & E & Hq). exists q.
      by rewrite Ne by auto.
  - intros i. destruct (decide (i = np)) as [->|Hi]; [rewrite Eq|rewrite Ne by done; apply H9].
    destruct Hpar as [->| ->]; [apply H9|]. intros [= ->]. by apply (Hlu np).
  - change (pt_initproc (upd np f t)) with (pt_initproc t). rewrite Ne by auto. done.
  - intros i. unfold set_kont. case_decide; [done|apply H11].
Qed.

(** Reaping a zombie: nobody's parent is a zombie. *)
Lemma pinv_reap b t k i :
  pinv b t k -> p_state (procn t i) = ZOMBIE -> pinv b (reap i t) k.
Proof.
  intros [H1 H2 H3 H4 H5 H6 H7 H8 H9 H10 H11] Hz.
  assert (Hlu : forall j, live (procn t j) -> j ≠ i).
  { intros j Hj ->. unfold live in Hj. by rewrite Hz in Hj. }
  assert (Hu : used (procn t i)) by (unfold used; by rewrite Hz).
  assert (Eq : p_state (procn (reap i t) i) = UNUSED)
    by (unfold reap; by rewrite procn_upd_eq by (by apply live_in_table)).
  assert (Ne : forall j, j ≠ i -> procn (reap i t) j = procn t j) by (intros; by apply procn_upd_ne).
  assert (Nu : ~ used (procn (reap i t) i)) by (unfold used; rewrite Eq; tauto).
  constructor; [done|..].
  - intros j. destruct (decide (j = i)) as [->|Hj]; [done|]. rewrite Ne by done. apply H2.
  - intros j j'. destruct (decide (j = i)) as [->|Hj], (decide (j' = i)) as [->|Hj']; try done.
    rewrite !Ne by done. apply H3.
  - intros j np Hf. pose proof (H4 j np Hf) as E. rewrite Ne; [done|]. intros ->. congruence.
  - done.
  - intros j Hj%H6. rewrite Ne by auto. done.
  - change (pt_initproc (reap i t)) with (pt_initproc t). rewrite Ne by auto. done.
  - change (pt_initproc (reap i t)) with (pt_initproc t). intros j. destruct (decide (j = i)) as [->|Hj].
    + unfold live. rewrite Eq. naive_solver.
    + rewrite Ne by done. intros Hl Hne. destruct (H8 j Hl Hne) as (q & E & Hq). exists q.
      by rewrite Ne by auto.
  - intros j. destruct (decide (j = i)) as [->|Hj]; [|rewrite Ne by done; apply H9].
    unfold reap. by rewrite procn_upd_eq by (by apply live_in_table).
  - change (pt_initproc (reap i t)) with (pt_initproc t). rewrite Ne by auto. done.
  - done.
Qed.

(** [reparent] hands the children of [cur] to init and changes nothing else
    but waking processes up. *)
Lemma reparent1_parent cur t i :
  in_table t i ->
  pt_initproc (reparent1 cur t i) = pt_initproc t /\
  length (pt_proc (reparent1 cur t i)) = length (pt_proc t) /\
  forall j, p_parent (procn (reparent1 cur t i) j) =
    if decide (j = i /\ p_parent (procn t j) = Some cur) then Some (pt_initproc t)
    else p_parent (procn t j).
Proof.
  intros Hi. unfold reparent1. case_bool_decide as E.
  2: { split; [done|]. split; [done|]. intros j. by rewrite decide_False by naive_solver. }
  set (t1 := upd i _ t). assert (Hp : forall j, p_parent (procn t1 j) =
    if decide (j = i /\ p_parent (procn t j) = Some cur) then Some (pt_initproc t)
    else p_parent (procn t j)).
  { intros j. unfold t1. rewrite procn_upd. destruct (decide (j = i)) as [->|].
    - by rewrite !decide_True by done.
    - by rewrite !decide_False by tauto. }
  destruct (is_state _ _); (split; [done|]); (split; [rewrite ?length_wakeup1; apply length_upd|]);
    intros j; rewrite ?field_wakeup1 by done; apply Hp.
Qed.

Lemma reparent_fold_parent cur l : forall t,
  (forall j, j ∈ l -> in_table t j) ->
  pt_initproc (foldl (reparent1 cur) t l) = pt_initproc t /\
  forall j, p_parent (procn (foldl (reparent1 cur) t l) j) =
    if decide (j ∈ l /\ p_parent (procn t j) = Some cur) then Some (pt_initproc t)
    else p_parent (procn t j).
Proof.
  induction l as [|i l IH]; intros t Hl; cbn [foldl].
  { split; [done|]. intros j. by rewrite decide_False by set_solver. }
  destruct (reparent1_parent cur t i) as (Hi1 & Hl1 & Hp1); [apply Hl; set_solver|].
  destruct (IH (reparent1 cur t i)) as [IH1 IH2].
  { intros j Hj. unfold in_table. rewrite Hl1. apply Hl. set_solver. }
  split; [by rewrite IH1|]. intros j. rewrite IH2, Hp1, Hi1.
  repeat case_decide; try done; try congruence; set_solver.
Qed.

Lemma reparent_parent cur t j :
  p_parent (procn (reparent cur t) j) =
    if decide (p_parent (procn t j) = Some cur) then Some (pt_initproc t) else p_parent (procn t j).
Proof.
  destruct (reparent_fold_parent cur (seq 0 (length (pt_proc t))) t) as [_ G].
  { intros i Hi%elem_of_seq. unfold in_table. lia. }
  unfold reparent. rewrite G. destruct (decide (j < length (pt_proc t))%nat).
  - case_decide; case_decide; try done; rewrite elem_of_seq in *; naive_solver lia.
  - rewrite decide_False by (rewrite elem_of_seq; lia).
    assert (procn t j = zero_proc) as -> by (unfold procn; by rewrite lookup_ge_None_2 by lia). done.
Qed.

Lemma reparent_init cur t :
  pt_initproc (reparent cur t) = pt_initproc t /\ pt_nextpid (reparent cur t) = pt_nextpid t.
Proof.
  unfold reparent. generalize (seq 0 (length (pt_proc t))). intros l. revert t.
  induction l as [|i l IH]; intros t; [done|]. cbn [foldl]. destruct (IH (reparent1 cur t i)) as [-> ->].
  unfold reparent1. case_bool_decide; [|done]. by destruct (is_state _ _).
Qed.

(** The state of a process, up to waking up. *)
Definition same_state (p p' : proc) : Prop := p_state p' = p_state p \/ live p /\ live p'.

Lemma same_state_trans p1 p2 p3 : same_state p1 p2 -> same_state p2 p3 -> same_state p1 p3.
Proof. unfold same_state, live. intros [E|[? ?]] [F|[? ?]]; rewrite ?F, <- ?E; auto; rewrite ?E; auto. Qed.

Lemma woken_state c p : same_state p (woken c p).
Proof.
  unfold woken. destruct (_ && _)%bool eqn:E; [|by left].
  apply andb_prop in E as [E%bool_decide_eq_true _]. right. unfold live. by rewrite E.
Qed.

Lemma reparent_state cur t j : same_state (procn t j) (procn (reparent cur t) j).
Proof.
  unfold reparent. generalize (seq 0 (length (pt_proc t))). intros l. revert t.
  induction l as [|i l IH]; intros t; [by left|]. cbn [foldl].
  eapply same_state_trans; [|apply IH]. unfold reparent1. case_bool_decide; [|by left].
  assert (Hu : same_state (procn t j) (procn (upd i (set_parent (Some (pt_initproc t))) t) j)).
  { left. by apply field_upd. }
  destruct (is_state _ _); [|done]. eapply same_state_trans; [done|]. rewrite procn_wakeup1. apply woken_state.
Qed.

(** The table after the last section of [exit]. *)
Lemma exit_finish_spec cur t i :
  in_table t cur ->
  let p := procn t i in let p' := procn (exit_finish cur t) i in
  p_pid p' = p_pid p /\
  p_parent p' = (if decide (p_parent p = Some cur) then Some (pt_initproc t) else p_parent p) /\
  (if decide (i = cur) then p_state p' = ZOMBIE else same_state p p').
Proof.
  intros Hc p p'. unfold exit_finish in p'.
  set (t0 := if pt_fsserver_pid t =? p_pid (procn t cur) then set_fsserver (-1) t else t) in p'.
  assert (E0 : forall j, procn t0 j = procn t j) by (intros; unfold t0; by destruct (_ =? _)).
  assert (I0 : pt_initproc t0 = pt_initproc t) by (unfold t0; by destruct (_ =? _)).
  set (t1 := wakeup1 (ChMsg cur) (upd cur (set_mail zero_msg 0) t0)) in p'.
  set (t2 := match p_parent (procn t1 cur) with Some q => wakeup1 (ChProc q) t1 | None => t1 end) in p'.
  assert (S1 : same_state p (procn t1 i)).
  { unfold t1. rewrite procn_wakeup1. eapply same_state_trans; [|apply woken_state]. left.
    rewrite field_upd by done. by rewrite E0. }
  assert (S2 : same_state p (procn t2 i)).
  { eapply same_state_trans; [done|]. unfold t2. destruct (p_parent _); [|by left].
    rewrite procn_wakeup1. apply woken_state. }
  assert (F2 : p_pid (procn t2 i) = p_pid p /\ p_parent (procn t2 i) = p_parent p).
  { assert (F1 : p_pid (procn t1 i) = p_pid p /\ p_parent (procn t1 i) = p_parent p).
    { unfold t1. by split; rewrite field_wakeup1, field_upd, E0 by done. }
    unfold t2. destruct (p_parent (procn t1 cur)); [|done]. by rewrite !field_wakeup1 by done. }
  assert (I2 : pt_initproc t2 = pt_initproc t)
    by (unfold t2; destruct (p_parent (procn t1 cur)); by rewrite <- I0).
  assert (Hc3 : in_table (reparent cur t2) cur).
  { assert (L1 : length (pt_proc t1) = length (pt_proc t)).
    { unfold t1, t0. rewrite length_wakeup1, length_upd. by destruct (_ =? _). }
    unfold in_table. rewrite length_reparent. unfold t2.
    destruct (p_parent (procn t1 cur)); rewrite ?length_wakeup1, L1; done. }
  split_and!.
  - unfold p'. rewrite field_upd by done. rewrite field_reparent by done. apply F2.
  - unfold p'. rewrite field_upd by done. by rewrite reparent_parent, I2, (proj2 F2).
  - unfold p'. rewrite procn_upd. destruct (decide (i = cur)) as [->|]; [by rewrite decide_True|].
    rewrite decide_False by tauto. eapply same_state_trans; [done|apply reparent_state].
Qed.

Lemma exit_finish_init cur t :
  pt_initproc (exit_finish cur t) = pt_initproc t /\ pt_nextpid (exit_finish cur t) = pt_nextpid t.
Proof.
  unfold exit_finish. set (t0 := if _ =? _ then set_fsserver (-1) t else t).
  set (t1 := wakeup1 (ChMsg cur) (upd cur (set_mail zero_msg 0) t0)).
  set (t2 := match p_parent (procn t1 cur) with Some q => wakeup1 (ChProc q) t1 | None => t1 end).
  change (pt_initproc (upd cur (set_state ZOMBIE) (reparent cur t2))) with (pt_initproc (reparent cur t2)).
  change (pt_nextpid (upd cur (set_state ZOMBIE) (reparent cur t2))) with (pt_nextpid (reparent cur t2)).
  destruct (reparent_init cur t2) as [-> ->]. unfold t2. destruct (p_parent _); unfold t1, t0; by destruct (_ =? _).
Qed.

Lemma pinv_exit b t k cur :
  pinv b t k -> live (procn t cur) -> cur ≠ pt_initproc t -> forking (k cur) = None ->
  pinv b (exit_finish cur t) (set_kont cur KUser k).
Proof.
  intros [H1 H2 H3 H4 H5 H6 H7 H8 H9 H10 H11] Hl Hne Hf. pose proof (live_in_table t cur (live_used _ Hl)) as Hc.
  pose proof (fun i => exit_finish_spec cur t i Hc) as S. cbv zeta in S.
  destruct (exit_finish_init cur t) as [EI EN].
  assert (U : forall i, used (procn (exit_finish cur t) i) -> used (procn t i)).
  { intros i Hu. destruct (S i) as (_ & _ & Hs). destruct (decide (i = cur)) as [->|]; [by apply live_used|].
    destruct Hs as [E|[? ?]]; [unfold used in *; by rewrite E in Hu|by apply live_used]. }
  assert (L : forall i, i ≠ cur -> (live (procn (exit_finish cur t) i) <-> live (procn t i))).
  { intros i Hi. destruct (S i) as (_ & _ & Hs). rewrite decide_False in Hs by done.
    destruct Hs as [E|[? ?]]; [unfold live; by rewrite E|done]. }
  assert (P : forall i, p_pid (procn (exit_finish cur t) i) = p_pid (procn t i)) by (intros i; apply S).
  constructor; rewrite ?EI, ?EN.
  - done.
  - intros i Hu%U. rewrite P. by apply H2.
  - intros i j Hi%U Hj%U. rewrite !P. by apply H3.
  - intros i np. unfold set_kont. case_decide; [done|]. intros Hk. pose proof (H4 i np Hk) as E.
    destruct (S np) as (_ & _ & Hs). destruct (decide (np = cur)) as [->|].
    { unfold live in Hl. by rewrite E in Hl. }
    destruct Hs as [E'|[Hx _]]; [congruence|unfold live in Hx; by rewrite E in Hx].
  - intros i j np. unfold set_kont. repeat case_decide; try done. apply H5.
  - intros i. unfold set_kont. case_decide; [done|]. intros Hk. apply L; [done|by apply H6].
  - by apply L.
  - intros i Hi Hn. destruct (S i) as (_ & Ep & Hs). rewrite Ep.
    assert (Hold : live (procn t i) \/ p_state (procn t i) = ZOMBIE).
    { destruct (decide (i = cur)) as [->|]; [by left|].
      destruct Hi as [Hi|Hi]; [left; by apply L|]. destruct Hs as [E|[? Hx]]; [right; congruence|].
      unfold live in Hx. by rewrite Hi in Hx. }
    destruct (H8 i Hold Hn) as (q & E & Hq). destruct (decide (p_parent (procn t i) = Some cur)) as [Ed|Ed].
    + exists (pt_initproc t). split; [done|]. apply L; [congruence|done].
    + exists q. split; [done|]. apply L; [congruence|done].
  - intros i. destruct (S i) as (_ & -> & _). case_decide as Ed; [|apply H9].
    intros [= E]. rewrite <- E, H10 in Ed. done.
  - destruct (S (pt_initproc t)) as (_ & -> & _). by rewrite H10, decide_False.
  - intros i. unfold set_kont. case_decide; [done|apply H11].
Qed.

(** ** Blocked calls *)

(** A process asleep in a call of this file sleeps on the channel of that
    call, has not been killed, and what it waits for has not happened: its
    mailbox is empty, or it has no zombie child. *)
Definition blocked1 (t : ptable) (k : kont) (i : nat) : Prop :=
  let p := procn t i in
  p_state p = SLEEPING ->
  match k with
  | KRecv => p_chan p = Some (ChProc i) /\ p_killed p = 0 /\ p_has_msg p = 0
  | KWait => p_chan p = Some (ChProc i) /\ p_killed p = 0 /\
             forall j, p_parent (procn t j) = Some i -> p_state (procn t j) ≠ ZOMBIE
  | KSend tgt _ _ => p_chan p = Some (ChMsg tgt) /\ p_killed p = 0
  | _ => True
  end.
Definition blocked (t : ptable) (k : nat -> kont) : Prop := forall i, blocked1 t (k i) i.

(** A change of the table that leaves the sleepers other than [cur] alone,
    or wakes them up. *)
Record calm (cur : nat) (t t' : ptable) : Prop := mkCalm {
  cm_self : forall i, i ≠ cur -> p_state (procn t' i) = SLEEPING ->
    p_state (procn t i) = SLEEPING /\ p_chan (procn t' i) = p_chan (procn t i) /\
    p_killed (procn t' i) = p_killed (procn t i) /\
    (p_has_msg (procn t' i) = p_has_msg (procn t i) \/ p_chan (procn t i) ≠ Some (ChProc i));
  cm_child : forall i j, i ≠ cur -> p_state (procn t' i) = SLEEPING -> p_chan (procn t' i) = Some (ChProc i) ->
    p_parent (procn t' j) = Some i -> p_state (procn t' j) = ZOMBIE ->
    p_parent (procn t j) = Some i /\ p_state (procn t j) = ZOMBIE;
}.

Lemma calm_refl cur t : calm cur t t.
Proof. constructor; auto. Qed.

Lemma calm_trans cur t1 t2 t3 : calm cur t1 t2 -> calm cur t2 t3 -> calm cur t1 t3.
Proof.
  intros [S1 C1] [S2 C2]. constructor.
  - intros i Hi H3. destruct (S2 i Hi H3) as (H2 & E1 & E2 & E3).
    destruct (S1 i Hi H2) as (H1 & F1 & F2 & F3). split; [done|]. split; [congruence|]. split; [congruence|].
    destruct E3 as [E3|E3]; [|right; congruence]. destruct F3 as [F3|F3]; [left; congruence|by right].
  - intros i j Hi H3 Hc Hp Hz. destruct (S2 i Hi H3) as (H2 & E1 & _).
    destruct (C2 i j Hi H3 Hc Hp Hz). apply C1; congruence.
Qed.

Lemma blocked_calm cur t t' k k' :
  blocked t k -> calm cur t t' -> blocked1 t' k' cur -> blocked t' (set_kont cur k' k).
Proof.
  intros Hb [Hs Hc] Hcur i. unfold set_kont. case_decide as Ei; [by rewrite Ei|].
  intros Hi. destruct (Hs i Ei Hi) as (H1 & E1 & E2 & E3). specialize (Hb i H1).
  destruct (k i); try done.
  - rewrite E1, E2. done.
  - destruct Hb as (B1 & B2 & B3). rewrite E1, E2. split_and!; [done..|].
    destruct E3 as [E3|]; [congruence|done].
  - destruct Hb as (B1 & B2 & B3). rewrite E1, E2. split_and!; [done..|].
    intros j Hj Hz. destruct (Hc i j) as [P Z]; [done|done|congruence|done|done|]. by apply (B3 j).
Qed.

Lemma calm_wakeup1 cur c t : calm cur t (wakeup1 c t).
Proof.
  constructor.
  - intros i _. rewrite procn_wakeup1. unfold woken. destruct (_ && _)%bool; [done|]. auto.
  - intros i j _ _ _. rewrite !procn_wakeup1. unfold woken. by destruct (_ && _)%bool.
Qed.

(** The running process changes its own entry, not becoming a zombie. *)
Lemma calm_upd cur t f :
  p_parent (f (procn t cur)) = p_parent (procn t cur) -> p_state (f (procn t cur)) ≠ ZOMBIE ->
  calm cur t (upd cur f t).
Proof.
  intros Ep Ez. constructor.
  - intros i Hi. rewrite procn_upd_ne by done. auto.
  - intros i j _ _ _. rewrite (field_upd p_parent) by done. rewrite procn_upd. by case_decide.
Qed.

(** Another slot that is not asleep before or after. *)
Lemma calm_upd_other cur t j f :
  p_state (f (procn t j)) ≠ SLEEPING -> p_state (f (procn t j)) ≠ ZOMBIE -> calm cur t (upd j f t).
Proof.
  intros Es Ez. constructor.
  - intros i Hi. rewrite procn_upd. case_decide as E; [destruct E as [-> _]; done|]. auto.
  - intros i x _ _ _. rewrite procn_upd. case_decide; [done|]. done.
Qed.

(** Delivering a message and waking its receiver. *)
Lemma calm_deliver cur t tgt m :
  calm cur t (wakeup1 (ChProc tgt) (upd tgt (set_mail m 1) t)).
Proof.
  constructor.
  - intros i _. rewrite procn_wakeup1, procn_upd. unfold woken. case_decide as E.
    + destruct E as [-> _]. destruct (_ && _)%bool eqn:Ew; [done|]. cbn. intros Hs.
      split_and!; [done..|]. right. intros Hc. unfold is_state in Ew. cbn in Ew.
      by rewrite !bool_decide_true in Ew.
    + destruct (_ && _)%bool; [done|]. auto.
  - intros i j _ _ _. rewrite (field_wakeup1 p_parent), (field_upd p_parent) by done.
    rewrite procn_wakeup1, procn_upd. unfold woken.
    case_decide as E; [destruct E as [-> _]|]; by destruct (_ && _)%bool.
Qed.

(** [reparent] wakes init if it gets a zombie. *)
Lemma sleeping_woken c p : p_state (woken c p) = SLEEPING -> p_state p = SLEEPING /\ woken c p = p /\ p_chan p ≠ Some c.
Proof.
  unfold woken. destruct (_ && _)%bool eqn:E; [done|]. intros Hs. split_and!; [done..|].
  intros Hc. unfold is_state in E. by rewrite !bool_decide_true in E.
Qed.

Lemma calm_reparent1 cur c t i :
  in_table t i -> calm c t (reparent1 cur t i).
Proof.
  intros Hi. unfold reparent1. case_bool_decide as Ep; [|apply calm_refl].
  set (t1 := upd i (set_parent (Some (pt_initproc t))) t).
  assert (F : forall j, p_state (procn t1 j) = p_state (procn t j) /\ p_chan (procn t1 j) = p_chan (procn t j) /\
    p_killed (procn t1 j) = p_killed (procn t j) /\ p_has_msg (procn t1 j) = p_has_msg (procn t j)).
  { intros j. unfold t1. by rewrite !field_upd by done. }
  assert (Hpar : forall j, j ≠ i -> procn t1 j = procn t j) by (intros; by apply procn_upd_ne).
  assert (Hpi : p_parent (procn t1 i) = Some (pt_initproc t)) by (unfold t1; by rewrite procn_upd_eq).
  destruct (is_state ZOMBIE (procn t1 i)) eqn:Ez.
  - constructor.
    + intros j _ Hs. rewrite procn_wakeup1 in Hs |- *. destruct (sleeping_woken _ _ Hs) as (Hs1 & -> & _).
      destruct (F j) as (E1 & E2 & E3 & E4). rewrite E2, E3, E4, <- E1. auto.
    + intros j x _ Hs Hc. rewrite procn_wakeup1 in Hs, Hc.
      destruct (sleeping_woken _ _ Hs) as (Hs1 & Ew & Hne). rewrite Ew in Hc.
      rewrite (field_wakeup1 p_parent) by done. destruct (decide (x = i)) as [->|Hx].
      { rewrite Hpi. intros [= <-]. done. }
      rewrite procn_wakeup1, Hpar by done. intros Hp Hz. split; [done|].
      destruct (woken_state (ChProc (pt_initproc t1)) (procn t x)) as [E|[_ Hl]]; [congruence|].
      unfold live in Hl. by rewrite Hz in Hl.
  - constructor.
    + intros j _ Hs. destruct (F j) as (E1 & E2 & E3 & E4). rewrite E2, E3, E4, <- E1. auto.
    + intros j x _ _ _. destruct (decide (x = i)) as [->|Hx]; [|by rewrite Hpar].
      intros _ Hz. unfold is_state in Ez. by rewrite bool_decide_true in Ez.
Qed.

Lemma calm_reparent cur c t : calm c t (reparent cur t).
Proof.
  unfold reparent. assert (Hl : forall j, j ∈ seq 0 (length (pt_proc t)) -> in_table t j)
    by (intros j Hj%elem_of_seq; unfold in_table; lia).
  revert Hl. generalize (seq 0 (length (pt_proc t))). intros l. revert t.
  induction l as [|i l IH]; intros t Hl; cbn [foldl]; [apply calm_refl|].
  assert (Hi : in_table t i) by (apply Hl; set_solver).
  eapply calm_trans; [by apply calm_reparent1|]. apply IH. intros j Hj.
  unfold in_table. rewrite (proj1 (proj2 (reparent1_parent cur t i Hi))). apply Hl. set_solver.
Qed.

Lemma calm_sleeping cur t t' i :
  calm cur t t' -> i ≠ cur -> p_state (procn t' i) = SLEEPING ->
  p_state (procn t i) = SLEEPING /\ p_chan (procn t' i) = p_chan (procn t i).
Proof. intros [H _] Hi Hs. destruct (H i Hi Hs) as (? & ? & _). done. Qed.

(** [exit] wakes the parent before becoming a zombie. *)
Lemma calm_exit cur t :
  live (procn t cur) -> p_parent (procn t cur) ≠ Some cur -> calm cur t (exit_finish cur t).
Proof.
  intros Hl Hns. unfold exit_finish.
  set (t0 := if _ =? _ then set_fsserver (-1) t else t).
  assert (C0 : calm cur t t0) by (unfold t0; destruct (_ =? _); [by constructor; auto|apply calm_refl]).
  assert (P0 : procn t0 cur = procn t cur) by (unfold t0; by destruct (_ =? _)).
  set (t1 := wakeup1 (ChMsg cur) (upd cur (set_mail zero_msg 0) t0)).
  assert (C1 : calm cur t t1).
  { eapply calm_trans; [done|]. eapply calm_trans; [|apply calm_wakeup1]. apply calm_upd; [done|].
    cbn. rewrite P0. unfold live in Hl. by destruct (p_state (procn t cur)). }
  assert (P1 : p_parent (procn t1 cur) = p_parent (procn t cur)).
  { unfold t1. rewrite field_wakeup1, field_upd by done. by rewrite P0. }
  rewrite P1. set (t2 := match p_parent (procn t cur) with Some q => wakeup1 (ChProc q) t1 | None => t1 end).
  assert (C2 : calm cur t1 t2) by (unfold t2; destruct (p_parent _); [apply calm_wakeup1|apply calm_refl]).
  assert (P2 : p_parent (procn t2 cur) = p_parent (procn t cur)).
  { unfold t2. destruct (p_parent (procn t cur)) eqn:E; [|by rewrite P1].
    rewrite field_wakeup1 by done. by rewrite P1. }
  pose proof (calm_reparent cur cur t2) as C3.
  assert (C : calm cur t (reparent cur t2)) by (by eapply calm_trans; [|eapply calm_trans]).
  constructor.
  - intros i Hi. rewrite procn_upd_ne by done. by apply C.
  - intros i j Hi. rewrite procn_upd_ne by done. intros Hs Hc. rewrite (field_upd p_parent) by done.
    destruct (decide (j = cur)) as [->|Hj]; [|rewrite procn_upd_ne by done; by apply C].
    rewrite reparent_parent, P2, decide_False by done. intros Hp. exfalso.
    destruct (calm_sleeping _ _ _ i C3 Hi Hs) as [Hs2 Hc2].
    assert (Ht2 : procn t2 i = woken (ChProc i) (procn t1 i)) by (unfold t2; by rewrite Hp, procn_wakeup1).
    rewrite Ht2 in Hs2, Hc2.
    destruct (sleeping_woken _ _ Hs2) as (_ & Ew & Hne). rewrite Ew in Hc2. congruence.
Qed.

Lemma calm_reap cur t i :
  p_state (procn t i) ≠ SLEEPING -> calm cur t (reap i t).
Proof. intros Hs. by apply calm_upd_other. Qed.

(** [kill] wakes its victim. *)
Lemma calm_kill cur pid t : calm cur t (kill pid t).2.
Proof.
  unfold kill. destruct (find_slot _ _) as [i|]; [|apply calm_refl]. cbn [snd]. constructor.
  - intros j _. rewrite procn_upd. case_decide as E; [destruct E as [-> _]|auto].
    destruct (is_state SLEEPING _) eqn:Es; [done|]. unfold is_state in Es. cbn in *.
    intros E. by rewrite bool_decide_true in Es.
  - intros j x _ _ _. rewrite procn_upd. case_decide as E; [destruct E as [-> _]|done].
    by destruct (is_state SLEEPING _).
Qed.

(** ** Each step keeps both invariants *)

Definition ok (b : Z) (s : sys) : Prop := pinv b (y_pt s) (y_kont s) /\ blocked (y_pt s) (y_kont s).

Definition running (t : ptable) (i : nat) : Prop := p_state (procn t i) = RUNNING.

Lemma running_live t i : running t i -> live (procn t i).
Proof. unfold running, live. by intros ->. Qed.

Lemma blocked1_awake t k i : p_state (procn t i) ≠ SLEEPING -> blocked1 t k i.
Proof. by intros H ?. Qed.

Lemma ok_move b s cur t' k' l :
  ok b s -> live (procn (y_pt s) cur) -> similar (y_pt s) t' -> calm cur (y_pt s) t' ->
  (forall np, forking k' = Some np -> forking (y_kont s cur) = Some np) ->
  (exiting k' = true -> cur ≠ pt_initproc (y_pt s)) -> blocked1 t' k' cur ->
  ok b (mkSys t' (set_kont cur k' (y_kont s)) l).
Proof.
  intros [Hp Hb] Hl Hsim Hc Hf Hx Hb1. split; cbn [y_pt y_kont]; [|by eapply blocked_calm].
  apply pinv_kont; [by eapply pinv_similar|done| |by rewrite (sim_init _ _ Hsim)].
  intros _. by apply (core_live _ _ (sim_proc _ _ Hsim cur)).
Qed.

(** Updates of the running process that keep it alive. *)
Lemma similar_running cur t f :
  running t cur -> p_pid (f (procn t cur)) = p_pid (procn t cur) ->
  p_parent (f (procn t cur)) = p_parent (procn t cur) -> live (f (procn t cur)) -> similar t (upd cur f t).
Proof. intros Hr%running_live E1 E2 Hl. apply similar_upd. split_and!; auto. Qed.

Lemma sleep_move cur c t :
  running t cur -> similar t (sleep cur c t) /\ calm cur t (sleep cur c t).
Proof. intros Hr. split; [by apply similar_running|by apply calm_upd]. Qed.

Lemma sleep_return_move cur t :
  running t cur ->
  similar t (sleep_return cur t) /\ calm cur t (sleep_return cur t) /\ running (sleep_return cur t) cur.
Proof.
  intros Hr. assert (Ht : in_table t cur) by (apply live_in_table, live_used, running_live, Hr).
  split; [apply similar_upd; split_and!; auto|]. split; [apply calm_upd; [done|]; cbn; by rewrite Hr|].
  unfold running, sleep_return. by rewrite procn_upd_eq.
Qed.

Lemma procn_sleep cur c t :
  in_table t cur -> procn (sleep cur c t) cur = set_state SLEEPING (set_chan (Some c) (procn t cur)).
Proof. apply procn_upd_eq. Qed.

Lemma is_state_true x p : is_state x p = true <-> p_state p = x.
Proof. apply bool_decide_eq_true. Qed.

Lemma send_loop_ok b s cur tgt m ex t1 :
  (ex = true -> cur ≠ pt_initproc (y_pt s)) -> ok b s -> live (procn (y_pt s) cur) -> similar (y_pt s) t1 -> calm cur (y_pt s) t1 -> running t1 cur ->
  let '(r, t') := send_loop cur tgt m t1 in ok b (after_send s cur ex r (Some (tgt, m)) t').
Proof.
  intros Hex Hok Hl Hs Hc Hr. assert (Hna : p_state (procn t1 cur) ≠ SLEEPING) by (by rewrite Hr).
  assert (Ht : in_table t1 cur) by (apply live_in_table, live_used, running_live, Hr).
  unfold send_loop. destruct (_ =? 1).
  - destruct (_ || _ || _ || _)%bool eqn:E; cbn [after_send].
    + apply ok_move; try done; [by destruct ex|by destruct ex; auto|by apply blocked1_awake].
    + destruct (sleep_move cur (ChMsg tgt) t1 Hr) as [S2 C2].
      apply ok_move; try done; [by eapply similar_trans|by eapply calm_trans|].
      intros _. rewrite procn_sleep by done. cbn. split; [done|].
      apply orb_false_iff in E as [[[E _]%orb_false_iff _]%orb_false_iff _].
      apply negb_false_iff, Z.eqb_eq in E. done.
  - cbn [after_send]. apply ok_move; try done.
    + eapply similar_trans; [done|]. eapply similar_trans; [|apply similar_wakeup1].
      apply similar_upd. split_and!; auto.
    + eapply calm_trans; [done|apply calm_deliver].
    + by destruct ex.
    + by destruct ex; auto.
    + apply blocked1_awake. rewrite procn_wakeup1. intros [Hx _]%sleeping_woken. apply Hna.
      rewrite procn_upd in Hx. case_decide as E; [destruct E as [<- _]|]; done.
Qed.

Lemma ipc_send_ok b s cur pid msg ex :
  (ex = true -> cur ≠ pt_initproc (y_pt s)) -> ok b s -> running (y_pt s) cur ->
  let '(r, w, t') := ipc_send_msg cur pid msg (y_pt s) in ok b (after_send s cur ex r w t').
Proof.
  intros Hex Hok Hr. unfold ipc_send_msg. pose proof (running_live _ _ Hr) as Hl.
  assert (Href : ok b (after_send s cur ex (Some (-1)) None (y_pt s))).
  { apply ok_move; [done|done|apply similar_refl|apply calm_refl|by destruct ex|by destruct ex; auto|].
    apply blocked1_awake. by rewrite Hr. }
  destruct (negb _); [done|]. destruct (find_slot _ _) as [tgt|]; [|done].
  destruct (_ || _ || _ || _)%bool; [done|].
  pose proof (send_loop_ok b s cur tgt (set_sender (p_pid (procn (y_pt s) cur)) msg) ex (y_pt s) Hex Hok Hl
                (similar_refl _) (calm_refl _ _) Hr) as Hs.
  by destruct (send_loop _ _ _ _).
Qed.

Lemma recv_loop_ok b s cur t1 :
  ok b s -> live (procn (y_pt s) cur) -> similar (y_pt s) t1 -> calm cur (y_pt s) t1 -> running t1 cur ->
  let '(r, t') := recv_loop cur t1 in ok b (after_recv s cur r t').
Proof.
  intros Hok Hl Hs Hc Hr. assert (Hna : p_state (procn t1 cur) ≠ SLEEPING) by (by rewrite Hr).
  assert (Ht : in_table t1 cur) by (apply live_in_table, live_used, running_live, Hr).
  unfold recv_loop. destruct (Z.eqb_spec (p_has_msg (procn t1 cur)) 0) as [E0|E0].
  - destruct (negb _) eqn:E; cbn [after_recv].
    + apply ok_move; try done.
    + destruct (sleep_move cur (ChProc cur) t1 Hr) as [S2 C2].
      apply ok_move; try done; [by eapply similar_trans|by eapply calm_trans|].
      intros _. rewrite procn_sleep by done. cbn. apply negb_false_iff, Z.eqb_eq in E. done.
  - cbn [after_recv]. apply ok_move; try done.
    + eapply similar_trans; [done|]. eapply similar_trans; [|apply similar_wakeup1].
      apply similar_upd. split_and!; auto.
    + eapply calm_trans; [done|]. eapply calm_trans; [|apply calm_wakeup1]. apply calm_upd; [done|].
      cbn. by rewrite Hr.
Qed.

Lemma wait_loop_ok b s cur t1 :
  ok b s -> live (procn (y_pt s) cur) -> similar (y_pt s) t1 -> calm cur (y_pt s) t1 -> running t1 cur ->
  let '(r, t') := wait_loop cur t1 in ok b (after_wait s cur r t').
Proof.
  intros Hok Hl Hs Hc Hr. assert (Hna : p_state (procn t1 cur) ≠ SLEEPING) by (by rewrite Hr).
  assert (Ht : in_table t1 cur) by (apply live_in_table, live_used, running_live, Hr).
  unfold wait_loop. destruct (find_slot _ _) as [i|] eqn:E.
  - apply find_slot_spec in E as [_ [_ Hz%is_state_true]%andb_prop]. cbn [after_wait].
    destruct Hok as [Hp Hb]. split; cbn [y_pt y_kont].
    + apply pinv_kont; [|done..]. apply pinv_reap; [|done]. by eapply pinv_similar.
    + eapply blocked_calm; [done| |done]. eapply calm_trans; [done|]. apply calm_reap. by rewrite Hz.
  - destruct (_ || _)%bool eqn:E2; cbn [after_wait]; [by apply ok_move|].
    destruct (sleep_move cur (ChProc cur) t1 Hr) as [S2 C2].
    apply ok_move; try done; [by eapply similar_trans|by eapply calm_trans|].
    apply orb_false_iff in E2 as [_ E2]. apply negb_false_iff, Z.eqb_eq in E2.
    intros _. rewrite procn_sleep by done. cbn. split_and!; [done..|].
    intros j Hj Hz. unfold sleep in Hj, Hz. rewrite (field_upd p_parent) in Hj by done.
    rewrite procn_upd in Hz. case_decide as Ed; [done|].
    assert (Htj : in_table t1 j) by (apply live_in_table; unfold used; by rewrite Hz).
    pose proof (find_slot_none _ _ j E Htj) as Hn. cbv beta in Hn.
    by rewrite bool_decide_true, (proj2 (is_state_true _ _) Hz) in Hn.
Qed.

Lemma ok_keep b s cur t' k l :
  ok b s -> y_kont s cur = k -> live (procn (y_pt s) cur) -> similar (y_pt s) t' -> calm cur (y_pt s) t' ->
  p_state (procn t' cur) ≠ SLEEPING -> ok b (mkSys t' (set_kont cur k (y_kont s)) l).
Proof.
  intros Hok <- ? ? ? ?. apply ok_move; try done; [|by apply blocked1_awake]. apply Hok.
Qed.

Lemma exec_ok b cur a s s' :
  ok b s -> b < 2 ^ 31 - 1 -> is_state RUNNING (procn (y_pt s) cur) = true -> exec cur a s = Some s' ->
  ok (b + 1) s'.
Proof.
  intros Hok Hb Hrun%is_state_true He. change (running (y_pt s) cur) in Hrun.
  pose proof (running_live _ _ Hrun) as Hl. pose proof (live_in_table _ _ (live_used _ Hl)) as Ht.
  assert (Hna : p_state (procn (y_pt s) cur) ≠ SLEEPING) by (by rewrite Hrun).
  assert (Hup : forall s', ok b s' -> ok (b + 1) s') by (intros x [? ?]; split; [eapply pinv_next; [|done]; lia|done]).
  destruct (sleep_return_move cur (y_pt s) Hrun) as (S1 & C1 & R1).
  unfold exec in He. destruct a, (y_kont s cur) eqn:Ek; try discriminate He.
  all: try (injection He as <-; apply Hup, ok_keep; try done;
            [apply similar_wakeup1|apply calm_wakeup1|rewrite procn_wakeup1; intros [? _]%sleeping_woken; done]).
  all: try (injection He as <-; apply Hup, ok_keep; try done;
            [by apply similar_running|by apply calm_upd|unfold yield; by rewrite procn_upd_eq]).
  - pose proof (ipc_send_ok b s cur pid msg false ltac:(done) Hok Hrun) as Hs.
    destruct (ipc_send_msg _ _ _ _) as [[r w] t']. injection He as <-. by apply Hup.
  - pose proof (recv_loop_ok b s cur _ Hok Hl (similar_refl _) (calm_refl _ _) Hrun) as Hs.
    unfold ipc_recv_msg in He. destruct (recv_loop _ _) as [r t']. injection He as <-. by apply Hup.
  - pose proof (wait_loop_ok b s cur _ Hok Hl (similar_refl _) (calm_refl _ _) Hrun) as Hs.
    destruct (wait_loop _ _) as [r t']. injection He as <-. by apply Hup.
  - destruct (Nat.eqb_spec cur (pt_initproc (y_pt s))) as [|Hni]; [done|].
    destruct (exit_notice _ _) as [pid|].
    + pose proof (ipc_send_ok b s cur pid exit_msg true (fun _ => Hni) Hok Hrun) as Hs.
      destruct (ipc_send_msg _ _ _ _) as [[r w] t']. injection He as <-. by apply Hup.
    + injection He as <-. apply Hup, ok_move; try done; [apply similar_refl|apply calm_refl].
  - injection He as <-. apply Hup. destruct Hok as [Hp Hbl]. split; cbn [y_pt y_kont].
    + apply pinv_exit; [done|done| |by rewrite Ek]. apply (pv_exit _ _ _ Hp). by rewrite Ek.
    + eapply blocked_calm; [done|apply calm_exit; [done|apply (pv_noself _ _ _ Hp)]|done].
  - unfold allocproc in He. destruct (find_slot _ _) as [np|] eqn:E; injection He as <-.
    + apply find_slot_spec in E as [Htn Hun%is_state_true]. destruct Hok as [Hp Hbl].
      split; cbn [y_pt y_kont]; [by apply pinv_alloc|].
      eapply blocked_calm; [done| |].
      * pose proof (calm_upd_other cur (y_pt s) np (fun p => set_pid (pt_nextpid (y_pt s)) (set_state EMBRYO p))
          ltac:(done) ltac:(done)) as [C2 C3]. by constructor.
      * done.
    + apply Hup, ok_keep; [done|done|done|apply similar_refl|apply calm_refl|done].
  - injection He as <-. pose proof (pv_fork _ _ _ (proj1 Hok) cur np) as Hnp. rewrite Ek in Hnp.
    specialize (Hnp eq_refl). apply Hup, ok_move; try done.
    + apply similar_upd. split_and!; auto.
    + apply calm_upd_other; cbn; by rewrite Hnp.
    + by rewrite Ek.
  - injection He as <-. apply Hup. destruct Hok as [Hp Hbl]. split; cbn [y_pt y_kont].
    + apply pinv_forked; [done|by rewrite Ek|done|done|by left|by left].
    + eapply blocked_calm; [done|by apply calm_upd_other|done].
  - injection He as <-. apply Hup. destruct Hok as [Hp Hbl]. split; cbn [y_pt y_kont].
    + apply pinv_forked; [done|by rewrite Ek|done|done|by right|by right].
    + eapply blocked_calm; [done|by apply calm_upd_other|done].
  - injection He as <-. apply Hup, ok_move; try done; [|apply calm_kill].
    unfold kill. destruct (find_slot _ _); [|apply similar_refl]. apply similar_upd.
    destruct (is_state SLEEPING _) eqn:Es; [|split_and!; auto].
    apply is_state_true in Es. cbn in Es. split_and!; [done..|]. right. unfold live. by rewrite Es.
  - injection He as <-. apply Hup, ok_move; try done; [|constructor; auto].
    constructor; [intros; apply same_core_refl|done..].
  - injection He as <-. destruct (sleep_move cur (ChOther a) (y_pt s) Hrun) as [S2 C2]. by apply Hup, ok_move.
  - injection He as <-. destruct (sleep_move cur (ChOther a) (y_pt s) Hrun) as [S2 C2].
    apply Hup, ok_move; try done. intros _. apply (pv_exit _ _ _ (proj1 Hok)). by rewrite Ek.
  - match type of Ek with _ = KSend _ _ ?e => rename e into ex end.
    assert (Hex : ex = true -> cur ≠ pt_initproc (y_pt s)).
    { intros ->. apply (pv_exit _ _ _ (proj1 Hok)). by rewrite Ek. }
    pose proof (send_loop_ok b s cur tgt kmsg ex _ Hex Hok Hl S1 C1 R1) as Hs.
    unfold send_resume in He. destruct (send_loop _ _ _ _) as [r t']. injection He as <-. by apply Hup.
  - pose proof (recv_loop_ok b s cur _ Hok Hl S1 C1 R1) as Hs.
    unfold recv_resume in He. destruct (recv_loop _ _) as [r t']. injection He as <-. by apply Hup.
  - pose proof (wait_loop_ok b s cur _ Hok Hl S1 C1 R1) as Hs.
    unfold wait_resume in He. destruct (wait_loop _ _) as [r t']. injection He as <-. by apply Hup.
Qed.

Lemma boot_ok t : userinit ptable_static = Some t -> ok 2 (mkSys t (fun _ => KUser) []).
Proof.
  intros Ht. pose proof (boot_table t Ht) as Et.
  assert (Hp : forall i, used (procn t i) -> i = O /\ p_pid (procn t i) = 1).
  { intros i. destruct (procn_boot t i Ht) as [[-> ->]|[-> _]]; [done|by intros []]. }
  assert (Hpar : forall i, p_parent (procn t i) = None).
  { intros i. by destruct (procn_boot t i Ht) as [[-> _]|[-> _]]. }
  assert (Hn : pt_nextpid t = 2 /\ pt_initproc t = O) by (by rewrite Et). destruct Hn as [Hn Hi].
  split; cbn [y_pt y_kont]; [constructor|intros i; red; by destruct (procn t i)]; rewrite ?Hn, ?Hi.
  - lia.
  - intros i [-> ->]%Hp. lia.
  - intros i j [-> _]%Hp [-> _]%Hp. done.
  - done.
  - done.
  - done.
  - by rewrite Et.
  - intros i Hu Hne. destruct (procn_boot t i Ht) as [[_ ?]|[E _]]; [done|]. rewrite E in Hu. by destruct Hu.
  - intros i. by rewrite Hpar.
  - apply Hpar.
  - done.
Qed.

Lemma scheduler_ok b s i t' :
  ok b s -> scheduler_run i (y_pt s) = Some t' -> ok b (mkSys t' (y_kont s) (y_log s)).
Proof.
  unfold scheduler_run. intros [Hp Hb] Hr. destruct (is_state _ _) eqn:E; [|done]. injection Hr as <-.
  apply is_state_true in E. split; cbn [y_pt y_kont].
  - eapply pinv_similar; [done|]. apply similar_upd. split_and!; [done..|right]. unfold live. by rewrite E.
  - intros j. destruct (calm_upd_other (S j) (y_pt s) i (set_state RUNNING) ltac:(done) ltac:(done)) as [C1 C2].
    intros Hs. destruct (C1 j (Nat.neq_succ_diag_r j) Hs) as (H1 & H2 & H3 & H4). specialize (Hb j H1).
    destruct (y_kont s j); cbn [blocked1] in *; rewrite ?H2, ?H3; try done.
    + destruct Hb as (Hc & Hk & Hm). destruct H4 as [->|[]]; done.
    + destruct Hb as (Hc & Hk & Hz). split_and!; [done..|]. intros x Hx Hzx.
      destruct (C2 j x (Nat.neq_succ_diag_r j) Hs ltac:(by rewrite H2) Hx Hzx). by apply (Hz x).
Qed.

Lemma reach_ok n s : reach n s -> Z.of_nat n + 2 < 2 ^ 31 -> ok (Z.of_nat n + 2) s.
Proof.
  induction 1 as [t Ht|n s s' _ IH Hst]; intros Hn; [by apply boot_ok|].
  specialize (IH ltac:(lia)). destruct Hst as [i s t' Hr|cur a s s' Hr He].
  - destruct (scheduler_ok _ _ _ _ IH Hr) as [Hp Hb]. split; [|done]. by eapply pinv_next; [|done]; lia.
  - replace (Z.of_nat (S n) + 2) with (Z.of_nat n + 2 + 1) by lia. eapply exec_ok; [done|lia|done|done].
Qed.
