(* ===== verification/ProcAuth.v ===== *)
(** * ProcAuth: who sent a message

    The kernel writes the sender's pid into every message before it looks
    for the target.  A sender may then sleep for any time before the message
    is delivered; the pid stays right because the slot of a sleeping sender
    cannot be given to another process. *)
From S2P Require Import Prelude Ipc Proc ProcMail ProcInv.

(** What delivery guarantees about a message sent by the process [pid]. *)
Definition authentic (pid : Z) (m : ipc_msg) : Prop :=
  m_sender_pid m = pid /\ valid_ipc_msg m = true /\ 0 < pid.

(** ** Process identifiers do not change while a process lives *)

Definition keeps_pids (t t' : ptable) : Prop :=
  forall j, live (procn t j) -> p_pid (procn t' j) = p_pid (procn t j).

Lemma keeps_pids_all t t' : (forall j, p_pid (procn t' j) = p_pid (procn t j)) -> keeps_pids t t'.
Proof. intros H j _. apply H. Qed.

Lemma keeps_pids_upd i f t : (live (procn t i) -> p_pid (f (procn t i)) = p_pid (procn t i)) -> keeps_pids t (upd i f t).
Proof. intros H j Hj. rewrite procn_upd. case_decide as E; [destruct E as [-> _]; auto|done]. Qed.

Lemma send_loop_pids cur tgt m t j : p_pid (procn (send_loop cur tgt m t).2 j) = p_pid (procn t j).
Proof.
  unfold send_loop. destruct (_ =? _); [destruct (_ || _)%bool; [done|by apply field_upd]|].
  cbn [snd]. rewrite field_wakeup1 by done. by apply field_upd.
Qed.

Lemma ipc_send_pids cur pid m t j : p_pid (procn (ipc_send_msg cur pid m t).2 j) = p_pid (procn t j).
Proof.
  unfold ipc_send_msg. destruct (negb _); [done|]. destruct (find_slot _ _) as [tgt|]; [|done].
  destruct (_ || _)%bool; [done|]. pose proof (send_loop_pids cur tgt (set_sender (p_pid (procn t cur)) m) t j) as H.
  by destruct (send_loop _ _ _ _).
Qed.

Lemma recv_loop_pids cur t j : p_pid (procn (recv_loop cur t).2 j) = p_pid (procn t j).
Proof.
  unfold recv_loop. destruct (_ =? 0); [destruct (negb _); [done|by apply field_upd]|].
  cbn [snd]. rewrite field_wakeup1 by done. by apply field_upd.
Qed.

Lemma wait_loop_pids cur t : keeps_pids t (wait_loop cur t).2.
Proof.
  unfold wait_loop. destruct (find_slot _ _) as [i|] eqn:E; cbn [snd].
  - apply find_slot_spec in E as [_ [_ Hz%is_state_true]%andb_true_iff].
    apply keeps_pids_upd. intros Hl. red in Hl. by rewrite Hz in Hl.
  - destruct (_ || _)%bool; [done|]. cbn [snd]. apply keeps_pids_all. intros j. by apply field_upd.
Qed.

Lemma exit_finish_pids cur t j : p_pid (procn (exit_finish cur t) j) = p_pid (procn t j).
Proof.
  unfold exit_finish. rewrite field_upd by done. rewrite field_reparent by done.
  destruct (p_parent _); rewrite ?field_wakeup1 by done; rewrite field_upd by done; by destruct (_ =? _).
Qed.

Lemma allocproc_pids t : keeps_pids t (allocproc t).2.
Proof.
  unfold allocproc. destruct (find_slot _ _) as [i|] eqn:E; [|done]. cbn [snd].
  apply find_slot_spec in E as [_ Hu%is_state_true].
  refine (keeps_pids_upd i _ t _). intros Hl. red in Hl. by rewrite Hu in Hl.
Qed.

Lemma kill_pids pid t j : p_pid (procn (kill pid t).2 j) = p_pid (procn t j).
Proof. unfold kill. destruct (find_slot _ _); [|done]. apply field_upd. by destruct (is_state _ _). Qed.

(** ** Messages on their way and messages delivered are authentic *)

Record auth_inv (s : sys) : Prop := mkAuth {
  au_sender : forall i tgt m ex, y_kont s i = KSend tgt m ex -> authentic (p_pid (procn (y_pt s) i)) m;
  au_log : forall from tgt m, EvDeliver from tgt m ∈ y_log s -> authentic from m;
}.

Section moves.
Context (b : Z) (s : sys) (cur : nat) (Hok : ok b s) (Hau : auth_inv s) (Hl : live (procn (y_pt s) cur)).

Lemma auth_move t' k' l :
  keeps_pids (y_pt s) t' ->
  (forall tgt m ex, k' = KSend tgt m ex -> authentic (p_pid (procn (y_pt s) cur)) m) ->
  (forall from tgt m, EvDeliver from tgt m ∈ l -> EvDeliver from tgt m ∈ y_log s \/ authentic from m) ->
  auth_inv (mkSys t' (set_kont cur k' (y_kont s)) l).
Proof using Hok Hau Hl.
  destruct Hau as [H1 H2]. intros Hp Hk Hlog. constructor; cbn [y_pt y_kont y_log].
  - intros i tgt m ex. unfold set_kont. destruct (decide (i = cur)) as [->|Hne].
    + rewrite Hp by done. apply Hk.
    + intros E. rewrite Hp; [by eapply H1|]. apply (pv_kont _ _ _ (proj1 Hok)). by rewrite E.
  - intros from tgt m H. destruct (Hlog _ _ _ H); [by eapply H2|done].
Qed.

Lemma auth_log_nil from tgt m :
  EvDeliver from tgt m ∈ y_log s -> EvDeliver from tgt m ∈ y_log s \/ authentic from m.
Proof. by left. Qed.

Lemma auth_log_app l from tgt m :
  EvDeliver from tgt m ∉ l ->
  EvDeliver from tgt m ∈ y_log s ++ l -> EvDeliver from tgt m ∈ y_log s \/ authentic from m.
Proof. intros Hn [H|H]%elem_of_app; [by left|done]. Qed.

Lemma after_send_auth ex r w t' :
  keeps_pids (y_pt s) t' ->
  (forall tgt m, w = Some (tgt, m) -> authentic (p_pid (procn (y_pt s) cur)) m) ->
  auth_inv (after_send s cur ex r w t').
Proof using Hok Hau Hl.
  intros Hp Hw. unfold after_send.
  destruct r as [r|], w as [[tgt m]|]; [| | |done].
  - apply auth_move; [done|by destruct ex|]. intros from tg m'. destruct (r =? 0); [|by left].
    intros [H|E%list_elem_of_singleton]%elem_of_app; [by left|right]. injection E as -> -> ->. by eapply Hw.
  - apply auth_move; [done|by destruct ex|by left].
  - apply auth_move; [done| |by left]. intros ??? [= -> -> ->]. by eapply Hw.
Qed.

Lemma after_recv_auth r t' : keeps_pids (y_pt s) t' -> auth_inv (after_recv s cur r t').
Proof using Hok Hau Hl.
  intros Hp. destruct r as [[r m]|]; (apply auth_move; [done|done|]); [|by left].
  intros from tg m'. destruct (r =? 0); [|by left]. apply auth_log_app. by intros ?%list_elem_of_singleton.
Qed.

Lemma erased_not_delivery i t from tgt m : EvDeliver from tgt m ∉ erased i t.
Proof. unfold erased. destruct (_ =? _); [by intros ?%list_elem_of_singleton|by intros ?%elem_of_nil]. Qed.

Lemma after_wait_auth r t' : keeps_pids (y_pt s) t' -> auth_inv (after_wait s cur r t').
Proof using Hok Hau Hl.
  intros Hp. destruct r as [[r gone]|]; (apply auth_move; [done|done|]); [|by left].
  intros from tg m'. apply auth_log_app. destruct gone; [apply erased_not_delivery|by intros ?%elem_of_nil].
Qed.
End moves.

(** A message is stamped before the kernel looks for its target. *)
Lemma ipc_send_stamp cur pid msg t r w t' tgt m :
  0 < p_pid (procn t cur) -> ipc_send_msg cur pid msg t = (r, w, t') -> w = Some (tgt, m) ->
  authentic (p_pid (procn t cur)) m.
Proof.
  intros Hp. unfold ipc_send_msg. destruct (negb _) eqn:Ev; [intros [= <- <- <-]; done|].
  destruct (find_slot _ _) as [i|]; [|intros [= <- <- <-]; done].
  destruct (_ || _)%bool; [intros [= <- <- <-]; done|].
  destruct (send_loop _ _ _ _) as [r1 t1]. intros [= <- <- <-] [= <- <-].
  apply negb_false_iff in Ev. done.
Qed.

Lemma exec_auth b cur a s s' :
  ok b s -> auth_inv s -> is_state RUNNING (procn (y_pt s) cur) = true -> exec cur a s = Some s' -> auth_inv s'.
Proof.
  intros Hok Hau Hrun%is_state_true He.
  assert (Hl : live (procn (y_pt s) cur)) by (by apply running_live).
  assert (Hpid : 0 < p_pid (procn (y_pt s) cur)) by (apply (pv_range _ _ _ (proj1 Hok)); by apply live_used).
  assert (Hmv : forall t' k' l, keeps_pids (y_pt s) t' -> (forall tgt m ex, k' = KSend tgt m ex -> y_kont s cur = k') ->
    (forall from tgt m, EvDeliver from tgt m ∉ l) ->
    auth_inv (mkSys t' (set_kont cur k' (y_kont s)) (y_log s ++ l))).
  { intros t' k' l H1 H2 H3. eapply auth_move; [done..| |]; [intros ??? Hk; eapply (au_sender _ Hau); by rewrite (H2 _ _ _ Hk)|].
    intros from tgt m. apply auth_log_app, H3. }
  assert (Hnil : forall from tgt m, EvDeliver from tgt m ∉ []) by (intros ???; apply not_elem_of_nil).
  assert (Hsl : keeps_pids (y_pt s) (sleep_return cur (y_pt s))) by (apply keeps_pids_all; intros; by apply field_upd).
  pose proof (ipc_send_stamp cur) as Hst.
  unfold exec in He. destruct a, (y_kont s cur) eqn:Ek; try discriminate He.
  all: try (injection He as <-; apply Hmv; [apply keeps_pids_all; intros j|done|done];
            (by apply field_upd) || (by apply field_wakeup1) || (apply kill_pids) || done).
  all: try (injection He as <-; apply Hmv; [by apply keeps_pids_upd|done|]; done || (intros; apply erased_not_delivery)).
  - pose proof (ipc_send_pids cur pid msg (y_pt s)) as Hp. destruct (ipc_send_msg _ _ _ _) as [[r w] t'] eqn:E.
    injection He as <-. eapply after_send_auth; [done..|by apply keeps_pids_all|by intros; eapply Hst].
  - pose proof (recv_loop_pids cur (y_pt s)) as Hp. unfold ipc_recv_msg in He. destruct (recv_loop _ _) as [r t'].
    injection He as <-. eapply after_recv_auth; [done..|by apply keeps_pids_all].
  - pose proof (wait_loop_pids cur (y_pt s)) as Hp. destruct (wait_loop _ _) as [r t'].
    injection He as <-. by eapply after_wait_auth.
  - destruct (_ =? _)%nat; [done|]. destruct (exit_notice _ _) as [pid|].
    + pose proof (ipc_send_pids cur pid exit_msg (y_pt s)) as Hp.
      destruct (ipc_send_msg _ _ _ _) as [[r w] t'] eqn:E.
      injection He as <-. eapply after_send_auth; [done..|by apply keeps_pids_all|by intros; eapply Hst].
    + injection He as <-. by apply Hmv.
  - injection He as <-. apply Hmv; [apply keeps_pids_all, exit_finish_pids|done|intros; apply erased_not_delivery].
  - pose proof (allocproc_pids (y_pt s)) as Hp. destruct (allocproc _) as [[np|] t']; injection He as <-; by apply Hmv.
  - pose proof (send_loop_pids cur tgt kmsg (sleep_return cur (y_pt s))) as Hp. unfold send_resume in He.
    destruct (send_loop _ _ _ _) as [r t']. injection He as <-. eapply after_send_auth; [done..| |].
    + intros j Hj. rewrite Hp. by apply Hsl.
    + intros ?? [= <- <-]. by eapply (au_sender _ Hau).
  - pose proof (recv_loop_pids cur (sleep_return cur (y_pt s))) as Hp. unfold recv_resume in He.
    destruct (recv_loop _ _) as [r t']. injection He as <-. eapply after_recv_auth; [done..|].
    intros j Hj. rewrite Hp. by apply Hsl.
  - pose proof (wait_loop_pids cur (sleep_return cur (y_pt s))) as Hp. unfold wait_resume in He.
    destruct (wait_loop _ _) as [r t']. injection He as <-. eapply after_wait_auth; [done..|].
    intros j Hj. rewrite Hp; [by apply Hsl|]. unfold live, sleep_return. by rewrite (field_upd p_state).
Qed.

Lemma reach_auth n s : reach n s -> Z.of_nat n + 2 < 2 ^ 31 -> auth_inv s.
Proof.
  induction 1 as [t Ht|n s s' Hr IH Hst]; intros Hn.
  - constructor; [done|]. intros from tgt m H. by apply elem_of_nil in H.
  - pose proof (reach_ok _ _ Hr ltac:(lia)) as Hok. specialize (IH ltac:(lia)).
    destruct Hst as [i s t' Hs|cur a s s' Hrun He]; [|by eapply exec_auth].
    unfold scheduler_run in Hs. destruct (is_state _ _); [|done]. injection Hs as <-.
    destruct IH as [H1 H2]. constructor; [|done]. intros j tgt m ex E. cbn [y_pt y_kont] in *.
    rewrite field_upd by done. by eapply H1.
Qed.
