(* ===== verification/ProcTheorems.v ===== *)
(** * ProcTheorems: what the process table and message passing guarantee

    Consequences of the invariants of [ProcMail], [ProcInv] and [ProcAuth]
    for every reachable state, whatever the interleaving of the processes,
    and a run that shows behaviour the code does not intend. *)
From S2P Require Import Prelude Ipc Proc ProcMail ProcInv ProcAuth.

(** ** Running a schedule *)

Definition tick (s : sys) (c : nat * option act) : option sys :=
  match c with
  | (i, None) => t ← scheduler_run i (y_pt s); Some (mkSys t (y_kont s) (y_log s))
  | (i, Some a) => if is_state RUNNING (procn (y_pt s) i) then exec i a s else None
  end.

Fixpoint run (l : list (nat * option act)) (s : sys) : option sys :=
  match l with
  | [] => Some s
  | c :: l => match tick s c with Some s => run l s | None => None end
  end.

Definition boot : sys := mkSys (default ptable_static (userinit ptable_static)) (fun _ => KUser) [].

Lemma reach_run l n s s' : reach n s -> run l s = Some s' -> reach (n + length l) s'.
Proof.
  revert n s. induction l as [|[i [a|]] l IH]; cbn [run length]; intros n s Hr E.
  - injection E as <-. by rewrite Nat.add_0_r.
  - cbn [tick] in E. destruct (is_state _ _) eqn:Es; [|done]. destruct (exec i a s) as [s1|] eqn:E1; [|done].
    rewrite Nat.add_succ_r. apply (IH (S n) s1); [|done]. by eapply reach_step, step_act.
  - cbn [tick] in E. destruct (scheduler_run _ _) as [t|] eqn:Es; [|done].
    rewrite Nat.add_succ_r. apply (IH (S n) (mkSys t (y_kont s) (y_log s))); [|done].
    by eapply reach_step, step_run.
Qed.

(** The state a schedule leads to from boot, if it can be followed. *)
Definition after (l : list (nat * option act)) : sys := default boot (run l boot).

Lemma reach_after l : bool_decide (is_Some (run l boot)) = true -> reach (length l) (after l).
Proof.
  intros [s E]%bool_decide_eq_true. unfold after. rewrite E. apply (reach_run l 0 boot); [|done]. by apply reach_boot.
Qed.

(** ** Exit wakes the parent *)

Lemma reparent_runnable cur t i :
  p_state (procn t i) = RUNNABLE -> p_state (procn (reparent cur t) i) = RUNNABLE.
Proof.
  unfold reparent. generalize (seq 0 (length (pt_proc t))). intros l. revert t.
  induction l as [|j l IH]; intros t E; [done|]. cbn [foldl]. apply IH. unfold reparent1.
  case_bool_decide; [|done].
  assert (E1 : forall v, p_state (procn (upd j (set_parent v) t) i) = RUNNABLE).
  { intros v. by rewrite (field_upd p_state). }
  destruct (is_state _ _); [|apply E1]. rewrite procn_wakeup1. unfold woken, is_state.
  rewrite E1, bool_decide_false by done. apply E1.
Qed.

Lemma woken_other c p : p_chan p ≠ Some c -> woken c p = p.
Proof. intros H. unfold woken. by rewrite (bool_decide_false (p_chan p = Some c)), andb_false_r. Qed.

Lemma woken_here c p : p_state p = SLEEPING -> p_chan p = Some c -> p_state (woken c p) = RUNNABLE.
Proof. intros Hs Hc. unfold woken, is_state. by rewrite Hs, Hc, !bool_decide_true. Qed.

Lemma exit_wakes_parent cur t i :
  p_parent (procn t cur) = Some i -> i ≠ cur ->
  p_state (procn t i) = SLEEPING -> p_chan (procn t i) = Some (ChProc i) ->
  p_state (procn (exit_finish cur t) i) = RUNNABLE.
Proof.
  intros Hp Hne Hs Hc. unfold exit_finish. set (t0 := if _ =? _ then set_fsserver (-1) t else t).
  assert (E0 : forall j, procn t0 j = procn t j) by (intros j; unfold t0; by destruct (_ =? _)).
  rewrite (field_wakeup1 p_parent), (field_upd p_parent), E0, Hp by done.
  rewrite procn_upd_ne by done. apply reparent_runnable.
  rewrite !procn_wakeup1, procn_upd_ne, E0 by done. rewrite (woken_other (ChMsg cur)) by (by rewrite Hc).
  by apply woken_here.
Qed.

(** ** Guarantees *)

(** C8: a message that a process received, that was erased with it or that
    waits for it was put there by exactly the process its [sender_pid] names,
    and has a valid type and lengths: the sender field cannot be forged,
    however long the sender slept between the call and the delivery.  The bound
    on the number of steps keeps [nextpid] from wrapping around. *)
Theorem messages_are_authentic n s i m :
  reach n s -> Z.of_nat n + 2 < 2 ^ 31 ->
  m ∈ consumed i (y_log s) ++ waiting (procn (y_pt s) i) ->
  EvDeliver (m_sender_pid m) i m ∈ y_log s /\ valid_ipc_msg m = true /\ 0 < m_sender_pid m.
Proof.
  intros Hr Hn Hm. destruct (reach_auth n s Hr Hn) as [_ Ha].
  rewrite <- (mi_log _ (reach_mail n s Hr)) in Hm. unfold delivered in Hm.
  apply list_elem_of_omap in Hm as (e & He & Em).
  destruct e as [from tgt m'| |]; [|done..]. destruct (decide (tgt = i)) as [->|]; [|done]. injection Em as ->.
  destruct (Ha _ _ _ He) as (<- & Hv & Hp). done.
Qed.

(** C19: two slots in use never carry the same pid, every pid in use is
    positive, and every process except init, running or zombie, has a parent
    that is still alive and can reap it.  This is for runs of fewer than 2^31
    steps, in which pids do not wrap around. *)
Theorem process_table_sound n s i :
  reach n s -> Z.of_nat n + 2 < 2 ^ 31 -> used (procn (y_pt s) i) ->
  0 < p_pid (procn (y_pt s) i) /\
  (forall j, used (procn (y_pt s) j) -> p_pid (procn (y_pt s) j) = p_pid (procn (y_pt s) i) -> j = i) /\
  (live (procn (y_pt s) i) \/ p_state (procn (y_pt s) i) = ZOMBIE -> i ≠ pt_initproc (y_pt s) ->
   exists q, p_parent (procn (y_pt s) i) = Some q /\ q ≠ i /\ live (procn (y_pt s) q)).
Proof.
  intros Hr Hn Hu. destruct (reach_ok n s Hr Hn) as [Hp _]. split_and!.
  - apply (pv_range _ _ _ Hp i Hu).
  - intros j Hj E. by apply (pv_uniq _ _ _ Hp).
  - intros Hl Hi. destruct (pv_parent _ _ _ Hp i Hl Hi) as (q & Hq & Hq').
    exists q. split_and!; [done| |done]. intros ->. by apply (pv_noself _ _ _ Hp i).
Qed.

(** C18: no wakeup is lost.  A process asleep in [recv] has an empty mailbox
    and the next message put in it makes the process runnable; a process
    asleep in [wait] has no zombie child, and a child that exits makes it
    runnable; and neither is asleep once it is killed.  This is for runs of
    fewer than 2^31 steps. *)
Theorem no_lost_wakeup n s i :
  reach n s -> Z.of_nat n + 2 < 2 ^ 31 -> p_state (procn (y_pt s) i) = SLEEPING ->
  (y_kont s i = KRecv ->
     p_has_msg (procn (y_pt s) i) = 0 /\ p_killed (procn (y_pt s) i) = 0 /\
     forall cur m, send_loop cur i m (y_pt s) = (Some 0, (send_loop cur i m (y_pt s)).2) /\
       p_state (procn (send_loop cur i m (y_pt s)).2 i) = RUNNABLE) /\
  (y_kont s i = KWait ->
     p_killed (procn (y_pt s) i) = 0 /\
     forall j, p_parent (procn (y_pt s) j) = Some i ->
       p_state (procn (y_pt s) j) ≠ ZOMBIE /\
       (j ≠ i -> p_state (procn (exit_finish j (y_pt s)) i) = RUNNABLE)).
Proof.
  intros Hr Hn Hs. destruct (reach_ok n s Hr Hn) as [_ Hb]. specialize (Hb i Hs).
  split; intros Ek; rewrite Ek in Hb.
  - destruct Hb as (Hc & Hk & Hm). split_and!; [done..|]. intros cur m. unfold send_loop. rewrite Hm.
    split; [done|]. cbn [Z.eqb snd]. rewrite procn_wakeup1, procn_upd_eq by (apply live_in_table; red; by rewrite Hs).
    by apply woken_here.
  - destruct Hb as (Hc & Hk & Hz). split; [done|]. intros j Hj. split; [by apply Hz|]. intros Hne.
    by apply exit_wakes_parent.
Qed.

(** ** Runs the code does not intend *)

Definition note (v : Z) : ipc_msg := mkMsg 0 v IPC_TYPE_FS_READ 0 0 0 0 0 (replicate 64 0) (replicate 128 0).
Definition forked (i : nat) : list (nat * option act) :=
  [(i, Some AFork); (i, Some AForkReset); (i, Some AForkDone)].



(** ** Witnesses *)
Module Runs.

(** The state just before the delivery in [exit_race]'s setting, with the
    target alive and receiving. *)
Definition mailbox_full : list (nat * option act) :=
  (0%nat, None) :: forked 0 ++ forked 0 ++
  [(1%nat, None); (1%nat, Some (ASend 3 (note 7))); (1%nat, Some (ASend 3 (note 8)))].
Definition receiver_asleep : list (nat * option act) :=
  (0%nat, None) :: forked 0 ++ [(1%nat, None); (1%nat, Some ARecv); (0%nat, Some AWait)].

Definition s_full : sys := after mailbox_full.
Definition s_recv : sys := after receiver_asleep.

Lemma reach_full : reach 10 s_full.
Proof. apply (reach_after mailbox_full). by vm_compute. Qed.
Lemma reach_recv : reach 7 s_recv.
Proof. apply (reach_after receiver_asleep). by vm_compute. Qed.

Lemma mailbox_exactly_once_witness :
  delivered 2 (y_log s_full) = [set_sender 2 (note 7)] /\
  delivered 2 (y_log s_full) = consumed 2 (y_log s_full) ++ waiting (procn (y_pt s_full) 2).
Proof. split; [vm_compute; reflexivity|]. exact (mailbox_exactly_once 10 s_full 2 reach_full). Defined.

Lemma messages_are_authentic_witness :
  EvDeliver 2 2 (set_sender 2 (note 7)) ∈ y_log s_full /\
  valid_ipc_msg (set_sender 2 (note 7)) = true /\ 0 < 2.
Proof.
  apply (messages_are_authentic 10 s_full 2 (set_sender 2 (note 7)) reach_full); [lia|].
  vm_compute. apply list_elem_of_here.
Defined.

Lemma process_table_sound_witness :
  exists q, p_parent (procn (y_pt s_full) 2) = Some q /\ q ≠ 2%nat /\ live (procn (y_pt s_full) q).
Proof.
  refine (proj2 (proj2 (process_table_sound 10 s_full 2 reach_full _ _)) _ _);
    [lia|by vm_compute|left; by vm_compute|by vm_compute].
Defined.

Lemma no_lost_wakeup_witness :
  (forall cur m, p_state (procn (send_loop cur 1 m (y_pt s_recv)).2 1) = RUNNABLE) /\
  p_state (procn (exit_finish 1 (y_pt s_recv)) 0) = RUNNABLE.
Proof.
  split.
  - intros cur m. refine (proj2 (proj2 (proj2 (proj1 (no_lost_wakeup 7 s_recv 1 reach_recv _ _) _)) cur m));
      [lia|by vm_compute|by vm_compute].
  - refine (proj2 (proj2 (proj2 (no_lost_wakeup 7 s_recv 0 reach_recv _ _) _) 1%nat _) _);
      [lia|by vm_compute..].
Defined.
End Runs.
