(* ===== verification/ProcKill.v ===== *)
(** * ProcKill: what [kill] does to a slot that holds no process

    [kill] of proc.c compares pids and not states.  A slot that was never used
    has pid 0, so [kill(0)] marks it, and nothing clears the mark before the
    slot holds its next process. *)
From S2P Require Import Prelude Ipc Proc ProcMail ProcInv ProcTheorems.

Definition unborn (p : proc) : Prop := p_state p = UNUSED \/ p_state p = EMBRYO.

Lemma unborn_not_live p : unborn p -> ~ live p.
Proof. unfold live. intros [-> | ->] []. Qed.

(** A step of [cur] that leaves the marks on slots without a process. *)
Definition marks (cur : nat) (t t' : ptable) : Prop := forall i, i ≠ cur -> unborn (procn t i) -> p_killed (procn t i) = 1 ->
  unborn (procn t' i) /\ p_killed (procn t' i) = 1.

Lemma marks_refl cur t : marks cur t t.
Proof. by intros i. Qed.

Lemma marks_trans cur t1 t2 t3 : marks cur t1 t2 -> marks cur t2 t3 -> marks cur t1 t3.
Proof. intros H1 H2 i Hi Hu Hk. destruct (H1 i Hi Hu Hk). by apply H2. Qed.

Lemma marks_upd cur f t : marks cur t (upd cur f t).
Proof. intros i Hi Hu Hk. by rewrite procn_upd_ne. Qed.

Lemma marks_upd_other cur j f t :
  (unborn (procn t j) -> p_killed (procn t j) = 1 -> unborn (f (procn t j)) /\ p_killed (f (procn t j)) = 1) -> marks cur t (upd j f t).
Proof. intros Hf i _ Hu Hk. rewrite procn_upd. case_decide as E; [|done]. destruct E as [-> _]. by apply Hf. Qed.

Lemma marks_wakeup1 cur c t : marks cur t (wakeup1 c t).
Proof.
  intros i _ Hu Hk. rewrite procn_wakeup1. unfold woken, is_state. case_bool_decide as E; [|done].
  by destruct Hu as [Hu|Hu]; rewrite Hu in E.
Qed.

Lemma marks_reparent cur c t : marks c t (reparent cur t).
Proof.
  intros i _ Hu Hk. rewrite (field_reparent p_killed) by done. split; [|done].
  destruct (reparent_state cur t i) as [E|[Hl _]]; [unfold unborn; by rewrite E|by destruct (unborn_not_live _ Hu)].
Qed.

Create HintDb marks.
#[export] Hint Resolve marks_refl marks_upd marks_wakeup1 marks_reparent : marks.
#[export] Hint Extern 2 (marks _ _ (upd _ _ _)) => by apply marks_upd_other : marks.

Lemma marks_send_loop cur tgt m t : marks cur t (send_loop cur tgt m t).2.
Proof.
  unfold send_loop. destruct (_ =? 1); [destruct (_ || _)%bool; cbn [snd]; auto with marks; apply marks_upd|]. cbn [snd].
  eapply marks_trans; [|apply marks_wakeup1]. auto with marks.
Qed.

Lemma marks_ipc_send cur pid m t : marks cur t (ipc_send_msg cur pid m t).2.
Proof.
  unfold ipc_send_msg. destruct (negb _); [apply marks_refl|]. destruct (find_slot _ t) as [tgt|]; [|apply marks_refl]. cbv zeta.
  destruct (_ || _)%bool; [apply marks_refl|].
  pose proof (marks_send_loop cur tgt (set_sender (p_pid (procn t cur)) m) t) as Hs. by destruct (send_loop _ _ _ _) as [r t'].
Qed.

Lemma marks_recv cur t : marks cur t (recv_loop cur t).2.
Proof.
  unfold recv_loop. destruct (_ =? 0); [destruct (negb _); cbn [snd]; [apply marks_refl|apply marks_upd]|]. cbn [snd].
  eapply marks_trans; [apply marks_upd|apply marks_wakeup1].
Qed.

(** Only a zombie is reaped. *)
Lemma marks_wait cur t : marks cur t (wait_loop cur t).2.
Proof.
  unfold wait_loop. destruct (find_slot _ t) as [i|] eqn:E; cbn [snd].
  - apply find_slot_spec in E as [_ [_ Hz%is_state_true]%andb_true_iff]. apply marks_upd_other. unfold unborn. rewrite Hz. by intros [?|?].
  - destruct (_ || _)%bool; [apply marks_refl|apply marks_upd].
Qed.

Lemma marks_kill cur pid t : marks cur t (kill pid t).2.
Proof.
  unfold kill. destruct (find_slot _ t) as [i|]; [|apply marks_refl]. cbn [snd]. apply marks_upd_other. intros Hu _. unfold is_state. cbv zeta.
  case_bool_decide as E; [|done]. cbn in E. by destruct Hu as [Hu|Hu]; rewrite Hu in E.
Qed.

Lemma marks_exit cur t : marks cur t (exit_finish cur t).
Proof.
  unfold exit_finish. cbv zeta. eapply marks_trans; [|apply marks_upd]. eapply marks_trans; [|apply marks_reparent].
  set (t1 := wakeup1 _ _). assert (H1 : marks cur t t1).
  { eapply marks_trans; [|apply marks_wakeup1]. eapply marks_trans; [|apply marks_upd]. by destruct (_ =? _). }
  destruct (p_parent _); [|done]. by eapply marks_trans; [|apply marks_wakeup1].
Qed.

Lemma marks_alloc cur t : marks cur t (allocproc t).2.
Proof.
  unfold allocproc. destruct (find_slot _ t) as [i|]; [|apply marks_refl]. cbn [snd].
  intros j Hj. apply (marks_upd_other cur i); [|done]. intros _ Hk. split; [by right|done].
Qed.
#[export] Hint Resolve marks_kill marks_exit : marks.

(** ** Steps *)

(** The slot holds no process, or its first process has not run yet. *)
Definition doomed (p : proc) : Prop := p_killed p = 1 /\ (unborn p \/ p_state p = RUNNABLE).

Lemma exec_marks cur a s s' : exec cur a s = Some s' ->
  marks cur (y_pt s) (y_pt s') \/ exists np, y_pt s' = fork_done cur np (y_pt s).
Proof.
  assert (Hsend : forall ex r w t, marks cur (y_pt s) t -> marks cur (y_pt s) (y_pt (after_send s cur ex r w t))).
  { intros ex r w t Ht. unfold after_send. destruct r, w as [[? ?]|]; try done; apply marks_refl. }
  assert (Hrecv : forall r t, marks cur (y_pt s) t -> marks cur (y_pt s) (y_pt (after_recv s cur r t))) by (intros [[? ?]|] t Ht; done).
  assert (Hwait : forall r t, marks cur (y_pt s) t -> marks cur (y_pt s) (y_pt (after_wait s cur r t))) by (intros [[? ?]|] t Ht; done).
  assert (Hback : forall t, marks cur (sleep_return cur (y_pt s)) t -> marks cur (y_pt s) t) by (intros t Ht; eapply marks_trans; [apply marks_upd|exact Ht]).
  unfold exec. cbv zeta. destruct a, (y_kont s cur); try done; intros E; try (injection E as <-; cbn [y_pt]); try (right; by eexists); left.
  all: try solve [auto with marks|by apply marks_upd_other|apply marks_upd|exact (marks_refl cur (y_pt s))].
  all: try (apply marks_upd_other; intros Hu Hk; split; [by left|done]).
  - pose proof (marks_ipc_send cur pid msg (y_pt s)) as Hs. destruct (ipc_send_msg _ _ _ _) as [[r w] t']. injection E as <-. by apply Hsend.
  - pose proof (marks_recv cur (y_pt s)) as Hs. unfold ipc_recv_msg in E. destruct (recv_loop _ _) as [r t']. injection E as <-. by apply Hrecv.
  - pose proof (marks_wait cur (y_pt s)) as Hs. destruct (wait_loop _ _) as [r t']. injection E as <-. by apply Hwait.
  - destruct (_ =? _)%nat; [done|]. destruct (exit_notice _ _) as [pid|]; [|injection E as <-; apply marks_refl].
    pose proof (marks_ipc_send cur pid exit_msg (y_pt s)) as Hs. destruct (ipc_send_msg _ _ _ _) as [[r w] t']. injection E as <-. by apply Hsend.
  - pose proof (marks_alloc cur (y_pt s)) as Hs. destruct (allocproc _) as [[np|] t']; by injection E as <-.
  - pose proof (marks_send_loop cur tgt kmsg (sleep_return cur (y_pt s))) as Hs. unfold send_resume in E. destruct (send_loop _ _ _ _) as [r t']. injection E as <-. by apply Hsend, Hback.
  - pose proof (marks_recv cur (sleep_return cur (y_pt s))) as Hs. unfold recv_resume in E. destruct (recv_loop _ _) as [r t']. injection E as <-. by apply Hrecv, Hback.
  - pose proof (marks_wait cur (sleep_return cur (y_pt s))) as Hs. unfold wait_resume in E. destruct (wait_loop _ _) as [r t']. injection E as <-. by apply Hwait, Hback.
Qed.

Lemma running_not_unborn t cur i : is_state RUNNING (procn t cur) = true -> unborn (procn t i) -> i ≠ cur.
Proof. intros Hr%is_state_true Hu ->. by destruct Hu as [Hu|Hu]; rewrite Hu in Hr. Qed.

Lemma step_doomed s s' i : step s s' -> unborn (procn (y_pt s) i) -> p_killed (procn (y_pt s) i) = 1 -> doomed (procn (y_pt s') i).
Proof.
  intros Hst Hu Hk. destruct Hst as [j s t' Ht|cur a s s' Hr He].
  - unfold scheduler_run in Ht. destruct (is_state RUNNABLE _) eqn:E; [|done]. injection Ht as <-. cbn [y_pt].
    rewrite procn_upd_ne; [by split; [|left]|]. intros ->. apply is_state_true in E. by destruct Hu as [Hu|Hu]; rewrite Hu in E.
  - pose proof (running_not_unborn _ _ _ Hr Hu) as Hi. destruct (exec_marks _ _ _ _ He) as [Hm|(np & ->)].
    + destruct (Hm i Hi Hu Hk). by split; [|left].
    + unfold fork_done. rewrite procn_upd. case_decide as E; [|by split; [|left]]. destruct E as [-> _]. split; [done|by right].
Qed.

(** A step while slot [i] holds no process. *)
Definition before_birth (i : nat) (s s' : sys) : Prop := step s s' /\ ~ live (procn (y_pt s) i).

Lemma birth_doomed i s s' : rtc (before_birth i) s s' -> doomed (procn (y_pt s) i) -> doomed (procn (y_pt s') i).
Proof.
  induction 1 as [|s1 s2 s3 [Hst Hl] _ IH]; [done|]. intros [Hk [Hu|Hr]]; [by apply IH, (step_doomed s1)|].
  destruct Hl. unfold live. by rewrite Hr.
Qed.

(** C40: [kill(0)] by any process, in any reachable state with a slot of pid 0,
    answers 0 and marks a slot that holds no process.  However the system goes
    on, the mark stays until the slot holds a process, and the first process
    forked into it is killed before it has run. *)
Theorem kill_zero_hits_next_child n s cur j :
  reach n s -> Z.of_nat n + 2 < 2 ^ 31 ->
  is_state RUNNING (procn (y_pt s) cur) = true -> y_kont s cur = KUser ->
  in_table (y_pt s) j -> p_pid (procn (y_pt s) j) = 0 ->
  exists i s1, p_state (procn (y_pt s) i) = UNUSED /\ (kill 0 (y_pt s)).1 = 0 /\
    exec cur (AKill 0) s = Some s1 /\ step s s1 /\
    forall s2, rtc (before_birth i) s1 s2 ->
      p_killed (procn (y_pt s2) i) = 1 /\ (live (procn (y_pt s2) i) -> p_state (procn (y_pt s2) i) = RUNNABLE).
Proof.
  intros Hr Hn Hrun Hk Hj Hp. destruct (reach_ok n s Hr Hn) as [Hi _].
  destruct (find_slot (fun p => p_pid p =? 0) (y_pt s)) as [i|] eqn:E.
  2: { pose proof (find_slot_none _ _ _ E Hj) as Hf. cbv beta in Hf. by rewrite Hp in Hf. }
  pose proof (find_slot_spec _ _ _ E) as [Hin Hz%Z.eqb_eq].
  assert (Hu : p_state (procn (y_pt s) i) = UNUSED).
  { destruct (decide (p_state (procn (y_pt s) i) = UNUSED)) as [|Hne]; [done|]. pose proof (pv_range _ _ _ Hi i Hne). lia. }
  assert (Ek : kill 0 (y_pt s) = (0, upd i (fun p => let p := set_killed 1 p in if is_state SLEEPING p then set_state RUNNABLE p else p) (y_pt s)))
    by (unfold kill; by rewrite E).
  eexists i, _. split; [done|]. split; [by rewrite Ek|]. split; [unfold exec; rewrite Hk; reflexivity|].
  split; [eapply (step_act cur (AKill 0)); [exact Hrun|unfold exec; by rewrite Hk]|]. intros s2 Hs.
  assert (Hd : doomed (procn (y_pt s2) i)).
  { eapply birth_doomed; [exact Hs|]. cbn [y_pt]. rewrite Ek. cbn [snd]. rewrite procn_upd_eq by done. unfold is_state. cbn. rewrite Hu.
    split; [done|by left; left]. }
  destruct Hd as [Hd1 [Hd2|Hd2]]; (split; [done|]); [|done]. by intros ?%(unborn_not_live _ Hd2).
Qed.

Module KillInstances.
(** The first process runs; every other slot is unused. *)
Definition s_first : sys := after [(0%nat, None)].

Lemma reach_first : reach 1 s_first.
Proof. apply (reach_after [(0%nat, None)]). by vm_compute. Qed.

Lemma kill_zero_hits_next_child_witness :
  exists i s1, p_state (procn (y_pt s_first) i) = UNUSED /\ (kill 0 (y_pt s_first)).1 = 0 /\
    exec 0 (AKill 0) s_first = Some s1 /\ step s_first s1 /\
    forall s2, rtc (before_birth i) s1 s2 ->
      p_killed (procn (y_pt s2) i) = 1 /\ (live (procn (y_pt s2) i) -> p_state (procn (y_pt s2) i) = RUNNABLE).
Proof.
  apply (kill_zero_hits_next_child 1 s_first 0 1 reach_first);
    [lia|by vm_compute|done|apply Nat.ltb_lt; by vm_compute|by vm_compute].
Defined.

(** A run in which the child is forked: it is runnable and killed. *)
Lemma child_is_killed :
  let s := after ((0%nat, None) :: (0%nat, Some (AKill 0)) :: forked 0) in
  p_state (procn (y_pt s) 1) = RUNNABLE /\ p_pid (procn (y_pt s) 1) = 2 /\ p_killed (procn (y_pt s) 1) = 1.
Proof. by vm_compute. Qed.
End KillInstances.
