(* ===== verification/Pipe.v ===== *)
(** * Pipe: pipes (pipe.c)

    A pipe is a ring of [PIPESIZE] bytes with two counters of 32 bits that
    only ever grow and wrap around.  What a reader or writer does between
    taking [p->lock] and releasing it, or sleeping, is one function. *)
From S2P Require Import Prelude.

Definition PIPESIZE : Z := 512.

Record pipe := mkPipe {
  pp_data : list Z;
  pp_nread : Z;
  pp_nwrite : Z;
  pp_readopen : Z;
  pp_writeopen : Z;
}.

(** [pipealloc]: the page [kalloc] returned holds [data]. *)
Definition pipe_init (data : list Z) : pipe := mkPipe data 0 0 1 1.

Definition set_nread v p := mkPipe (pp_data p) v (pp_nwrite p) (pp_readopen p) (pp_writeopen p).
Definition put (c : Z) (p : pipe) : pipe :=
  mkPipe (<[Z.to_nat (pp_nwrite p mod PIPESIZE) := c]> (pp_data p)) (pp_nread p) (u32 (pp_nwrite p + 1))
         (pp_readopen p) (pp_writeopen p).

Definition pipe_full (p : pipe) : bool := pp_nwrite p =? u32 (pp_nread p + PIPESIZE).
Definition pipe_empty (p : pipe) : bool := pp_nread p =? pp_nwrite p.

(** How a call leaves its critical section: with the result, with -1, or
    asleep; a sleeping writer still has [rest] to write. *)
Inductive wstate : Type := WDone (r : Z) | WFailed | WSleep (rest : list Z).
Inductive rstate : Type := RDone (n : Z) (bytes : list Z) | RFailed | RSleep.

(** The value the call returns, if it has returned. *)
Definition wresult (st : wstate) : option Z := match st with WDone r => Some r | WFailed => Some (-1) | WSleep _ => None end.
Definition rresult (st : rstate) : option Z := match st with RDone n _ => Some n | RFailed => Some (-1) | RSleep => None end.

(** Whether the critical section calls [wakeup(&p->nread)] (a writer) or
    [wakeup(&p->nwrite)] (a reader): the two error returns do not. *)
Definition wakes_readers (st : wstate) : bool := match st with WFailed => false | _ => true end.
Definition wakes_writers (st : rstate) : bool := match st with RDone _ _ => true | _ => false end.

(** The loop of [pipewrite] on the bytes left to write; [n] is the size of
    the whole request. *)
Fixpoint pipewrite_loop (killed : bool) (n : Z) (src : list Z) (p : pipe) : wstate * pipe :=
  match src with
  | [] => (WDone n, p)
  | c :: src' =>
      if pipe_full p then
        if ((pp_readopen p =? 0) || killed)%bool then (WFailed, p) else (WSleep src, p)
      else pipewrite_loop killed n src' (put c p)
  end.

(** [src] holds the [n] bytes of the request, none when [n] is negative. *)
Definition pipewrite (killed : bool) (n : Z) (src : list Z) (p : pipe) : wstate * pipe :=
  pipewrite_loop killed n src p.

(** The copying loop of [piperead], at most [n] bytes. *)
Fixpoint piperead_copy (n : nat) (p : pipe) : list Z * pipe :=
  match n with
  | O => ([], p)
  | S n =>
      if pipe_empty p then ([], p)
      else
        let c := default 0 (pp_data p !! Z.to_nat (pp_nread p mod PIPESIZE)) in
        let '(bytes, p') := piperead_copy n (set_nread (u32 (pp_nread p + 1)) p) in
        (c :: bytes, p')
  end.

Definition piperead (killed : bool) (n : Z) (p : pipe) : rstate * pipe :=
  if (pipe_empty p && negb (pp_writeopen p =? 0))%bool then
    if killed then (RFailed, p) else (RSleep, p)
  else
    let '(bytes, p') := piperead_copy (Z.to_nat n) p in
    (RDone (Z.of_nat (length bytes)) bytes, p').

(** The pipe, or [None] when both ends are closed and it is freed. *)
Definition pipeclose (writable : bool) (p : pipe) : option pipe :=
  let p := if writable then mkPipe (pp_data p) (pp_nread p) (pp_nwrite p) (pp_readopen p) 0
           else mkPipe (pp_data p) (pp_nread p) (pp_nwrite p) 0 (pp_writeopen p) in
  if ((pp_readopen p =? 0) && (pp_writeopen p =? 0))%bool then None else Some p.

(** ** The pipe is a bounded FIFO queue *)

(** Bytes in the pipe. *)
Definition pipe_count (p : pipe) : Z := u32 (pp_nwrite p - pp_nread p).
Definition pipe_byte (p : pipe) (k : nat) : Z :=
  default 0 (pp_data p !! Z.to_nat ((pp_nread p + Z.of_nat k) mod PIPESIZE)).
Definition contents (p : pipe) : list Z := pipe_byte p <$> seq 0 (Z.to_nat (pipe_count p)).

Record pipe_ok (p : pipe) : Prop := mkPipeOk {
  po_data : length (pp_data p) = 512%nat;
  po_nread : is_u32 (pp_nread p);
  po_nwrite : is_u32 (pp_nwrite p);
  po_count : pipe_count p <= PIPESIZE;
}.

(** Counters that wrap at [2 ^ 32] still index the ring consistently, because
    [PIPESIZE] divides [2 ^ 32]. *)
Lemma u32_mod_pipesize x : u32 x mod PIPESIZE = x mod PIPESIZE.
Proof. unfold u32, PIPESIZE. apply Z.mod_mod_divide. by exists (2 ^ 23). Qed.

Lemma count_range p : 0 <= pipe_count p.
Proof. apply u32_range. Qed.

Lemma pipe_empty_spec p : pipe_ok p -> pipe_empty p = (pipe_count p =? 0).
Proof.
  intros [_ Hr Hw _]. unfold pipe_empty, pipe_count, u32, is_u32 in *. apply eq_iff_eq_true. rewrite !Z.eqb_eq.
  split; [intros ->; by rewrite Z.sub_diag|]. intros H.
  destruct (Z.lt_ge_cases (pp_nwrite p) (pp_nread p)).
  - rewrite <- (Z.mod_add _ 1), Z.mod_small in H by lia. lia.
  - rewrite Z.mod_small in H by lia. lia.
Qed.

Lemma pipe_full_spec p : pipe_ok p -> pipe_full p = (pipe_count p =? PIPESIZE).
Proof.
  intros [_ Hr Hw _]. unfold pipe_full, pipe_count, u32, is_u32, PIPESIZE in *. apply eq_iff_eq_true. rewrite !Z.eqb_eq.
  split.
  - intros ->. rewrite Zminus_mod_idemp_l. replace (pp_nread p + 512 - pp_nread p) with 512 by lia. done.
  - intros H. rewrite <- H, Zplus_mod_idemp_r. replace (pp_nread p + (pp_nwrite p - pp_nread p)) with (pp_nwrite p) by lia.
    by rewrite Z.mod_small.
Qed.

Lemma put_spec c p :
  pipe_ok p -> pipe_full p = false -> pipe_ok (put c p) /\ contents (put c p) = contents p ++ [c].
Proof.
  intros Hok Hf. pose proof (pipe_full_spec p Hok) as E. rewrite Hf in E. symmetry in E. apply Z.eqb_neq in E.
  destruct Hok as [Hd Hr Hw Hc]. pose proof (count_range p) as H0. unfold PIPESIZE in *.
  assert (Hn : pipe_count (put c p) = pipe_count p + 1).
  { unfold pipe_count, put. cbn [pp_nwrite pp_nread]. unfold u32. rewrite Zminus_mod_idemp_l.
    replace (pp_nwrite p + 1 - pp_nread p) with (pp_nwrite p - pp_nread p + 1) by lia.
    rewrite <- Zplus_mod_idemp_l. fold (u32 (pp_nwrite p - pp_nread p)). fold (pipe_count p). apply Z.mod_small. lia. }
  split.
  - constructor; cbn [pp_data pp_nread pp_nwrite put]; [by rewrite length_insert|done|apply u32_range|unfold PIPESIZE; lia].
  - unfold contents. rewrite Hn. replace (Z.to_nat (pipe_count p + 1)) with (S (Z.to_nat (pipe_count p))) by lia.
    rewrite seq_S, fmap_app. cbn [fmap list_fmap Nat.add].
    assert (Hlast : (pp_nread p + Z.of_nat (Z.to_nat (pipe_count p))) mod 512 = pp_nwrite p mod 512).
    { rewrite Z2Nat.id by lia. unfold pipe_count. rewrite <- Zplus_mod_idemp_r. pose proof (u32_mod_pipesize (pp_nwrite p - pp_nread p)) as Em.
      unfold PIPESIZE in Em. rewrite Em, Zplus_mod_idemp_r. f_equal. lia. }
    assert (Hb : forall x, 0 <= x mod 512 < 512) by (intros; by apply Z.mod_pos_bound).
    f_equal.
    + apply list_fmap_ext. intros i k Hk. apply lookup_seq in Hk as [-> Hk]. unfold pipe_byte, put. cbn [pp_data pp_nread].
      unfold PIPESIZE. rewrite list_lookup_insert_ne; [done|]. intros Ei.
      assert (Em : pp_nwrite p mod 512 = (pp_nread p + Z.of_nat (0 + i)) mod 512).
      { pose proof (Hb (pp_nwrite p)). pose proof (Hb (pp_nread p + Z.of_nat (0 + i))). lia. }
      rewrite <- Hlast in Em.
      assert (Hd0 : (Z.of_nat (Z.to_nat (pipe_count p)) - Z.of_nat (0 + i)) mod 512 = 0).
      { replace (Z.of_nat (Z.to_nat (pipe_count p)) - Z.of_nat (0 + i))
          with ((pp_nread p + Z.of_nat (Z.to_nat (pipe_count p))) - (pp_nread p + Z.of_nat (0 + i))) by lia.
        rewrite Zminus_mod, Em, Z.sub_diag. done. }
      rewrite Z.mod_small in Hd0 by lia. lia.
    + f_equal. unfold pipe_byte, put. cbn [pp_data pp_nread]. unfold PIPESIZE. rewrite Hlast.
      rewrite list_lookup_insert_eq; [done|]. pose proof (Hb (pp_nwrite p)). rewrite Hd. lia.
Qed.

Lemma get_spec p :
  pipe_ok p -> pipe_empty p = false ->
  let p' := set_nread (u32 (pp_nread p + 1)) p in
  pipe_ok p' /\ contents p = default 0 (pp_data p !! Z.to_nat (pp_nread p mod PIPESIZE)) :: contents p'.
Proof.
  intros Hok He p'. pose proof (pipe_empty_spec p Hok) as E. rewrite He in E. symmetry in E. apply Z.eqb_neq in E.
  destruct Hok as [Hd Hr Hw Hc]. pose proof (count_range p) as H0. unfold PIPESIZE in *.
  assert (Hn : pipe_count p' = pipe_count p - 1).
  { unfold pipe_count, p', set_nread. cbn [pp_nwrite pp_nread]. unfold u32. rewrite Zminus_mod_idemp_r.
    replace (pp_nwrite p - (pp_nread p + 1)) with (pp_nwrite p - pp_nread p - 1) by lia.
    rewrite <- Zminus_mod_idemp_l. fold (u32 (pp_nwrite p - pp_nread p)). fold (pipe_count p). apply Z.mod_small. lia. }
  split; [constructor; cbn [pp_data pp_nread pp_nwrite p' set_nread]; [done|apply u32_range|done|unfold PIPESIZE; lia]|].
  unfold contents. rewrite Hn. replace (Z.to_nat (pipe_count p)) with (S (Z.to_nat (pipe_count p - 1))) by lia.
  cbn [seq fmap list_fmap]. f_equal; [unfold pipe_byte; by rewrite Z.add_0_r|].
  rewrite <- fmap_S_seq, <- list_fmap_compose. apply list_fmap_ext. intros i k _. unfold pipe_byte, compose, p'. cbn.
  do 3 f_equal. unfold PIPESIZE. pose proof (u32_mod_pipesize (pp_nread p + 1)) as Em. unfold PIPESIZE in Em.
  rewrite <- (Zplus_mod_idemp_l (u32 _)), Em, Zplus_mod_idemp_l. f_equal. lia.
Qed.

Lemma length_contents p : length (contents p) = Z.to_nat (pipe_count p).
Proof. unfold contents. by rewrite length_fmap, length_seq. Qed.

(** [pipewrite] appends a prefix of its bytes: all of them when it returns
    [n]; otherwise the pipe is full, and the writer sleeps with the rest or,
    if nobody can read or it was killed, gives up with -1. *)
Lemma pipewrite_loop_spec killed n src p :
  pipe_ok p ->
  let '(st, p') := pipewrite_loop killed n src p in
  exists k, pipe_ok p' /\ contents p' = contents p ++ take k src /\
    pp_readopen p' = pp_readopen p /\ pp_writeopen p' = pp_writeopen p /\ (k <= length src)%nat /\
    match st with
    | WDone r => r = n /\ k = length src
    | WFailed => pipe_full p' = true /\ (k < length src)%nat /\ (pp_readopen p' = 0 \/ killed = true)
    | WSleep rest => rest = drop k src /\ rest ≠ [] /\ pipe_full p' = true /\ pp_readopen p' ≠ 0 /\ killed = false
    end.
Proof.
  revert p. induction src as [|c src IH]; intros p Hok; cbn [pipewrite_loop].
  - exists O. rewrite app_nil_r. split_and!; done.
  - destruct (pipe_full p) eqn:Hf.
    + destruct (Z.eqb_spec (pp_readopen p) 0) as [Ho|Ho]; [|destruct killed]; cbn [orb]; exists O; rewrite take_0, app_nil_r;
        do 4 (split; [done|]); (split; [cbn; lia|]).
      * split_and!; [done|cbn; lia|by left].
      * split_and!; [done|cbn; lia|by right].
      * done.
    + destruct (put_spec c p Hok Hf) as [Hok1 Hc1]. specialize (IH (put c p) Hok1).
      destruct (pipewrite_loop killed n src (put c p)) as [st p']. destruct IH as (k & Hok' & Hc & Hr & Hw & Hk & Hst).
      exists (S k). cbn [take drop length]. split; [done|]. split; [by rewrite Hc, Hc1, <- app_assoc|].
      do 2 (split; [done|]). split; [lia|]. destruct st; [|destruct Hst as (? & ? & ?)|done]; split_and!; naive_solver lia.
Qed.

Lemma piperead_copy_spec n p :
  pipe_ok p ->
  let '(bytes, p') := piperead_copy n p in
  pipe_ok p' /\ bytes = take n (contents p) /\ contents p' = drop n (contents p) /\
  pp_readopen p' = pp_readopen p /\ pp_writeopen p' = pp_writeopen p.
Proof.
  revert p. induction n as [|n IH]; intros p Hok; cbn [piperead_copy]; [done|].
  destruct (pipe_empty p) eqn:He.
  - rewrite (pipe_empty_spec p Hok) in He. apply Z.eqb_eq in He.
    assert (contents p = []) as -> by (apply length_zero_iff_nil; rewrite length_contents; lia). done.
  - destruct (get_spec p Hok He) as [Hok1 Hc]. specialize (IH _ Hok1). rewrite Hc.
    destruct (piperead_copy n _) as [bytes p']. destruct IH as (Hok' & -> & -> & Hr & Hw). done.
Qed.

(** ** Readers and writers over time

    A pipe with the readers asleep on [&p->nread] and the writers asleep on
    [&p->nwrite] (process identifiers).  Woken processes start a critical
    section of their own again, as any process may. *)
Record psys := mkPsys { ps_pipe : pipe; ps_readers : list Z; ps_writers : list Z }.

Definition psleep (asleep : bool) (pid : Z) (l : list Z) : list Z := if asleep then pid :: l else l.
Definition pwake (woken : bool) (l : list Z) : list Z := if woken then [] else l.

(** One critical section of [pipewrite], of [piperead], of [pipeclose]. *)
Definition do_write (pid : Z) (killed : bool) (n : Z) (src : list Z) (s : psys) : wstate * psys :=
  let '(st, p') := pipewrite_loop killed n src (ps_pipe s) in
  (st, mkPsys p' (pwake (wakes_readers st) (ps_readers s))
         (psleep (match st with WSleep _ => true | _ => false end) pid (ps_writers s))).

Definition do_read (pid : Z) (killed : bool) (n : Z) (s : psys) : rstate * psys :=
  let '(st, p') := piperead killed n (ps_pipe s) in
  (st, mkPsys p' (psleep (match st with RSleep => true | _ => false end) pid (ps_readers s))
         (pwake (wakes_writers st) (ps_writers s))).

Definition do_close (writable : bool) (s : psys) : option psys :=
  match pipeclose writable (ps_pipe s) with
  | None => None
  | Some p' => Some (mkPsys p' (pwake writable (ps_readers s)) (pwake (negb writable) (ps_writers s)))
  end.

(** [pipe_reach ks s w r]: after some interleaving of critical sections of
    readers and writers, [w] was put into the pipe and [r] was handed out;
    [ks]: some writer was marked killed during its call.  A process that
    reads (writes) has the read (write) end open, and an end is closed when
    its last descriptor goes, so nobody is asleep on it then. *)
Inductive pipe_reach : bool -> psys -> list Z -> list Z -> Prop :=
| pr_alloc data : length data = 512%nat -> pipe_reach false (mkPsys (pipe_init data) [] []) [] []
| pr_write ks s w r (pid : Z) killed n src st s' :
    pipe_reach ks s w r -> pp_writeopen (ps_pipe s) ≠ 0 -> do_write pid killed n src s = (st, s') ->
    pipe_reach (ks || killed) s' (w ++ take (Z.to_nat (pipe_count (ps_pipe s') - pipe_count (ps_pipe s))) src) r
| pr_read ks s w r (pid : Z) killed n st s' :
    pipe_reach ks s w r -> pp_readopen (ps_pipe s) ≠ 0 -> do_read pid killed n s = (st, s') ->
    pipe_reach ks s' w (r ++ match st with RDone _ bytes => bytes | _ => [] end)
| pr_close ks s w r (writable : bool) s' :
    pipe_reach ks s w r -> (if writable then ps_writers s else ps_readers s) = [] -> do_close writable s = Some s' -> pipe_reach ks s' w r.

(** Nobody waits for what is already there. *)
Definition readers_wait_rightly (s : psys) : Prop :=
  ps_readers s = [] \/ contents (ps_pipe s) = [] /\ pp_writeopen (ps_pipe s) ≠ 0.
Definition writers_wait_rightly (s : psys) : Prop :=
  ps_writers s = [] \/ pipe_full (ps_pipe s) = true /\ pp_readopen (ps_pipe s) ≠ 0.

Lemma pipe_empty_contents p : pipe_ok p -> pipe_empty p = true <-> contents p = [].
Proof.
  intros Hok. rewrite (pipe_empty_spec p Hok), <- length_zero_iff_nil, length_contents, Z.eqb_eq.
  pose proof (count_range p). lia.
Qed.

(** What holds of every reachable pipe. *)
Record pipe_inv (ks : bool) (s : psys) (w r : list Z) : Prop := {
  pi_ok : pipe_ok (ps_pipe s);
  pi_fifo : w = r ++ contents (ps_pipe s);
  pi_rend : ps_readers s = [] \/ pp_readopen (ps_pipe s) ≠ 0;
  pi_wend : ps_writers s = [] \/ pp_writeopen (ps_pipe s) ≠ 0;
  pi_writers : writers_wait_rightly s;
  pi_readers : ks = false -> readers_wait_rightly s;
}.

Lemma pipe_write_keeps ks s w r pid killed n src st s' :
  pipe_inv ks s w r -> pp_writeopen (ps_pipe s) ≠ 0 -> do_write pid killed n src s = (st, s') ->
  pipe_inv (ks || killed) s' (w ++ take (Z.to_nat (pipe_count (ps_pipe s') - pipe_count (ps_pipe s))) src) r.
Proof.
  intros [Hok -> Hre Hwe Hws Hrs] Hwo E. unfold do_write in E.
  pose proof (pipewrite_loop_spec killed n src _ Hok) as H. destruct (pipewrite_loop _ _ _ _) as [st1 p'].
  injection E as <- <-. destruct H as (k & Hok' & Hc & Hr & Hw & Hk & Hst).
  assert (Hlen : pipe_count p' = pipe_count (ps_pipe s) + Z.of_nat k).
  { apply (f_equal length) in Hc. rewrite length_app, !length_contents, length_take in Hc.
    pose proof (count_range p'). pose proof (count_range (ps_pipe s)). lia. }
  constructor; cbn [ps_pipe ps_readers ps_writers].
  - done.
  - rewrite Hc, <- app_assoc. do 3 f_equal. lia.
  - rewrite Hr. destruct (wakes_readers st1); [by left|done].
  - rewrite Hw. by right.
  - unfold writers_wait_rightly in *. cbn [ps_pipe ps_writers]. rewrite Hr.
    destruct st1; cbn [psleep]; [| |right; rewrite <- Hr; naive_solver];
      (destruct Hws as [->|[Hf ?]]; [by left|right; split; [|done]]);
      rewrite pipe_full_spec in Hf |- * by done; apply Z.eqb_eq; apply Z.eqb_eq in Hf; pose proof (po_count _ Hok'); lia.
  - intros [-> ->]%orb_false_iff. destruct (Hrs eq_refl) as [En|[En Eo]]; [left; cbn; rewrite En; by destruct (wakes_readers st1)|].
    unfold readers_wait_rightly. cbn [ps_pipe ps_readers]. destruct st1; [by left| |by left].
    destruct Hst as (_ & _ & [H0|?]); [|done]. left. cbn. rewrite Hr in H0. by destruct Hre.
Qed.

Lemma pipe_read_keeps ks s w r pid killed n st s' :
  pipe_inv ks s w r -> pp_readopen (ps_pipe s) ≠ 0 -> do_read pid killed n s = (st, s') ->
  pipe_inv ks s' w (r ++ match st with RDone _ bytes => bytes | _ => [] end).
Proof.
  intros [Hok -> Hre Hwe Hws Hrs] Hro E. unfold do_read, piperead in E.
  pose proof (pipe_empty_contents _ Hok) as He. destruct (_ && _)%bool eqn:Hg.
  { apply andb_true_iff in Hg as [Hemp%He Hwo]. apply negb_true_iff, Z.eqb_neq in Hwo.
    destruct killed; injection E as <- <-; cbn [wakes_writers pwake psleep]; rewrite app_nil_r; constructor; try done.
    - by right.
    - intros _. by right. }
  pose proof (piperead_copy_spec (Z.to_nat n) _ Hok) as H. destruct (piperead_copy _ _) as [bs p1].
  injection E as <- <-. destruct H as (Hok' & -> & Hd & Hr & Hw).
  constructor; cbn [ps_pipe ps_readers ps_writers wakes_writers pwake psleep].
  - done.
  - by rewrite Hd, <- app_assoc, take_drop.
  - by rewrite Hr.
  - by left.
  - by left.
  - intros Hks. destruct (Hrs Hks) as [?|[En ?]]; [by left|right; cbn]. rewrite Hd, Hw, En. by rewrite drop_nil.
Qed.

Lemma pipe_close_keeps ks s w r (writable : bool) s' :
  pipe_inv ks s w r -> (if writable then ps_writers s else ps_readers s) = [] -> do_close writable s = Some s' ->
  pipe_inv ks s' w r.
Proof.
  intros [Hok -> Hre Hwe Hws Hrs] Hn E. unfold do_close, pipeclose in E. destruct (_ && _)%bool; [done|]. injection E as <-.
  assert (Hok' : pipe_ok (if writable then mkPipe (pp_data (ps_pipe s)) (pp_nread (ps_pipe s)) (pp_nwrite (ps_pipe s)) (pp_readopen (ps_pipe s)) 0
           else mkPipe (pp_data (ps_pipe s)) (pp_nread (ps_pipe s)) (pp_nwrite (ps_pipe s)) 0 (pp_writeopen (ps_pipe s))))
    by (destruct Hok; by destruct writable; constructor).
  unfold writers_wait_rightly, readers_wait_rightly in *.
  destruct writable; cbn [negb pwake ps_pipe ps_readers ps_writers pp_readopen pp_writeopen] in *;
    constructor; unfold writers_wait_rightly, readers_wait_rightly; cbn [ps_pipe ps_readers ps_writers pp_readopen pp_writeopen]; auto.
Qed.

Lemma pipe_reach_inv ks s w r : pipe_reach ks s w r -> pipe_inv ks s w r.
Proof.
  induction 1; eauto using pipe_write_keeps, pipe_read_keeps, pipe_close_keeps.
  constructor; cbn; unfold readers_wait_rightly, writers_wait_rightly; auto. by constructor.
Qed.

(** C24: a pipe is a FIFO queue of at most [PIPESIZE] bytes: whatever the
    interleaving of partial writes, reads and closes, and although the
    counters wrap around at 32 bits, the bytes put in are the bytes handed
    out followed by those still in it.  A writer is asleep only while the
    pipe is full and the read end open; unless a writer was killed, a reader
    is asleep only while the pipe is empty and the write end open: no wakeup
    is lost and the two never wait for each other. *)
Theorem pipe_fifo ks s w r :
  pipe_reach ks s w r ->
  w = r ++ contents (ps_pipe s) /\ (length (contents (ps_pipe s)) <= 512)%nat /\
  (ps_writers s ≠ [] -> pipe_full (ps_pipe s) = true /\ pp_readopen (ps_pipe s) ≠ 0) /\
  (ks = false -> ps_readers s ≠ [] -> contents (ps_pipe s) = [] /\ pp_writeopen (ps_pipe s) ≠ 0) /\
  (ks = false -> ps_readers s = [] \/ ps_writers s = []).
Proof.
  intros [Hok -> _ _ Hw Hr]%pipe_reach_inv. unfold writers_wait_rightly, readers_wait_rightly in *.
  split; [done|]. split; [rewrite length_contents; pose proof (po_count _ Hok); unfold PIPESIZE in *; lia|].
  split; [naive_solver|]. split; [naive_solver|].
  intros Hk. destruct (Hr Hk) as [?|[Hc _]]; [by left|]. destruct Hw as [?|[Hf _]]; [by right|].
  rewrite (pipe_full_spec _ Hok) in Hf. apply Z.eqb_eq in Hf. apply (f_equal length) in Hc. rewrite length_contents, Hf in Hc. done.
Qed.

(** C0: [piperead] takes the oldest bytes, at most [n]; it sleeps exactly
    when the pipe is empty, a writer is open and the caller is not killed,
    and answers 0 at end of file. *)
Theorem piperead_takes_oldest killed n p :
  pipe_ok p -> 0 <= n ->
  match piperead killed n p with
  | (RSleep, p') => p' = p /\ contents p = [] /\ pp_writeopen p ≠ 0 /\ killed = false
  | (RFailed, p') => p' = p /\ contents p = [] /\ pp_writeopen p ≠ 0 /\ killed = true
  | (RDone x bytes, p') =>
      bytes = take (Z.to_nat n) (contents p) /\ contents p' = drop (Z.to_nat n) (contents p) /\
      x = Z.of_nat (length bytes) /\ (contents p = [] -> pp_writeopen p = 0 /\ x = 0)
  end.
Proof.
  intros Hok Hn. unfold piperead. pose proof (pipe_empty_contents p Hok) as He.
  destruct (pipe_empty p && negb (pp_writeopen p =? 0))%bool eqn:Hg.
  - apply andb_true_iff in Hg as [?%He Hw]. apply negb_true_iff, Z.eqb_neq in Hw. by destruct killed.
  - pose proof (piperead_copy_spec (Z.to_nat n) p Hok) as H. destruct (piperead_copy _ p) as [bs p1].
    destruct H as (_ & -> & -> & _). split_and!; try done. intros Hc. rewrite Hc, take_nil. split; [|done].
    apply He in Hc. rewrite Hc in Hg. by apply negb_false_iff, Z.eqb_eq in Hg.
Qed.

Module PipeInstances.
(** A pipe whose write counter has wrapped around. *)
Definition p0 : pipe := mkPipe (replicate 512 0) (2 ^ 32 - 2) 1 1 1.

(** Process 7 sleeps for input; process 8 writes three bytes. *)
Definition s0 : psys := mkPsys (pipe_init (replicate 512 0)) [] [].
Definition s1 : psys := (do_read 7 false 10 s0).2.
Definition s2 : psys := (do_write 8 false 3 [1; 2; 3] s1).2.

Lemma pipe_fifo_witness :
  ps_readers s1 = [7] /\ ps_readers s2 = [] /\ contents (ps_pipe s2) = [1; 2; 3] /\
  ([1; 2; 3] = [] ++ contents (ps_pipe s2) /\ (length (contents (ps_pipe s2)) <= 512)%nat /\
   (ps_writers s2 ≠ [] -> pipe_full (ps_pipe s2) = true /\ pp_readopen (ps_pipe s2) ≠ 0) /\
   (false = false -> ps_readers s2 ≠ [] -> contents (ps_pipe s2) = [] /\ pp_writeopen (ps_pipe s2) ≠ 0) /\
   (false = false -> ps_readers s2 = [] \/ ps_writers s2 = [])).
Proof.
  do 3 (split; [by vm_compute|]). apply (pipe_fifo false s2 [1; 2; 3] []).
  assert (H1 : pipe_reach false s1 [] []).
  { apply (pr_read false s0 [] [] 7 false 10 RSleep s1); [by apply pr_alloc|done|by vm_compute]. }
  change (pipe_reach (false || false) s2 ([] ++ take (Z.to_nat (pipe_count (ps_pipe s2) - pipe_count (ps_pipe s1))) [1; 2; 3]) []).
  apply (pr_write false s1 [] [] 8 false 3 [1; 2; 3] (WDone 3) s2); [done|done|by vm_compute].
Defined.

Lemma piperead_takes_oldest_witness :
  pipe_ok p0 /\ match piperead false 10 p0 with
                | (RSleep, p') => p' = p0 /\ contents p0 = [] /\ pp_writeopen p0 ≠ 0 /\ false = false
                | (RFailed, p') => p' = p0 /\ contents p0 = [] /\ pp_writeopen p0 ≠ 0 /\ false = true
                | (RDone x bytes, p') =>
                    bytes = take 10 (contents p0) /\ contents p' = drop 10 (contents p0) /\
                    x = Z.of_nat (length bytes) /\ (contents p0 = [] -> pp_writeopen p0 = 0 /\ x = 0)
                end.
Proof.
  assert (Hok : pipe_ok p0) by (constructor; by vm_compute). split; [done|].
  by apply (piperead_takes_oldest false 10 p0 Hok).
Defined.

(** A killed writer that fills the pipe gives up without waking the readers:
    process 7 stays asleep although the pipe is full of bytes. *)
Theorem killed_writer_loses_wakeup :
  let '(st, s) := do_write 8 true 600 (replicate 600 1) s1 in
  wresult st = Some (-1) /\ ps_readers s = [7] /\ pipe_full (ps_pipe s) = true /\ length (contents (ps_pipe s)) = 512%nat.
Proof. by vm_compute. Qed.
End PipeInstances.
