(* ===== verification/Mmu.v ===== *)
(** * Mmu: memory, its layout and page table entries (memlayout.h, mmu.h)

    Memory is a function from addresses to bytes.  Addresses are 64-bit
    unsigned integers; the macros of memlayout.h and mmu.h are functions on
    them, with their wrap-around. *)
From S2P Require Import Prelude.

(** ** Memory *)

(** The [n] bytes at [a]. *)
Definition peek (mem : Z -> Z) (a : Z) (n : nat) : list Z := (fun k => mem (a + Z.of_nat k)) <$> seq 0 n.

Definition poke (a : Z) (bs : list Z) (mem : Z -> Z) : Z -> Z := fun x =>
  if ((a <=? x) && (x <? a + Z.of_nat (length bs)))%bool then default 0 (bs !! Z.to_nat (x - a)) else mem x.

Lemma length_peek mem a n : length (peek mem a n) = n.
Proof. unfold peek. by rewrite length_fmap, length_seq. Qed.

Lemma lookup_peek mem a n i : (i < n)%nat -> peek mem a n !! i = Some (mem (a + Z.of_nat i)).
Proof. intros Hi. unfold peek. by rewrite list_lookup_fmap, lookup_seq_lt. Qed.

Lemma peek_app mem a n m : peek mem a (n + m) = peek mem a n ++ peek mem (a + Z.of_nat n) m.
Proof.
  unfold peek. rewrite seq_app, fmap_app. f_equal. rewrite <- (Nat.add_comm n 0), <- fmap_add_seq, <- list_fmap_compose.
  apply list_fmap_ext. intros i k _. cbn. f_equal. lia.
Qed.

Lemma peek_ext mem mem' a n :
  (forall x, a <= x < a + Z.of_nat n -> mem x = mem' x) -> peek mem a n = peek mem' a n.
Proof.
  intros H. apply list_fmap_ext. intros i k Hk. apply lookup_seq in Hk as [-> ?]. apply H. lia.
Qed.

Lemma peek_poke a bs mem : peek (poke a bs mem) a (length bs) = bs.
Proof.
  apply list_eq. intros i. destruct (decide (i < length bs)%nat) as [Hi|Hi].
  - rewrite lookup_peek by done. unfold poke. replace (Z.to_nat (a + Z.of_nat i - a)) with i by lia.
    rewrite (proj2 (Z.leb_le _ _)), (proj2 (Z.ltb_lt _ _)) by lia. cbn [andb].
    by destruct (lookup_lt_is_Some_2 bs i Hi) as [x ->].
  - rewrite !lookup_ge_None_2 by (rewrite ?length_peek; lia). done.
Qed.

Lemma poke_other a bs mem x : x < a \/ a + Z.of_nat (length bs) <= x -> poke a bs mem x = mem x.
Proof.
  intros H. unfold poke. destruct (Z.leb_spec a x), (Z.ltb_spec x (a + Z.of_nat (length bs))); cbn [andb]; (done || lia).
Qed.

Lemma peek_poke_other a bs mem b n :
  b + Z.of_nat n <= a \/ a + Z.of_nat (length bs) <= b -> peek (poke a bs mem) b n = peek mem b n.
Proof. intros H. apply peek_ext. intros x Hx. apply poke_other. lia. Qed.

Definition read64 (mem : Z -> Z) (a : Z) : Z := le_Z (peek mem a 8).
Definition write64 (a v : Z) (mem : Z -> Z) : Z -> Z := poke a (le_bytes 8 v) mem.

(** [memset] and [memmove] on memory (the loops of string.c are in CString). *)
Definition mset (a c n : Z) (mem : Z -> Z) : Z -> Z := fun x =>
  if ((a <=? x) && (x <? a + n))%bool then c else mem x.
Definition mmove (dst src n : Z) (mem : Z -> Z) : Z -> Z := fun x =>
  if ((dst <=? x) && (x <? dst + n))%bool then mem (x - dst + src) else mem x.

Lemma read64_write64 a v mem : 0 <= v < 2 ^ 64 -> read64 (write64 a v mem) a = v.
Proof.
  intros Hv. unfold read64, write64. change 8%nat with (length (le_bytes 8 v)) at 2.
  rewrite peek_poke, le_Z_bytes. apply Z.mod_small. exact Hv.
Qed.

Lemma read64_ext mem mem' a : (forall x, a <= x < a + 8 -> mem x = mem' x) -> read64 mem a = read64 mem' a.
Proof. intros H. unfold read64. f_equal. apply peek_ext. intros x Hx. apply H. lia. Qed.

Lemma write64_other a v mem x : x < a \/ a + 8 <= x -> write64 a v mem x = mem x.
Proof. intros H. apply poke_other. rewrite length_le_bytes. lia. Qed.

Lemma read64_write64_other a v mem b : b + 8 <= a \/ a + 8 <= b -> read64 (write64 a v mem) b = read64 mem b.
Proof. intros H. apply read64_ext. intros x Hx. apply write64_other. lia. Qed.

Lemma mset_in a c n mem x : a <= x < a + n -> mset a c n mem x = c.
Proof. intros H. unfold mset. destruct (Z.leb_spec a x), (Z.ltb_spec x (a + n)); cbn [andb]; (done || lia). Qed.

Lemma mset_other a c n mem x : x < a \/ a + n <= x -> mset a c n mem x = mem x.
Proof. intros H. unfold mset. destruct (Z.leb_spec a x), (Z.ltb_spec x (a + n)); cbn [andb]; (done || lia). Qed.

Lemma mmove_in a b n mem x : a <= x < a + n -> mmove a b n mem x = mem (x - a + b).
Proof. intros H. unfold mmove. destruct (Z.leb_spec a x), (Z.ltb_spec x (a + n)); cbn [andb]; (done || lia). Qed.

Lemma mmove_other a b n mem x : x < a \/ a + n <= x -> mmove a b n mem x = mem x.
Proof. intros H. unfold mmove. destruct (Z.leb_spec a x), (Z.ltb_spec x (a + n)); cbn [andb]; (done || lia). Qed.

Lemma read64_zero mem a : (forall x, a <= x < a + 8 -> mem x = 0) -> read64 mem a = 0.
Proof.
  intros H. rewrite (read64_ext mem (fun _ => 0) a) by done. done.
Qed.

Lemma read64_range mem a : (forall x, is_u8 (mem x)) -> 0 <= read64 mem a < 2 ^ 64.
Proof.
  intros H. unfold read64. pose proof (le_Z_range (peek mem a 8)) as Hr. rewrite length_peek in Hr.
  apply Hr. apply Forall_forall. intros b (k & -> & _)%list_elem_of_fmap. apply H.
Qed.

(** Memory holds bytes. *)
Definition mem_ok (mem : Z -> Z) : Prop := forall x, is_u8 (mem x).

Lemma mem_ok_poke a bs mem : mem_ok mem -> bytes_ok bs -> mem_ok (poke a bs mem).
Proof.
  intros Hm Hb x. unfold poke. destruct (_ && _)%bool; [|done]. destruct (bs !! _) as [b|] eqn:E; cbn; [|by unfold is_u8].
  rewrite Forall_forall in Hb. eapply Hb, list_elem_of_lookup_2, E.
Qed.

Lemma mem_ok_write64 a v mem : mem_ok mem -> mem_ok (write64 a v mem).
Proof. intros Hm. apply mem_ok_poke; [done|apply le_bytes_ok]. Qed.

Lemma mem_ok_mset a c n mem : is_u8 c -> mem_ok mem -> mem_ok (mset a c n mem).
Proof. intros Hc Hm x. unfold mset. by destruct (_ && _)%bool. Qed.

Lemma mem_ok_mmove a b n mem : mem_ok mem -> mem_ok (mmove a b n mem).
Proof. intros Hm x. unfold mmove. by destruct (_ && _)%bool. Qed.

(** ** Layout *)

Definition PGSIZE : Z := 4096.
Definition PHYSTOP : Z := 0xE000000.
Definition KERNBASE : Z := 0xFFFF800000000000.

Definition V2P (a : Z) : Z := u64 (a - KERNBASE).
Definition P2V (a : Z) : Z := u64 (a + KERNBASE).

(** [~((addr_t)(PGSIZE-1))] *)
Definition PGMASK : Z := 2 ^ 64 - PGSIZE.
Definition PGROUNDUP (sz : Z) : Z := Z.land (u64 (sz + (PGSIZE - 1))) PGMASK.
Definition PGROUNDDOWN (a : Z) : Z := Z.land a PGMASK.

Definition PXMASK : Z := 0x1FF.
Definition PMX (va : Z) : Z := Z.land (Z.shiftr va 39) PXMASK.
Definition PDPX (va : Z) : Z := Z.land (Z.shiftr va 30) PXMASK.
Definition PDX (va : Z) : Z := Z.land (Z.shiftr va 21) PXMASK.
Definition PTX (va : Z) : Z := Z.land (Z.shiftr va 12) PXMASK.

(** ** Page table entries *)

Definition PTE_P : Z := 0x001.
Definition PTE_W : Z := 0x002.
Definition PTE_U : Z := 0x004.
Definition PTE_PWT : Z := 0x008.
Definition PTE_PCD : Z := 0x010.
Definition PTE_PS : Z := 0x080.

Definition PTE_ADDR (pte : Z) : Z := Z.land pte PGMASK.
Definition PTE_FLAGS (pte : Z) : Z := Z.land pte 0xFFF.

(** [pte & PTE_P] and [pte & PTE_U], as conditions. *)
Definition pte_p (pte : Z) : bool := negb (Z.land pte PTE_P =? 0).
Definition pte_u (pte : Z) : bool := negb (Z.land pte PTE_U =? 0).

(** ** The macros on addresses *)

Lemma land_pgmask a : 0 <= a < 2 ^ 64 -> Z.land a PGMASK = a - a mod PGSIZE.
Proof.
  intros Ha. change PGMASK with (Z.ldiff (Z.ones 64) (Z.ones 12)). rewrite Z.ldiff_land, Z.land_assoc, Z.land_ones, Z.mod_small by lia.
  rewrite <- Z.ldiff_land, Z.ldiff_ones_r by lia. rewrite Z.shiftr_div_pow2, Z.shiftl_mul_pow2 by lia.
  unfold PGSIZE. change (2 ^ 12) with 4096. pose proof (Z.div_mod a 4096). lia.
Qed.

Lemma pgrounddown_spec a : 0 <= a < 2 ^ 64 -> PGROUNDDOWN a = PGSIZE * (a / PGSIZE).
Proof. intros Ha. unfold PGROUNDDOWN. rewrite land_pgmask by done. pose proof (Z.div_mod a PGSIZE). unfold PGSIZE in *. lia. Qed.

Lemma pgroundup_spec a : 0 <= a <= 2 ^ 64 - PGSIZE -> PGROUNDUP a = PGSIZE * ((a + PGSIZE - 1) / PGSIZE).
Proof.
  intros Ha. unfold PGROUNDUP, u64. rewrite Z.mod_small by (unfold PGSIZE in *; lia). change (Z.land ?x PGMASK) with (PGROUNDDOWN x).
  rewrite pgrounddown_spec by (unfold PGSIZE in *; lia). do 2 f_equal. lia.
Qed.

Lemma index_spec va k : 0 <= va -> 0 <= k -> Z.land (Z.shiftr va k) PXMASK = va / 2 ^ k mod 512.
Proof. intros Hv Hk. change PXMASK with (Z.ones 9). rewrite Z.land_ones, Z.shiftr_div_pow2 by lia. done. Qed.

Lemma lor_flags pa f : pa mod PGSIZE = 0 -> 0 <= f < PGSIZE -> Z.lor pa f = pa + f.
Proof.
  intros Hp Hf. assert (E : Z.land pa f = 0).
  { apply Z.bits_inj'. intros n Hn. rewrite Z.land_spec, Z.bits_0. destruct (Z.lt_ge_cases n 12).
    - rewrite <- (Z.mod_pow2_bits_low pa 12 n) by done. unfold PGSIZE in Hp. change (2 ^ 12) with 4096. rewrite Hp. by rewrite Z.bits_0.
    - rewrite <- (Z.mod_small f (2 ^ 12)) by (unfold PGSIZE in Hf; lia). rewrite Z.mod_pow2_bits_high by lia. by rewrite andb_false_r. }
  rewrite <- Z.lxor_lor by done. symmetry. by apply Z.add_nocarry_lxor.
Qed.

Lemma pte_addr_make pa f : 0 <= pa -> pa + PGSIZE <= 2 ^ 64 -> pa mod PGSIZE = 0 -> 0 <= f < PGSIZE -> PTE_ADDR (Z.lor pa f) = pa.
Proof.
  intros H0 H1 Hp Hf. unfold PTE_ADDR. rewrite lor_flags, land_pgmask by lia. rewrite Z.add_mod, Hp by (unfold PGSIZE; lia).
  rewrite Z.add_0_l, Z.mod_mod, Z.mod_small by (unfold PGSIZE in *; lia). lia.
Qed.

Lemma pte_flags_mod e : PTE_FLAGS e = e mod PGSIZE.
Proof. unfold PTE_FLAGS. change 0xFFF with (Z.ones 12). by rewrite Z.land_ones by lia. Qed.

Lemma pte_flags_make pa f : pa mod PGSIZE = 0 -> 0 <= f < PGSIZE -> PTE_FLAGS (Z.lor pa f) = f.
Proof.
  intros Hp Hf. rewrite pte_flags_mod, lor_flags by done. rewrite Z.add_mod, Hp by (unfold PGSIZE; lia).
  by rewrite Z.add_0_l, Z.mod_mod, Z.mod_small by (unfold PGSIZE in *; lia).
Qed.

Lemma pte_p_testbit e : pte_p e = Z.testbit e 0.
Proof.
  unfold pte_p, PTE_P. change 0x001 with (Z.ones 1). rewrite Z.land_ones by lia. change (2 ^ 1) with 2.
  pose proof (Z.bit0_mod e) as E. by destruct (Z.testbit e 0); rewrite <- E.
Qed.

Lemma v2p_p2v a : 0 <= a < 2 ^ 64 -> V2P (P2V a) = a.
Proof.
  intros Ha. unfold V2P, P2V, u64. rewrite Zminus_mod_idemp_l. replace (a + KERNBASE - KERNBASE) with a by lia. by apply Z.mod_small.
Qed.

Lemma p2v_v2p a : 0 <= a < 2 ^ 64 -> P2V (V2P a) = a.
Proof.
  intros Ha. unfold V2P, P2V, u64. rewrite Zplus_mod_idemp_l. replace (a - KERNBASE + KERNBASE) with a by lia. by apply Z.mod_small.
Qed.
