(* ===== verification/Syscall.v ===== *)
(** * Syscall: system call arguments (syscall.c)

    What the kernel sees of the process that made the call: its size, the
    argument registers of the trap frame and its memory; and the checks that
    every argument passes before the kernel uses it. *)
From S2P Require Import Prelude CString Mmu.

Definition NOFILE : nat := 16.

(** [struct proc] of the caller as far as system calls use it.  [u_mem] is
    the user half of the address space of the caller's page table. *)
Record uproc := mkUproc {
  u_pid : Z;
  u_killed : Z;
  u_sz : Z;
  u_regs : list Z;                  (* rdi, rsi, rdx, r10, r8, r9 *)
  u_mem : Z -> Z;
  u_ofile : list (option nat);      (* index into ftable *)
  u_cwd : nat;                      (* index into icache *)
}.

(** ** User memory *)

(** The kernel can touch [n] bytes at [a]: page 0 is never mapped and nothing
    is mapped at or above [sz]. *)
Definition user_range (u : uproc) (a n : Z) : bool := ((PGSIZE <=? a) && (a + n <=? u_sz u))%bool.

(** ** Fetching (None: the functions return -1) *)

Definition fetchint (u : uproc) (a : Z) : option Z :=
  if ((a <? PGSIZE) || (u_sz u <=? a) || (u_sz u <? u64 (a + 4)))%bool then None
  else Some (s32 (le_Z (peek (u_mem u) a 4))).

Definition fetchaddr (u : uproc) (a : Z) : option Z :=
  if ((a <? PGSIZE) || (u_sz u <=? a) || (u_sz u <? u64 (a + 8)))%bool then None
  else Some (le_Z (peek (u_mem u) a 8)).

(** [for(s = *pp; s < ep; s++) if( *s == 0) return s - *pp;] with [n = ep - s]. *)
Fixpoint scan_nul (mem : Z -> Z) (s : Z) (len : Z) (n : nat) : option Z :=
  match n with
  | O => None
  | S n => if mem s =? 0 then Some len else scan_nul mem (s + 1) (len + 1) n
  end.

(** The string's address and length. *)
Definition fetchstr (u : uproc) (a : Z) : option (Z * Z) :=
  if ((a <? PGSIZE) || (u_sz u <=? a))%bool then None
  else len ← scan_nul (u_mem u) a 0 (Z.to_nat (u_sz u - a)); Some (a, s32 len).

(** [n] is a constant below 6 at every call. *)
Definition fetcharg (u : uproc) (n : nat) : Z := default 0 (u_regs u !! n).

Definition argint (u : uproc) (n : nat) : Z := s32 (fetcharg u n).
Definition argaddr (u : uproc) (n : nat) : Z := fetcharg u n.

(** The result, an unsigned [addr_t], and the pointer that held [pp] before:
    a refused argument leaves it as it was. *)
Definition argptr (u : uproc) (n : nat) (pp size : Z) : Z * Z :=
  let i := argaddr u n in
  if ((size <? 0) || (u_sz u <=? u32 i) || (u_sz u <? u32 (u32 i + size)))%bool then (u64 (-1), pp)
  else (0, i).

(** [argint] puts the register into an [int]; [fetchstr] takes an [addr_t]. *)
Definition argstr (u : uproc) (n : nat) : option (Z * Z) := fetchstr u (u64 (argint u n)).

(** The bytes the kernel reads through a string pointer it has fetched. *)
Definition ustring (u : uproc) (p : Z * Z) : list Z := peek (u_mem u) p.1 (S (Z.to_nat p.2)).

(** ** Lemmas *)

(** No caller sees a refusal of [argptr]. *)
Lemma argptr_unsigned u n pp size : ((argptr u n pp size).1 <? 0) = false.
Proof. unfold argptr. by destruct (_ || _)%bool. Qed.

(** The length is that of the first NUL, counted from [s]. *)
Lemma scan_nul_spec mem n : forall s len,
  match scan_nul mem s len n with
  | Some r => len <= r < len + Z.of_nat n /\ mem (s + (r - len)) = 0 /\
              forall k, 0 <= k < r - len -> mem (s + k) ≠ 0
  | None => forall k, 0 <= k < Z.of_nat n -> mem (s + k) ≠ 0
  end.
Proof.
  induction n as [|n IH]; intros s len; cbn [scan_nul]; [intros k; lia|].
  destruct (Z.eqb_spec (mem s) 0) as [E|E].
  { rewrite Z.sub_diag, Z.add_0_r. split_and!; [lia|lia|done|lia]. }
  specialize (IH (s + 1) (len + 1)). destruct (scan_nul mem (s + 1) (len + 1) n) as [r|].
  - destruct IH as (Hr & Hz & Hk). split_and!; [lia|lia| |].
    + by replace (s + (r - len)) with (s + 1 + (r - (len + 1))) by lia.
    + intros k Hlt. destruct (decide (k = 0)) as [->|]; [by rewrite Z.add_0_r|].
      replace (s + k) with (s + 1 + (k - 1)) by lia. apply Hk. lia.
  - intros k Hlt. destruct (decide (k = 0)) as [->|]; [by rewrite Z.add_0_r|].
    replace (s + k) with (s + 1 + (k - 1)) by lia. apply IH. lia.
Qed.

(** A string argument is accepted exactly when it lies in mapped user
    memory and ends in a NUL below the process size; the length is that of
    the string, so the kernel reads nothing outside the process. *)
Theorem fetchstr_finds_string u a :
  0 <= a -> u_sz u < 2 ^ 31 ->
  match fetchstr u a with
  | Some (p, len) =>
      p = a /\ user_range u a (len + 1) = true /\ 0 <= len /\
      cstr (ustring u (p, len)) = peek (u_mem u) a (Z.to_nat len) /\ nul_terminated (ustring u (p, len))
  | None => a < PGSIZE \/ u_sz u <= a \/ forall x, a <= x < u_sz u -> u_mem u x ≠ 0
  end.
Proof.
  intros Ha Hsz. unfold fetchstr. destruct (Z.ltb_spec a PGSIZE); cbn [orb]; [by left|].
  destruct (Z.leb_spec (u_sz u) a); [right; by left|].
  pose proof (scan_nul_spec (u_mem u) (Z.to_nat (u_sz u - a)) a 0) as Hs.
  destruct (scan_nul _ _ _ _) as [len|]; cbn [mbind option_bind].
  - rewrite Z2Nat.id, !Z.sub_0_r in Hs by lia. destruct Hs as (Hl & Hz & Hk).
    assert (Hs32 : s32 len = len) by (apply s32_id; unfold is_s32; lia). rewrite Hs32.
    split; [done|]. split; [unfold user_range; apply andb_true_iff; split; apply Z.leb_le; lia|]. split; [lia|].
    assert (E : ustring u (a, len) = peek (u_mem u) a (Z.to_nat len) ++ 0 :: []).
    { unfold ustring. cbn [fst snd]. replace (S (Z.to_nat len)) with (Z.to_nat len + 1)%nat by lia.
      rewrite peek_app. f_equal. cbn. rewrite Z.add_0_r, Z2Nat.id by lia. by rewrite Hz. }
    rewrite E. split; [|unfold nul_terminated; set_solver].
    apply cstr_app_nul. intros (i & Hi)%list_elem_of_lookup_1.
    pose proof (lookup_lt_Some _ _ _ Hi) as Hlt. rewrite length_peek in Hlt. rewrite lookup_peek in Hi by done.
    injection Hi as Hi. by apply (Hk (Z.of_nat i)); [lia|].
  - right; right. intros x Hx. replace x with (a + (x - a)) by lia. apply Hs. lia.
Qed.

Module SyscallInstances.
(** A process of two pages whose memory from 4096 on reads a, b, NUL, ... *)
Definition u0 (p : Z) : uproc :=
  mkUproc 5 0 8192 [p; 16; 0; 0; 0; 0] (fun x => if x =? 4096 then 97 else if x =? 4097 then 98 else 0) (replicate 16 None) 0.

Lemma fetchstr_finds_string_witness :
  fetchstr (u0 4096) 4096 = Some (4096, 2) /\
  match fetchstr (u0 4096) 4096 with
  | Some (p, len) =>
      p = 4096 /\ user_range (u0 4096) 4096 (len + 1) = true /\ 0 <= len /\
      cstr (ustring (u0 4096) (p, len)) = peek (u_mem (u0 4096)) 4096 (Z.to_nat len) /\ nul_terminated (ustring (u0 4096) (p, len))
  | None => 4096 < PGSIZE \/ u_sz (u0 4096) <= 4096 \/ forall x, 4096 <= x < u_sz (u0 4096) -> u_mem (u0 4096) x ≠ 0
  end.
Proof. split; [by vm_compute|]. apply (fetchstr_finds_string (u0 4096) 4096); [lia|cbn; lia]. Defined.
End SyscallInstances.
