(* ===== verification/FileTab.v ===== *)
(** * FileTab: open files (file.c, pipealloc)

    The kernel state that system calls on descriptors work on: the file
    system, the table of open files, pipes, and the processes with their
    descriptor tables.  A file is named by its index in [ftable.file], a pipe
    by its index in the list of all pipes ever allocated. *)
From S2P Require Import Prelude CString FsFormat Ring Bio Log KFs Ipc Pipe Mmu Syscall.

Definition NFILE : nat := 100.

Inductive ftype : Type := FD_NONE | FD_PIPE | FD_INODE | FD_REMOTE.
#[export] Instance ftype_eq_dec : EqDecision ftype.
Proof. solve_decision. Defined.

Record file := mkFile {
  f_type : ftype;
  f_ref : Z;
  f_readable : Z;
  f_writable : Z;
  f_pipe : option nat;
  f_ip : option nat;
  f_off : Z;
  f_remote_fd : Z;
  f_remote_owner : Z;
}.

Definition zero_file : file := mkFile FD_NONE 0 0 0 None None 0 0 0.

Definition set_fref v f :=
  mkFile (f_type f) v (f_readable f) (f_writable f) (f_pipe f) (f_ip f) (f_off f) (f_remote_fd f) (f_remote_owner f).
Definition set_foff v f :=
  mkFile (f_type f) (f_ref f) (f_readable f) (f_writable f) (f_pipe f) (f_ip f) v (f_remote_fd f) (f_remote_owner f).

(** What a process sees of the rest of the system when it talks to the file
    server: who is registered, [ipc_send_msg] and [ipc_recv_msg].  Proc.v
    models the three; here they are an interface. *)
Class IpcEnv (W : Type) := {
  env_fsserver : W -> Z;
  env_send : Z -> Z -> ipc_msg -> M W Z;   (* sender, destination *)
  env_recv : Z -> M W (Z * ipc_msg);
}.

Record kern (W : Type) := mkKern {
  kn_fs : kfs;
  kn_ftable : list file;
  kn_pipes : list (option pipe);   (* [None]: freed *)
  kn_pages : nat;                  (* pages [kalloc] can still return *)
  kn_procs : list uproc;
  kn_reqid : Z;                    (* next_fs_request_id *)
  kn_world : W;
}.
Arguments mkKern {W}.
Arguments kn_fs {W}.
Arguments kn_ftable {W}.
Arguments kn_pipes {W}.
Arguments kn_pages {W}.
Arguments kn_procs {W}.
Arguments kn_reqid {W}.
Arguments kn_world {W}.

Section kern.
Context {W : Type}.
Implicit Types s : kern W.

Definition set_files v s := mkKern (kn_fs s) v (kn_pipes s) (kn_pages s) (kn_procs s) (kn_reqid s) (kn_world s).
Definition set_pipes v n s := mkKern (kn_fs s) (kn_ftable s) v n (kn_procs s) (kn_reqid s) (kn_world s).
Definition set_procs v s := mkKern (kn_fs s) (kn_ftable s) (kn_pipes s) (kn_pages s) v (kn_reqid s) (kn_world s).
Definition set_reqid v s := mkKern (kn_fs s) (kn_ftable s) (kn_pipes s) (kn_pages s) (kn_procs s) v (kn_world s).

Definition on_fs {A} (m : M kfs A) : M (kern W) A := fun s =>
  let '(r, k) := m (kn_fs s) in
  (r, mkKern k (kn_ftable s) (kn_pipes s) (kn_pages s) (kn_procs s) (kn_reqid s) (kn_world s)).
Definition on_world {A} (m : M W A) : M (kern W) A := fun s =>
  let '(r, w) := m (kn_world s) in
  (r, mkKern (kn_fs s) (kn_ftable s) (kn_pipes s) (kn_pages s) (kn_procs s) (kn_reqid s) w).

Definition the_file (i : nat) : M (kern W) file :=
  s ← getS; of_option OutOfBounds (kn_ftable s !! i).
Definition upd_file (i : nat) (f : file -> file) : M (kern W) unit :=
  modify (fun s => set_files (alter f i (kn_ftable s)) s).

Definition the_pipe (o : option nat) : M (kern W) (nat * pipe) :=
  i ← of_option NullDeref o;
  s ← getS;
  p ← of_option OutOfBounds (mjoin (kn_pipes s !! i));
  mret (i, p).
Definition set_pipe (i : nat) (p : pipe) : M (kern W) unit :=
  modify (fun s => set_pipes (<[i := Some p]> (kn_pipes s)) (kn_pages s) s).

(** ** file.c *)

Definition filealloc : M (kern W) (option nat) :=
  s ← getS;
  match List.find (fun i => match kn_ftable s !! i with Some f => f_ref f =? 0 | None => false end)
                  (seq 0 (length (kn_ftable s))) with
  | Some i => upd_file i (fun _ => mkFile FD_NONE 1 0 0 None None 0 (-1) (-1));; mret (Some i)
  | None => mret None
  end.

Definition filedup (i : nat) : M (kern W) nat :=
  f ← the_file i;
  if f_ref f <? 1 then panic "filedup"
  else upd_file i (set_fref (f_ref f + 1));; mret i.

(** [pipeclose] on the pipe table: the page of a pipe closed at both ends
    goes back to the allocator. *)
Definition close_pipe (o : option nat) (writable : Z) : M (kern W) unit :=
  ip ← the_pipe o;
  match pipeclose (negb (writable =? 0)) ip.2 with
  | Some p => set_pipe ip.1 p
  | None => modify (fun s => set_pipes (<[ip.1 := None]> (kn_pipes s)) (S (kn_pages s)) s)
  end.

Section running.
(** [proc->pid] and [proc->killed] of the running process, and the device
    switch. *)
Context (mypid : Z) (killed : bool).
Context (devsw_read : Z -> option (nat -> Z -> Z -> M kfs (Z * list Z))).
Context (devsw_write : Z -> option (nat -> Z -> list Z -> Z -> M kfs Z)).

Definition fileclose (i : nat) : M (kern W) unit :=
  f ← the_file i;
  if f_ref f <? 1 then panic "fileclose"
  else if 0 <? f_ref f - 1 then upd_file i (set_fref (f_ref f - 1))
  else
    upd_file i (fun f => mkFile FD_NONE 0 (f_readable f) (f_writable f) (f_pipe f) (f_ip f) (f_off f) (-1) (-1));;
    match f_type f with
    | FD_PIPE => close_pipe (f_pipe f) (f_writable f)
    | FD_INODE =>
        on_fs (on_log begin_op;;
               ip ← of_option NullDeref (f_ip f);
               iput mypid ip;;
               on_log (end_op mypid))
    | FD_REMOTE | FD_NONE => mret tt
    end.

(** [None]: the result is -1. *)
Definition filestat (i : nat) : M (kern W) (option stat) :=
  f ← the_file i;
  match f_type f with
  | FD_INODE =>
      on_fs (ilock mypid (f_ip f);;
             ip ← of_option NullDeref (f_ip f);
             st ← stati ip;
             iunlock (f_ip f);;
             mret (Some st))
  | _ => mret None
  end.

(** The result and the bytes stored at [addr]. *)
Definition fileread (i : nat) (n : Z) : M (kern W) (Z * list Z) :=
  f ← the_file i;
  if f_readable f =? 0 then mret (-1, [])
  else
    match f_type f with
    | FD_PIPE =>
        ip ← the_pipe (f_pipe f);
        let '(st, p) := piperead killed n ip.2 in
        set_pipe ip.1 p;;
        match st with
        | RDone r bytes => mret (r, bytes)
        | RFailed => mret (-1, [])
        | RSleep => halt_with WouldBlock
        end
    | FD_INODE =>
        r ← on_fs (ilock mypid (f_ip f);;
                   ip ← of_option NullDeref (f_ip f);
                   readi mypid devsw_read ip (f_off f) (u32 n));
        when (0 <? r.1) (upd_file i (set_foff (u32 (f_off f + r.1))));;
        on_fs (iunlock (f_ip f));;
        mret r
    | _ => panic "fileread"
    end.

(** [int max = ((LOGSIZE-1-1-2) / 2) * 512;] *)
Definition write_max : Z := (LOGSIZE - 1 - 1 - 2) / 2 * 512.

(** One round of the loop of [filewrite] on [i]. *)
Definition filewrite_step (k : nat) (src : list Z) (n i : Z) : M (kern W) (Z + Z) :=
  if i <? n then
    let n1 := Z.min (n - i) write_max in
    f ← the_file k;
    r ← on_fs (on_log begin_op;;
               ilock mypid (f_ip f);;
               ip ← of_option NullDeref (f_ip f);
               writei mypid devsw_write ip (drop (Z.to_nat i) src) (f_off f) (u32 n1));
    when (0 <? r) (upd_file k (set_foff (u32 (f_off f + r))));;
    on_fs (iunlock (f_ip f);; on_log (end_op mypid));;
    if r <? 0 then mret (inr i)
    else if negb (r =? n1) then panic "short filewrite"
    else mret (inl (i + r))
  else mret (inr i).

Definition filewrite (k : nat) (src : list Z) (n : Z) : M (kern W) Z :=
  f ← the_file k;
  if f_writable f =? 0 then mret (-1)
  else
    match f_type f with
    | FD_PIPE =>
        ip ← the_pipe (f_pipe f);
        let '(st, p) := pipewrite killed n src ip.2 in
        set_pipe ip.1 p;;
        match wresult st with
        | Some r => mret r
        | None => halt_with WouldBlock
        end
    | FD_INODE =>
        i ← while (S (Z.to_nat n)) (filewrite_step k src n) 0;
        mret (if i =? n then n else -1)
    | _ => panic "filewrite"
    end.

(** ** pipealloc *)

(** [kalloc] panics when no page is left; a page it returns was filled with
    ones by [kfree]. *)
Definition kalloc_pipe : M (kern W) nat :=
  s ← getS;
  match kn_pages s with
  | O => panic "Out of memory!"
  | S n => modify (set_pipes (kn_pipes s ++ [Some (pipe_init (replicate 512 1))]) n);; mret (length (kn_pipes s))
  end.

(** The two ends, or [None] for -1. *)
Definition pipealloc : M (kern W) (option (nat * nat)) :=
  f0 ← filealloc;
  match f0 with
  | None => mret None
  | Some f0 =>
      f1 ← filealloc;
      match f1 with
      | None => fileclose f0;; mret None
      | Some f1 =>
          p ← kalloc_pipe;
          upd_file f0 (fun f => mkFile FD_PIPE (f_ref f) 1 0 (Some p) (f_ip f) (f_off f) (f_remote_fd f) (f_remote_owner f));;
          upd_file f1 (fun f => mkFile FD_PIPE (f_ref f) 0 1 (Some p) (f_ip f) (f_off f) (f_remote_fd f) (f_remote_owner f));;
          mret (Some (f0, f1))
      end
  end.
End running.
End kern.
