(* ===== verification/SysFile.v ===== *)
(** * SysFile: the file system calls (sysfile.c)

    Every handler, with its argument checks, its local path through file.c
    and fs.c, and its remote path: the request to the file server, the reply
    and what the caller does with it.  Handlers run for process [cur]; a
    handler halts with [OutOfBounds] where the kernel would access memory
    through a pointer that is not into the mapped memory of the caller.

    [argptr] answers an [addr_t], which is unsigned, so the tests
    [argptr(...) < 0] never hold.  After a refused argument the handlers go on
    with the pointer variable as it was on the stack: the argument [p] of
    [sys_read], [sys_write], [sys_fstat] and [sys_pipe]. *)
From S2P Require Import Prelude CString FsFormat Ring Bio Log KFs Ipc Pipe Mmu Syscall FileTab.


Definition set_ofile v u := mkUproc (u_pid u) (u_killed u) (u_sz u) (u_regs u) (u_mem u) v (u_cwd u).
Definition set_cwd v u := mkUproc (u_pid u) (u_killed u) (u_sz u) (u_regs u) (u_mem u) (u_ofile u) v.
Definition set_umem v u := mkUproc (u_pid u) (u_killed u) (u_sz u) (u_regs u) v (u_ofile u) (u_cwd u).

(** A request with every field zero but the ones given. *)
Definition request (type fd flags nbytes : Z) (path data : list Z) : ipc_msg :=
  mkMsg 0 0 type fd flags nbytes 0 0 path data.
Definition zero_path : list Z := replicate 64 0.
Definition zero_data : list Z := replicate 128 0.
Definition set_request_id (v : Z) (m : ipc_msg) : ipc_msg :=
  mkMsg (m_sender_pid m) v (m_type m) (m_fd m) (m_flags m) (m_nbytes m) (m_result m) (m_error m) (m_path m) (m_data m).

Definition DOT : list Z := [46; 0].
Definition DOTDOT : list Z := [46; 46; 0].

Definition upd_nlink (d : Z) (i : nat) : M kfs unit :=
  upd_din i (fun n => mkDinode (di_type n) (di_major n) (di_minor n) (s16 (di_nlink n + d)) (di_size n) (di_addrs n)).

Section fs_part.
(** The part of each handler that runs on the file system. *)
Context (mypid : Z) (cwd : nat).
Context (devsw_read : Z -> option (nat -> Z -> Z -> M kfs (Z * list Z))).
Context (devsw_write : Z -> option (nat -> Z -> list Z -> Z -> M kfs Z)).

Abbreviation end_op' := (on_log (end_op mypid)).
Abbreviation namei' p := (namei mypid cwd devsw_read p).
Abbreviation nameiparent' p := (nameiparent mypid cwd devsw_read p (replicate DIRSIZ 0)).
Abbreviation ilock' i := (ilock mypid (Some i)).
Abbreviation iunlock' i := (iunlock (Some i)).
Abbreviation iunlockput' i := (iunlockput mypid i).

(** [1]: empty except for [.] and [..]. *)
Definition isdirempty (dp : nat) : M kfs Z :=
  d ← the_inode dp;
  r ← for_each (for_range 32 (di_size (i_din d)) 16) (fun off =>
    rd ← readi mypid devsw_read dp off 16;
    if negb (rd.1 =? 16) then panic "isdirempty: readi"
    else if negb (de_inum (decode_dirent rd.2) =? 0) then mret (Some 0) else mret None);
  mret (default 1 r).

(** The label [bad] of [sys_link]. *)
Definition link_bad (ip : nat) : M kfs Z :=
  ilock' ip;;
  upd_nlink (-1) ip;;
  iupdate mypid ip;;
  iunlockput' ip;;
  end_op';;
  mret (-1).

Definition link_op (old new : list Z) : M kfs Z :=
  on_log begin_op;;
  ip ← namei' old;
  match ip with
  | None => end_op';; mret (-1)
  | Some ip =>
      ilock' ip;;
      n ← the_inode ip;
      if di_type (i_din n) =? T_DIR then iunlockput' ip;; end_op';; mret (-1)
      else
        upd_nlink 1 ip;;
        iupdate mypid ip;;
        iunlock' ip;;
        r ← nameiparent' new;
        match r with
        | (None, _) => link_bad ip
        | (Some dp, name) =>
            ilock' dp;;
            d ← the_inode dp;
            n ← the_inode ip;
            bad ← (if negb (i_dev d =? i_dev n) then mret true
                   else r ← dirlink mypid devsw_read devsw_write dp name (i_inum n); mret (r <? 0));
            if bad : bool then iunlockput' dp;; link_bad ip
            else iunlockput' dp;; iput mypid ip;; end_op';; mret 0
        end
  end.

(** The label [bad] of [sys_unlink]. *)
Definition unlink_bad (dp : nat) : M kfs Z := iunlockput' dp;; end_op';; mret (-1).

Definition unlink_op (path : list Z) : M kfs Z :=
  on_log begin_op;;
  r ← nameiparent' path;
  match r with
  | (None, _) => end_op';; mret (-1)
  | (Some dp, name) =>
      ilock' dp;;
      c1 ← of_option OutOfBounds (namecmp name DOT);
      c2 ← of_option OutOfBounds (namecmp name DOTDOT);
      if ((c1 =? 0) || (c2 =? 0))%bool then unlink_bad dp
      else
        r ← dirlookup mypid devsw_read dp name;
        match r with
        | None => unlink_bad dp
        | Some (ip, off) =>
            ilock' ip;;
            n ← the_inode ip;
            if di_nlink (i_din n) <? 1 then panic "unlink: nlink < 1"
            else
              full ← (if di_type (i_din n) =? T_DIR then e ← isdirempty ip; mret (e =? 0) else mret false);
              if full : bool then iunlockput' ip;; unlink_bad dp
              else
                w ← writei mypid devsw_write dp (replicate 16 0) off 16;
                if negb (w =? 16) then panic "unlink: writei"
                else
                  n ← the_inode ip;
                  when (di_type (i_din n) =? T_DIR) (upd_nlink (-1) dp;; iupdate mypid dp);;
                  iunlockput' dp;;
                  upd_nlink (-1) ip;;
                  iupdate mypid ip;;
                  iunlockput' ip;;
                  end_op';;
                  mret 0
        end
  end.

(** The inode, locked, or [None]. *)
Definition create (path : list Z) (type major minor : Z) : M kfs (option nat) :=
  r ← nameiparent' path;
  match r with
  | (None, _) => mret None
  | (Some dp, name) =>
      ilock' dp;;
      r ← dirlookup mypid devsw_read dp name;
      match r with
      | Some (ip, _) =>
          iunlockput' dp;;
          ilock' ip;;
          n ← the_inode ip;
          if ((type =? T_FILE) && (di_type (i_din n) =? T_FILE))%bool then mret (Some ip)
          else iunlockput' ip;; mret None
      | None =>
          d ← the_inode dp;
          ip ← ialloc mypid (i_dev d) type;
          ilock' ip;;
          upd_din ip (fun n => mkDinode (di_type n) major minor 1 (di_size n) (di_addrs n));;
          iupdate mypid ip;;
          n ← the_inode ip;
          when (type =? T_DIR) (
            upd_nlink 1 dp;;
            iupdate mypid dp;;
            r1 ← dirlink mypid devsw_read devsw_write ip DOT (i_inum n);
            bad ← (if r1 <? 0 then mret true
                   else r2 ← dirlink mypid devsw_read devsw_write ip DOTDOT (i_inum d); mret (r2 <? 0));
            if bad : bool then panic "create dots" else mret tt);;
          r ← dirlink mypid devsw_read devsw_write dp name (i_inum n);
          if r <? 0 then panic "create: dirlink"
          else iunlockput' dp;; mret (Some ip)
      end
  end.

(** The inode [sys_open] goes on with, locked and inside the transaction;
    [None]: the call has failed and the transaction is over. *)
Definition open_inode (path : list Z) (omode : Z) : M kfs (option nat) :=
  on_log begin_op;;
  if negb (Z.land omode O_CREATE =? 0) then
    ip ← create path T_FILE 0 0;
    match ip with
    | None => end_op';; mret None
    | Some ip => mret (Some ip)
    end
  else
    ip ← namei' path;
    match ip with
    | None => end_op';; mret None
    | Some ip =>
        ilock' ip;;
        n ← the_inode ip;
        if ((di_type (i_din n) =? T_DIR) && negb (omode =? O_RDONLY))%bool
        then iunlockput' ip;; end_op';; mret None
        else mret (Some ip)
    end.

(** [sys_mkdir] and [sys_mknod] after their arguments ([None]: a bad one). *)
Definition make_op (path : option (list Z)) (type major minor : Z) : M kfs Z :=
  on_log begin_op;;
  ip ← match path with None => mret None | Some p => create p type major minor end;
  match ip with
  | None => end_op';; mret (-1)
  | Some ip => iunlockput' ip;; end_op';; mret 0
  end.

(** The new working directory. *)
Definition chdir_op (path : option (list Z)) : M kfs (option nat) :=
  on_log begin_op;;
  ip ← match path with None => mret None | Some p => namei' p end;
  match ip with
  | None => end_op';; mret None
  | Some ip =>
      ilock' ip;;
      n ← the_inode ip;
      if negb (di_type (i_din n) =? T_DIR) then iunlockput' ip;; end_op';; mret None
      else iunlock' ip;; iput mypid cwd;; end_op';; mret (Some ip)
  end.
End fs_part.

Section handlers.
Context {W : Type} `{IpcEnv W}.
Implicit Types s : kern W.
Context (devsw_read : Z -> option (nat -> Z -> Z -> M kfs (Z * list Z))).
Context (devsw_write : Z -> option (nat -> Z -> list Z -> Z -> M kfs Z)).
(** The running process. *)
Context (cur : nat).

Definition the_proc : M (kern W) uproc := s ← getS; of_option OutOfBounds (kn_procs s !! cur).
Definition upd_proc (f : uproc -> uproc) : M (kern W) unit :=
  modify (fun s => set_procs (alter f cur (kn_procs s)) s).

(** Accesses to user memory through a pointer argument. *)
Definition uread (a n : Z) : M (kern W) (list Z) :=
  u ← the_proc;
  if ((n <=? 0) || user_range u a n)%bool then mret (peek (u_mem u) a (Z.to_nat n)) else halt_with OutOfBounds.
Definition uwrite (a : Z) (bs : list Z) : M (kern W) unit :=
  u ← the_proc;
  if ((length bs =? 0)%nat || user_range u a (Z.of_nat (length bs)))%bool
  then upd_proc (fun u => set_umem (poke a bs (u_mem u)) u) else halt_with OutOfBounds.

(** ** Talking to the file server *)

Definition fsserver_active : M (kern W) bool :=
  s ← getS;
  u ← the_proc;
  mret ((0 <? env_fsserver (kn_world s)) && negb (env_fsserver (kn_world s) =? u_pid u))%bool.

Definition fs_ipc_call (req : ipc_msg) : M (kern W) (option ipc_msg) :=
  s ← getS;
  u ← the_proc;
  let server_pid := env_fsserver (kn_world s) in
  if server_pid <? 0 then mret None
  else
    let request_id := kn_reqid s in
    modify (set_reqid (s32 (request_id + 1)));;
    r ← on_world (env_send (u_pid u) server_pid (set_request_id request_id req));
    if r <? 0 then mret None
    else
      rep ← on_world (env_recv (u_pid u));
      if rep.1 <? 0 then mret None
      else if (negb (m_type rep.2 =? IPC_TYPE_FS_REPLY) || negb (m_request_id rep.2 =? request_id))%bool
      then mret None
      else mret (Some rep.2).

(** ** Descriptors *)

(** The descriptor and the file, or [None] for -1. *)
Definition argfd (n : nat) : M (kern W) (option (nat * nat)) :=
  u ← the_proc;
  let fd := argint u n in
  if ((fd <? 0) || (Z.of_nat NOFILE <=? fd))%bool then mret None
  else
    match u_ofile u !! Z.to_nat fd with
    | Some (Some f) => mret (Some (Z.to_nat fd, f))
    | _ => mret None
    end.

Definition fdalloc (f : nat) : M (kern W) Z :=
  u ← the_proc;
  match List.find (fun fd => match u_ofile u !! fd with Some None => true | _ => false end) (seq 0 NOFILE) with
  | Some fd => upd_proc (fun u => set_ofile (<[fd := Some f]> (u_ofile u)) u);; mret (Z.of_nat fd)
  | None => mret (-1)
  end.

Definition set_fd (fd : nat) (v : option nat) : M (kern W) unit :=
  upd_proc (fun u => set_ofile (<[fd := v]> (u_ofile u)) u).

Abbreviation closef f := (u ← the_proc; fileclose (u_pid u) f).

Definition sys_dup : M (kern W) Z :=
  r ← argfd 0;
  match r with
  | None => mret (-1)
  | Some (_, k) =>
      f ← the_file k;
      if decide (f_type f = FD_REMOTE) then mret (-1)
      else
        fd ← fdalloc k;
        if fd <? 0 then mret (-1) else filedup k;; mret fd
  end.

(** [total > 0 ? total : -1] *)
Definition so_far (total : Z) : Z := if 0 <? total then total else -1.

(** One round of the remote loop of [sys_read] on [total]. *)
Definition remote_read_step (remote_fd p n total : Z) : M (kern W) (Z + Z) :=
  if total <? n then
    let chunk := Z.min (n - total) IPC_DATA_SIZE in
    r ← fs_ipc_call (request IPC_TYPE_FS_READ remote_fd 0 chunk zero_path zero_data);
    match r with
    | None => mret (inr (so_far total))
    | Some reply =>
        if m_result reply <? 0 then mret (inr (so_far total))
        else if m_result reply <? m_nbytes reply then mret (inr (so_far total))
        else if m_result reply =? 0 then mret (inr total)
        else if IPC_DATA_SIZE <? m_result reply then halt_with OutOfBounds
        else
          uwrite (p + total) (take (Z.to_nat (m_result reply)) (m_data reply));;
          let total := total + m_result reply in
          if m_result reply <? chunk then mret (inr total) else mret (inl total)
    end
  else mret (inr total).

Definition sys_read (p : Z) : M (kern W) Z :=
  r ← argfd 0;
  u ← the_proc;
  match r with
  | None => mret (-1)
  | Some (_, k) =>
      let n := argint u 2 in
      let '(e, p) := argptr u 1 p n in
      if e <? 0 then mret (-1)
      else
        f ← the_file k;
        if decide (f_type f = FD_REMOTE) then
          while (S (Z.to_nat n)) (remote_read_step (f_remote_fd f) p n) 0
        else
          r ← fileread (u_pid u) (negb (u_killed u =? 0)) devsw_read k n;
          uwrite p r.2;;
          mret r.1
  end.

(** One round of the remote loop of [sys_write] on [total]. *)
Definition remote_write_step (remote_fd p n total : Z) : M (kern W) (Z + Z) :=
  if total <? n then
    let chunk := Z.min (n - total) IPC_DATA_SIZE in
    bytes ← uread (p + total) chunk;
    r ← fs_ipc_call (request IPC_TYPE_FS_WRITE remote_fd 0 chunk zero_path (splice 0 bytes zero_data));
    match r with
    | None => mret (inr (so_far total))
    | Some reply =>
        if m_result reply <? 0 then mret (inr (so_far total))
        else if m_result reply =? 0 then mret (inr total)
        else
          let total := s32 (total + m_result reply) in
          if m_result reply <? chunk then mret (inr total) else mret (inl total)
    end
  else mret (inr total).

Definition sys_write (p : Z) : M (kern W) Z :=
  r ← argfd 0;
  u ← the_proc;
  match r with
  | None => mret (-1)
  | Some (_, k) =>
      let n := argint u 2 in
      let '(e, p) := argptr u 1 p n in
      if e <? 0 then mret (-1)
      else
        f ← the_file k;
        if decide (f_type f = FD_REMOTE) then
          while (S (Z.to_nat n)) (remote_write_step (f_remote_fd f) p n) 0
        else if f_writable f =? 0 then mret (-1)
        else
          src ← uread p n;
          filewrite (u_pid u) (negb (u_killed u =? 0)) devsw_write k src n
  end.

Definition sys_close : M (kern W) Z :=
  r ← argfd 0;
  match r with
  | None => mret (-1)
  | Some (fd, k) =>
      f ← the_file k;
      result ← (if decide (f_type f = FD_REMOTE) then
                  r ← fs_ipc_call (request IPC_TYPE_FS_CLOSE (f_remote_fd f) 0 0 zero_path zero_data);
                  mret (match r with Some reply => m_result reply | None => -1 end)
                else mret 0);
      set_fd fd None;;
      closef k;;
      mret result
  end.

(** The fields [stati] stores, at their offsets in [struct stat]. *)
Definition put_stat (p : Z) (st : stat) : M (kern W) unit :=
  uwrite (p + 4) (le_bytes 4 (st_dev st));;
  uwrite (p + 8) (le_bytes 4 (st_ino st));;
  uwrite p (le_bytes 2 (st_type st));;
  uwrite (p + 12) (le_bytes 2 (st_nlink st));;
  uwrite (p + 16) (le_bytes 4 (st_size st)).

Definition sys_fstat (p : Z) : M (kern W) Z :=
  r ← argfd 0;
  u ← the_proc;
  match r with
  | None => mret (-1)
  | Some (_, k) =>
      let '(e, p) := argptr u 1 p 20 in
      if e <? 0 then mret (-1)
      else
        st ← filestat (u_pid u) k;
        match st with
        | Some st => put_stat p st;; mret 0
        | None => mret (-1)
        end
  end.

(** [(f = filealloc()) == 0 || (fd = fdalloc(f)) < 0], and the [fileclose]
    of a file that got no descriptor. *)
Definition alloc_file_fd : M (kern W) (option (nat * Z)) :=
  f ← filealloc;
  match f with
  | None => mret None
  | Some k =>
      fd ← fdalloc k;
      if fd <? 0 then closef k;; mret None else mret (Some (k, fd))
  end.

Definition omode_readable (omode : Z) : Z := if Z.land omode O_WRONLY =? 0 then 1 else 0.
Definition omode_writable (omode : Z) : Z :=
  if (negb (Z.land omode O_WRONLY =? 0) || negb (Z.land omode O_RDWR =? 0))%bool then 1 else 0.

Definition open_remote (path : list Z) (omode : Z) : M (kern W) Z :=
  len ← of_option OutOfBounds (strlen path);
  if IPC_PATH_SIZE <=? Z.of_nat len then mret (-1)
  else
    rpath ← of_option OutOfBounds (safestrcpy zero_path path IPC_PATH_SIZE);
    r ← fs_ipc_call (request IPC_TYPE_FS_OPEN 0 omode 0 rpath zero_data);
    match r with
    | None => mret (-1)
    | Some reply =>
        if m_result reply <? 0 then mret (-1)
        else
          a ← alloc_file_fd;
          match a with
          | None =>
              _ ← fs_ipc_call (request IPC_TYPE_FS_CLOSE (m_fd reply) 0 0 zero_path zero_data);
              mret (-1)
          | Some (k, fd) =>
              s ← getS;
              upd_file k (fun f => mkFile FD_REMOTE (f_ref f) (omode_readable omode) (omode_writable omode)
                                          None None 0 (m_fd reply) (env_fsserver (kn_world s)));;
              mret fd
          end
    end.

Definition open_local (path : list Z) (omode : Z) : M (kern W) Z :=
  u ← the_proc;
  ip ← on_fs (open_inode (u_pid u) (u_cwd u) devsw_read devsw_write path omode);
  match ip with
  | None => mret (-1)
  | Some ip =>
      a ← alloc_file_fd;
      match a with
      | None => on_fs (iunlockput (u_pid u) ip;; on_log (end_op (u_pid u)));; mret (-1)
      | Some (k, fd) =>
          on_fs (iunlock (Some ip);; on_log (end_op (u_pid u)));;
          upd_file k (fun f => mkFile FD_INODE (f_ref f) (omode_readable omode) (omode_writable omode)
                                      (f_pipe f) (Some ip) 0 (f_remote_fd f) (f_remote_owner f));;
          mret fd
      end
  end.

Definition sys_open : M (kern W) Z :=
  u ← the_proc;
  match argstr u 0 with
  | None => mret (-1)
  | Some p =>
      remote ← fsserver_active;
      if remote : bool then open_remote (ustring u p) (argint u 1) else open_local (ustring u p) (argint u 1)
  end.

Definition sys_link : M (kern W) Z :=
  u ← the_proc;
  match argstr u 0, argstr u 1 with
  | Some old, Some new =>
      on_fs (link_op (u_pid u) (u_cwd u) devsw_read devsw_write (ustring u old) (ustring u new))
  | _, _ => mret (-1)
  end.

Definition sys_unlink : M (kern W) Z :=
  u ← the_proc;
  match argstr u 0 with
  | Some p => on_fs (unlink_op (u_pid u) (u_cwd u) devsw_read devsw_write (ustring u p))
  | None => mret (-1)
  end.

Definition sys_mkdir : M (kern W) Z :=
  u ← the_proc;
  on_fs (make_op (u_pid u) (u_cwd u) devsw_read devsw_write (ustring u <$> argstr u 0) T_DIR 0 0).

Definition sys_mknod : M (kern W) Z :=
  u ← the_proc;
  on_fs (make_op (u_pid u) (u_cwd u) devsw_read devsw_write (ustring u <$> argstr u 0) T_DEV
                 (s16 (argint u 1)) (s16 (argint u 2))).

Definition sys_chdir : M (kern W) Z :=
  u ← the_proc;
  r ← on_fs (chdir_op (u_pid u) (u_cwd u) devsw_read (ustring u <$> argstr u 0));
  match r with
  | None => mret (-1)
  | Some ip => upd_proc (set_cwd ip);; mret 0
  end.

(** The loop of [sys_exec] that collects the argument strings: [fuel] is the
    number of entries of [argv] left, [i] the index. *)
Fixpoint exec_args (u : uproc) (uargv : Z) (i : Z) (fuel : nat) : option (list (Z * Z)) :=
  match fuel with
  | O => None
  | S fuel =>
      uarg ← fetchaddr u (u64 (uargv + 8 * i));
      if uarg =? 0 then Some []
      else
        a ← fetchstr u uarg;
        rest ← exec_args u uargv (i + 1) fuel;
        Some (a :: rest)
  end.

(** The path and the arguments [sys_exec] calls [exec] with; [None] for -1. *)
Definition sys_exec_args (u : uproc) : option (list Z * list (list Z)) :=
  match argstr u 0, exec_args u (argaddr u 1) 0 MAXARG with
  | Some path, Some argv => Some (ustring u path, map (ustring u) argv)
  | _, _ => None
  end.

Definition sys_pipe (p : Z) : M (kern W) Z :=
  u ← the_proc;
  let '(e, p) := argptr u 0 p 8 in
  if e <? 0 then mret (-1)
  else
    r ← pipealloc (u_pid u);
    match r with
    | None => mret (-1)
    | Some (rf, wf) =>
        fd0 ← fdalloc rf;
        fd1 ← (if fd0 <? 0 then mret (-1) else fdalloc wf);
        if ((fd0 <? 0) || (fd1 <? 0))%bool then
          when (0 <=? fd0) (set_fd (Z.to_nat fd0) None);;
          closef rf;;
          closef wf;;
          mret (-1)
        else
          uwrite p (le_bytes 4 fd0);;
          uwrite (p + 4) (le_bytes 4 fd1);;
          mret 0
    end.

(** ** Descriptors across fork and exit (proc.c) *)

(** [fork] gives the child in slot [np] the parent's files and directory. *)
Definition fork_files (np : nat) : M (kern W) unit :=
  u ← the_proc;
  for_each (R := unit) (seq 0 NOFILE) (fun i =>
    match u_ofile u !! i with
    | Some (Some k) =>
        filedup k;;
        modify (fun s => set_procs (alter (fun c => set_ofile (<[i := Some k]> (u_ofile c)) c) np (kn_procs s)) s);;
        mret None
    | _ => mret None
    end);;
  on_fs (idup (u_cwd u));;
  modify (fun s => set_procs (alter (set_cwd (u_cwd u)) np (kn_procs s)) s).

(** [exit] closes every descriptor and drops the working directory. *)
Definition exit_files : M (kern W) unit :=
  for_each (R := unit) (seq 0 NOFILE) (fun fd =>
    u ← the_proc;
    match u_ofile u !! fd with
    | Some (Some k) => fileclose (u_pid u) k;; set_fd fd None;; mret None
    | _ => mret None
    end);;
  u ← the_proc;
  on_fs (on_log begin_op;; iput (u_pid u) (u_cwd u);; on_log (end_op (u_pid u))).
End handlers.
