(* ===== verification/FileInv.v ===== *)
(** * FileInv: reference counts and pipe ends

    The invariant of the table of open files: a file is referenced by exactly
    [f_ref] descriptors, and a pipe exists exactly as long as a file refers to
    one of its ends.  [tinv d s] allows the count of file [k] to be [d k] more
    than its descriptors, for references a handler holds in a local
    variable. *)
From S2P Require Import Prelude CString FsFormat Ring Bio Log KFs Ipc Pipe Mmu Syscall FileTab SysFile.

(** ** Counting references *)

Fixpoint zsum (l : list Z) : Z := match l with [] => 0 | x :: l => x + zsum l end.

Lemma zsum_insert l i a b : l !! i = Some a -> zsum (<[i := b]> l) = zsum l - a + b.
Proof.
  revert i. induction l as [|x l IH]; intros i Hi; [done|]. destruct i as [|i]; cbn in Hi.
  - injection Hi as ->. cbn. lia.
  - change (<[S i := b]> (x :: l)) with (x :: <[i := b]> l). cbn [zsum]. rewrite (IH i Hi). lia.
Qed.

Definition is_ref (k : nat) (o : option nat) : bool := bool_decide (o = Some k).
Definition refs1 (k : nat) (l : list (option nat)) : Z := Z.of_nat (length (filter (fun o => is_ref k o) l)).
Definition nrefs (k : nat) (ofs : list (list (option nat))) : Z := zsum (refs1 k <$> ofs).

Lemma refs1_insert k l i a b :
  l !! i = Some a -> refs1 k (<[i := b]> l) = refs1 k l - (if is_ref k a then 1 else 0) + (if is_ref k b then 1 else 0).
Proof.
  intros Hi. unfold refs1. revert i Hi. induction l as [|x l IH]; intros i Hi; [done|].
  destruct i as [|i]; cbn in Hi.
  - injection Hi as ->. change (<[0%nat := b]> (a :: l)) with (b :: l). rewrite !filter_cons.
    destruct (is_ref k a) eqn:Ea, (is_ref k b) eqn:Eb; repeat case_decide; cbn [length]; (lia || congruence || done).
  - change (<[S i := b]> (x :: l)) with (x :: <[i := b]> l). rewrite !filter_cons. specialize (IH i Hi).
    destruct (decide (is_ref k x)); cbn [length]; lia.
Qed.

Lemma refs1_nonneg k l : 0 <= refs1 k l.
Proof. unfold refs1. lia. Qed.

Lemma nrefs_nonneg k ofs : 0 <= nrefs k ofs.
Proof. unfold nrefs. induction ofs as [|l ofs IH]; cbn; [lia|]. pose proof (refs1_nonneg k l). lia. Qed.

Lemma nrefs_insert k ofs p l l' :
  ofs !! p = Some l -> nrefs k (<[p := l']> ofs) = nrefs k ofs - refs1 k l + refs1 k l'.
Proof. intros Hp. unfold nrefs. rewrite list_fmap_insert. apply zsum_insert. by rewrite list_lookup_fmap, Hp. Qed.

Lemma nrefs_set k ofs p l fd a b :
  ofs !! p = Some l -> l !! fd = Some a ->
  nrefs k (<[p := <[fd := b]> l]> ofs) = nrefs k ofs - (if is_ref k a then 1 else 0) + (if is_ref k b then 1 else 0).
Proof. intros Hp Hl. rewrite (nrefs_insert k ofs p l) by done. rewrite (refs1_insert k l fd a) by done. lia. Qed.

Lemma refs1_pos k l : 0 < refs1 k l <-> Some k ∈ l.
Proof.
  unfold refs1. split.
  - intros H. destruct (filter _ l) as [|o l'] eqn:E; [cbn in H; lia|].
    assert (Ho : o ∈ filter (fun o => is_ref k o) l) by (rewrite E; left).
    apply list_elem_of_filter in Ho as [Ho ?]. apply Is_true_true, bool_decide_eq_true in Ho. by subst.
  - intros H. assert (Ho : Some k ∈ filter (fun o => is_ref k o) l).
    { apply list_elem_of_filter. split; [|done]. apply Is_true_true. by apply bool_decide_eq_true. }
    destruct (filter _ l); [by apply elem_of_nil in Ho|cbn; lia].
Qed.

Lemma nrefs_pos k ofs p l fd : ofs !! p = Some l -> l !! fd = Some (Some k) -> 0 < nrefs k ofs.
Proof.
  intros Hp Hl. unfold nrefs. revert p Hp. induction ofs as [|x ofs IH]; intros p Hp; [done|]. cbn.
  pose proof (nrefs_nonneg k ofs) as Hn. unfold nrefs in Hn. destruct p as [|p]; cbn in Hp.
  - injection Hp as ->. assert (0 < refs1 k l) by (apply refs1_pos; by eapply list_elem_of_lookup_2). lia.
  - specialize (IH p Hp). pose proof (refs1_nonneg k x). lia.
Qed.

(** ** Pipes and their ends *)

Definition is_end (i : nat) (wr : bool) (f : file) : Prop :=
  f_type f = FD_PIPE /\ f_pipe f = Some i /\ negb (f_writable f =? 0) = wr.
Definition end_open (wr : bool) (p : pipe) : Prop := (if wr then pp_writeopen p else pp_readopen p) ≠ 0.

Lemma is_end_fun i i' wr wr' f : is_end i wr f -> is_end i' wr' f -> i = i' /\ wr = wr'.
Proof. unfold is_end. intros (_ & ? & ?) (_ & ? & ?). split; congruence. Qed.

Record pipes_ok (files : list file) (pipes : list (option pipe)) : Prop := {
  pk_live k f : files !! k = Some f -> f_type f = FD_PIPE ->
    exists i p wr, is_end i wr f /\ pipes !! i = Some (Some p) /\ end_open wr p;
  pk_uniq k k' f f' i wr : files !! k = Some f -> files !! k' = Some f' -> is_end i wr f -> is_end i wr f' -> k = k';
  pk_ends i p wr : pipes !! i = Some (Some p) -> end_open wr p -> exists k f, files !! k = Some f /\ is_end i wr f;
  pk_open i p : pipes !! i = Some (Some p) -> exists wr, end_open wr p;
}.

(** A file that is no pipe, before and after, does not matter. *)
Lemma pipes_ok_insert files pipes k f f' :
  pipes_ok files pipes -> files !! k = Some f ->
  f_type f ≠ FD_PIPE -> f_type f' ≠ FD_PIPE -> pipes_ok (<[k := f']> files) pipes.
Proof.
  intros [Hl Hu He Ho] Hk Hf Hf'.
  assert (Hsel : forall j g, <[k := f']> files !! j = Some g -> f_type g = FD_PIPE -> files !! j = Some g).
  { intros j g Hj Hg. destruct (decide (j = k)) as [->|]; [|by rewrite list_lookup_insert_ne in Hj].
    rewrite list_lookup_insert_eq in Hj by (by eapply lookup_lt_Some). congruence. }
  constructor.
  - intros j g Hj Hg. by eapply Hl; [apply (Hsel j g)|].
  - intros j j' g g' i wr Hj Hj' Hg Hg'. eapply Hu; [apply (Hsel j g)|apply (Hsel j' g')|exact Hg|exact Hg']; (done || apply Hg || apply Hg').
  - intros i p wr Hi Hwr. destruct (He i p wr Hi Hwr) as (j & g & Hj & Hg). exists j, g. split; [|done].
    rewrite list_lookup_insert_ne; [done|]. intros ->. destruct Hg as [Hg _]. congruence.
  - done.
Qed.

(** Nor do changes to the count or the offset. *)
Lemma pipes_ok_same files pipes k f f' :
  pipes_ok files pipes -> files !! k = Some f ->
  f_type f' = f_type f -> f_pipe f' = f_pipe f -> f_writable f' = f_writable f -> pipes_ok (<[k := f']> files) pipes.
Proof.
  intros [Hl Hu He Ho] Hk Ht Hp Hw.
  assert (Hend : forall i wr, is_end i wr f' <-> is_end i wr f) by (intros; unfold is_end; by rewrite Ht, Hp, Hw).
  assert (Hsel : forall j g, <[k := f']> files !! j = Some g ->
            exists g0, files !! j = Some g0 /\ f_type g = f_type g0 /\ forall i wr, is_end i wr g <-> is_end i wr g0).
  { intros j g Hj. destruct (decide (j = k)) as [->|]; [|rewrite list_lookup_insert_ne in Hj by done; by exists g].
    rewrite list_lookup_insert_eq in Hj by (by eapply lookup_lt_Some). injection Hj as <-. by exists f. }
  constructor.
  - intros j g (g0 & Hj & Htg & Hg)%Hsel Hty. rewrite Htg in Hty. destruct (Hl j g0 Hj Hty) as (i & p & wr & ? & ? & ?).
    exists i, p, wr. by rewrite Hg.
  - intros j j' g g' i wr (g0 & Hj & _ & Hg)%Hsel (g0' & Hj' & _ & Hg')%Hsel H1 H2.
    eapply Hu; [exact Hj|exact Hj'|by apply Hg|by apply Hg'].
  - intros i p wr Hi Hwr. destruct (He i p wr Hi Hwr) as (j & g & Hj & Hg).
    destruct (decide (j = k)) as [->|].
    + exists k, f'. rewrite list_lookup_insert_eq by (by eapply lookup_lt_Some). split; [done|]. apply Hend. congruence.
    + exists j, g. by rewrite list_lookup_insert_ne.
  - done.
Qed.

(** Reading and writing do not open or close ends. *)
Lemma pipes_ok_data files pipes i p p' :
  pipes_ok files pipes -> pipes !! i = Some (Some p) ->
  pp_readopen p' = pp_readopen p -> pp_writeopen p' = pp_writeopen p -> pipes_ok files (<[i := Some p']> pipes).
Proof.
  intros [Hl Hu He Ho] Hi Hr Hw.
  assert (Hop : forall wr, end_open wr p' <-> end_open wr p) by (intros []; unfold end_open; by rewrite ?Hr, ?Hw).
  assert (Hsel : forall j q, <[i := Some p']> pipes !! j = Some (Some q) ->
            exists q0, pipes !! j = Some (Some q0) /\ forall wr, end_open wr q <-> end_open wr q0).
  { intros j q Hj. destruct (decide (j = i)) as [->|]; [|rewrite list_lookup_insert_ne in Hj by done; by exists q].
    rewrite list_lookup_insert_eq in Hj by (by eapply lookup_lt_Some). injection Hj as <-. by exists p. }
  constructor.
  - intros k f Hk Ht. destruct (Hl k f Hk Ht) as (j & q & wr & Hend & Hj & Hq). exists j.
    destruct (decide (j = i)) as [->|].
    + exists p', wr. rewrite list_lookup_insert_eq by (by eapply lookup_lt_Some). split_and!; [apply Hend..|done|].
      assert (q = p) as -> by congruence. by apply Hop.
    + exists q, wr. rewrite list_lookup_insert_ne by done. done.
  - done.
  - intros j q wr (q0 & Hj & Hq)%Hsel Hwr. apply (He j q0 wr Hj). by apply Hq.
  - intros j q (q0 & Hj & Hq)%Hsel. destruct (Ho j q0 Hj) as [wr ?]. exists wr. by apply Hq.
Qed.

(** [fileclose] of the last reference to an end. *)
Lemma pipes_ok_close files pipes k f f' i p wr :
  pipes_ok files pipes -> files !! k = Some f -> is_end i wr f -> pipes !! i = Some (Some p) -> f_type f' = FD_NONE ->
  pipes_ok (<[k := f']> files) (<[i := pipeclose wr p]> pipes).
Proof.
  intros [Hl Hu He Ho] Hk Hend Hi Hf'.
  assert (Hfl : forall j g, <[k := f']> files !! j = Some g -> f_type g = FD_PIPE -> j ≠ k /\ files !! j = Some g).
  { intros j g Hj Hg. destruct (decide (j = k)) as [->|]; [|by rewrite list_lookup_insert_ne in Hj].
    rewrite list_lookup_insert_eq in Hj by (by eapply lookup_lt_Some). congruence. }
  assert (Hpc : forall q, pipeclose wr p = Some q -> ~ end_open wr q /\ (end_open (negb wr) q <-> end_open (negb wr) p) /\ end_open (negb wr) q).
  { intros q. unfold pipeclose, end_open. destruct wr; cbn [negb];
      (destruct (_ && _)%bool eqn:Eb; [done|]; injection 1 as <-; cbn [pp_readopen pp_writeopen] in *);
      apply andb_false_iff in Eb; rewrite !Z.eqb_neq in Eb; (split_and!; [lia|done|lia]). }
  assert (Hnone : pipeclose wr p = None -> ~ end_open (negb wr) p).
  { unfold pipeclose, end_open. destruct wr; cbn [negb]; (destruct (_ && _)%bool eqn:Eb; [|done]); intros _;
      cbn [pp_readopen pp_writeopen] in Eb; apply andb_true_iff in Eb; rewrite !Z.eqb_eq in Eb; lia. }
  assert (Hpl : forall j q, <[i := pipeclose wr p]> pipes !! j = Some (Some q) ->
            j = i /\ pipeclose wr p = Some q \/ j ≠ i /\ pipes !! j = Some (Some q)).
  { intros j q Hj. destruct (decide (j = i)) as [->|]; [left|right; by rewrite list_lookup_insert_ne in Hj].
    rewrite list_lookup_insert_eq in Hj by (by eapply lookup_lt_Some). injection Hj as ->. done. }
  constructor.
  - intros j g Hj Hg. destruct (Hfl j g Hj Hg) as [Hne Hj']. destruct (Hl j g Hj' Hg) as (i' & q & wr' & Hend' & Hi' & Hq).
    destruct (decide (i' = i)) as [->|]; [|exists i', q, wr'; by rewrite list_lookup_insert_ne].
    assert (wr' = negb wr) as ->.
    { destruct (decide (wr' = wr)) as [->|]; [|by destruct wr, wr']. exfalso. apply Hne. by eapply Hu. }
    assert (q = p) as -> by congruence. destruct (pipeclose wr p) as [q'|] eqn:Eq; [|by apply Hnone in Hq].
    exists i, q', (negb wr). rewrite list_lookup_insert_eq by (by eapply lookup_lt_Some).
    split_and!; [apply Hend'..|done|]. by apply (Hpc q').
  - intros j j' g g' i' wr' Hj Hj' Hg Hg'. destruct (Hfl j g Hj) as [_ ?]; [apply Hg|].
    destruct (Hfl j' g' Hj') as [_ ?]; [apply Hg'|]. by eapply Hu.
  - intros j q wr' Hj Hq. apply Hpl in Hj as [[-> Hc]|[Hne Hj]].
    + destruct (Hpc q Hc) as (Hcl & Hoth & _). assert (wr' = negb wr) as -> by (destruct wr, wr'; done).
      destruct (He i p (negb wr) Hi) as (k' & f1 & Hk' & Hend1); [by apply Hoth|].
      exists k', f1. split; [|done]. rewrite list_lookup_insert_ne; [done|]. intros <-.
      assert (f1 = f) as -> by congruence. destruct Hend as (_ & _ & Hw1), Hend1 as (_ & _ & Hw2). rewrite Hw1 in Hw2. by destruct wr.
    + destruct (He j q wr' Hj Hq) as (k' & f1 & Hk' & Hend1). exists k', f1. split; [|done].
      rewrite list_lookup_insert_ne; [done|]. intros <-. assert (f1 = f) as -> by congruence.
      destruct Hend as (_ & E1 & _), Hend1 as (_ & E2 & _). congruence.
  - intros j q Hj. apply Hpl in Hj as [[-> Hc]|[Hne Hj]]; [|by apply (Ho j)]. exists (negb wr). by apply (Hpc q).
Qed.

(** [pipealloc]: two fresh files, one for each end. *)
Lemma pipes_ok_new files pipes k0 k1 f0 f1 g0 g1 data :
  pipes_ok files pipes -> files !! k0 = Some f0 -> files !! k1 = Some f1 -> k0 ≠ k1 ->
  f_type f0 = FD_NONE -> f_type f1 = FD_NONE ->
  is_end (length pipes) false g0 -> is_end (length pipes) true g1 ->
  pipes_ok (<[k1 := g1]> (<[k0 := g0]> files)) (pipes ++ [Some (pipe_init data)]).
Proof.
  intros [Hl Hu He Ho] H0 H1 Hne T0 T1 E0 E1. set (n := length pipes) in *. set (files' := <[k1 := g1]> _).
  assert (L0 : files' !! k0 = Some g0).
  { unfold files'. rewrite list_lookup_insert_ne by done. apply list_lookup_insert_eq. by eapply lookup_lt_Some. }
  assert (L1 : files' !! k1 = Some g1).
  { unfold files'. apply list_lookup_insert_eq. rewrite length_insert. by eapply lookup_lt_Some. }
  assert (Lo : forall k, k ≠ k0 -> k ≠ k1 -> files' !! k = files !! k) by (intros; unfold files'; by rewrite !list_lookup_insert_ne).
  assert (Hn : forall k f i wr, files !! k = Some f -> is_end i wr f -> i ≠ n /\ k ≠ k0 /\ k ≠ k1).
  { intros k f i wr Hk (Ht & Hp & ?). destruct (Hl k f Hk Ht) as (i' & p & wr' & (_ & Hp' & _) & Hi & _).
    assert (i' = i) as -> by congruence. apply lookup_lt_Some in Hi. fold n in Hi. split_and!; [lia|congruence|congruence]. }
  assert (Pn : (pipes ++ [Some (pipe_init data)]) !! n = Some (Some (pipe_init data))) by (by apply list_lookup_middle).
  assert (Pi : forall i q, i ≠ n -> (pipes ++ [Some (pipe_init data)]) !! i = Some (Some q) -> pipes !! i = Some (Some q)).
  { intros i q Hi Hq. rewrite lookup_app_l in Hq; [done|]. apply lookup_lt_Some in Hq. rewrite length_app in Hq. cbn in Hq. unfold n in Hi. lia. }
  assert (Hsel : forall k f, files' !! k = Some f -> f_type f = FD_PIPE ->
            k = k0 /\ f = g0 \/ k = k1 /\ f = g1 \/ k ≠ k0 /\ k ≠ k1 /\ files !! k = Some f).
  { intros k f Hk _. destruct (decide (k = k0)) as [->|]; [left; split; congruence|].
    destruct (decide (k = k1)) as [->|]; [right; left; split; congruence|]. right; right. by rewrite Lo in Hk. }
  constructor.
  - intros k f Hk Ht. destruct (Hsel k f Hk Ht) as [[-> ->]|[[-> ->]|(? & ? & Hk')]].
    + by exists n, (pipe_init data), false.
    + by exists n, (pipe_init data), true.
    + destruct (Hl k f Hk' Ht) as (i & p & wr & ? & Hi & ?). exists i, p, wr. split_and!; [done..| |done].
      rewrite lookup_app_l by (by eapply lookup_lt_Some). done.
  - intros k k' f f' i wr Hk Hk' He1 He2.
    assert (Hold : forall j h, files !! j = Some h -> is_end i wr h -> i ≠ n) by (intros j h Hj Hh; by apply (Hn j h i wr)).
    destruct (Hsel k f Hk (proj1 He1)) as [[-> ->]|[[-> ->]|(? & ? & Hj)]];
    destruct (Hsel k' f' Hk' (proj1 He2)) as [[-> ->]|[[-> ->]|(? & ? & Hj')]]; try done.
    + destruct (is_end_fun _ _ _ _ _ He1 E0), (is_end_fun _ _ _ _ _ He2 E1). congruence.
    + by destruct (Hold k' f' Hj' He2), (is_end_fun _ _ _ _ _ He1 E0).
    + destruct (is_end_fun _ _ _ _ _ He1 E1), (is_end_fun _ _ _ _ _ He2 E0). congruence.
    + by destruct (Hold k' f' Hj' He2), (is_end_fun _ _ _ _ _ He1 E1).
    + by destruct (Hold k f Hj He1), (is_end_fun _ _ _ _ _ He2 E0).
    + by destruct (Hold k f Hj He1), (is_end_fun _ _ _ _ _ He2 E1).
    + by eapply Hu.
  - intros i q wr Hi Hq. destruct (decide (i = n)) as [->|Hin].
    + destruct wr; [by exists k1, g1|by exists k0, g0].
    + destruct (He i q wr (Pi i q Hin Hi) Hq) as (k & f & Hk & Hf). exists k, f. split; [|done].
      destruct (Hn k f i wr Hk Hf) as (_ & ? & ?). by rewrite Lo.
  - intros i q Hi. destruct (decide (i = n)) as [->|Hin]; [|by apply (Ho i q), Pi].
    rewrite Pn in Hi. injection Hi as <-. by exists true.
Qed.

(** ** The invariant *)

(** [own k z d]: [z] more references to [k] are held outside the tables. *)
Definition own (k : nat) (z : Z) (d : nat -> Z) : nat -> Z := fun j => if decide (j = k) then d j + z else d j.
Definition nobody : nat -> Z := fun _ => 0.

(** Pipes that are allocated. *)
Fixpoint live (pipes : list (option pipe)) : nat :=
  match pipes with
  | [] => 0
  | Some _ :: l => S (live l)
  | None :: l => live l
  end.

Definition occupied (o : option pipe) : nat := match o with Some _ => 1 | None => 0 end.

Lemma live_insert l i a b :
  l !! i = Some a ->
  (live (<[i := b]> l) + occupied a = live l + occupied b)%nat.
Proof.
  revert i. induction l as [|x l IH]; intros i Hi; [done|]. destruct i as [|i]; cbn in Hi.
  - injection Hi as ->. change (<[0%nat := b]> (a :: l)) with (b :: l). destruct a, b; cbn; lia.
  - change (<[S i := b]> (x :: l)) with (x :: <[i := b]> l). specialize (IH i Hi). destruct x; cbn; lia.
Qed.

Lemma live_app l l' : live (l ++ l') = (live l + live l')%nat.
Proof. induction l as [|[p|] l IH]; cbn; lia. Qed.

Section invariant.
Context {W : Type} `{IpcEnv W}.
Implicit Types s : kern W.

Definition ofiles s : list (list (option nat)) := u_ofile <$> kn_procs s.

Record tinv (tot : nat) (d : nat -> Z) s : Prop := {
  ti_ref k f : kn_ftable s !! k = Some f -> f_ref f = nrefs k (ofiles s) + d k;
  ti_dom k : 0 < nrefs k (ofiles s) -> (k < length (kn_ftable s))%nat;
  ti_len l : l ∈ ofiles s -> length l = NOFILE;
  ti_free k f : kn_ftable s !! k = Some f -> f_type f ≠ FD_NONE -> 0 < f_ref f;
  ti_pipe : pipes_ok (kn_ftable s) (kn_pipes s);
  ti_pages : (kn_pages s + live (kn_pipes s))%nat = tot;
}.

(** The parts of the state the invariant looks at. *)
Definition same_tables s s' : Prop :=
  kn_ftable s' = kn_ftable s /\ kn_pipes s' = kn_pipes s /\ kn_pages s' = kn_pages s /\ ofiles s' = ofiles s.

Lemma tinv_same tot d s s' : same_tables s s' -> tinv tot d s -> tinv tot d s'.
Proof. intros (E1 & E2 & E3 & E4) []. constructor; rewrite ?E1, ?E2, ?E3, ?E4; done. Qed.

Lemma same_tables_refl s : same_tables s s.
Proof. done. Qed.

Lemma same_tables_trans s1 s2 s3 : same_tables s1 s2 -> same_tables s2 s3 -> same_tables s1 s3.
Proof. unfold same_tables. intuition congruence. Qed.

Lemma wp_on_fs {A} (m : M kfs A) (Q : A -> kern W -> Prop) s :
  (forall r s', same_tables s s' -> kn_procs s' = kn_procs s -> Q r s') -> wp (on_fs m) Q any_halt s.
Proof. intros HQ. unfold wp, on_fs. destruct (m (kn_fs s)) as [[r|h] k]; [by apply HQ|done]. Qed.

Lemma wp_on_world {A} (m : M W A) (Q : A -> kern W -> Prop) s :
  (forall r s', same_tables s s' -> kn_procs s' = kn_procs s -> Q r s') -> wp (on_world m) Q any_halt s.
Proof. intros HQ. unfold wp, on_world. destruct (m (kn_world s)) as [[r|h] k]; [by apply HQ|done]. Qed.

Lemma wp_the_file i (Q : file -> kern W -> Prop) s :
  (forall f, kn_ftable s !! i = Some f -> Q f s) -> wp (the_file i) Q any_halt s.
Proof. intros HQ. unfold the_file. wp_steps. apply wp_of_option_any. intros f Hf. by apply HQ. Qed.

Lemma wp_the_pipe o (Q : nat * pipe -> kern W -> Prop) s :
  (forall i p, o = Some i -> kn_pipes s !! i = Some (Some p) -> Q (i, p) s) -> wp (the_pipe o) Q any_halt s.
Proof.
  intros HQ. unfold the_pipe. wp_step. apply wp_of_option_any. intros i Hi. wp_steps. apply wp_of_option_any.
  intros p Hp. wp_step. apply HQ; [done|]. destruct (kn_pipes s !! i) as [[?|]|]; naive_solver.
Qed.

Lemma wp_the_proc cur (Q : uproc -> kern W -> Prop) s :
  (forall u, kn_procs s !! cur = Some u -> Q u s) -> wp (the_proc cur) Q any_halt s.
Proof. intros HQ. unfold the_proc. wp_steps. apply wp_of_option_any. intros f Hf. by apply HQ. Qed.
End invariant.
