(* ===== verification/FileProof.v ===== *)
(** * FileProof: the file system calls keep the table of open files sound *)
From S2P Require Import Prelude CString FsFormat Ring Bio Log KFs Ipc Pipe Mmu Syscall FileTab SysFile FileInv.

Section ops.
Context {W : Type} `{IpcEnv W}.
Implicit Types s : kern W.

Lemma tinv_ext tot d d' s : (forall k, d k = d' k) -> tinv tot d s -> tinv tot d' s.
Proof. intros E []. constructor; try done. intros k f Hk. rewrite <- E. auto. Qed.

(** Changing file [k], and its count by [z]. *)
Lemma tinv_count tot d s s' k f f' z :
  tinv tot d s -> kn_ftable s !! k = Some f -> kn_ftable s' = <[k := f']> (kn_ftable s) -> ofiles s' = ofiles s ->
  f_ref f' = f_ref f + z -> (f_type f' ≠ FD_NONE -> 0 < f_ref f') ->
  pipes_ok (<[k := f']> (kn_ftable s)) (kn_pipes s') -> (kn_pages s' + live (kn_pipes s'))%nat = tot ->
  tinv tot (own k z d) s'.
Proof.
  intros [Hr Hd Hl Hf Hp Hn] Hk Ef Eo Er Ht Hp' Hn'.
  assert (Hlk : forall j g, <[k := f']> (kn_ftable s) !! j = Some g -> j = k /\ g = f' \/ j ≠ k /\ kn_ftable s !! j = Some g).
  { intros j g Hj. destruct (decide (j = k)) as [->|]; [left|right; by rewrite list_lookup_insert_ne in Hj].
    rewrite list_lookup_insert_eq in Hj by (by eapply lookup_lt_Some). by injection Hj as ->. }
  constructor; rewrite ?Ef, ?Eo; try done.
  - intros j g Hj. unfold own. apply Hlk in Hj as [[-> ->]|[Hne Hj]].
    + rewrite decide_True by done. rewrite Er, (Hr k f Hk). lia.
    + rewrite decide_False by done. by apply Hr.
  - intros j Hj. rewrite length_insert. by apply Hd.
  - intros j g Hj. apply Hlk in Hj as [[-> ->]|[_ Hj]]; [done|by apply (Hf j)].
Qed.

Lemma own_0 k d j : own k 0 d j = d j.
Proof. unfold own. case_decide; lia. Qed.

Lemma own_own k z z' d j : own k z (own k z' d) j = own k (z + z') d j.
Proof. unfold own. repeat case_decide; lia. Qed.

Lemma upd_file_alter s k f (g : file -> file) :
  kn_ftable s !! k = Some f -> set_files (alter g k (kn_ftable s)) s = set_files (<[k := g f]> (kn_ftable s)) s.
Proof. intros Hk. by rewrite (alter_as_insert g k f). Qed.

(** A slot of process [cur]'s descriptor table. *)
Lemma tinv_set_fd tot d s cur u fd a b :
  tinv tot d s -> kn_procs s !! cur = Some u -> u_ofile u !! fd = Some a ->
  (forall k, b = Some k -> (k < length (kn_ftable s))%nat) ->
  tinv tot (fun k => d k + (if is_ref k a then 1 else 0) - (if is_ref k b then 1 else 0))
       (set_procs (alter (fun u => set_ofile (<[fd := b]> (u_ofile u)) u) cur (kn_procs s)) s).
Proof.
  intros [Hr Hd Hl Hf Hp Hn] Hu Ha Hb.
  assert (Hcur : ofiles s !! cur = Some (u_ofile u)) by (unfold ofiles; by rewrite list_lookup_fmap, Hu).
  set (s' := set_procs _ s).
  assert (Eo : ofiles s' = <[cur := <[fd := b]> (u_ofile u)]> (ofiles s)).
  { unfold ofiles, s'. cbn [kn_procs set_procs]. rewrite (alter_as_insert _ cur u) by done. by rewrite list_fmap_insert. }
  constructor; cbn [kn_ftable kn_pipes kn_pages set_procs s'] in *; try done; rewrite ?Eo.
  - intros k f Hk. rewrite (nrefs_set k _ cur (u_ofile u) fd a) by done. rewrite (Hr k f Hk). lia.
  - intros k. rewrite (nrefs_set k _ cur (u_ofile u) fd a) by done. intros Hk.
    destruct (is_ref k b) eqn:Eb; [apply bool_decide_eq_true in Eb; by apply Hb|].
    apply Hd. destruct (is_ref k a); lia.
  - intros l Hin. apply list_elem_of_lookup in Hin as [j Hj]. destruct (decide (j = cur)) as [->|].
    + rewrite list_lookup_insert_eq in Hj by (by eapply lookup_lt_Some). injection Hj as <-. rewrite length_insert.
      apply Hl. by eapply list_elem_of_lookup_2.
    + rewrite list_lookup_insert_ne in Hj by done. apply Hl. by eapply list_elem_of_lookup_2.
Qed.

(** ** file.c *)

Lemma filealloc_spec tot d s :
  tinv tot d s ->
  wp filealloc (fun r s' => match r with
    | None => s' = s
    | Some k => tinv tot (own k 1 d) s' /\ kn_procs s' = kn_procs s /\
        exists g f, kn_ftable s !! k = Some g /\ f_ref g = 0 /\
          kn_ftable s' = <[k := f]> (kn_ftable s) /\ f_type f = FD_NONE /\ f_ref f = 1
    end) any_halt s.
Proof.
  intros Hi. unfold filealloc. wp_steps. apply find_some in Hopt as [Hin Hf]. destruct (kn_ftable s !! n) as [f|] eqn:Hk; [|done].
  apply Z.eqb_eq in Hf. unfold upd_file. wp_steps. rewrite (upd_file_alter s n f) by done.
  assert (Ht : f_type f = FD_NONE).
  { destruct (decide (f_type f = FD_NONE)) as [|Hn]; [done|]. pose proof (ti_free _ _ _ Hi n f Hk Hn). lia. }
  split; [|split; [done|]].
  - eapply (tinv_count tot d s _ n f); [done|done|done|done|cbn; lia|done| |apply Hi].
    apply (pipes_ok_insert _ _ _ f); [apply Hi|done|by rewrite Ht|done].
  - by do 2 eexists.
Qed.

Lemma filedup_spec tot d s k :
  tinv tot d s -> wp (filedup k) (fun _ s' => tinv tot (own k 1 d) s' /\ kn_procs s' = kn_procs s /\ (k < length (kn_ftable s'))%nat) any_halt s.
Proof.
  intros Hi. unfold filedup. wp_step. apply wp_the_file. intros f Hf. wp_step; [done|]. wp_step. unfold upd_file. wp_steps.
  rewrite (upd_file_alter s k f) by done. split; [|split; [done|cbn; rewrite length_insert; by eapply lookup_lt_Some]].
  eapply (tinv_count tot d s _ k f); [done|done|done|done|cbn; lia|apply Z.ltb_ge in Hif; cbn; lia| |apply Hi].
  by apply (pipes_ok_same _ _ _ f); [apply Hi|..].
Qed.

(** The last reference to a pipe end. *)
Lemma close_end tot d s k f f' :
  tinv tot d s -> kn_ftable s !! k = Some f -> f_type f = FD_PIPE -> f_ref f = 1 ->
  f_type f' = FD_NONE -> f_ref f' = 0 ->
  wp (close_pipe (f_pipe f) (f_writable f))
     (fun _ s' => tinv tot (own k (-1) d) s' /\ kn_procs s' = kn_procs s) any_halt
     (set_files (<[k := f']> (kn_ftable s)) s).
Proof.
  intros Hi Hk Ht Hr Ht' Hr'. unfold close_pipe. wp_step. apply wp_the_pipe. intros i p Hip Hpi. cbn [kn_pipes set_files] in Hpi.
  assert (He : is_end i (negb (f_writable f =? 0)) f) by done.
  pose proof (pipes_ok_close _ _ k f f' i p _ (ti_pipe _ _ _ Hi) Hk He Hpi Ht') as Hok.
  pose proof (live_insert _ _ _ (pipeclose (negb (f_writable f =? 0)) p) Hpi) as Hlv. cbn [occupied] in Hlv.
  pose proof (ti_pages _ _ _ Hi) as Hn. cbn [fst snd].
  destruct (pipeclose _ p) as [q|] eqn:Eq; unfold set_pipe; wp_steps; cbn [occupied] in Hlv.
  all: split; [|done]; eapply (tinv_count tot d s _ k f f'); cbn; try done; try lia; congruence.
Qed.

Lemma fileclose_spec tot d s pid k :
  tinv tot d s -> wp (fileclose pid k) (fun _ s' => tinv tot (own k (-1) d) s' /\ kn_procs s' = kn_procs s) any_halt s.
Proof.
  intros Hi. unfold fileclose. wp_step. apply wp_the_file. intros f Hf. wp_step; [done|]. apply Z.ltb_ge in Hif.
  wp_step; rename Hif0 into Hlast.
  - apply Z.ltb_lt in Hlast. unfold upd_file. wp_steps. rewrite (upd_file_alter s k f) by done. split; [|done].
    eapply (tinv_count tot d s _ k f); [done|done|done|done|cbn; lia|cbn; lia| |apply Hi].
    by apply (pipes_ok_same _ _ _ f); [apply Hi|..].
  - apply Z.ltb_ge in Hlast. wp_step. unfold upd_file. wp_steps. rewrite (upd_file_alter s k f) by done.
    assert (Hother : f_type f ≠ FD_PIPE -> forall g, f_type g = FD_NONE -> f_ref g = 0 ->
              tinv tot (own k (-1) d) (set_files (<[k := g]> (kn_ftable s)) s)).
    { intros Ht g Hg Hg0. eapply (tinv_count tot d s _ k f); [done|done|done|done|lia|congruence| |apply Hi].
      apply (pipes_ok_insert _ _ _ f); [apply Hi|done|done|congruence]. }
    destruct (f_type f) eqn:Ht.
    + wp_step. split; [by apply Hother|done].
    + apply (close_end tot d s k f); [done|done|done|lia|done|done].
    + apply wp_on_fs. intros _ s' Hs Hp. split; [|by rewrite Hp]. eapply tinv_same; [exact Hs|]. by apply Hother.
    + wp_step. split; [by apply Hother|done].
Qed.

(** Changing what is not counted. *)
Lemma tinv_upd_file tot d s k f f' :
  tinv tot d s -> kn_ftable s !! k = Some f -> f_ref f' = f_ref f -> (f_type f' ≠ FD_NONE -> 0 < f_ref f) ->
  pipes_ok (<[k := f']> (kn_ftable s)) (kn_pipes s) ->
  tinv tot d (set_files (<[k := f']> (kn_ftable s)) s).
Proof.
  intros Hi Hk Hr Hf Hp. apply (tinv_ext tot (own k 0 d)); [apply own_0|].
  eapply (tinv_count tot d s _ k f); [done..|lia|by rewrite Hr|done|apply Hi].
Qed.

Lemma set_foff_spec tot d s k (v : Z) :
  tinv tot d s -> wp (upd_file k (set_foff v)) (fun _ s' => tinv tot d s' /\ kn_procs s' = kn_procs s) any_halt s.
Proof.
  intros Hi. unfold upd_file. wp_step. split; [|done].
  destruct (kn_ftable s !! k) as [f|] eqn:Hk.
  - rewrite (upd_file_alter s k f) by done. apply (tinv_upd_file tot d s k f); [done..|apply (ti_free _ _ _ Hi k f Hk)|].
    by apply (pipes_ok_same _ _ _ f); [apply Hi|..].
  - rewrite alter_none by done. by destruct s.
Qed.

Lemma piperead_copy_ends n p :
  pp_readopen (piperead_copy n p).2 = pp_readopen p /\ pp_writeopen (piperead_copy n p).2 = pp_writeopen p.
Proof.
  revert p. induction n as [|n IH]; intros p; cbn [piperead_copy]; [done|]. destruct (pipe_empty p); [done|].
  specialize (IH (set_nread (u32 (pp_nread p + 1)) p)). by destruct (piperead_copy n _).
Qed.

Lemma piperead_ends killed n p st p' :
  piperead killed n p = (st, p') -> pp_readopen p' = pp_readopen p /\ pp_writeopen p' = pp_writeopen p.
Proof.
  unfold piperead. destruct (_ && _)%bool; [destruct killed; by injection 1 as <- <-|].
  pose proof (piperead_copy_ends (Z.to_nat n) p) as Hc. destruct (piperead_copy _ p). by injection 1 as <- <-.
Qed.

Lemma pipewrite_ends killed n src p st p' :
  pipewrite_loop killed n src p = (st, p') -> pp_readopen p' = pp_readopen p /\ pp_writeopen p' = pp_writeopen p.
Proof.
  revert p. induction src as [|c src IH]; intros p; cbn [pipewrite_loop]; [by injection 1 as <- <-|].
  destruct (pipe_full p); [destruct (_ || _)%bool; by injection 1 as <- <-|]. by intros ?%IH.
Qed.

Lemma set_pipe_spec tot d s i p p' :
  tinv tot d s -> kn_pipes s !! i = Some (Some p) -> pp_readopen p' = pp_readopen p -> pp_writeopen p' = pp_writeopen p ->
  wp (set_pipe i p') (fun _ s' => tinv tot d s' /\ kn_procs s' = kn_procs s) any_halt s.
Proof.
  intros Hi Hp Hr Hw. unfold set_pipe. wp_step. split; [|done]. pose proof (live_insert _ _ _ (Some p') Hp) as Hlv.
  destruct Hi as [? ? ? ? Hok Hn]. constructor; cbn; try done; [by apply (pipes_ok_data _ _ _ p)|]. cbn in Hlv. lia.
Qed.

Lemma fileread_spec tot d s pid killed dr k n :
  tinv tot d s -> wp (fileread pid killed dr k n) (fun _ s' => tinv tot d s' /\ kn_procs s' = kn_procs s) any_halt s.
Proof.
  intros Hi. unfold fileread. wp_step. apply wp_the_file. intros f Hf. wp_step; [by wp_step|].
  destruct (f_type f); [done| | |done].
  - wp_step. apply wp_the_pipe. intros i p _ Hp. cbn [fst snd]. destruct (piperead killed n p) as [st p'] eqn:E.
    apply piperead_ends in E as [? ?]. wp_step. eapply wp_conseq; [by apply (set_pipe_spec tot d s i p)|].
    intros ? s' Hs'. by destruct st; wp_steps.
  - wp_step. apply wp_on_fs. intros r s1 Hs1 Hp1. eapply tinv_same in Hi; [|done]. wp_step.
    assert (Hw : wp (when (0 <? r.1) (upd_file k (set_foff (u32 (f_off f + r.1)))))
                    (fun _ s' => tinv tot d s' /\ kn_procs s' = kn_procs s1) any_halt s1).
    { destruct (0 <? r.1); cbn [when]; [by apply set_foff_spec|by wp_step]. }
    eapply wp_conseq; [exact Hw|]. intros ? s2 [Hi2 Hp2]. wp_step. apply wp_on_fs. intros _ s3 Hs3 Hp3. wp_step.
    split; [by eapply tinv_same|congruence].
Qed.

Lemma filewrite_spec tot d s pid killed dw k src n :
  tinv tot d s -> wp (filewrite pid killed dw k src n) (fun _ s' => tinv tot d s' /\ kn_procs s' = kn_procs s) any_halt s.
Proof.
  intros Hi. unfold filewrite. wp_step. apply wp_the_file. intros f Hf. wp_step; [by wp_step|].
  destruct (f_type f); [done| | |done].
  - wp_step. apply wp_the_pipe. intros i p _ Hp. cbn [fst snd]. destruct (pipewrite killed n src p) as [st p'] eqn:E.
    apply pipewrite_ends in E as [? ?]. wp_step. eapply wp_conseq; [by apply (set_pipe_spec tot d s i p)|].
    intros ? s' Hs'. by destruct (wresult st); wp_steps.
  - wp_step. eapply wp_while_any with (I := fun _ s' => tinv tot d s' /\ kn_procs s' = kn_procs s); [done|].
    clear f Hf Hif. intros i s1 [Hi1 Hp1]. unfold filewrite_step. wp_step; [|by wp_steps].
    wp_step. apply wp_the_file. intros f Hf. wp_step. apply wp_on_fs. intros r s2 Hs2 Hp2. eapply tinv_same in Hi1; [|done]. wp_step.
    assert (Hw : wp (when (0 <? r) (upd_file k (set_foff (u32 (f_off f + r)))))
                    (fun _ s' => tinv tot d s' /\ kn_procs s' = kn_procs s2) any_halt s2).
    { destruct (0 <? r); cbn [when]; [by apply set_foff_spec|by wp_step]. }
    eapply wp_conseq; [exact Hw|]. intros ? s3 [Hi3 Hp3]. wp_step. apply wp_on_fs. intros _ s4 Hs4 Hp4.
    eapply tinv_same in Hi3; [|done].
    assert (kn_procs s4 = kn_procs s) by congruence. wp_steps.
Qed.

(** ** Descriptors *)

Lemma argfd_spec cur n s :
  wp (argfd cur n) (fun r s' => s' = s /\ match r with
    | Some (fd, k) => exists u, kn_procs s !! cur = Some u /\ u_ofile u !! fd = Some (Some k)
    | None => True
    end) any_halt s.
Proof.
  unfold argfd. wp_step. apply wp_the_proc. intros u Hu. wp_step; [by wp_step|].
  destruct (u_ofile u !! _) as [[k|]|] eqn:Ho; wp_step; split; try done. by exists u.
Qed.

Lemma fdalloc_spec tot d s cur k :
  tinv tot d s -> (k < length (kn_ftable s))%nat ->
  wp (fdalloc cur k) (fun fd s' => fd < 0 /\ s' = s \/
    0 <= fd /\ tinv tot (own k (-1) d) s' /\ kn_ftable s' = kn_ftable s /\
    exists u, kn_procs s' !! cur = Some u /\ u_ofile u !! Z.to_nat fd = Some (Some k)) any_halt s.
Proof.
  intros Hi Hk. unfold fdalloc. wp_step. apply wp_the_proc. intros u Hu. wp_step; [|by wp_step; left].
  rename n into fd. apply find_some in Hopt as [_ Hfd]. destruct (u_ofile u !! fd) as [[?|]|] eqn:Ho; [done| |done].
  wp_step. unfold upd_proc. wp_steps. right. split; [lia|]. split; [|split; [done|]].
  - eapply tinv_ext; [|apply (tinv_set_fd tot d s cur u fd None (Some k)); [done..|]].
    + intros j. unfold own, is_ref. repeat case_bool_decide; repeat case_decide; naive_solver lia.
    + intros j [= <-]. done.
  - exists (set_ofile (<[fd := Some k]> (u_ofile u)) u). cbn [kn_procs set_procs].
    rewrite list_lookup_alter_eq, Hu. split; [done|]. cbn. rewrite Nat2Z.id. apply list_lookup_insert_eq. by eapply lookup_lt_Some.
Qed.

Lemma set_fd_spec tot d s cur u fd k :
  tinv tot d s -> kn_procs s !! cur = Some u -> u_ofile u !! fd = Some (Some k) ->
  wp (set_fd cur fd None) (fun _ s' => tinv tot (own k 1 d) s' /\ kn_ftable s' = kn_ftable s) any_halt s.
Proof.
  intros Hi Hu Ho. unfold set_fd, upd_proc. wp_step. split; [|done].
  eapply tinv_ext; [|by apply (tinv_set_fd tot d s cur u fd (Some k) None)].
  intros j. unfold own, is_ref. repeat case_bool_decide; repeat case_decide; naive_solver lia.
Qed.

Lemma ofile_dom tot d s cur u fd k :
  tinv tot d s -> kn_procs s !! cur = Some u -> u_ofile u !! fd = Some (Some k) -> (k < length (kn_ftable s))%nat.
Proof.
  intros Hi Hu Ho. apply (ti_dom _ _ _ Hi). eapply (nrefs_pos k _ cur); [|exact Ho]. unfold ofiles. by rewrite list_lookup_fmap, Hu.
Qed.

Lemma close_spec tot d s cur k :
  tinv tot d s ->
  wp (u ← the_proc cur; fileclose (u_pid u) k) (fun _ s' => tinv tot (own k (-1) d) s' /\ kn_procs s' = kn_procs s) any_halt s.
Proof. intros Hi. wp_step. apply wp_the_proc. intros u _. by apply fileclose_spec. Qed.

(** ** The rest of the system *)

Lemma same_tables_set_umem s cur (f : uproc -> Z -> Z) :
  same_tables s (set_procs (alter (fun u => set_umem (f u) u) cur (kn_procs s)) s).
Proof.
  split_and!; try done. unfold ofiles. cbn [kn_procs set_procs]. rewrite (list_fmap_alter _ _ (fun x => x)).
  - by apply list_alter_id.
  - by apply Forall_true.
Qed.

Lemma uwrite_spec cur a bs s : wp (uwrite cur a bs) (fun _ s' => same_tables s s') any_halt s.
Proof.
  unfold uwrite. wp_step. apply wp_the_proc. intros u _. wp_step; [|done]. unfold upd_proc. wp_step.
  apply same_tables_set_umem.
Qed.

Lemma uread_spec cur a n s : wp (uread cur a n) (fun _ s' => s' = s) any_halt s.
Proof. unfold uread. wp_step. apply wp_the_proc. intros u _. wp_step; [|done]. by wp_step. Qed.

Lemma fs_ipc_call_spec cur req s : wp (fs_ipc_call cur req) (fun _ s' => same_tables s s' /\ kn_procs s' = kn_procs s) any_halt s.
Proof.
  unfold fs_ipc_call. do 2 wp_step. wp_step. apply wp_the_proc. intros u _. wp_step; [by wp_step|].
  do 2 wp_step. wp_step. apply wp_on_world. intros r s1 H1 P1. wp_step; [by wp_step|].
  wp_step. apply wp_on_world. intros r2 s2 H2 P2.
  assert (same_tables s s2) by (eapply same_tables_trans; [exact H1|exact H2]).
  assert (kn_procs s2 = kn_procs s) by (rewrite P2, P1; done). wp_steps.
Qed.

Lemma fsserver_active_spec cur s : wp (fsserver_active cur) (fun _ s' => s' = s) any_halt s.
Proof. unfold fsserver_active. do 2 wp_step. wp_step. apply wp_the_proc. intros u _. by wp_step. Qed.

(** ** Handlers *)

(** Whenever [m] returns, the tables are sound again. *)
Definition keeps {A} (m : M (kern W) A) : Prop :=
  forall tot s, tinv tot nobody s -> wp m (fun _ s' => tinv tot nobody s') any_halt s.

Context (dr : Z -> option (nat -> Z -> Z -> M kfs (Z * list Z))).
Context (dw : Z -> option (nat -> Z -> list Z -> Z -> M kfs Z)).

Lemma own_back k z d : forall j, own k (- z) (own k z d) j = d j.
Proof. intros j. rewrite own_own. rewrite <- (own_0 k d j). f_equal. lia. Qed.

Lemma dup_keeps cur : keeps (sys_dup cur).
Proof.
  intros tot s Hi. unfold sys_dup. wp_step. eapply wp_conseq; [apply argfd_spec|].
  intros [[fd k]|] s' [-> Hk]; [|by wp_step]. destruct Hk as (u & Hu & Ho). wp_step. apply wp_the_file. intros f Hf.
  case_decide; [by wp_step|]. wp_step. eapply wp_conseq; [apply fdalloc_spec; [done|by eapply lookup_lt_Some]|].
  intros fd' s1 [[Hneg ->]|(Hpos & H1 & _ & _)].
  - rewrite (proj2 (Z.ltb_lt _ _)) by done. by wp_step.
  - rewrite (proj2 (Z.ltb_ge _ _)) by done. wp_step. eapply wp_conseq; [by apply filedup_spec|].
    intros ? s2 [H2 _]. wp_step. eapply tinv_ext; [|exact H2]. apply (own_back k (-1)).
Qed.

Lemma remote_read_keeps cur rfd p n total tot s :
  tinv tot nobody s ->
  wp (remote_read_step cur rfd p n total) (fun _ s' => tinv tot nobody s') any_halt s.
Proof.
  intros Hi. unfold remote_read_step. wp_step; [|by wp_step]. wp_step. eapply wp_conseq; [apply fs_ipc_call_spec|].
  intros r s1 [H1 _]. eapply tinv_same in Hi; [|exact H1]. destruct r as [reply|]; [|by wp_step].
  do 4 (wp_step; [by wp_steps|]). wp_step. eapply wp_conseq; [apply uwrite_spec|].
  intros ? s2 H2. eapply tinv_same in Hi; [|exact H2]. by wp_step; wp_step.
Qed.

Lemma remote_write_keeps cur rfd p n total tot s :
  tinv tot nobody s ->
  wp (remote_write_step cur rfd p n total) (fun _ s' => tinv tot nobody s') any_halt s.
Proof.
  intros Hi. unfold remote_write_step. wp_step; [|by wp_step]. wp_step. eapply wp_conseq; [apply uread_spec|].
  intros bs s0 ->. wp_step. eapply wp_conseq; [apply fs_ipc_call_spec|].
  intros r s1 [H1 _]. eapply tinv_same in Hi; [|exact H1]. destruct r as [reply|]; cbv zeta; [|by wp_step]. by repeat (wp_step; [by wp_steps|]); wp_steps.
Qed.

Lemma read_keeps cur p : keeps (sys_read dr cur p).
Proof.
  intros tot s Hi. unfold sys_read. wp_step. eapply wp_conseq; [apply argfd_spec|]. intros r s' [-> _].
  wp_step. apply wp_the_proc. intros u Hu. destruct r as [[fd k]|]; [|by wp_step]. cbv zeta. destruct (argptr u 1 p _) as [e q]. wp_step; [by wp_step|].
  wp_step. apply wp_the_file. intros f Hf. case_decide.
  - eapply wp_while_any with (I := fun _ s' => tinv tot nobody s'); [done|]. intros total s1 H1.
    eapply wp_conseq; [by apply remote_read_keeps|]. by intros [?|?] s2.
  - wp_step. eapply wp_conseq; [by apply fileread_spec|]. intros r s1 [H1 _]. wp_step.
    eapply wp_conseq; [apply uwrite_spec|]. intros ? s2 H2. wp_step. eapply tinv_same; [exact H2|exact H1].
Qed.

Lemma write_keeps cur p : keeps (sys_write dw cur p).
Proof.
  intros tot s Hi. unfold sys_write. wp_step. eapply wp_conseq; [apply argfd_spec|]. intros r s' [-> _].
  wp_step. apply wp_the_proc. intros u Hu. destruct r as [[fd k]|]; [|by wp_step]. cbv zeta. destruct (argptr u 1 p _) as [e q]. wp_step; [by wp_step|].
  wp_step. apply wp_the_file. intros f Hf. case_decide.
  - eapply wp_while_any with (I := fun _ s' => tinv tot nobody s'); [done|]. intros total s1 H1.
    eapply wp_conseq; [by apply remote_write_keeps|]. by intros [?|?] s2.
  - wp_step; [by wp_step|]. wp_step. eapply wp_conseq; [apply uread_spec|]. intros bs s1 ->.
    eapply wp_conseq; [by apply filewrite_spec|]. by intros r s2 [? _].
Qed.

Lemma close_keeps cur : keeps (sys_close cur).
Proof.
  intros tot s Hi. unfold sys_close. wp_step. eapply wp_conseq; [apply argfd_spec|].
  intros [[fd k]|] s' [-> Hk]; [|by wp_step]. destruct Hk as (u & Hu & Ho). wp_step. apply wp_the_file. intros f Hf. wp_step.
  assert (Hcall : forall (m : M (kern W) Z), wp m (fun _ s' => same_tables s s' /\ kn_procs s' = kn_procs s) any_halt s ->
            wp m (fun r s1 => wp (set_fd cur fd None;; (u ← the_proc cur; fileclose (u_pid u) k);; mret r) (fun _ s' => tinv tot nobody s') any_halt s1) any_halt s).
  { intros m Hm. eapply wp_conseq; [exact Hm|]. intros r s1 [H1 P1]. wp_step.
    eapply wp_conseq; [eapply (set_fd_spec tot nobody s1 cur u fd k); [by eapply tinv_same|by rewrite P1|done]|].
    intros ? s2 [H2 _]. wp_step. eapply wp_conseq; [by apply close_spec|]. intros ? s3 [H3 _]. wp_step.
    eapply tinv_ext; [|exact H3]. apply (own_back k 1). }
  apply Hcall. case_decide; [|by wp_step]. wp_step. eapply wp_conseq; [apply fs_ipc_call_spec|]. intros r s1 H1. by wp_step.
Qed.

Lemma fstat_keeps cur p : keeps (sys_fstat cur p).
Proof.
  intros tot s Hi. unfold sys_fstat. wp_step. eapply wp_conseq; [apply argfd_spec|]. intros r s' [-> _].
  wp_step. apply wp_the_proc. intros u Hu. destruct r as [[fd k]|]; [|by wp_step]. destruct (argptr u 1 p 20) as [e q]. wp_step; [by wp_step|]. wp_step.
  unfold filestat. wp_step. apply wp_the_file. intros f Hf. destruct (f_type f); [by wp_steps..| |by wp_steps].
  apply wp_on_fs. intros st s1 H1 _. eapply tinv_same in Hi; [|exact H1]. destruct st as [st|]; [|by wp_step]. unfold put_stat.
  wp_step. repeat (wp_step; eapply wp_conseq; [apply uwrite_spec|]; intros ? ? H2; eapply tinv_same in Hi; [|exact H2]; clear H2).
  eapply wp_conseq; [apply uwrite_spec|]. intros ? ? H2. wp_step. eapply tinv_same; [exact H2|exact Hi].
Qed.

Lemma alloc_file_fd_spec cur tot s :
  tinv tot nobody s ->
  wp (alloc_file_fd cur) (fun r s' => tinv tot nobody s' /\ match r with
    | None => True
    | Some (k, _) => exists f, kn_ftable s' !! k = Some f /\ f_type f = FD_NONE /\ 0 < f_ref f
    end) any_halt s.
Proof.
  intros Hi. unfold alloc_file_fd. wp_step. eapply wp_conseq; [by apply filealloc_spec|].
  intros [k|] s1; [|intros ->; by wp_step]. intros (H1 & _ & g & f & Hg & _ & Ef & Ht & _). wp_step.
  assert (Hf : kn_ftable s1 !! k = Some f) by (rewrite Ef; apply list_lookup_insert_eq; by eapply lookup_lt_Some).
  eapply wp_conseq; [apply fdalloc_spec; [done|by eapply lookup_lt_Some]|].
  intros fd s2 [[Hneg ->]|(Hpos & H2 & E2 & u & Hu & Ho)].
  - rewrite (proj2 (Z.ltb_lt _ _)) by done. wp_step. eapply wp_conseq; [by apply close_spec|]. intros ? s3 [H3 _]. wp_step.
    split; [|done]. eapply tinv_ext; [|exact H3]. apply (own_back k 1).
  - rewrite (proj2 (Z.ltb_ge _ _)) by done. wp_step.
    assert (Hok : tinv tot nobody s2) by (eapply tinv_ext; [|exact H2]; apply (own_back k 1)).
    split; [done|]. exists f. rewrite E2. split; [done|]. split; [done|].
    rewrite (ti_ref _ _ _ Hok k f) by (by rewrite E2).
    pose proof (nrefs_pos k (ofiles s2) cur (u_ofile u) (Z.to_nat fd)) as Hp. unfold nobody. rewrite Z.add_0_r.
    apply Hp; [|done]. unfold ofiles. by rewrite list_lookup_fmap, Hu.
Qed.

(** Filling in a fresh file. *)
Lemma fill_file tot s k f (g : file -> file) :
  tinv tot nobody s -> kn_ftable s !! k = Some f -> f_type f = FD_NONE -> 0 < f_ref f ->
  f_type (g f) ≠ FD_PIPE -> f_ref (g f) = f_ref f ->
  wp (upd_file k g) (fun _ s' => tinv tot nobody s') any_halt s.
Proof.
  intros Hi Hk Ht Hr Hg Hgr. unfold upd_file. wp_step. rewrite (upd_file_alter s k f) by done.
  apply (tinv_upd_file tot nobody s k f); [done..|].
  apply (pipes_ok_insert _ _ _ f); [apply Hi|done|by rewrite Ht|done].
Qed.

Lemma open_remote_keeps cur path omode : keeps (open_remote cur path omode).
Proof.
  intros tot s Hi. unfold open_remote. wp_step. apply wp_of_option_any. intros len _. wp_step; [by wp_step|].
  wp_step. apply wp_of_option_any. intros rp _. wp_step. eapply wp_conseq; [apply fs_ipc_call_spec|].
  intros r s1 [H1 _]. eapply tinv_same in Hi; [|exact H1]. destruct r as [reply|]; [|by wp_step]. wp_step; [by wp_step|].
  wp_step. eapply wp_conseq; [by apply alloc_file_fd_spec|]. intros [[k fd]|] s2 [H2 Hf].
  - destruct Hf as (f & Hf & Ht & Hr). do 3 wp_step. eapply wp_conseq; [by eapply (fill_file tot s2 k f)|].
    intros ? s3 H3. by wp_step.
  - wp_step. eapply wp_conseq; [apply fs_ipc_call_spec|]. intros ? s3 [H3 _]. wp_step. eapply tinv_same; [exact H3|exact H2].
Qed.

Lemma open_local_keeps cur path omode : keeps (open_local dr dw cur path omode).
Proof.
  intros tot s Hi. unfold open_local. wp_step. apply wp_the_proc. intros u _. wp_step. apply wp_on_fs.
  intros ip s1 H1 _. eapply tinv_same in Hi; [|exact H1]. destruct ip as [ip|]; [|by wp_step].
  wp_step. eapply wp_conseq; [by apply alloc_file_fd_spec|]. intros [[k fd]|] s2 [H2 Hf].
  - destruct Hf as (f & Hf & Ht & Hr). wp_step. apply wp_on_fs. intros ? s3 H3 _. wp_step.
    eapply wp_conseq; [eapply (fill_file tot s3 k f); try done; [eapply tinv_same; [exact H3|exact H2]|by rewrite (proj1 H3)]|].
    intros ? s4 H4. by wp_step.
  - wp_step. apply wp_on_fs. intros ? s3 H3 _. wp_step. eapply tinv_same; [exact H3|exact H2].
Qed.

Lemma open_keeps cur : keeps (sys_open dr dw cur).
Proof.
  intros tot s Hi. unfold sys_open. wp_step. apply wp_the_proc. intros u _. wp_step; [|by wp_step].
  wp_step. eapply wp_conseq; [apply fsserver_active_spec|]. intros [] s1 ->; [by apply open_remote_keeps|by apply open_local_keeps].
Qed.

Lemma fs_keeps {A} (m : uproc -> M kfs A) cur : keeps (u ← the_proc cur; on_fs (m u)).
Proof.
  intros tot s Hi. wp_step. apply wp_the_proc. intros u _. apply wp_on_fs. intros r s1 H1 _.
  eapply tinv_same; [exact H1|exact Hi].
Qed.

Lemma link_keeps cur : keeps (sys_link dr dw cur).
Proof.
  intros tot s Hi. unfold sys_link. wp_step. apply wp_the_proc. intros u _. do 2 (wp_step; [|by wp_step]).
  apply wp_on_fs. intros r s1 H1 _. eapply tinv_same; [exact H1|exact Hi].
Qed.

Lemma unlink_keeps cur : keeps (sys_unlink dr dw cur).
Proof.
  intros tot s Hi. unfold sys_unlink. wp_step. apply wp_the_proc. intros u _. wp_step; [|by wp_step].
  apply wp_on_fs. intros r s1 H1 _. eapply tinv_same; [exact H1|exact Hi].
Qed.

Lemma chdir_keeps cur : keeps (sys_chdir dr cur).
Proof.
  intros tot s Hi. unfold sys_chdir. wp_step. apply wp_the_proc. intros u _. wp_step. apply wp_on_fs. intros r s1 H1 _.
  eapply tinv_same in Hi; [|exact H1]. destruct r as [ip|]; [|by wp_step]. wp_step. unfold upd_proc. do 2 wp_step.
  eapply tinv_same; [|exact Hi]. split_and!; try done. unfold ofiles. cbn [kn_procs set_procs].
  rewrite (list_fmap_alter _ _ (fun x => x)); [by apply list_alter_id|by apply Forall_true].
Qed.

(** ** Pipes, fork and exit *)

Lemma tinv_files tot d s s' :
  tinv tot d s -> length (kn_ftable s') = length (kn_ftable s) -> ofiles s' = ofiles s ->
  (forall j g, kn_ftable s' !! j = Some g -> exists g0, kn_ftable s !! j = Some g0 /\ f_ref g = f_ref g0 /\
     (f_type g ≠ FD_NONE -> 0 < f_ref g0)) ->
  pipes_ok (kn_ftable s') (kn_pipes s') -> (kn_pages s' + live (kn_pipes s'))%nat = tot -> tinv tot d s'.
Proof.
  intros [Hr Hd Hl Hf Hp Hn] El Eo Hg Hp' Hn'. constructor; rewrite ?Eo, ?El; try done.
  - intros j g (g0 & Hj & -> & _)%Hg. by apply Hr.
  - intros j g (g0 & Hj & -> & Ht)%Hg. done.
Qed.

Lemma pipealloc_spec tot s pid :
  tinv tot nobody s ->
  wp (pipealloc pid) (fun r s' => match r with
    | None => tinv tot nobody s'
    | Some (rf, wf) => tinv tot (own wf 1 (own rf 1 nobody)) s' /\
        (rf < length (kn_ftable s'))%nat /\ (wf < length (kn_ftable s'))%nat
    end) any_halt s.
Proof.
  intros Hi. unfold pipealloc. wp_step. eapply wp_conseq; [by apply filealloc_spec|].
  intros [f0|] s1; [|intros ->; by wp_step]. intros (H1 & _ & o0 & g0 & Ho0 & _ & E1 & Ht0 & Hr0). wp_step.
  assert (Hg0 : kn_ftable s1 !! f0 = Some g0) by (rewrite E1; apply list_lookup_insert_eq; by eapply lookup_lt_Some).
  eapply wp_conseq; [by apply filealloc_spec|]. intros [f1|] s2.
  2:{ intros ->. wp_step. eapply wp_conseq; [by apply fileclose_spec|]. intros ? s3 [H3 _]. wp_step.
      eapply tinv_ext; [|exact H3]. apply (own_back f0 1). }
  intros (H2 & _ & o1 & g1 & Ho1 & Hro1 & E2 & Ht1 & Hr1). wp_step. unfold kalloc_pipe. wp_step. wp_step.
  destruct (kn_pages s2) as [|n] eqn:En; [done|]. do 3 wp_step. unfold upd_file. do 5 wp_step.
  assert (Hn01 : f0 ≠ f1) by (intros <-; rewrite Hg0 in Ho1; injection Ho1 as ->; lia).
  assert (Hf0 : kn_ftable s2 !! f0 = Some g0) by (by rewrite E2, list_lookup_insert_ne).
  assert (Hf1 : kn_ftable s2 !! f1 = Some g1) by (rewrite E2; apply list_lookup_insert_eq; by eapply lookup_lt_Some).
  set (e0 := fun f => mkFile FD_PIPE _ 1 0 _ _ _ _ _). set (e1 := fun f => mkFile FD_PIPE _ 0 1 _ _ _ _ _).
  cbn [kn_ftable set_files set_pipes kn_pipes kn_fs kn_pages kn_procs kn_reqid kn_world].
  rewrite (alter_as_insert e0 f0 g0) by done.
  rewrite (alter_as_insert e1 f1 g1) by (by rewrite list_lookup_insert_ne).
  rewrite !length_insert. split; [|split; by eapply lookup_lt_Some].
  apply (tinv_files tot _ s2); cbn [kn_ftable kn_pipes kn_pages set_files set_pipes]; [done|by rewrite !length_insert|done| | |].
  - intros j g Hj. apply list_lookup_insert_Some in Hj as [(<- & <- & _)|[_ Hj]]; [exists g1; cbn; naive_solver lia|].
    apply list_lookup_insert_Some in Hj as [(<- & <- & _)|[_ Hj]]; [exists g0; cbn; naive_solver lia|].
    exists g. split_and!; [done..|]. by apply (ti_free _ _ _ H2 j).
  - by apply (pipes_ok_new _ _ f0 f1 g0 g1 (e0 g0) (e1 g1)); [apply H2|..].
  - rewrite live_app. cbn. pose proof (ti_pages _ _ _ H2). lia.
Qed.

Lemma pipe_keeps cur p : keeps (sys_pipe cur p).
Proof.
  intros tot s Hi. unfold sys_pipe. wp_step. apply wp_the_proc. intros u _. destruct (argptr u 0 p 8) as [e q]. wp_step; [by wp_step|].
  wp_step. eapply wp_conseq; [by apply pipealloc_spec|]. intros [[rf wf]|] s1 H1; [|by wp_step]. destruct H1 as (H1 & Hrf & Hwf).
  assert (Hbad : forall s2, tinv tot (own wf 1 (own rf 1 nobody)) s2 ->
            wp ((u ← the_proc cur; fileclose (u_pid u) rf);; (u ← the_proc cur; fileclose (u_pid u) wf);; mret (-1))
               (fun _ s' => tinv tot nobody s') any_halt s2).
  { intros s2 H2. wp_step. eapply wp_conseq; [by apply close_spec|]. intros ? s3 [H3 _]. wp_step.
    eapply wp_conseq; [by apply close_spec|]. intros ? s4 [H4 _]. wp_step. eapply tinv_ext; [|exact H4].
    intros k. unfold own, nobody. repeat case_decide; lia. }
  wp_step. eapply wp_conseq; [by apply fdalloc_spec|]. intros fd0 s2 [[Hneg ->]|(Hpos & H2 & E2 & u2 & Hu2 & Ho2)].
  { rewrite (proj2 (Z.ltb_lt _ _)) by done. do 2 wp_step. cbn [orb]. rewrite (proj2 (Z.leb_gt _ _)) by lia.
    wp_step. wp_step. wp_step. by apply Hbad. }
  rewrite (proj2 (Z.ltb_ge _ _)) by done. wp_step. eapply wp_conseq; [apply fdalloc_spec; [done|by rewrite E2]|].
  intros fd1 s3 [[Hneg ->]|(Hpos1 & H3 & _)].
  - rewrite (proj2 (Z.ltb_lt _ _)) by done. cbn [orb]. rewrite (proj2 (Z.leb_le _ _)) by done. wp_step. cbn [when].
    eapply wp_conseq; [by eapply (set_fd_spec tot _ s2 cur u2 (Z.to_nat fd0) rf)|]. intros ? s4 [H4 _].
    apply Hbad. eapply tinv_ext; [|exact H4]. intros k. unfold own, nobody. repeat case_decide; lia.
  - rewrite (proj2 (Z.ltb_ge _ _)) by done. cbn [orb].
    assert (H3' : tinv tot nobody s3) by (eapply tinv_ext; [|exact H3]; intros k; unfold own, nobody; repeat case_decide; lia).
    wp_step. eapply wp_conseq; [apply uwrite_spec|]. intros ? s4 H4. wp_step.
    eapply wp_conseq; [apply uwrite_spec|]. intros ? s5 H5. wp_step.
    eapply tinv_same; [exact H5|]. eapply tinv_same; [exact H4|exact H3'].
Qed.

(** [fork] fills a slot whose descriptors are all closed. *)
Definition cleared s (np : nat) : Prop :=
  exists c, kn_procs s !! np = Some c /\ u_ofile c = replicate NOFILE None.

Lemma fork_keeps cur np tot s :
  tinv tot nobody s -> cleared s np -> wp (fork_files cur np) (fun _ s' => tinv tot nobody s') any_halt s.
Proof.
  intros Hi (c & Hc & Hcl). unfold fork_files. wp_step. apply wp_the_proc. intros u _. wp_step.
  apply (wp_for_each (fun xs s => tinv tot nobody s /\ NoDup xs /\
    exists c, kn_procs s !! np = Some c /\ forall j, j ∈ xs -> u_ofile c !! j = Some None)).
  - split; [done|]. split; [apply NoDup_seq|]. exists c. split; [done|]. intros j Hj%elem_of_seq.
    rewrite Hcl. apply lookup_replicate. split; [done|lia].
  - clear c Hc Hcl Hi s. intros i xs s (Hi & Hnd & c & Hc & Hnone). apply NoDup_cons in Hnd as [Hnin Hnd].
    assert (Hnext : tinv tot nobody s /\ NoDup xs /\ exists c, kn_procs s !! np = Some c /\ forall j, j ∈ xs -> u_ofile c !! j = Some None).
    { split_and!; [done..|]. exists c. split; [done|]. intros j Hj. apply Hnone. by right. }
    destruct (u_ofile u !! i) as [[k|]|]; [|by wp_step..].
    wp_step. eapply wp_conseq; [by apply filedup_spec|]. intros ? s1 (H1 & P1 & Hlt). do 3 wp_step. split; [|split; [done|]].
    + rewrite <- P1 in Hc. eapply tinv_ext; [|eapply (tinv_set_fd tot _ s1 np c i None (Some k)); [done..|apply Hnone; by left|]].
      * intros j. unfold own, nobody, is_ref. repeat case_bool_decide; repeat case_decide; naive_solver lia.
      * intros j [= <-]. done.
    + eexists. cbn [kn_procs set_procs]. rewrite P1, list_lookup_alter_eq, Hc. split; [done|]. intros j Hj. cbn.
      rewrite list_lookup_insert_ne by (intros ->; done). apply Hnone. by right.
  - clear c Hc Hcl Hi. intros s1 (H1 & _ & _). wp_step. apply wp_on_fs. intros ? s2 H2 _. wp_step. eapply tinv_same; [|exact H1].
    eapply same_tables_trans; [exact H2|]. split_and!; try done. unfold ofiles. cbn [kn_procs set_procs].
    rewrite (list_fmap_alter _ _ (fun x => x)); [by apply list_alter_id|by apply Forall_true].
Qed.

Lemma exit_keeps cur : keeps (exit_files cur).
Proof.
  intros tot s Hi. unfold exit_files. wp_step. apply (wp_for_each (fun _ s => tinv tot nobody s)); [done| |].
  - clear s Hi. intros fd xs s Hi. wp_step. apply wp_the_proc. intros u Hu.
    destruct (u_ofile u !! fd) as [[k|]|] eqn:Ho; [|by wp_step..]. wp_step. eapply wp_conseq; [by apply fileclose_spec|].
    intros ? s1 [H1 P1]. wp_step. eapply wp_conseq; [eapply (set_fd_spec tot _ s1 cur u fd k); [done|by rewrite P1|done]|].
    intros ? s2 [H2 _]. wp_step. eapply tinv_ext; [|exact H2]. apply (own_back k (-1)).
  - intros s1 H1. wp_step. apply wp_the_proc. intros u _. apply wp_on_fs. intros ? s2 H2 _. eapply tinv_same; [exact H2|exact H1].
Qed.

(** ** Sequences of calls *)

Inductive fcall : Type :=
| CDup | CRead (p : Z) | CWrite (p : Z) | CClose | CFstat (p : Z) | CLink | CUnlink | COpen | CMkdir | CMknod | CChdir | CPipe (p : Z)
| CFork (np : nat) | CExit.

(** Process [cur] makes one call; [p] is what the pointer variable of the
    handler holds when the call starts. *)
Definition run_call (cur : nat) (c : fcall) : M (kern W) Z :=
  match c with
  | CDup => sys_dup cur
  | CRead p => sys_read dr cur p
  | CWrite p => sys_write dw cur p
  | CClose => sys_close cur
  | CFstat p => sys_fstat cur p
  | CLink => sys_link dr dw cur
  | CUnlink => sys_unlink dr dw cur
  | COpen => sys_open dr dw cur
  | CMkdir => sys_mkdir dr dw cur
  | CMknod => sys_mknod dr dw cur
  | CChdir => sys_chdir dr cur
  | CPipe p => sys_pipe cur p
  | CFork np => fork_files cur np;; mret 0
  | CExit => exit_files cur;; mret 0
  end.

(** A call of some process returns, or something happens that leaves the
    tables alone: user code, other processes, the file server. *)
Inductive fstep : kern W -> kern W -> Prop :=
| fs_call cur c s r s' :
    match c with CFork np => cleared s np | _ => True end -> run_call cur c s = (Ret r, s') -> fstep s s'
| fs_other s s' : same_tables s s' -> fstep s s'.

Lemma call_keeps tot cur c s r s' :
  tinv tot nobody s -> match c with CFork np => cleared s np | _ => True end ->
  run_call cur c s = (Ret r, s') -> tinv tot nobody s'.
Proof.
  intros Hi Hc E. assert (Hw : wp (run_call cur c) (fun _ s' => tinv tot nobody s') any_halt s).
  { destruct c; cbn [run_call]; try by (apply dup_keeps || apply read_keeps || apply write_keeps || apply close_keeps
      || apply fstat_keeps || apply link_keeps || apply unlink_keeps || apply open_keeps || apply chdir_keeps
      || apply pipe_keeps || apply fs_keeps).
    - wp_step. eapply wp_conseq; [by apply fork_keeps|]. intros. by wp_step.
    - wp_step. eapply wp_conseq; [by apply exit_keeps|]. intros. by wp_step. }
  unfold wp in Hw. by rewrite E in Hw.
Qed.

(** Before the first call: nothing is open. *)
Definition fresh_tables s : Prop :=
  Forall (fun f => f_type f = FD_NONE /\ f_ref f = 0) (kn_ftable s) /\
  Forall (fun u => u_ofile u = replicate NOFILE None) (kn_procs s) /\ kn_pipes s = [].

Lemma nrefs_cleared k procs : Forall (fun u => u_ofile u = replicate NOFILE None) procs -> nrefs k (u_ofile <$> procs) = 0.
Proof.
  induction 1 as [|u procs Hu _ IH]; [done|]. cbn [fmap list_fmap]. rewrite Hu. unfold nrefs in *. cbn [fmap list_fmap zsum].
  unfold NOFILE. cbn. exact IH.
Qed.

Lemma fresh_tinv s : fresh_tables s -> tinv (kn_pages s) nobody s.
Proof.
  intros (Hf & Hp & Hn). constructor.
  - intros k f Hk. rewrite Forall_lookup in Hf. destruct (Hf k f Hk) as [_ ->]. unfold ofiles. by rewrite nrefs_cleared.
  - intros k. unfold ofiles. rewrite nrefs_cleared by done. lia.
  - intros l Hl. unfold ofiles in Hl. apply list_elem_of_fmap in Hl as (u & -> & Hu).
    rewrite Forall_forall in Hp. by rewrite (Hp u Hu).
  - intros k f Hk. rewrite Forall_lookup in Hf. by destruct (Hf k f Hk) as [-> _].
  - rewrite Hn. constructor; try by (intros; rewrite lookup_nil in *; done).
    + intros k f Hk Ht. rewrite Forall_lookup in Hf. destruct (Hf k f Hk) as [E _]. congruence.
    + intros k k' f f' i wr Hk _ (Ht & _) _. rewrite Forall_lookup in Hf. destruct (Hf k f Hk) as [E _]. congruence.
  - rewrite Hn. cbn. lia.
Qed.

Lemma fsteps_tinv tot s s' : rtc fstep s s' -> tinv tot nobody s -> tinv tot nobody s'.
Proof.
  induction 1 as [|s1 s2 s3 Hst _ IH]; [done|]. intros H1. apply IH. destruct Hst as [cur c s r s' Hc E|s s' Hs].
  - by eapply call_keeps.
  - by eapply tinv_same.
Qed.

(** C10: reference counts and pipes are exact after any sequence of file
    system calls of any processes, forks and exits included, from a system
    with no open file: a file's count is the number of descriptors that refer
    to it, every descriptor refers to a live file, an end of a pipe is open
    exactly as long as a file refers to it, a pipe is freed exactly when both
    ends are closed, and no page is lost.  The pointers of the calls are
    arbitrary, as is what the stack holds when one is refused: a call that
    then touches memory outside the process ends the run. *)
Theorem file_table_sound s0 s :
  fresh_tables s0 -> rtc fstep s0 s ->
  (forall k f, kn_ftable s !! k = Some f -> f_ref f = nrefs k (ofiles s)) /\
  (forall cur u fd k, kn_procs s !! cur = Some u -> u_ofile u !! fd = Some (Some k) ->
     exists f, kn_ftable s !! k = Some f /\ 0 < f_ref f) /\
  (forall k f, kn_ftable s !! k = Some f -> f_type f = FD_PIPE ->
     exists i p wr, is_end i wr f /\ kn_pipes s !! i = Some (Some p) /\ end_open wr p) /\
  (forall i p, kn_pipes s !! i = Some (Some p) ->
     (exists wr, end_open wr p) /\
     forall wr, end_open wr p <-> exists k f, kn_ftable s !! k = Some f /\ is_end i wr f /\ 0 < f_ref f) /\
  (kn_pages s + live (kn_pipes s))%nat = kn_pages s0.
Proof.
  intros H0 Hr. assert (Hi : tinv (kn_pages s0) nobody s) by (eapply fsteps_tinv; [exact Hr|by apply fresh_tinv]).
  assert (Hrefs : forall k f, kn_ftable s !! k = Some f -> f_ref f = nrefs k (ofiles s)).
  { intros k f Hk. rewrite (ti_ref _ _ _ Hi k f Hk). unfold nobody. lia. }
  destruct Hi as [_ Hd _ Hf [Hl Hu He Ho] Hn]. split; [done|]. split; [|split; [done|split; [|done]]].
  - intros cur u fd k Hcur Hfd.
    assert (Hp : 0 < nrefs k (ofiles s)).
    { eapply (nrefs_pos k _ cur); [|exact Hfd]. unfold ofiles. by rewrite list_lookup_fmap, Hcur. }
    destruct (lookup_lt_is_Some_2 (kn_ftable s) k (Hd k Hp)) as [f Hk]. exists f. split; [done|]. by rewrite (Hrefs k f Hk).
  - intros i p Hi. split; [by apply (Ho i p)|]. intros wr. split.
    + intros Hwr. destruct (He i p wr Hi Hwr) as (k & f & Hk & Hend). exists k, f. split_and!; [done|apply Hend..|].
      apply (Hf k f Hk). destruct Hend as [-> _]. done.
    + intros (k & f & Hk & Hend & _). destruct (Hl k f Hk (proj1 Hend)) as (i' & p' & wr' & Hend' & Hi' & Hop).
      destruct (is_end_fun _ _ _ _ _ Hend Hend') as [-> ->]. by assert (p' = p) as -> by congruence.
Qed.
End ops.

Module FileInstances.
(** Two processes and no file server. *)
#[local] Instance no_server : IpcEnv unit := {|
  env_fsserver := fun _ => -1;
  env_send := fun _ _ _ => mret (-1);
  env_recv := fun _ => mret (-1, zero_msg);
|}.

Definition kfs0 : kfs := mkKfs (mkLsys (mkLog 2 30 0 0 1 0 (replicate 30 0)) (binit (replicate 40 (replicate 512 0))))
                               (mkSb 40 6 8 30 2 32 33) (replicate NINODE zero_inode).
Definition proc0 (pid : Z) : uproc := mkUproc pid 0 8192 [4096; 0; 0; 0; 0; 0] (fun _ => 0) (replicate NOFILE None) 0.
Definition s0 : kern unit := mkKern kfs0 (replicate NFILE zero_file) [] 3 [proc0 1; proc0 2] 1 tt.
Definition nodev_r : Z -> option (nat -> Z -> Z -> M kfs (Z * list Z)) := fun _ => None.
Definition nodev_w : Z -> option (nat -> Z -> list Z -> Z -> M kfs Z) := fun _ => None.

(** Process 0 makes a pipe, forks process 1 and closes descriptor 0. *)
Definition s1 : kern unit := (run_call nodev_r nodev_w 0 (CPipe 0) s0).2.
Definition s2 : kern unit := (run_call nodev_r nodev_w 0 (CFork 1) s1).2.
Definition s2' : kern unit :=
  set_procs (alter (fun u => mkUproc 1 0 8192 [0; 0; 0; 0; 0; 0] (u_mem u) (u_ofile u) 0) O (kn_procs s2)) s2.
Definition s3 : kern unit := (run_call nodev_r nodev_w 0 CClose s2').2.

Definition answers_0 (r : outcome Z) : bool := match r with Ret z => z =? 0 | Halt _ => false end.

Lemma run_ret cur c (s : kern unit) :
  answers_0 (run_call nodev_r nodev_w cur c s).1 = true ->
  run_call nodev_r nodev_w cur c s = (Ret 0, (run_call nodev_r nodev_w cur c s).2).
Proof. destruct (run_call nodev_r nodev_w cur c s) as [[z|h] s']; cbn; [|done]. by intros ->%Z.eqb_eq. Qed.

Lemma step1 : fstep nodev_r nodev_w s0 s1.
Proof. apply (fs_call nodev_r nodev_w 0 (CPipe 0) s0 0 s1 I). apply (run_ret 0 (CPipe 0) s0). vm_compute. reflexivity. Qed.

Lemma step2 : fstep nodev_r nodev_w s1 s2.
Proof.
  apply (fs_call nodev_r nodev_w 0 (CFork 1) s1 0 s2).
  - exists (proc0 2). split; [vm_compute; reflexivity|done].
  - apply (run_ret 0 (CFork 1) s1). vm_compute. reflexivity.
Qed.

Lemma step3 : fstep nodev_r nodev_w s2 s2'.
Proof. apply (fs_other nodev_r nodev_w s2 s2'). by split_and!; vm_compute. Qed.

Lemma step4 : fstep nodev_r nodev_w s2' s3.
Proof. apply (fs_call nodev_r nodev_w 0 CClose s2' 0 s3 I). apply (run_ret 0 CClose s2'). vm_compute. reflexivity. Qed.

Lemma file_table_sound_witness :
  nrefs 0 (ofiles s3) = 1 /\ nrefs 1 (ofiles s3) = 2 /\ live (kn_pipes s3) = 1%nat /\
  ((forall k f, kn_ftable s3 !! k = Some f -> f_ref f = nrefs k (ofiles s3)) /\
   (forall cur u fd k, kn_procs s3 !! cur = Some u -> u_ofile u !! fd = Some (Some k) ->
      exists f, kn_ftable s3 !! k = Some f /\ 0 < f_ref f) /\
   (forall k f, kn_ftable s3 !! k = Some f -> f_type f = FD_PIPE ->
      exists i p wr, is_end i wr f /\ kn_pipes s3 !! i = Some (Some p) /\ end_open wr p) /\
   (forall i p, kn_pipes s3 !! i = Some (Some p) ->
      (exists wr, end_open wr p) /\
      forall wr, end_open wr p <-> exists k f, kn_ftable s3 !! k = Some f /\ is_end i wr f /\ 0 < f_ref f) /\
   (kn_pages s3 + live (kn_pipes s3))%nat = kn_pages s0).
Proof.
  do 3 (split; [by vm_compute|]). apply (file_table_sound nodev_r nodev_w s0 s3).
  - split_and!; [by apply Forall_replicate|by repeat constructor|done].
  - exact (rtc_l _ _ _ _ step1 (rtc_l _ _ _ _ step2 (rtc_l _ _ _ _ step3 (rtc_once _ _ step4)))).
Defined.
End FileInstances.
