(* ===== verification/FilePipe.v ===== *)
(** * FilePipe: what the system call [pipe] leaves (sysfile.c, file.c, pipe.c)

    The call, from the check of its argument to the two descriptor numbers in
    the memory of the caller. *)
From S2P Require Import Prelude CString FsFormat Ring Bio Log KFs Ipc Pipe Mmu Syscall FileTab SysFile FileInv.

Section pipe_call.
Context {W : Type} `{IpcEnv W}.
Implicit Types s : kern W.

Lemma find_exists (P : nat -> bool) n j : (j < n)%nat -> P j = true -> exists k, List.find P (seq 0 n) = Some k /\ (k < n)%nat /\ P k = true.
Proof.
  intros Hj HP. destruct (List.find P (seq 0 n)) as [k|] eqn:E.
  - apply find_some in E as [Hin Hk]. apply in_seq in Hin. exists k. split_and!; [done|lia|done].
  - exfalso. pose proof (find_none _ _ E j) as Hn. rewrite Hn in HP; [done|]. apply in_seq. lia.
Qed.

(** The entry [filealloc] returns. *)
Definition new_file : file := mkFile FD_NONE 1 0 0 None None 0 (-1) (-1).

Lemma filealloc_total s j f : kn_ftable s !! j = Some f -> f_ref f = 0 ->
  wp filealloc (fun r s' => exists k g, r = Some k /\ kn_ftable s !! k = Some g /\ f_ref g = 0 /\
    s' = set_files (<[k := new_file]> (kn_ftable s)) s) no_halt s.
Proof.
  intros Hj Hf. unfold filealloc. wp_step. wp_step.
  destruct (find_exists (fun i => match kn_ftable s !! i with Some f => f_ref f =? 0 | None => false end) (length (kn_ftable s)) j) as (k & -> & _ & Hk).
  { by eapply lookup_lt_Some. } { rewrite Hj. by apply Z.eqb_eq. }
  destruct (kn_ftable s !! k) as [g|] eqn:Hg; [|done]. apply Z.eqb_eq in Hk. unfold upd_file. do 3 wp_step.
  exists k, g. split_and!; try done. by rewrite (alter_as_insert _ k g).
Qed.

Lemma wp_proc cur u s (Q : uproc -> kern W -> Prop) E : kn_procs s !! cur = Some u -> Q u s -> wp (the_proc cur) Q E s.
Proof. intros Hu HQ. unfold the_proc. do 2 wp_step. by eapply wp_of_option. Qed.

Lemma fdalloc_total cur s u d k : kn_procs s !! cur = Some u -> (d < NOFILE)%nat -> u_ofile u !! d = Some None ->
  wp (fdalloc cur k) (fun r s' => exists fd, r = Z.of_nat fd /\ (fd < NOFILE)%nat /\ u_ofile u !! fd = Some None /\
    s' = set_procs (<[cur := set_ofile (<[fd := Some k]> (u_ofile u)) u]> (kn_procs s)) s) no_halt s.
Proof.
  intros Hu Hd Ho. unfold fdalloc. wp_step. eapply wp_proc; [done|].
  destruct (find_exists (fun fd => match u_ofile u !! fd with Some None => true | _ => false end) NOFILE d) as (fd & -> & Hfd & Hf); [done|by rewrite Ho|].
  destruct (u_ofile u !! fd) as [[?|]|] eqn:E; [done| |done]. unfold upd_proc. do 3 wp_step. exists fd. split_and!; try done.
  by rewrite (alter_as_insert _ cur u).
Qed.

Lemma uwrite_total cur s u a bs : kn_procs s !! cur = Some u -> user_range u a (Z.of_nat (length bs)) = true ->
  wp (uwrite cur a bs) (fun _ s' => s' = set_procs (<[cur := set_umem (poke a bs (u_mem u)) u]> (kn_procs s)) s) no_halt s.
Proof.
  intros Hu Hr. unfold uwrite. wp_step. eapply wp_proc; [done|]. rewrite Hr, orb_true_r. unfold upd_proc. wp_step.
  by rewrite (alter_as_insert _ cur u).
Qed.

(** The files at the two ends of pipe [i]. *)
Definition read_end (i : nat) : file := mkFile FD_PIPE 1 1 0 (Some i) None 0 (-1) (-1).
Definition write_end (i : nat) : file := mkFile FD_PIPE 1 0 1 (Some i) None 0 (-1) (-1).

Lemma pipealloc_total s pid j0 j1 g0 g1 n : j0 ≠ j1 -> kn_ftable s !! j0 = Some g0 -> kn_ftable s !! j1 = Some g1 -> f_ref g0 = 0 -> f_ref g1 = 0 -> kn_pages s = S n ->
  wp (pipealloc pid) (fun r s' => exists f0 f1 h0 h1, r = Some (f0, f1) /\ f0 ≠ f1 /\ kn_ftable s !! f0 = Some h0 /\ kn_ftable s !! f1 = Some h1 /\ f_ref h0 = 0 /\ f_ref h1 = 0 /\
    s' = set_files (<[f1 := write_end (length (kn_pipes s))]> (<[f0 := read_end (length (kn_pipes s))]> (kn_ftable s)))
           (set_pipes (kn_pipes s ++ [Some (pipe_init (replicate 512 1))]) n s)) no_halt s.
Proof.
  intros Hne H0 H1 R0 R1 Hn. unfold pipealloc. wp_step. wp_call (filealloc_total s j0 g0); [done..|]. intros r s1 (f0 & h0 & -> & Hh0 & Rh0 & ->). cbv iota.
  assert (exists j g, j ≠ f0 /\ kn_ftable s !! j = Some g /\ f_ref g = 0) as (j & g & Hj & Hg & Rg).
  { destruct (decide (j0 = f0)) as [->|]; [by exists j1, g1|by exists j0, g0]. }
  wp_step. wp_call (filealloc_total (set_files (<[f0 := new_file]> (kn_ftable s)) s) j g); [cbn; by rewrite list_lookup_insert_ne by done|done|].
  intros r s2 (f1 & h1 & -> & Hh1 & Rh1 & ->). cbv iota. cbn [kn_ftable set_files] in *.
  assert (Hf : f0 ≠ f1). { intros <-. rewrite list_lookup_insert_eq in Hh1 by (by eapply lookup_lt_Some). by injection Hh1 as <-. }
  rewrite list_lookup_insert_ne in Hh1 by done. unfold kalloc_pipe, upd_file. wp_step. wp_step. wp_step. cbn [kn_pages set_files]. rewrite Hn. do 7 wp_step.
  exists f0, f1, h0, h1. split_and!; try done. unfold set_files, set_pipes. cbn [kn_fs kn_ftable kn_pipes kn_pages kn_procs kn_reqid kn_world]. f_equal.
  rewrite (alter_as_insert _ f0 new_file) by (rewrite list_lookup_insert_ne by done; apply list_lookup_insert_eq; by eapply lookup_lt_Some).
  rewrite (alter_as_insert _ f1 new_file).
  2: { rewrite list_lookup_insert_ne by done. apply list_lookup_insert_eq. rewrite length_insert. by eapply lookup_lt_Some. }
  rewrite (list_insert_insert_ne _ f0 f1) by done. by rewrite !list_insert_insert_eq.
Qed.

(** C36: the system call [pipe], with two free files, two closed descriptors
    and a page to spare, returns 0.  Two descriptors that were closed name the
    two ends of a new pipe, and their numbers are in the memory of the caller
    at the pointer [p] the handler uses; the rest of that memory, the other
    descriptors and the other files are as before.  [p] is the argument only
    if it passes the check of [argptr]: the test of the result never holds, and
    for a refused argument [p] is what the stack held, [p0]. *)
Theorem pipe_stores_through_pointer s cur u p0 j0 j1 g0 g1 d0 d1 n :
  kn_procs s !! cur = Some u ->
  j0 ≠ j1 -> kn_ftable s !! j0 = Some g0 -> kn_ftable s !! j1 = Some g1 -> f_ref g0 = 0 -> f_ref g1 = 0 ->
  d0 ≠ d1 -> (d0 < NOFILE)%nat -> (d1 < NOFILE)%nat -> u_ofile u !! d0 = Some None -> u_ofile u !! d1 = Some None -> kn_pages s = S n ->
  let refused := ((u_sz u <=? u32 (argaddr u 0)) || (u_sz u <? u32 (u32 (argaddr u 0) + 8)))%bool in
  let p := if refused then p0 else argaddr u 0 in
  user_range u p 8 = true ->
  wp (sys_pipe cur p0)
     (fun r s' => r = 0 /\ exists fd0 fd1 f0 f1 u', fd0 ≠ fd1 /\ u_ofile u !! fd0 = Some None /\ u_ofile u !! fd1 = Some None /\
        kn_procs s' = <[cur := u']> (kn_procs s) /\ u_ofile u' = <[fd1 := Some f1]> (<[fd0 := Some f0]> (u_ofile u)) /\
        peek (u_mem u') p 8 = le_bytes 4 (Z.of_nat fd0) ++ le_bytes 4 (Z.of_nat fd1) /\ (forall x, x < p \/ p + 8 <= x -> u_mem u' x = u_mem u x) /\
        kn_ftable s' !! f0 = Some (read_end (length (kn_pipes s))) /\ kn_ftable s' !! f1 = Some (write_end (length (kn_pipes s))) /\
        (forall k, k ≠ f0 -> k ≠ f1 -> kn_ftable s' !! k = kn_ftable s !! k) /\
        kn_pipes s' = kn_pipes s ++ [Some (pipe_init (replicate 512 1))] /\ kn_pages s' = n) no_halt s.
Proof.
  intros Hu Hj Hg0 Hg1 R0 R1 Hd D0 D1 O0 O1 Hn refused p Hp. unfold sys_pipe. wp_step. eapply wp_proc; [done|].
  assert (Ep : argptr u 0 p0 8 = (if refused then u64 (-1) else 0, p)) by (unfold p, argptr; change (8 <? 0) with false; cbn [orb]; fold refused; by destruct refused).
  rewrite Ep. assert (((if refused then u64 (-1) else 0) <? 0) = false) as -> by (by destruct refused). clear Ep.
  wp_step. wp_call (pipealloc_total s (u_pid u) j0 j1 g0 g1 n); [done..|]. intros r s1 (f0 & f1 & h0 & h1 & -> & Hf & Hh0 & Hh1 & _ & _ & ->). cbv iota.
  set (s1 := set_files _ _). wp_step. wp_call (fdalloc_total cur s1 u d0 f0); [done..|]. intros r s2 (fd0 & -> & Hfd0 & Ho0 & ->).
  rewrite (proj2 (Z.ltb_ge _ _)) by lia. cbv iota. set (u1 := set_ofile _ u). set (s2 := set_procs _ s1). wp_step.
  assert (Hu1 : kn_procs s2 !! cur = Some u1) by (apply list_lookup_insert_eq; by eapply lookup_lt_Some).
  assert (exists d, (d < NOFILE)%nat /\ u_ofile u1 !! d = Some None) as (d & Hdn & Hdo).
  { cbn [u_ofile set_ofile u1]. destruct (decide (d0 = fd0)) as [->|]; [exists d1|exists d0]; by rewrite list_lookup_insert_ne. }
  wp_call (fdalloc_total cur s2 u1 d f1); [done..|]. intros r s3 (fd1 & -> & Hfd1 & Ho1 & ->). rewrite (proj2 (Z.ltb_ge _ _)) by lia. cbn [orb].
  assert (Hfd : fd0 ≠ fd1). { intros <-. cbn [u_ofile set_ofile u1] in Ho1. by rewrite list_lookup_insert_eq in Ho1 by (by eapply lookup_lt_Some). }
  assert (Ho1' : u_ofile u !! fd1 = Some None) by (cbn [u_ofile set_ofile u1] in Ho1; by rewrite list_lookup_insert_ne in Ho1).
  set (u2 := set_ofile _ u1). set (s3 := set_procs _ s2).
  assert (Hu2 : kn_procs s3 !! cur = Some u2) by (apply list_lookup_insert_eq; by eapply lookup_lt_Some).
  apply andb_true_iff in Hp as [Hp1 Hp2]. apply Z.leb_le in Hp1, Hp2.
  wp_step. wp_call (uwrite_total cur s3 u2 p (le_bytes 4 (Z.of_nat fd0))); [done|apply andb_true_iff; split; apply Z.leb_le; cbn; lia|].
  intros _ s4 ->. set (u3 := set_umem _ u2). set (s4 := set_procs _ s3).
  assert (Hu3 : kn_procs s4 !! cur = Some u3) by (apply list_lookup_insert_eq; by eapply lookup_lt_Some).
  wp_step. wp_call (uwrite_total cur s4 u3 (p + 4) (le_bytes 4 (Z.of_nat fd1))); [done|apply andb_true_iff; split; apply Z.leb_le; cbn; lia|].
  intros _ s5 ->. wp_step. split; [done|]. eexists fd0, fd1, f0, f1, _. split_and!; [done..| | | | | | | | |].
  all: cbn [kn_procs kn_ftable kn_pipes kn_pages set_procs set_files set_pipes s4 s3 s2 s1].
  - by rewrite !list_insert_insert_eq.
  - done.
  - cbn [u_mem set_umem]. change 8%nat with (4 + 4)%nat. rewrite peek_app. f_equal; [|exact (peek_poke (p + 4) (le_bytes 4 (Z.of_nat fd1)) (u_mem u3))].
    rewrite peek_poke_other by (rewrite ?length_le_bytes; lia). exact (peek_poke p (le_bytes 4 (Z.of_nat fd0)) (u_mem u2)).
  - intros x Hx. cbn [u_mem set_umem]. rewrite poke_other by (rewrite length_le_bytes; lia). cbn [u_mem set_umem u3]. by rewrite poke_other by (rewrite length_le_bytes; lia).
  - rewrite list_lookup_insert_ne by done. apply list_lookup_insert_eq. by eapply lookup_lt_Some.
  - apply list_lookup_insert_eq. rewrite length_insert. by eapply lookup_lt_Some.
  - intros k Hk0 Hk1. by rewrite !list_lookup_insert_ne by done.
  - done.
  - done.
Qed.
End pipe_call.

Module PipeInstances.
#[local] Instance alone : IpcEnv unit := {|
  env_fsserver := fun _ => -1;
  env_send := fun _ _ _ => mret (-1);
  env_recv := fun _ => mret (-1, zero_msg);
|}.

(** The argument 65536 lies outside the 8192 bytes of the process; the stack
    held 4096.  The call stores descriptors 0 and 1 there. *)
Definition caller : uproc := mkUproc 1 0 8192 [65536; 0; 0; 0; 0; 0] (fun _ => 255) (replicate NOFILE None) 0.
Definition idle_fs0 : kfs := mkKfs (mkLsys (mkLog 2 30 0 0 1 0 (replicate 30 0)) (binit [])) (mkSb 40 6 8 30 2 32 33) (replicate NINODE zero_inode).
Definition before_pipe : kern unit := mkKern idle_fs0 (replicate NFILE zero_file) [] 1 [caller] 1 tt.

Lemma pipe_stores_through_pointer_witness :
  (argptr caller 0 4096 8).1 = 2 ^ 64 - 1 /\
  (peek (u_mem (default caller (kn_procs (sys_pipe 0 4096 before_pipe).2 !! O))) 4096 8 = [0; 0; 0; 0; 1; 0; 0; 0]) /\
  wp (sys_pipe 0 4096) (fun r s' => r = 0 /\ kn_pipes s' = [Some (pipe_init (replicate 512 1))]) no_halt before_pipe.
Proof.
  split; [by vm_compute|]. split; [by vm_compute|].
  eapply wp_conseq; [apply (pipe_stores_through_pointer before_pipe 0 caller 4096 0 1 zero_file zero_file 0 1 0); try done; unfold NOFILE; lia|].
  cbv beta. intros r s' (-> & fd0 & fd1 & f0 & f1 & u' & _ & _ & _ & _ & _ & _ & _ & _ & _ & _ & Hp & _). done.
Defined.
End PipeInstances.
