(* ===== verification/Remote.v ===== *)
(** * Remote: read through the file server, end to end

    A client's remote [read] composed with the server that serves it: the
    handler [sys_read] of SysFile.v sends its requests, the loop body
    [handle] of FssServer.v runs on each of them over the device below, and
    the reply is in the client's mailbox when it calls [ipc_recv_msg].  The
    network here delivers one message at a time; Proc.v shows that the
    kernel's mailboxes deliver what was sent, in order and from its sender. *)
From S2P Require Import Prelude CString FsFormat Ring Bio BlockDev DiskReq Log KFs Ipc Pipe Mmu Syscall FileTab SysFile.
From S2P Require Import FssCache FssFile FssDir FssRefs FssServer FssInv FssTheorems.

(** The server process, its state and the client's mailbox. *)
Record net (D : Type) := mkNet {
  nt_pid : Z;
  nt_server : fss D;
  nt_mail : option ipc_msg;
}.
Arguments mkNet {D}.
Arguments nt_pid {D}.
Arguments nt_server {D}.
Arguments nt_mail {D}.

Section net.
Context {D : Type} `{BlockDevLaws D}.
Implicit Types w : net D.
Implicit Types sv : fss D.

(** The reply to [me] among the messages the server sent. *)
Definition reply_for (me : Z) (server : Z) (sent : list (Z * ipc_msg)) : option ipc_msg :=
  match List.find (fun x => (x.1 =? me) && valid_ipc_msg x.2)%bool sent with
  | Some (_, m) => Some (set_sender server m)
  | None => None
  end.

(** A server that halted never answers. *)
Definition net_send (me pid : Z) (msg : ipc_msg) : M (net D) Z := fun w =>
  let kmsg := set_sender me msg in
  if negb (valid_ipc_msg kmsg) then (Ret (-1), w)
  else if negb (pid =? nt_pid w) then (Ret (-1), w)
  else
    match handle kmsg (set_sent [] (nt_server w)) with
    | (Ret _, sv) => (Ret 0, mkNet (nt_pid w) sv (reply_for me (nt_pid w) (fs_sent sv)))
    | (Halt _, sv) => (Ret 0, mkNet (nt_pid w) sv None)
    end.

Definition net_recv (me : Z) : M (net D) (Z * ipc_msg) := fun w =>
  match nt_mail w with
  | Some m => (Ret (0, m), mkNet (nt_pid w) (nt_server w) None)
  | None => (Halt WouldBlock, w)
  end.

#[export] Instance net_env : IpcEnv (net D) := {|
  env_fsserver := nt_pid;
  env_send := net_send;
  env_recv := net_recv;
|}.

(** A file the client has open at the server for reading: descriptor [rfd],
    offset [off], inode [nd], all of whose bytes up to [off + n] are mapped. *)
Record readable sv (pid rfd off n : Z) (e : fd_entry) (ip : nat) (nd : uinode) : Prop := mkReadable {
  ra_sinv : sinv sv;
  ra_cinv : cinv [] sv;
  ra_fd : 0 <= rfd;
  ra_owns : owns pid sv (Z.to_nat rfd) e;
  ra_off : fe_off e = off;
  ra_range : 0 <= off /\ off + n <= 2 ^ 30;
  ra_readable : fe_readable e ≠ 0;
  ra_ip : fs_fdi sv !! Z.to_nat rfd = Some (Some ip);
  ra_nd : fs_inodes sv !! ip = Some nd;
  ra_size : 0 <= ui_size nd < 2 ^ 31;
  ra_mapped x : off <= x < Z.min (off + n) (ui_size nd) -> mapped sv nd (x / BSIZE);
}.

(** How many bytes there are to read. *)
Definition available (nd : uinode) (off n : Z) : Z := Z.max 0 (Z.min n (ui_size nd - off)).

(** The server after it has handed out [k] bytes. *)
Record advanced sv (rfd : Z) (e : fd_entry) (k : Z) sv' : Prop := mkAdvanced {
  ad_sinv : sinv sv';
  ad_cinv : cinv [] sv';
  ad_blocks : blocks_eq sv sv';
  ad_nblk : nblk sv' = nblk sv;
  ad_fdt : fs_fdt sv' = <[Z.to_nat rfd := fe_set_off (fe_off e + k) e]> (fs_fdt sv);
  ad_inodes : fs_inodes sv' = fs_inodes sv;
  ad_fdi : fs_fdi sv' = fs_fdi sv;
}.

Lemma advanced_readable sv pid rfd off n e ip nd k sv' :
  readable sv pid rfd off n e ip nd -> 0 <= k <= n -> advanced sv rfd e k sv' ->
  readable sv' pid rfd (off + k) (n - k) (fe_set_off (off + k) e) ip nd.
Proof.
  intros [] Hk []. constructor; rewrite ?ad_fdi0, ?ad_inodes0; try done; try lia.
  - destruct ra_owns0 as (He & Hu & Hown). split; [|done]. rewrite ad_fdt0, <- ra_off0. apply list_lookup_insert_eq.
    by eapply lookup_lt_Some.
  - intros x Hx. destruct (ra_mapped0 x) as (H1 & H2 & H3); [lia|].
    unfold mapped, on_disk in *. rewrite (fblock_eq sv sv'), ad_nblk0 by done. done.
Qed.

(** One READ request and its reply. *)
Lemma handle_read sv pid rfd off n e ip nd id c :
  readable sv pid rfd off n e ip nd -> 0 < c <= n -> c <= IPC_DATA_SIZE ->
  let req := set_sender pid (set_request_id id (request IPC_TYPE_FS_READ rfd 0 c zero_path zero_data)) in
  let k := available nd off c in
  wp (handle req) (fun _ sv' => advanced sv rfd e k sv' /\
        fs_sent sv' = [(pid, data_reply req k (fbytes sv nd off k))]) no_halt (set_sent [] sv).
Proof.
  intros Hr Hc Hc' req k. pose proof Hr as [Hs Hci Hfd Hown Hoff Hrg Hrd Hip Hnd Hsz Hmap].
  assert (Hs0 : sinv (set_sent [] sv)) by (by apply sinv_sent).
  assert (Hread : wp (serve_read req) (fun _ s' => cinv [] s' /\ blocks_eq sv s' /\
        fs_fdt s' = <[Z.to_nat rfd := fe_set_off (fe_off e + k) e]> (fs_fdt sv) /\
        fs_sent s' = [(pid, data_reply req k (fbytes sv nd off k))] /\
        fs_inodes s' = fs_inodes sv /\ fs_fdi s' = fs_fdi sv /\ nblk s' = nblk sv) no_halt (set_sent [] sv)).
  { wp_call (serve_read_spec (set_sent [] sv) req e ip nd).
    - done.
    - by destruct Hci.
    - constructor; try done; cbn; lia.
    - done.
    - intros x Hx. apply Hmap. cbn in Hx. lia.
    - unfold k, available. rewrite <- Hoff. intros ? s' Hq. exact Hq. }
  assert (Hall : wp (handle req) (fun _ s' => cinv [] s' /\ blocks_eq sv s' /\
        fs_fdt s' = <[Z.to_nat rfd := fe_set_off (fe_off e + k) e]> (fs_fdt sv) /\
        fs_sent s' = [(pid, data_reply req k (fbytes sv nd off k))] /\
        fs_inodes s' = fs_inodes sv /\ fs_fdi s' = fs_fdi sv /\ nblk s' = nblk sv) no_halt (set_sent [] sv)).
  { change (handle req) with (serve_read req;; mret true). wp_step. eapply wp_conseq; [exact Hread|]. intros ? s' Hq. by wp_step. }
  eapply wp_conseq; [eapply wp_and; [exact Hall|by apply (handle_spec req)]|].
  intros ? sv' [(H1 & H2 & H3 & H4 & H5 & H6 & H7) [[Hi _ _] _]]. split; [by constructor|done].
Qed.

Lemma wp_world {A} (m : M (net D) A) (Q : A -> kern (net D) -> Prop) (s : kern (net D)) :
  wp m (fun r w => Q r (mkKern (kn_fs s) (kn_ftable s) (kn_pipes s) (kn_pages s) (kn_procs s) (kn_reqid s) w)) no_halt (kn_world s) ->
  wp (on_world m) Q no_halt s.
Proof. unfold wp, on_world. by destruct (m (kn_world s)) as [[a|h] w]. Qed.

Lemma net_send_read w pid rfd off n e ip nd id c :
  readable (nt_server w) pid rfd off n e ip nd -> 0 < c <= n -> c <= IPC_DATA_SIZE ->
  let msg := set_request_id id (request IPC_TYPE_FS_READ rfd 0 c zero_path zero_data) in
  let sv := nt_server w in
  let k := available nd off c in
  wp (net_send pid (nt_pid w) msg)
     (fun r w' => r = 0 /\ nt_pid w' = nt_pid w /\ advanced sv rfd e k (nt_server w') /\
        nt_mail w' = Some (set_sender (nt_pid w) (data_reply (set_sender pid msg) k (fbytes sv nd off k)))) no_halt w.
Proof.
  intros Hr Hc Hc' msg sv k. pose proof (handle_read sv pid rfd off n e ip nd id c Hr Hc Hc') as Hh. cbv zeta in Hh. fold msg k in Hh.
  assert (Hk : 0 <= k <= 128) by (unfold k, available, IPC_DATA_SIZE in *; lia).
  unfold wp, net_send.
  assert (valid_ipc_msg (set_sender pid msg) = true) as ->.
  { unfold valid_ipc_msg. cbn [msg m_nbytes m_type set_sender set_request_id request].
    unfold IPC_DATA_SIZE in *. rewrite (proj2 (Z.ltb_ge c 0)), (proj2 (Z.ltb_ge 128 c)) by lia. done. }
  cbn [negb]. rewrite Z.eqb_refl. cbn [negb]. unfold wp in Hh. fold sv.
  destruct (handle (set_sender pid msg) (set_sent [] sv)) as [[go|h] sv']; [|done]. destruct Hh as [Hadv Hsent].
  cbn [nt_pid nt_server nt_mail]. split_and!; try apply Hadv; try done.
  rewrite Hsent. unfold reply_for. cbn [List.find fst snd]. rewrite Z.eqb_refl.
  assert (valid_ipc_msg (data_reply (set_sender pid msg) k (fbytes sv nd off k)) = true) as ->; [|done].
  unfold valid_ipc_msg. cbn [m_nbytes m_type data_reply]. unfold IPC_DATA_SIZE.
  rewrite (proj2 (Z.ltb_ge k 0)), (proj2 (Z.ltb_ge 128 k)) by lia. done.
Qed.

Lemma net_recv_spec pid m w :
  nt_mail w = Some m -> wp (net_recv pid) (fun r w' => r = (0, m) /\ w' = mkNet (nt_pid w) (nt_server w) None) no_halt w.
Proof. intros Hm. unfold wp, net_recv. by rewrite Hm. Qed.

(** The round trip as [sys_read] sees it. *)
Lemma call_read (s : kern (net D)) cur u off n rfd e ip nd c :
  kn_procs s !! cur = Some u -> 0 <= nt_pid (kn_world s) ->
  readable (nt_server (kn_world s)) (u_pid u) rfd off n e ip nd -> 0 < c <= n -> c <= IPC_DATA_SIZE ->
  let sv := nt_server (kn_world s) in
  let k := available nd off c in
  wp (fs_ipc_call cur (request IPC_TYPE_FS_READ rfd 0 c zero_path zero_data))
     (fun r s' => kn_procs s' = kn_procs s /\ kn_ftable s' = kn_ftable s /\
        nt_pid (kn_world s') = nt_pid (kn_world s) /\ advanced sv rfd e k (nt_server (kn_world s')) /\
        exists reply, r = Some reply /\ m_result reply = k /\ m_nbytes reply = k /\
          take (Z.to_nat k) (m_data reply) = fbytes sv nd off k) no_halt s.
Proof.
  intros Hu Hpid Hr Hc Hc' sv k. unfold fs_ipc_call, the_proc. do 2 wp_step. wp_step. do 2 wp_step. eapply wp_of_option; [done|].
  change (env_fsserver (kn_world s)) with (nt_pid (kn_world s)).
  rewrite (proj2 (Z.ltb_ge _ _)) by done. do 2 wp_step. wp_step. apply wp_world.
  eapply wp_conseq; [by apply (net_send_read (kn_world s) (u_pid u) rfd off n e ip nd (kn_reqid s) c)|].
  intros r w (-> & Hp & Hadv & Hm). cbn [Z.ltb Z.compare]. wp_step. apply wp_world. cbn [kn_world].
  eapply wp_conseq; [by apply (net_recv_spec (u_pid u))|]. intros ? w' [-> ->]. cbn [fst snd Z.ltb Z.compare].
  cbn [m_type m_request_id set_sender data_reply set_request_id request]. rewrite !Z.eqb_refl. cbn [negb orb].
  wp_step. split_and!; try done. eexists. split; [done|]. split; [done|]. split; [done|].
  cbn [m_data set_sender data_reply]. rewrite <- (length_fbytes sv nd off k). apply take_splice_0.
Qed.

Lemma advanced_0 sv pid rfd off n e ip nd : readable sv pid rfd off n e ip nd -> advanced sv rfd e 0 sv.
Proof.
  intros [Hs Hc _ (He & _) _ _ _ _ _ _ _]. constructor; try done. rewrite Z.add_0_r, fe_set_off_same.
  by rewrite list_insert_id.
Qed.

Lemma advanced_trans sv rfd e t sv1 k sv2 :
  advanced sv rfd e t sv1 -> advanced sv1 rfd (fe_set_off (fe_off e + t) e) k sv2 -> advanced sv rfd e (t + k) sv2.
Proof.
  intros [] []. constructor; try done; try congruence.
  - intros m Hm. rewrite ad_blocks1 by (by rewrite ad_nblk0). by apply ad_blocks0.
  - rewrite ad_fdt1, ad_fdt0, list_insert_insert_eq. f_equal. unfold fe_set_off. cbn. f_equal. lia.
Qed.

(** The bytes read so far are in the caller's buffer at [p], nothing else has changed. *)
Definition delivered sv nd off p k (mem mem' : Z -> Z) : Prop :=
  forall x, mem' x = if (p <=? x) && (x <? p + k) then fbyte sv nd (off + (x - p)) else mem x.

Lemma delivered_poke sv nd off p t k mem mem' :
  0 <= t -> 0 <= k -> delivered sv nd off p t mem mem' ->
  delivered sv nd off p (t + k) mem (poke (p + t) (fbytes sv nd (off + t) k) mem').
Proof.
  intros Ht Hk Hd x. unfold poke. rewrite length_fbytes, Z2Nat.id by done. rewrite Hd.
  destruct (Z.leb_spec (p + t) x), (Z.ltb_spec x (p + t + k)), (Z.leb_spec p x), (Z.ltb_spec x (p + t)), (Z.ltb_spec x (p + (t + k)));
    cbn [andb]; try lia; try done.
  unfold fbytes. rewrite list_lookup_fmap, lookup_seqZ_lt by lia. cbn. f_equal. lia.
Qed.

Section reading.
(** The call: descriptor [argint u 0] names the remote file [f], the buffer
    is at [p] and has room for [n] bytes; [q] is what the pointer variable held
    before. *)
Context (devsw_read : Z -> option (nat -> Z -> Z -> M kfs (Z * list Z))).
Context (s : kern (net D)) (cur k : nat) (u : uproc) (f : file) (q p n : Z).
Context (off : Z) (e : fd_entry) (ip : nat) (nd : uinode).
Local Abbreviation sv := (nt_server (kn_world s)).
Local Abbreviation rfd := (f_remote_fd f).

Record read_call : Prop := mkReadCall {
  rc_proc : kn_procs s !! cur = Some u;
  rc_server : 0 <= nt_pid (kn_world s);
  rc_fd : 0 <= argint u 0 < Z.of_nat NOFILE /\ u_ofile u !! Z.to_nat (argint u 0) = Some (Some k);
  rc_file : kn_ftable s !! k = Some f /\ f_type f = FD_REMOTE;
  rc_n : argint u 2 = n /\ 0 <= n;
  rc_buf : argptr u 1 q n = (0, p) /\ user_range u p n = true;
  rc_open : readable sv (u_pid u) rfd off n e ip nd;
}.

(** The state after [t] bytes. *)
Record read_so_far (t : Z) (s' : kern (net D)) : Prop := mkSoFar {
  sf_t : 0 <= t <= available nd off n;
  sf_files : kn_ftable s' = kn_ftable s;
  sf_pid : nt_pid (kn_world s') = nt_pid (kn_world s);
  sf_server : advanced sv rfd e t (nt_server (kn_world s'));
  sf_proc : exists u', kn_procs s' = <[cur := u']> (kn_procs s) /\ u_pid u' = u_pid u /\ u_sz u' = u_sz u /\
              u_ofile u' = u_ofile u /\ delivered sv nd off p t (u_mem u) (u_mem u');
}.

Lemma read_round t s' :
  read_call -> read_so_far t s' ->
  wp (remote_read_step cur rfd p n t) (fun r s'' => match r with
      | inl t' => read_so_far t' s'' /\ t < t' <= n
      | inr r => r = available nd off n /\ read_so_far r s''
      end) no_halt s'.
Proof.
  intros [Hu Hsp Hfd Hf [_ Hn] [_ Hub] Hopen] Hsf. pose proof Hsf as [Ht Hfl Hpid Hadv (u' & Hp' & Hpd & Hsz & Hof & Hdel)].
  assert (Hu' : kn_procs s' !! cur = Some u') by (rewrite Hp'; apply list_lookup_insert_eq; by eapply lookup_lt_Some).
  assert (Hav : available nd off n <= n) by (unfold available; lia).
  unfold remote_read_step. destruct (Z.ltb_spec t n) as [Hlt|Hge]; [|wp_step; assert (t = available nd off n) by lia; done].
  set (c := Z.min (n - t) IPC_DATA_SIZE). assert (Hc : 0 < c <= n - t /\ c <= IPC_DATA_SIZE) by (unfold c, IPC_DATA_SIZE; lia).
  pose proof (advanced_readable sv (u_pid u) rfd off n e ip nd t _ Hopen ltac:(lia) Hadv) as Hop'. rewrite <- Hpd in Hop'.
  set (r := available nd (off + t) c). assert (Hr : 0 <= r <= c) by (unfold r, available; lia).
  assert (Htr : t + r <= available nd off n) by (unfold r, available in *; lia).
  wp_step. eapply wp_conseq; [apply (call_read s' cur u' (off + t) (n - t) rfd (fe_set_off (off + t) e) ip nd c); try done; try lia|].
  intros rep s1 (P1 & F1 & N1 & A1 & reply & -> & E1 & E2 & E3). fold r in A1, E1, E2, E3.
  rewrite E1, E2, (proj2 (Z.ltb_ge r 0)), Z.ltb_irrefl by lia.
  assert (Hadv1 : advanced sv rfd e (t + r) (nt_server (kn_world s1))).
  { eapply advanced_trans; [exact Hadv|]. by rewrite (ra_off _ _ _ _ _ _ _ _ Hopen). }
  destruct (Z.eqb_spec r 0) as [Hr0|Hr0].
  { wp_step. assert (t = available nd off n) as Hta by (unfold r, available in *; lia). split; [done|].
    rewrite Hr0, Z.add_0_r in Hadv1. constructor; try done; [congruence..|]. exists u'. by rewrite P1. }
  unfold IPC_DATA_SIZE in *. rewrite (proj2 (Z.ltb_ge 128 r)) by lia.
  assert (Hbytes : fbytes (nt_server (kn_world s')) nd (off + t) r = fbytes sv nd (off + t) r).
  { unfold fbytes. apply list_fmap_ext. intros i x Hx. apply lookup_seqZ in Hx as [-> Hx]. apply fbyte_eq; [apply Hadv|].
    apply (ra_mapped _ _ _ _ _ _ _ _ Hopen). unfold available in *. lia. }
  rewrite E3, Hbytes. wp_step. unfold uwrite, the_proc, upd_proc. wp_step. do 2 wp_step. eapply wp_of_option; [by rewrite P1|].
  rewrite length_fbytes, Z2Nat.id by lia.
  assert ((Z.to_nat r =? 0)%nat || user_range u' (p + t) r = true) as ->.
  { apply orb_true_iff. right. unfold user_range in *. rewrite Hsz. apply andb_true_iff in Hub as [H1%Z.leb_le H2%Z.leb_le].
    apply andb_true_iff. split; apply Z.leb_le; lia. }
  wp_step.
  assert (Hdone : read_so_far (t + r) (set_procs (alter (fun u => set_umem (poke (p + t) (fbytes sv nd (off + t) r) (u_mem u)) u) cur (kn_procs s1)) s1)).
  { constructor; try done; [lia|cbn; congruence..|].
    exists (set_umem (poke (p + t) (fbytes sv nd (off + t) r) (u_mem u')) u'). cbn [kn_procs set_procs].
    rewrite P1, Hp', (alter_as_insert _ cur u'), list_insert_insert_eq by (apply list_lookup_insert_eq; by eapply lookup_lt_Some).
    split_and!; try done. cbn [u_mem set_umem]. apply delivered_poke; [lia|lia|done]. }
  destruct (Z.ltb_spec r c); wp_step; (split; [|done || lia]); [|done].
  unfold r, available in *. lia.
Qed.

(** C9: reading a remote file, end to end.  The call returns, with exactly as
    many bytes as the file has from the descriptor's offset on, at most [n];
    these bytes of the file are in the caller's buffer and the rest of its
    memory is untouched; the server has advanced the offset by as much and
    changed no block.  The kernel asks for them in messages of at most 128
    bytes. *)
Theorem remote_read_delivers :
  read_call ->
  let m := available nd off n in
  wp (sys_read devsw_read cur q)
     (fun r s' => r = m /\
        (exists u', kn_procs s' = <[cur := u']> (kn_procs s) /\
           peek (u_mem u') p (Z.to_nat m) = fbytes sv nd off m /\
           forall x, x < p \/ p + m <= x -> u_mem u' x = u_mem u x) /\
        fs_fdt (nt_server (kn_world s')) !! Z.to_nat rfd = Some (fe_set_off (off + m) e) /\
        blocks_eq sv (nt_server (kn_world s'))) no_halt s.
Proof.
  intros Hcall m. pose proof Hcall as [Hu _ [Hfd Hof] [Hf Hty] [Hn Hn0] [Hptr _] Hopen].
  unfold sys_read, argfd, the_proc, the_file. wp_step. do 2 wp_step. wp_step. eapply wp_of_option; [done|].
  rewrite (proj2 (Z.ltb_ge _ _)), (proj2 (Z.leb_gt _ _)) by lia. cbn [orb]. rewrite Hof. wp_step. wp_step. do 2 wp_step.
  eapply wp_of_option; [done|]. cbv zeta. rewrite Hn, Hptr. change (0 <? 0) with false. cbv iota. wp_step. do 2 wp_step. eapply wp_of_option; [done|].
  rewrite decide_True by done.
  eapply wp_while with (I := fun t s' => read_so_far t s' /\ t <= n) (mu := fun t => Z.to_nat (n - t)).
  - split; [|done]. constructor; [unfold available; lia|done|done|by eapply advanced_0|]. exists u.
    split_and!; try done; [by rewrite list_insert_id|]. intros x.
    destruct (Z.leb_spec p x), (Z.ltb_spec x (p + 0)); (done || lia).
  - lia.
  - intros t s1 [Ht Htn]. eapply wp_conseq; [by apply read_round|]. intros [t'|r] s2.
    + intros [H1 H2]. split; [split; [done|lia]|lia].
    + intros [-> [_ _ _ Hadv (u' & Hp & _ & _ & _ & Hd)]]. fold m in Hadv, Hd |- *. assert (0 <= m) by (unfold m, available; lia).
      split; [done|]. split; [|split; [|apply Hadv]].
      * exists u'. split; [done|]. split.
        -- unfold peek, fbytes. apply list_eq. intros i. rewrite !list_lookup_fmap.
           destruct (decide (i < Z.to_nat m)%nat) as [Hi|Hi].
           ++ rewrite lookup_seq_lt, lookup_seqZ_lt by lia. cbn. f_equal. rewrite Hd.
              rewrite (proj2 (Z.leb_le _ _)), (proj2 (Z.ltb_lt _ _)) by lia. cbn [andb]. f_equal. lia.
           ++ rewrite !lookup_ge_None_2 by (rewrite ?length_seq, ?length_seqZ; lia). done.
        -- intros x Hx. rewrite Hd. destruct (Z.leb_spec p x), (Z.ltb_spec x (p + m)); cbn [andb]; (done || lia).
      * rewrite (ad_fdt _ _ _ _ _ Hadv), (ra_off _ _ _ _ _ _ _ _ Hopen). apply list_lookup_insert_eq.
        eapply lookup_lt_Some, (ra_owns _ _ _ _ _ _ _ _ Hopen).
Qed.
End reading.
End net.

Module RemoteInstances.
Import FssTheorems.Demo.
(** Process 7 reads its descriptor 0, open at the server of FssTheorems.v with
    600 bytes of which the first 100 have been read: 600 bytes are asked for. *)
Definition client : uproc :=
  mkUproc 7 0 8192 [0; 4096; 600; 0; 0; 0] (fun _ => 0) (Some O :: replicate 15 None) 0.
Definition rfile : file := mkFile FD_REMOTE 1 1 0 None None 0 0 3.
Definition kfs0 : kfs := mkKfs (mkLsys (mkLog 2 30 0 0 1 0 (replicate 30 0)) (binit []))
                               (mkSb 40 6 8 30 2 32 33) (replicate NINODE zero_inode).
Definition st0 : kern (net kdisk) :=
  mkKern kfs0 (rfile :: replicate 99 zero_file) [] 0 [client] 1 (mkNet 3 server None).

Lemma st0_call : read_call st0 0 0 client rfile 0 4096 600 100 entry 0 inode.
Proof.
  constructor; try done.
  constructor; try done; [by apply server_sinv|apply server_cinv|].
  intros x Hx. apply server_mapped. cbn in Hx. unfold BSIZE. Z.to_euclidean_division_equations; lia.
Qed.

Lemma remote_read_delivers_witness :
  wp (sys_read (fun _ => None) 0 0)
     (fun r s' => r = 500 /\
        (exists u', kn_procs s' = <[O := u']> [client] /\
           peek (u_mem u') 4096 500 = fbytes server inode 100 500 /\
           forall x, x < 4096 \/ 4096 + 500 <= x -> u_mem u' x = 0) /\
        fs_fdt (nt_server (kn_world s')) !! O = Some (fe_set_off 600 entry) /\
        blocks_eq server (nt_server (kn_world s'))) no_halt st0.
Proof. apply (remote_read_delivers (fun _ => None) st0 0 0 client rfile 0 4096 600 100 entry 0 inode). apply st0_call. Defined.
End RemoteInstances.
