(* ===== verification/Sh.v ===== *)
(** * Sh: the command language of the shell (sh.c)

    The tokenizer, the recursive-descent parser and [nulterminate].  The
    parser runs over a buffer of [n] characters before the terminating NUL;
    its state is the part of the buffer from [*ps] on, and a pointer into the
    buffer is its offset.  Reading at [es] gives the NUL. *)
From S2P Require Import Prelude CString FsFormat.

Definition MAXARGS : nat := 10.

(** Where a token starts and ends ([q], [eq]). *)
Definition span : Type := nat * nat.

(** Commands over strings [W]: spans of the buffer, or the strings themselves. *)
Inductive cmd (W : Type) : Type :=
| EXEC (argv : list W)
| REDIR (c : cmd W) (file : W) (mode fd : Z)
| PIPE (left right : cmd W)
| LIST (left right : cmd W)
| BACK (c : cmd W).
Arguments EXEC {W}.
Arguments REDIR {W}.
Arguments PIPE {W}.
Arguments LIST {W}.
Arguments BACK {W}.

(** ** Characters *)
Definition whitespace : list Z := [32; 9; 13; 10; 11].
Definition symbols : list Z := [60; 124; 62; 38; 59; 40; 41].
Definition LT : Z := 60.
Definition BAR : Z := 124.
Definition GT : Z := 62.
Definition AMP : Z := 38.
Definition SEMI : Z := 59.
Definition LPAR : Z := 40.
Definition RPAR : Z := 41.

(** [strchr(set, c)] for a character other than NUL. *)
Definition is_in (set : list Z) (c : Z) : bool := existsb (Z.eqb c) set.
Definition is_space (c : Z) : bool := is_in whitespace c.
Definition is_symbol (c : Z) : bool := is_in symbols c.

(** [while(s < es && strchr(whitespace, *s)) s++;] *)
Fixpoint skip_ws (s : list Z) : list Z :=
  match s with
  | c :: s' => if is_space c then skip_ws s' else s
  | [] => []
  end.

(** [while(s < es && !strchr(whitespace, *s) && !strchr(symbols, *s)) s++;] *)
Fixpoint skip_word (s : list Z) : list Z :=
  match s with
  | c :: s' => if (is_space c || is_symbol c)%bool then s else skip_word s'
  | [] => []
  end.

(** ** Tokens *)

Inductive token : Type := TEnd | TSym (c : Z) | TAppend | TWord.

#[export] Instance token_eq_dec : EqDecision token.
Proof. solve_decision. Defined.

(** The token, where it starts and where it ends, as rests of the buffer. *)
Definition scan_token (s : list Z) : token * list Z * list Z :=
  let q := skip_ws s in
  match q with
  | [] => (TEnd, q, q)
  | c :: s =>
      if c =? GT then
        match s with
        | c' :: s' => if c' =? GT then (TAppend, q, s') else (TSym c, q, s)
        | [] => (TSym c, q, s)
        end
      else if is_symbol c then (TSym c, q, s)
      else (TWord, q, skip_word q)
  end.

Section parser.
(** The length of the buffer. *)
Context (n : nat).
Abbreviation P A := (M (list Z) A).

Definition offset (s : list Z) : nat := n - length s.

Definition gettoken : P (token * span) :=
  s ← getS;
  let '(t, q, eq) := scan_token s in
  modify (fun _ => skip_ws eq);;
  mret (t, (offset q, offset eq)).

Definition peek (toks : list Z) : P bool :=
  modify skip_ws;;
  s ← getS;
  mret (match s with c :: _ => is_in toks c | [] => false end).

(** ** The parser

    [parseredirs] returns the redirections it wraps around its argument, in
    order: [parseexec] keeps adding arguments to the [execcmd] inside. *)
Definition redir : Type := span * Z * Z.
Definition wrap (c : cmd span) (rs : list redir) : cmd span :=
  foldl (fun c '(f, mode, fd) => REDIR c f mode fd) c rs.

(** [while(cond) body], collecting; the rest of the buffer bounds the rounds. *)
Fixpoint parseredirs_loop (fuel : nat) (acc : list redir) : P (list redir) :=
  match fuel with
  | O => halt_with NoFuel
  | S fuel =>
      more ← peek [LT; GT];
      if more : bool then
        t ← gettoken;
        f ← gettoken;
        if negb (bool_decide (f.1 = TWord)) then panic "missing file for redirection"
        else
          let r := match t.1 with
                   | TSym c => if c =? LT then [(f.2, O_RDONLY, 0)] else if c =? GT then [(f.2, Z.lor O_WRONLY O_CREATE, 1)] else []
                   | TAppend => [(f.2, Z.lor O_WRONLY O_CREATE, 1)]
                   | _ => []
                   end in
          parseredirs_loop fuel (acc ++ r)
      else mret acc
  end.

Definition parseredirs : P (list redir) := s ← getS; parseredirs_loop (S (length s)) [].

(** The loop of [parseexec] on the arguments and redirections so far. *)
Fixpoint parseexec_loop (fuel : nat) (argv : list span) (rs : list redir) : P (cmd span) :=
  match fuel with
  | O => halt_with NoFuel
  | S fuel =>
      stop ← peek [BAR; RPAR; AMP; SEMI];
      if stop : bool then mret (wrap (EXEC argv) rs)
      else
        t ← gettoken;
        if bool_decide (t.1 = TEnd) then mret (wrap (EXEC argv) rs)
        else if negb (bool_decide (t.1 = TWord)) then panic "syntax"
        else
          let argv := argv ++ [t.2] in
          if (MAXARGS <=? length argv)%nat then panic "too many args"
          else
            rs' ← parseredirs;
            parseexec_loop fuel argv (rs ++ rs')
  end.

(** [while(peek(ps, es, "&")){ gettoken; cmd = backcmd(cmd); }] *)
Fixpoint parseback_loop (fuel : nat) (c : cmd span) : P (cmd span) :=
  match fuel with
  | O => halt_with NoFuel
  | S fuel =>
      more ← peek [AMP];
      if more : bool then _ ← gettoken; parseback_loop fuel (BACK c) else mret c
  end.

Fixpoint parseline (fuel : nat) : P (cmd span) :=
  match fuel with
  | O => halt_with NoFuel
  | S fuel =>
      c ← parsepipe fuel;
      s ← getS;
      c ← parseback_loop (S (length s)) c;
      more ← peek [SEMI];
      if more : bool then _ ← gettoken; c' ← parseline fuel; mret (LIST c c') else mret c
  end
with parsepipe (fuel : nat) : P (cmd span) :=
  match fuel with
  | O => halt_with NoFuel
  | S fuel =>
      c ← parseexec fuel;
      more ← peek [BAR];
      if more : bool then _ ← gettoken; c' ← parsepipe fuel; mret (PIPE c c') else mret c
  end
with parseexec (fuel : nat) : P (cmd span) :=
  match fuel with
  | O => halt_with NoFuel
  | S fuel =>
      block ← peek [LPAR];
      if block : bool then parseblock fuel
      else
        rs ← parseredirs;
        s ← getS;
        parseexec_loop (S (length s)) [] rs
  end
with parseblock (fuel : nat) : P (cmd span) :=
  match fuel with
  | O => halt_with NoFuel
  | S fuel =>
      open ← peek [LPAR];
      if negb open then panic "parseblock"
      else
        _ ← gettoken;
        c ← parseline fuel;
        closed ← peek [RPAR];
        if negb closed then panic "syntax - missing )"
        else
          _ ← gettoken;
          rs ← parseredirs;
          mret (wrap c rs)
  end.
End parser.

(** ** nulterminate *)

Fixpoint nulterminate (c : cmd span) (buf : list Z) : list Z :=
  match c with
  | EXEC argv => foldl (fun buf (a : nat * nat) => <[a.2 := 0]> buf) buf argv
  | REDIR c f _ _ => <[f.2 := 0]> (nulterminate c buf)
  | PIPE l r => nulterminate r (nulterminate l buf)
  | LIST l r => nulterminate r (nulterminate l buf)
  | BACK c => nulterminate c buf
  end.

(** The depth of the recursion is at most four calls for each character. *)
Definition parse_fuel (s : list Z) : nat := 4 * length s + 4.

(** [buf] holds the NUL-terminated line; the command and the buffer. *)
Definition parsecmd (buf : list Z) : M (list Z) (cmd span * list Z) :=
  let line := cstr buf in
  modify (fun _ => line);;
  c ← parseline (length line) (parse_fuel line);
  _ ← peek [];
  s ← getS;
  match s with
  | [] => mret (c, nulterminate c buf)
  | _ => panic "syntax"
  end.

(** ** Characters and tokens *)

Definition word_char (c : Z) : bool := negb (is_space c || is_symbol c).

Lemma skip_ws_suffix s : exists w, s = w ++ skip_ws s /\ Forall (fun c => is_space c = true) w.
Proof.
  induction s as [|c s (w & E & Hw)]; [by exists []|]. cbn [skip_ws]. destruct (is_space c) eqn:Hc; [|by exists []].
  exists (c :: w). split; [by rewrite E at 1|by constructor].
Qed.

Lemma skip_ws_head s c s' : skip_ws s = c :: s' -> is_space c = false.
Proof. induction s as [|d s IH]; cbn [skip_ws]; [done|]. destruct (is_space d) eqn:E; [done|]. by intros [= -> ->]. Qed.

Lemma length_skip_ws s : (length (skip_ws s) <= length s)%nat.
Proof. destruct (skip_ws_suffix s) as (w & E & _). rewrite E at 2. rewrite length_app. lia. Qed.

Lemma skip_ws_idem s : skip_ws (skip_ws s) = skip_ws s.
Proof. induction s as [|c s IH]; cbn [skip_ws]; [done|]. destruct (is_space c) eqn:E; [done|]. cbn [skip_ws]. by rewrite E. Qed.

Lemma skip_word_split s : exists w, s = w ++ skip_word s /\ Forall (fun c => word_char c = true) w.
Proof.
  induction s as [|c s (w & E & Hw)]; [by exists []|]. cbn [skip_word]. destruct (is_space c || is_symbol c) eqn:Hc; [by exists []|].
  exists (c :: w). split; [by rewrite E at 1|]. constructor; [|done]. unfold word_char. by rewrite Hc.
Qed.

Lemma skip_word_head s c s' : skip_word s = c :: s' -> word_char c = false.
Proof.
  induction s as [|d s IH]; cbn [skip_word]; [done|]. destruct (is_space d || is_symbol d) eqn:E; [|done].
  intros [= -> ->]. unfold word_char. by rewrite E.
Qed.

(** What a token is made of: a word is non-empty and ends before a character
    that cannot belong to it, every other token but the last has characters too. *)
Lemma scan_token_spec s t q eq :
  scan_token s = (t, q, eq) ->
  q = skip_ws s /\ exists w, q = w ++ eq /\
    match t with
    | TEnd => q = [] /\ w = []
    | TSym c => w = [c] /\ is_symbol c = true
    | TAppend => w = [GT; GT]
    | TWord => w ≠ [] /\ Forall (fun c => word_char c = true) w /\ forall c s', eq = c :: s' -> word_char c = false
    end.
Proof.
  unfold scan_token. destruct (skip_ws s) as [|c s1] eqn:Es.
  { intros [= <- <- <-]. split; [done|]. by exists []. }
  destruct (Z.eqb_spec c GT) as [->|Hc].
  { destruct s1 as [|c' s2]; [intros [= <- <- <-]; split; [done|]; by exists [GT]|].
    destruct (Z.eqb_spec c' GT) as [->|]; intros [= <- <- <-]; (split; [done|]); [by exists [GT; GT]|by exists [GT]]. }
  destruct (is_symbol c) eqn:Hs; intros [= <- <- <-]; (split; [done|]); [by exists [c]|].
  destruct (skip_word_split (c :: s1)) as (w & E & Hw). exists w. split; [done|]. split_and!; [|done|].
  - intros ->. cbn [app] in E. symmetry in E. apply skip_word_head in E. unfold word_char in E.
    apply skip_ws_head in Es. by rewrite Es, Hs in E.
  - intros d s' Hd. by apply (skip_word_head (c :: s1) d s').
Qed.

(** ** Spans of the buffer *)

Fixpoint strings {W} (c : cmd W) : list W :=
  match c with
  | EXEC argv => argv
  | REDIR c f _ _ => strings c ++ [f]
  | PIPE l r => strings l ++ strings r
  | LIST l r => strings l ++ strings r
  | BACK c => strings c
  end.

Definition rspan (r : redir) : span := r.1.1.

Lemma strings_wrap c rs : strings (wrap c rs) = strings c ++ (rspan <$> rs).
Proof.
  revert c. induction rs as [|[[f m] d] rs IH]; intros c; [by rewrite app_nil_r|].
  cbn [wrap foldl]. change (foldl _ (REDIR c f m d) rs) with (wrap (REDIR c f m d) rs). rewrite IH. cbn. by rewrite <- app_assoc.
Qed.

(** Two spans with at least one character between them. *)
Definition apart (a b : span) : Prop := (a.2 < b.1)%nat \/ (b.2 < a.1)%nat.

Fixpoint separated (l : list span) : Prop :=
  match l with
  | [] => True
  | a :: l => Forall (apart a) l /\ separated l
  end.

Lemma separated_app l l' :
  separated l -> separated l' -> Forall (fun a => Forall (apart a) l') l -> separated (l ++ l').
Proof.
  induction l as [|a l IH]; [done|]. intros [Ha Hl] Hl' Hx. apply Forall_cons in Hx as [Hxa Hx]. cbn.
  split; [by apply Forall_app|by apply IH].
Qed.

Lemma separated_perm l l' : l ≡ₚ l' -> separated l -> separated l'.
Proof.
  induction 1 as [|a l l' Hp IH|a b l|l1 l2 l3 _ IH1 _ IH2]; cbn; [done| | |by auto].
  - intros [Ha Hl]. split; [by rewrite <- Hp|by apply IH].
  - intros ([Hba Hb]%Forall_cons & Ha & Hl). split_and!; try done. constructor; [|done]. unfold apart in *. lia.
Qed.

Section spans.
Context (line : list Z).
Local Abbreviation n := (length line).
Local Abbreviation off s := (offset n s).

(** Every word that starts in [s] starts at [lo] or later. *)
Definition clear (lo : nat) (s : list Z) : Prop :=
  s = [] \/ (lo <= off s)%nat \/ lo = S (off s) /\ exists c s', s = c :: s' /\ is_symbol c = true.

(** A span holds a word. *)
Definition is_word (sp : span) : Prop :=
  (sp.1 < sp.2 <= n)%nat /\ Forall (fun c => word_char c = true) (slice sp.1 (sp.2 - sp.1) line).

(** From [s] to [s'] the parser has collected the words [sps]. *)
Record parsed (s : list Z) (sps : list span) (s' : list Z) : Prop := {
  pa_suffix : s' `suffix_of` line;
  pa_length : (length s' <= length s)%nat;
  pa_clear lo : clear lo s -> clear lo s' /\ Forall (fun sp : span => (lo <= sp.1)%nat) sps;
  pa_words : Forall (fun sp => is_word sp /\ clear (S sp.2) s') sps;
  pa_apart : separated sps;
}.

Lemma parsed_refl s : s `suffix_of` line -> parsed s [] s.
Proof. intros Hs. by constructor. Qed.

Lemma parsed_trans s l s1 l1 s2 : parsed s l s1 -> parsed s1 l1 s2 -> parsed s (l ++ l1) s2.
Proof.
  intros [S1 L1 C1 W1 A1] [S2 L2 C2 W2 A2]. constructor; [done|lia| | |].
  - intros lo H. destruct (C1 lo H) as [H1 F1]. destruct (C2 lo H1) as [H2 F2]. split; [done|by apply Forall_app].
  - apply Forall_app. split; [|done]. eapply Forall_impl; [exact W1|]. intros sp [Hw Hc]. split; [done|]. by apply C2.
  - apply separated_app; [done..|]. eapply Forall_impl; [exact W1|]. intros sp [_ Hc]. destruct (C2 _ Hc) as [_ F2].
    eapply Forall_impl; [exact F2|]. intros b Hb. left. cbn in Hb. lia.
Qed.

Lemma parsed_perm s l l' s' : l ≡ₚ l' -> parsed s l s' -> parsed s l' s'.
Proof.
  intros Hp [S1 L1 C1 W1 A1]. constructor; try done.
  - intros lo H. destruct (C1 lo H) as [H1 F1]. split; [done|by rewrite <- Hp].
  - by rewrite <- Hp.
  - by eapply separated_perm.
Qed.

Lemma suffix_length s : s `suffix_of` line -> (length s <= n)%nat.
Proof. intros [k ->]. rewrite length_app. lia. Qed.

(** Dropping characters in front moves on. *)
Lemma clear_drop lo w s : w ++ s `suffix_of` line -> w ≠ [] -> clear lo (w ++ s) -> clear lo s.
Proof.
  intros Hs%suffix_length Hw Hc. unfold clear, offset in *. rewrite length_app in *.
  assert (0 < length w)%nat by (destruct w; [done|cbn; lia]).
  destruct Hc as [Hc|[Hc|[Hc _]]]; [by left; destruct w, s|right; left; lia|right; left; lia].
Qed.

Lemma parsed_drop w s : w ++ s `suffix_of` line -> parsed (w ++ s) [] s.
Proof.
  intros Hs. constructor; try done.
  - destruct Hs as [k Hk]. exists (k ++ w). by rewrite <- app_assoc.
  - rewrite length_app. lia.
  - intros lo Hc. split; [|done]. destruct (decide (w = [])) as [->|Hw]; [done|by eapply clear_drop].
Qed.

Lemma parsed_ws s : s `suffix_of` line -> parsed s [] (skip_ws s).
Proof. intros Hs. destruct (skip_ws_suffix s) as (w & E & _). rewrite E in Hs. rewrite E at 1. by apply parsed_drop. Qed.
End spans.
