(* ===== verification/ShProof.v ===== *)
(** * ShProof: the shell's parser terminates, keeps its strings and reads what it prints *)
From S2P Require Import Prelude CString FsFormat Sh.

Section soundness.
Context (line : list Z).
Local Abbreviation n := (length line).
Implicit Types s : list Z.

(** The parser stops only by printing a message and exiting. *)
Definition syntax_error (h : halt) (_ : list Z) : Prop := exists msg, h = Panic msg.

Lemma wp_panic {A} msg (Q : A -> list Z -> Prop) s : wp (panic msg) Q syntax_error s.
Proof. by exists msg. Qed.

Lemma peek_spec toks s :
  s `suffix_of` line ->
  wp (peek toks) (fun r s' => s' = skip_ws s /\ parsed line s [] s' /\
        (r = true -> exists c s1, s' = c :: s1 /\ is_in toks c = true)) syntax_error s.
Proof.
  intros Hs. unfold peek. do 2 wp_step. do 2 wp_step. wp_step. split; [done|]. split; [by apply parsed_ws|].
  destruct (skip_ws s) as [|c s1]; [done|]. intros Hc. by exists c, s1.
Qed.

(** A word, as a span of the line. *)
Lemma parsed_word s w eq :
  w ++ eq `suffix_of` line -> w ≠ [] -> Forall (fun c => word_char c = true) w ->
  (forall c s', eq = c :: s' -> word_char c = false) ->
  parsed line (w ++ eq) [(offset n (w ++ eq), offset n eq)] (skip_ws eq).
Proof.
  intros Hs Hw Hall Hend. pose proof (suffix_length _ _ Hs) as Hlen.
  assert (Heq : eq `suffix_of` line) by (destruct Hs as [k ->]; exists (k ++ w); by rewrite <- app_assoc).
  assert (Hpos : (0 < length w)%nat) by (destruct w; [done|cbn; lia]). rewrite length_app in Hlen.
  assert (Hd : parsed line (w ++ eq) [] (skip_ws eq)).
  { change [] with (@nil span ++ []). eapply parsed_trans; [by apply parsed_drop|by apply parsed_ws]. }
  constructor; try apply Hd.
  - intros lo Hlo. split; [by apply Hd|]. constructor; [|done]. unfold clear in Hlo. cbn [fst].
    destruct Hlo as [?|[?|[_ (c & s' & E & Hsym)]]]; [by destruct w|done|]. exfalso.
    destruct w as [|c' w]; [done|]. injection E as <- _. apply Forall_cons in Hall as [Hc _]. unfold word_char in Hc.
    rewrite Hsym, orb_true_r in Hc. done.
  - constructor; [|done]. split.
    + split; [cbn [fst snd]; unfold offset; rewrite length_app; lia|]. cbn [fst snd].
      destruct Hs as [k Hk]. assert (length k = offset n (w ++ eq)) as Hk'.
      { unfold offset. rewrite Hk at 1. rewrite !length_app. lia. }
      rewrite <- Hk'. replace (offset n eq - length k)%nat with (length w).
      * rewrite Hk at 1. unfold slice. by rewrite drop_app_length, take_app_length.
      * unfold offset. rewrite Hk at 1. rewrite !length_app. lia.
    + cbn [snd]. destruct eq as [|c eq]; [by left|]. specialize (Hend c eq eq_refl). unfold word_char in Hend.
      apply negb_false_iff in Hend. cbn [skip_ws]. destruct (is_space c) eqn:Hsp.
      * right; left. pose proof (length_skip_ws eq). cbn [length] in *. unfold offset. cbn [length]. lia.
      * right; right. split; [done|]. by exists c, eq.
  - done.
Qed.

Lemma gettoken_spec s :
  s `suffix_of` line ->
  wp (gettoken n) (fun r s' => match r.1 with
      | TEnd => parsed line s [] s' /\ s' = []
      | TWord => parsed line s [r.2] s' /\ (length s' < length s)%nat
      | _ => parsed line s [] s' /\ (length s' < length s)%nat
      end) syntax_error s.
Proof.
  intros Hs. unfold gettoken. do 2 wp_step. destruct (scan_token s) as [[t q] eq] eqn:Et. do 2 wp_step. wp_step. cbn [fst snd].
  destruct (scan_token_spec _ _ _ _ Et) as (-> & w & Ew & Ht). pose proof (parsed_ws line s Hs) as Hws.
  pose proof (pa_suffix _ _ _ _ Hws) as Hq. pose proof (length_skip_ws s) as Hl1. pose proof (length_skip_ws eq) as Hl2.
  rewrite Ew in Hq, Hws, Hl1 |- *. rewrite length_app in Hl1.
  assert (Hrest : parsed line s [] (skip_ws eq)).
  { change [] with (@nil span ++ []). eapply parsed_trans; [exact Hws|].
    change [] with (@nil span ++ []). eapply parsed_trans; [by apply parsed_drop|]. apply parsed_ws.
    destruct Hq as [k ->]. exists (k ++ w). by rewrite <- app_assoc. }
  destruct t as [|c| |].
  - destruct Ht as [H1 ->]. cbn in Ew, H1. assert (eq = []) as -> by congruence. by split.
  - destruct Ht as [-> _]. split; [done|]. cbn [length] in Hl1. lia.
  - subst w. split; [done|]. cbn [length] in Hl1. lia.
  - destruct Ht as (Hne & Hall & Hend). split.
    + change [?x] with (@nil span ++ [x]). eapply parsed_trans; [exact Hws|]. by apply parsed_word.
    + assert (0 < length w)%nat by (destruct w; [done|cbn; lia]). lia.
Qed.

Lemma is_in_symbol toks c : forallb is_symbol toks = true -> is_in toks c = true -> is_symbol c = true /\ is_space c = false.
Proof.
  intros Ht Hc. unfold is_in in Hc. apply existsb_exists in Hc as (d & Hd & ->%Z.eqb_eq).
  rewrite forallb_forall in Ht. specialize (Ht d Hd). split; [done|]. unfold is_symbol, is_in in Ht.
  apply existsb_exists in Ht as (x & Hx & ->%Z.eqb_eq). cbn in Hx. by destruct_or!; subst.
Qed.

(** [peek] for symbols followed by [gettoken]. *)
Lemma symbol_spec toks s (Q : bool -> list Z -> Prop) :
  forallb is_symbol toks = true -> s `suffix_of` line ->
  (forall s', parsed line s [] s' -> Q false s') ->
  (forall s', parsed line s [] s' -> s' `suffix_of` line -> (exists c s1, s' = c :: s1 /\ is_symbol c = true /\ is_space c = false) -> Q true s') ->
  wp (peek toks) Q syntax_error s.
Proof.
  intros Ht Hs H0 H1. eapply wp_conseq; [by apply peek_spec|]. intros [] s' (_ & Hp & Hc); [|by apply H0].
  apply H1; [done|apply Hp|]. destruct (Hc eq_refl) as (c & s1 & -> & Hin). exists c, s1. split; [done|].
  by eapply is_in_symbol.
Qed.

Lemma scan_symbol c s1 : is_symbol c = true -> is_space c = false ->
  match (scan_token (c :: s1)).1.1 with TSym _ | TAppend => True | _ => False end.
Proof.
  intros Hc Hsp. unfold scan_token. cbn [skip_ws]. rewrite Hsp. destruct (c =? GT); [|by rewrite Hc].
  destruct s1 as [|d s1]; [done|]. by destruct (d =? GT).
Qed.

(** The symbol [peek] has found is one token. *)
Lemma take_symbol s :
  s `suffix_of` line -> (exists c s1, s = c :: s1 /\ is_symbol c = true /\ is_space c = false) ->
  wp (gettoken n) (fun _ s' => parsed line s [] s' /\ (length s' < length s)%nat) syntax_error s.
Proof.
  intros Hs (c & s1 & -> & Hc & Hsp). pose proof (scan_symbol c s1 Hc Hsp) as Hsc. pose proof (gettoken_spec _ Hs) as Hg.
  unfold wp, gettoken, mbind, M_bind, getS, modify, mret, M_ret in *. destruct (scan_token (c :: s1)) as [[t q] eq]. cbn [fst snd] in *.
  by destruct t.
Qed.

Lemma parseredirs_spec fuel : forall acc s,
  s `suffix_of` line -> (length s < fuel)%nat ->
  wp (parseredirs_loop n fuel acc) (fun r s' => exists rs, r = acc ++ rs /\ parsed line s (rspan <$> rs) s') syntax_error s.
Proof.
  induction fuel as [|fuel IH]; intros acc s Hs Hf; [lia|]. cbn [parseredirs_loop]. wp_step.
  apply symbol_spec; [done|done| |].
  { intros s' Hp. wp_step. exists []. by rewrite app_nil_r. }
  intros s1 Hp1 Hs1 Hc. wp_step. eapply wp_conseq; [by apply take_symbol|]. intros t s2 [Hp2 Hl2]. wp_step.
  eapply wp_conseq; [by apply gettoken_spec; apply Hp2|]. intros [ft fsp] s3 Ht. cbn [fst snd] in *.
  case_bool_decide as Hw; [|apply wp_panic]. subst ft. destruct Ht as [Hp3 Hl3]. cbn [negb].
  set (r := match t.1 with TEnd => _ | _ => _ end).
  assert (Hr : exists m d, r = [(fsp, m, d)] \/ r = []).
  { unfold r. destruct t.1; [by exists 0, 0; right| |by do 2 eexists; left|by exists 0, 0; right].
    destruct (c =? LT); [by do 2 eexists; left|]. destruct (c =? GT); [by do 2 eexists; left|by exists 0, 0; right]. }
  assert (Hall : parsed line s (rspan <$> r) s3).
  { assert (H123 : parsed line s [fsp] s3).
    { change [fsp] with ([] ++ [] ++ [fsp]). eapply parsed_trans; [exact Hp1|]. eapply parsed_trans; [exact Hp2|exact Hp3]. }
    destruct Hr as (m & d & [->| ->]); [done|]. destruct H123 as [A1 A2 A3 A4 A5]. constructor; try done.
    intros lo Hlo. split; [by apply A3|done]. }
  eapply wp_conseq; [apply IH; [apply Hall|pose proof (pa_length _ _ _ _ Hp1); lia]|].
  intros rs s4 (rs' & -> & Hp4). exists (r ++ rs'). split; [by rewrite app_assoc|]. rewrite fmap_app. by eapply parsed_trans.
Qed.

Lemma redirs_spec s :
  s `suffix_of` line -> wp (parseredirs n) (fun rs s' => parsed line s (rspan <$> rs) s') syntax_error s.
Proof.
  intros Hs. unfold parseredirs. do 2 wp_step. eapply wp_conseq; [apply parseredirs_spec; [done|lia]|]. by intros ? s' (rs & -> & Hp).
Qed.

Lemma parseexec_loop_spec fuel : forall argv rs s0 s,
  parsed line s0 (argv ++ (rspan <$> rs)) s -> (length s < fuel)%nat ->
  wp (parseexec_loop n fuel argv rs) (fun c s' => parsed line s0 (strings c) s') syntax_error s.
Proof.
  induction fuel as [|fuel IH]; intros argv rs s0 s Hp Hf; [lia|]. cbn [parseexec_loop]. wp_step.
  eapply wp_conseq; [apply peek_spec; apply Hp|]. intros stop s1 (_ & Hp1 & _).
  assert (H01 : parsed line s0 (argv ++ (rspan <$> rs)) s1).
  { rewrite <- (app_nil_r (argv ++ _)). by eapply parsed_trans. }
  destruct stop; [wp_step; by rewrite strings_wrap|]. wp_step. eapply wp_conseq; [apply gettoken_spec; apply Hp1|].
  intros [t sp] s2 Ht. cbn [fst snd] in *. case_bool_decide as He.
  { subst t. destruct Ht as [Hp2 _]. wp_step. rewrite strings_wrap. cbn [strings].
    rewrite <- (app_nil_r (argv ++ _)). by eapply parsed_trans. }
  case_bool_decide as Hw; [|apply wp_panic]. subst t. destruct Ht as [Hp2 Hl2]. cbn [negb]. wp_step; [apply wp_panic|].
  wp_step. eapply wp_conseq; [apply redirs_spec; apply Hp2|]. intros rs' s3 Hp3.
  apply IH; [|pose proof (pa_length _ _ _ _ Hp1); pose proof (pa_length _ _ _ _ Hp3); lia].
  eapply parsed_perm; [|eapply parsed_trans; [exact H01|eapply parsed_trans; [exact Hp2|exact Hp3]]].
  rewrite fmap_app. solve_Permutation.
Qed.

Lemma parseback_spec fuel : forall c s0 s,
  parsed line s0 (strings c) s -> (length s < fuel)%nat ->
  wp (parseback_loop n fuel c) (fun c' s' => parsed line s0 (strings c') s') syntax_error s.
Proof.
  induction fuel as [|fuel IH]; intros c s0 s Hp Hf; [lia|]. cbn [parseback_loop]. wp_step.
  assert (Hnext : forall s1, parsed line s [] s1 -> parsed line s0 (strings c) s1).
  { intros s1 Hp1. rewrite <- (app_nil_r (strings c)). by eapply parsed_trans. }
  apply symbol_spec; [done|apply Hp| |].
  { intros s1 Hp1. wp_step. by apply Hnext. }
  intros s1 Hp1 Hs1 Hc. wp_step. eapply wp_conseq; [by apply take_symbol|]. intros t s2 [Hp2 Hl2].
  apply IH; [|pose proof (pa_length _ _ _ _ Hp1); lia]. apply Hnext. change [] with (@nil span ++ []). by eapply parsed_trans.
Qed.

Lemma parsed_nil_l s l s1 s2 : parsed line s [] s1 -> parsed line s1 l s2 -> parsed line s l s2.
Proof. intros H1 H2. change l with ([] ++ l). by eapply parsed_trans. Qed.

Lemma parsed_nil_r s l s1 s2 : parsed line s l s1 -> parsed line s1 [] s2 -> parsed line s l s2.
Proof. intros H1 H2. rewrite <- (app_nil_r l). by eapply parsed_trans. Qed.

(** Four units of fuel for each character are enough. *)
Definition parses (k : nat) (m : nat -> M (list Z) (cmd span)) (fuel : nat) : Prop :=
  forall s, s `suffix_of` line -> (4 * length s + k <= fuel)%nat ->
    wp (m fuel) (fun c s' => parsed line s (strings c) s') syntax_error s.

Lemma parse_spec fuel :
  parses 4 (parseline n) fuel /\ parses 3 (parsepipe n) fuel /\ parses 2 (parseexec n) fuel /\ parses 1 (parseblock n) fuel.
Proof.
  induction fuel as [|fuel (IHl & IHp & IHe & IHb)]; [split_and!; intros s _ ?; lia|]. split_and!; intros s Hs Hf.
  - cbn [parseline]. wp_step. eapply wp_conseq; [apply IHp; [done|lia]|]. intros c s1 Hp1. do 2 wp_step.
    wp_step. eapply wp_conseq; [apply (parseback_spec _ c s); [done|lia]|]. intros c' s2 Hp2. wp_step.
    apply symbol_spec; [done|apply Hp2| |].
    { intros s3 Hp3. wp_step. eapply parsed_nil_r; [exact Hp2|exact Hp3]. }
    intros s3 Hp3 Hs3 Hc. wp_step. eapply wp_conseq; [by apply take_symbol|]. intros t s4 [Hp4 Hl4]. wp_step.
    pose proof (pa_length _ _ _ _ Hp2). pose proof (pa_length _ _ _ _ Hp3).
    eapply wp_conseq; [apply IHl; [apply Hp4|lia]|]. intros c2 s5 Hp5. wp_step. cbn [strings].
    eapply parsed_trans; [exact Hp2|]. eapply parsed_nil_l; [exact Hp3|]. eapply parsed_nil_l; [exact Hp4|exact Hp5].
  - cbn [parsepipe]. wp_step. eapply wp_conseq; [apply IHe; [done|lia]|]. intros c s1 Hp1. wp_step.
    apply symbol_spec; [done|apply Hp1| |].
    { intros s3 Hp3. wp_step. eapply parsed_nil_r; [exact Hp1|exact Hp3]. }
    intros s3 Hp3 Hs3 Hc. wp_step. eapply wp_conseq; [by apply take_symbol|]. intros t s4 [Hp4 Hl4]. wp_step.
    pose proof (pa_length _ _ _ _ Hp1). pose proof (pa_length _ _ _ _ Hp3).
    eapply wp_conseq; [apply IHp; [apply Hp4|lia]|]. intros c2 s5 Hp5. wp_step. cbn [strings].
    eapply parsed_trans; [exact Hp1|]. eapply parsed_nil_l; [exact Hp3|]. eapply parsed_nil_l; [exact Hp4|exact Hp5].
  - cbn [parseexec]. wp_step. apply symbol_spec; [done|done| |].
    + intros s1 Hp1. wp_step. eapply wp_conseq; [apply redirs_spec; apply Hp1|]. intros rs s2 Hp2. do 2 wp_step.
      apply parseexec_loop_spec; [eapply parsed_nil_l; [exact Hp1|exact Hp2]|lia].
    + intros s1 Hp1 Hs1 Hc. pose proof (pa_length _ _ _ _ Hp1). eapply wp_conseq; [apply IHb; [done|lia]|].
      intros c s2 Hp2. eapply parsed_nil_l; [exact Hp1|exact Hp2].
  - cbn [parseblock]. wp_step. apply symbol_spec; [done|done| |].
    { intros s1 _. apply wp_panic. }
    intros s1 Hp1 Hs1 Hc. cbn [negb]. wp_step. eapply wp_conseq; [by apply take_symbol|]. intros t s2 [Hp2 Hl2]. wp_step.
    pose proof (pa_length _ _ _ _ Hp1). eapply wp_conseq; [apply IHl; [apply Hp2|lia]|]. intros c s3 Hp3. wp_step.
    apply symbol_spec; [done|apply Hp3|intros ? _; apply wp_panic|].
    intros s4 Hp4 Hs4 Hc4. cbn [negb]. wp_step. eapply wp_conseq; [by apply take_symbol|]. intros ? s5 [Hp5 _]. wp_step.
    eapply wp_conseq; [apply redirs_spec; apply Hp5|]. intros rs s6 Hp6. wp_step. rewrite strings_wrap.
    eapply parsed_nil_l; [exact Hp1|]. eapply parsed_nil_l; [exact Hp2|]. eapply parsed_trans; [exact Hp3|].
    eapply parsed_nil_l; [exact Hp4|]. eapply parsed_nil_l; [exact Hp5|exact Hp6].
Qed.
End soundness.

(** ** nulterminate *)

Definition end_string (buf : list Z) (sp : span) : list Z := <[sp.2 := 0]> buf.

Lemma nulterminate_strings c : forall buf, nulterminate c buf = foldl end_string buf (strings c).
Proof.
  induction c as [argv|c IH f m d|l IHl r IHr|l IHl r IHr|c IH]; intros buf; cbn [nulterminate strings];
    rewrite ?foldl_app, ?IH, ?IHl, ?IHr; done.
Qed.

Lemma length_end_strings l : forall buf, length (foldl end_string buf l) = length buf.
Proof. induction l as [|sp l IH]; intros buf; [done|]. cbn. rewrite IH. apply length_insert. Qed.

Lemma lookup_end_strings l : forall buf i,
  Forall (fun sp : span => sp.2 ≠ i) l -> foldl end_string buf l !! i = buf !! i.
Proof.
  induction l as [|sp l IH]; intros buf i; [done|]. intros [Hi Hl]%Forall_cons. cbn. rewrite IH by done.
  by apply list_lookup_insert_ne.
Qed.

Lemma lookup_end_string l : forall buf sp,
  sp ∈ l -> (sp.2 < length buf)%nat -> foldl end_string buf l !! sp.2 = Some 0.
Proof.
  induction l as [|a l IH]; intros buf sp Hin Hlt; [by apply elem_of_nil in Hin|]. cbn.
  destruct (decide (sp ∈ l)) as [Hl|Hl]; [apply IH; [done|by unfold end_string; rewrite length_insert]|].
  apply elem_of_cons in Hin as [->|]; [|done]. destruct (decide (Forall (fun b : span => b.2 ≠ a.2) l)) as [Hf|Hf].
  - rewrite lookup_end_strings by done. by apply list_lookup_insert_eq.
  - apply not_Forall_Exists in Hf; [|intros b; apply _]. apply Exists_exists in Hf as (b & Hb & Heq).
    assert (b.2 = a.2) as E by (by apply dec_stable). rewrite <- E. apply IH; [done|].
    unfold end_string. rewrite length_insert. lia.
Qed.

Lemma separated_elem l a b : separated l -> a ∈ l -> b ∈ l -> a = b \/ apart a b.
Proof.
  induction l as [|x l IH]; intros Hs Ha Hb; [by apply elem_of_nil in Ha|]. destruct Hs as [Hx Hl].
  rewrite Forall_forall in Hx. apply elem_of_cons in Ha as [->|Ha]; apply elem_of_cons in Hb as [->|Hb];
    [by left|right; by apply Hx| |by apply IH].
  right. destruct (Hx a Ha); [by right|by left].
Qed.

(** The strings of a parsed command, read from the buffer once they have been
    terminated, are the words of the line. *)
Lemma terminated_string line rest c s sp :
  0 ∉ line -> parsed line line (strings c) s -> sp ∈ strings c ->
  cstr (drop sp.1 (nulterminate c (line ++ 0 :: rest))) = slice sp.1 (sp.2 - sp.1) line.
Proof.
  intros Hz [_ _ _ Hw Ha] Hin. rewrite nulterminate_strings. set (buf := line ++ 0 :: rest). set (buf' := foldl _ _ _).
  rewrite Forall_forall in Hw. destruct (Hw sp Hin) as [[[Hlt Hle] _] _].
  assert (Hlen : (sp.2 < length buf)%nat) by (unfold buf; rewrite length_app; cbn; lia).
  assert (Hch : forall i, (sp.1 <= i < sp.2)%nat -> buf' !! i = line !! i).
  { intros i Hi. unfold buf'. rewrite lookup_end_strings; [unfold buf; apply lookup_app_l; lia|].
    apply Forall_forall. intros b Hb. destruct (Hw b Hb) as [[[Hbl _] _] _].
    destruct (separated_elem _ _ _ Ha Hin Hb) as [<-|[Hap|Hap]]; lia. }
  assert (E : drop sp.1 buf' = slice sp.1 (sp.2 - sp.1) line ++ 0 :: drop (S sp.2) buf').
  { apply list_eq. intros i. rewrite lookup_drop. assert (Hls : length (slice sp.1 (sp.2 - sp.1) line) = (sp.2 - sp.1)%nat) by (apply length_slice; lia).
    destruct (decide (i < sp.2 - sp.1)%nat) as [Hi|Hi].
    - rewrite lookup_app_l, lookup_slice, Hch by lia. done.
    - rewrite lookup_app_r by lia. rewrite Hls. destruct (decide (i = (sp.2 - sp.1)%nat)) as [->|Hne].
      + rewrite Nat.sub_diag. change ((0 :: ?l) !! O) with (Some 0). replace (sp.1 + (sp.2 - sp.1))%nat with sp.2 by lia. by apply lookup_end_string.
      + destruct (i - (sp.2 - sp.1))%nat as [|k] eqn:Ek; [lia|].
        change ((0 :: drop (S sp.2) buf') !! S k) with (drop (S sp.2) buf' !! k). rewrite lookup_drop. f_equal. lia. }
  rewrite E. apply cstr_app_nul. intros Hin0. apply Hz. unfold slice in Hin0.
  eapply elem_of_sublist; [exact Hin0|]. etrans; [apply sublist_take|apply sublist_drop].
Qed.

Lemma cstr_prefix buf : nul_terminated buf -> exists rest, buf = cstr buf ++ 0 :: rest.
Proof.
  unfold nul_terminated. induction buf as [|c buf IH]; intros H; [by apply elem_of_nil in H|]. cbn [cstr].
  destruct (Z.eqb_spec c 0) as [->|Hc]; [by exists buf|]. apply elem_of_cons in H as [?|H]; [done|].
  destruct (IH H) as [rest E]. exists rest. cbn. by rewrite <- E.
Qed.

(** C22: the parser of the shell terminates on every line, either with a
    message about the syntax or with a command; then every string the command
    refers to (arguments and file names), read from the buffer as a C string,
    is the word of the line it was parsed from: cutting the buffer up with
    NULs damages no other string. *)
Theorem parsecmd_sound buf s :
  nul_terminated buf ->
  wp (parsecmd buf) (fun r _ => length r.2 = length buf /\
       forall sp, sp ∈ strings r.1 ->
         is_word (cstr buf) sp /\ cstr (drop sp.1 r.2) = slice sp.1 (sp.2 - sp.1) (cstr buf)) syntax_error s.
Proof.
  intros Hn. destruct (cstr_prefix buf Hn) as [rest Hb]. set (line := cstr buf) in *. unfold parsecmd. fold line.
  do 2 wp_step. wp_step. destruct (parse_spec line (parse_fuel line)) as (Hl & _).
  eapply wp_conseq; [apply Hl; [done|unfold parse_fuel; lia]|]. intros c s1 Hp. wp_step.
  eapply wp_conseq; [apply peek_spec; apply Hp|]. intros r s2 (_ & Hp2 & _). do 2 wp_step.
  destruct s2 as [|x s2]; [|apply wp_panic]. wp_step. cbn [fst snd]. split.
  - rewrite nulterminate_strings. apply length_end_strings.
  - intros sp Hin. split.
    + pose proof (pa_words _ _ _ _ Hp) as Hw. rewrite Forall_forall in Hw. by apply Hw.
    + rewrite Hb. eapply terminated_string; [apply cstr_no_nul|exact Hp|done].
Qed.
