(* ===== verification/ShRoundtrip.v ===== *)
(** * ShRoundtrip: parsing a printed command line gives the command back *)
From S2P Require Import Prelude CString FsFormat Sh ShProof.

(** ** Command lines *)

Inductive rkind : Type := RIn | ROut | RApp.

Inductive item : Type := IArg (w : list Z) | IRedir (k : rkind) (w : list Z).

(** The grammar that [parseline], [parsepipe], [parseexec] and [parseblock]
    implement; [nb] is the number of ampersands. *)
Inductive sline : Type :=
| SLine (p : spipe) (nb : nat)
| SSeq (p : spipe) (nb : nat) (l : sline)
with spipe : Type :=
| SLast (e : sexec)
| SPipe (e : sexec) (p : spipe)
with sexec : Type :=
| SSimple (items : list item)
| SBlock (l : sline) (rs : list (rkind * list Z)).

Scheme sline_mut := Induction for sline Sort Prop
  with spipe_mut := Induction for spipe Sort Prop
  with sexec_mut := Induction for sexec Sort Prop.
Combined Scheme syntax_ind from sline_mut, spipe_mut, sexec_mut.

(** *** As text: every token is preceded by a space *)

Definition rsym (k : rkind) : list Z := match k with RIn => [LT] | ROut => [GT] | RApp => [GT; GT] end.
Definition render_redir (r : rkind * list Z) : list Z := 32 :: rsym r.1 ++ 32 :: r.2.
Definition render_item (i : item) : list Z := match i with IArg w => 32 :: w | IRedir k w => render_redir (k, w) end.

Fixpoint render_line (l : sline) : list Z :=
  match l with
  | SLine p nb => render_pipe p ++ mjoin (replicate nb [32; AMP])
  | SSeq p nb l => render_pipe p ++ mjoin (replicate nb [32; AMP]) ++ 32 :: SEMI :: render_line l
  end
with render_pipe (p : spipe) : list Z :=
  match p with
  | SLast e => render_exec e
  | SPipe e p => render_exec e ++ 32 :: BAR :: render_pipe p
  end
with render_exec (e : sexec) : list Z :=
  match e with
  | SSimple items => mjoin (render_item <$> items)
  | SBlock l rs => 32 :: LPAR :: render_line l ++ 32 :: RPAR :: mjoin (render_redir <$> rs)
  end.

(** *** As commands *)

Definition rmode (k : rkind) : Z := match k with RIn => O_RDONLY | _ => Z.lor O_WRONLY O_CREATE end.
Definition rfd (k : rkind) : Z := match k with RIn => 0 | _ => 1 end.
Definition add_redirs (c : cmd (list Z)) (rs : list (rkind * list Z)) : cmd (list Z) :=
  foldl (fun c r => REDIR c r.2 (rmode r.1) (rfd r.1)) c rs.
Definition args_of (items : list item) : list (list Z) :=
  omap (fun i => match i with IArg w => Some w | _ => None end) items.
Definition redirs_of (items : list item) : list (rkind * list Z) :=
  omap (fun i => match i with IRedir k w => Some (k, w) | _ => None end) items.

Fixpoint mean_line (l : sline) : cmd (list Z) :=
  match l with
  | SLine p nb => Nat.iter nb BACK (mean_pipe p)
  | SSeq p nb l => LIST (Nat.iter nb BACK (mean_pipe p)) (mean_line l)
  end
with mean_pipe (p : spipe) : cmd (list Z) :=
  match p with
  | SLast e => mean_exec e
  | SPipe e p => PIPE (mean_exec e) (mean_pipe p)
  end
with mean_exec (e : sexec) : cmd (list Z) :=
  match e with
  | SSimple items => add_redirs (EXEC (args_of items)) (redirs_of items)
  | SBlock l rs => add_redirs (mean_line l) rs
  end.

(** *** Well-formed: words are words, and there are at most nine arguments *)

Definition word_ok (w : list Z) : Prop := w ≠ [] /\ Forall (fun c => word_char c = true /\ c ≠ 0) w.
Definition item_ok (i : item) : Prop := match i with IArg w | IRedir _ w => word_ok w end.

Fixpoint line_ok (l : sline) : Prop :=
  match l with
  | SLine p _ => pipe_wf p
  | SSeq p _ l => pipe_wf p /\ line_ok l
  end
with pipe_wf (p : spipe) : Prop :=
  match p with
  | SLast e => exec_ok e
  | SPipe e p => exec_ok e /\ pipe_wf p
  end
with exec_ok (e : sexec) : Prop :=
  match e with
  | SSimple items => Forall item_ok items /\ (length (args_of items) < MAXARGS)%nat
  | SBlock l rs => line_ok l /\ Forall (fun r => word_ok r.2) rs
  end.

Fixpoint cmap {V W} (f : V -> W) (c : cmd V) : cmd W :=
  match c with
  | EXEC argv => EXEC (f <$> argv)
  | REDIR c x m d => REDIR (cmap f c) (f x) m d
  | PIPE l r => PIPE (cmap f l) (cmap f r)
  | LIST l r => LIST (cmap f l) (cmap f r)
  | BACK c => BACK (cmap f c)
  end.

Abbreviation amps nb := (mjoin (replicate nb [32; AMP])).

Section roundtrip.
Context (line : list Z).
Local Abbreviation n := (length line).
Implicit Types s t r : list Z.

Definition text (sp : span) : list Z := slice sp.1 (sp.2 - sp.1) line.

(** The parser stands before [t], give or take white space. *)
Definition at_ t s : Prop := s `suffix_of` line /\ skip_ws s = skip_ws t.

(** What can follow a command: the end or one of [toks]. *)
Definition stop (toks : list Z) r : Prop := match skip_ws r with [] => True | c :: _ => is_in toks c = true end.

Definition boundary r : Prop := match r with [] => True | c :: _ => word_char c = false end.

Lemma skip_ws_space c t : is_space c = true -> skip_ws (c :: t) = skip_ws t.
Proof. intros H. cbn [skip_ws]. by rewrite H. Qed.

Lemma skip_ws_word w r : word_ok w -> skip_ws (w ++ r) = w ++ r.
Proof.
  intros [Hne Hw]. destruct w as [|c w]; [done|]. apply Forall_cons in Hw as [[Hc _] _]. unfold word_char in Hc.
  apply negb_true_iff, orb_false_iff in Hc as [Hc _]. cbn [app skip_ws]. by rewrite Hc.
Qed.

Lemma skip_word_app w r : Forall (fun c => word_char c = true) w -> boundary r -> skip_word (w ++ r) = r.
Proof.
  intros Hw Hb. induction Hw as [|c w Hc Hw IH]; cbn [app].
  - destruct r as [|c r]; [done|]. cbn [skip_word]. unfold boundary, word_char in Hb. apply negb_false_iff in Hb. by rewrite Hb.
  - cbn [skip_word]. unfold word_char in Hc. apply negb_true_iff in Hc. by rewrite Hc.
Qed.

Lemma peek_at toks t s :
  at_ t s ->
  wp (peek toks) (fun b s' => at_ t s' /\ (length s' <= length s)%nat /\
        b = match skip_ws t with c :: _ => is_in toks c | [] => false end) no_halt s.
Proof.
  intros [Hs E]. unfold peek. do 2 wp_step. do 2 wp_step. wp_step. split; [|split; [apply length_skip_ws|by rewrite E]].
  split; [|by rewrite skip_ws_idem]. apply (pa_suffix _ _ _ _ (parsed_ws line s Hs)).
Qed.

(** The token scanned at [t]; [w] are its characters. *)
Lemma gettoken_at t s tk w r :
  at_ t s -> scan_token (skip_ws t) = (tk, w ++ r, r) -> skip_ws t = w ++ r -> w ≠ [] ->
  wp (gettoken n) (fun x s' => x.1 = tk /\ text x.2 = w /\ at_ r s' /\ (length s' < length s)%nat) no_halt s.
Proof.
  intros [Hs E] Ht Ew Hw. unfold gettoken. do 2 wp_step.
  assert (Es : scan_token s = (tk, w ++ r, r)).
  { rewrite <- Ht. unfold scan_token. by rewrite skip_ws_idem, E. }
  rewrite Es. do 2 wp_step. wp_step. cbn [fst snd].
  assert (Hq : w ++ r `suffix_of` line) by (rewrite <- Ew, <- E; apply (pa_suffix _ _ _ _ (parsed_ws line s Hs))).
  assert (Hr : r `suffix_of` line) by (destruct Hq as [k ->]; exists (k ++ w); by rewrite <- app_assoc).
  assert (Hpos : (0 < length w)%nat) by (destruct w; [done|cbn; lia]).
  pose proof (length_skip_ws s) as H1. rewrite E, Ew, length_app in H1. pose proof (length_skip_ws r).
  split; [done|]. split; [|split; [|lia]].
  - unfold text. cbn [fst snd]. destruct Hq as [k Hk].
    assert (Ek : offset n (w ++ r) = length k) by (unfold offset; rewrite Hk; rewrite !length_app; lia).
    assert (Er : (offset n r - length k = length w)%nat) by (unfold offset; rewrite Hk; rewrite !length_app; lia).
    rewrite Ek, Er. rewrite Hk at 1. unfold slice. by rewrite drop_app_length, take_app_length.
  - split; [|by rewrite skip_ws_idem]. apply (pa_suffix _ _ _ _ (parsed_ws line r Hr)).
Qed.

Lemma word_ok_chars w : word_ok w -> Forall (fun c => word_char c = true) w.
Proof. intros [_ H]. eapply Forall_impl; [exact H|]. by intros c [? _]. Qed.

Lemma scan_word w r : word_ok w -> boundary r -> scan_token (w ++ r) = (TWord, w ++ r, r).
Proof.
  intros Hw Hb. unfold scan_token. rewrite skip_ws_word by done. pose proof (word_ok_chars w Hw) as Hc. destruct Hw as [Hne _].
  destruct w as [|c w]; [done|]. cbn [app]. pose proof Hc as [Hc0 _]%Forall_cons. unfold word_char in Hc0.
  apply negb_true_iff, orb_false_iff in Hc0 as [_ Hs]. destruct (Z.eqb_spec c GT) as [->|_]; [done|]. rewrite Hs.
  pose proof (skip_word_app (c :: w) r Hc Hb) as E. cbn [app] in E. by rewrite E.
Qed.

Lemma word_at t s w r :
  at_ t s -> skip_ws t = w ++ r -> word_ok w -> boundary r ->
  wp (gettoken n) (fun x s' => x.1 = TWord /\ text x.2 = w /\ at_ r s' /\ (length s' < length s)%nat) no_halt s.
Proof. intros Ha E Hw Hb. apply (gettoken_at t s TWord w r); [done|by rewrite E; apply scan_word|done|apply Hw]. Qed.

Lemma symbol_at c s r (Q : token * span -> list Z -> Prop) :
  at_ (32 :: c :: r) s -> is_symbol c = true -> c ≠ GT ->
  (forall x s', x.1 = TSym c -> at_ r s' -> (length s' < length s)%nat -> Q x s') ->
  wp (gettoken n) Q no_halt s.
Proof.
  intros Ha Hc Hne HQ. assert (Hsp : is_space c = false).
  { unfold is_symbol, is_in in Hc. apply existsb_exists in Hc as (x & Hx & ->%Z.eqb_eq). cbn in Hx. by destruct_or!; subst. }
  assert (E : skip_ws (32 :: c :: r) = [c] ++ r) by (cbn [skip_ws]; change (is_space 32) with true; cbv iota; by rewrite Hsp).
  eapply wp_conseq; [apply (gettoken_at (32 :: c :: r) s (TSym c) [c] r); [done| |done|done]|].
  - rewrite E. unfold scan_token. cbn [app skip_ws]. rewrite Hsp. rewrite (proj2 (Z.eqb_neq _ _) Hne), Hc. done.
  - intros x s' (H1 & _ & H3 & H4). by apply HQ.
Qed.

Lemma redir_symbol_at k w r s :
  at_ (32 :: rsym k ++ 32 :: w ++ r) s ->
  wp (gettoken n) (fun x s' => x.1 = match k with RIn => TSym LT | ROut => TSym GT | RApp => TAppend end /\
        at_ (32 :: w ++ r) s' /\ (length s' < length s)%nat) no_halt s.
Proof.
  intros Ha. eapply wp_conseq; [apply (gettoken_at (32 :: rsym k ++ 32 :: w ++ r) s (match k with RIn => TSym LT | ROut => TSym GT | RApp => TAppend end) (rsym k) (32 :: w ++ r)); [exact Ha| |by destruct k|by destruct k]|].
  - by destruct k.
  - by intros x s' (H1 & _ & H3 & H4).
Qed.

(** Redirections *)

Definition rtext (x : redir) : list Z * Z * Z := (text x.1.1, x.1.2, x.2).
Definition rmean (x : rkind * list Z) : list Z * Z * Z := (x.2, rmode x.1, rfd x.1).

Lemma boundary_redirs rs r : boundary r -> boundary (mjoin (render_redir <$> rs) ++ r).
Proof. by destruct rs as [|[[] w] rs]. Qed.

Lemma parseredirs_at fuel : forall rs acc r s,
  at_ (mjoin (render_redir <$> rs) ++ r) s -> Forall (fun x => word_ok x.2) rs -> boundary r ->
  match skip_ws r with c :: _ => is_in [LT; GT] c = false | [] => True end -> (length s < fuel)%nat ->
  wp (parseredirs_loop n fuel acc) (fun rs' s' => exists l, rs' = acc ++ l /\ rtext <$> l = rmean <$> rs /\
        at_ r s' /\ (length s' <= length s)%nat) no_halt s.
Proof.
  induction fuel as [|fuel IH]; intros rs acc r s Ha Hok Hb Hr Hf; [lia|]. cbn [parseredirs_loop]. wp_step.
  eapply wp_conseq; [by apply peek_at|]. intros more s1 (Ha1 & Hl1 & ->). destruct rs as [|[k w] rs].
  - cbn [fmap list_fmap mjoin list_join app] in *. destruct (skip_ws r) as [|c r']; [|rewrite Hr]; wp_step;
      (exists []; rewrite app_nil_r; done).
  - assert (Hhd : match skip_ws (mjoin (render_redir <$> (k, w) :: rs) ++ r) with c :: _ => is_in [LT; GT] c | [] => false end = true)
      by (by destruct k). rewrite Hhd. clear Hhd. apply Forall_cons in Hok as [Hw Hok]. cbn [snd] in Hw.
    assert (Ea : mjoin (render_redir <$> (k, w) :: rs) ++ r = 32 :: rsym k ++ 32 :: w ++ mjoin (render_redir <$> rs) ++ r).
    { cbn [fmap list_fmap]. change (mjoin (render_redir (k, w) :: ?l)) with (render_redir (k, w) ++ mjoin l). unfold render_redir at 1. cbn [fst snd].
      rewrite <- !app_assoc. cbn [app]. by rewrite <- !app_assoc. }
    rewrite Ea in Ha1. wp_step. eapply wp_conseq; [by apply redir_symbol_at|]. intros x s2 (Hx & Ha2 & Hl2). wp_step.
    eapply wp_conseq; [eapply (word_at _ s2 w); [exact Ha2|by rewrite skip_ws_space, skip_ws_word|done|by apply boundary_redirs]|].
    intros y s3 (Hy & Hyt & Ha3 & Hl3). rewrite Hy, bool_decide_eq_true_2 by done. cbn [negb]. rewrite Hx.
    set (l1 := match match k with RIn => TSym LT | ROut => TSym GT | RApp => TAppend end with TEnd => _ | _ => _ end).
    assert (El : rtext <$> l1 = [rmean (k, w)]) by (unfold l1, rtext, rmean; destruct k; cbn; by rewrite Hyt).
    eapply wp_conseq; [apply (IH rs (acc ++ l1) r s3); [done..|lia]|].
    intros rs' s4 (l & -> & Hl & Ha4 & Hl4). exists (l1 ++ l). rewrite app_assoc, fmap_app, El, Hl. split_and!; [done|done|apply Ha4..|lia].
Qed.

Lemma redirs_at rs r s :
  at_ (mjoin (render_redir <$> rs) ++ r) s -> Forall (fun x => word_ok x.2) rs -> boundary r ->
  match skip_ws r with c :: _ => is_in [LT; GT] c = false | [] => True end ->
  wp (parseredirs n) (fun rs' s' => rtext <$> rs' = rmean <$> rs /\ at_ r s' /\ (length s' <= length s)%nat) no_halt s.
Proof.
  intros Ha Hok Hb Hr. unfold parseredirs. do 2 wp_step. eapply wp_conseq; [apply (parseredirs_at _ rs [] r s); [done..|lia]|].
  by intros ? s' (l & -> & ? & ? & ?).
Qed.

Lemma cmap_wrap c rs rs' :
  rtext <$> rs = rmean <$> rs' -> cmap text (wrap c rs) = add_redirs (cmap text c) rs'.
Proof.
  revert c rs'. induction rs as [|[[f m] d] rs IH]; intros c rs' E; destruct rs' as [|[k w] rs']; try done.
  cbn [fmap list_fmap] in E. injection E as E1 E2 E3 E4. cbn in E1, E2, E3.
  change (wrap c ((f, m, d) :: rs)) with (wrap (REDIR c f m d) rs).
  change (add_redirs (cmap text c) ((k, w) :: rs')) with (add_redirs (REDIR (cmap text c) w (rmode k) (rfd k)) rs').
  rewrite (IH _ rs') by done. cbn. by rewrite E1, E2, E3.
Qed.

(** Simple commands *)

Abbreviation ends := [BAR; RPAR; AMP; SEMI].
Abbreviation as_items rs := ((fun x => IRedir x.1 x.2) <$> rs).

Definition arg_first (items : list item) : Prop := match items with IRedir _ _ :: _ => False | _ => True end.

Lemma items_split items :
  Forall item_ok items ->
  exists rs items', items = as_items rs ++ items' /\ arg_first items' /\ Forall item_ok items' /\ Forall (fun x => word_ok x.2) rs.
Proof.
  induction 1 as [|[w|k w] items Hi Hall (rs & items' & -> & Ha & Hok & Hrs)].
  - by exists [], [].
  - exists [], (IArg w :: as_items rs ++ items'). split_and!; try done; by constructor.
  - exists ((k, w) :: rs), items'. split_and!; try done; by constructor.
Qed.

Lemma render_split rs items r :
  mjoin (render_item <$> as_items rs ++ items) ++ r = mjoin (render_redir <$> rs) ++ mjoin (render_item <$> items) ++ r.
Proof.
  rewrite fmap_app, join_app, <- app_assoc. f_equal. by rewrite <- list_fmap_compose.
Qed.

Lemma args_split rs items : args_of (as_items rs ++ items) = args_of items.
Proof. unfold args_of. rewrite omap_app. induction rs as [|x rs IH]; [done|]. exact IH. Qed.

Lemma redirs_split rs items : redirs_of (as_items rs ++ items) = rs ++ redirs_of items.
Proof.
  unfold redirs_of. rewrite omap_app. f_equal. induction rs as [|[k w] rs IH]; [done|].
  cbn in IH |- *. by rewrite IH.
Qed.

Lemma stop_boundary toks r : forallb is_symbol toks = true -> stop toks r -> boundary r.
Proof.
  intros Ht Hs. destruct r as [|c r]; [done|]. unfold stop in Hs. cbn [skip_ws] in Hs. cbn. unfold word_char.
  destruct (is_space c); [done|]. by destruct (is_in_symbol _ _ Ht Hs) as [-> _].
Qed.

Lemma stop_no_redir toks r :
  forallb (fun c => negb (is_in [LT; GT] c)) toks = true -> stop toks r ->
  match skip_ws r with c :: _ => is_in [LT; GT] c = false | [] => True end.
Proof.
  intros Ht Hs. unfold stop in Hs. destruct (skip_ws r) as [|c r']; [done|]. unfold is_in in Hs.
  apply existsb_exists in Hs as (d & Hd & ->%Z.eqb_eq). rewrite forallb_forall in Ht. by apply negb_true_iff, Ht.
Qed.

Lemma word_head toks w r :
  forallb is_symbol toks = true -> word_ok w -> match w ++ r with c :: _ => is_in toks c | [] => false end = false.
Proof.
  intros Ht [Hne Hw]. destruct w as [|c w]; [done|]. apply Forall_cons in Hw as [[Hc _] _]. cbn [app]. unfold word_char in Hc.
  apply negb_true_iff, orb_false_iff in Hc as [_ Hc]. destruct (is_in toks c) eqn:Ein; [|done].
  destruct (is_in_symbol toks c Ht Ein). congruence.
Qed.

(** What follows the redirections of a simple command. *)
Lemma after_redirs items r :
  Forall item_ok items -> arg_first items -> stop ends r ->
  boundary (mjoin (render_item <$> items) ++ r) /\
  match skip_ws (mjoin (render_item <$> items) ++ r) with c :: _ => is_in [LT; GT] c = false | [] => True end.
Proof.
  intros Hok Ha Hs. destruct items as [|[w|k w] items]; [|split|done].
  - split; [by apply (stop_boundary ends)|by apply (stop_no_redir ends)].
  - done.
  - apply Forall_cons in Hok as [Hw _]. cbn in Hw. cbn [fmap list_fmap].
    change (mjoin (render_item (IArg w) :: ?l)) with ((32 :: w) ++ mjoin l). rewrite <- app_assoc. cbn [app].
    rewrite skip_ws_space, skip_ws_word by done.
    pose proof (word_head [LT; GT] w (mjoin (render_item <$> items) ++ r) eq_refl Hw) as Hh. by destruct (w ++ _).
Qed.

Lemma end_at r s :
  at_ r s -> skip_ws r = [] -> wp (gettoken n) (fun x s' => x.1 = TEnd /\ at_ r s' /\ (length s' <= length s)%nat) no_halt s.
Proof.
  intros [Hs E] Hr. unfold gettoken. do 2 wp_step. unfold scan_token. rewrite E, Hr. do 2 wp_step. wp_step.
  split; [done|]. split; [|cbn; lia]. split; [|by rewrite Hr]. by exists line; rewrite app_nil_r.
Qed.

Lemma parseexec_loop_at fuel : forall items argv rs args0 rs0 r s,
  at_ (mjoin (render_item <$> items) ++ r) s -> Forall item_ok items -> arg_first items -> stop ends r ->
  text <$> argv = args0 -> rtext <$> rs = rmean <$> rs0 ->
  (length (args0 ++ args_of items) < MAXARGS)%nat -> (length s < fuel)%nat ->
  wp (parseexec_loop n fuel argv rs)
     (fun c s' => cmap text c = add_redirs (EXEC (args0 ++ args_of items)) (rs0 ++ redirs_of items) /\
        at_ r s' /\ (length s' <= length s)%nat) no_halt s.
Proof.
  induction fuel as [|fuel IH]; intros items argv rs args0 rs0 r s Ha Hok Hfirst Hstop Eargs Ers Hmax Hf; [lia|].
  cbn [parseexec_loop]. wp_step. eapply wp_conseq; [by apply peek_at|]. intros b s1 (Ha1 & Hl1 & ->).
  destruct items as [|[w|k w] items]; [| |done].
  { cbn [fmap list_fmap mjoin list_join app] in *. change (args_of []) with (@nil (list Z)). change (redirs_of []) with (@nil (rkind * list Z)).
    rewrite !app_nil_r. unfold stop in Hstop.
    assert (Hdone : cmap text (wrap (EXEC argv) rs) = add_redirs (EXEC args0) rs0).
    { rewrite (cmap_wrap _ _ rs0) by done. cbn. by rewrite Eargs. }
    destruct (skip_ws r) as [|c r'] eqn:Er.
    - wp_step. eapply wp_conseq; [by apply end_at|]. intros x s2 (Hx & Ha2 & Hl2). rewrite Hx, bool_decide_eq_true_2 by done.
      wp_step. split_and!; [done|apply Ha2..|lia].
    - rewrite Hstop. wp_step. done. }
  apply Forall_cons in Hok as [Hw Hok]. cbn in Hw. destruct (items_split items Hok) as (rs1 & items' & -> & Hfirst' & Hok' & Hrs1).
  destruct (after_redirs items' r Hok' Hfirst' Hstop) as [Hb Hn].
  assert (Et : mjoin (render_item <$> IArg w :: as_items rs1 ++ items') ++ r = 32 :: w ++ mjoin (render_redir <$> rs1) ++ mjoin (render_item <$> items') ++ r).
  { rewrite <- render_split. cbn [fmap list_fmap]. change (mjoin (render_item (IArg w) :: ?l)) with ((32 :: w) ++ mjoin l). by rewrite <- app_assoc. }
  rewrite Et in Ha1 |- *.
  assert (match skip_ws (32 :: w ++ mjoin (render_redir <$> rs1) ++ mjoin (render_item <$> items') ++ r) with c :: _ => is_in ends c | [] => false end = false) as ->.
  { rewrite skip_ws_space, skip_ws_word by done. by apply word_head. }
  wp_step. eapply wp_conseq; [eapply (word_at _ s1 w); [exact Ha1|by rewrite skip_ws_space, skip_ws_word|done|by apply boundary_redirs]|].
  intros x s2 (Hx & Hxt & Ha2 & Hl2). rewrite Hx, bool_decide_eq_false_2, bool_decide_eq_true_2 by done. cbn [negb].
  assert (Hlen : (length (argv ++ [x.2]) < MAXARGS)%nat).
  { rewrite <- Eargs, length_app, length_fmap in Hmax. rewrite length_app. cbn in Hmax |- *. lia. }
  rewrite (proj2 (Nat.leb_gt _ _)) by done. wp_step. eapply wp_conseq; [by apply (redirs_at rs1)|]. intros rs' s3 (Hrs' & Ha3 & Hl3).
  assert (Ea : args_of (IArg w :: as_items rs1 ++ items') = w :: args_of items') by (by rewrite <- (args_split rs1 items')).
  assert (Er : redirs_of (IArg w :: as_items rs1 ++ items') = rs1 ++ redirs_of items') by (by rewrite <- (redirs_split rs1 items')).
  rewrite Ea in Hmax |- *. rewrite Er.
  eapply wp_conseq; [apply (IH items' (argv ++ [x.2]) (rs ++ rs') (args0 ++ [w]) (rs0 ++ rs1) r s3); try done|].
  - by rewrite fmap_app, Eargs, <- Hxt.
  - by rewrite !fmap_app, Ers, Hrs'.
  - by rewrite <- app_assoc.
  - lia.
  - intros c s4 (-> & Ha4 & Hl4). rewrite <- !app_assoc. split_and!; [done|apply Ha4..|lia].
Qed.

(** Background commands *)

Lemma stop_in toks toks' r :
  forallb (fun c => negb (is_in toks' c)) toks = true -> stop toks r ->
  match skip_ws r with c :: _ => is_in toks' c | [] => false end = false.
Proof.
  intros Ht Hs. unfold stop in Hs. destruct (skip_ws r) as [|c r']; [done|]. unfold is_in in Hs.
  apply existsb_exists in Hs as (d & Hd & ->%Z.eqb_eq). rewrite forallb_forall in Ht. by apply negb_true_iff, Ht.
Qed.

Lemma stop_weaken toks toks' r : forallb (is_in toks') toks = true -> stop toks r -> stop toks' r.
Proof.
  intros Ht Hs. unfold stop in *. destruct (skip_ws r) as [|c r']; [done|]. unfold is_in in Hs.
  apply existsb_exists in Hs as (d & Hd & ->%Z.eqb_eq). rewrite forallb_forall in Ht. by apply Ht.
Qed.

Lemma parseback_at fuel : forall nb c r s,
  at_ (amps nb ++ r) s -> stop [RPAR; SEMI] r -> (length s < fuel)%nat ->
  wp (parseback_loop n fuel c) (fun c' s' => cmap text c' = Nat.iter nb BACK (cmap text c) /\ at_ r s' /\ (length s' <= length s)%nat) no_halt s.
Proof.
  induction fuel as [|fuel IH]; intros nb c r s Ha Hs Hf; [lia|]. cbn [parseback_loop]. wp_step.
  eapply wp_conseq; [by apply peek_at|]. intros b s1 (Ha1 & Hl1 & ->). destruct nb as [|nb].
  - change (amps 0 ++ r) with r in *. rewrite (stop_in [RPAR; SEMI] [AMP]) by done. by wp_step.
  - change (amps (S nb) ++ r) with (32 :: AMP :: amps nb ++ r) in *. change (match skip_ws (32 :: AMP :: _) with c :: _ => is_in [AMP] c | [] => false end) with true.
    cbv iota. wp_step. eapply symbol_at; [exact Ha1|done|done|]. intros x s2 _ Ha2 Hl2. cbv beta.
    eapply wp_conseq; [apply (IH nb (BACK c) r s2); [done..|lia]|]. intros c' s3 (-> & Ha3 & Hl3).
    rewrite Nat.iter_succ_r. split_and!; [done|apply Ha3..|lia].
Qed.

Lemma amps_stop nb r : stop [RPAR; SEMI] r -> stop [RPAR; AMP; SEMI] (amps nb ++ r).
Proof. destruct nb as [|nb]; [|done]. by apply stop_weaken. Qed.

(** ** The parser on every command line *)

Definition line_spec l : Prop :=
  line_ok l -> forall fuel s r, at_ (render_line l ++ r) s -> stop [RPAR] r -> (4 * length s + 4 <= fuel)%nat ->
  wp (parseline n fuel) (fun c s' => cmap text c = mean_line l /\ at_ r s' /\ (length s' <= length s)%nat) no_halt s.
Definition pipe_spec p : Prop :=
  pipe_wf p -> forall fuel s r, at_ (render_pipe p ++ r) s -> stop [RPAR; AMP; SEMI] r -> (4 * length s + 3 <= fuel)%nat ->
  wp (parsepipe n fuel) (fun c s' => cmap text c = mean_pipe p /\ at_ r s' /\ (length s' <= length s)%nat) no_halt s.
Definition exec_spec e : Prop :=
  exec_ok e -> forall fuel s r, at_ (render_exec e ++ r) s -> stop ends r -> (4 * length s + 2 <= fuel)%nat ->
  wp (parseexec n fuel) (fun c s' => cmap text c = mean_exec e /\ at_ r s' /\ (length s' <= length s)%nat) no_halt s.

(** A pipeline and its ampersands, up to the semicolon. *)
Lemma pipe_back_at p nb fuel s r (k : cmd span -> M (list Z) (cmd span)) Q :
  pipe_spec p -> pipe_wf p -> at_ (render_pipe p ++ amps nb ++ r) s -> stop [RPAR; SEMI] r -> (4 * length s + 3 <= fuel)%nat ->
  (forall c s', cmap text c = Nat.iter nb BACK (mean_pipe p) -> at_ r s' -> (length s' <= length s)%nat -> wp (k c) Q no_halt s') ->
  wp (c ← parsepipe n fuel; s ← getS; c ← parseback_loop n (S (length s)) c; k c) Q no_halt s.
Proof.
  intros IH Hok Ha Hs Hf HQ. wp_step. eapply wp_conseq; [apply (IH Hok fuel s _ Ha); [by apply amps_stop|done]|].
  intros c s1 (Hc & Ha1 & Hl1). do 2 wp_step. wp_step. eapply wp_conseq; [apply (parseback_at _ nb c r s1); [done..|lia]|].
  intros c' s2 (Hc' & Ha2 & Hl2). rewrite Hc in Hc'. apply HQ; [done..|lia].
Qed.

Lemma line_single p nb : pipe_spec p -> line_spec (SLine p nb).
Proof.
  intros IH Hok [|fuel] s r Ha Hs Hf; [lia|]. cbn [parseline]. cbn [render_line] in Ha. rewrite <- app_assoc in Ha.
  eapply (pipe_back_at p nb fuel s r); [done|done|done|by apply (stop_weaken [RPAR])|lia|]. intros c s1 Hc Ha1 Hl1. wp_step.
  eapply wp_conseq; [by apply peek_at|]. intros b s2 (Ha2 & Hl2 & ->). rewrite (stop_in [RPAR] [SEMI]) by done.
  wp_step. split_and!; [done|apply Ha2..|lia].
Qed.

Lemma line_seq p nb l : pipe_spec p -> line_spec l -> line_spec (SSeq p nb l).
Proof.
  intros IHp IHl [Hp Hl] [|fuel] s r Ha Hs Hf; [lia|]. cbn [parseline]. cbn [render_line] in Ha. rewrite <- !app_assoc in Ha. cbn [app] in Ha.
  eapply (pipe_back_at p nb fuel s (32 :: SEMI :: render_line l ++ r)); [done|done|done|done|lia|]. intros c s1 Hc Ha1 Hl1. wp_step.
  eapply wp_conseq; [by apply peek_at|]. intros b s2 (Ha2 & Hl2 & ->).
  change (match skip_ws (32 :: SEMI :: _) with c :: _ => is_in [SEMI] c | [] => false end) with true. cbv iota.
  wp_step. eapply symbol_at; [exact Ha2|done|done|]. intros x s3 _ Ha3 Hl3. cbv beta. wp_step.
  eapply wp_conseq; [apply (IHl Hl fuel s3 r); [done..|lia]|]. intros c' s4 (Hc' & Ha4 & Hl4). wp_step.
  split; [by cbn; rewrite Hc, Hc'|]. split; [done|lia].
Qed.

Lemma pipe_last e : exec_spec e -> pipe_spec (SLast e).
Proof.
  intros IH Hok [|fuel] s r Ha Hs Hf; [lia|]. cbn [parsepipe]. wp_step.
  eapply wp_conseq; [apply (IH Hok fuel s r); [done|by apply (stop_weaken [RPAR; AMP; SEMI])|lia]|]. intros c s1 (Hc & Ha1 & Hl1). wp_step.
  eapply wp_conseq; [by apply peek_at|]. intros b s2 (Ha2 & Hl2 & ->). rewrite (stop_in [RPAR; AMP; SEMI] [BAR]) by done.
  wp_step. split_and!; [done|apply Ha2..|lia].
Qed.

Lemma pipe_pipe e p : exec_spec e -> pipe_spec p -> pipe_spec (SPipe e p).
Proof.
  intros IHe IHp [He Hp] [|fuel] s r Ha Hs Hf; [lia|]. cbn [parsepipe]. wp_step. cbn [render_pipe] in Ha. rewrite <- app_assoc in Ha. cbn [app] in Ha.
  eapply wp_conseq; [apply (IHe He fuel s _ Ha); [done|lia]|]. intros c s1 (Hc & Ha1 & Hl1). wp_step.
  eapply wp_conseq; [by apply peek_at|]. intros b s2 (Ha2 & Hl2 & ->).
  change (match skip_ws (32 :: BAR :: _) with c :: _ => is_in [BAR] c | [] => false end) with true. cbv iota.
  wp_step. eapply symbol_at; [exact Ha2|done|done|]. intros x s3 _ Ha3 Hl3. cbv beta. wp_step.
  eapply wp_conseq; [apply (IHp Hp fuel s3 r); [done..|lia]|]. intros c' s4 (Hc' & Ha4 & Hl4). wp_step.
  split; [by cbn; rewrite Hc, Hc'|]. split; [done|lia].
Qed.

(** A simple command does not start with a parenthesis. *)
Lemma simple_no_paren items r :
  Forall item_ok items -> stop ends r ->
  match skip_ws (mjoin (render_item <$> items) ++ r) with c :: _ => is_in [LPAR] c | [] => false end = false.
Proof.
  intros Hok Hs. destruct items as [|[w|k w] items]; [by apply (stop_in ends)| |by destruct k].
  apply Forall_cons in Hok as [Hw _]. cbn in Hw. cbn [fmap list_fmap].
  change (mjoin (render_item (IArg w) :: ?l)) with ((32 :: w) ++ mjoin l). rewrite <- app_assoc. cbn [app].
  rewrite skip_ws_space, skip_ws_word by done. by apply word_head.
Qed.

Lemma exec_simple items : exec_spec (SSimple items).
Proof.
  intros [Hok Hmax] [|fuel] s r Ha Hs Hf; [lia|]. cbn [parseexec]. wp_step. cbn [render_exec] in Ha.
  eapply wp_conseq; [by apply peek_at|]. intros b s1 (Ha1 & Hl1 & ->). rewrite simple_no_paren by done. wp_step.
  destruct (items_split items Hok) as (rs & items' & -> & Hfirst & Hok' & Hrs).
  destruct (after_redirs items' r Hok' Hfirst Hs) as [Hb Hn]. rewrite render_split in Ha1.
  eapply wp_conseq; [by apply (redirs_at rs)|]. intros rs' s2 (Hrs' & Ha2 & Hl2). do 2 wp_step. rewrite args_split in Hmax.
  eapply wp_conseq; [apply (parseexec_loop_at _ items' [] rs' [] rs r s2); try done; lia|].
  intros c s3 (Hc & Ha3 & Hl3). cbn [mean_exec]. rewrite args_split, redirs_split. split_and!; [done|apply Ha3..|lia].
Qed.

Lemma exec_block l rs : line_spec l -> exec_spec (SBlock l rs).
Proof.
  intros IH [Hl Hrs] [|[|fuel]] s r Ha Hs Hf; [lia..|]. cbn [parseexec parseblock]. wp_step. cbn [render_exec] in Ha.
  cbn [app] in Ha. rewrite <- !app_assoc in Ha. cbn [app] in Ha.
  eapply wp_conseq; [by apply peek_at|]. intros b s1 (Ha1 & Hl1 & ->).
  change (match skip_ws (32 :: LPAR :: _) with c :: _ => is_in [LPAR] c | [] => false end) with true. cbv iota.
  wp_step. eapply wp_conseq; [by apply peek_at|]. intros b s2 (Ha2 & Hl2 & ->).
  change (negb (match skip_ws (32 :: LPAR :: _) with c :: _ => is_in [LPAR] c | [] => false end)) with false. cbv iota.
  wp_step. eapply symbol_at; [exact Ha2|done|done|]. intros x s3 _ Ha3 Hl3. cbv beta. wp_step.
  eapply wp_conseq; [apply (IH Hl fuel s3 _ Ha3); [done|lia]|]. intros c s4 (Hc & Ha4 & Hl4). wp_step.
  eapply wp_conseq; [by apply peek_at|]. intros b s5 (Ha5 & Hl5 & ->).
  change (negb (match skip_ws (32 :: RPAR :: _) with c :: _ => is_in [RPAR] c | [] => false end)) with false. cbv iota.
  wp_step. eapply symbol_at; [exact Ha5|done|done|]. intros y s6 _ Ha6 Hl6. cbv beta. wp_step.
  eapply wp_conseq; [apply (redirs_at rs r s6); [done|done|by apply (stop_boundary ends)|by apply (stop_no_redir ends)]|].
  intros rs' s7 (Hrs' & Ha7 & Hl7). wp_step. cbn [mean_exec]. rewrite (cmap_wrap _ _ rs), Hc by done. split; [done|]. split; [done|lia].
Qed.

Lemma line_parses l : line_spec l.
Proof.
  apply (sline_mut line_spec pipe_spec exec_spec);
    eauto using line_single, line_seq, pipe_last, pipe_pipe, exec_simple, exec_block.
Qed.
End roundtrip.

Lemma cmap_ext {V W} (f g : V -> W) c : (forall x, x ∈ strings c -> f x = g x) -> cmap f c = cmap g c.
Proof.
  induction c as [argv|c IH x m d|l IHl r IHr|l IHl r IHr|c IH]; intros H; cbn [cmap strings] in *.
  - f_equal. apply list_fmap_ext. intros i x Hx. apply H. by eapply list_elem_of_lookup_2.
  - rewrite IH, H; [done|set_solver..].
  - rewrite IHl, IHr; [done|set_solver..].
  - rewrite IHl, IHr; [done|set_solver..].
  - by rewrite IH.
Qed.

(** *** A printed line has no NUL *)

Abbreviation nz t := (Forall (fun c : Z => c ≠ 0) t).

Lemma word_nz w : word_ok w -> nz w.
Proof. intros [_ H]. eapply Forall_impl; [exact H|]. by intros c [_ ?]. Qed.

Lemma redir_nz r : word_ok r.2 -> nz (render_redir r).
Proof. intros H%word_nz. unfold render_redir. constructor; [done|]. apply Forall_app. split; [by destruct r.1; repeat constructor|by constructor]. Qed.

Lemma join_nz {X} (f : X -> list Z) l : Forall (fun x => nz (f x)) l -> nz (mjoin (f <$> l)).
Proof. induction 1 as [|x l Hx Hl IH]; [done|]. change (mjoin (f <$> x :: l)) with (f x ++ mjoin (f <$> l)). by apply Forall_app. Qed.

Lemma amps_nz nb : nz (amps nb).
Proof. induction nb as [|nb IH]; [done|]. change (amps (S nb)) with ([32; AMP] ++ amps nb). apply Forall_app. split; [by repeat constructor|done]. Qed.

Lemma render_nz l : line_ok l -> nz (render_line l).
Proof.
  apply (sline_mut (fun l => line_ok l -> nz (render_line l)) (fun p => pipe_wf p -> nz (render_pipe p)) (fun e => exec_ok e -> nz (render_exec e)));
    cbn [line_ok pipe_wf exec_ok render_line render_pipe render_exec]; intros; destruct_and?; rewrite ?Forall_app, ?Forall_cons, ?Forall_app, ?Forall_cons;
    split_and?; eauto using amps_nz; try done.
  - apply join_nz. eapply Forall_impl; [eassumption|]. intros [w|k w] Hw; [constructor; [done|by apply word_nz]|by apply redir_nz].
  - apply join_nz. eapply Forall_impl; [eassumption|]. apply redir_nz.
Qed.

(** C21: the shell's parser inverts printing: for every command line of the
    shell's grammar (words, at most nine arguments per command, redirections
    before, between and after the arguments, pipes, background commands,
    lists and parenthesized blocks), [parsecmd] on its text returns, without a
    syntax error, the command tree that the line denotes, and the strings of
    the tree, read from the buffer up to the NULs that [nulterminate] wrote,
    are the words of the line. *)
Theorem parsecmd_inverts_print l s :
  line_ok l ->
  wp (parsecmd (render_line l ++ [0])) (fun r _ => cmap (fun sp => cstr (drop sp.1 r.2)) r.1 = mean_line l) no_halt s.
Proof.
  intros Hl. pose proof (render_nz l Hl) as Hz. set (line := render_line l) in *.
  assert (Hn : 0 ∉ line) by (intros H; rewrite Forall_forall in Hz; by apply (Hz 0)).
  unfold parsecmd. rewrite cstr_app_nul by done. do 2 wp_step. wp_step. destruct (parse_spec line (parse_fuel line)) as (Hp & _).
  eapply wp_conseq; [eapply wp_and; [apply (line_parses line l Hl _ line []); [|done|done]|apply Hp; [done|unfold parse_fuel; lia]]|].
  - unfold at_. by rewrite app_nil_r.
  - intros c s1 [(Hc & [_ E] & _) Hpa]. wp_step. unfold peek. do 2 wp_step. do 2 wp_step. do 2 wp_step. wp_step.
    rewrite E. cbn [skip_ws]. wp_step. cbn [fst snd]. rewrite <- Hc. apply cmap_ext. intros sp Hin.
    exact (terminated_string line [] c s1 sp Hn Hpa Hin).
Qed.

Module ShInstances.
(** [( cat < in | wc -l & ) > out ; echo done] *)
Definition cat : list Z := [99; 97; 116].
Definition inp : list Z := [105; 110].
Definition wc : list Z := [119; 99].
Definition dash_l : list Z := [45; 108].
Definition out : list Z := [111; 117; 116].
Definition echo : list Z := [101; 99; 104; 111].

Definition demo : sline :=
  SSeq (SLast (SBlock (SLine (SPipe (SSimple [IArg cat; IRedir RIn inp]) (SLast (SSimple [IArg wc; IArg dash_l]))) 1) [(ROut, out)])) 0
       (SLine (SLast (SSimple [IArg echo; IArg out])) 0).

Lemma parsecmd_inverts_print_witness :
  wp (parsecmd (render_line demo ++ [0])) (fun r _ => cmap (fun sp => cstr (drop sp.1 r.2)) r.1 =
    LIST (REDIR (BACK (PIPE (REDIR (EXEC [cat]) inp O_RDONLY 0) (EXEC [wc; dash_l]))) out (Z.lor O_WRONLY O_CREATE) 1) (EXEC [echo; out]))
    no_halt [].
Proof.
  refine (parsecmd_inverts_print demo [] _). cbn. unfold MAXARGS.
  assert (forall w, forallb (fun c => word_char c && negb (c =? 0)) w = true -> w ≠ [] -> word_ok w) as Hw.
  { intros w H Hne. split; [done|]. apply Forall_forall. intros c Hc. rewrite forallb_forall in H.
    specialize (H c (proj1 (list_elem_of_In _ _) Hc)). apply andb_true_iff in H as [H1 H2]. split; [done|].
    apply negb_true_iff, Z.eqb_neq in H2. done. }
  split_and!; repeat (apply Forall_cons; split); try apply Forall_nil; try (apply Hw; done); cbn; lia.
Defined.

Lemma parsecmd_sound_witness :
  nul_terminated (render_line demo ++ [0]) /\
  wp (parsecmd (render_line demo ++ [0])) (fun r _ => length r.2 = length (render_line demo ++ [0]) /\
       forall sp, sp ∈ strings r.1 ->
         is_word (cstr (render_line demo ++ [0])) sp /\
         cstr (drop sp.1 r.2) = slice sp.1 (sp.2 - sp.1) (cstr (render_line demo ++ [0]))) syntax_error [].
Proof.
  assert (H : nul_terminated (render_line demo ++ [0])) by (apply list_elem_of_In; cbn; tauto).
  split; [exact H|]. exact (parsecmd_sound (render_line demo ++ [0]) [] H).
Defined.
End ShInstances.
