(* ===== verification/Kalloc.v ===== *)
(** * Kalloc: the physical page allocator (kalloc.c)

    The free list is threaded through the free pages themselves: the first
    eight bytes of a free page hold the address of the next one. *)
From S2P Require Import Prelude Mmu.

(** [end], the first address after the kernel, is fixed by the linker. *)
Class Kernel := {
  kend : Z;
  kend_low : KERNBASE < kend;
  kend_high : kend <= KERNBASE + PHYSTOP;
}.

(** Memory as the kernel addresses it, [kmem.freelist], and the page table of
    the kernel that vm.c keeps ([kpml4], [kpdpt]).  [kmem.lock] and
    [kmem.use_lock] only matter to other processors. *)
Record kmem := Kmem {
  km_mem : Z -> Z;
  km_free : Z;
  km_pml4 : Z;
  km_pdpt : Z;
}.

Definition set_mem (m : Z -> Z) (s : kmem) : kmem := Kmem m (km_free s) (km_pml4 s) (km_pdpt s).
Definition set_free (f : Z) (s : kmem) : kmem := Kmem (km_mem s) f (km_pml4 s) (km_pdpt s).
Definition set_pml4 (p : Z) (s : kmem) : kmem := Kmem (km_mem s) (km_free s) p (km_pdpt s).
Definition set_pdpt (p : Z) (s : kmem) : kmem := Kmem (km_mem s) (km_free s) (km_pml4 s) p.

Abbreviation MK A := (M kmem A).

Definition load64 (a : Z) : MK Z := gets (fun s => read64 (km_mem s) a).
Definition store64 (a v : Z) : MK unit := modify (fun s => set_mem (write64 a v (km_mem s)) s).
Definition kmemset (a c n : Z) : MK unit := modify (fun s => set_mem (mset a c n (km_mem s)) s).
Definition kmemmove (dst src n : Z) : MK unit := modify (fun s => set_mem (mmove dst src n (km_mem s)) s).

(** Membership in lists put together from others. *)
Ltac in_lists :=
  repeat match goal with
  | H : context [_ ∈ _ ++ _] |- _ => rewrite elem_of_app in H
  | H : context [_ ∈ _ :: _] |- _ => rewrite elem_of_cons in H
  | |- context [_ ∈ _ ++ _] => rewrite elem_of_app
  | |- context [_ ∈ _ :: _] => rewrite elem_of_cons
  end; tauto.

Section kalloc.
Context `{Kernel}.

Definition kfree (v : Z) : MK unit :=
  if (negb (v mod PGSIZE =? 0) || (v <? kend) || (PHYSTOP <=? V2P v))%bool then panic "kfree"
  else
    kmemset v 1 PGSIZE;;
    next ← gets km_free;
    store64 v next;;
    modify (set_free v).

Definition kalloc : MK Z :=
  r ← gets km_free;
  if negb (r =? 0) then
    next ← load64 r;
    modify (set_free next);;
    mret r
  else panic "Out of memory!".

Definition freerange_step (vend p : Z) : MK (Z + unit) :=
  if p + PGSIZE <=? vend then kfree p;; mret (inl (p + PGSIZE)) else mret (inr tt).

(** Each round frees a page of the range. *)
Definition freerange (vstart vend : Z) : MK unit :=
  let p := PGROUNDUP vstart in
  while (S (Z.to_nat ((vend - p) / PGSIZE))) (freerange_step vend) p.

Definition kinit1 (vstart vend : Z) : MK unit :=
  modify (set_free 0);;
  freerange vstart vend.

(** ** Pages *)

Definition in_page (p x : Z) : Prop := p <= x < p + PGSIZE.

(** A page that [kfree] accepts. *)
Definition page_ok (p : Z) : Prop := p mod PGSIZE = 0 /\ kend <= p /\ p < KERNBASE + PHYSTOP.

(** Memory that agrees on a page, and that agrees outside some pages. *)
Definition same_page (m m' : Z -> Z) (p : Z) : Prop := forall x, in_page p x -> m' x = m x.
Definition same_except (ps : list Z) (m m' : Z -> Z) : Prop := forall x, (forall p, p ∈ ps -> ~ in_page p x) -> m' x = m x.

Lemma page_ok_range p : page_ok p -> KERNBASE < p /\ p + PGSIZE <= KERNBASE + PHYSTOP.
Proof.
  intros (Hm & Hl & Hh). pose proof kend_low. unfold PGSIZE, KERNBASE, PHYSTOP in *. split; [lia|].
  pose proof (Z.div_mod p 4096). pose proof (Z.div_mod (0xFFFF800000000000 + 0xE000000) 4096).
  change ((0xFFFF800000000000 + 0xE000000) mod 4096) with 0 in *. nia.
Qed.

Lemma page_ok_u64 p : page_ok p -> 0 < p /\ p + PGSIZE <= 2 ^ 64.
Proof. intros Hp%page_ok_range. unfold KERNBASE, PHYSTOP in Hp. lia. Qed.

Lemma page_ok_v2p p : page_ok p -> V2P p = p - KERNBASE /\ 0 <= V2P p < PHYSTOP /\ V2P p mod PGSIZE = 0.
Proof.
  intros Hp. pose proof (page_ok_range p Hp) as Hr. destruct Hp as (Hm & _ & Hh). unfold V2P, u64.
  rewrite Z.mod_small by (unfold KERNBASE, PHYSTOP, PGSIZE in *; lia). split; [done|]. split; [unfold PGSIZE in *; lia|].
  rewrite Zminus_mod, Hm. done.
Qed.

Lemma pages_apart p q x : page_ok p -> page_ok q -> in_page p x -> in_page q x -> p = q.
Proof.
  intros (Hp & _) (Hq & _) Hx Hy. unfold in_page, PGSIZE in *. pose proof (Z.div_mod p 4096). pose proof (Z.div_mod q 4096). nia.
Qed.

Lemma same_except_page ps m m' p : Forall page_ok ps -> page_ok p -> p ∉ ps -> same_except ps m m' -> same_page m m' p.
Proof.
  intros Hok Hp Hn Hs x Hx. apply Hs. intros q Hq Hxq. rewrite Forall_forall in Hok.
  apply Hn. by rewrite (pages_apart p q x) by eauto.
Qed.

Lemma same_except_refl ps m : same_except ps m m.
Proof. by intros x _. Qed.

Lemma same_except_trans ps m1 m2 m3 : same_except ps m1 m2 -> same_except ps m2 m3 -> same_except ps m1 m3.
Proof. intros H1 H2 x Hx. by rewrite H2, H1. Qed.

Lemma same_except_weaken ps qs m m' : ps ⊆ qs -> same_except ps m m' -> same_except qs m m'.
Proof. intros Hsub Hs x Hx. apply Hs. intros p Hp. by apply Hx, Hsub. Qed.

Lemma same_except_then ps p m1 m2 m3 : p ∈ ps -> same_except ps m1 m2 -> same_except [p] m2 m3 -> same_except ps m1 m3.
Proof.
  intros Hp H1 H2. eapply same_except_trans; [exact H1|]. eapply same_except_weaken; [|exact H2]. by intros q ->%list_elem_of_singleton.
Qed.

#[global] Instance same_except_perm : Proper ((≡ₚ) ==> eq ==> eq ==> iff) same_except.
Proof. intros ps qs E m ? <- m' ? <-. split; apply same_except_weaken; intros p; by rewrite E. Qed.

Lemma same_except_mset p c m : same_except [p] m (mset p c PGSIZE m).
Proof.
  intros x Hx. apply mset_other. specialize (Hx p (list_elem_of_here _ _)). unfold in_page in Hx. lia.
Qed.

Lemma same_except_write64 p a v m : in_page p a -> in_page p (a + 7) -> same_except [p] m (write64 a v m).
Proof.
  intros Ha Hb x Hx. apply write64_other. specialize (Hx p (list_elem_of_here _ _)). unfold in_page in *. lia.
Qed.

Lemma same_page_read64 m m' p a : same_page m m' p -> in_page p a -> in_page p (a + 7) -> read64 m' a = read64 m a.
Proof. intros Hs Ha Hb. apply read64_ext. intros x Hx. apply Hs. unfold in_page in *. lia. Qed.

(** ** The free list *)

Fixpoint chain (m : Z -> Z) (hd : Z) (ps : list Z) : Prop :=
  match ps with
  | [] => hd = 0
  | p :: ps => hd = p /\ chain m (read64 m p) ps
  end.

Lemma in_page_word p : in_page p p /\ in_page p (p + 7).
Proof. unfold in_page, PGSIZE. lia. Qed.

Lemma chain_frame m m' hd ps : (forall p, p ∈ ps -> same_page m m' p) -> chain m hd ps -> chain m' hd ps.
Proof.
  revert hd. induction ps as [|p ps IH]; intros hd Hs Hc; [done|]. destruct Hc as [-> Hc]. split; [done|].
  destruct (in_page_word p). rewrite (same_page_read64 m m' p) by (try apply Hs; set_solver).
  apply IH; [|done]. intros q Hq. apply Hs. set_solver.
Qed.

Lemma chain_empty m hd : chain m 0 hd -> Forall page_ok hd -> hd = [].
Proof. destruct hd as [|p hd]; [done|]. intros [<- _] [Hp _]%Forall_cons. apply page_ok_u64 in Hp. lia. Qed.

(** The pages [free] are free: distinct, valid and linked. *)
Record free_list (s : kmem) (free : list Z) : Prop := {
  fl_mem : mem_ok (km_mem s);
  fl_ok : Forall page_ok free;
  fl_nodup : NoDup free;
  fl_chain : chain (km_mem s) (km_free s) free;
}.

Lemma free_list_frame s s' free ps :
  free_list s free -> km_free s' = km_free s -> mem_ok (km_mem s') -> Forall page_ok ps -> same_except ps (km_mem s) (km_mem s') ->
  (forall p, p ∈ ps -> p ∉ free) -> free_list s' free.
Proof.
  intros [M0 O0 N0 C0] Ef Hm Hps Hs Hdis. split; [done..|]. rewrite Ef. eapply chain_frame; [|exact C0]. intros p Hp. rewrite Forall_forall in O0.
  apply (same_except_page ps); [done|by apply O0| |done]. intros Hin. by apply (Hdis p).
Qed.

(** Out of memory is a panic, not a return value. *)
Definition oom (h : halt) (s : kmem) : Prop := h = Panic "Out of memory!".

Lemma kalloc_spec s free (Q : Z -> kmem -> Prop) :
  free_list s free ->
  (forall p free' s', free = p :: free' -> s' = set_free (km_free s') s -> free_list s' free' -> Q p s') ->
  wp kalloc Q oom s.
Proof.
  intros [Hm Hok Hnd Hc] HQ. unfold kalloc. do 2 wp_step. destruct free as [|p free].
  - cbn in Hc. rewrite Hc. cbn. done.
  - destruct Hc as [E Hc]. apply Forall_cons in Hok as [Hp Hok]. apply NoDup_cons in Hnd as [_ Hnd]. rewrite E.
    pose proof (page_ok_u64 p Hp). rewrite (proj2 (Z.eqb_neq p 0)) by lia. cbn [negb].
    unfold load64. do 2 wp_step. do 2 wp_step. wp_step. by eapply HQ.
Qed.

Lemma kalloc_empty s : free_list s [] -> kalloc s = (Halt (Panic "Out of memory!"), s).
Proof. intros [_ _ _ Hc]. cbn in Hc. unfold kalloc, gets, mbind, M_bind. by rewrite Hc. Qed.

Lemma kfree_check v : page_ok v -> (negb (v mod PGSIZE =? 0) || (v <? kend) || (PHYSTOP <=? V2P v))%bool = false.
Proof.
  intros Hv. pose proof (page_ok_v2p v Hv) as (_ & Hr & _). destruct Hv as (Hm & Hl & _). rewrite Hm. cbn.
  apply orb_false_iff. split; [apply Z.ltb_ge|apply Z.leb_gt]; lia.
Qed.

Lemma kfree_spec s free v (Q : unit -> kmem -> Prop) E :
  free_list s free -> page_ok v -> v ∉ free ->
  (forall s', free_list s' (v :: free) -> same_except [v] (km_mem s) (km_mem s') ->
     km_pml4 s' = km_pml4 s -> km_pdpt s' = km_pdpt s -> Q tt s') ->
  wp (kfree v) Q E s.
Proof.
  intros [Hm Hok Hnd Hc] Hv Hn HQ. unfold kfree. rewrite kfree_check by done. unfold kmemset, store64.
  do 2 wp_step. do 2 wp_step. do 2 wp_step. wp_step. destruct (in_page_word v) as [W1 W2].
  set (m1 := mset v 1 PGSIZE (km_mem s)).
  assert (Hs : same_except [v] (km_mem s) (write64 v (km_free s) m1)).
  { eapply same_except_trans; [apply same_except_mset|by apply same_except_write64]. }
  apply HQ; [|done..]. split; [by apply mem_ok_write64, mem_ok_mset|by constructor|by constructor|]. cbn [chain km_mem km_free set_free set_mem]. split; [done|].
  assert (0 <= km_free s < 2 ^ 64).
  { destruct free as [|p free]; cbn in Hc; [rewrite Hc; lia|]. destruct Hc as [-> _].
    apply Forall_cons in Hok as [Hp%page_ok_u64 _]. unfold PGSIZE in Hp. lia. }
  rewrite read64_write64 by done. eapply chain_frame; [|exact Hc]. intros p Hp. rewrite Forall_forall in Hok.
  eapply same_except_page; [| | |exact Hs]; [by constructor|by apply Hok|]. intros ->%list_elem_of_singleton. done.
Qed.

Lemma kfree_bad s v : ~ page_ok v -> 0 <= v < 2 ^ 64 -> kfree v s = (Halt (Panic "kfree"), s).
Proof.
  intros Hn Hr. unfold kfree. destruct (negb _ || _ || _)%bool eqn:E; [done|]. destruct Hn.
  rewrite !orb_false_iff, negb_false_iff, Z.eqb_eq, Z.ltb_ge, Z.leb_gt in E. destruct E as [[E1 E2] E3].
  split_and!; [done|done|]. pose proof kend_low. unfold V2P, u64 in E3. rewrite Z.mod_small in E3 by (unfold KERNBASE in *; lia). lia.
Qed.
End kalloc.
