(* ===== verification/PgTable.v ===== *)
(** * PgTable: what a page table in memory means

    A four-level page table is a tree of pages.  A subtree of level [l] is
    named by the entry that points to it: level 0 is a mapped frame, level 1
    a page table, level 4 the PML4, of which the user owns the lower half.
    [tables] and [frames] are the pages of a subtree, [pte] is the mapping
    from virtual page numbers to leaf entries. *)
From S2P Require Import Prelude Mmu Kalloc.

Section pgtable.
Context `{Kernel}.
Implicit Types (m : Z -> Z) (e t i v a : Z) (l : nat).

(** The page an entry points to. *)
Definition child e : Z := P2V (PTE_ADDR e).
Definition entry m t i : Z := read64 m (t + 8 * i).

(** The number of entries of a table that belong to the user: freevm visits
    [NPDENTRIES/2] entries of the PML4. *)
Definition width l : Z := if (l =? 4)%nat then 256 else 512.

Definition ents l m t : list Z := base.filter (fun e => pte_p e = true) (entry m t <$> seqZ 0 (width l)).

Fixpoint tables l m e : list Z :=
  match l with
  | O => []
  | S l' => child e :: (ents l m (child e) ≫= tables l' m)
  end.

Fixpoint frames l m e : list Z :=
  match l with
  | O => [child e]
  | S l' => ents l m (child e) ≫= frames l' m
  end.

Definition span l : Z := 512 ^ Z.of_nat l.

Fixpoint pte l m e v : option Z :=
  match l with
  | O => Some e
  | S l' =>
      let e' := entry m (child e) (v / span l') in
      if pte_p e' then pte l' m e' (v mod span l') else None
  end.

(** The address of the leaf entry for page [v], if its page table exists. *)
Fixpoint slot l m e v : option Z :=
  match l with
  | O => None
  | S l' =>
      let a := child e + 8 * (v / span l') in
      match l' with
      | O => Some a
      | S _ => if pte_p (read64 m a) then slot l' m (read64 m a) (v mod span l') else None
      end
  end.

(** [sub f e]: [f] of the subtree below [e], if there is one. *)
Definition sub {A} (f : Z -> list A) e : list A := if pte_p e then f e else [].

Lemma ents_sub {A} (f : Z -> list A) l m t : ents l m t ≫= f = seqZ 0 (width l) ≫= (fun i => sub f (entry m t i)).
Proof.
  unfold ents. induction (seqZ 0 (width l)) as [|i r IH]; [done|]. cbn [fmap list_fmap]. rewrite filter_cons.
  rewrite bind_cons. unfold sub at 1. destruct (decide (pte_p (entry m t i) = true)) as [E|E].
  - rewrite bind_cons, IH, E. done.
  - rewrite IH. by apply not_true_is_false in E as ->.
Qed.

Lemma in_table t i : page_ok t -> 0 <= i < 512 -> in_page t (t + 8 * i) /\ in_page t (t + 8 * i + 7).
Proof. intros _ Hi. unfold in_page, PGSIZE. lia. Qed.

Lemma width_le l : 0 < width l <= 512.
Proof. unfold width. destruct (l =? 4)%nat; lia. Qed.

Lemma span_pos l : 0 < span l.
Proof. unfold span. apply Z.pow_pos_nonneg; lia. Qed.

Lemma span_S l : span (S l) = span l * 512.
Proof. unfold span. rewrite Nat2Z.inj_succ, Z.pow_succ_r by lia. lia. Qed.

(** The page numbers below a table of level [l]. *)
Definition in_range l v : Prop :=
  match l with
  | O => True
  | S l' => 0 <= v < width l * span l'
  end.

Lemma in_range_index l v : in_range (S l) v -> 0 <= v / span l < width (S l).
Proof.
  intros Hv. cbn in Hv. pose proof (span_pos l). split; [apply Z.div_pos; lia|]. apply Z.div_lt_upper_bound; lia.
Qed.

Lemma in_range_mod l v : (l < 4)%nat -> in_range l (v mod span l).
Proof.
  intros Hl. pose proof (Z.mod_pos_bound v (span l) (span_pos l)) as Hm. destruct l as [|l]; [done|]. cbn [in_range].
  unfold width. destruct (Nat.eqb_spec (S l) 4) as [E|_]; [lia|]. rewrite span_S in Hm |- *. lia.
Qed.

Lemma bind_ext_elem {A B} (f g : A -> list B) (l : list A) : (forall x, x ∈ l -> f x = g x) -> l ≫= f = l ≫= g.
Proof.
  induction l as [|x l IH]; intros Hfg; [done|]. rewrite !bind_cons, Hfg by set_solver. f_equal. apply IH. set_solver.
Qed.

(** Reading a subtree reads only its tables. *)
Lemma tree_frame l : forall m m' e,
  (l <= 4)%nat -> (forall p, p ∈ tables l m e -> page_ok p /\ same_page m m' p) ->
  tables l m' e = tables l m e /\ frames l m' e = frames l m e /\
  (forall v, in_range l v -> pte l m' e v = pte l m e v).
Proof.
  induction l as [|l IH]; intros m m' e Hl Hs; [done|]. set (t := child e).
  assert (Ht : page_ok t /\ same_page m m' t) by (apply Hs; cbn; set_solver).
  pose proof (width_le (S l)) as Hw.
  assert (Ee : forall i, 0 <= i < 512 -> entry m' t i = entry m t i).
  { intros i Hi. destruct Ht as [Hok Hst], (in_table t i) as [A B]; [done..|]. by apply (same_page_read64 m m' t). }
  assert (Hsub : forall i, 0 <= i < width (S l) -> pte_p (entry m t i) = true ->
            forall p, p ∈ tables l m (entry m t i) -> page_ok p /\ same_page m m' p).
  { intros i Hi Hp p Hpin. apply Hs. cbn. fold t. right. rewrite ents_sub. apply list_elem_of_bind.
    exists i. split; [unfold sub; by rewrite Hp|]. apply elem_of_seqZ. lia. }
  cbn [tables frames pte]. fold t. rewrite !ents_sub. split_and!.
  - f_equal. apply bind_ext_elem. intros i Hi%elem_of_seqZ. rewrite Ee by lia. unfold sub.
    destruct (pte_p (entry m t i)) eqn:Hp; [|done]. apply IH; [lia|]. apply Hsub; [lia|done].
  - apply bind_ext_elem. intros i Hi%elem_of_seqZ. rewrite Ee by lia. unfold sub.
    destruct (pte_p (entry m t i)) eqn:Hp; [|done]. apply IH; [lia|]. apply Hsub; [lia|done].
  - intros v Hv. apply in_range_index in Hv. rewrite Ee by lia. destruct (pte_p (entry m t (v / span l))) eqn:Hp; [|done].
    apply IH; [lia| |apply in_range_mod; lia]. by apply Hsub.
Qed.

(** ** One entry of a table and the rest of the tree *)

Lemma seqZ_split n i : 0 <= i < n -> seqZ 0 n = seqZ 0 i ++ i :: seqZ (i + 1) (n - i - 1).
Proof.
  intros Hi. replace n with (i + (1 + (n - i - 1))) at 1 by lia. rewrite seqZ_app by lia. f_equal. rewrite seqZ_app by lia.
  rewrite (seqZ_cons _ 1) by lia. rewrite (seqZ_nil _ (Z.pred 1)) by lia. cbn [app]. rewrite Z.add_0_l. f_equal.
Qed.

(** The subtrees of the entries other than entry [i]. *)
Definition others {A} (f : Z -> list A) l m t i : list A :=
  (seqZ 0 i ++ seqZ (i + 1) (width l - i - 1)) ≫= (fun j => sub f (entry m t j)).

Lemma ents_focus {A} (f : Z -> list A) l m t i :
  0 <= i < width l -> ents l m t ≫= f ≡ₚ sub f (entry m t i) ++ others f l m t i.
Proof.
  intros Hi. rewrite ents_sub, (seqZ_split _ i) by done. unfold others. rewrite !bind_app, bind_cons.
  rewrite !app_assoc. apply Permutation_app; [|done]. apply Permutation_app_comm.
Qed.

Lemma others_ext {A} (f g : Z -> list A) l m m' t i :
  0 <= i < width l ->
  (forall j, 0 <= j < width l -> j ≠ i -> entry m' t j = entry m t j) ->
  (forall j, 0 <= j < width l -> j ≠ i -> pte_p (entry m t j) = true -> g (entry m t j) = f (entry m t j)) ->
  others g l m' t i = others f l m t i.
Proof.
  intros Hi He Hfg. apply bind_ext_elem. intros j Hj.
  assert (0 <= j < width l /\ j ≠ i) as [Hr Hne] by (apply elem_of_app in Hj as [Hj%elem_of_seqZ|Hj%elem_of_seqZ]; lia).
  unfold sub. rewrite He by done. destruct (pte_p (entry m t j)) eqn:Hp; [|done]. by apply Hfg.
Qed.

(** Memory [m'] differs from [m] below entry [i] of table [child e], and in
    that entry, only. *)
Definition focused l m m' e i : Prop :=
  (forall j, 0 <= j < width (S l) -> j ≠ i -> entry m' (child e) j = entry m (child e) j) /\
  (forall p, p ∈ others (tables l m) (S l) m (child e) i -> page_ok p /\ same_page m m' p).

Lemma others_tables l m t i j p :
  0 <= j < width (S l) -> j ≠ i -> pte_p (entry m t j) = true -> p ∈ tables l m (entry m t j) ->
  p ∈ others (tables l m) (S l) m t i.
Proof.
  intros Hj Hne Hp Hin. apply list_elem_of_bind. exists j. split; [unfold sub; by rewrite Hp|].
  apply elem_of_app. rewrite !elem_of_seqZ. lia.
Qed.

Lemma tree_focus l m m' e i :
  (l < 4)%nat -> 0 <= i < width (S l) -> focused l m m' e i ->
  tables (S l) m' e ≡ₚ child e :: sub (tables l m') (entry m' (child e) i) ++ others (tables l m) (S l) m (child e) i /\
  frames (S l) m' e ≡ₚ sub (frames l m') (entry m' (child e) i) ++ others (frames l m) (S l) m (child e) i /\
  (forall v, in_range (S l) v -> v / span l ≠ i -> pte (S l) m' e v = pte (S l) m e v).
Proof.
  intros Hl Hi [He Hs]. set (t := child e) in *.
  assert (Hfr : forall j, 0 <= j < width (S l) -> j ≠ i -> pte_p (entry m t j) = true ->
    tables l m' (entry m t j) = tables l m (entry m t j) /\ frames l m' (entry m t j) = frames l m (entry m t j) /\
    (forall v, in_range l v -> pte l m' (entry m t j) v = pte l m (entry m t j) v)).
  { intros j Hj Hne Hp. apply tree_frame; [lia|]. intros p Hin. apply Hs. by eapply others_tables. }
  split_and!.
  - cbn [tables]. fold t. apply Permutation_skip. rewrite (ents_focus _ _ _ _ i) by done. apply Permutation_app; [done|].
    rewrite (others_ext (tables l m) (tables l m') (S l) m m' t i); [done|done|done|]. intros. by apply Hfr.
  - cbn [frames]. fold t. rewrite (ents_focus _ _ _ _ i) by done. apply Permutation_app; [done|].
    rewrite (others_ext (frames l m) (frames l m') (S l) m m' t i); [done|done|done|]. intros. by apply Hfr.
  - intros v Hv Hne. pose proof (in_range_index l v Hv). cbn [pte]. fold t. rewrite He by done.
    destruct (pte_p (entry m t (v / span l))) eqn:Hp; [|done]. apply Hfr; [done..|apply in_range_mod; lia].
Qed.

Lemma tree_split l m e i :
  (l < 4)%nat -> 0 <= i < width (S l) -> Forall page_ok (tables (S l) m e) ->
  tables (S l) m e ≡ₚ child e :: sub (tables l m) (entry m (child e) i) ++ others (tables l m) (S l) m (child e) i /\
  frames (S l) m e ≡ₚ sub (frames l m) (entry m (child e) i) ++ others (frames l m) (S l) m (child e) i.
Proof.
  intros Hl Hi Hok. cbn [tables frames]. split; [apply Permutation_skip|]; by apply ents_focus.
Qed.

(** ** Leaf entries *)

Lemma slot_table l : forall m e v a,
  (l <= 4)%nat -> in_range l v -> slot l m e v = Some a ->
  exists t i, t ∈ tables l m e /\ 0 <= i < 512 /\ a = t + 8 * i.
Proof.
  induction l as [|l IH]; intros m e v a Hl Hv Ha; [done|]. pose proof (in_range_index l v Hv) as Hi. pose proof (width_le (S l)).
  cbn [slot] in Ha. destruct l as [|l].
  - injection Ha as <-. exists (child e), (v / span 0). split; [cbn; set_solver|]. split; [lia|done].
  - change (read64 m (child e + 8 * (v / span (S l)))) with (entry m (child e) (v / span (S l))) in Ha.
    destruct (pte_p _) eqn:Hp; [|done]. apply IH in Ha as (t & i & Hin & Hr & ->); [|lia|apply in_range_mod; lia].
    exists t, i. split; [|done]. cbn [tables]. right. rewrite ents_sub. apply list_elem_of_bind. exists (v / span (S l)).
    split; [unfold sub; by rewrite Hp|]. apply elem_of_seqZ. lia.
Qed.

Lemma pte_slot l : forall m e v,
  (0 < l)%nat ->
  pte l m e v = match slot l m e v with Some a => if pte_p (read64 m a) then Some (read64 m a) else None | None => None end.
Proof.
  induction l as [|l IH]; intros m e v Hl; [lia|]. cbn [pte slot]. destruct l as [|l]; [done|].
  unfold entry. destruct (pte_p _); [|done]. apply IH. lia.
Qed.

Lemma slot_frame l : forall m m' e v,
  (l <= 4)%nat -> in_range l v -> (forall p, p ∈ tables l m e -> page_ok p /\ same_page m m' p) -> slot l m' e v = slot l m e v.
Proof.
  induction l as [|l IH]; intros m m' e v Hl Hv Hs; [done|]. destruct l as [|l]; [done|].
  pose proof (in_range_index (S l) v Hv) as Hi. pose proof (width_le (S (S l))). set (i := v / span (S l)) in *.
  destruct (Hs (child e)) as [Hok Hsp]; [cbn [tables]; set_solver|]. destruct (in_table (child e) i) as [A B]; [done|lia|].
  change (slot (S (S l)) ?mm e v) with (if pte_p (entry mm (child e) i) then slot (S l) mm (entry mm (child e) i) (v mod span (S l)) else None).
  assert (Ee : entry m' (child e) i = entry m (child e) i) by (by apply (same_page_read64 m m' (child e))).
  rewrite Ee. destruct (pte_p _) eqn:Hp; [|done]. apply IH; [lia|apply in_range_mod; lia|]. intros p Hin. apply Hs.
  change (tables (S (S l)) m e) with (child e :: (ents (S (S l)) m (child e) ≫= tables (S l) m)). right. rewrite ents_sub.
  apply list_elem_of_bind. exists i. split; [unfold sub; by rewrite Hp|]. apply elem_of_seqZ. lia.
Qed.

(** The frame of a leaf entry. *)
Definition leaf (e : Z) : list Z := sub (fun e => [child e]) e.

(** The entries of a table other than [i] after a write to entry [i]. *)
Lemma entry_write m t i j x : i ≠ j -> entry (write64 (t + 8 * i) x m) t j = entry m t j.
Proof. intros Hne. unfold entry. apply read64_write64_other. lia. Qed.

(** A change to the tables below entry [i] leaves the rest of the tree alone. *)
Lemma focused_below l m m' e i ps :
  0 <= i < width (S l) -> same_except ps m m' -> Forall page_ok ps ->
  Forall page_ok (child e :: others (tables l m) (S l) m (child e) i) ->
  (forall p, p ∈ ps -> p ∉ child e :: others (tables l m) (S l) m (child e) i) ->
  focused l m m' e i /\ entry m' (child e) i = entry m (child e) i.
Proof.
  intros Hi Hs Hps Hok Hdis. pose proof (width_le (S l)). rewrite Forall_forall in Hok.
  assert (Hsp : forall p, p ∈ child e :: others (tables l m) (S l) m (child e) i -> same_page m m' p).
  { intros p Hp. eapply same_except_page; [exact Hps|by apply Hok| |exact Hs]. intros Hin. by apply (Hdis p). }
  assert (Ee : forall j, 0 <= j < 512 -> entry m' (child e) j = entry m (child e) j).
  { intros j Hj. destruct (in_table (child e) j) as [A B]; [apply Hok; set_solver|done|].
    apply (same_page_read64 m m' (child e)); [apply Hsp; set_solver|done..]. }
  split; [|apply Ee; lia]. split; [intros j Hj _; apply Ee; lia|]. intros p Hin.
  split; [apply Hok|apply Hsp]; set_solver.
Qed.

(** The state of the tree after a change to the subtree at entry [i]. *)
Lemma tree_below l m m' e i ps :
  (l < 4)%nat -> 0 <= i < width (S l) -> pte_p (entry m (child e) i) = true ->
  same_except ps m m' -> Forall page_ok ps -> Forall page_ok (tables (S l) m e) ->
  (forall p, p ∈ ps -> p ∉ child e :: others (tables l m) (S l) m (child e) i) ->
  entry m' (child e) i = entry m (child e) i /\
  tables (S l) m' e ≡ₚ child e :: tables l m' (entry m (child e) i) ++ others (tables l m) (S l) m (child e) i /\
  frames (S l) m' e ≡ₚ frames l m' (entry m (child e) i) ++ others (frames l m) (S l) m (child e) i /\
  (forall w, in_range (S l) w -> pte (S l) m' e w = if decide (w / span l = i) then pte l m' (entry m (child e) i) (w mod span l) else pte (S l) m e w).
Proof.
  intros Hl Hi Hp Hs Hps Hok Hdis. destruct (tree_split l m e i) as [ET _]; [done..|]. rewrite ET in Hok.
  destruct (focused_below l m m' e i ps) as [Hf Ee]; [done..| |done|].
  { apply Forall_cons in Hok as [? [_ ?]%Forall_app]. by constructor. }
  destruct (tree_focus l m m' e i) as (T & F & P); [done..|]. rewrite Ee in T, F. unfold sub in T, F. rewrite Hp in T, F.
  split_and!; [done..|]. intros w Hw. destruct (decide (w / span l = i)) as [Ew|Ew]; [|by apply P].
  cbn [pte]. by rewrite Ew, Ee, Hp.
Qed.

Lemma tree_write_leaf m e v x :
  in_range 1 v -> Forall page_ok (tables 1 m e) -> 0 <= x < 2 ^ 64 ->
  let a := child e + 8 * v in
  tables 1 (write64 a x m) e ≡ₚ tables 1 m e /\
  leaf (read64 m a) ++ frames 1 (write64 a x m) e ≡ₚ leaf x ++ frames 1 m e /\
  (forall w, in_range 1 w -> pte 1 (write64 a x m) e w = if decide (w = v) then if pte_p x then Some x else None else pte 1 m e w).
Proof.
  intros Hv Hok Hx a. set (m' := write64 a x m). assert (Hi : 0 <= v < width 1) by (unfold in_range in Hv; change (span 0) with 1 in Hv; lia).
  destruct (tree_split 0 m e v) as [ET EF]; [lia|done|done|].
  destruct (tree_focus 0 m m' e v) as (T & F & P); [lia|done| |].
  { split; [intros j _ Hne; by apply entry_write|]. intros p (j & Hj & _)%list_elem_of_bind.
    unfold sub in Hj. destruct (pte_p _); by apply elem_of_nil in Hj. }
  assert (Ex : entry m' (child e) v = x) by (unfold entry, m'; by apply read64_write64).
  rewrite Ex in *. assert (Hdiv : forall y, y / span 0 = y) by (intros; apply Z.div_1_r). split; [|split].
  - rewrite T, ET. unfold sub. by destruct (pte_p x), (pte_p (entry m (child e) v)).
  - rewrite F, EF. unfold leaf, entry. fold a. unfold sub. change (frames 0 ?mm) with (fun e => [child e]).
    destruct (pte_p x), (pte_p (read64 m a)); cbn [app]; try done. constructor.
  - intros w Hw. destruct (decide (w = v)) as [->|Hne]; [|apply P; [done|by rewrite Hdiv]].
    cbn [pte]. by rewrite Hdiv, Ex.
Qed.

Lemma div_mod_inj v w n : 0 < n -> v / n = w / n -> v mod n = w mod n -> v = w.
Proof. intros Hn Hd Hm. rewrite (Z.div_mod v n), (Z.div_mod w n) by lia. congruence. Qed.

(** Writing a leaf entry changes one mapping. *)
Lemma tree_write l : forall m e v a x,
  (0 < l <= 4)%nat -> in_range l v -> slot l m e v = Some a -> NoDup (tables l m e) -> Forall page_ok (tables l m e) -> 0 <= x < 2 ^ 64 ->
  tables l (write64 a x m) e ≡ₚ tables l m e /\
  leaf (read64 m a) ++ frames l (write64 a x m) e ≡ₚ leaf x ++ frames l m e /\
  (forall w, in_range l w -> pte l (write64 a x m) e w = if decide (w = v) then if pte_p x then Some x else None else pte l m e w).
Proof.
  induction l as [|l IH]; intros m e v a x Hl Hv Ha Hnd Hok Hx; [lia|]. destruct l as [|l].
  { cbn in Ha. injection Ha as <-. rewrite Z.div_1_r. by apply tree_write_leaf. }
  set (l1 := S l) in *. set (m' := write64 a x m). set (i := v / span l1). pose proof (in_range_index l1 v Hv) as Hi. fold i in Hi.
  destruct (tree_split l1 m e i) as [ET EF]; [lia|done|done|]. pose proof Hnd as Hnd'. rewrite ET in Hnd'. pose proof Hok as Hok'. rewrite ET in Hok'.
  change (slot (S l1) m e v) with (if pte_p (entry m (child e) i) then slot l1 m (entry m (child e) i) (v mod span l1) else None) in Ha.
  set (ei := entry m (child e) i) in *. destruct (pte_p ei) eqn:Hp; [|done]. unfold sub in Hnd', Hok', ET, EF. rewrite Hp in Hnd', Hok', ET, EF.
  assert (Hv1 : in_range l1 (v mod span l1)) by (apply in_range_mod; lia).
  apply NoDup_cons in Hnd' as [Hn0 [Hnd1 [Hdis _]]%NoDup_app]. apply Forall_cons in Hok' as [Hok0 [Hok1 Hok2]%Forall_app].
  destruct (slot_table l1 m ei (v mod span l1) a) as (ta & ia & Hta & Hia & Eta); [lia|done|done|].
  assert (Hpa : page_ok ta) by (rewrite Forall_forall in Hok1; by apply Hok1).
  destruct (in_table ta ia) as [A B]; [done..|]. rewrite <- Eta in A, B.
  destruct (tree_below l1 m m' e i [ta]) as (Ee & T & F & P); [lia|done|done|by apply same_except_write64|by constructor|done| |].
  { intros p ->%list_elem_of_singleton. apply not_elem_of_cons. split; [|by apply Hdis]. intros ->. set_solver. }
  fold ei in T, F, P. destruct (IH m ei (v mod span l1) a x) as (IT & IF & IP); [lia|done..|]. fold m' in IT, IF, IP. split; [|split].
  - by rewrite T, ET, IT.
  - rewrite F, EF. rewrite !app_assoc. by rewrite IF.
  - intros w Hw. rewrite P by done. pose proof (span_pos l1). destruct (decide (w / span l1 = i)) as [Ew|Ew].
    + rewrite IP by (apply in_range_mod; lia). destruct (decide (w = v)) as [->|Hne]; [by rewrite decide_True|].
      rewrite decide_False by (intros E; by apply Hne, (div_mod_inj _ _ (span l1))).
      change (pte (S l1) m e w) with (if pte_p (entry m (child e) (w / span l1)) then pte l1 m (entry m (child e) (w / span l1)) (w mod span l1) else None).
      rewrite Ew. fold ei. by rewrite Hp.
    + rewrite decide_False; [done|]. by intros ->.
Qed.
End pgtable.
