(* ===== verification/Vm.v ===== *)
(** * Vm: page tables and user memory (vm.c; growproc of proc.c)

    The operations on four-level page tables that live in memory, as vm.c has
    them.  A pointer to a page table entry is [None] where the code has a null
    pointer.  [loaduvm] is in Exec, beside the file it reads. *)
From S2P Require Import Prelude Mmu Kalloc.

Section vm.
Context `{Kernel}.

(** One level of [walkpgdir]: the table that entry [i] of table [t] points to,
    created if [alloc]. *)
Definition next_table (t i : Z) (alloc : bool) : MK (option Z) :=
  e ← load64 (t + 8 * i);
  if pte_p e then mret (Some (P2V (PTE_ADDR e)))
  else if negb alloc then mret None
  else
    q ← kalloc;
    if q =? 0 then mret None
    else
      kmemset q 0 PGSIZE;;
      store64 (t + 8 * i) (Z.lor (Z.lor (Z.lor (V2P q) PTE_P) PTE_W) PTE_U);;
      mret (Some q).

Definition walkpgdir (pml4 va : Z) (alloc : bool) : MK (option Z) :=
  pdp ← next_table pml4 (PMX va) alloc;
  match pdp with
  | None => mret None
  | Some pdp =>
      pd ← next_table pdp (PDPX va) alloc;
      match pd with
      | None => mret None
      | Some pd =>
          pgtab ← next_table pd (PDX va) alloc;
          match pgtab with
          | None => mret None
          | Some pgtab => mret (Some (pgtab + 8 * PTX va))
          end
      end
  end.

(** ** The kernel half *)

Definition setupkvm : MK Z :=
  pml4 ← kalloc;
  kmemset pml4 0 PGSIZE;;
  kpdpt ← gets km_pdpt;
  store64 (pml4 + 8 * 256) (Z.lor (Z.lor (V2P kpdpt) PTE_P) PTE_W);;
  mret pml4.

(** Up to [switchkvm], which loads cr3. *)
Definition kvmalloc : MK unit :=
  kpml4 ← kalloc;
  modify (set_pml4 kpml4);;
  kmemset kpml4 0 PGSIZE;;
  kpdpt ← kalloc;
  modify (set_pdpt kpdpt);;
  kmemset kpdpt 0 PGSIZE;;
  store64 (kpml4 + 8 * PMX KERNBASE) (Z.lor (Z.lor (V2P kpdpt) PTE_P) PTE_W);;
  store64 (kpdpt + 8 * 0) (Z.lor (Z.lor (Z.lor 0 PTE_PS) PTE_P) PTE_W);;
  store64 (kpdpt + 8 * 3) (Z.lor (Z.lor (Z.lor (Z.lor (Z.lor 0xC0000000 PTE_PS) PTE_P) PTE_W) PTE_PWT) PTE_PCD).

(** ** Mapping *)

Definition map_step (pgdir last perm : Z) (x : Z * Z) : MK (Z * Z + Z) :=
  let '(a, pa) := x in
  pte ← walkpgdir pgdir a true;
  match pte with
  | None => mret (inr (-1))
  | Some pte =>
      e ← load64 pte;
      if pte_p e then panic "remap"
      else
        store64 pte (Z.lor (Z.lor pa perm) PTE_P);;
        if a =? last then mret (inr 0) else mret (inl (u64 (a + PGSIZE), u64 (pa + PGSIZE)))
  end.

(** [a] steps through the pages up to [last], around the end of the address
    space if [last] is below it. *)
Definition mappages (pgdir va size pa perm : Z) : MK Z :=
  let a := PGROUNDDOWN va in
  let last := PGROUNDDOWN (u64 (va + size - 1)) in
  while (S (Z.to_nat (u64 (last - a) / PGSIZE))) (map_step pgdir last perm) (a, pa).

Definition inituvm (pgdir init sz : Z) : MK unit :=
  if PGSIZE <=? sz then panic "inituvm: more than a page"
  else
    mem ← kalloc;
    kmemset mem 0 PGSIZE;;
    _ ← mappages pgdir PGSIZE PGSIZE (V2P mem) (Z.lor PTE_W PTE_U);
    kmemmove mem init sz.

(** ** Growing and shrinking *)

Definition dealloc_step (pgdir oldsz newsz a : Z) : MK (Z + Z) :=
  if a <? oldsz then
    pte ← walkpgdir pgdir a false;
    match pte with
    | None => mret tt
    | Some pte =>
        e ← load64 pte;
        if pte_p e then
          let pa := PTE_ADDR e in
          if pa =? 0 then panic "kfree"
          else kfree (P2V pa);; store64 pte 0
        else mret tt
    end;;
    mret (inl (u64 (a + PGSIZE)))
  else mret (inr newsz).

Definition deallocuvm (pgdir oldsz newsz : Z) : MK Z :=
  if oldsz <=? newsz then mret oldsz
  else while (S (Z.to_nat (oldsz / PGSIZE + 1))) (dealloc_step pgdir oldsz newsz) (PGROUNDUP newsz).

Definition alloc_step (pgdir oldsz newsz a : Z) : MK (Z + Z) :=
  if a <? newsz then
    mem ← kalloc;
    if mem =? 0 then
      _ ← deallocuvm pgdir newsz oldsz;
      mret (inr 0)
    else
      kmemset mem 0 PGSIZE;;
      r ← mappages pgdir a PGSIZE (V2P mem) (Z.lor PTE_W PTE_U);
      if r <? 0 then
        _ ← deallocuvm pgdir newsz oldsz;
        kfree mem;;
        mret (inr 0)
      else mret (inl (u64 (a + PGSIZE)))
  else mret (inr newsz).

Definition allocuvm (pgdir oldsz newsz : Z) : MK Z :=
  if KERNBASE <=? newsz then mret 0
  else if newsz <? oldsz then mret oldsz
  else while (S (Z.to_nat (newsz / PGSIZE + 1))) (alloc_step pgdir oldsz newsz) (PGROUNDUP oldsz).

(** The size of the process after [growproc(n)] of proc.c, or [None] for -1.
    The process has page table [pgdir] and size [sz]. *)
Definition growproc (pgdir sz n : Z) : MK (option Z) :=
  if 0 <? n then
    sz ← allocuvm pgdir sz (u64 (sz + n));
    mret (if sz =? 0 then None else Some sz)
  else if n <? 0 then
    sz ← deallocuvm pgdir sz (u64 (sz + n));
    mret (if sz =? 0 then None else Some sz)
  else mret (Some sz).

(** ** Freeing an address space *)

(** [for(i = 0; i < n; i++) if(t[i] & PTE_P) body(P2V(PTE_ADDR(t[i])));] *)
Definition for_entries (n t : Z) (body : Z -> MK unit) : MK unit :=
  _ ← for_each (R := unit) (seqZ 0 n) (fun i =>
    e ← load64 (t + 8 * i);
    (if pte_p e then body (P2V (PTE_ADDR e)) else mret tt);;
    mret None);
  mret tt.

Definition freevm (pml4 : Z) : MK unit :=
  if pml4 =? 0 then panic "freevm: no pgdir"
  else
    for_entries 256 pml4 (fun pdp =>
      for_entries 512 pdp (fun pd =>
        for_entries 512 pd (fun pt =>
          for_entries 512 pt (fun v => kfree v);;
          kfree pt);;
        kfree pd);;
      kfree pdp);;
    kfree pml4.

Definition clearpteu (pgdir uva : Z) : MK unit :=
  pte ← walkpgdir pgdir uva false;
  match pte with
  | None => panic "clearpteu"
  | Some pte =>
      e ← load64 pte;
      store64 pte (Z.ldiff e PTE_U)
  end.

(** ** Fork *)

Definition copy_step (pgdir d sz i : Z) : MK (Z + bool) :=
  if i <? sz then
    pte ← walkpgdir pgdir i false;
    match pte with
    | None => panic "copyuvm: pte should exist"
    | Some pte =>
        e ← load64 pte;
        if negb (pte_p e) then panic "copyuvm: page not present"
        else
          mem ← kalloc;
          if mem =? 0 then mret (inr false)
          else
            kmemmove mem (P2V (PTE_ADDR e)) PGSIZE;;
            r ← mappages d i PGSIZE (V2P mem) (PTE_FLAGS e);
            if r <? 0 then mret (inr false) else mret (inl (i + PGSIZE))
    end
  else mret (inr true).

(** [sz] is a [uint]: callers truncate. *)
Definition copyuvm (pgdir sz : Z) : MK Z :=
  d ← setupkvm;
  if d =? 0 then mret 0
  else
    ok ← while (S (Z.to_nat (sz / PGSIZE + 1))) (copy_step pgdir d sz) PGSIZE;
    if ok : bool then mret d else freevm d;; mret 0.

(** ** Access from the kernel *)

Definition uva2ka (pgdir uva : Z) : MK Z :=
  pte ← walkpgdir pgdir uva false;
  match pte with
  | None => halt_with NullDeref
  | Some pte =>
      e ← load64 pte;
      if negb (pte_p e) then mret 0
      else if negb (pte_u e) then mret 0
      else mret (P2V (PTE_ADDR e))
  end.

(** [bs] are the bytes at [p] still to copy. *)
Definition copyout_step (pgdir : Z) (x : Z * list Z) : MK (Z * list Z + Z) :=
  let '(va, bs) := x in
  match bs with
  | [] => mret (inr 0)
  | _ =>
      let va0 := PGROUNDDOWN va in
      pa0 ← uva2ka pgdir va0;
      if pa0 =? 0 then mret (inr (-1))
      else
        let n := Z.min (PGSIZE - (va - va0)) (Z.of_nat (length bs)) in
        modify (fun s => set_mem (poke (pa0 + (va - va0)) (take (Z.to_nat n) bs) (km_mem s)) s);;
        mret (inl (u64 (va0 + PGSIZE), drop (Z.to_nat n) bs))
  end.

(** Every round but the first starts a page, and copies at least a byte. *)
Definition copyout (pgdir va : Z) (bs : list Z) : MK Z :=
  while (S (length bs)) (copyout_step pgdir) (va, bs).

(** [dst] are the bytes copied so far; the result carries them. *)
Definition copyin_step (pgdir : Z) (x : Z * Z * list Z) : MK (Z * Z * list Z + Z * list Z) :=
  let '(srcva, len, dst) := x in
  if 0 <? len then
    let va0 := u32 (PGROUNDDOWN srcva) in
    pa0 ← uva2ka pgdir va0;
    if pa0 =? 0 then mret (inr (-1, dst))
    else
      let n := Z.min (u64 (PGSIZE - u64 (srcva - va0))) len in
      bs ← gets (fun s => peek (km_mem s) (u64 (pa0 + u64 (srcva - va0))) (Z.to_nat n));
      mret (inl (u64 (srcva + n), len - n, dst ++ bs))
  else mret (inr (0, dst)).

Definition copyin (pgdir srcva len : Z) : MK (Z * list Z) :=
  while (S (Z.to_nat len)) (copyin_step pgdir) (srcva, len, []).
End vm.
