(* ===== verification/VmWalk.v ===== *)
(** * VmWalk: walkpgdir finds and makes page tables *)
From S2P Require Import Prelude Mmu Kalloc PgTable Vm.

Section walk.
Context `{Kernel}.
Implicit Types (m : Z -> Z) (e t i v a : Z) (l : nat) (s : kmem).

(** [walkpgdir] one level at a time. *)
Fixpoint walk l t v (alloc : bool) : MK (option Z) :=
  match l with
  | O => mret None
  | S l' =>
      match l' with
      | O => mret (Some (t + 8 * (v / span l')))
      | S _ =>
          r ← next_table t (v / span l') alloc;
          match r with
          | None => mret None
          | Some t' => walk l' t' (v mod span l') alloc
          end
      end
  end.

Lemma mod_div n v : 0 < n -> v mod (n * 512) / n = v / n mod 512.
Proof.
  intros Hn. rewrite Z.rem_mul_r, (Z.mul_comm n), Z.div_add by lia.
  rewrite (Z.div_small (v mod n)) by (by apply Z.mod_pos_bound). done.
Qed.

Lemma mod_mod_mul n v : 0 < n -> v mod (n * 512) mod n = v mod n.
Proof. intros Hn. by rewrite Z.rem_mul_r, (Z.mul_comm n), Z.mod_add, Z.mod_mod by lia. Qed.

Lemma walkpgdir_walk pml4 va alloc :
  0 <= va < 2 ^ 48 -> walkpgdir pml4 va alloc = walk 4 pml4 (va / PGSIZE) alloc.
Proof.
  intros Hva. unfold walkpgdir, walk, PMX, PDPX, PDX, PTX. rewrite !index_spec by lia.
  change (span 3) with (span 2 * 512). change (span 2) with (span 1 * 512). change (span 1) with (span 0 * 512).
  rewrite !mod_mod_mul, !mod_div by done. rewrite !Z.div_div by done.
  assert (E : va / (PGSIZE * (span 0 * 512 * 512 * 512)) = va / 2 ^ 39 mod 512).
  { change (PGSIZE * _) with (2 ^ 39). symmetry. apply Z.mod_small. split; [apply Z.div_pos; lia|apply Z.div_lt_upper_bound; lia]. }
  assert (E0 : (va / PGSIZE) mod (span 0 * 512 * 512 * 512) / span 0 mod 512 = va / 2 ^ 12 mod 512).
  { change (span 0) with 1. change (1 * 512 * 512 * 512) with (512 * (512 * 512)).
    by rewrite Z.div_1_r, Z.rem_mul_r, (Z.mul_comm 512), Z.mod_add, Z.mod_mod by lia. }
  by rewrite E, E0.
Qed.

(** Without [alloc] nothing changes. *)
Lemma walk_lookup l : forall s e v, walk l (child e) v false s = (Ret (slot l (km_mem s) e v), s).
Proof.
  induction l as [|l IH]; intros s e v; [done|]. cbn [walk slot]. destruct l as [|l]; [done|].
  unfold next_table, load64, gets, mbind, M_bind. cbn [negb]. destruct (pte_p _) eqn:E; [|done].
  change (P2V (PTE_ADDR ?x)) with (child x). apply IH.
Qed.

(** ** A fresh table *)

Lemma zero_entry m t i : (forall x, in_page t x -> m x = 0) -> 0 <= i < 512 -> entry m t i = 0.
Proof. intros Hz Hi. apply read64_zero. intros x Hx. apply Hz. unfold in_page, PGSIZE. lia. Qed.

Lemma zero_table l m e :
  (forall i, 0 <= i < width (S l) -> entry m (child e) i = 0) ->
  tables (S l) m e = [child e] /\ frames (S l) m e = [] /\ (forall v, in_range (S l) v -> pte (S l) m e v = None).
Proof.
  intros Hz.
  assert (He : ents (S l) m (child e) = []).
  { unfold ents. destruct (base.filter _ _) as [|x r] eqn:E; [done|]. exfalso.
    assert (Hx : x ∈ x :: r) by set_solver. rewrite <- E in Hx. apply list_elem_of_filter in Hx as [Hp (i & -> & Hi%elem_of_seqZ)%list_elem_of_fmap].
    rewrite Hz in Hp by lia. done. }
  cbn [tables frames pte]. rewrite He. split_and!; [done..|]. intros v Hv%in_range_index. rewrite Hz by lia. done.
Qed.

(** The entry that [walkpgdir] writes for a new table. *)
Definition table_entry (q : Z) : Z := Z.lor (Z.lor (Z.lor (V2P q) PTE_P) PTE_W) PTE_U.

Lemma make_entry q f :
  page_ok q -> 0 <= f < PGSIZE ->
  0 <= Z.lor (V2P q) f < 2 ^ 64 /\ child (Z.lor (V2P q) f) = q /\ PTE_FLAGS (Z.lor (V2P q) f) = f /\ pte_p (Z.lor (V2P q) f) = Z.testbit f 0.
Proof.
  intros Hq Hf. pose proof (page_ok_v2p q Hq) as (Ev & Hr & Ha). pose proof (page_ok_u64 q Hq).
  split_and!.
  - rewrite lor_flags by done. unfold PHYSTOP, PGSIZE in *. lia.
  - rewrite lor_flags by done. unfold PHYSTOP, PGSIZE in *. lia.
  - unfold child. rewrite pte_addr_make; [|unfold PHYSTOP, PGSIZE in *; lia..|done|done]. apply p2v_v2p. unfold PGSIZE in *. lia.
  - by apply pte_flags_make.
  - rewrite pte_p_testbit, Z.lor_spec. replace (Z.testbit (V2P q) 0) with false; [done|]. symmetry.
    rewrite <- (Z.mod_pow2_bits_low _ 12) by lia. change (2 ^ 12) with PGSIZE. by rewrite Ha.
Qed.

Lemma table_entry_lor q : table_entry q = Z.lor (V2P q) 7.
Proof. unfold table_entry. by rewrite <- !Z.lor_assoc. Qed.

(** Linking a zeroed page [q] into an empty entry. *)
Lemma tree_link l m e i q :
  (S l < 4)%nat -> 0 <= i < width (S (S l)) -> Forall page_ok (tables (S (S l)) m e) -> NoDup (tables (S (S l)) m e) ->
  pte_p (entry m (child e) i) = false -> page_ok q -> q ∉ tables (S (S l)) m e ->
  let m1 := write64 (child e + 8 * i) (table_entry q) (mset q 0 PGSIZE m) in
  entry m1 (child e) i = table_entry q /\ pte_p (table_entry q) = true /\ child (table_entry q) = q /\
  same_except [q; child e] m m1 /\
  tables (S (S l)) m1 e ≡ₚ q :: tables (S (S l)) m e /\
  frames (S (S l)) m1 e ≡ₚ frames (S (S l)) m e /\
  (forall w, in_range (S (S l)) w -> pte (S (S l)) m1 e w = pte (S (S l)) m e w).
Proof.
  intros Hl Hi Hok Hnd Hp Hq Hnq m1. pose proof (width_le (S (S l))).
  destruct (make_entry q 7 Hq) as (He1 & He2 & _ & He3); [done|]. rewrite <- table_entry_lor in He1, He2, He3.
  assert (Hc : page_ok (child e)) by (cbn [tables] in Hok; by apply Forall_cons in Hok as [? _]).
  assert (Hce : child e ≠ q) by (intros E; apply Hnq; cbn [tables]; set_solver).
  destruct (in_table (child e) i) as [A B]; [done|lia|].
  assert (Hs : same_except [q; child e] m m1).
  { eapply same_except_trans; [eapply (same_except_weaken [q]), same_except_mset|eapply (same_except_weaken [child e]), same_except_write64]; [set_solver|set_solver|done|done]. }
  assert (Ei : entry m1 (child e) i = table_entry q) by (unfold entry, m1; by apply read64_write64).
  assert (Hz : forall x, in_page q x -> m1 x = 0).
  { intros x Hx. unfold m1. rewrite (same_except_write64 (child e)); [apply mset_in; exact Hx|done|done|].
    intros p ->%list_elem_of_singleton Hx'. by apply Hce, (pages_apart (child e) q x). }
  destruct (zero_table l m1 (table_entry q)) as (ZT & ZF & ZP).
  { intros j Hj. pose proof (width_le (S l)). rewrite He2. apply zero_entry; [done|lia]. }
  destruct (tree_split (S l) m e i) as [ET EF]; [done..|]. pose proof Hnd as Hnd'. rewrite ET in Hnd'. pose proof Hok as Hok'. rewrite ET in Hok'.
  unfold sub in ET, EF, Hnd', Hok'. rewrite Hp in ET, EF, Hnd', Hok'. apply NoDup_cons in Hnd' as [Hn0 _]. apply Forall_cons in Hok' as [_ Hok'].
  destruct (tree_focus (S l) m m1 e i) as (T & F & P); [done..| |].
  { split.
    - intros j Hj Hne. unfold m1. rewrite entry_write by done. destruct (in_table (child e) j) as [A' B']; [done|lia|].
      apply (same_page_read64 _ _ (child e)); [|done..]. eapply same_except_page; [| | |apply same_except_mset]; [by constructor|done|].
      by intros E%list_elem_of_singleton.
    - intros p Hin. rewrite Forall_forall in Hok'. split; [by apply Hok'|]. eapply same_except_page; [| | |exact Hs]; [by apply Forall_cons; split; [|apply Forall_singleton]|by apply Hok'|].
      intros Hin'. apply elem_of_cons in Hin' as [->| ->%list_elem_of_singleton]; [|done]. apply Hnq. rewrite ET. set_solver. }
  rewrite Ei in T, F. unfold sub in T, F. rewrite He3 in T, F. change (Z.testbit 7 0) with true in T, F. rewrite ZT in T. rewrite ZF in F. cbn [app] in T, F, ET, EF.
  split_and!; [done|by rewrite He3|done|done|rewrite T, ET, He2; constructor|by rewrite F, EF|].
  intros w Hw. destruct (decide (w / span (S l) = i)) as [Ew|Ew]; [|by apply P].
  change (pte (S (S l)) ?mm e w) with (if pte_p (entry mm (child e) (w / span (S l))) then pte (S l) mm (entry mm (child e) (w / span (S l))) (w mod span (S l)) else None).
  rewrite Ew, Ei, Hp, He3. change (Z.testbit 7 0) with true. apply ZP. apply in_range_mod. lia.
Qed.

(** ** Adding tables

    [m'] is [m] with the pages [X] added as tables to the tree at [e], which
    maps what it mapped before. *)
Record extends l e m m' (X : list Z) : Prop := {
  ex_tables : tables l m' e ≡ₚ X ++ tables l m e;
  ex_frames : frames l m' e ≡ₚ frames l m e;
  ex_pte : forall w, in_range l w -> pte l m' e w = pte l m e w;
  ex_same : same_except (X ++ tables l m e) m m';
}.

Lemma extends_refl l e m : extends l e m m [].
Proof. by split. Qed.

Lemma extends_trans l e m1 m2 m3 X Y : extends l e m1 m2 X -> extends l e m2 m3 Y -> extends l e m1 m3 (X ++ Y).
Proof.
  intros [T1 F1 P1 S1] [T2 F2 P2 S2]. split.
  - rewrite T2, T1, !app_assoc. apply Permutation_app; [apply Permutation_app_comm|done].
  - by rewrite F2, F1.
  - intros w Hw. by rewrite P2, P1.
  - eapply same_except_trans; [eapply same_except_weaken; [|exact S1]|eapply same_except_weaken; [|exact S2]]; [set_solver|].
    intros p. rewrite T1. set_solver.
Qed.

Lemma extends_link l m e i q :
  (S l < 4)%nat -> 0 <= i < width (S (S l)) -> Forall page_ok (tables (S (S l)) m e) -> NoDup (tables (S (S l)) m e) ->
  pte_p (entry m (child e) i) = false -> page_ok q -> q ∉ tables (S (S l)) m e ->
  extends (S (S l)) e m (write64 (child e + 8 * i) (table_entry q) (mset q 0 PGSIZE m)) [q].
Proof.
  intros Hl Hi Hok Hnd Hp Hq Hnq. destruct (tree_link l m e i q) as (_ & _ & _ & Hs & T & F & P); [done..|]. split; [done..|].
  eapply same_except_weaken; [|exact Hs]. cbn [tables]. set_solver.
Qed.

Lemma extends_below l m m' e i X :
  (l < 4)%nat -> 0 <= i < width (S l) -> pte_p (entry m (child e) i) = true ->
  Forall page_ok X -> Forall page_ok (tables (S l) m e) -> NoDup (X ++ tables (S l) m e) ->
  extends l (entry m (child e) i) m m' X ->
  extends (S l) e m m' X /\ entry m' (child e) i = entry m (child e) i.
Proof.
  intros Hl Hi Hp HX Hok Hnd [T F P S]. set (ei := entry m (child e) i) in *.
  destruct (tree_split l m e i) as [ET EF]; [done..|]. fold ei in ET, EF. unfold sub in ET, EF. rewrite Hp in ET, EF.
  pose proof Hok as Hok'. rewrite ET in Hnd, Hok'. apply NoDup_app in Hnd as (_ & Hdis & [Hn0 [Hnd1 [Hdis1 _]]%NoDup_app]%NoDup_cons).
  apply Forall_cons in Hok' as [_ [Hok1 _]%Forall_app].
  destruct (tree_below l m m' e i (X ++ tables l m ei)) as (Ee & T' & F' & P'); [done..|by apply Forall_app|done| |].
  { intros p [Hp'|Hp']%elem_of_app; [specialize (Hdis p Hp'); set_solver|]. apply not_elem_of_cons. split; [|by apply Hdis1].
    intros ->. set_solver. }
  fold ei in Ee, T', F', P'. split; [|done]. split.
  - rewrite T', T, ET. rewrite <- !app_assoc. by rewrite Permutation_middle.
  - by rewrite F', F, EF.
  - intros w Hw. rewrite P' by done. destruct (decide (w / span l = i)) as [Ew|]; [|done]. rewrite P by (apply in_range_mod; lia).
    cbn [pte]. rewrite Ew. fold ei. by rewrite Hp.
  - eapply same_except_weaken; [|exact S]. intros p. rewrite ET. set_solver.
Qed.

Lemma extends_ok l e m m' X : Forall page_ok X -> Forall page_ok (tables l m e) -> extends l e m m' X -> Forall page_ok (tables l m' e).
Proof. intros HX Hok [T _ _ _]. rewrite T. by apply Forall_app. Qed.

(** What [walk] leaves behind: the pages [X] of the free list are tables now. *)
Definition walked l e (s s' : kmem) (free X free' : list Z) : Prop :=
  free = X ++ free' /\ free_list s' free' /\ extends l e (km_mem s) (km_mem s') X /\ km_pdpt s' = km_pdpt s.

Lemma free_app_l s X free : free_list s (X ++ free) -> Forall page_ok X.
Proof. intros [_ Hok _ _]. by apply Forall_app in Hok as [? _]. Qed.

Lemma next_table_alloc l s free e i (Q : option Z -> kmem -> Prop) :
  (S l < 4)%nat -> 0 <= i < width (S (S l)) -> free_list s free ->
  Forall page_ok (tables (S (S l)) (km_mem s) e) -> NoDup (free ++ tables (S (S l)) (km_mem s) e) ->
  (forall s' X free', walked (S (S l)) e s s' free X free' ->
     pte_p (entry (km_mem s') (child e) i) = true -> Q (Some (child (entry (km_mem s') (child e) i))) s') ->
  wp (next_table (child e) i true) Q oom s.
Proof.
  intros Hl Hi Hf Hok Hnd HQ. unfold next_table, load64. do 2 wp_step. fold (entry (km_mem s) (child e) i).
  destruct (pte_p (entry (km_mem s) (child e) i)) eqn:Hp.
  { wp_step. apply (HQ s [] free); [|done]. split_and!; [done|done|apply extends_refl|done]. }
  cbn [negb]. wp_step. apply (kalloc_spec s free); [done|]. intros q free' s1 -> E1 Hf1. set (m := km_mem s) in *.
  pose proof (fl_ok _ _ Hf) as [Hq Hok1]%Forall_cons.
  change ((q :: free') ++ ?x) with (q :: free' ++ x) in Hnd. apply NoDup_cons in Hnd as [Hnq Hnd].
  assert (Hnq' : q ∉ tables (S (S l)) m e) by set_solver. pose proof (page_ok_u64 q Hq). rewrite (proj2 (Z.eqb_neq q 0)) by lia.
  assert (Hnd' : NoDup (tables (S (S l)) m e)) by (by apply NoDup_app in Hnd as (_ & _ & ?)).
  unfold kmemset, store64. do 2 wp_step. do 2 wp_step. wp_step. fold (table_entry q). assert (Em : km_mem s1 = m) by (by rewrite E1).
  destruct (tree_link l m e i q) as (Ei & Hpi & Hc & _ & _); [done..|]. cbn [km_mem set_mem]. rewrite Em.
  replace (Some q) with (Some (child (entry (write64 (child e + 8 * i) (table_entry q) (mset q 0 PGSIZE m)) (child e) i))) by (by rewrite Ei, Hc).
  match goal with |- Q _ ?s2 => apply (HQ s2 [q] free') end; [|cbn [km_mem set_mem]; by rewrite Ei]. split_and!; [done| |cbn [km_mem set_mem]; by apply extends_link|by rewrite E1].
  destruct (tree_link l m e i q) as (_ & _ & _ & Hs & _); [done..|].
  eapply (free_list_frame s1 _ free' [q; child e]); [done|done| | |cbn [km_mem set_mem]; by rewrite Em|].
  - cbn [km_mem set_mem]. rewrite <- Em. apply mem_ok_write64, mem_ok_mset; [done|apply Hf1].
  - apply Forall_cons. split; [done|]. apply Forall_singleton. cbn [tables] in Hok. by apply Forall_cons in Hok as [? _].
  - intros p [->| ->%list_elem_of_singleton]%elem_of_cons; [set_solver|]. apply NoDup_app in Hnd as (_ & Hd & _).
    intros Hp'. apply (Hd (child e) Hp'). cbn [tables]. set_solver.
Qed.

Lemma walked_trans l e s1 s2 s3 f X f1 Y f2 : walked l e s1 s2 f X f1 -> walked l e s2 s3 f1 Y f2 -> walked l e s1 s3 f (X ++ Y) f2.
Proof.
  intros (-> & _ & E1 & P1) (-> & F2 & E2 & P2). split_and!; [by rewrite <- app_assoc|done|by eapply extends_trans|by rewrite P2].
Qed.

Lemma walked_ok l e s s' free X free' :
  free_list s free -> Forall page_ok (tables l (km_mem s) e) -> NoDup (free ++ tables l (km_mem s) e) -> walked l e s s' free X free' ->
  Forall page_ok X /\ Forall page_ok (tables l (km_mem s') e) /\ NoDup (free' ++ tables l (km_mem s') e) /\ NoDup (X ++ tables l (km_mem s) e).
Proof.
  intros Hf Hok Hnd (-> & Hf' & Hx & _). pose proof (free_app_l _ _ _ Hf) as HX. split_and!; [done|by eapply extends_ok| |].
  - rewrite (ex_tables _ _ _ _ _ Hx), app_assoc. rewrite (Permutation_app_comm free' X). done.
  - rewrite (Permutation_app_comm X free'), <- app_assoc in Hnd. by apply NoDup_app in Hnd as (_ & _ & ?).
Qed.

(** The walk makes the tables it needs, or the allocator panics. *)
Lemma walk_alloc l : forall s free e v,
  (0 < l <= 4)%nat -> in_range l v -> free_list s free ->
  Forall page_ok (tables l (km_mem s) e) -> NoDup (free ++ tables l (km_mem s) e) ->
  wp (walk l (child e) v true)
     (fun r s' => exists X free' a, r = Some a /\ walked l e s s' free X free' /\ slot l (km_mem s') e v = Some a) oom s.
Proof.
  induction l as [|l IH]; intros s free e v Hl Hv Hf Hok Hnd; [lia|]. destruct l as [|l].
  { cbn [walk]. wp_step. exists [], free, (child e + 8 * (v / span 0)). split_and!; [done| |done]; split_and!; [done|done|apply extends_refl|done]. }
  cbn [walk]. wp_step. pose proof (in_range_index _ _ Hv) as Hi. set (i := v / span (S l)) in *.
  eapply (next_table_alloc l s free e i); [lia|done..|]. intros s1 X free1 Hw1 Hp1.
  destruct (walked_ok _ _ _ _ _ _ _ Hf Hok Hnd Hw1) as (HX & Hok1 & Hnd1 & _). pose proof Hw1 as (_ & Hf1 & _ & _).
  set (m1 := km_mem s1) in *. set (ei := entry m1 (child e) i) in *.
  destruct (tree_split (S l) m1 e i) as [ET _]; [lia|done|done|]. fold ei in ET. unfold sub in ET. rewrite Hp1 in ET.
  assert (Hnd2 : NoDup (free1 ++ tables (S l) m1 ei)).
  { rewrite ET in Hnd1. apply NoDup_app in Hnd1 as (H1 & H2 & [_ [H3 _]%NoDup_app]%NoDup_cons). apply NoDup_app. split_and!; [done| |done].
    intros p Hp Hin. apply (H2 p Hp). set_solver. }
  assert (Hok2 : Forall page_ok (tables (S l) m1 ei)) by (rewrite ET in Hok1; by apply Forall_cons in Hok1 as [_ [? _]%Forall_app]).
  eapply wp_conseq; [apply (IH s1 free1 ei (v mod span (S l))); [lia|apply in_range_mod; lia|done..]|].
  intros r s2 (Y & free2 & a & -> & Hw2 & Hsl). exists (X ++ Y), free2, a. split; [done|].
  destruct (walked_ok _ _ _ _ _ _ _ Hf1 Hok2 Hnd2 Hw2) as (HY & _ & _ & _). destruct Hw2 as (E2 & Hf2 & Hx2 & Hpd).
  assert (HndY : NoDup (Y ++ tables (S (S l)) m1 e)).
  { rewrite E2, (Permutation_app_comm Y free2), <- app_assoc in Hnd1. by apply NoDup_app in Hnd1 as (_ & _ & ?). }
  destruct (extends_below (S l) m1 (km_mem s2) e i Y) as [Hx Ee]; [lia|done..|]. split.
  - eapply walked_trans; [exact Hw1|]. by split_and!.
  - change (slot (S (S l)) (km_mem s2) e v) with (if pte_p (entry (km_mem s2) (child e) i) then slot (S l) (km_mem s2) (entry (km_mem s2) (child e) i) (v mod span (S l)) else None).
    rewrite Ee. fold ei. by rewrite Hp1.
Qed.
End walk.
