(* ===== verification/VmSpace.v ===== *)
(** * VmSpace: address spaces

    The memory a process sees through its page table, and the specifications
    of mapping, growing and shrinking in terms of it. *)
From S2P Require Import Prelude Mmu Kalloc PgTable Vm VmWalk.

(** The entry that stands for the page table [d] itself. *)
Abbreviation root d := (V2P d).

Section space.
Context `{Kernel}.
Implicit Types (m : Z -> Z) (e t i v a d va : Z) (l : nat) (s : kmem).

(** ** Mappings and frames *)

Lemma pte_frames l : forall m e v x, (l <= 4)%nat -> in_range l v -> pte l m e v = Some x -> child x ∈ frames l m e.
Proof.
  induction l as [|l IH]; intros m e v x Hl Hv Hp; cbn [pte] in Hp; [injection Hp as ->; cbn; set_solver|].
  destruct (pte_p _) eqn:E; [|done]. pose proof (in_range_index l v Hv). apply IH in Hp; [|lia|apply in_range_mod; lia].
  cbn [frames]. rewrite ents_sub. apply list_elem_of_bind. exists (v / span l). split; [unfold sub; by rewrite E|]. apply elem_of_seqZ. lia.
Qed.

(** Two pages of an address space never share a frame. *)
Lemma pte_inj l : forall m e v w x y,
  (0 < l <= 4)%nat -> NoDup (frames l m e) -> in_range l v -> in_range l w ->
  pte l m e v = Some x -> pte l m e w = Some y -> child x = child y -> v = w.
Proof.
  induction l as [|l IH]; intros m e v w x y Hl Hnd Hv Hw Hx Hy Hc; [lia|].
  pose proof (in_range_index l v Hv) as Hi. pose proof (in_range_index l w Hw) as Hj. pose proof (span_pos l).
  cbn [pte] in Hx, Hy. destruct (pte_p (entry m (child e) (v / span l))) eqn:Ei; [|done].
  destruct (pte_p (entry m (child e) (w / span l))) eqn:Ej; [|done].
  cbn [frames] in Hnd. rewrite (ents_focus _ _ _ _ (v / span l)) in Hnd by done. unfold sub at 1 in Hnd. rewrite Ei in Hnd.
  apply NoDup_app in Hnd as (Hnd & Hdis & _). destruct (decide (v / span l = w / span l)) as [E|E].
  - rewrite <- E in Hy. apply (div_mod_inj _ _ (span l)); [done|done|]. destruct l as [|l].
    { change (span 0) with 1. by rewrite !Z.mod_1_r. }
    eapply (IH m (entry m (child e) (v / span (S l)))); [lia|done|apply in_range_mod; lia|apply in_range_mod; lia|done..].
  - exfalso. apply pte_frames in Hx; [|lia|apply in_range_mod; lia]. apply pte_frames in Hy; [|lia|apply in_range_mod; lia].
    rewrite Hc in Hx. apply (Hdis _ Hx). apply list_elem_of_bind. exists (w / span l).
    split; [unfold sub; by rewrite Ej|]. apply elem_of_app. rewrite !elem_of_seqZ. lia.
Qed.

(** ** Address spaces *)

Definition pages m d : list Z := tables 4 m (root d) ++ frames 4 m (root d).

Lemma child_root d : page_ok d -> child (root d) = d.
Proof.
  intros Hd. pose proof (make_entry d 0 Hd) as (_ & E & _); [done|]. by rewrite Z.lor_0_r in E.
Qed.

(** [d] is a page table, and its pages and the free ones are all different. *)
Record space s (free : list Z) d : Prop := {
  sp_free : free_list s free;
  sp_dir : page_ok d;
  sp_ok : Forall page_ok (pages (km_mem s) d);
  sp_nodup : NoDup (free ++ pages (km_mem s) d);
}.

(** The byte at a user address and the protection of its page. *)
Definition uview m d va : option (Z * Z) :=
  match pte 4 m (root d) (va / PGSIZE) with
  | Some x => Some (m (child x + va mod PGSIZE), PTE_FLAGS x)
  | None => None
  end.

(** The user half. *)
Definition USERTOP : Z := 2 ^ 47.
Definition user va : Prop := 0 <= va < USERTOP.

Lemma user_range4 va : user va -> in_range 4 (va / PGSIZE).
Proof.
  intros [H0 H1]. split; [by apply Z.div_pos|]. apply Z.div_lt_upper_bound; [done|]. exact H1.
Qed.

Lemma range4_user v : in_range 4 v <-> (0 <= v < 2 ^ 35).
Proof. done. Qed.

Lemma sp_nodups s free d :
  space s free d ->
  NoDup (free ++ tables 4 (km_mem s) (root d)) /\ NoDup (tables 4 (km_mem s) (root d)) /\ NoDup (frames 4 (km_mem s) (root d)) /\
  Forall page_ok (tables 4 (km_mem s) (root d)) /\ Forall page_ok (frames 4 (km_mem s) (root d)) /\
  (forall p, p ∈ frames 4 (km_mem s) (root d) -> (p ∉ free) /\ (p ∉ tables 4 (km_mem s) (root d))).
Proof.
  intros [_ _ Hok Hnd]. unfold pages in Hok, Hnd. rewrite app_assoc in Hnd. apply Forall_app in Hok as [Hok1 Hok2].
  apply NoDup_app in Hnd as (H1 & H2 & H3). pose proof H1 as (_ & _ & H4)%NoDup_app. split_and!; try done.
  intros p Hp. split; intros Hin; (apply (H2 p); [apply elem_of_app|done]); [by left|by right].
Qed.

(** ** Mapping a page *)

Lemma walkpgdir_alloc s free d v :
  space s free d -> in_range 4 v ->
  wp (walkpgdir d (PGSIZE * v) true)
     (fun r s' => exists X free' a, r = Some a /\ walked 4 (root d) s s' free X free' /\ slot 4 (km_mem s') (root d) v = Some a) oom s.
Proof.
  intros Hsp Hv. pose proof (sp_nodups s free d Hsp) as (H1 & _ & _ & H4 & _). pose proof (proj1 (range4_user v) Hv) as Hr.
  rewrite walkpgdir_walk by (unfold PGSIZE; lia). rewrite (Z.mul_comm PGSIZE), Z.div_mul by done.
  rewrite <- (child_root d) at 1 by apply Hsp. apply walk_alloc; [lia|done|apply Hsp|done|done].
Qed.

Lemma walkpgdir_lookup s d va :
  page_ok d -> user va -> walkpgdir d va false s = (Ret (slot 4 (km_mem s) (root d) (va / PGSIZE)), s).
Proof.
  intros Hd [H0 H1]. unfold USERTOP in H1. rewrite walkpgdir_walk by lia. rewrite <- (child_root d) at 1 by done. apply walk_lookup.
Qed.

(** The entry [mappages] writes. *)
Definition leaf_entry (q perm : Z) : Z := Z.lor (Z.lor (V2P q) perm) PTE_P.

Lemma leaf_entry_spec q perm :
  page_ok q -> 0 <= perm < PGSIZE ->
  0 <= leaf_entry q perm < 2 ^ 64 /\ child (leaf_entry q perm) = q /\ PTE_FLAGS (leaf_entry q perm) = Z.lor perm PTE_P /\ pte_p (leaf_entry q perm) = true.
Proof.
  intros Hq Hp. unfold leaf_entry. rewrite <- Z.lor_assoc.
  destruct (make_entry q (Z.lor perm PTE_P) Hq) as (H1 & H2 & H3 & H4).
  { split; [apply Z.lor_nonneg; unfold PTE_P; lia|]. unfold PGSIZE in *. change 4096 with (2 ^ 12). apply Z.log2_lt_cancel.
    rewrite Z.log2_lor, Z.log2_pow2 by (unfold PTE_P; lia). apply Z.max_lub_lt; [|done].
    destruct (decide (perm = 0)) as [->|]; [done|]. apply Z.log2_lt_pow2; lia. }
  split_and!; [apply H1..|done|done|]. rewrite H4. rewrite Z.lor_spec. change (Z.testbit PTE_P 0) with true. apply orb_true_r.
Qed.

(** [d] after frame [q] has been mapped at page [v], with tables [X]. *)
Record mapped d s s' (free X free' : list Z) v q perm : Prop := {
  ma_free : free = X ++ free';
  ma_space : space s' free' d;
  ma_tables : tables 4 (km_mem s') (root d) ≡ₚ X ++ tables 4 (km_mem s) (root d);
  ma_frames : frames 4 (km_mem s') (root d) ≡ₚ q :: frames 4 (km_mem s) (root d);
  ma_pte : forall w, in_range 4 w ->
    pte 4 (km_mem s') (root d) w = if decide (w = v) then Some (leaf_entry q perm) else pte 4 (km_mem s) (root d) w;
  ma_same : same_except (X ++ tables 4 (km_mem s) (root d)) (km_mem s) (km_mem s');
  ma_pdpt : km_pdpt s' = km_pdpt s;
}.

Lemma page_loop v : in_range 4 v -> PGROUNDDOWN (PGSIZE * v) = PGSIZE * v /\ PGROUNDDOWN (u64 (PGSIZE * v + PGSIZE - 1)) = PGSIZE * v.
Proof.
  intros Hv. pose proof (proj1 (range4_user v) Hv). unfold u64. rewrite (Z.mod_small (_ - 1)) by (unfold PGSIZE; lia).
  rewrite !pgrounddown_spec by (unfold PGSIZE; lia). split; f_equal.
  - rewrite Z.mul_comm. by apply Z.div_mul.
  - symmetry. apply (Z.div_unique _ _ _ (PGSIZE - 1)); unfold PGSIZE; lia.
Qed.

(** A write to a slot of the tree keeps the free list. *)
Lemma free_list_write s free a x l e v :
  free_list s free -> Forall page_ok (tables l (km_mem s) e) -> (forall p, p ∈ free -> p ∉ tables l (km_mem s) e) ->
  (l <= 4)%nat -> in_range l v -> slot l (km_mem s) e v = Some a ->
  free_list (set_mem (write64 a x (km_mem s)) s) free /\
  exists t, t ∈ tables l (km_mem s) e /\ same_except [t] (km_mem s) (write64 a x (km_mem s)).
Proof.
  intros Hf Ht Hdis Hl Hv Ha. destruct (slot_table l (km_mem s) e v a) as (t & i & Hin & Hi & ->); [done..|].
  assert (Hpt : page_ok t) by (rewrite Forall_forall in Ht; by apply Ht). destruct (in_table t i) as [A B]; [done..|].
  assert (Hs : same_except [t] (km_mem s) (write64 (t + 8 * i) x (km_mem s))) by (by apply same_except_write64).
  split; [|by exists t]. apply (free_list_frame s _ free [t]); [done|done|apply mem_ok_write64, Hf|by constructor|done|].
  intros p ->%list_elem_of_singleton Hin'. by apply (Hdis t).
Qed.

Lemma mappages_spec s free d v q perm :
  space s free d -> in_range 4 v -> pte 4 (km_mem s) (root d) v = None ->
  page_ok q -> q ∉ free ++ pages (km_mem s) d -> 0 <= perm < PGSIZE ->
  wp (mappages d (PGSIZE * v) PGSIZE (V2P q) perm)
     (fun r s' => r = 0 /\ exists X free', mapped d s s' free X free' v q perm) oom s.
Proof.
  intros Hsp Hv Hnone Hq Hnq Hperm. destruct (page_loop v Hv) as [E1 E2]. unfold mappages. rewrite E1, E2.
  rewrite Z.sub_diag. change (S (Z.to_nat (u64 0 / PGSIZE))) with 1%nat. cbn [while map_step]. wp_step. wp_step.
  eapply wp_conseq; [by apply walkpgdir_alloc|]. intros r s1 (X & free1 & a & -> & Hw & Hsl).
  pose proof (sp_nodups s free d Hsp) as (Hnd & _ & _ & Hok & _). destruct (walked_ok _ _ _ _ _ _ _ (sp_free _ _ _ Hsp) Hok Hnd Hw) as (HX & Hok1 & Hnd1 & _).
  destruct Hw as (-> & Hf1 & [T1 F1 P1 S1] & Hpd). set (m := km_mem s) in *. set (m1 := km_mem s1) in *. set (e := root d) in *.
  assert (Hnone1 : pte_p (read64 m1 a) = false).
  { rewrite <- P1, pte_slot, Hsl in Hnone by (done || lia). by destruct (pte_p (read64 m1 a)). }
  unfold load64, store64. do 2 wp_step. fold m1. rewrite Hnone1. do 2 wp_step. fold (leaf_entry q perm). rewrite Z.eqb_refl. do 2 wp_step.
  destruct (leaf_entry_spec q perm Hq Hperm) as (Hx & Hcx & Hfx & Hpx). set (x := leaf_entry q perm) in *. fold m1.
  apply NoDup_app in Hnd1 as (Hnd1 & Hdis1 & Hnd2).
  destruct (tree_write 4 m1 e v a x) as (T2 & F2 & P2); [lia|done..|]. unfold leaf, sub in F2. rewrite Hnone1, Hpx, Hcx in F2. cbn [app] in F2.
  destruct (free_list_write s1 free1 a x 4 e v) as [Hf2 (t & Ht & St)]; [done..|lia|done|done|]. fold m1 in Hf2, Ht, St.
  assert (T3 : tables 4 (write64 a x m1) e ≡ₚ X ++ tables 4 m e) by (by rewrite T2).
  assert (F3 : frames 4 (write64 a x m1) e ≡ₚ q :: frames 4 m e) by (by rewrite F2, F1).
  split; [done|]. exists X, free1. split; cbn [km_mem set_mem]; fold m m1 e; [done| |done|done| | |done].
  - split; [done|apply Hsp| |]; cbn [km_mem set_mem]; fold m1; unfold pages; fold e; rewrite T3, F3.
    + apply Forall_app. split; [by apply Forall_app|]. constructor; [done|]. pose proof (sp_ok _ _ _ Hsp) as Ho. unfold pages in Ho. by apply Forall_app in Ho as [_ ?].
    + pose proof (sp_nodup _ _ _ Hsp) as Hn. unfold pages in Hn, Hnq. fold m e in Hn, Hnq.
      rewrite <- Permutation_middle, <- Permutation_middle. apply NoDup_cons. split; [intros Hin; apply Hnq; in_lists|].
      rewrite <- !app_assoc in *. rewrite (Permutation_app_swap_app free1 X). done.
  - intros w Hw. rewrite P2 by done. rewrite Hpx. destruct (decide (w = v)); [done|by apply P1].
  - eapply same_except_trans; [exact S1|]. eapply same_except_weaken; [|exact St]. intros p ->%list_elem_of_singleton. by rewrite <- T1.
Qed.

(** What a process sees depends on its mapping and on its frames. *)
Lemma uview_ext m m' d va :
  pte 4 m' (root d) (va / PGSIZE) = pte 4 m (root d) (va / PGSIZE) ->
  (forall x, pte 4 m (root d) (va / PGSIZE) = Some x -> same_page m m' (child x)) ->
  uview m' d va = uview m d va.
Proof.
  intros E Hs. unfold uview. rewrite E. destruct (pte 4 m (root d) (va / PGSIZE)) as [x|] eqn:Ex; [|done].
  f_equal. f_equal. apply (Hs x eq_refl). pose proof (Z.mod_pos_bound va PGSIZE). unfold in_page, PGSIZE in *. lia.
Qed.

(** The frame of a mapped page is no table and not free. *)
Lemma mapped_frame s free d v x :
  space s free d -> in_range 4 v -> pte 4 (km_mem s) (root d) v = Some x ->
  page_ok (child x) /\ child x ∈ frames 4 (km_mem s) (root d) /\ (child x ∉ free) /\ (child x ∉ tables 4 (km_mem s) (root d)).
Proof.
  intros Hsp Hv Hx. pose proof (sp_nodups s free d Hsp) as (_ & _ & _ & _ & Hok & Hdis).
  apply pte_frames in Hx; [|lia|done]. rewrite Forall_forall in Hok. destruct (Hdis _ Hx). split_and!; auto.
Qed.

Lemma uview_mapped d s s' free X free' v q perm va :
  space s free d -> page_ok q -> q ∉ free ++ pages (km_mem s) d -> 0 <= perm < PGSIZE ->
  mapped d s s' free X free' v q perm -> user va ->
  uview (km_mem s') d va =
    if decide (va / PGSIZE = v) then Some (km_mem s (q + va mod PGSIZE), Z.lor perm PTE_P) else uview (km_mem s) d va.
Proof.
  intros Hsp Hq Hnq Hperm [-> Hsp' T F P Hs _] Hva. pose proof (user_range4 va Hva) as Hr.
  assert (HX : Forall page_ok (X ++ tables 4 (km_mem s) (root d))).
  { apply Forall_app. split; [by eapply free_app_l; apply Hsp|]. pose proof (sp_ok _ _ _ Hsp) as Ho. unfold pages in Ho. by apply Forall_app in Ho as [? _]. }
  destruct (decide (va / PGSIZE = v)) as [E|E].
  - destruct (leaf_entry_spec q perm Hq Hperm) as (_ & Hc & Hfl & _). unfold uview. rewrite P, decide_True by done. rewrite Hc, Hfl.
    do 2 f_equal. eapply (same_except_page _ _ _ q); [exact HX|done| |exact Hs|].
    + intros Hin. apply Hnq. unfold pages. in_lists.
    + pose proof (Z.mod_pos_bound va PGSIZE). unfold in_page, PGSIZE in *. lia.
  - apply uview_ext; [by rewrite P, decide_False|]. intros x Hx. destruct (mapped_frame _ _ _ _ _ Hsp Hr Hx) as (Hok & _ & H1 & H2).
    eapply same_except_page; [exact HX|done| |exact Hs]. intros [Hin|Hin]%elem_of_app; [apply H1, elem_of_app; by left|by apply H2].
Qed.

(** ** Steps of one address space

    An operation on [d] moves pages between the free list and [d], and touches
    no other page. *)
Record vstep d s s' (free free' : list Z) : Prop := {
  vs_space : space s' free' d;
  vs_perm : free' ++ pages (km_mem s') d ≡ₚ free ++ pages (km_mem s) d;
  vs_same : same_except (free ++ pages (km_mem s) d) (km_mem s) (km_mem s');
  vs_pdpt : km_pdpt s' = km_pdpt s;
}.

Lemma vstep_refl d s free : space s free d -> vstep d s s free free.
Proof. intros Hsp. split; [done|done|apply same_except_refl|done]. Qed.

Lemma vstep_trans d s1 s2 s3 f1 f2 f3 : vstep d s1 s2 f1 f2 -> vstep d s2 s3 f2 f3 -> vstep d s1 s3 f1 f3.
Proof.
  intros [A1 B1 C1 D1] [A2 B2 C2 D2]. split; [done|by rewrite B2| |by rewrite D2].
  eapply same_except_trans; [exact C1|]. eapply same_except_weaken; [|exact C2]. intros p. by rewrite B1.
Qed.

(** A change outside the tables and the free list. *)
Lemma space_frame s s' free d ps :
  space s free d -> km_free s' = km_free s -> mem_ok (km_mem s') -> Forall page_ok ps -> same_except ps (km_mem s) (km_mem s') ->
  (forall p, p ∈ ps -> (p ∉ free) /\ (p ∉ tables 4 (km_mem s) (root d))) ->
  space s' free d /\ tables 4 (km_mem s') (root d) = tables 4 (km_mem s) (root d) /\
  frames 4 (km_mem s') (root d) = frames 4 (km_mem s) (root d) /\
  (forall w, in_range 4 w -> pte 4 (km_mem s') (root d) w = pte 4 (km_mem s) (root d) w).
Proof.
  intros Hsp Ef Hm Hps Hs Hdis. destruct (sp_nodups _ _ _ Hsp) as (_ & _ & _ & Htok & _).
  assert (Hfr : forall p, page_ok p -> p ∉ ps -> same_page (km_mem s) (km_mem s') p).
  { intros p Hp Hne. by apply (same_except_page ps). }
  destruct (tree_frame 4 (km_mem s) (km_mem s') (root d)) as (T & F & P); [lia| |].
  { intros p Hp. rewrite Forall_forall in Htok. split; [by apply Htok|]. apply Hfr; [by apply Htok|]. intros Hin. by apply (Hdis p Hin). }
  split_and!; [|done|done|done]. destruct Hsp as [Hf Hd Hok Hnd]. split; [|done|unfold pages in *; by rewrite T, F..].
  apply (free_list_frame s s' free ps); [done..|]. intros p Hp. by apply Hdis.
Qed.

(** A page taken from the free list and filled. *)
Lemma take_page s q free d f m2 :
  space s (q :: free) d -> free_list (set_free f s) free -> same_except [q] (km_mem s) m2 -> mem_ok m2 ->
  let s2 := set_mem m2 (set_free f s) in
  page_ok q /\ (q ∉ free ++ pages (km_mem s) d) /\ space s2 free d /\
  tables 4 m2 (root d) = tables 4 (km_mem s) (root d) /\ frames 4 m2 (root d) = frames 4 (km_mem s) (root d) /\
  (forall w, in_range 4 w -> pte 4 m2 (root d) w = pte 4 (km_mem s) (root d) w) /\
  (forall va, user va -> uview m2 d va = uview (km_mem s) d va).
Proof.
  intros Hsp Hf Hs Hm s2. pose proof (fl_ok _ _ (sp_free _ _ _ Hsp)) as [Hq _]%Forall_cons. pose proof (sp_nodup _ _ _ Hsp) as Hnd.
  change ((q :: free) ++ ?x) with (q :: free ++ x) in Hnd. apply NoDup_cons in Hnd as [Hnq Hnd].
  assert (Hsp1 : space (set_free f s) free d) by (split; [done|apply Hsp..|done]).
  destruct (space_frame (set_free f s) s2 free d [q]) as (Hsp2 & T & F & P); [done|done|done|by constructor|done| |].
  { intros p ->%list_elem_of_singleton. unfold pages in Hnq. cbn [km_mem set_free]. split; intros Hin; apply Hnq; in_lists. }
  cbn [km_mem set_free set_mem s2] in T, F, P. do 6 (split; [done|]). intros va Hva. pose proof (user_range4 va Hva) as Hr.
  apply uview_ext; [by apply P|]. intros x Hx. destruct (mapped_frame _ _ _ _ _ Hsp Hr Hx) as (Hok & _ & H3 & _).
  eapply same_except_page; [| | |exact Hs]; [by constructor|done|]. intros Hc%list_elem_of_singleton. apply H3. rewrite Hc. in_lists.
Qed.

(** Mapping a page taken from the free list. *)
Lemma vstep_mapped s q free d f m2 s3 X free3 v perm :
  space s (q :: free) d -> free_list (set_free f s) free -> same_except [q] (km_mem s) m2 -> mem_ok m2 -> 0 <= perm < PGSIZE ->
  mapped d (set_mem m2 (set_free f s)) s3 free X free3 v q perm ->
  vstep d s s3 (q :: free) free3 /\
  forall va, user va -> uview (km_mem s3) d va =
    if decide (va / PGSIZE = v) then Some (m2 (q + va mod PGSIZE), Z.lor perm PTE_P) else uview (km_mem s) d va.
Proof.
  intros Hsp Hf Hs Hm Hperm Hmap. destruct (take_page s q free d f m2) as (Hq & Hnq & Hsp2 & T & F & P & U); [done..|].
  pose proof Hmap as [-> Hsp3 T3 F3 P3 S3 D3]. cbn [km_mem set_free set_mem km_pdpt] in T3, F3, P3, S3, D3. split.
  - split; [done| | |done].
    + unfold pages at 1. rewrite T3, F3, T, F. unfold pages. rewrite <- Permutation_middle, <- Permutation_middle, <- !app_assoc.
      change ((q :: X ++ free3) ++ ?z) with (q :: (X ++ free3) ++ z). apply Permutation_skip.
      rewrite <- !app_assoc. apply Permutation_app_swap_app.
    + eapply same_except_trans; [eapply same_except_weaken; [|exact Hs]; set_solver|]. eapply same_except_weaken; [|exact S3].
      rewrite T. unfold pages. intros p Hp. in_lists.
  - intros va Hva. rewrite (uview_mapped d (set_mem m2 (set_free f s)) s3 (X ++ free3) X free3 v q perm); try done.
    + cbn [km_mem set_mem]. destruct (decide _); [done|by apply U].
    + unfold pages. cbn [km_mem set_mem]. by rewrite T, F.
Qed.

(** One round of [allocuvm]: a zeroed page at page number [v]. *)
Lemma alloc_page_spec s free d oldsz newsz v :
  space s free d -> in_range 4 v -> pte 4 (km_mem s) (root d) v = None -> PGSIZE * v < newsz ->
  wp (alloc_step d oldsz newsz (PGSIZE * v))
     (fun r s' => r = inl (PGSIZE * (v + 1)) /\ exists free', vstep d s s' free free' /\
        forall va, user va -> uview (km_mem s') d va = if decide (va / PGSIZE = v) then Some (0, 7) else uview (km_mem s) d va) oom s.
Proof.
  intros Hsp Hv Hnone Hlt. pose proof (proj1 (range4_user v) Hv). unfold alloc_step. rewrite (proj2 (Z.ltb_lt _ _)) by done. wp_step.
  apply (kalloc_spec s free); [apply Hsp|]. intros q free' s1 -> E1 Hf1.
  pose proof (fl_ok _ _ (sp_free _ _ _ Hsp)) as [Hq Hok1]%Forall_cons.
  pose proof (page_ok_u64 q Hq). rewrite (proj2 (Z.eqb_neq q 0)) by lia. unfold kmemset. do 2 wp_step. rewrite E1 in Hf1 |- *.
  change (km_mem (set_free (km_free s1) s)) with (km_mem s). set (m2 := mset q 0 PGSIZE (km_mem s)).
  assert (Hs : same_except [q] (km_mem s) m2) by apply same_except_mset. assert (Hm : mem_ok m2) by (by apply mem_ok_mset; [|apply Hsp]).
  destruct (take_page s q free' d (km_free s1) m2) as (_ & Hnq & Hsp2 & T & F & P & U); [done..|]. wp_step.
  eapply wp_conseq; [apply (mappages_spec _ free' d v q); [done|done|cbn [km_mem set_mem]; by rewrite P|done| |done]|].
  { unfold pages in Hnq |- *. cbn [km_mem set_mem]. by rewrite T, F. }
  intros r s3 (-> & X & free3 & Hmap). change (0 <? 0) with false. cbv iota. wp_step.
  split; [unfold u64; rewrite Z.mod_small by (unfold PGSIZE in *; lia); do 2 f_equal; lia|].
  exists free3. destruct (vstep_mapped s q free' d (km_free s1) m2 s3 X free3 v (Z.lor PTE_W PTE_U)) as [Hst HU]; [done..|].
  split; [done|]. intros va Hva. rewrite HU by done. destruct (decide (va / PGSIZE = v)) as [E|E]; [|done].
  f_equal. f_equal. apply mset_in. pose proof (Z.mod_pos_bound va PGSIZE). unfold PGSIZE in *. lia.
Qed.

Lemma uview_none m d va : uview m d va = None <-> pte 4 m (root d) (va / PGSIZE) = None.
Proof. unfold uview. by destruct (pte 4 m (root d) (va / PGSIZE)). Qed.

Lemma div_page va v : va / PGSIZE = v <-> (PGSIZE * v <= va < PGSIZE * (v + 1)).
Proof.
  unfold PGSIZE. split; [intros <-; pose proof (Z.div_mod va 4096); pose proof (Z.mod_pos_bound va 4096); lia|].
  intros Hr. symmetry. apply (Z.div_unique _ _ _ (va - 4096 * v)); lia.
Qed.

(** The pages that hold the first [sz] bytes. *)
Definition npages (sz : Z) : Z := (sz + PGSIZE - 1) / PGSIZE.

Lemma npages_spec sz k : k < npages sz <-> PGSIZE * k < sz.
Proof.
  unfold npages, PGSIZE. split; intros Hk.
  - pose proof (Z.mul_div_le (sz + 4096 - 1) 4096). lia.
  - apply Z.lt_le_trans with (k + 1); [lia|]. apply Z.div_le_lower_bound; lia.
Qed.

Lemma npages_user sz : 0 <= sz <= USERTOP -> 0 <= npages sz <= 2 ^ 35 /\ PGROUNDUP sz = PGSIZE * npages sz.
Proof.
  intros Hsz. unfold USERTOP in Hsz. split; [|apply pgroundup_spec; unfold PGSIZE; lia]. unfold npages, PGSIZE.
  split; [apply Z.div_pos; lia|]. assert ((sz + 4096 - 1) / 4096 < 2 ^ 35 + 1); [|lia]. apply Z.div_lt_upper_bound; lia.
Qed.

Lemma npages_mono a b : a <= b -> npages a <= npages b.
Proof. intros Hab. unfold npages. apply Z.div_le_mono; unfold PGSIZE; lia. Qed.

Lemma pte_present m e v x : pte 4 m e v = Some x -> pte_p x = true /\ exists a, slot 4 m e v = Some a /\ read64 m a = x.
Proof.
  rewrite pte_slot by lia. destruct (slot 4 m e v) as [a|]; [|done]. destruct (pte_p (read64 m a)) eqn:E; [|done]. intros [= <-].
  split; [done|]. by exists a.
Qed.

(** [allocuvm]: zeroed pages from the old size up to the new one. *)
Lemma allocuvm_spec s free d oldsz newsz :
  space s free d -> 0 <= oldsz <= newsz -> newsz <= USERTOP ->
  (forall va, PGROUNDUP oldsz <= va < newsz -> uview (km_mem s) d va = None) ->
  wp (allocuvm d oldsz newsz)
     (fun r s' => r = newsz /\ exists free', vstep d s s' free free' /\
        forall va, user va -> uview (km_mem s') d va =
          if decide (PGROUNDUP oldsz <= va < PGROUNDUP newsz) then Some (0, 7) else uview (km_mem s) d va) oom s.
Proof.
  intros Hsp Ho Hn Hnone. unfold allocuvm. rewrite (proj2 (Z.leb_gt _ _)) by (unfold USERTOP, KERNBASE in *; lia).
  rewrite (proj2 (Z.ltb_ge _ _)) by lia. destruct (npages_user oldsz) as [R0 E0]; [lia|]. destruct (npages_user newsz) as [R1 E1]; [lia|].
  rewrite E0, E1 in *. set (k0 := npages oldsz) in *. set (k1 := npages newsz) in *.
  assert (Hk : k0 <= k1) by (apply npages_mono; lia).
  apply (wp_while (fun a s' => exists k free', a = PGSIZE * k /\ k0 <= k <= k1 /\ vstep d s s' free free' /\
           forall va, user va -> uview (km_mem s') d va =
             if decide (PGSIZE * k0 <= va < PGSIZE * k) then Some (0, 7) else uview (km_mem s) d va)
         (fun a => Z.to_nat (k1 - a / PGSIZE))).
  - exists k0, free. split_and!; [done|lia|lia|by apply vstep_refl|]. intros va _. rewrite decide_False by lia. done.
  - rewrite Z.mul_comm, Z.div_mul by done. assert (k1 <= newsz / PGSIZE + 1); [|lia].
    unfold k1, npages. rewrite <- Z.div_add by done. apply Z.div_le_mono; unfold PGSIZE; lia.
  - intros a s1 (k & free1 & -> & Hkr & Hst & HU). destruct (decide (PGSIZE * k < newsz)) as [Hlt|Hge].
    + assert (k < k1) by (by apply npages_spec). assert (Hv : in_range 4 k) by (apply range4_user; lia).
      eapply wp_conseq; [apply (alloc_page_spec s1 free1 d oldsz newsz k); [apply Hst|done| |done]|].
      * assert (Hu : user (PGSIZE * k)) by (unfold user, USERTOP, PGSIZE in *; lia). specialize (HU _ Hu).
        rewrite decide_False, Hnone in HU by (unfold PGSIZE in *; lia). apply uview_none in HU.
        by rewrite (Z.mul_comm PGSIZE), Z.div_mul in HU.
      * intros r s2 (-> & free2 & Hst2 & HU2). rewrite !(Z.mul_comm PGSIZE), !Z.div_mul by done. split; [|lia].
        exists (k + 1), free2. split_and!; [lia|lia|lia|by eapply vstep_trans|]. intros va Hva. rewrite HU2, HU by done.
        pose proof (div_page va k). repeat case_decide; try done; unfold PGSIZE in *; lia.
    + unfold alloc_step. rewrite (proj2 (Z.ltb_ge _ _)) by lia. wp_step. split; [done|]. exists free1. split; [done|].
      assert (k1 <= k) by (apply Z.nlt_ge; intros Hlt; apply npages_spec in Hlt; lia). by replace k1 with k by lia.
Qed.

(** ** Shrinking *)

Lemma child_not_null x : page_ok (child x) -> PTE_ADDR x ≠ 0.
Proof. intros Hp E. apply page_ok_range in Hp as [Hp _]. unfold child in Hp. rewrite E in Hp. by unfold P2V in Hp. Qed.

(** Freeing the frame of page [v] and clearing its entry. *)
Lemma unmap_spec s free d v a x :
  space s free d -> in_range 4 v -> slot 4 (km_mem s) (root d) v = Some a -> read64 (km_mem s) a = x -> pte_p x = true ->
  wp (kfree (P2V (PTE_ADDR x));; store64 a 0)
     (fun _ s' => vstep d s s' free (child x :: free) /\
        forall va, user va -> uview (km_mem s') d va = if decide (va / PGSIZE = v) then None else uview (km_mem s) d va) no_halt s.
Proof.
  intros Hsp Hv Hsl Ex Hp. set (m := km_mem s) in *. set (e := root d) in *.
  assert (Hpte : pte 4 m e v = Some x) by (rewrite pte_slot by lia; by rewrite Hsl, Ex, Hp).
  destruct (mapped_frame _ _ _ _ _ Hsp Hv Hpte) as (Hokx & Hinx & Hnf & Hnt). fold m e in Hinx, Hnt.
  destruct (sp_nodups _ _ _ Hsp) as (Hnd & Hndt & _ & Htok & Hfok & _). fold m e in Hnd, Hndt, Htok, Hfok.
  fold (child x). wp_step. apply (kfree_spec s free); [apply Hsp|done|done|]. intros s1 Hf1 Hs1 _ Hpd1. fold m in Hs1. set (m1 := km_mem s1) in *.
  assert (Hsame : forall p, p ∈ tables 4 m e -> page_ok p /\ same_page m m1 p).
  { intros p Hin. rewrite Forall_forall in Htok. split; [by apply Htok|]. eapply same_except_page; [| | |exact Hs1]; [by constructor|by apply Htok|].
    intros ->%list_elem_of_singleton. done. }
  destruct (tree_frame 4 m m1 e) as (T1 & F1 & P1); [lia|done|]. pose proof (slot_frame 4 m m1 e v ltac:(lia) Hv Hsame) as Hsl1. rewrite Hsl in Hsl1.
  destruct (slot_table 4 m e v a) as (t & i & Ht & Hi & Ea); [lia|done|done|]. destruct (Hsame t Ht) as [Htp Hst]. destruct (in_table t i) as [A B]; [done..|].
  assert (Ex1 : read64 m1 a = x) by (rewrite <- Ex, Ea; by apply (same_page_read64 m m1 t)).
  destruct (tree_write 4 m1 e v a 0) as (T2 & F2 & P2); [lia|done|done|by rewrite T1|by rewrite T1|lia|].
  rewrite Ex1 in F2. unfold leaf, sub in F2. rewrite Hp in F2. cbn [pte_p app] in F2. change (pte_p 0) with false in F2, P2. cbv iota in F2, P2. cbn [app] in F2.
  destruct (free_list_write s1 (child x :: free) a 0 4 e v) as [Hf2 (t' & Ht' & St)]; [done|by fold m1; rewrite T1| |lia|done|done|].
  { fold m1. rewrite T1. apply NoDup_app in Hnd as (_ & Hd & _). intros p [->|Hp']%elem_of_cons; [done|by apply Hd]. }
  unfold store64. wp_step. fold m1. fold m1 in Hf2, Ht', St. rewrite T1 in Ht', T2. rewrite F1 in F2.
  assert (Hperm : (child x :: free) ++ pages (write64 a 0 m1) d ≡ₚ free ++ pages m d).
  { unfold pages. fold e. rewrite T2, <- F2. cbn [app]. by rewrite <- !Permutation_middle. }
  assert (Hs2 : same_except (child x :: tables 4 m e) m (write64 a 0 m1)).
  { eapply same_except_trans; [eapply same_except_weaken; [|exact Hs1]|eapply same_except_weaken; [|exact St]];
      intros p ->%list_elem_of_singleton; in_lists. }
  split; [split|]; cbn [km_mem set_mem km_pdpt]; fold m m1 e.
  - split; [done|apply Hsp| |]; cbn [km_mem set_mem]; fold m1.
    + unfold pages. fold e. rewrite T2. rewrite <- F2 in Hfok. apply Forall_cons in Hfok as [_ ?]. by apply Forall_app.
    + rewrite Hperm. apply Hsp.
  - done.
  - eapply same_except_weaken; [|exact Hs2]. unfold pages. fold e. intros p [->|Hin]%elem_of_cons; in_lists.
  - done.
  - intros va Hva. pose proof (user_range4 va Hva) as Hw. destruct (decide (va / PGSIZE = v)) as [Ew|Ew].
    + apply uview_none. fold e. by rewrite P2, decide_True.
    + apply uview_ext; fold e; [by rewrite P2, decide_False, P1|]. intros y Hy. destruct (mapped_frame _ _ _ _ _ Hsp Hw Hy) as (Hoky & _ & _ & Hny).
      eapply same_except_page; [| | |exact Hs2]; [by constructor|done|]. intros [Hc|Hin]%elem_of_cons; [|done].
      apply Ew. by apply (pte_inj 4 m e _ _ y x); [lia|apply (sp_nodups _ _ _ Hsp)|..].
Qed.

Lemma wp_lookup s d va (Q : option Z -> kmem -> Prop) E :
  page_ok d -> user va -> Q (slot 4 (km_mem s) (root d) (va / PGSIZE)) s -> wp (walkpgdir d va false) Q E s.
Proof. intros Hsp Hu HQ. unfold wp. by rewrite walkpgdir_lookup. Qed.

(** One round of [deallocuvm]. *)
Lemma dealloc_page_spec s free d oldsz newsz v :
  space s free d -> in_range 4 v -> PGSIZE * v < oldsz ->
  wp (dealloc_step d oldsz newsz (PGSIZE * v))
     (fun r s' => r = inl (PGSIZE * (v + 1)) /\ exists free', vstep d s s' free free' /\
        forall va, user va -> uview (km_mem s') d va = if decide (va / PGSIZE = v) then None else uview (km_mem s) d va) no_halt s.
Proof.
  intros Hsp Hv Hlt. pose proof (proj1 (range4_user v) Hv) as Hr. unfold dealloc_step. rewrite (proj2 (Z.ltb_lt _ _)) by done. wp_step.
  assert (Hu : user (PGSIZE * v)) by (unfold user, USERTOP, PGSIZE; lia). apply wp_lookup; [apply Hsp|done|].
  rewrite (Z.mul_comm PGSIZE v), Z.div_mul by done. wp_step.
  assert (Hend : u64 (v * PGSIZE + PGSIZE) = PGSIZE * (v + 1)) by (unfold u64; rewrite Z.mod_small; unfold PGSIZE in *; lia).
  assert (Hnone : pte 4 (km_mem s) (root d) v = None -> forall va, user va -> uview (km_mem s) d va = if decide (va / PGSIZE = v) then None else uview (km_mem s) d va).
  { intros Hn va _. destruct (decide _) as [E|E]; [|done]. apply uview_none. by rewrite E. }
  destruct (slot 4 (km_mem s) (root d) v) as [a|] eqn:Hsl.
  2: { do 2 wp_step. rewrite Hend. split; [done|]. exists free. split; [by apply vstep_refl|]. apply Hnone. rewrite pte_slot by lia. by rewrite Hsl. }
  unfold load64. do 2 wp_step. destruct (pte_p (read64 (km_mem s) a)) eqn:Hp.
  2: { do 2 wp_step. rewrite Hend. split; [done|]. exists free. split; [by apply vstep_refl|]. apply Hnone. rewrite pte_slot by lia. by rewrite Hsl, Hp. }
  assert (Hpte : pte 4 (km_mem s) (root d) v = Some (read64 (km_mem s) a)) by (rewrite pte_slot by lia; by rewrite Hsl, Hp).
  destruct (mapped_frame _ _ _ _ _ Hsp Hv Hpte) as (Hokx & _). rewrite (proj2 (Z.eqb_neq _ _) (child_not_null _ Hokx)).
  eapply wp_conseq; [by apply (unmap_spec s free d v a (read64 (km_mem s) a))|]. intros _ s' [Hst HU]. wp_step. rewrite Hend.
  split; [done|]. eauto.
Qed.

(** [deallocuvm]: nothing is mapped above the new size. *)
Lemma deallocuvm_spec s free d oldsz newsz :
  space s free d -> 0 <= newsz < oldsz -> oldsz <= USERTOP ->
  wp (deallocuvm d oldsz newsz)
     (fun r s' => r = newsz /\ exists free', vstep d s s' free free' /\
        forall va, user va -> uview (km_mem s') d va =
          if decide (PGROUNDUP newsz <= va < PGROUNDUP oldsz) then None else uview (km_mem s) d va) no_halt s.
Proof.
  intros Hsp Hn Ho. unfold deallocuvm. rewrite (proj2 (Z.leb_gt _ _)) by lia.
  destruct (npages_user newsz) as [R0 E0]; [lia|]. destruct (npages_user oldsz) as [R1 E1]; [lia|].
  rewrite E0, E1 in *. set (k0 := npages newsz) in *. set (k1 := npages oldsz) in *.
  assert (Hk : k0 <= k1) by (apply npages_mono; lia).
  apply (wp_while (fun a s' => exists k free', a = PGSIZE * k /\ k0 <= k <= k1 /\ vstep d s s' free free' /\
           forall va, user va -> uview (km_mem s') d va =
             if decide (PGSIZE * k0 <= va < PGSIZE * k) then None else uview (km_mem s) d va)
         (fun a => Z.to_nat (k1 - a / PGSIZE))).
  - exists k0, free. split_and!; [done|lia|lia|by apply vstep_refl|]. intros va _. rewrite decide_False by lia. done.
  - rewrite Z.mul_comm, Z.div_mul by done. assert (k1 <= oldsz / PGSIZE + 1); [|lia].
    unfold k1, npages. rewrite <- Z.div_add by done. apply Z.div_le_mono; unfold PGSIZE; lia.
  - intros a s1 (k & free1 & -> & Hkr & Hst & HU). destruct (decide (PGSIZE * k < oldsz)) as [Hlt|Hge].
    + assert (k < k1) by (by apply npages_spec). assert (Hv : in_range 4 k) by (apply range4_user; lia).
      eapply wp_conseq; [apply (dealloc_page_spec s1 free1 d oldsz newsz k); [apply Hst|done|done]|].
      intros r s2 (-> & free2 & Hst2 & HU2). rewrite !(Z.mul_comm PGSIZE), !Z.div_mul by done. split; [|lia].
      exists (k + 1), free2. split_and!; [lia|lia|lia|by eapply vstep_trans|]. intros va Hva. rewrite HU2, HU by done.
      pose proof (div_page va k). repeat case_decide; try done; unfold PGSIZE in *; lia.
    + unfold dealloc_step. rewrite (proj2 (Z.ltb_ge _ _)) by lia. wp_step. split; [done|]. exists free1. split; [done|].
      assert (k1 <= k) by (apply Z.nlt_ge; intros Hlt; apply npages_spec in Hlt; lia). by replace k1 with k by lia.
Qed.
End space.
