(* ===== verification/VmProc.v ===== *)
(** * VmProc: making, copying, freeing and accessing address spaces *)
From S2P Require Import Prelude Mmu Kalloc PgTable Vm VmWalk VmSpace.

Section vmproc.
Context `{Kernel}.
Implicit Types (m : Z -> Z) (e t i v a d va : Z) (l : nat) (s : kmem).

(** ** An empty address space *)

(** [d] was built from free pages only. *)
Record fresh d s s' (free free' : list Z) : Prop := {
  fr_space : space s' free' d;
  fr_perm : free' ++ pages (km_mem s') d ≡ₚ free;
  fr_same : same_except free (km_mem s) (km_mem s');
  fr_pdpt : km_pdpt s' = km_pdpt s;
}.

Lemma fresh_vstep d s s1 s2 f f1 f2 : fresh d s s1 f f1 -> vstep d s1 s2 f1 f2 -> fresh d s s2 f f2.
Proof.
  intros [A1 B1 C1 D1] [A2 B2 C2 D2]. split; [done|by rewrite B2| |by rewrite D2].
  eapply same_except_trans; [exact C1|]. eapply same_except_weaken; [|exact C2]. intros p. by rewrite B1.
Qed.

Lemma setupkvm_spec s free :
  free_list s free ->
  wp setupkvm (fun d s' => exists free', fresh d s s' free free' /\ forall va, user va -> uview (km_mem s') d va = None) oom s.
Proof.
  intros Hf. unfold setupkvm. wp_step. apply (kalloc_spec s free); [done|]. intros d free' s1 -> E1 Hf1.
  pose proof (fl_ok _ _ Hf) as [Hd Hok]%Forall_cons. pose proof (fl_nodup _ _ Hf) as [Hnd0 Hnd]%NoDup_cons.
  unfold kmemset, store64. do 2 wp_step. do 2 wp_step. do 2 wp_step. wp_step. rewrite E1 in Hf1 |- *. cbn [km_mem km_pdpt set_mem set_free].
  set (x := Z.lor _ _). set (m := km_mem s). set (m2 := write64 (d + 8 * 256) x (mset d 0 PGSIZE m)).
  destruct (in_table d 256) as [A B]; [done|lia|].
  assert (Hs : same_except [d] m m2) by (eapply same_except_trans; [apply same_except_mset|by apply same_except_write64]).
  assert (Hz : forall i, 0 <= i < width 4 -> entry m2 (child (root d)) i = 0).
  { intros i Hi. rewrite child_root by done. change (width 4) with 256 in Hi. unfold entry, m2. rewrite read64_write64_other by lia.
    apply (zero_entry (mset d 0 PGSIZE m) d i); [|lia]. intros y Hy. apply mset_in. exact Hy. }
  destruct (zero_table 3 m2 (root d) Hz) as (T & F & P). rewrite child_root in T by done.
  assert (Ep : pages m2 d = [d]) by (unfold pages; by rewrite T, F).
  exists free'. split; [split; cbn [km_mem set_mem]; fold m m2|].
  - split; [|done|cbn [km_mem set_mem]; fold m2; rewrite Ep; by constructor|].
    + eapply (free_list_frame _ _ free' [d] Hf1); [done|apply mem_ok_write64, mem_ok_mset; [done|apply Hf]|by constructor|exact Hs|].
      by intros p ->%list_elem_of_singleton.
    + cbn [km_mem set_mem]. fold m2. rewrite Ep. rewrite (Permutation_app_comm free' [d]). by apply NoDup_cons.
  - rewrite Ep. by rewrite (Permutation_app_comm free' [d]).
  - eapply same_except_weaken; [|exact Hs]. set_solver.
  - done.
  - intros va Hva. apply uview_none. cbn [km_mem set_mem]. fold m2. apply P. by apply user_range4.
Qed.

(** ** Freeing an address space *)

(** [freevm] one level at a time. *)
Fixpoint free_tree l t : MK unit :=
  match l with
  | O => kfree t
  | S l' => for_entries (width l) t (free_tree l');; kfree t
  end.

Lemma freevm_tree d : page_ok d -> freevm d = free_tree 4 d.
Proof. intros Hd%page_ok_u64. unfold freevm. by rewrite (proj2 (Z.eqb_neq d 0)) by lia. Qed.

Lemma bind_app_perm {A B} (f g : A -> list B) (xs : list A) : xs ≫= (fun x => f x ++ g x) ≡ₚ (xs ≫= f) ++ (xs ≫= g).
Proof.
  induction xs as [|x xs IH]; [done|]. rewrite !bind_cons, IH, <- !app_assoc. apply Permutation_app; [done|].
  apply Permutation_app_swap_app.
Qed.

(** The pages of the subtree at [e]. *)
Definition subtree l m e : list Z := tables l m e ++ frames l m e.

Lemma subtree_split l m e :
  subtree (S l) m e ≡ₚ child e :: (seqZ 0 (width (S l)) ≫= fun i => sub (subtree l m) (entry m (child e) i)).
Proof.
  unfold subtree at 1. cbn [tables frames]. rewrite <- app_comm_cons. apply Permutation_skip. rewrite <- bind_app_perm.
  fold (subtree l m). by rewrite <- ents_sub.
Qed.

Lemma subtree_frame l m m' e :
  (l <= 4)%nat -> (forall p, p ∈ tables l m e -> page_ok p /\ same_page m m' p) -> subtree l m' e = subtree l m e.
Proof. intros Hl Hs. destruct (tree_frame l m m' e Hl Hs) as (T & F & _). unfold subtree. by rewrite T, F. Qed.

Definition freed s s' (free ps : list Z) : Prop :=
  exists free', free_list s' free' /\ free' ≡ₚ free ++ ps /\ same_except ps (km_mem s) (km_mem s') /\ km_pdpt s' = km_pdpt s.

Lemma freed_refl s free : free_list s free -> freed s s free [].
Proof. intros Hf. exists free. split_and!; [done|by rewrite app_nil_r|apply same_except_refl|done]. Qed.

(** Freeing the pages [qs] after the pages [ps]. *)
Lemma freed_app s s1 s2 free f1 ps qs :
  freed s s1 free ps -> f1 ≡ₚ free ++ ps -> freed s1 s2 f1 qs -> freed s s2 free (ps ++ qs).
Proof.
  intros (_ & _ & _ & S1 & P1) E1 (f2 & Hf2 & E2 & S2 & P2). exists f2. split_and!; [done|by rewrite E2, E1, app_assoc| |by rewrite P2].
  eapply same_except_trans; [eapply same_except_weaken; [|exact S1]|eapply same_except_weaken; [|exact S2]]; set_solver.
Qed.

(** One round: the subtree at entry [i] after the pages [ps] of the others. *)
Lemma free_entry_spec l s s1 free e i ps :
  (S l <= 4)%nat -> 0 <= i < width (S l) -> freed s s1 free ps -> page_ok (child e) ->
  (forall s1 f1 x, free_list s1 f1 -> Forall page_ok (subtree l (km_mem s1) x) -> NoDup (f1 ++ subtree l (km_mem s1) x) ->
     wp (free_tree l (child x)) (fun _ s' => freed s1 s' f1 (subtree l (km_mem s1) x)) no_halt s1) ->
  Forall page_ok (ps ++ sub (subtree l (km_mem s)) (entry (km_mem s) (child e) i)) ->
  NoDup ((free ++ ps) ++ child e :: sub (subtree l (km_mem s)) (entry (km_mem s) (child e) i)) ->
  wp (e' ← load64 (child e + 8 * i);
      (if pte_p e' then free_tree l (P2V (PTE_ADDR e')) else mret tt);;
      mret (M := M kmem) (@None unit))
     (fun r s' => r = None /\ freed s s' free (ps ++ sub (subtree l (km_mem s)) (entry (km_mem s) (child e) i))) no_halt s1.
Proof.
  intros Hl Hi Hfr Ht IH Hok Hnd. pose proof Hfr as (f1 & Hf1 & E1 & S1 & _). set (m := km_mem s) in *. set (m1 := km_mem s1) in *.
  apply Forall_app in Hok as [Hokp Hoks]. rewrite <- E1 in Hnd. pose proof (width_le (S l)).
  apply NoDup_app in Hnd as (Hnd1 & Hdis & [_ Hnds]%NoDup_cons).
  assert (Hpf : forall p, p ∈ ps -> p ∈ f1) by (intros p Hp; rewrite E1; in_lists).
  assert (Hps : forall p, p ∈ ps -> p ≠ child e) by (intros p Hp ->; apply (Hdis (child e)); [by apply Hpf|in_lists]).
  assert (Hsp : forall p, page_ok p -> p ∉ ps -> same_page m m1 p) by (intros p Hp Hne; by apply (same_except_page ps)).
  assert (Ee : entry m1 (child e) i = entry m (child e) i).
  { destruct (in_table (child e) i) as [A B]; [done|lia|]. apply (same_page_read64 m m1 (child e)); [|done..]. apply Hsp; [done|]. intros Hin. by apply (Hps _ Hin). }
  unfold load64. do 2 wp_step. fold m1. fold (entry m1 (child e) i). rewrite Ee. wp_step. unfold sub in *.
  destruct (pte_p (entry m (child e) i)) eqn:Hp; [|do 2 wp_step; split; [done|]; by rewrite app_nil_r].
  set (x := entry m (child e) i) in *. fold (child x).
  assert (Hst : subtree l m1 x = subtree l m x).
  { apply subtree_frame; [lia|]. intros p Hin. assert (Hin' : p ∈ subtree l m x) by (unfold subtree; set_solver).
    rewrite Forall_forall in Hoks. split; [by apply Hoks|]. apply Hsp; [by apply Hoks|]. intros Hin2. apply (Hdis p); [by apply Hpf|in_lists]. }
  eapply wp_conseq; [apply (IH s1 f1 x); [done|by fold m1; rewrite Hst|]|].
  { fold m1. rewrite Hst. apply NoDup_app. split_and!; [done| |done]. intros p Hp1 Hp2. apply (Hdis p); [done|in_lists]. }
  intros ? s2 Hfr2. fold m1 in Hfr2. rewrite Hst in Hfr2. wp_step. split; [done|]. by eapply freed_app.
Qed.

Lemma free_tree_spec l : forall s free e,
  (l <= 4)%nat -> free_list s free -> Forall page_ok (subtree l (km_mem s) e) -> NoDup (free ++ subtree l (km_mem s) e) ->
  wp (free_tree l (child e)) (fun _ s' => freed s s' free (subtree l (km_mem s) e)) no_halt s.
Proof.
  induction l as [|l IH]; intros s free e Hl Hf Hok Hnd; cbn [free_tree].
  { unfold subtree in Hok, Hnd |- *. cbn [tables frames app] in Hok, Hnd |- *. apply Forall_cons in Hok as [Hok _].
    apply NoDup_app in Hnd as (_ & Hn & _). apply (kfree_spec s free); [done|done|intros Hin; apply (Hn _ Hin); set_solver|].
    intros s' Hf' Hs _ Hp. exists (child e :: free). split_and!; [done|by rewrite (Permutation_app_comm free [child e])|done|done]. }
  set (m := km_mem s) in *. set (t := child e). set (G := fun i => sub (subtree l m) (entry m t i)). set (w := width (S l)).
  pose proof (subtree_split l m e) as Hsp. fold t w G in Hsp. rewrite Hsp in Hok, Hnd. apply Forall_cons in Hok as [Hokt HokG].
  assert (Hw : 0 < w <= 512) by apply width_le.
  unfold for_entries. wp_step. wp_step.
  apply (wp_for_seqZ (fun i s' => freed s s' free (seqZ 0 i ≫= G))); [lia|by apply freed_refl| |].
  - intros i s1 Hi Hfr. pose proof (seqZ_split w i ltac:(lia)) as Hsq. rewrite Hsq, bind_app, bind_cons in HokG, Hnd.
    assert (Hs1 : seqZ 0 (i + 1) ≫= G = (seqZ 0 i ≫= G) ++ G i).
    { rewrite seqZ_app by lia. rewrite bind_app. f_equal. rewrite seqZ_cons, (seqZ_nil _ (Z.pred 1)), bind_cons by lia. by rewrite app_nil_r. }
    rewrite Hs1. apply (free_entry_spec l s s1 free e i (seqZ 0 i ≫= G)); [done|unfold w in Hi; lia|done|done| | |]; fold m t.
    + intros s2 f2 x. apply IH. lia.
    + fold (G i). rewrite app_assoc in HokG. by apply Forall_app in HokG as [? _].
    + fold (G i). rewrite <- app_assoc, <- Permutation_middle. rewrite (app_assoc (seqZ 0 i ≫= G)), app_comm_cons, app_assoc in Hnd.
      by apply NoDup_app in Hnd as (? & _).
  - intros s1 (f1 & Hf1 & E1 & S1 & P1). rewrite Z.add_0_l in *. wp_step.
    assert (Ht : t ∉ f1). { rewrite E1, <- Permutation_middle in *. intros Hin. apply NoDup_cons in Hnd as [Hn _]. by apply Hn. }
    apply (kfree_spec s1 f1); [done|done|done|]. intros s2 Hf2 S2 _ P2. exists (t :: f1). split_and!; [done| | |by rewrite P2]; rewrite Hsp.
    + by rewrite E1, <- Permutation_middle.
    + intros x Hx. rewrite (S2 x), (S1 x); [done|intros p Hp; apply Hx; in_lists|]. intros p ->%list_elem_of_singleton. apply Hx. in_lists.
Qed.

(** [freevm] frees every page of the address space, once. *)
Lemma freevm_spec s free d :
  space s free d -> wp (freevm d) (fun _ s' => freed s s' free (pages (km_mem s) d)) no_halt s.
Proof.
  intros [Hf Hd Hok Hnd]. rewrite freevm_tree by done. pose proof (free_tree_spec 4 s free (root d) ltac:(lia) Hf Hok Hnd) as Hw.
  by rewrite child_root in Hw.
Qed.

(** ** Other address spaces *)

(** A change outside the pages of an address space does not show in it. *)
Lemma view_frame m m' d ps :
  Forall page_ok (pages m d) -> Forall page_ok ps -> same_except ps m m' -> (forall p, p ∈ pages m d -> p ∉ ps) ->
  pages m' d = pages m d /\
  (forall v, in_range 4 v -> pte 4 m' (root d) v = pte 4 m (root d) v /\ slot 4 m' (root d) v = slot 4 m (root d) v) /\
  (forall v x, in_range 4 v -> pte 4 m (root d) v = Some x -> page_ok (child x) /\ same_page m m' (child x)) /\
  (forall va, user va -> uview m' d va = uview m d va).
Proof.
  intros Hok Hps Hs Hdis. rewrite Forall_forall in Hok.
  assert (Hsp : forall p, p ∈ pages m d -> page_ok p /\ same_page m m' p).
  { intros p Hp. split; [by apply Hok|]. apply (same_except_page ps); [done|by apply Hok|by apply Hdis|done]. }
  assert (Hst : forall p, p ∈ tables 4 m (root d) -> page_ok p /\ same_page m m' p) by (intros p Hp; apply Hsp; unfold pages; in_lists).
  destruct (tree_frame 4 m m' (root d) ltac:(lia) Hst) as (T & F & P).
  assert (Hleaf : forall v x, in_range 4 v -> pte 4 m (root d) v = Some x -> page_ok (child x) /\ same_page m m' (child x)).
  { intros v x Hv Hx. apply Hsp. apply pte_frames in Hx; [|lia|done]. unfold pages. in_lists. }
  split; [unfold pages; by rewrite T, F|]. split; [intros v Hv; split; [by apply P|apply slot_frame; [lia|done|done]]|]. split; [done|].
  intros va Hva. pose proof (user_range4 va Hva) as Hv. apply uview_ext; [by apply P|]. intros x Hx. by apply (Hleaf _ x Hv).
Qed.

(** ** Fork *)

(** The bytes of [src] in the pages from [PGSIZE] up to page [k]. *)
Definition copied (src : Z -> option (Z * Z)) (k va : Z) : option (Z * Z) :=
  if decide (PGSIZE <= va < PGSIZE * k) then src va else None.

Lemma flags_present x : pte_p x = true -> Z.lor (PTE_FLAGS x) PTE_P = PTE_FLAGS x.
Proof.
  rewrite pte_p_testbit. intros Hp. apply Z.bits_inj'. intros n Hn. rewrite Z.lor_spec. unfold PTE_P. change 0x001 with (Z.ones 1).
  rewrite Z.testbit_ones_nonneg by lia. destruct (Z.ltb_spec n 1); [|by rewrite orb_false_r].
  replace n with 0 by lia. unfold PTE_FLAGS. rewrite Z.land_spec, Hp. done.
Qed.

(** One round of [copyuvm]. *)
Lemma copy_page_spec s s1 free free1 d0 d sz k :
  space s free d0 -> fresh d s s1 free free1 -> in_range 4 k -> PGSIZE * k < sz -> 1 <= k ->
  (exists x, pte 4 (km_mem s) (root d0) k = Some x) ->
  (forall va, user va -> uview (km_mem s1) d va = copied (uview (km_mem s) d0) k va) ->
  wp (copy_step d0 d sz (PGSIZE * k))
     (fun r s' => r = inl (PGSIZE * (k + 1)) /\ exists free', fresh d s s' free free' /\
        forall va, user va -> uview (km_mem s') d va = copied (uview (km_mem s) d0) (k + 1) va) oom s1.
Proof.
  intros Hsp0 Hfr Hk Hlt Hk1 [x Hx] HU. pose proof (proj1 (range4_user k) Hk) as Hr. unfold copy_step. rewrite (proj2 (Z.ltb_lt _ _)) by done.
  wp_step. apply wp_lookup; [apply Hsp0|unfold user, USERTOP, PGSIZE; lia|]. rewrite (Z.mul_comm PGSIZE k), Z.div_mul by done.
  pose proof (sp_nodup _ _ _ Hsp0) as Hnd0. pose proof (fl_ok _ _ (sp_free _ _ _ Hsp0)) as Hfok.
  destruct (view_frame (km_mem s) (km_mem s1) d0 free) as (_ & Hps & Hleaf & _); [apply Hsp0|done|apply Hfr| |].
  { apply NoDup_app in Hnd0 as (_ & Hd & _). intros p Hp Hp'. by apply (Hd p). }
  destruct (pte_present _ _ _ _ Hx) as (Hpx & a & Hsl & Ea). destruct (Hps k Hk) as [Hp1 Hs1]. rewrite Hs1, Hsl.
  assert (Ea1 : read64 (km_mem s1) a = x).
  { rewrite pte_slot, Hs1, Hsl in Hp1 by lia. rewrite Hx in Hp1. destruct (pte_p (read64 (km_mem s1) a)); [by injection Hp1|done]. }
  unfold load64. do 2 wp_step. rewrite Ea1, Hpx. cbn [negb]. wp_step. pose proof (fr_space _ _ _ _ _ Hfr) as Hsp1.
  apply (kalloc_spec s1 free1); [apply Hsp1|]. intros q free2 s2 -> E2 Hf2. pose proof (fl_ok _ _ (sp_free _ _ _ Hsp1)) as [Hq _]%Forall_cons.
  pose proof (page_ok_u64 q Hq). rewrite (proj2 (Z.eqb_neq q 0)) by lia. unfold kmemmove. do 2 wp_step. rewrite E2 in Hf2 |- *.
  change (km_mem (set_free (km_free s2) s1)) with (km_mem s1). fold (child x). set (m2 := mmove q (child x) PGSIZE (km_mem s1)).
  assert (Hs2 : same_except [q] (km_mem s1) m2).
  { intros y Hy. apply mmove_other. specialize (Hy q (list_elem_of_here _ _)). unfold in_page in Hy. lia. }
  assert (Hm2 : mem_ok m2) by (apply mem_ok_mmove, Hsp1).
  destruct (take_page s1 q free2 d (km_free s2) m2) as (_ & Hnq & Hsp2 & T & F & P & U); [done..|]. wp_step.
  assert (Hfl : 0 <= PTE_FLAGS x < PGSIZE) by (rewrite pte_flags_mod; by apply Z.mod_pos_bound).
  rewrite (Z.mul_comm k). eapply wp_conseq; [apply (mappages_spec _ free2 d k q); [done|done| |done| |done]|].
  { cbn [km_mem set_mem]. rewrite P by done. assert (Hu : user (PGSIZE * k)) by (unfold user, USERTOP, PGSIZE; lia). specialize (HU _ Hu).
    unfold copied in HU. rewrite decide_False in HU by lia. apply uview_none in HU. by rewrite (Z.mul_comm PGSIZE), Z.div_mul in HU. }
  { unfold pages in Hnq |- *. cbn [km_mem set_mem]. by rewrite T, F. }
  intros r s3 (-> & X & free3 & Hmap). change (0 <? 0) with false. cbv iota. wp_step. split; [f_equal; lia|].
  destruct (vstep_mapped s1 q free2 d (km_free s2) m2 s3 X free3 k (PTE_FLAGS x)) as [Hst HU3]; [done..|].
  exists free3. split; [by eapply fresh_vstep|]. intros va Hva. rewrite HU3, HU, flags_present by done. unfold copied.
  pose proof (div_page va k) as Hdiv. pose proof (Z.mod_pos_bound va PGSIZE ltac:(done)). destruct (decide (va / PGSIZE = k)) as [E|E].
  - rewrite decide_True by (unfold PGSIZE in *; lia). unfold uview. rewrite E, Hx. f_equal. f_equal. unfold m2. rewrite mmove_in by lia.
    destruct (Hleaf k x Hk Hx) as [_ Hsx]. rewrite <- Hsx by (unfold in_page; lia). f_equal. lia.
  - repeat case_decide; try done; unfold PGSIZE in *; lia.
Qed.

Lemma copyuvm_spec s free d0 sz :
  space s free d0 -> 0 <= sz <= USERTOP -> (forall va, PGSIZE <= va < sz -> uview (km_mem s) d0 va <> None) ->
  wp (copyuvm d0 sz)
     (fun d s' => exists free', fresh d s s' free free' /\
        forall va, user va -> uview (km_mem s') d va = if decide (PGSIZE <= va < PGROUNDUP sz) then uview (km_mem s) d0 va else None) oom s.
Proof.
  intros Hsp Hsz Hall. destruct (npages_user sz Hsz) as [R1 E1]. rewrite E1. set (k1 := npages sz) in *. unfold copyuvm. wp_step.
  eapply wp_conseq; [apply setupkvm_spec, Hsp|]. intros d s1 (free1 & Hfr & HU). pose proof (sp_dir _ _ _ (fr_space _ _ _ _ _ Hfr)) as Hd%page_ok_u64.
  rewrite (proj2 (Z.eqb_neq d 0)) by lia. wp_step.
  apply (wp_while (fun i s' => exists k free', i = PGSIZE * k /\ 1 <= k <= Z.max 1 k1 /\ fresh d s s' free free' /\
           forall va, user va -> uview (km_mem s') d va = copied (uview (km_mem s) d0) k va)
         (fun i => Z.to_nat (k1 - i / PGSIZE))).
  - exists 1, free1. split_and!; [done|lia|lia|done|]. intros va Hva. rewrite HU by done. unfold copied. by rewrite decide_False by lia.
  - rewrite Z.div_same by done. assert (k1 <= sz / PGSIZE + 1); [|lia].
    unfold k1, npages. rewrite <- Z.div_add by done. apply Z.div_le_mono; unfold PGSIZE; lia.
  - intros i s2 (k & free2 & -> & Hk & Hfr2 & HU2). destruct (decide (PGSIZE * k < sz)) as [Hlt|Hge].
    + assert (k < k1) by (by apply npages_spec). assert (Hv : in_range 4 k) by (apply range4_user; lia).
      eapply wp_conseq; [apply (copy_page_spec s s2 free free2 d0 d sz k); [done|done|done|done|lia| |done]|].
      * specialize (Hall (PGSIZE * k)). unfold uview in Hall. rewrite (Z.mul_comm PGSIZE), Z.div_mul in Hall by done.
        destruct (pte 4 (km_mem s) (root d0) k) as [x|]; [by exists x|]. destruct Hall; [unfold PGSIZE in *; lia|done].
      * intros r s3 (-> & free3 & Hfr3 & HU3). rewrite !(Z.mul_comm PGSIZE), !Z.div_mul by done. split; [|lia].
        exists (k + 1), free3. split_and!; [lia|lia|lia|done|done].
    + unfold copy_step. rewrite (proj2 (Z.ltb_ge _ _)) by lia. do 2 wp_step. exists free2. split; [done|].
      assert (k1 <= k) by (apply Z.nlt_ge; intros Hlt; apply npages_spec in Hlt; lia). intros va Hva. rewrite HU2 by done. unfold copied.
      repeat case_decide; try done; unfold PGSIZE in *; lia.
Qed.

(** ** Access from the kernel *)

(** The process may access [va]. *)
Definition accessible m d va : Prop := exists b f, uview m d va = Some (b, f) /\ Z.testbit f 2 = true.

Lemma accessible_pte m d va : accessible m d va -> exists x, pte 4 m (root d) (va / PGSIZE) = Some x /\ pte_u x = true.
Proof.
  intros (b & f & Hv & Hf). unfold uview in Hv. destruct (pte 4 m (root d) (va / PGSIZE)) as [x|]; [|done]. injection Hv as _ <-.
  exists x. split; [done|]. unfold PTE_FLAGS in Hf. rewrite Z.land_spec, andb_true_iff in Hf. destruct Hf as [Hf _].
  unfold pte_u, PTE_U. apply negb_true_iff, Z.eqb_neq. intros E. assert (Hb : Z.testbit (Z.land x 0x004) 2 = true) by (by rewrite Z.land_spec, Hf).
  by rewrite E in Hb.
Qed.

Lemma uva2ka_spec s d va (Q : Z -> kmem -> Prop) E :
  page_ok d -> user va -> accessible (km_mem s) d va ->
  (forall x, pte 4 (km_mem s) (root d) (va / PGSIZE) = Some x -> Q (child x) s) -> wp (uva2ka d va) Q E s.
Proof.
  intros Hd Hu Ha HQ. destruct (accessible_pte _ _ _ Ha) as (x & Hx & Hux). destruct (pte_present _ _ _ _ Hx) as (Hpx & a & Hsl & Ea).
  unfold uva2ka. wp_step. apply wp_lookup; [done..|]. rewrite Hsl. unfold load64. do 2 wp_step. rewrite Ea, Hpx, Hux. cbn [negb].
  wp_step. by apply HQ.
Qed.

(** [bs] written at [va], protection unchanged. *)
Definition uwrite va (bs : list Z) (V : Z -> option (Z * Z)) (y : Z) : option (Z * Z) :=
  if decide (va <= y < va + Z.of_nat (length bs)) then
    match V y, bs !! Z.to_nat (y - va) with Some (_, f), Some b => Some (b, f) | _, _ => None end
  else V y.

Lemma page_of va va0 : user va -> va0 = PGROUNDDOWN va -> user va0 /\ va0 = PGSIZE * (va / PGSIZE) /\ va0 / PGSIZE = va / PGSIZE /\ va - va0 = va mod PGSIZE.
Proof.
  intros [H0 H1] ->. unfold USERTOP in H1. rewrite pgrounddown_spec by lia. pose proof (Z.div_mod va PGSIZE ltac:(done)). pose proof (Z.mod_pos_bound va PGSIZE ltac:(done)).
  assert (0 <= va / PGSIZE) by (apply Z.div_pos; [done|done]). split; [unfold user, USERTOP, PGSIZE in *; lia|]. split; [done|]. split; [|lia].
  rewrite Z.mul_comm. by apply Z.div_mul.
Qed.

(** A write inside one page. *)
Lemma poke_page s free d va x bs m' :
  space s free d -> user va -> pte 4 (km_mem s) (root d) (va / PGSIZE) = Some x -> mem_ok m' ->
  va mod PGSIZE + Z.of_nat (length bs) <= PGSIZE -> (forall y, m' y = poke (child x + va mod PGSIZE) bs (km_mem s) y) ->
  let s' := set_mem m' s in
  vstep d s s' free free /\ forall y, user y -> uview (km_mem s') d y = uwrite va bs (uview (km_mem s) d) y.
Proof.
  intros Hsp Hu Hx Hbs Hlen Em s'. pose proof (user_range4 va Hu) as Hv. destruct (mapped_frame _ _ _ _ _ Hsp Hv Hx) as (Hok & Hin & Hnf & Hnt).
  pose proof (Z.mod_pos_bound va PGSIZE ltac:(done)) as Hmod.
  assert (Hs : same_except [child x] (km_mem s) (km_mem s')).
  { intros y Hy. cbn [km_mem set_mem s']. rewrite Em. apply poke_other. specialize (Hy (child x) (list_elem_of_here _ _)). unfold in_page in Hy. lia. }
  destruct (space_frame s s' free d [child x]) as (Hsp' & T & F & P); [done|done|done|by constructor|done| |].
  { by intros p ->%list_elem_of_singleton. }
  split. { split; [done|unfold pages; by rewrite T, F| |done]. eapply same_except_weaken; [|exact Hs]. unfold pages. intros p ->%list_elem_of_singleton. in_lists. }
  intros y Hy. pose proof (user_range4 y Hy) as Hvy. pose proof (Z.div_mod va PGSIZE ltac:(done)). pose proof (Z.div_mod y PGSIZE ltac:(done)).
  pose proof (Z.mod_pos_bound y PGSIZE ltac:(done)). unfold uwrite. destruct (decide (y / PGSIZE = va / PGSIZE)) as [E|E].
  - unfold uview. rewrite P, E, Hx by done. cbn [km_mem set_mem s']. rewrite Em.
    destruct (decide (va <= y < va + Z.of_nat (length bs))) as [Hr|Hr]; [|do 2 f_equal; apply poke_other; lia].
    unfold poke. rewrite (proj2 (Z.leb_le _ _)), (proj2 (Z.ltb_lt _ _)) by lia. cbn [andb].
    replace (Z.to_nat (child x + y mod PGSIZE - (child x + va mod PGSIZE))) with (Z.to_nat (y - va)) by lia.
    destruct (lookup_lt_is_Some_2 bs (Z.to_nat (y - va))) as [b ->]; [lia|done].
  - rewrite decide_False by (intros Hr; apply E; unfold PGSIZE in *; lia). apply uview_ext; [by apply P|]. intros z Hz.
    destruct (mapped_frame _ _ _ _ _ Hsp Hvy Hz) as (Hokz & _). eapply same_except_page; [| | |exact Hs]; [by constructor|done|].
    intros Hc%list_elem_of_singleton. apply E. by apply (pte_inj 4 (km_mem s) (root d) _ _ z x); [lia|apply (sp_nodups _ _ _ Hsp)|..].
Qed.

Lemma accessible_page m d y y' : y / PGSIZE = y' / PGSIZE -> accessible m d y -> accessible m d y'.
Proof.
  intros E (b & f & Hv & Hf). unfold accessible, uview in *. rewrite <- E. destruct (pte 4 m (root d) (y / PGSIZE)) as [x|]; [|done].
  injection Hv as _ <-. eauto.
Qed.

Lemma uwrite_app va bs cs V y : uwrite (va + Z.of_nat (length bs)) cs (uwrite va bs V) y = uwrite va (bs ++ cs) V y.
Proof.
  unfold uwrite. rewrite length_app. destruct (V y) as [[b f]|].
  2: { repeat case_decide; try done; lia. }
  repeat case_decide; try lia; try done.
  - rewrite lookup_app_r by lia. replace (Z.to_nat (y - va) - length bs)%nat with (Z.to_nat (y - (va + Z.of_nat (length bs)))) by lia. done.
  - rewrite lookup_app_l by lia. done.
Qed.

Lemma uwrite_other va bs V y : ~ (va <= y < va + Z.of_nat (length bs)) -> uwrite va bs V y = V y.
Proof. intros Hy. unfold uwrite. by rewrite decide_False. Qed.

(** The number of bytes a round copies. *)
Lemma chunk va n : user va -> 0 < n -> let k := Z.min (PGSIZE - va mod PGSIZE) n in
  0 < k <= n /\ va mod PGSIZE + k <= PGSIZE /\ (k < n -> va + k = PGSIZE * (va / PGSIZE) + PGSIZE).
Proof.
  intros Hu Hn k. pose proof (Z.div_mod va PGSIZE ltac:(done)). pose proof (Z.mod_pos_bound va PGSIZE ltac:(done)). unfold PGSIZE in *. lia.
Qed.

(** [copyout] writes the bytes, into that address space only. *)
Lemma copyout_spec s free d va bs :
  space s free d -> 0 <= va -> va + Z.of_nat (length bs) <= USERTOP -> bytes_ok bs ->
  (forall y, va <= y < va + Z.of_nat (length bs) -> accessible (km_mem s) d y) ->
  wp (copyout d va bs)
     (fun r s' => r = 0 /\ vstep d s s' free free /\ forall y, user y -> uview (km_mem s') d y = uwrite va bs (uview (km_mem s) d) y) no_halt s.
Proof.
  intros Hsp H0 Htop Hbs Hacc. unfold copyout.
  apply (wp_while (fun x s' => exists dn, bs = dn ++ x.2 /\ (x.2 <> [] -> x.1 = va + Z.of_nat (length dn)) /\ vstep d s s' free free /\
           forall y, user y -> uview (km_mem s') d y = uwrite va dn (uview (km_mem s) d) y) (fun x => length x.2)); [|cbn; lia|].
  { exists []. cbn. split_and!; [done|intros; lia|by apply vstep_refl|]. intros y _. by rewrite uwrite_other by (cbn; lia). }
  intros [va1 r] s1 (dn & Ebs & Eva & Hst & HU). cbn [fst snd] in *. destruct r as [|b r]; cbn [copyout_step].
  { wp_step. split; [done|]. rewrite app_nil_r in Ebs. by subst dn. }
  set (r1 := b :: r) in *. specialize (Eva ltac:(done)). subst va1. set (va1 := va + Z.of_nat (length dn)).
  assert (Hlen : Z.of_nat (length bs) = Z.of_nat (length dn) + Z.of_nat (length r1)) by (rewrite Ebs, length_app; lia).
  assert (Hr1 : 0 < Z.of_nat (length r1)) by (cbn; lia). assert (Hu1 : user va1) by (unfold user, va1; lia).
  destruct (page_of va1 _ Hu1 eq_refl) as (Hu0 & E0 & Ed & Em). set (va0 := PGROUNDDOWN va1) in *.
  assert (Ha1 : accessible (km_mem s1) d va1).
  { destruct (Hacc va1) as (b1 & f & Hv & Hf); [unfold va1; lia|]. exists b1, f. split; [|done]. rewrite HU, uwrite_other by (done || unfold va1; lia). done. }
  wp_step. apply uva2ka_spec; [apply Hsp|done|by apply (accessible_page _ _ va1)|]. rewrite Ed. intros x Hx.
  pose proof (vs_space _ _ _ _ _ Hst) as Hsp1. destruct (mapped_frame _ _ _ _ _ Hsp1 (user_range4 va1 Hu1) Hx) as (Hokx%page_ok_u64 & _).
  rewrite (proj2 (Z.eqb_neq (child x) 0)) by lia. do 2 wp_step. wp_step. rewrite Em.
  destruct (chunk va1 (Z.of_nat (length r1)) Hu1 Hr1) as (Hk & Hpg & Hnext). set (k := Z.min _ _) in *.
  assert (Hlk : length (take (Z.to_nat k) r1) = Z.to_nat k) by (rewrite length_take; lia).
  destruct (poke_page s1 free d va1 x (take (Z.to_nat k) r1) (poke (child x + va1 mod PGSIZE) (take (Z.to_nat k) r1) (km_mem s1))) as [Hst2 HU2]; [done|done|done| |lia|done|].
  { apply mem_ok_poke; [apply Hsp1|]. rewrite Ebs in Hbs. apply Forall_app in Hbs as [_ Hbs]. by apply Forall_take. }
  cbn [fst snd]. split; [|rewrite length_drop; lia]. exists (dn ++ take (Z.to_nat k) r1). split_and!.
  - by rewrite <- app_assoc, take_drop.
  - intros Hne. assert (k < Z.of_nat (length r1)).
    { destruct (decide (k < Z.of_nat (length r1))); [done|]. rewrite drop_ge in Hne by lia. done. }
    rewrite length_app, Hlk. unfold u64. rewrite E0. rewrite <- Hnext by done. rewrite Z.mod_small by (unfold va1 in *; unfold USERTOP in *; lia). unfold va1. lia.
  - by eapply vstep_trans.
  - intros y Hy. rewrite HU2 by done. unfold va1. rewrite <- uwrite_app. unfold uwrite at 1 3. by rewrite HU.
Qed.

(** The bytes [bs] are what the process sees at [va]. *)
Definition sees (V : Z -> option (Z * Z)) va (bs : list Z) : Prop :=
  forall (j : nat) b, bs !! j = Some b -> exists f, V (va + Z.of_nat j) = Some (b, f).

Lemma sees_app V va bs cs : sees V va bs -> sees V (va + Z.of_nat (length bs)) cs -> sees V va (bs ++ cs).
Proof.
  intros Hb Hc j x Hi. destruct (decide (j < length bs)%nat) as [Hlt|Hge]; [rewrite lookup_app_l in Hi by done; by apply Hb|].
  rewrite lookup_app_r in Hi by lia. destruct (Hc _ _ Hi) as [f Hf]. exists f. rewrite <- Hf. f_equal. lia.
Qed.

Lemma peek_page m d va x n :
  user va -> pte 4 m (root d) (va / PGSIZE) = Some x -> va mod PGSIZE + Z.of_nat n <= PGSIZE ->
  sees (uview m d) va (peek m (child x + va mod PGSIZE) n).
Proof.
  intros Hu Hx Hn j b Hi. pose proof (lookup_lt_Some _ _ _ Hi) as Hlt. rewrite length_peek in Hlt. rewrite lookup_peek in Hi by done.
  injection Hi as <-. exists (PTE_FLAGS x). unfold uview. pose proof (Z.div_mod va PGSIZE ltac:(done)). pose proof (Z.mod_pos_bound va PGSIZE ltac:(done)).
  assert (E : (va + Z.of_nat j) / PGSIZE = va / PGSIZE) by (apply div_page; unfold PGSIZE in *; lia).
  rewrite E, Hx. do 3 f_equal. rewrite (Z.mod_eq (va + Z.of_nat j)), E by done. lia.
Qed.

(** [copyin] reads what the process sees, as long as the addresses fit in 32
    bits (it truncates the address of each page to [uint]). *)
Lemma copyin_spec s d va len :
  page_ok d -> Forall page_ok (pages (km_mem s) d) -> 0 <= va -> 0 <= len -> va + len <= 2 ^ 32 ->
  (forall y, va <= y < va + len -> accessible (km_mem s) d y) ->
  wp (copyin d va len)
     (fun r s' => s' = s /\ r.1 = 0 /\ Z.of_nat (length r.2) = len /\ sees (uview (km_mem s) d) va r.2) no_halt s.
Proof.
  intros Hd Hok H0 Hl Htop Hacc. unfold copyin.
  apply (wp_while (fun x s' => s' = s /\ Z.of_nat (length x.2) + x.1.2 = len /\ 0 <= x.1.2 /\ (0 < x.1.2 -> x.1.1 = va + Z.of_nat (length x.2)) /\
           sees (uview (km_mem s) d) va x.2) (fun x => Z.to_nat x.1.2)); [|cbn; lia|].
  { cbn. split_and!; [done|lia|lia|intros; lia|]. by intros j b Hi. }
  intros [[va1 n] dn] s1 (-> & Hlen & Hn & Eva & Hsee). cbn [fst snd] in *. cbn [copyin_step]. destruct (Z.ltb_spec 0 n) as [Hpos|Hz].
  2: { wp_step. cbn. split_and!; [done|done|lia|done]. }
  specialize (Eva Hpos). subst va1. set (va1 := va + Z.of_nat (length dn)). assert (Hu1 : user va1) by (unfold user, va1, USERTOP; lia).
  destruct (page_of va1 _ Hu1 eq_refl) as (Hu0 & E0 & Ed & Em). set (va0 := PGROUNDDOWN va1) in *.
  pose proof (Z.div_mod va1 PGSIZE ltac:(done)). pose proof (Z.mod_pos_bound va1 PGSIZE ltac:(done)) as Hmod.
  assert (Eu : u32 va0 = va0) by (unfold u32; apply Z.mod_small; unfold user, va1 in *; lia). rewrite Eu.
  wp_step. apply uva2ka_spec; [done|done|apply (accessible_page _ _ va1); [done|apply Hacc; unfold va1; lia]|]. rewrite Ed. intros x Hx.
  assert (Hokx : page_ok (child x)).
  { rewrite Forall_forall in Hok. apply Hok. apply pte_frames in Hx; [|lia|by apply user_range4]. unfold pages. in_lists. }
  apply page_ok_u64 in Hokx. rewrite (proj2 (Z.eqb_neq (child x) 0)) by lia. do 2 wp_step. wp_step. rewrite Em.
  unfold u64. rewrite !(Z.mod_small (va1 mod PGSIZE)) by (unfold PGSIZE in *; lia). rewrite (Z.mod_small (PGSIZE - _)) by (unfold PGSIZE in *; lia).
  rewrite (Z.mod_small (child x + _)) by (unfold PGSIZE in *; lia).
  destruct (chunk va1 n Hu1 Hpos) as (Hk & Hpg & Hnext). set (k := Z.min _ _) in *. cbn [fst snd]. split; [|lia].
  rewrite length_app, length_peek. split_and!; [done|lia|lia| |].
  - intros Hlt. rewrite Z.mod_small by (unfold va1, PGSIZE in *; lia). unfold va1. lia.
  - apply sees_app; [done|]. apply peek_page; [done|done|lia].
Qed.

(** ** The first process *)

Lemma inituvm_spec s free d init sz :
  space s free d -> 0 <= sz < PGSIZE -> pte 4 (km_mem s) (root d) 1 = None ->
  (forall x p, init <= x < init + sz -> p ∈ free ++ pages (km_mem s) d -> ~ in_page p x) ->
  wp (inituvm d init sz)
     (fun _ s' => exists free', vstep d s s' free free' /\
        forall va, user va -> uview (km_mem s') d va =
          if decide (va / PGSIZE = 1) then Some (if decide (va - PGSIZE < sz) then km_mem s (init + (va - PGSIZE)) else 0, 7)
          else uview (km_mem s) d va) oom s.
Proof.
  intros Hsp Hsz Hnone Hinit. unfold inituvm. rewrite (proj2 (Z.leb_gt _ _)) by lia. wp_step.
  apply (kalloc_spec s free); [apply Hsp|]. intros q free' s1 -> E1 Hf1. pose proof (fl_ok _ _ (sp_free _ _ _ Hsp)) as [Hq _]%Forall_cons.
  unfold kmemset. do 2 wp_step. rewrite E1 in Hf1 |- *. change (km_mem (set_free (km_free s1) s)) with (km_mem s). set (m2 := mset q 0 PGSIZE (km_mem s)).
  assert (Hs : same_except [q] (km_mem s) m2) by apply same_except_mset. assert (Hm : mem_ok m2) by (apply mem_ok_mset; [done|apply Hsp]).
  destruct (take_page s q free' d (km_free s1) m2) as (_ & Hnq & Hsp2 & T & F & P & U); [done..|]. wp_step.
  change PGSIZE with (PGSIZE * 1) at 1. eapply wp_conseq; [apply (mappages_spec _ free' d 1 q); [done|done|cbn [km_mem set_mem]; by rewrite P|done| |done]|].
  { unfold pages in Hnq |- *. cbn [km_mem set_mem]. by rewrite T, F. }
  intros r s3 (_ & X & free3 & Hmap). destruct (vstep_mapped s q free' d (km_free s1) m2 s3 X free3 1 (Z.lor PTE_W PTE_U)) as [Hst HU]; [done..|].
  unfold kmemmove. wp_step. exists free3. set (m3 := km_mem s3). pose proof (vs_space _ _ _ _ _ Hst) as Hsp3.
  assert (Hu1 : user PGSIZE) by done. destruct (leaf_entry_spec q (Z.lor PTE_W PTE_U) Hq) as (_ & Hcx & _); [done|].
  assert (Hx : pte 4 m3 (root d) (PGSIZE / PGSIZE) = Some (leaf_entry q (Z.lor PTE_W PTE_U))) by (by rewrite (ma_pte _ _ _ _ _ _ _ _ _ Hmap)).
  destruct (poke_page s3 free3 d PGSIZE (leaf_entry q (Z.lor PTE_W PTE_U)) (peek m3 init (Z.to_nat sz)) (mmove q init sz m3)) as [Hst2 HU2]; [done|done|done| | | |].
  - apply mem_ok_mmove, Hsp3.
  - rewrite length_peek. change (PGSIZE mod PGSIZE) with 0. unfold PGSIZE in *. lia.
  - intros y. rewrite Hcx. change (PGSIZE mod PGSIZE) with 0. rewrite Z.add_0_r. unfold mmove, poke. rewrite length_peek, Z2Nat.id by lia.
    destruct (Z.leb_spec q y), (Z.ltb_spec y (q + sz)); cbn [andb]; try done. rewrite lookup_peek by lia. cbn. f_equal. lia.
  - split; [by eapply vstep_trans|]. intros va Hva. rewrite HU2 by done. unfold uwrite. rewrite length_peek, Z2Nat.id by lia.
    rewrite HU by done. pose proof (div_page va 1) as Hdiv. destruct (decide (va / PGSIZE = 1)) as [E|E].
    + apply Hdiv in E. destruct (decide (va - PGSIZE < sz)) as [Hlt|Hge].
      * rewrite decide_True by lia. rewrite lookup_peek by lia. f_equal. f_equal. unfold m3. rewrite (vs_same _ _ _ _ _ Hst).
        -- f_equal. lia.
        -- intros p Hp Hin. eapply (Hinit _ p); [|exact Hp|exact Hin]. lia.
      * rewrite decide_False by lia. f_equal. f_equal. apply mset_in. pose proof (Z.mod_pos_bound va PGSIZE ltac:(done)). lia.
    + rewrite decide_False; [done|]. intros Hr. apply E, Hdiv. unfold PGSIZE in *. lia.
Qed.

(** ** Where the code goes wrong *)

(** [uva2ka] reads through the null pointer that [walkpgdir] returns for an
    address whose page table does not exist; [copyout] then stops the kernel
    instead of failing. *)
Lemma copyout_null_deref s d va bs :
  page_ok d -> user va -> slot 4 (km_mem s) (root d) (va / PGSIZE) = None -> bs <> [] -> copyout d va bs s = (Halt NullDeref, s).
Proof.
  intros Hd Hu Hsl Hbs. destruct bs as [|b bs]; [done|]. destruct (page_of va _ Hu eq_refl) as (Hu0 & _ & Ed & _).
  unfold copyout. cbn [while copyout_step length]. unfold mbind, M_bind. unfold uva2ka, mbind, M_bind.
  rewrite walkpgdir_lookup by done. by rewrite Ed, Hsl.
Qed.

(** [growproc(-sz)] unmaps the whole process and then reports failure, because
    the new size 0 is also the error value of [deallocuvm]; the caller keeps
    the old size. *)
Lemma growproc_to_zero s free d sz :
  space s free d -> 0 < sz <= USERTOP ->
  wp (growproc d sz (- sz)) (fun r s' => r = None /\ forall va, PGSIZE <= va < PGROUNDUP sz -> uview (km_mem s') d va = None) no_halt s.
Proof.
  intros Hsp Hsz. unfold growproc. rewrite (proj2 (Z.ltb_ge _ _)), (proj2 (Z.ltb_lt _ _)) by lia. rewrite Z.add_opp_diag_r. change (u64 0) with 0. wp_step.
  eapply wp_conseq; [apply (deallocuvm_spec s free d sz 0); [done|lia|lia]|]. intros r s' (-> & free' & _ & HU). wp_step. split; [done|].
  intros va Hva. destruct (npages_user sz) as [Hn Er]; [lia|]. rewrite HU; [|unfold user, USERTOP, PGSIZE in *; lia].
  rewrite decide_True; [done|]. change (PGROUNDUP 0) with 0. unfold PGSIZE in *. lia.
Qed.
End vmproc.
