(* ===== verification/VmSystem.v ===== *)
(** * VmSystem: the memory of all processes

    The processes with their page tables and kernel stacks, the operations of
    proc.c that make, resize, access and free their memory, and the abstract
    machine they implement: a private memory for each process. *)
From S2P Require Import Prelude Mmu Kalloc PgTable Vm VmWalk VmSpace VmProc.

(** [pgdir], [sz] and [kstack] of [struct proc]. *)
Record vproc := VProc { p_pgdir : Z; p_sz : Z; p_kstack : Z }.

(** Memory and the processes by pid. *)
Record vsys := VSys { v_km : kmem; v_procs : gmap Z vproc }.

Inductive vop : Type :=
| VFork (parent child : Z)
| VGrow (pid n : Z)
| VWrite (pid va : Z) (bs : list Z)
| VRead (pid va len : Z)
| VWait (pid : Z).

Section system.
Context `{Kernel}.
Implicit Types (m : Z -> Z) (d va : Z) (s : vsys) (k : kmem).

Definition on_km {A} (c : MK A) : M vsys A := fun s => let '(r, k) := c (v_km s) in (r, VSys k (v_procs s)).
Definition vproc_of (pid : Z) : M vsys vproc := s ← getS; of_option NullDeref (v_procs s !! pid).
Definition set_vproc (pid : Z) (p : vproc) : M vsys unit := modify (fun s => VSys (v_km s) (<[pid := p]> (v_procs s))).

(** The memory side of [allocproc] and [fork]: a kernel stack and a copy of
    the parent's memory. *)
Definition vfork (parent child : Z) : M vsys Z :=
  p ← vproc_of parent;
  kstack ← on_km kalloc;
  if kstack =? 0 then mret (-1)
  else
    d ← on_km (copyuvm (p_pgdir p) (u32 (p_sz p)));
    if d =? 0 then on_km (kfree kstack);; mret (-1)
    else set_vproc child (VProc d (p_sz p) kstack);; mret child.

Definition vgrow (pid n : Z) : M vsys Z :=
  p ← vproc_of pid;
  r ← on_km (growproc (p_pgdir p) (p_sz p) n);
  match r with
  | None => mret (-1)
  | Some sz => set_vproc pid (VProc (p_pgdir p) sz (p_kstack p));; mret 0
  end.

(** [copyout] and [copyin], as [recv] and [send] use them. *)
Definition vwrite (pid va : Z) (bs : list Z) : M vsys Z := p ← vproc_of pid; on_km (copyout (p_pgdir p) va bs).
Definition vread (pid va len : Z) : M vsys (Z * list Z) := p ← vproc_of pid; on_km (copyin (p_pgdir p) va len).

(** The memory side of [wait] when it finds a zombie. *)
Definition vwait (pid : Z) : M vsys Z :=
  p ← vproc_of pid;
  on_km (kfree (p_kstack p));;
  on_km (freevm (p_pgdir p));;
  modify (fun s => VSys (v_km s) (delete pid (v_procs s)));;
  mret pid.

Definition vrun (op : vop) : M vsys (Z * list Z) :=
  match op with
  | VFork parent child => r ← vfork parent child; mret (r, [])
  | VGrow pid n => r ← vgrow pid n; mret (r, [])
  | VWrite pid va bs => r ← vwrite pid va bs; mret (r, [])
  | VRead pid va len => vread pid va len
  | VWait pid => r ← vwait pid; mret (r, [])
  end.

(** ** The abstract machine

    A process has a size and a memory: bytes with their protection. *)
Definition uspace : Type := Z * (Z -> option (Z * Z)).

(** [growproc] with [n > 0] adds zeroes, with [n < 0] it cuts off; cutting off
    more than there is does nothing. *)
Definition agrow (n : Z) (x : uspace) : uspace :=
  let '(sz, V) := x in
  if decide (0 < n) then
    (sz + n, fun va => if decide (PGROUNDUP sz <= va < PGROUNDUP (sz + n)) then Some (0, 7) else V va)
  else if decide (n < 0 /\ 0 < sz + n) then
    (sz + n, fun va => if decide (PGROUNDUP (sz + n) <= va < PGROUNDUP sz) then None else V va)
  else x.

Inductive astep (A : gmap Z uspace) : vop -> Z * list Z -> gmap Z uspace -> Prop :=
| AFork parent child x : A !! parent = Some x -> astep A (VFork parent child) (child, []) (<[child := x]> A)
| AGrow pid n x : A !! pid = Some x -> astep A (VGrow pid n) (0, []) (<[pid := agrow n x]> A)
| AWrite pid va bs x : A !! pid = Some x -> astep A (VWrite pid va bs) (0, []) (<[pid := (x.1, uwrite va bs x.2)]> A)
| ARead pid va len x bs :
    A !! pid = Some x -> Z.of_nat (length bs) = len -> sees x.2 va bs -> astep A (VRead pid va len) (0, bs) A
| AWait pid : astep A (VWait pid) (pid, []) (delete pid A).

(** Sizes stay below 4 GB: [copyuvm] takes a [uint], and there is less
    physical memory than that. *)
Definition MAXSZ : Z := 2 ^ 32.

Definition may_access (V : Z -> option (Z * Z)) (va len : Z) : Prop :=
  forall y, va <= y < va + len -> exists b f, V y = Some (b, f) /\ Z.testbit f 2 = true.

(** What the operations ask of the caller: the process exists, a new pid is
    new, the size stays in range and does not become 0, and accesses stay
    within what the process may access. *)
Definition allowed (A : gmap Z uspace) (op : vop) : Prop :=
  match op with
  | VFork parent child => is_Some (A !! parent) /\ A !! child = None
  | VGrow pid n => exists sz V, A !! pid = Some (sz, V) /\ - 2 ^ 63 <= n /\ sz + n < MAXSZ /\ sz + n ≠ 0
  | VWrite pid va bs => exists sz V, A !! pid = Some (sz, V) /\ 0 <= va /\ va + Z.of_nat (length bs) <= MAXSZ /\ bytes_ok bs /\ may_access V va (Z.of_nat (length bs))
  | VRead pid va len => exists sz V, A !! pid = Some (sz, V) /\ 0 <= va /\ 0 <= len /\ va + len <= MAXSZ /\ may_access V va len
  | VWait pid => is_Some (A !! pid)
  end.

(** ** The invariant *)

(** The pages of a process and of all processes. *)
Definition owned_by m (p : vproc) : list Z := p_kstack p :: pages m (p_pgdir p).
Definition owned m (ps : gmap Z vproc) : list Z := map_to_list ps ≫= (fun x => owned_by m x.2).

(** A process and what it is in the abstract machine. *)
Record proc_ok m (p : vproc) (x : uspace) : Prop := {
  po_sz : p_sz p = x.1;
  po_range : 0 < x.1 < MAXSZ;
  po_dir : page_ok (p_pgdir p);
  po_view : forall va, user va -> uview m (p_pgdir p) va = x.2 va;
  po_mapped : forall va, user va -> (x.2 va ≠ None <-> PGSIZE <= va < PGROUNDUP x.1);
}.

(** All pages [all] are free, owned by one process, or the kernel's. *)
Record vrel (all kern : list Z) s (A : gmap Z uspace) : Prop := {
  vr_free : exists free, free_list (v_km s) free /\ free ++ kern ++ owned (km_mem (v_km s)) (v_procs s) ≡ₚ all;
  vr_all : NoDup all /\ Forall page_ok all;
  vr_dom : forall pid, is_Some (v_procs s !! pid) <-> is_Some (A !! pid);
  vr_procs : forall pid p x, v_procs s !! pid = Some p -> A !! pid = Some x -> proc_ok (km_mem (v_km s)) p x;
}.

(** ** Ownership *)

Lemma owned_delete m ps pid p : ps !! pid = Some p -> owned m ps ≡ₚ owned_by m p ++ owned m (delete pid ps).
Proof. intros Hp. unfold owned. rewrite <- (map_to_list_delete ps pid p Hp). by rewrite bind_cons. Qed.

Lemma owned_insert m ps pid p : owned m (<[pid := p]> ps) ≡ₚ owned_by m p ++ owned m (delete pid ps).
Proof. rewrite <- insert_delete_eq. unfold owned. rewrite map_to_list_insert by apply lookup_delete_eq. by rewrite bind_cons. Qed.

Lemma owned_elem m ps pid p q : ps !! pid = Some p -> q ∈ owned_by m p -> q ∈ owned m ps.
Proof. intros Hp Hq. rewrite (owned_delete m ps pid p Hp). in_lists. Qed.

(** A change outside the pages of the processes [ps]. *)
Lemma procs_frame m m' (ps : gmap Z vproc) qs :
  Forall page_ok (owned m ps) -> Forall page_ok qs -> same_except qs m m' -> (forall q, q ∈ owned m ps -> q ∉ qs) ->
  owned m' ps = owned m ps /\ (forall pid p x, ps !! pid = Some p -> proc_ok m p x -> proc_ok m' p x).
Proof.
  intros Hok Hqs Hs Hdis. rewrite Forall_forall in Hok.
  assert (Hv : forall pid p, ps !! pid = Some p -> pages m' (p_pgdir p) = pages m (p_pgdir p) /\
                 forall va, user va -> uview m' (p_pgdir p) va = uview m (p_pgdir p) va).
  { intros pid p Hp. destruct (view_frame m m' (p_pgdir p) qs) as (E & _ & _ & U); [|done|done| |done].
    - apply Forall_forall. intros q Hq. apply Hok, (owned_elem m ps pid p); [done|]. unfold owned_by. in_lists.
    - intros q Hq. apply Hdis, (owned_elem m ps pid p); [done|]. unfold owned_by. in_lists. }
  split.
  - unfold owned. apply bind_ext_elem. intros [pid p] Hin%elem_of_map_to_list. unfold owned_by. cbn [snd]. by rewrite (proj1 (Hv pid p Hin)).
  - intros pid p x Hp [A1 A2 A3 A4 A5]. split; [done..| |done]. intros va Hva. rewrite (proj2 (Hv pid p Hp)) by done. by apply A4.
Qed.

(** One process, and the pages of everything else. *)
Lemma vrel_focus all kern s A pid x :
  vrel all kern s A -> A !! pid = Some x ->
  exists p free, v_procs s !! pid = Some p /\ proc_ok (km_mem (v_km s)) p x /\ space (v_km s) free (p_pgdir p) /\
    free ++ kern ++ owned (km_mem (v_km s)) (v_procs s) ≡ₚ all /\
    free ++ pages (km_mem (v_km s)) (p_pgdir p) ++ p_kstack p :: kern ++ owned (km_mem (v_km s)) (delete pid (v_procs s)) ≡ₚ all.
Proof.
  intros [(free & Hf & Hperm) [Hnd Hok] Hdom Hprocs] Hx. destruct (proj2 (Hdom pid)) as [p Hp]; [by eexists|].
  pose proof (Hprocs _ _ _ Hp Hx) as Hpo. exists p, free. split; [done|]. split; [done|].
  assert (Hall : free ++ pages (km_mem (v_km s)) (p_pgdir p) ++ p_kstack p :: kern ++ owned (km_mem (v_km s)) (delete pid (v_procs s)) ≡ₚ all).
  { rewrite <- Hperm, (owned_delete _ _ _ _ Hp). apply Permutation_app; [done|]. unfold owned_by.
    rewrite (Permutation_app_swap_app kern). cbn [app]. by rewrite <- Permutation_middle. }
  split; [|done]. rewrite <- Hall in Hnd, Hok. split; [done|apply Hpo| |].
  - apply Forall_app in Hok as [_ [? _]%Forall_app]. done.
  - rewrite app_assoc in Hnd. by apply NoDup_app in Hnd as (? & _).
Qed.

(** An operation on one process leaves the others alone. *)
Lemma vrel_update all kern s A pid p free free' k' sz' x' :
  vrel all kern s A -> v_procs s !! pid = Some p ->
  free ++ pages (km_mem (v_km s)) (p_pgdir p) ++ p_kstack p :: kern ++ owned (km_mem (v_km s)) (delete pid (v_procs s)) ≡ₚ all ->
  vstep (p_pgdir p) (v_km s) k' free free' -> proc_ok (km_mem k') (VProc (p_pgdir p) sz' (p_kstack p)) x' ->
  vrel all kern (VSys k' (<[pid := VProc (p_pgdir p) sz' (p_kstack p)]> (v_procs s))) (<[pid := x']> A).
Proof.
  intros [_ [Hnd Hok] Hdom Hprocs] Hp Hall [Hsp Hperm Hsame _] Hpo. set (m := km_mem (v_km s)) in *. set (d := p_pgdir p) in *.
  pose proof Hnd as Hnd'. pose proof Hok as Hok'. rewrite <- Hall, app_assoc in Hnd', Hok'.
  apply NoDup_app in Hnd' as (_ & Hdis & _). apply Forall_app in Hok' as [Hok1 [_ [_ Hok2]%Forall_app]%Forall_cons].
  destruct (procs_frame m (km_mem k') (delete pid (v_procs s)) (free ++ pages m d)) as [Eo Hpf]; [done|done|done| |].
  { intros q Hq Hq'. apply (Hdis q Hq'). in_lists. }
  split; cbn [v_km v_procs].
  - exists free'. split; [apply Hsp|]. rewrite owned_insert, Eo, <- Hall. unfold owned_by. cbn [p_pgdir p_kstack].
    rewrite (app_assoc free (pages m d)), <- Hperm, <- app_assoc. apply Permutation_app; [done|]. rewrite (Permutation_app_swap_app kern).
    cbn [app]. by rewrite <- Permutation_middle.
  - done.
  - intros pid'. rewrite !lookup_insert_is_Some'. by rewrite Hdom.
  - intros pid' q y. rewrite !lookup_insert_Some. intros [[<- <-]|[Hne Hq]] [[? <-]|[? Hy]]; try done.
    apply (Hpf pid'); [by rewrite lookup_delete_ne|by apply (Hprocs pid')].
Qed.

(** A process made from free pages. *)
Lemma vrel_new all kern s A free k2 free2 pid p x :
  vrel all kern s A -> free ++ kern ++ owned (km_mem (v_km s)) (v_procs s) ≡ₚ all -> v_procs s !! pid = None ->
  free_list k2 free2 -> free2 ++ owned_by (km_mem k2) p ≡ₚ free -> same_except free (km_mem (v_km s)) (km_mem k2) ->
  proc_ok (km_mem k2) p x -> vrel all kern (VSys k2 (<[pid := p]> (v_procs s))) (<[pid := x]> A).
Proof.
  intros [_ [Hnd Hok] Hdom Hprocs] Hall Hnew Hf2 Hperm Hsame Hpo. set (m := km_mem (v_km s)) in *.
  pose proof Hnd as Hnd'. pose proof Hok as Hok'. rewrite <- Hall in Hnd', Hok'.
  apply NoDup_app in Hnd' as (_ & Hdis & _). apply Forall_app in Hok' as [Hok1 [_ Hok2]%Forall_app].
  destruct (procs_frame m (km_mem k2) (v_procs s) free) as [Eo Hpf]; [done|done|done| |].
  { intros q Hq Hq'. apply (Hdis q Hq'). in_lists. }
  split; cbn [v_km v_procs].
  - exists free2. split; [done|]. rewrite owned_insert, delete_id, Eo, <- Hall, <- Hperm by done. rewrite <- app_assoc.
    apply Permutation_app; [done|]. apply Permutation_app_swap_app.
  - done.
  - intros pid'. rewrite !lookup_insert_is_Some'. by rewrite Hdom.
  - intros pid' q y. rewrite !lookup_insert_Some. intros [[<- <-]|[Hne Hq]] [[? <-]|[? Hy]]; try done.
    apply (Hpf pid'); [done|by apply (Hprocs pid')].
Qed.

(** A process whose pages have been freed. *)
Lemma vrel_gone all kern s A free k2 free2 pid p :
  vrel all kern s A -> v_procs s !! pid = Some p -> free ++ kern ++ owned (km_mem (v_km s)) (v_procs s) ≡ₚ all ->
  free_list k2 free2 -> free2 ≡ₚ free ++ owned_by (km_mem (v_km s)) p ->
  same_except (owned_by (km_mem (v_km s)) p) (km_mem (v_km s)) (km_mem k2) ->
  vrel all kern (VSys k2 (delete pid (v_procs s))) (delete pid A).
Proof.
  intros [_ [Hnd Hok] Hdom Hprocs] Hp Hall Hf2 Hperm Hsame. set (m := km_mem (v_km s)) in *.
  assert (Hall' : owned_by m p ++ free ++ kern ++ owned m (delete pid (v_procs s)) ≡ₚ all).
  { rewrite <- Hall, (owned_delete _ _ _ _ Hp). rewrite (Permutation_app_swap_app (owned_by m p) free). apply Permutation_app; [done|].
    apply Permutation_app_swap_app. }
  pose proof Hnd as Hnd'. pose proof Hok as Hok'. rewrite <- Hall' in Hnd', Hok'.
  apply NoDup_app in Hnd' as (_ & Hdis & _). apply Forall_app in Hok' as [Hok1 [_ [_ Hok2]%Forall_app]%Forall_app].
  destruct (procs_frame m (km_mem k2) (delete pid (v_procs s)) (owned_by m p)) as [Eo Hpf]; [done|done|done| |].
  { intros q Hq Hq'. apply (Hdis q Hq'). in_lists. }
  split; cbn [v_km v_procs].
  - exists free2. split; [done|]. by rewrite Eo, Hperm, <- Hall', <- app_assoc, (Permutation_app_swap_app free (owned_by m p)).
  - done.
  - intros pid'. rewrite !lookup_delete_is_Some. by rewrite Hdom.
  - intros pid' q y. rewrite !lookup_delete_Some. intros [Hne Hq] [_ Hy]. apply (Hpf pid'); [by rewrite lookup_delete_ne|by apply (Hprocs pid')].
Qed.

Definition voom (h : halt) (s : vsys) : Prop := h = Panic "Out of memory!".

Lemma wp_on_km {A} (c : MK A) (Q : A -> vsys -> Prop) s :
  wp c (fun a k => Q a (VSys k (v_procs s))) oom (v_km s) -> wp (on_km c) Q voom s.
Proof. unfold wp, on_km, oom, voom. by destruct (c (v_km s)) as [[a|h] k]. Qed.

Lemma wp_vproc_of pid p (Q : vproc -> vsys -> Prop) s : v_procs s !! pid = Some p -> Q p s -> wp (vproc_of pid) Q voom s.
Proof. intros Hp HQ. unfold vproc_of. do 2 wp_step. by eapply wp_of_option. Qed.

Lemma vsys_eta s : VSys (v_km s) (v_procs s) = s.
Proof. by destruct s. Qed.

(** ** Each operation refines the abstract machine *)

Abbreviation refines all kern s A op := (wp (vrun op) (fun r s' => exists A', astep A op r A' /\ vrel all kern s' A') voom s).

Lemma vwrite_refines all kern s A pid va bs : vrel all kern s A -> allowed A (VWrite pid va bs) -> refines all kern s A (VWrite pid va bs).
Proof.
  intros HR (sz & V & HA & H0 & Htop & Hbs & Hacc). destruct (vrel_focus _ _ _ _ _ _ HR HA) as (p & free & Hp & Hpo & Hsp & Hperm & Hall).
  pose proof Hpo as [E1 E2 E3 E4 E5]. cbn [fst snd] in *.
  cbn [vrun]. unfold vwrite. wp_step. wp_step. apply (wp_vproc_of pid p); [done|]. apply wp_on_km.
  eapply wp_total; [apply (copyout_spec _ free); [done|done|unfold USERTOP, MAXSZ in *; lia|done|]|].
  - intros y Hy. destruct (Hacc y Hy) as (b & f & Hv & Hf). exists b, f. split; [|done]. rewrite E4; [done|]. unfold user, USERTOP, MAXSZ in *. lia.
  - intros r k' (-> & Hst & HU). wp_step. exists (<[pid := (sz, uwrite va bs V)]> A). split; [by apply (AWrite A pid va bs (sz, V))|].
    rewrite <- (insert_id (v_procs s) pid p) by done. replace p with (VProc (p_pgdir p) (p_sz p) (p_kstack p)) at 1 by (by destruct p).
    eapply (vrel_update all kern s A pid p free free); [done|done|done|done|]. split; cbn [p_sz p_pgdir p_kstack fst snd]; [done|done|done| |].
    + intros y Hy. rewrite HU by done. unfold uwrite. by rewrite E4.
    + intros y Hy. rewrite <- E5 by done. unfold uwrite. destruct (decide _) as [Hr|Hr]; [|done]. destruct (V y) as [[b f]|]; [|done].
      destruct (lookup_lt_is_Some_2 bs (Z.to_nat (y - va))) as [b' ->]; [lia|done].
Qed.

Lemma vread_refines all kern s A pid va len : vrel all kern s A -> allowed A (VRead pid va len) -> refines all kern s A (VRead pid va len).
Proof.
  intros HR (sz & V & HA & H0 & Hlen & Htop & Hacc). destruct (vrel_focus _ _ _ _ _ _ HR HA) as (p & free & Hp & Hpo & Hsp & Hperm & Hall).
  pose proof Hpo as [E1 E2 E3 E4 E5]. cbn [fst snd] in *. cbn [vrun]. unfold vread. wp_step. apply (wp_vproc_of pid p); [done|]. apply wp_on_km.
  assert (Hu : forall y, va <= y < va + len -> user y) by (unfold user, USERTOP, MAXSZ in *; lia).
  eapply wp_total; [apply (copyin_spec (v_km s) (p_pgdir p)); [done|apply Hsp|done|done|done|]|].
  - intros y Hy. destruct (Hacc y Hy) as (b & f & Hv & Hf). exists b, f. split; [|done]. by rewrite E4 by (by apply Hu).
  - intros [r bs] k' (-> & Hr & Hl & Hsee). cbn [fst snd] in *. subst r. exists A. rewrite vsys_eta. split; [|done].
    apply (ARead A pid va len (sz, V)); [done|done|]. intros j b Hj. destruct (Hsee j b Hj) as [f Hf]. exists f. cbn [snd]. rewrite <- E4; [done|].
    apply Hu. pose proof (lookup_lt_Some _ _ _ Hj). lia.
Qed.

(** ** Growing *)

Lemma pgroundup_mono a b : 0 < a <= b -> b <= USERTOP -> PGSIZE <= PGROUNDUP a <= PGROUNDUP b.
Proof.
  intros Ha Hb. destruct (npages_user a) as [_ ->]; [lia|]. destruct (npages_user b) as [_ ->]; [lia|].
  pose proof (npages_mono a b ltac:(lia)). assert (0 < npages a) by (apply npages_spec; lia). unfold PGSIZE in *. lia.
Qed.

Lemma growproc_spec k free d sz n V :
  space k free d -> 0 < sz < MAXSZ -> - 2 ^ 63 <= n -> sz + n < MAXSZ -> sz + n ≠ 0 ->
  (forall va, user va -> uview (km_mem k) d va = V va) -> (forall va, user va -> PGROUNDUP sz <= va -> V va = None) ->
  wp (growproc d sz n)
     (fun r k' => exists free', r = Some (agrow n (sz, V)).1 /\ vstep d k k' free free' /\
        forall va, user va -> uview (km_mem k') d va = (agrow n (sz, V)).2 va) oom k.
Proof.
  intros Hsp Hsz Hn Htop Hnz HV Hnone. unfold MAXSZ in *. unfold growproc, agrow.
  destruct (Z.ltb_spec 0 n) as [Hpos|Hneg].
  - rewrite decide_True by done. unfold u64. rewrite Z.mod_small by lia. wp_step.
    eapply wp_conseq; [apply (allocuvm_spec k free d sz (sz + n)); [done|lia|unfold USERTOP; lia|]|].
    + intros va Hva. pose proof (pgroundup_mono sz sz ltac:(lia) ltac:(unfold USERTOP; lia)). rewrite HV; [apply Hnone; [|lia]|]; unfold user, USERTOP, PGSIZE in *; lia.
    + intros r k' (-> & free' & Hst & HU). wp_step. rewrite (proj2 (Z.eqb_neq _ _)) by done. exists free'. split_and!; [done|done|].
      intros va Hva. rewrite HU, HV by done. done.
  - rewrite decide_False by lia. destruct (Z.ltb_spec n 0) as [Hlt|Hge].
    2: { wp_step. rewrite decide_False by lia. exists free. split_and!; [done|by apply vstep_refl|done]. }
    wp_step. destruct (decide (0 < sz + n)) as [Hp|Hp].
    + rewrite decide_True by done. unfold u64. rewrite Z.mod_small by lia.
      eapply wp_total; [apply (deallocuvm_spec k free d sz (sz + n)); [done|lia|unfold USERTOP; lia]|].
      intros r k' (-> & free' & Hst & HU). wp_step. rewrite (proj2 (Z.eqb_neq _ _)) by done. exists free'. split_and!; [done|done|].
      intros va Hva. rewrite HU, HV by done. done.
    + rewrite decide_False by lia. assert (E : u64 (sz + n) = sz + n + 2 ^ 64).
      { unfold u64. symmetry. apply (Z.mod_unique _ _ (-1)); lia. }
      unfold deallocuvm. rewrite (proj2 (Z.leb_le _ _)) by lia. do 2 wp_step. rewrite (proj2 (Z.eqb_neq _ _)) by lia.
      exists free. split_and!; [done|by apply vstep_refl|done].
Qed.

Lemma agrow_mapped n sz V :
  0 < sz < MAXSZ -> sz + n < MAXSZ ->
  (forall va, user va -> (V va ≠ None <-> PGSIZE <= va < PGROUNDUP sz)) ->
  let x := agrow n (sz, V) in
  0 < x.1 < MAXSZ /\ forall va, user va -> (x.2 va ≠ None <-> PGSIZE <= va < PGROUNDUP x.1).
Proof.
  intros Hsz Htop Hm. unfold agrow. unfold MAXSZ in *. destruct (decide (0 < n)) as [Hp|Hp]; [|destruct (decide (n < 0 /\ 0 < sz + n)) as [Hq|Hq]]; cbn [fst snd].
  - split; [lia|]. intros va Hva. pose proof (pgroundup_mono sz (sz + n) ltac:(lia) ltac:(unfold USERTOP; lia)).
    destruct (decide _) as [Hr|Hr]; [|rewrite Hm by done; lia]. split; [lia|done].
  - split; [lia|]. intros va Hva. pose proof (pgroundup_mono (sz + n) sz ltac:(lia) ltac:(unfold USERTOP; lia)).
    destruct (decide _) as [Hr|Hr]; [|rewrite Hm by done; lia]. split; [done|lia].
  - done.
Qed.

Lemma vgrow_refines all kern s A pid n : vrel all kern s A -> allowed A (VGrow pid n) -> refines all kern s A (VGrow pid n).
Proof.
  intros HR (sz & V & HA & Hn & Htop & Hnz). destruct (vrel_focus _ _ _ _ _ _ HR HA) as (p & free & Hp & Hpo & Hsp & Hperm & Hall).
  pose proof Hpo as [E1 E2 E3 E4 E5]. cbn [fst snd] in *. subst sz.
  cbn [vrun]. unfold vgrow. wp_step. wp_step. apply (wp_vproc_of pid p); [done|]. wp_step. apply wp_on_km.
  eapply wp_conseq; [apply (growproc_spec (v_km s) free (p_pgdir p) (p_sz p) n V); [done..|]|].
  - intros va Hu Hva. destruct (V va) eqn:Ev; [|done]. assert (Hne : V va ≠ None) by congruence. apply E5 in Hne; [lia|done].
  - intros r k' (free' & -> & Hst & HU). unfold set_vproc. do 2 wp_step. do 2 wp_step. cbn [v_km v_procs].
    exists (<[pid := agrow n (p_sz p, V)]> A). split; [by apply (AGrow A pid n (p_sz p, V))|].
    eapply (vrel_update all kern s A pid p free free'); [done|done|done|done|].
    destruct (agrow_mapped n (p_sz p) V) as [Hr Hm]; [done..|]. by split.
Qed.

(** ** Forking *)

Lemma vfork_refines all kern s A parent child : vrel all kern s A -> allowed A (VFork parent child) -> refines all kern s A (VFork parent child).
Proof.
  intros HR [[[sz V] HA] Hchild]. destruct (vrel_focus _ _ _ _ _ _ HR HA) as (p & free & Hp & Hpo & Hsp & Hperm & Hall).
  pose proof Hpo as [E1 E2 E3 E4 E5]. cbn [fst snd] in *. subst sz. set (m := km_mem (v_km s)) in *.
  cbn [vrun]. unfold vfork. wp_step. wp_step. apply (wp_vproc_of parent p); [done|]. wp_step. apply wp_on_km.
  apply (kalloc_spec (v_km s) free); [apply Hsp|]. intros q free1 k1 -> Ek1 Hf1. rewrite Ek1 in Hf1 |- *.
  destruct (take_page (v_km s) q free1 (p_pgdir p) (km_free k1) m) as (Hq & Hnq & Hsp1 & _); [done|done|apply same_except_refl|apply Hsp|].
  change (set_mem m (set_free (km_free k1) (v_km s))) with (set_free (km_free k1) (v_km s)) in Hsp1.
  pose proof (page_ok_u64 q Hq). rewrite (proj2 (Z.eqb_neq q 0)) by lia. wp_step. apply wp_on_km. cbn [v_km v_procs].
  unfold u32. rewrite Z.mod_small by (unfold MAXSZ in *; lia).
  eapply wp_conseq; [apply (copyuvm_spec _ free1 (p_pgdir p) (p_sz p)); [exact Hsp1|unfold MAXSZ, USERTOP in *; lia|]|].
  { intros va Hva. cbn [km_mem set_free]. fold m. pose proof (pgroundup_mono (p_sz p) (p_sz p) ltac:(lia) ltac:(unfold MAXSZ, USERTOP in *; lia)).
    assert (Hu : user va) by (unfold user, USERTOP, MAXSZ, PGSIZE in *; lia). rewrite E4 by done. apply E5; [done|].
    destruct (npages_user (p_sz p)) as [_ Er]; [unfold MAXSZ, USERTOP in *; lia|]. rewrite Er. split; [lia|].
    assert (va / PGSIZE < npages (p_sz p)). { apply npages_spec. pose proof (Z.mul_div_le va PGSIZE ltac:(done)). lia. }
    pose proof (Z.div_mod va PGSIZE ltac:(done)). pose proof (Z.mod_pos_bound va PGSIZE ltac:(done)). unfold PGSIZE in *. lia. }
  intros d k2 (free2 & [Hsp2 Hperm2 Hs2 _] & HU2). cbn [km_mem set_free] in Hs2, HU2. fold m in Hs2, HU2.
  pose proof (page_ok_u64 d (sp_dir _ _ _ Hsp2)). rewrite (proj2 (Z.eqb_neq d 0)) by lia. unfold set_vproc. do 2 wp_step. wp_step. cbn [v_km v_procs].
  exists (<[child := (p_sz p, V)]> A). split; [by apply (AFork A parent child (p_sz p, V))|].
  assert (Hnone : v_procs s !! child = None).
  { destruct (v_procs s !! child) eqn:Ec; [|done]. destruct (proj1 (vr_dom _ _ _ _ HR child)) as [y Hy]; [by eexists|]. by rewrite Hchild in Hy. }
  eapply (vrel_new all kern s A (q :: free1) k2 free2); [done|done|done|apply Hsp2| | |].
  - unfold owned_by. cbn [p_kstack p_pgdir]. rewrite <- Permutation_middle. by apply Permutation_skip.
  - eapply same_except_weaken; [|exact Hs2]. intros y Hy. in_lists.
  - split; cbn [p_sz p_pgdir fst snd]; [done|done|apply Hsp2| |done]. intros va Hva. rewrite HU2, E4 by done.
    destruct (decide _) as [Hr|Hr]; [done|]. destruct (V va) eqn:Ev; [|done]. exfalso. apply Hr, E5; [done|congruence].
Qed.

(** ** Waiting *)

Lemma vwait_refines all kern s A pid : vrel all kern s A -> allowed A (VWait pid) -> refines all kern s A (VWait pid).
Proof.
  intros HR [[sz V] HA]. destruct (vrel_focus _ _ _ _ _ _ HR HA) as (p & free & Hp & Hpo & Hsp & Hperm & Hall). set (m := km_mem (v_km s)) in *.
  pose proof (vr_all _ _ _ _ HR) as [Hnd Hok]. rewrite <- Hall, app_assoc in Hnd, Hok.
  apply NoDup_app in Hnd as (Hnd1 & Hdis & _). apply Forall_app in Hok as [Hok1 [Hq _]%Forall_cons].
  assert (Hnq : p_kstack p ∉ free ++ pages m (p_pgdir p)) by (intros Hin; apply (Hdis _ Hin); in_lists).
  cbn [vrun]. unfold vwait. wp_step. wp_step. apply (wp_vproc_of pid p); [done|]. wp_step. apply wp_on_km.
  apply (kfree_spec (v_km s) free); [apply Hsp|done|intros Hin; apply Hnq; in_lists|]. intros k1 Hf1 Hs1 _ _. fold m in Hs1.
  destruct (view_frame m (km_mem k1) (p_pgdir p) [p_kstack p]) as (Ep & _); [apply Hsp|by constructor|done| |].
  { intros y Hy ->%list_elem_of_singleton. apply Hnq. in_lists. }
  wp_step. apply wp_on_km. cbn [v_km v_procs].
  assert (Hsp1 : space k1 (p_kstack p :: free) (p_pgdir p)).
  { split; [done|apply Hsp|rewrite Ep; apply Hsp|]. rewrite Ep. by apply NoDup_cons. }
  eapply wp_total; [by apply freevm_spec|]. intros ? k2 (free2 & Hf2 & E2 & Hs2 & _). rewrite Ep in E2, Hs2. do 2 wp_step. wp_step.
  exists (delete pid A). split; [constructor|]. cbn [v_km v_procs].
  eapply (vrel_gone all kern s A free k2 free2 pid p); [done|done|done|done| |].
  - rewrite E2. unfold owned_by. by rewrite <- Permutation_middle.
  - unfold owned_by. fold m. intros y Hy. rewrite (Hs2 y), (Hs1 y); [done| |].
    + intros q ->%list_elem_of_singleton. apply Hy. in_lists.
    + intros q Hin. apply Hy. in_lists.
Qed.

(** C4: the memory of the processes. All processes together are a machine in
    which each process has a size and a private memory: every fork, sbrk,
    access by the kernel and wait that is allowed either stops the kernel
    because memory is exhausted or does, to the page tables and frames in
    physical memory, exactly what the abstract machine does: the child of a
    fork sees the parent's bytes, new memory is zero, a write shows in one
    process and nowhere else, a read returns what the process sees.  Every page
    is at all times free, in one page table, in one mapping or a kernel stack,
    once: none leaks and none is shared.  [allowed] are the operations on
    existing processes that stay below 4 GB, do not shrink a process to size 0,
    and access only pages that the process has. *)
Theorem address_spaces_refine all kern s A op :
  vrel all kern s A -> allowed A op ->
  wp (vrun op) (fun r s' => exists A', astep A op r A' /\ vrel all kern s' A') voom s.
Proof.
  intros HR Hop. destruct op; [by apply vfork_refines|by apply vgrow_refines|by apply vwrite_refines|by apply vread_refines|by apply vwait_refines].
Qed.
End system.
