(* ===== verification/VmBoot.v ===== *)
(** * VmBoot: the first memory state

    [kinit1], [kvmalloc] and the memory side of [userinit] set up the state
    that the operations of VmSystem start from. *)
From S2P Require Import Prelude Mmu Kalloc PgTable Vm VmWalk VmSpace VmProc VmSystem.

Section boot.
Context `{Kernel}.
Implicit Types (m : Z -> Z) (k : kmem).

(** The first process: a kernel stack, a page table and the page of initcode,
    whose [sz] bytes are at [init] in the kernel image. *)
Definition vuserinit (init sz pid : Z) : M vsys unit :=
  kstack ← on_km kalloc;
  d ← on_km setupkvm;
  on_km (inituvm d init sz);;
  set_vproc pid (VProc d (PGSIZE * 2) kstack).

Definition vboot (vstart vend init sz pid : Z) : M vsys unit :=
  on_km (kinit1 vstart vend);;
  on_km kvmalloc;;
  vuserinit init sz pid.

(** ** The pages of a range *)

Definition range_pages (vstart vend : Z) : list Z :=
  let p := PGROUNDUP vstart in (fun i => p + PGSIZE * i) <$> seqZ 0 ((vend - p) / PGSIZE).

Lemma range_page_ok vstart vend i :
  kend <= vstart -> vstart <= vend -> vend <= KERNBASE + PHYSTOP -> 0 <= i -> PGROUNDUP vstart + PGSIZE * (i + 1) <= vend ->
  page_ok (PGROUNDUP vstart + PGSIZE * i).
Proof.
  intros Hs Hv He Hi Hlt. pose proof kend_low. unfold KERNBASE, PHYSTOP in *. rewrite pgroundup_spec in * by (unfold PGSIZE; lia).
  set (n := (vstart + PGSIZE - 1) / PGSIZE) in *. assert (Hn : vstart <= PGSIZE * n).
  { unfold n. pose proof (Z.div_mod (vstart + PGSIZE - 1) PGSIZE ltac:(done)). pose proof (Z.mod_pos_bound (vstart + PGSIZE - 1) PGSIZE ltac:(done)). lia. }
  split; [|unfold KERNBASE, PHYSTOP, PGSIZE in *; lia]. rewrite <- Z.mul_add_distr_l, Z.mul_comm. by apply Z.mod_mul.
Qed.

Lemma range_pages_ok vstart vend :
  kend <= vstart -> vstart <= vend -> vend <= KERNBASE + PHYSTOP -> NoDup (range_pages vstart vend) /\ Forall page_ok (range_pages vstart vend).
Proof.
  intros Hs Hv He. unfold range_pages. split.
  - apply (NoDup_fmap_2_strong _); [|apply NoDup_seqZ]. intros x y _ _ E. unfold PGSIZE in E. lia.
  - apply Forall_forall. intros q (i & -> & Hi%elem_of_seqZ)%list_elem_of_fmap. apply (range_page_ok vstart vend); [done..|lia|].
    pose proof (Z.mul_div_le (vend - PGROUNDUP vstart) PGSIZE ltac:(done)). unfold PGSIZE in *. lia.
Qed.

(** The allocator owns the whole pages of the range it is given. *)
Lemma kinit1_spec vstart vend k :
  kend <= vstart -> vstart <= vend -> vend <= KERNBASE + PHYSTOP -> mem_ok (km_mem k) ->
  wp (kinit1 vstart vend)
     (fun _ k' => exists free, free_list k' free /\ free ≡ₚ range_pages vstart vend /\
        same_except (range_pages vstart vend) (km_mem k) (km_mem k')) no_halt k.
Proof.
  intros Hs Hv He Hm. unfold kinit1, freerange. do 2 wp_step. set (p := PGROUNDUP vstart). set (n := (vend - p) / PGSIZE).
  set (f := fun i => p + PGSIZE * i). pose proof (Z.mul_div_le (vend - p) PGSIZE ltac:(done)) as Hn1. fold n in Hn1.
  assert (Hn2 : vend - p < PGSIZE * (n + 1)) by (unfold n; pose proof (Z.mul_succ_div_gt (vend - p) PGSIZE ltac:(done)); lia).
  destruct (range_pages_ok vstart vend) as [Hnd Hok]; [done..|].
  apply (wp_while (fun q k' => exists i free, q = f i /\ 0 <= i <= Z.max 0 n /\ free_list k' free /\ free ≡ₚ f <$> seqZ 0 i /\
           same_except (range_pages vstart vend) (km_mem k) (km_mem k')) (fun q => Z.to_nat (n - (q - p) / PGSIZE))).
  - exists 0, []. split_and!; [unfold f; lia|lia|lia| |done|apply same_except_refl]. split; [done|constructor|constructor|done].
  - rewrite Z.sub_diag. change (0 / PGSIZE) with 0. lia.
  - intros q k' (i & free & -> & Hi & Hf & Hperm & Hsame). unfold freerange_step. destruct (Z.leb_spec (f i + PGSIZE) vend) as [Hle|Hgt].
    + assert (Hin : i < n) by (unfold f, PGSIZE in *; lia). wp_step.
      assert (Hpi : f i ∈ range_pages vstart vend) by (apply list_elem_of_fmap; exists i; split; [done|apply elem_of_seqZ; fold p n; lia]).
      apply (kfree_spec k' free); [done|rewrite Forall_forall in Hok; by apply Hok| |].
      { rewrite Hperm. intros (j & Ej & Hj%elem_of_seqZ)%list_elem_of_fmap. unfold f, PGSIZE in Ej. lia. }
      intros k2 Hf2 Hs2 _ _. wp_step. split.
      * exists (i + 1), (f i :: free). split_and!; [unfold f, PGSIZE; lia|lia|lia|done| |].
        -- rewrite seqZ_app, fmap_app by lia. rewrite (seqZ_cons _ 1), (seqZ_nil _ (Z.pred 1)) by lia. rewrite Z.add_0_l. cbn [fmap list_fmap].
           by rewrite Hperm, Permutation_app_comm.
        -- eapply same_except_trans; [exact Hsame|]. eapply same_except_weaken; [|exact Hs2]. by intros ? ->%list_elem_of_singleton.
      * unfold f. replace (p + PGSIZE * i + PGSIZE - p) with ((i + 1) * PGSIZE) by lia. replace (p + PGSIZE * i - p) with (i * PGSIZE) by lia.
        rewrite !Z.div_mul by done. lia.
    + wp_step. exists free. split; [done|]. split; [|done]. rewrite Hperm. unfold range_pages. fold p n f.
      destruct (Z.le_gt_cases n 0); [by rewrite !seqZ_nil by lia|]. replace i with n; [done|]. unfold f, PGSIZE in *. lia.
Qed.

Lemma kvmalloc_spec k free :
  free_list k free ->
  wp kvmalloc (fun _ k' => exists p1 p2 free', free = p1 :: p2 :: free' /\ free_list k' free' /\ same_except [p1; p2] (km_mem k) (km_mem k')) oom k.
Proof.
  intros Hf. unfold kvmalloc. wp_step. apply (kalloc_spec k free); [done|]. intros p1 free1 k1 -> E1 Hf1.
  pose proof (fl_ok _ _ Hf) as [Hp1 _]%Forall_cons. pose proof (fl_nodup _ _ Hf) as [Hn1 _]%NoDup_cons.
  unfold kmemset, store64. do 2 wp_step. do 2 wp_step. set (k2 := set_mem _ _). wp_step.
  assert (Hs2 : same_except [p1] (km_mem k1) (km_mem k2)) by apply same_except_mset.
  assert (Hf2 : free_list k2 free1).
  { apply (free_list_frame k1 k2 free1 [p1]); [done|done|apply mem_ok_mset; [done|apply Hf1]|by constructor|done|]. by intros p ->%list_elem_of_singleton. }
  apply (kalloc_spec k2 free1); [done|]. intros p2 free2 k3 -> E3 Hf3.
  pose proof (fl_ok _ _ Hf2) as [Hp2 _]%Forall_cons. pose proof (fl_nodup _ _ Hf2) as [Hn2 _]%NoDup_cons.
  do 2 wp_step. do 2 wp_step. do 2 wp_step. do 2 wp_step. wp_step. set (k4 := set_mem _ _).
  exists p1, p2, free2. split; [done|].
  destruct (in_table p1 256) as [A1 B1]; [done|lia|]. destruct (in_table p2 0) as [A2 B2]; [done|lia|]. destruct (in_table p2 3) as [A3 B3]; [done|lia|].
  assert (Hs4 : same_except [p1; p2] (km_mem k3) (km_mem k4)).
  { cbn [km_mem set_mem k4]. eapply (same_except_then _ p2); [set_solver| |by apply (same_except_write64 p2)].
    eapply (same_except_then _ p2); [set_solver| |by apply (same_except_write64 p2)].
    eapply (same_except_then _ p1); [set_solver| |by apply (same_except_write64 p1)].
    eapply (same_except_then _ p2); [set_solver|apply same_except_refl|apply same_except_mset]. }
  split.
  - apply (free_list_frame k3 k4 free2 [p1; p2]); [done|done| | |done|].
    + cbn [km_mem set_mem k4]. do 3 apply mem_ok_write64. apply mem_ok_mset; [done|apply Hf3].
    + apply Forall_cons. split; [done|by apply Forall_singleton].
    + intros p [->| ->%list_elem_of_singleton]%elem_of_cons; set_solver.
  - eapply (same_except_trans _ _ (km_mem k3)); [|exact Hs4]. rewrite E3. cbn [km_mem set_free].
    eapply (same_except_then _ p1); [set_solver| |exact Hs2]. rewrite E1. apply same_except_refl.
Qed.

(** ** Booting *)

Lemma vrel_empty k free kern all :
  free_list k free -> free ++ kern ≡ₚ all -> NoDup all -> Forall page_ok all -> vrel all kern (VSys k ∅) ∅.
Proof.
  intros Hf Hall Hnd Hok. split; cbn [v_km v_procs].
  - exists free. split; [done|]. rewrite <- Hall. unfold owned. rewrite map_to_list_empty. cbn. by rewrite app_nil_r.
  - done.
  - intros pid. by rewrite !lookup_empty.
  - intros pid p x Hp. by rewrite lookup_empty in Hp.
Qed.

(** What initcode sees: [bs] at [PGSIZE], zeroes up to the end of the page. *)
Definition initcode_view m (init sz va : Z) : option (Z * Z) :=
  if decide (va / PGSIZE = 1) then Some (if decide (va - PGSIZE < sz) then m (init + (va - PGSIZE)) else 0, 7) else None.

Lemma vuserinit_spec all kern k free init sz pid m0 :
  free_list k free -> free ++ kern ≡ₚ all -> NoDup all -> Forall page_ok all -> 0 <= sz < PGSIZE ->
  (forall x p, init <= x < init + sz -> p ∈ free -> ~ in_page p x) -> (forall x, init <= x < init + sz -> km_mem k x = m0 x) ->
  wp (vuserinit init sz pid)
     (fun _ s' => vrel all kern s' {[pid := (PGSIZE * 2, initcode_view m0 init sz)]}) voom (VSys k ∅).
Proof.
  intros Hf Hall Hnd Hok Hsz Hinit Hm0. unfold vuserinit. wp_step. apply wp_on_km. cbn [v_km v_procs]. apply (kalloc_spec k free); [done|].
  intros q free1 k1 -> E1 Hf1. wp_step. apply wp_on_km. cbn [v_km v_procs]. eapply wp_conseq; [by apply setupkvm_spec|].
  intros d k2 (free2 & Hfr & HU). wp_step. apply wp_on_km. cbn [v_km v_procs]. assert (Em : km_mem k1 = km_mem k) by (by rewrite E1).
  eapply wp_conseq; [apply (inituvm_spec k2 free2 d init sz); [apply Hfr|done| |]|].
  - specialize (HU PGSIZE ltac:(done)). by apply uview_none in HU.
  - intros x p Hx Hp Hin. rewrite (fr_perm _ _ _ _ _ Hfr) in Hp. apply (Hinit x p); [done|set_solver|done].
  - intros ? k3 (free3 & Hst & HU3). unfold set_vproc. wp_step. cbn [v_km v_procs].
    pose proof (fresh_vstep _ _ _ _ _ _ _ Hfr Hst) as [Hsp3 Hp3 Hs3 _]. rewrite Em in Hs3.
    apply (vrel_new all kern (VSys k ∅) ∅ (q :: free1) k3 free3); cbn [v_km v_procs]; [by eapply vrel_empty| |done|apply Hsp3| | |].
    + unfold owned. rewrite map_to_list_empty. cbn [mbind list_bind]. by rewrite app_nil_r.
    + unfold owned_by. cbn [p_kstack p_pgdir]. rewrite <- Permutation_middle. by apply Permutation_skip.
    + eapply same_except_weaken; [|exact Hs3]. set_solver.
    + split; cbn [p_sz p_pgdir fst snd]; [done|done|apply Hsp3| |].
      * intros va Hva. rewrite HU3 by done. unfold initcode_view. destruct (decide (va / PGSIZE = 1)) as [E|E]; [|by apply HU].
        f_equal. f_equal. destruct (decide _) as [Hlt|]; [|done]. apply div_page in E. rewrite (fr_same _ _ _ _ _ Hfr); [rewrite Em; apply Hm0; lia|].
        intros p Hp Hin. apply (Hinit (init + (va - PGSIZE)) p); [lia|set_solver|done].
      * intros va Hva. unfold initcode_view. change (PGROUNDUP (PGSIZE * 2)) with (PGSIZE * 2).
        destruct (decide (va / PGSIZE = 1)) as [E|E]; [apply div_page in E; split; [intros _; unfold PGSIZE in *; lia|done]|]. split; [done|].
        intros Hr. exfalso. apply E, div_page. unfold PGSIZE in *. lia.
Qed.

(** Booting sets up the invariant of VmSystem for the first process. *)
Lemma vboot_spec vstart vend init sz pid k :
  kend <= vstart -> vstart <= vend -> vend <= KERNBASE + PHYSTOP -> mem_ok (km_mem k) -> 0 <= sz < PGSIZE ->
  init + sz <= PGROUNDUP vstart ->
  wp (vboot vstart vend init sz pid)
     (fun _ s' => exists kern, vrel (range_pages vstart vend) kern s' {[pid := (PGSIZE * 2, initcode_view (km_mem k) init sz)]}) voom (VSys k ∅).
Proof.
  intros Hs Hv He Hm Hsz Hinit. destruct (range_pages_ok vstart vend) as [Hnd Hok]; [done..|]. unfold vboot. wp_step. apply wp_on_km. cbn [v_km v_procs].
  eapply wp_total; [by apply kinit1_spec|]. intros ? k1 (free & Hf & Hperm & Hs1). wp_step. apply wp_on_km. cbn [v_km v_procs].
  eapply wp_conseq; [by apply kvmalloc_spec|]. intros ? k2 (p1 & p2 & free2 & -> & Hf2 & Hs2).
  assert (Hlow : forall x p, init <= x < init + sz -> p ∈ range_pages vstart vend -> ~ in_page p x).
  { intros x p Hx (i & -> & Hi%elem_of_seqZ)%list_elem_of_fmap Hin. unfold in_page, PGSIZE in *. lia. }
  assert (Hin2 : forall p, p ∈ p1 :: p2 :: free2 -> p ∈ range_pages vstart vend) by (intros p; by rewrite Hperm).
  eapply wp_conseq; [apply (vuserinit_spec (range_pages vstart vend) [p1; p2] k2 free2 init sz pid (km_mem k)); [done| |done|done|done| |]|].
  - rewrite <- Hperm. by rewrite Permutation_app_comm.
  - intros x p Hx Hp. apply Hlow; [done|]. apply Hin2. set_solver.
  - intros x Hx. rewrite (Hs2 x), (Hs1 x); [done| |].
    + intros p Hp. by apply Hlow.
    + intros p Hp. apply Hlow; [done|]. apply Hin2. set_solver.
  - intros ? s' HR. by exists [p1; p2].
Qed.
End boot.

Module VmInstances.
(** A kernel that ends at 2 MB, with 20 pages of memory behind it. *)
#[local] Instance small : Kernel.
Proof. refine {| kend := KERNBASE + 0x200000 |}; unfold KERNBASE, PHYSTOP; lia. Defined.

Definition vstart : Z := KERNBASE + 0x200000.
Definition vend : Z := vstart + 20 * PGSIZE.
Definition m0 : Z -> Z := fun x => x mod 256.
Definition start : vsys := VSys (Kmem m0 0 0 0) ∅.
(** The first process, with 16 bytes of code from the kernel image. *)
Definition booted : vsys := (vboot vstart vend (vstart - 16) 16 1 start).2.
Definition init_space : gmap Z uspace := {[1 := (PGSIZE * 2, initcode_view m0 (vstart - 16) 16)]}.

Lemma booted_ok : exists kern, vrel (range_pages vstart vend) kern booted init_space.
Proof.
  apply (wp_final (vboot vstart vend (vstart - 16) 16 1) (fun s' => exists kern, vrel (range_pages vstart vend) kern s' init_space) voom start).
  - apply (vboot_spec vstart vend (vstart - 16) 16 1 (Kmem m0 0 0 0)).
    + apply Z.le_refl.
    + unfold vend, PGSIZE. lia.
    + unfold vend, vstart, PHYSTOP, PGSIZE. lia.
    + intros x. by apply Z.mod_pos_bound.
    + unfold PGSIZE. lia.
    + unfold vstart, KERNBASE. rewrite pgroundup_spec by (unfold PGSIZE; lia). vm_compute. discriminate.
  - vm_compute. reflexivity.
Qed.

Lemma address_spaces_refine_witness :
  exists kern, vrel (range_pages vstart vend) kern booted init_space /\ allowed init_space (VFork 1 2) /\
    wp (vrun (VFork 1 2)) (fun r s' => exists A', astep init_space (VFork 1 2) r A' /\ vrel (range_pages vstart vend) kern s' A') voom booted.
Proof.
  destruct booted_ok as [kern HR]. exists kern. assert (Ha : allowed init_space (VFork 1 2)) by (split; [by eexists|done]).
  split; [exact HR|]. split; [exact Ha|]. exact (address_spaces_refine (range_pages vstart vend) kern booted init_space (VFork 1 2) HR Ha).
Defined.
End VmInstances.
