(* ===== verification/Grep.v ===== *)
(** * Grep: the pattern matcher and the line loop of grep.c

    Strings are lists of characters without their NUL; a pattern character
    past the end reads as NUL. *)
From S2P Require Import Prelude CString.

Definition CARET : Z := 94.
Definition DOT : Z := 46.
Definition STAR : Z := 42.
Definition DOLLAR : Z := 36.
Definition NEWLINE : Z := 10.

(** ** The matcher

    [matchstar(c, re, text)], with [here] for [matchhere(re, .)]. *)
Fixpoint matchstar (here : list Z -> bool) (c : Z) (text : list Z) : bool :=
  (here text ||
   match text with
   | [] => false
   | t :: text => ((t =? c) || (c =? DOT)) && matchstar here c text
   end)%bool.

Fixpoint matchhere (re text : list Z) {struct re} : bool :=
  match re with
  | [] => true
  | c :: re1 =>
      let one := match text with
                 | [] => false
                 | t :: text => (((c =? DOT) || (c =? t)) && matchhere re1 text)%bool
                 end in
      match re1 with
      | [] => if c =? DOLLAR then match text with [] => true | _ => false end else one
      | c1 :: re2 => if c1 =? STAR then matchstar (matchhere re2) c text else one
      end
  end.

(** [do { ... } while( *text++ != 0);] *)
Fixpoint match_loop (re text : list Z) : bool :=
  (matchhere re text || match text with [] => false | _ :: text => match_loop re text end)%bool.

Definition match_ (re text : list Z) : bool :=
  match re with
  | c :: re1 => if c =? CARET then matchhere re1 text else match_loop re text
  | [] => match_loop re text
  end.

(** ** Reading lines

    [while((q = strchr(p, newline)) != 0)]: what is written, the rest of the
    buffer, and whether a line was found.  [strchr] stops at the NUL after the
    buffer or at one inside it. *)
Fixpoint split_line (p : list Z) : option (list Z * list Z) :=
  match p with
  | [] => None
  | c :: p =>
      if c =? 0 then None
      else if c =? NEWLINE then Some ([], p)
      else match split_line p with Some (l, r) => Some (c :: l, r) | None => None end
  end.

Fixpoint grep_lines (fuel : nat) (pattern p : list Z) : list Z * list Z :=
  match fuel with
  | O => ([], p)
  | S fuel =>
      match split_line p with
      | None => ([], p)
      | Some (l, r) =>
          let '(out, rest) := grep_lines fuel pattern r in
          ((if match_ pattern l then l ++ [NEWLINE] else []) ++ out, rest)
      end
  end.

(** [sizeof(buf)] *)
Definition BUFSZ : nat := 1024.

Section grep.
(** How many bytes [read] returns when [input] is left and [n] are asked for. *)
Context (amount : list Z -> nat -> nat).

(** The loop of [grep]: [buf] are the [m] bytes kept; [None] if the fuel is
    not enough. *)
Fixpoint grep_loop (fuel : nat) (pattern buf input : list Z) : option (list Z) :=
  match fuel with
  | O => None
  | S fuel =>
      let n := amount input (BUFSZ - length buf - 1) in
      if (n =? 0)%nat then Some []
      else
        let buf := buf ++ take n input in
        let '(out, p) := grep_lines (length buf) pattern buf in
        let buf := if (length p =? length buf)%nat then [] else p in
        match grep_loop fuel pattern buf (drop n input) with
        | Some rest => Some (out ++ rest)
        | None => None
        end
  end.

(** Every round reads a byte, and the last one none. *)
Definition grep (pattern input : list Z) : option (list Z) := grep_loop (S (length input)) pattern [] input.
End grep.

(** A regular file: [read] returns what is asked for, up to the end. *)
Definition file_read (input : list Z) (n : nat) : nat := Nat.min n (length input).

(** ** What a pattern means *)

Inductive atom : Type := Any | Chr (c : Z).
Inductive item : Type := One (a : atom) | Star (a : atom).

Definition atom_of (c : Z) : atom := if c =? DOT then Any else Chr c.
Definition admits (a : atom) (t : Z) : Prop := match a with Any => True | Chr c => t = c end.

(** The items of a pattern and whether it ends in a dollar sign. *)
Fixpoint items (re : list Z) : list item * bool :=
  match re with
  | [] => ([], false)
  | c :: re1 =>
      let one := let '(its, e) := items re1 in (One (atom_of c) :: its, e) in
      match re1 with
      | [] => if c =? DOLLAR then ([], true) else one
      | c1 :: re2 => if c1 =? STAR then let '(its, e) := items re2 in (Star (atom_of c) :: its, e) else one
      end
  end.

(** The strings that a list of items describes. *)
Inductive lang : list item -> list Z -> Prop :=
| lang_nil : lang [] []
| lang_one a t its w : admits a t -> lang its w -> lang (One a :: its) (t :: w)
| lang_none a its w : lang its w -> lang (Star a :: its) w
| lang_more a t its w : admits a t -> lang (Star a :: its) w -> lang (Star a :: its) (t :: w).

(** A prefix of [text] is in the language, all of it if [e]. *)
Definition prefix_in (x : list item * bool) (text : list Z) : Prop :=
  exists w rest, text = w ++ rest /\ lang x.1 w /\ (x.2 = true -> rest = []).

Lemma admits_spec c t : admits (atom_of c) t <-> ((t =? c) || (c =? DOT))%bool = true.
Proof.
  unfold atom_of. destruct (c =? DOT) eqn:E; cbn; [by rewrite orb_true_r|]. rewrite orb_false_r. by rewrite Z.eqb_eq.
Qed.

Lemma prefix_one a its e text :
  prefix_in (One a :: its, e) text <-> exists t text', text = t :: text' /\ admits a t /\ prefix_in (its, e) text'.
Proof.
  split.
  - intros (w & rest & -> & Hl & He). inversion Hl as [|? t ? w' Ha Hw| |]; subst. exists t, (w' ++ rest). split; [done|].
    split; [done|]. by exists w', rest.
  - intros (t & text' & -> & Ha & w & rest & -> & Hl & He). exists (t :: w), rest. split; [done|]. split; [by constructor|done].
Qed.

Lemma prefix_star a its e text :
  prefix_in (Star a :: its, e) text <->
  prefix_in (its, e) text \/ exists t text', text = t :: text' /\ admits a t /\ prefix_in (Star a :: its, e) text'.
Proof.
  split.
  - intros (w & rest & -> & Hl & He). inversion Hl as [| |? ? ? Hw|? t ? w' Ha Hw]; subst; [left; by exists w, rest|].
    right. exists t, (w' ++ rest). split; [done|]. split; [done|]. by exists w', rest.
  - intros [(w & rest & -> & Hl & He)|(t & text' & -> & Ha & w & rest & -> & Hl & He)].
    + exists w, rest. split; [done|]. split; [by constructor|done].
    + exists (t :: w), rest. split; [done|]. split; [by apply lang_more|done].
Qed.

Lemma matchstar_spec here c its e :
  (forall text, here text = true <-> prefix_in (its, e) text) ->
  forall text, matchstar here c text = true <-> prefix_in (Star (atom_of c) :: its, e) text.
Proof.
  intros Hh text. induction text as [|t text IH]; cbn [matchstar]; rewrite orb_true_iff, prefix_star, Hh.
  - split; [intros [?|?]; [by left|done]|]. intros [?|(t & text' & ? & _)]; [by left|done].
  - rewrite andb_true_iff, <- admits_spec, IH. split; (intros [?|Hr]; [by left|right]).
    + destruct Hr. by exists t, text.
    + destruct Hr as (t' & text' & [= <- <-] & ? & ?). done.
Qed.

(** [matchhere] finds a prefix in the language of the pattern. *)
Lemma matchhere_spec : forall n re, (length re <= n)%nat -> forall text, matchhere re text = true <-> prefix_in (items re) text.
Proof.
  induction n as [|n IH]; intros re Hn text.
  { destruct re; [|cbn in Hn; lia]. cbn. split; [|done]. intros _. exists [], text. split; [done|]. by split; [constructor|]. }
  destruct re as [|c re1].
  { cbn. split; [|done]. intros _. exists [], text. split; [done|]. by split; [constructor|]. }
  cbn in Hn.
  assert (Hone : forall its e, items re1 = (its, e) ->
            (match text with [] => false | t :: text => (((c =? DOT) || (c =? t)) && matchhere re1 text)%bool end = true
             <-> prefix_in (One (atom_of c) :: its, e) text)).
  { intros its e E. rewrite prefix_one. destruct text as [|t text]; [split; [done|by intros (? & ? & ? & _)]|].
    rewrite andb_true_iff, (IH re1) by lia. rewrite E, (orb_comm (c =? DOT)), (Z.eqb_sym c t), <- admits_spec.
    split; [intros []; by exists t, text|]. by intros (t' & text' & [= <- <-] & ? & ?). }
  cbn [matchhere items]. destruct re1 as [|c1 re2].
  - destruct (c =? DOLLAR); [|by apply Hone]. destruct text as [|t text]; (split; [|]); try done.
    + intros _. exists [], []. split; [done|]. by split; [constructor|].
    + intros (w & rest & E & Hl & He). cbn in Hl. inversion Hl; subst. by rewrite He in E.
  - destruct (c1 =? STAR).
    + destruct (items re2) as [its e] eqn:E. apply matchstar_spec. intros text'. rewrite (IH re2) by (cbn in Hn; lia). by rewrite E.
    + destruct (items (c1 :: re2)) as [its e] eqn:E. by apply Hone.
Qed.

Lemma match_loop_spec re text :
  match_loop re text = true <-> exists pre text', text = pre ++ text' /\ prefix_in (items re) text'.
Proof.
  induction text as [|t text IH]; cbn [match_loop]; rewrite orb_true_iff, (matchhere_spec (length re)) by lia.
  - split; [intros [?|?]; [by exists [], []|done]|]. intros ([|] & text' & E & ?); [left; by rewrite E|done].
  - rewrite IH. split.
    + intros [?|(pre & text' & -> & ?)]; [by exists [], (t :: text)|by exists (t :: pre), text'].
    + intros ([|p pre] & text' & E & ?); cbn in E; [left; by rewrite E|]. injection E as -> ->. right. by exists pre, text'.
Qed.

(** C25: the matcher of grep.c decides the language that its patterns are
    documented to describe: a text matches exactly when some part of it is
    made of the pattern's items, a part at the start of the text if the
    pattern begins with a caret and at its end if it ends with a dollar. *)
Theorem match_decides_language re text :
  match_ re text = true <->
  exists pre w post, text = pre ++ w ++ post /\
    let caret := match re with c :: _ => c =? CARET | [] => false end in
    let x := items (if caret then drop 1 re else re) in
    lang x.1 w /\ (caret = true -> pre = []) /\ (x.2 = true -> post = []).
Proof.
  assert (Hno : match_loop re text = true <-> exists pre w post, text = pre ++ w ++ post /\
                  lang (items re).1 w /\ (false = true -> pre = []) /\ ((items re).2 = true -> post = [])).
  { rewrite match_loop_spec. split.
    - intros (pre & ? & -> & w & post & -> & ? & ?). by exists pre, w, post.
    - intros (pre & w & post & -> & ? & _ & ?). exists pre, (w ++ post). split; [done|]. by exists w, post. }
  destruct re as [|c re]; [exact Hno|]. cbn [match_]. cbv zeta. destruct (c =? CARET); [|exact Hno].
  cbn [drop]. rewrite (matchhere_spec (length re)) by lia. split.
  - intros (w & post & -> & ? & ?). by exists [], w, post.
  - intros (pre & w & post & -> & ? & Hp & ?). rewrite Hp by done. by exists w, post.
Qed.

(** ** The line loop prints the lines that match *)

(** The lines of a text that end in a newline, and what follows the last. *)
Fixpoint lines_of (cur text : list Z) : list (list Z) * list Z :=
  match text with
  | [] => ([], cur)
  | c :: text => if c =? NEWLINE then let '(ls, r) := lines_of [] text in (cur :: ls, r) else lines_of (cur ++ [c]) text
  end.

Definition show_matching (pattern : list Z) (ls : list (list Z)) : list Z :=
  concat (map (fun l => if match_ pattern l then l ++ [NEWLINE] else []) ls).

Definition no_nul (text : list Z) : Prop := Forall (fun c => c <> 0) text.

Lemma lines_of_app text' : forall text cur,
  lines_of cur (text ++ text') =
  let '(ls, r) := lines_of cur text in let '(ls', r') := lines_of r text' in (ls ++ ls', r').
Proof.
  induction text as [|c text IH]; intros cur; cbn [lines_of app]; [by destruct (lines_of cur text')|].
  destruct (c =? NEWLINE); [|apply IH]. rewrite IH. destruct (lines_of [] text) as [ls r].
  by destruct (lines_of r text').
Qed.

Lemma split_line_spec text : no_nul text ->
  match split_line text with
  | None => forall cur, lines_of cur text = ([], cur ++ text)
  | Some (l, r) => text = l ++ NEWLINE :: r /\
      forall cur, lines_of cur text = let '(ls, r') := lines_of [] r in ((cur ++ l) :: ls, r')
  end.
Proof.
  induction text as [|c text IH]; intros Hn; cbn [split_line lines_of]; [intros; by rewrite app_nil_r|].
  apply Forall_cons in Hn as [Hc Hn]. rewrite (proj2 (Z.eqb_neq c 0)) by done.
  destruct (Z.eqb_spec c NEWLINE) as [->|_]; [split; [done|]; intros; by rewrite app_nil_r|].
  specialize (IH Hn). destruct (split_line text) as [[l r]|].
  - destruct IH as [-> IH]. split; [done|]. intros cur. rewrite IH. destruct (lines_of [] r). by rewrite <- app_assoc.
  - intros cur. rewrite IH. by rewrite <- app_assoc.
Qed.

(** The lines of the buffer: all of them are looked at, and what is left is
    what follows the last. *)
Lemma grep_lines_spec pattern : forall fuel text, no_nul text -> (length text <= fuel)%nat ->
  grep_lines fuel pattern text = let '(ls, r) := lines_of [] text in (show_matching pattern ls, r).
Proof.
  induction fuel as [|fuel IH]; intros text Hn Hf; [destruct text; [done|cbn in Hf; lia]|].
  cbn [grep_lines]. pose proof (split_line_spec text Hn) as H. destruct (split_line text) as [[l r]|]; [|by rewrite H].
  destruct H as [-> H]. rewrite H. apply Forall_app in Hn as [_ Hn]. apply Forall_cons in Hn as [_ Hn].
  rewrite length_app in Hf. cbn in Hf. rewrite (IH r) by (done || lia). by destruct (lines_of [] r) as [ls r'].
Qed.

Lemma lines_of_rest : forall text cur ls r, lines_of cur text = (ls, r) ->
  (length r <= length cur + length text)%nat /\ (ls = [] -> r = cur ++ text) /\
  (ls <> [] -> (length r < length cur + length text)%nat) /\
  exists pre, cur ++ text = pre ++ r.
Proof.
  induction text as [|c text IH]; intros cur ls r; cbn [lines_of length].
  - intros [= <- <-]. split; [lia|]. split; [intros _; by rewrite app_nil_r|]. split; [done|]. exists []. by rewrite app_nil_r.
  - destruct (c =? NEWLINE).
    + destruct (lines_of [] text) as [ls' r'] eqn:E. intros [= <- <-]. apply IH in E as (? & ? & ? & pre & Hp). cbn in *.
      split; [lia|]. split; [done|]. split; [lia|]. exists (cur ++ c :: pre). rewrite Hp, <- app_assoc. done.
    + intros E. apply IH in E as (? & Hr & ? & pre & Hp). rewrite length_app in *. cbn in *.
      split; [lia|]. split; [intros; rewrite Hr by done; by rewrite <- app_assoc|]. split; [intros Hne; specialize (H0 Hne); lia|].
      exists pre. by rewrite <- Hp, <- app_assoc.
Qed.

(** A line fits in the buffer with its newline and the NUL. *)
Definition fits (l : list Z) : Prop := (length l + 2 <= BUFSZ)%nat.

Lemma lines_of_long : forall text cur cur', (BUFSZ <= length cur + 1)%nat -> Forall fits (lines_of cur text).1 ->
  (lines_of cur text).1 = [] /\ (lines_of cur' text).1 = [].
Proof.
  induction text as [|c text IH]; intros cur cur' Hl Hf; [done|]. cbn [lines_of] in *. destruct (c =? NEWLINE).
  - destruct (lines_of [] text). cbn in Hf. apply Forall_cons in Hf as [Hf _]. unfold fits in Hf. lia.
  - apply IH; [rewrite length_app; lia|done].
Qed.

Lemma lines_of_last : forall text cur ls r,
  lines_of [] cur = ([], cur) -> lines_of cur text = (ls, r) -> lines_of [] r = ([], r).
Proof.
  induction text as [|c text IH]; intros cur ls r Hc; cbn [lines_of]; [by intros [= <- <-]|].
  destruct (Z.eqb_spec c NEWLINE) as [->|Hne].
  - destruct (lines_of [] text) as [ls' r'] eqn:E. intros [= <- <-]. by apply (IH [] ls').
  - apply IH. rewrite lines_of_app, Hc. cbn. by rewrite (proj2 (Z.eqb_neq c NEWLINE)).
Qed.

Lemma grep_loop_spec pattern : forall fuel buf input,
  no_nul (buf ++ input) -> (length input < fuel)%nat -> (length buf + 1 < BUFSZ)%nat ->
  lines_of [] buf = ([], buf) -> Forall fits (lines_of buf input).1 ->
  grep_loop file_read fuel pattern buf input = Some (show_matching pattern (lines_of buf input).1).
Proof.
  induction fuel as [|fuel IH]; intros buf input Hn Hf Hb Hnl Hfit; [lia|].
  cbn [grep_loop]. unfold file_read at 1. set (n := Nat.min _ _).
  destruct (Nat.eqb_spec n 0) as [Hz|Hz].
  { assert (input = []) as -> by (destruct input; [done|]; unfold n in Hz; cbn [length] in Hz; lia). done. }
  fold (file_read input (BUFSZ - length buf - 1)). change (file_read input (BUFSZ - length buf - 1)) with n.
  assert (Hl : (n <= length input)%nat) by lia.
  assert (Hmax : (length buf + n + 1 <= BUFSZ /\ (n = length input \/ length buf + n + 1 = BUFSZ))%nat) by lia. clearbody n.
  pose proof Hn as Hn'. rewrite <- (take_drop n input), app_assoc in Hn'.
  apply Forall_app in Hn' as [Hn1 Hn2]. rewrite grep_lines_spec by done.
  destruct (lines_of [] (buf ++ take n input)) as [ls p] eqn:E.
  pose proof E as E'. rewrite lines_of_app, Hnl in E'.
  assert (Hbt : lines_of buf (take n input) = (ls, p)) by (destruct (lines_of buf (take n input)); exact E'). clear E'.
  pose proof (lines_of_app (drop n input) (take n input) buf) as Ha. rewrite (take_drop n input), Hbt in Ha.
  destruct (lines_of p (drop n input)) as [ls' r'] eqn:Er. rewrite Ha in Hfit |- *. cbn in Hfit |- *.
  apply Forall_app in Hfit as [Hfit1 Hfit2].
  destruct (lines_of_rest _ _ _ _ E) as (Hlen & Hnone & Hsome & pre & Hp). cbn [length Nat.add app] in Hlen, Hnone, Hsome, Hp.
  assert (Hsize : (length (buf ++ take n input) + 1 <= BUFSZ)%nat) by (rewrite length_app, length_take; lia).
  assert (Hd : (length (drop n input) < fuel)%nat) by (rewrite length_drop; lia).
  destruct (Nat.eqb_spec (length p) (length (buf ++ take n input))) as [Heq|Hne].
  - (* no newline in the buffer: it is dropped *)
    assert (ls = []) as -> by (destruct ls; [done|]; specialize (Hsome ltac:(done)); lia).
    assert (ls' = [] /\ (lines_of [] (drop n input)).1 = []) as [-> Hnil].
    { destruct (Nat.leb_spec BUFSZ (length p + 1)).
      - pose proof (lines_of_long (drop n input) p [] H) as HL. rewrite Er in HL. exact (HL Hfit2).
      - assert (n = length input) as Hall by (rewrite Heq, length_app, length_take in H; lia).
        rewrite Hall, drop_all in Er |- *. cbn in Er. by injection Er as <- _. }
    rewrite IH; [by rewrite Hnil|done|done|cbn; unfold BUFSZ; lia|done|by rewrite Hnil].
  - rewrite IH; [rewrite Er; cbn; unfold show_matching; by rewrite map_app, concat_app| | | | |].
    + rewrite Hp in Hn1. apply Forall_app in Hn1 as [_ Hn1]. by apply Forall_app.
    + done.
    + lia.
    + by apply (lines_of_last (buf ++ take n input) [] ls).
    + by rewrite Er.
Qed.

(** Grep on a regular file whose lines fit in its buffer ends and writes
    exactly the lines that match, in order; a last line without a newline is
    not looked at. *)
Theorem grep_prints_matching_lines pattern input :
  no_nul input -> Forall fits (lines_of [] input).1 ->
  grep file_read pattern input =
  Some (concat (map (fun l => if match_ pattern l then l ++ [NEWLINE] else []) (lines_of [] input).1)).
Proof. intros Hn Hf. apply grep_loop_spec; [done|lia|unfold BUFSZ; cbn [length]; lia|done|done]. Qed.

Module GrepInstances.
(** From a pipe, a line that arrives in two pieces is lost: the pieces before
    the last are dropped. *)
Definition pipe_read (k : nat) (input : list Z) (n : nat) : nat := Nat.min k (file_read input n).

Lemma grep_drops_partial_lines :
  grep (pipe_read 2) [97] [97; 98; 99; 10] = Some [] /\ grep file_read [97] [97; 98; 99; 10] = Some [97; 98; 99; 10].
Proof. vm_compute. done. Qed.

Lemma grep_prints_witness :
  grep file_read [97; 42; 98; 36] [97; 97; 98; 10; 98; 99; 10; 98; 10; 97] = Some [97; 97; 98; 10; 98; 10].
Proof.
  rewrite (grep_prints_matching_lines [97; 42; 98; 36] [97; 97; 98; 10; 98; 99; 10; 98; 10; 97]).
  - reflexivity.
  - repeat constructor; lia.
  - vm_compute. repeat constructor; lia.
Defined.
End GrepInstances.
