(* ===== verification/Printf.v ===== *)
(** * Printf: formatted output (printf.c, and the digits of console.c) *)
From S2P Require Import Prelude CString.

Definition digits : list Z := [48; 49; 50; 51; 52; 53; 54; 55; 56; 57; 97; 98; 99; 100; 101; 102].
(** [digits[i]] *)
Definition digit (i : Z) : Z := nth (Z.to_nat i) digits 0.

(** The loop of [print_x64] and [print_x32] on a [w]-bit word: [n] rounds are
    left. *)
Fixpoint print_hex (w : Z) (n : nat) (x : Z) : list Z :=
  match n with
  | O => []
  | S n => digit (Z.shiftr x (w - 4)) :: print_hex w n (Z.shiftl x 4 mod 2 ^ w)
  end.
Definition print_x64 (x : Z) : list Z := print_hex 64 16 x.
Definition print_x32 (x : Z) : list Z := print_hex 32 8 x.

(** [do { buf[i++] = digits[x % 10]; x /= 10; } while(x != 0);]: the bytes
    stored, in the order of [i]; [None] when they do not fit in the [room] that
    is left of [buf]. *)
Fixpoint print_d_loop (room : nat) (x : Z) : option (list Z) :=
  match room with
  | O => None
  | S room =>
      let x' := Z.quot x 10 in
      if x' =? 0 then Some [digit (Z.rem x 10)]
      else match print_d_loop room x' with Some buf => Some (digit (Z.rem x 10) :: buf) | None => None end
  end.

(** [-x] is taken on 64 bits and does not overflow. *)
Definition print_d (v : Z) : option (list Z) :=
  let x := if v <? 0 then - v else v in
  match print_d_loop 16 x with
  | None => None
  | Some buf =>
      let buf := if v <? 0 then buf ++ [45] else buf in
      if (length buf <=? 16)%nat then Some (rev buf) else None
  end.

Section printf.
(** The string a pointer argument points to. *)
Context (str : Z -> list Z).

Definition NULLSTR : list Z := [40; 110; 117; 108; 108; 41].

(** A directive after [%], on the next 64-bit argument slots: what is written
    and the slots left.  [None] when an argument is missing. *)
Definition directive (c : Z) (ap : list Z) : option (list Z * list Z) :=
  if c =? 37 then Some ([37], ap)
  else if bool_decide (c ∈ [99; 100; 120; 112; 115]) then
    match ap with
    | [] => None
    | a :: ap =>
        if c =? 99 then Some ([a mod 256], ap)
        else if c =? 100 then match print_d (s32 a) with Some l => Some (l, ap) | None => None end
        else if c =? 120 then Some (print_x32 (u32 a), ap)
        else if c =? 112 then Some (print_x64 a, ap)
        else Some (if a =? 0 then NULLSTR else str a, ap)
    end
  else Some ([37; c], ap).

Fixpoint printf (fmt : list Z) (ap : list Z) : option (list Z) :=
  match fmt with
  | [] => Some []
  | c :: fmt =>
      if c =? 37 then
        match fmt with
        | [] => Some []
        | c :: fmt =>
            match directive c ap with
            | None => None
            | Some (l, ap) => match printf fmt ap with Some r => Some (l ++ r) | None => None end
            end
        end
      else match printf fmt ap with Some r => Some (c :: r) | None => None end
  end.
End printf.

(** ** The numbers printed are read back *)

(** The value of decimal characters, the most significant first. *)
Fixpoint decimal (acc : Z) (l : list Z) : Z :=
  match l with [] => acc | c :: l => decimal (acc * 10 + (c - 48)) l end.

Definition is_digit (c : Z) : Prop := 48 <= c <= 57.

Lemma digit_decimal d : 0 <= d < 10 -> digit d = 48 + d.
Proof.
  intros H. assert (d = 0 \/ d = 1 \/ d = 2 \/ d = 3 \/ d = 4 \/ d = 5 \/ d = 6 \/ d = 7 \/ d = 8 \/ d = 9) as Hd by lia.
  repeat (destruct Hd as [->|Hd]; [reflexivity|]). by subst.
Qed.

Lemma decimal_snoc l c acc : decimal acc (l ++ [c]) = decimal acc l * 10 + (c - 48).
Proof. revert acc. induction l as [|d l IH]; intros acc; cbn; [done|apply IH]. Qed.

(** Enough room for [k] digits: the loop stores them, at least one and no
    leading zero (the last stored is the most significant). *)
Lemma print_d_loop_spec : forall k room x, 0 <= x < 10 ^ Z.of_nat (S k) -> (k < room)%nat ->
  exists buf, print_d_loop room x = Some buf /\ (1 <= length buf <= S k)%nat /\ Forall is_digit buf /\
    decimal 0 (rev buf) = x /\ (x <> 0 -> head (rev buf) <> Some 48).
Proof.
  induction k as [|k IH]; intros [|room] x Hx Hr; try lia; cbn [print_d_loop].
  - change (10 ^ Z.of_nat 1) with 10 in Hx. rewrite Z.quot_small, Z.rem_small, Z.eqb_refl by lia.
    exists [digit x]. rewrite digit_decimal by lia. split; [done|]. split; [cbn; lia|].
    split; [apply Forall_singleton; unfold is_digit; lia|]. cbn. split; [lia|]. intros ? [= ?]. lia.
  - assert (Hq : Z.quot x 10 = x / 10) by (apply Z.quot_div_nonneg; lia).
    assert (Hm : Z.rem x 10 = x mod 10) by (apply Z.rem_mod_nonneg; lia). rewrite Hq, Hm.
    pose proof (Z.mod_pos_bound x 10 ltac:(lia)) as Hb. pose proof (Z.div_mod x 10 ltac:(lia)) as Hd.
    destruct (Z.eqb_spec (x / 10) 0) as [Hz|Hz].
    + exists [digit (x mod 10)]. rewrite digit_decimal by lia. split; [done|]. split; [cbn; lia|].
      split; [apply Forall_singleton; unfold is_digit; lia|]. cbn. split; [lia|]. intros ? [= ?]. lia.
    + assert (0 <= x / 10 < 10 ^ Z.of_nat (S k)) as Hx'.
      { split; [apply Z.div_pos; lia|]. apply Z.div_lt_upper_bound; [lia|].
        replace (10 * 10 ^ Z.of_nat (S k)) with (10 ^ Z.of_nat (S (S k))); [lia|].
        rewrite (Nat2Z.inj_succ (S k)), Z.pow_succ_r by lia. lia. }
      destruct (IH room (x / 10) Hx' ltac:(lia)) as (buf & -> & Hl & Hf & Hv & Hh).
      exists (digit (x mod 10) :: buf). rewrite digit_decimal by lia. split; [done|]. split; [cbn; lia|].
      split; [apply Forall_cons; split; [unfold is_digit; lia|done]|]. cbn [rev]. rewrite decimal_snoc, Hv. split; [lia|].
      intros _. specialize (Hh ltac:(lia)). destruct (rev buf) as [|c l] eqn:E; [|done].
      apply (f_equal length) in E. rewrite length_rev in E. cbn in E. lia.
Qed.

Lemma s32_range x : is_s32 (s32 x).
Proof. unfold is_s32, s32. pose proof (Z.mod_pos_bound (x + 2 ^ 31) (2 ^ 32)). lia. Qed.

Lemma atoi_loop_decimal rest : forall l acc, Forall is_digit l -> is_s32 acc ->
  atoi_loop (l ++ 0 :: rest) acc = Some (s32 (decimal acc l)).
Proof.
  assert (Hmod : forall l a b, s32 a = s32 b -> s32 (decimal a l) = s32 (decimal b l)).
  { induction l as [|c l IH]; intros a b Hab; cbn; [done|]. apply IH. unfold s32 in *.
    assert ((a + 2 ^ 31) mod 2 ^ 32 = (b + 2 ^ 31) mod 2 ^ 32) as H by lia.
    replace (a * 10 + (c - 48) + 2 ^ 31) with ((a + 2 ^ 31) * 10 + (c - 48 - 9 * 2 ^ 31)) by lia.
    replace (b * 10 + (c - 48) + 2 ^ 31) with ((b + 2 ^ 31) * 10 + (c - 48 - 9 * 2 ^ 31)) by lia.
    f_equal. rewrite Z.add_mod, Z.mul_mod, H, <- Z.mul_mod, <- Z.add_mod by lia. done. }
  induction l as [|c l IH]; intros acc Hf Ha; cbn [app atoi_loop decimal].
  - cbn. by rewrite s32_id.
  - apply Forall_cons in Hf as [[H1 H2] Hf]. rewrite (proj2 (Z.leb_le 48 c)), (proj2 (Z.leb_le c 57)) by done. cbn [andb].
    rewrite IH by (done || apply s32_range). f_equal. apply Hmod.
    replace (acc * 10 + c - 48) with (acc * 10 + (c - 48)) by lia. apply s32_id, s32_range.
Qed.

(** C34: the decimal digits that printf writes for any 32-bit number fit in
    its buffer, have no leading zero, and atoi reads them back to the number's
    magnitude, as an int; a minus sign precedes them exactly when the number
    is negative. *)
Theorem print_d_atoi v rest : is_s32 v ->
  exists ds, print_d v = Some ((if v <? 0 then [45] else []) ++ ds) /\ (length ds <= 10)%nat /\
    (v <> 0 -> head ds <> Some 48) /\ atoi (ds ++ 0 :: rest) = Some (s32 (Z.abs v)).
Proof.
  intros Hv. unfold print_d, is_s32 in *.
  assert (0 <= Z.abs v < 10 ^ Z.of_nat 10) as Habs by (change (10 ^ Z.of_nat 10) with 10000000000; lia).
  destruct (print_d_loop_spec 9 16 _ Habs ltac:(lia)) as (buf & E & Hl & Hf & Hd & Hh).
  replace (if v <? 0 then - v else v) with (Z.abs v) by (destruct (Z.ltb_spec v 0); lia). rewrite E.
  exists (rev buf). split.
  { destruct (v <? 0); rewrite (proj2 (Nat.leb_le _ _)) by (rewrite ?length_app; cbn; lia); [by rewrite rev_app_distr|done]. }
  split; [rewrite length_rev; lia|]. split; [intros; apply Hh; lia|].
  unfold atoi. rewrite atoi_loop_decimal, Hd; [done|by apply Forall_rev|unfold is_s32; lia].
Qed.

(** The hexadecimal digits are those of the number. *)
Lemma print_hex_spec w : 4 <= w -> forall n x, 0 <= x < 2 ^ w -> Z.of_nat n * 4 <= w ->
  exists ds, print_hex w n x = map digit ds /\ length ds = n /\ Forall (fun d => 0 <= d < 16) ds /\
    foldl (fun a d => a * 16 + d) 0 ds = x / 2 ^ (w - 4 * Z.of_nat n).
Proof.
  intros Hw. assert (Hfold : forall ds a, foldl (fun a d => a * 16 + d) a ds = a * 16 ^ Z.of_nat (length ds) + foldl (fun a d => a * 16 + d) 0 ds).
  { induction ds as [|d ds IH]; intros a; cbn [foldl length]; [cbn; lia|].
    rewrite (IH (a * 16 + d)), (IH (0 * 16 + d)), Nat2Z.inj_succ, Z.pow_succ_r by lia. lia. }
  induction n as [|n IH]; intros x Hx Hn; cbn [print_hex].
  - exists []. do 3 (split; [done|]). cbn. rewrite Z.sub_0_r, Z.div_small by done. done.
  - assert (Hp : 2 ^ w = 16 * 2 ^ (w - 4)) by (rewrite <- (Z.pow_add_r 2 4) by lia; f_equal; lia).
    rewrite Z.shiftr_div_pow2, Z.shiftl_mul_pow2 by lia. change (2 ^ 4) with 16. rewrite Hp.
    rewrite (Z.mul_comm x 16), Z.mul_mod_distr_l by lia.
    set (r := x mod 2 ^ (w - 4)). assert (0 <= r < 2 ^ (w - 4)) by (apply Z.mod_pos_bound; lia).
    destruct (IH (16 * r) ltac:(lia) ltac:(lia)) as (ds & E & Hl & Hf & Hv). rewrite E.
    exists (x / 2 ^ (w - 4) :: ds). split; [done|]. split; [cbn; lia|].
    split; [apply Forall_cons; split; [|done]; split; [apply Z.div_pos; lia|apply Z.div_lt_upper_bound; lia]|].
    cbn [foldl]. rewrite Hfold, Hl, Hv. change 16 with (2 ^ 4) at 2. rewrite <- Z.pow_mul_r by lia.
    set (k := 4 * Z.of_nat n). replace (w - 4 * Z.of_nat (S n)) with (w - 4 - k) by lia.
    assert (Hk : 2 ^ (w - 4) = 2 ^ k * 2 ^ (w - 4 - k)) by (rewrite <- Z.pow_add_r by lia; f_equal; lia).
    assert (Hr : 16 * r / 2 ^ (w - k) = r / 2 ^ (w - 4 - k)).
    { replace (2 ^ (w - k)) with (16 * 2 ^ (w - 4 - k)); [apply Z.div_mul_cancel_l; lia|].
      change 16 with (2 ^ 4). rewrite <- Z.pow_add_r by lia. f_equal; lia. }
    assert (Hx' : x = r + x / 2 ^ (w - 4) * 2 ^ k * 2 ^ (w - 4 - k)).
    { rewrite <- Z.mul_assoc, <- Hk. pose proof (Z.div_mod x (2 ^ (w - 4)) ltac:(lia)). lia. }
    rewrite Hr, Hx' at 1. rewrite Hx' at 2. rewrite Z.div_add by lia. rewrite <- Hx'. lia.
Qed.

Module PrintfInstances.
(** The least int, through a conversion of a 64-bit slot. *)
Lemma printf_runs :
  printf (fun _ => [120; 118; 54]) [37; 115; 58; 37; 100; 37; 120] [1; 2 ^ 31; 255] =
  Some ([120; 118; 54; 58; 45] ++ [50; 49; 52; 55; 52; 56; 51; 54; 52; 56] ++ [48; 48; 48; 48; 48; 48; 102; 102]).
Proof. vm_compute. done. Qed.

Lemma print_d_atoi_witness : exists ds, print_d (-305) = Some ([45] ++ ds) /\ atoi (ds ++ [0]) = Some 305.
Proof.
  destruct (print_d_atoi (-305) [] ltac:(unfold is_s32; lia)) as (ds & H1 & _ & _ & H2).
  exists ds. split; [exact H1|exact H2].
Defined.
End PrintfInstances.
