(* ===== verification/Console.v ===== *)
(** * Console: screen, serial line and the input line buffer (console.c,
    uart.c, [procdump] of proc.c)

    The console's state with its devices: the CGA memory and cursor, what was
    sent on the serial line, the bytes waiting in the UART and in the keyboard
    controller, and the [input] buffer with its three counters of 32 bits. *)
From S2P Require Import Prelude CString Printf.

Definition INPUT_BUF : Z := 128.
Definition BACKSPACE : Z := 256.
(** 16-bit cells from 0xb8000 to 0xbffff. *)
Definition CRTCELLS : nat := Z.to_nat 16384.
(** [C(x)] *)
Definition CTRL (x : Z) : Z := x - 64.

Record input := mkInput { in_buf : list Z; in_r : Z; in_w : Z; in_e : Z }.

Record console := mkConsole {
  cn_panicked : bool;
  cn_locking : bool;
  cn_uart : bool;
  cn_sent : list Z;
  cn_crt : list Z;
  cn_pos : Z;
  cn_input : input;
  (** calls of [wakeup(&input.r)], and whether [lidt(0,0)] was executed *)
  cn_wakeups : nat;
  cn_noidt : bool;
  cn_uartq : list Z;
  cn_kbdq : list Z;
  cn_shift : Z;
}.

Definition cset_panicked v c := mkConsole v (cn_locking c) (cn_uart c) (cn_sent c) (cn_crt c) (cn_pos c) (cn_input c) (cn_wakeups c) (cn_noidt c) (cn_uartq c) (cn_kbdq c) (cn_shift c).
Definition cset_locking v c := mkConsole (cn_panicked c) v (cn_uart c) (cn_sent c) (cn_crt c) (cn_pos c) (cn_input c) (cn_wakeups c) (cn_noidt c) (cn_uartq c) (cn_kbdq c) (cn_shift c).
Definition cset_uart v c := mkConsole (cn_panicked c) (cn_locking c) v (cn_sent c) (cn_crt c) (cn_pos c) (cn_input c) (cn_wakeups c) (cn_noidt c) (cn_uartq c) (cn_kbdq c) (cn_shift c).
Definition cset_sent v c := mkConsole (cn_panicked c) (cn_locking c) (cn_uart c) v (cn_crt c) (cn_pos c) (cn_input c) (cn_wakeups c) (cn_noidt c) (cn_uartq c) (cn_kbdq c) (cn_shift c).
Definition cset_crt v c := mkConsole (cn_panicked c) (cn_locking c) (cn_uart c) (cn_sent c) v (cn_pos c) (cn_input c) (cn_wakeups c) (cn_noidt c) (cn_uartq c) (cn_kbdq c) (cn_shift c).
Definition cset_pos v c := mkConsole (cn_panicked c) (cn_locking c) (cn_uart c) (cn_sent c) (cn_crt c) v (cn_input c) (cn_wakeups c) (cn_noidt c) (cn_uartq c) (cn_kbdq c) (cn_shift c).
Definition cset_input v c := mkConsole (cn_panicked c) (cn_locking c) (cn_uart c) (cn_sent c) (cn_crt c) (cn_pos c) v (cn_wakeups c) (cn_noidt c) (cn_uartq c) (cn_kbdq c) (cn_shift c).
Definition cset_wakeups v c := mkConsole (cn_panicked c) (cn_locking c) (cn_uart c) (cn_sent c) (cn_crt c) (cn_pos c) (cn_input c) v (cn_noidt c) (cn_uartq c) (cn_kbdq c) (cn_shift c).
Definition cset_noidt v c := mkConsole (cn_panicked c) (cn_locking c) (cn_uart c) (cn_sent c) (cn_crt c) (cn_pos c) (cn_input c) (cn_wakeups c) v (cn_uartq c) (cn_kbdq c) (cn_shift c).
Definition cset_uartq v c := mkConsole (cn_panicked c) (cn_locking c) (cn_uart c) (cn_sent c) (cn_crt c) (cn_pos c) (cn_input c) (cn_wakeups c) (cn_noidt c) v (cn_kbdq c) (cn_shift c).
Definition cset_kbdq v c := mkConsole (cn_panicked c) (cn_locking c) (cn_uart c) (cn_sent c) (cn_crt c) (cn_pos c) (cn_input c) (cn_wakeups c) (cn_noidt c) (cn_uartq c) v (cn_shift c).
Definition cset_shift v c := mkConsole (cn_panicked c) (cn_locking c) (cn_uart c) (cn_sent c) (cn_crt c) (cn_pos c) (cn_input c) (cn_wakeups c) (cn_noidt c) (cn_uartq c) (cn_kbdq c) v.

(** ** Output *)

(** The wait for the transmitter gives up after 128 rounds. *)
Definition uartputc (c : Z) : M console unit :=
  uart ← gets cn_uart;
  when uart (modify (fun s => cset_sent (cn_sent s ++ [u8 c]) s)).

(** [crt[pos] = v] *)
Definition store_cell (pos v : Z) : M console unit :=
  if ((0 <=? pos) && (pos <? Z.of_nat CRTCELLS))%bool
  then modify (fun s => cset_crt (<[Z.to_nat pos := v]> (cn_crt s)) s)
  else halt_with OutOfBounds.

(** The two halves of [pos] go through the 8-bit data register. *)
Definition cgaputc (c : Z) : M console unit :=
  pos ← gets cn_pos;
  pos ← (if c =? 10 then mret (pos + (80 - pos mod 80))
         else if c =? BACKSPACE then mret (if 0 <? pos then pos - 1 else pos)
         else store_cell pos (Z.lor (Z.land c 255) 1792);; mret (pos + 1));
  pos ← (if 24 <=? pos / 80 then
           modify (fun s => cset_crt (splice 0 (slice 80 (23 * 80) (cn_crt s)) (cn_crt s)) s);;
           let pos := pos - 80 in
           when (24 * 80 <? pos) (halt_with OutOfBounds);;
           modify (fun s => cset_crt (splice (Z.to_nat pos) (replicate (Z.to_nat (24 * 80 - pos)) 0) (cn_crt s)) s);;
           mret pos
         else mret pos);
  modify (cset_pos (u16 pos));;
  store_cell pos (Z.lor 32 1792).

(** After a panic on another CPU, [consputc] stops for good. *)
Definition consputc (c : Z) : M console unit :=
  panicked ← gets cn_panicked;
  when panicked (halt_with WouldBlock);;
  (if c =? BACKSPACE then uartputc 8;; uartputc 32;; uartputc 8 else uartputc c);;
  cgaputc c.

(** [consputc] on each of the characters. *)
Definition consputs (l : list Z) : M console unit :=
  for_each (R := unit) l (fun c => consputc c;; mret None);; mret tt.

Section cprintf.
Context (str : Z -> list Z).

(** A directive of [cprintf] (there is no [%c]): the characters and the
    arguments left. *)
Definition cdirective (c : Z) (ap : list Z) : option (list Z * list Z) :=
  if c =? 37 then Some ([37], ap)
  else if bool_decide (c ∈ [100; 120; 112; 115]) then
    match ap with
    | [] => None
    | a :: ap =>
        if c =? 100 then match print_d (s32 a) with Some l => Some (l, ap) | None => None end
        else if c =? 120 then Some (print_x32 (u32 a), ap)
        else if c =? 112 then Some (print_x64 a, ap)
        else Some (if a =? 0 then NULLSTR else str a, ap)
    end
  else Some ([37; c], ap).

Fixpoint cprintf_loop (fmt ap : list Z) : M console unit :=
  match fmt with
  | [] => mret tt
  | c :: fmt =>
      if c =? 37 then
        match fmt with
        | [] => mret tt
        | c :: fmt =>
            match cdirective c ap with
            | None => halt_with OutOfBounds
            | Some (l, ap) => consputs l;; cprintf_loop fmt ap
            end
        end
      else consputc c;; cprintf_loop fmt ap
  end.

(** [fmt] is [None] for a null pointer. *)
Definition cprintf (fmt : option (list Z)) (ap : list Z) : M console unit :=
  match fmt with
  | None => panic "null fmt"
  | Some fmt => cprintf_loop fmt ap
  end.

(** [panic(s)] on the CPU [id], with the ten program counters of the stack:
    the message is itself a format. *)
Definition kpanic (id : Z) (s : list Z) (pcs : list Z) : M console unit :=
  modify (cset_locking false);;
  cprintf (Some [99; 112; 117; 37; 100; 58; 32; 112; 97; 110; 105; 99; 58; 32]) [id];;
  cprintf (Some s) [];;
  cprintf (Some [10]) [];;
  for_each (R := unit) pcs (fun pc => cprintf (Some [32; 37; 112; 10]) [pc];; mret None);;
  modify (cset_panicked true);;
  halt_with WouldBlock.
End cprintf.

(** A row of the process table as [procdump] sees it: the state's number, the
    name, and the program counters of a sleeping process's stack. *)
Record dump_row := mkRow { dr_pid : Z; dr_state : Z; dr_name : list Z; dr_pcs : list Z }.

Definition state_names : list (list Z) :=
  [[117; 110; 117; 115; 101; 100]; [101; 109; 98; 114; 121; 111]; [115; 108; 101; 101; 112; 32];
   [114; 117; 110; 98; 108; 101]; [114; 117; 110; 32; 32; 32]; [122; 111; 109; 98; 105; 101]].

Fixpoint take_nonzero (n : nat) (l : list Z) : list Z :=
  match n, l with S n, x :: l => if x =? 0 then [] else x :: take_nonzero n l | _, _ => [] end.

Definition procdump_row (p : dump_row) : M console unit :=
  if dr_state p =? 0 then mret tt
  else
    let state := default [63; 63; 63] (if 0 <=? dr_state p then state_names !! Z.to_nat (dr_state p) else None) in
    (* the two string arguments are the pointers 1 and 2 *)
    cprintf (fun a => if a =? 1 then state else dr_name p)
            (Some [37; 100; 32; 37; 115; 32; 37; 115]) [u32 (dr_pid p); 1; 2];;
    when (dr_state p =? 2)
      (for_each (R := unit) (take_nonzero 10 (dr_pcs p))
         (fun pc => cprintf (fun _ => []) (Some [32; 37; 112]) [pc];; mret None);; mret tt);;
    cprintf (fun _ => []) (Some [10]) [].

Definition procdump (rows : list dump_row) : M console unit :=
  for_each (R := unit) rows (fun p => procdump_row p;; mret None);; mret tt.

(** ** Input *)

Definition set_e (v : Z) (i : input) : input := mkInput (in_buf i) (in_r i) (in_w i) v.
Definition set_w (v : Z) (i : input) : input := mkInput (in_buf i) (in_r i) v (in_e i).
Definition set_r (v : Z) (i : input) : input := mkInput (in_buf i) v (in_w i) (in_e i).
(** [input.buf[k % INPUT_BUF]] *)
Definition cell (i : input) (k : Z) : Z := default 0 (in_buf i !! Z.to_nat (u32 k mod INPUT_BUF)).

(** [input.e--; consputc(BACKSPACE);] *)
Definition erase_one : M console unit :=
  modify (fun s => cset_input (set_e (u32 (in_e (cn_input s) - 1)) (cn_input s)) s);;
  consputc BACKSPACE.

(** The loop of control-U: at most [INPUT_BUF] characters are being edited. *)
Definition kill_line : M console unit :=
  while (S (Z.to_nat INPUT_BUF)) (fun _ : unit =>
    i ← gets cn_input;
    if (negb (in_e i =? in_w i) && negb (cell i (in_e i - 1) =? 10))%bool
    then erase_one;; mret (inl tt)
    else mret (inr tt)) tt.

(** [input.buf[input.e++ % INPUT_BUF] = c;] with [c] stored as a char. *)
Definition store_char (c : Z) (i : input) : input :=
  mkInput (<[Z.to_nat (in_e i mod INPUT_BUF) := u8 c]> (in_buf i)) (in_r i) (in_w i) (u32 (in_e i + 1)).

Section intr.
(** The process table, for control-P. *)
Context (rows : list dump_row).

(** The body of the loop of [consoleintr] on the character [c]. *)
Definition consoleintr_char (c : Z) : M console unit :=
  if c =? CTRL 90 then modify (cset_noidt true)
  else if c =? CTRL 80 then procdump rows
  else if c =? CTRL 85 then kill_line
  else if ((c =? CTRL 72) || (c =? 127))%bool then
    i ← gets cn_input;
    when (negb (in_e i =? in_w i)) erase_one
  else
    i ← gets cn_input;
    if (negb (c =? 0) && (u32 (in_e i - in_r i) <? INPUT_BUF))%bool then
      let c := if c =? 13 then 10 else c in
      modify (fun s => cset_input (store_char c (cn_input s)) s);;
      consputc c;;
      i ← gets cn_input;
      if ((c =? 10) || (c =? CTRL 68) || (in_e i =? u32 (in_r i + INPUT_BUF)))%bool then
        modify (fun s => cset_wakeups (S (cn_wakeups s)) (cset_input (set_w (in_e (cn_input s)) (cn_input s)) s))
      else mret tt
    else mret tt.

(** [consoleintr(getc)]: [fuel] bounds the characters the device has. *)
Definition consoleintr (fuel : nat) (getc : M console Z) : M console unit :=
  while fuel (fun _ : unit =>
    c ← getc;
    if 0 <=? c then consoleintr_char c;; mret (inl tt) else mret (inr tt)) tt.

Definition uartgetc : M console Z :=
  uart ← gets cn_uart;
  if negb uart then mret (-1)
  else
    q ← gets cn_uartq;
    match q with
    | [] => mret (-1)
    | c :: q => modify (cset_uartq q);; mret (u8 c)
    end.

Definition uartintr : M console unit :=
  q ← gets cn_uartq;
  consoleintr (S (length q)) uartgetc.
End intr.

(** How a critical section of [consoleread] ends: with the bytes copied, with
    -1 because the process was killed, or asleep with [n] still wanted. *)
Inductive cread : Type := CRDone (dst : list Z) | CRKilled | CRSleep (n : nat) (dst : list Z).

(** The loop of [consoleread]: [n] of [target] are wanted, [dst] was copied. *)
Fixpoint consoleread_loop (killed : bool) (target n : nat) (dst : list Z) (i : input) : cread * input :=
  match n with
  | O => (CRDone dst, i)
  | S n' =>
      if in_r i =? in_w i then (if killed then CRKilled else CRSleep n dst, i)
      else
        let c := cell i (in_r i) in
        let i' := set_r (u32 (in_r i + 1)) i in
        if c =? CTRL 68 then
          (CRDone dst, if (n <? target)%nat then set_r (u32 (in_r i' - 1)) i' else i')
        else if c =? 10 then (CRDone (dst ++ [c]), i')
        else consoleread_loop killed target n' (dst ++ [c]) i'
  end.

(** [consoleread] is called, or resumed with [n] wanted after it slept. *)
Definition consoleread (killed : bool) (target n : nat) (dst : list Z) : M console cread :=
  i ← gets cn_input;
  let '(r, i) := consoleread_loop killed target n dst i in
  modify (cset_input i);; mret r.

Definition consolewrite (buf : list Z) : M console Z :=
  consputs (map (fun c => Z.land c 255) buf);; mret (Z.of_nat (length buf)).

(** [uartearlyinit]: [present] says whether the line status read is not 0xFF. *)
Definition uartearlyinit (present : bool) : M console unit :=
  if present then
    modify (cset_uart true);;
    for_each (R := unit) [120; 118; 54; 46; 46; 46; 10] (fun c => uartputc c;; mret None);; mret tt
  else mret tt.

(** [uartinit] acknowledges what the UART has pending: one byte. *)
Definition uartinit : M console unit :=
  uart ← gets cn_uart;
  when uart (modify (fun s => cset_uartq (drop 1 (cn_uartq s)) s)).

Definition consoleinit : M console unit := modify (cset_locking true).
