(* ===== verification/ConsoleProof.v ===== *)
(** * ConsoleProof: the console implements a line discipline

    The specification is a terminal that holds the characters of finished
    lines and the line being edited; the implementation keeps both in one
    ring of [INPUT_BUF] bytes under three wrapping counters. *)
From S2P Require Import Prelude CString Printf Console.

(** ** Specification *)

Record tty := mkTty { t_ready : list Z; t_edit : list Z }.

Definition type_char (t : tty) (c : Z) : tty :=
  if bool_decide (c ∈ [CTRL 90; CTRL 80; 0]) then t
  else if c =? CTRL 85 then mkTty (t_ready t) []
  else if bool_decide (c ∈ [CTRL 72; 127]) then mkTty (t_ready t) (take (pred (length (t_edit t))) (t_edit t))
  else if Z.of_nat (length (t_ready t) + length (t_edit t)) <? INPUT_BUF then
    let c := if c =? 13 then 10 else c in
    let line := t_edit t ++ [c] in
    if (bool_decide (c ∈ [10; CTRL 68]) || (Z.of_nat (length (t_ready t) + length line) =? INPUT_BUF))%bool
    then mkTty (t_ready t ++ line) []
    else mkTty (t_ready t) line
  else t.

(** What a reader that still wants [n] characters of [target] is given: up to
    a newline, or an end of file, which is left for the next call if this one
    has characters. *)
Fixpoint read_ready (killed : bool) (target n : nat) (dst ready : list Z) : cread * list Z :=
  match n, ready with
  | O, _ => (CRDone dst, ready)
  | S _, [] => (if killed then CRKilled else CRSleep n dst, [])
  | S n', c :: rest =>
      if c =? CTRL 68 then (CRDone dst, if (n <? target)%nat then ready else rest)
      else if c =? 10 then (CRDone (dst ++ [c]), rest)
      else read_ready killed target n' (dst ++ [c]) rest
  end.

(** ** Representation *)

Definition input_rep (i : input) (t : tty) : Prop :=
  length (in_buf i) = 128%nat /\ is_u32 (in_r i) /\
  in_w i = u32 (in_r i + Z.of_nat (length (t_ready t))) /\
  in_e i = u32 (in_r i + Z.of_nat (length (t_ready t ++ t_edit t))) /\
  Z.of_nat (length (t_ready t ++ t_edit t)) <= INPUT_BUF /\
  (forall j x, (t_ready t ++ t_edit t) !! j = Some x ->
               in_buf i !! Z.to_nat ((in_r i + Z.of_nat j) mod INPUT_BUF) = Some x) /\
  Forall (fun c => c <> 10) (t_edit t).

Lemma u32_mod_128 k : u32 k mod INPUT_BUF = k mod INPUT_BUF.
Proof.
  unfold u32, INPUT_BUF. change (2 ^ 32) with (128 * 33554432). rewrite Z.rem_mul_r by lia.
  rewrite (Z.mul_comm 128), Z.mod_add by lia. apply Z.mod_mod. lia.
Qed.

Lemma u32_inj_add r a b : 0 <= a < 2 ^ 32 -> 0 <= b < 2 ^ 32 -> u32 (r + a) = u32 (r + b) -> a = b.
Proof.
  unfold u32. intros Ha Hb H.
  assert ((r + a - (r + b)) mod 2 ^ 32 = 0) as Hz by (rewrite Zminus_mod, H, Z.sub_diag; done).
  apply Z.mod_divide in Hz as [q Hq]; lia.
Qed.

Lemma u32_sub_add r a : 0 <= a < 2 ^ 32 -> u32 (u32 (r + a) - r) = a.
Proof. intros Ha. unfold u32. rewrite Zminus_mod_idemp_l. replace (r + a - r) with a by lia. by apply Z.mod_small. Qed.

Lemma u32_add_l a b : u32 (u32 a + b) = u32 (a + b).
Proof. unfold u32. by rewrite Zplus_mod_idemp_l. Qed.

Section rep.
Context (i : input) (t : tty) (Hrep : input_rep i t).

Lemma rep_len : 0 <= Z.of_nat (length (t_ready t)) <= 128 /\ 0 <= Z.of_nat (length (t_ready t ++ t_edit t)) <= 128.
Proof. destruct Hrep as (_ & _ & _ & _ & H & _). unfold INPUT_BUF in H. rewrite length_app in *. lia. Qed.

(** [input.e == input.w], [input.r == input.w] and the room that is left. *)
Lemma rep_edit_empty : (in_e i =? in_w i) = bool_decide (t_edit t = []).
Proof.
  pose proof rep_len as [? ?]. destruct Hrep as (_ & _ & Hw & He & _). rewrite Hw, He.
  destruct (Z.eqb_spec (u32 (in_r i + Z.of_nat (length (t_ready t ++ t_edit t)))) (u32 (in_r i + Z.of_nat (length (t_ready t)))))
    as [E|E]; symmetry.
  - apply bool_decide_eq_true. apply u32_inj_add in E; [|lia..]. rewrite length_app in E. destruct (t_edit t); [done|cbn in E; lia].
  - apply bool_decide_eq_false. intros Hnil. apply E. by rewrite Hnil, app_nil_r.
Qed.

Lemma rep_ready_empty : (in_r i =? in_w i) = bool_decide (t_ready t = []).
Proof.
  pose proof rep_len as [? ?]. destruct Hrep as (_ & Hr & Hw & _). rewrite Hw.
  destruct (Z.eqb_spec (in_r i) (u32 (in_r i + Z.of_nat (length (t_ready t))))) as [E|E]; symmetry.
  - apply bool_decide_eq_true. rewrite <- (u32_id (in_r i) Hr) in E at 1. rewrite <- (Z.add_0_r (in_r i)) in E at 1.
    apply u32_inj_add in E; [|lia..]. destruct (t_ready t); [done|cbn in E; lia].
  - apply bool_decide_eq_false. intros Hnil. apply E. rewrite Hnil, Z.add_0_r. by rewrite u32_id.
Qed.

Lemma rep_used : u32 (in_e i - in_r i) = Z.of_nat (length (t_ready t ++ t_edit t)).
Proof. pose proof rep_len as [? ?]. destruct Hrep as (_ & _ & _ & -> & _). apply u32_sub_add. lia. Qed.

Lemma rep_full : (in_e i =? u32 (in_r i + INPUT_BUF)) = (Z.of_nat (length (t_ready t ++ t_edit t)) =? INPUT_BUF).
Proof.
  pose proof rep_len as [? ?]. destruct Hrep as (_ & _ & _ & -> & _).
  destruct (Z.eqb_spec (Z.of_nat (length (t_ready t ++ t_edit t))) INPUT_BUF) as [->|Hne]; [by apply Z.eqb_refl|].
  apply Z.eqb_neq. intros E. apply u32_inj_add in E; [done|lia|unfold INPUT_BUF; lia].
Qed.

Lemma rep_cell j x : (t_ready t ++ t_edit t) !! j = Some x -> cell i (in_r i + Z.of_nat j) = x.
Proof.
  destruct Hrep as (_ & _ & _ & _ & _ & Hb & _). intros H. unfold cell. by rewrite u32_mod_128, (Hb j x H).
Qed.

(** Taking back the last character being edited. *)
Lemma rep_erase l c : t_edit t = l ++ [c] ->
  input_rep (set_e (u32 (in_e i - 1)) i) (mkTty (t_ready t) l) /\ cell i (in_e i - 1) = c.
Proof.
  intros E. pose proof rep_len as [? ?].
  assert (Hl : Z.of_nat (length (t_ready t ++ t_edit t)) = Z.of_nat (length (t_ready t ++ l)) + 1).
  { rewrite E, app_assoc, (length_app _ [c]). cbn. lia. }
  pose proof Hrep as (H1 & H2 & H3 & H4 & H5 & H6 & H7). split.
  - unfold input_rep. cbn. do 3 (split; [done|]). split; [|split; [lia|split]].
    + rewrite H4, Hl. unfold u32. rewrite Zminus_mod_idemp_l. f_equal. lia.
    + intros j x Hj. apply H6. rewrite E, app_assoc. by apply lookup_app_l_Some.
    + rewrite E in H7. by apply Forall_app in H7 as [? _].
  - replace (in_e i - 1) with (in_e i + -1) by lia. unfold cell. rewrite u32_mod_128, H4.
    rewrite <- (u32_mod_128 (u32 _ + -1)), u32_add_l, u32_mod_128, Hl.
    replace (in_r i + (Z.of_nat (length (t_ready t ++ l)) + 1) + -1) with (in_r i + Z.of_nat (length (t_ready t ++ l))) by lia.
    rewrite (H6 _ c); [done|]. rewrite E, app_assoc. by apply list_lookup_middle.
Qed.

(** Storing one more. *)
Lemma rep_store c : Z.of_nat (length (t_ready t ++ t_edit t)) < INPUT_BUF -> is_u8 c ->
  let i' := store_char c i in
  (c <> 10 -> input_rep i' (mkTty (t_ready t) (t_edit t ++ [c]))) /\
  input_rep (set_w (in_e i') i') (mkTty (t_ready t ++ t_edit t ++ [c]) []) /\
  in_e i' = u32 (in_r i + (Z.of_nat (length (t_ready t ++ t_edit t)) + 1)).
Proof.
  intros Hroom Hc i'. pose proof rep_len as [? ?]. destruct Hrep as (H1 & H2 & H3 & H4 & H5 & H6 & H7).
  set (l := t_ready t ++ t_edit t) in *.
  assert (He : in_e i' = u32 (in_r i + (Z.of_nat (length l) + 1))).
  { cbn. rewrite H4, u32_add_l. f_equal. lia. }
  assert (Hlen : Z.of_nat (length (l ++ [c])) = Z.of_nat (length l) + 1) by (rewrite length_app; cbn; lia).
  assert (Hbuf : forall j x, (l ++ [c]) !! j = Some x -> in_buf i' !! Z.to_nat ((in_r i + Z.of_nat j) mod INPUT_BUF) = Some x).
  { intros j x Hj. cbn. rewrite H4, u32_mod_128, (u8_id c) by done.
    assert (0 <= (in_r i + Z.of_nat (length l)) mod INPUT_BUF < 128) as Hp by (apply Z.mod_pos_bound; done).
    apply lookup_app_Some in Hj as [Hj|[Hge Hj]].
    - pose proof (lookup_lt_Some _ _ _ Hj). rewrite list_lookup_insert_ne; [by apply H6|].
      assert (0 <= (in_r i + Z.of_nat j) mod INPUT_BUF < 128) as Hp' by (apply Z.mod_pos_bound; done).
      intros E. assert ((in_r i + Z.of_nat (length l)) mod INPUT_BUF = (in_r i + Z.of_nat j) mod INPUT_BUF) as E' by lia.
      assert ((in_r i + Z.of_nat (length l) - (in_r i + Z.of_nat j)) mod INPUT_BUF = 0) as Hz.
      { rewrite Zminus_mod, E', Z.sub_diag. done. }
      unfold INPUT_BUF in *. apply Z.mod_divide in Hz as [q Hq]; lia.
    - apply list_lookup_singleton_Some in Hj as [Hj <-]. replace j with (length l) by lia.
      rewrite list_lookup_insert_eq by lia. done. }
  assert (Hlb : length (in_buf i') = 128%nat) by (cbn; by rewrite length_insert).
  assert (Hassoc : t_ready t ++ t_edit t ++ [c] = l ++ [c]) by (unfold l; by rewrite app_assoc).
  split; [|split; [|exact He]].
  - intros Hne. unfold input_rep. cbn [t_ready t_edit]. rewrite Hassoc, Hlen.
    do 3 (split; [done|]). split; [done|]. split; [lia|]. split; [exact Hbuf|]. apply Forall_app. split; [done|by apply Forall_singleton].
  - unfold input_rep. cbn [t_ready t_edit set_w in_buf in_r in_w in_e]. rewrite app_nil_r, Hassoc, Hlen.
    do 2 (split; [done|]). do 2 (split; [exact He|]). split; [lia|]. split; [exact Hbuf|constructor].
Qed.

(** Taking the oldest finished character, and putting it back. *)
Lemma rep_take c ready : t_ready t = c :: ready ->
  input_rep (set_r (u32 (in_r i + 1)) i) (mkTty ready (t_edit t)) /\ cell i (in_r i) = c /\
  set_r (u32 (u32 (in_r i + 1) - 1)) (set_r (u32 (in_r i + 1)) i) = i.
Proof.
  intros E. pose proof rep_len as [? ?]. pose proof Hrep as (H1 & H2 & H3 & H4 & H5 & H6 & H7). rewrite E in *.
  assert (Hs : forall a, u32 (u32 (in_r i + 1) + a) = u32 (in_r i + (1 + a))) by (intros; rewrite u32_add_l; f_equal; lia).
  split; [|split].
  - unfold input_rep. cbn [t_ready t_edit set_r in_buf in_r in_w in_e]. rewrite !Hs. cbn in H3, H4, H5.
    split; [done|]. split; [apply u32_range|]. split; [rewrite H3; f_equal; cbn; lia|]. split; [rewrite H4; f_equal; lia|].
    split; [lia|]. split; [|done]. intros j x Hj. rewrite <- u32_mod_128, Hs, u32_mod_128.
    replace (1 + Z.of_nat j) with (Z.of_nat (S j)) by lia. by apply H6.
  - rewrite <- (Z.add_0_r (in_r i)). apply (rep_cell 0). by rewrite E.
  - destruct i; cbn in *. unfold set_r. cbn. f_equal. unfold Z.sub. rewrite Hs. cbn. rewrite Z.add_0_r. by apply u32_id.
Qed.
End rep.

(** Reading is reading from the finished lines. *)
Lemma consoleread_loop_spec killed target : forall n dst i t, input_rep i t ->
  let '(r, i') := consoleread_loop killed target n dst i in
  let '(r', ready) := read_ready killed target n dst (t_ready t) in
  r = r' /\ input_rep i' (mkTty ready (t_edit t)).
Proof.
  induction n as [|n IH]; intros dst i t Hrep; cbn [consoleread_loop read_ready].
  - destruct t, t_ready0; done.
  - rewrite (rep_ready_empty i t Hrep). destruct (t_ready t) as [|c ready] eqn:E.
    + rewrite bool_decide_true by done. rewrite <- E. by destruct t.
    + rewrite bool_decide_false by done. destruct (rep_take i t Hrep c ready E) as (Hrep' & -> & Hback).
      destruct (c =? CTRL 68).
      { split; [done|]. destruct (S n <? target)%nat; [|done]. cbn [set_r in_r] in *. rewrite Hback, <- E. by destruct t. }
      destruct (c =? 10); [done|]. apply (IH (dst ++ [c]) _ _ Hrep').
Qed.

(** ** Output *)

(** The cursor is on the first 24 rows and the CPU is not frozen. *)
Definition screen_ok (s : console) : Prop :=
  cn_panicked s = false /\ length (cn_crt s) = CRTCELLS /\ 0 <= cn_pos s < 24 * 80.

(** Nothing but output happened. *)
Definition printed (s s' : console) : Prop :=
  screen_ok s' /\ exists sent crt pos, s' = cset_pos pos (cset_crt crt (cset_sent sent s)).

Lemma printed_refl s : screen_ok s -> printed s s.
Proof. intros H. split; [done|]. exists (cn_sent s), (cn_crt s), (cn_pos s). by destruct s. Qed.

Lemma printed_trans s s' s'' : printed s s' -> printed s' s'' -> printed s s''.
Proof. intros (_ & a & b & c & ->) (H & a' & b' & c' & ->). split; [done|]. by exists a', b', c'. Qed.

Lemma store_cell_spec pos v s (Q : unit -> console -> Prop) E : 0 <= pos < Z.of_nat CRTCELLS ->
  Q tt (cset_crt (<[Z.to_nat pos := v]> (cn_crt s)) s) -> wp (store_cell pos v) Q E s.
Proof.
  intros H HQ. unfold store_cell. rewrite (proj2 (Z.leb_le _ _)), (proj2 (Z.ltb_lt _ _)) by lia. by apply wp_modify.
Qed.

(** The screen: whatever the character, the cursor stays on the screen. *)
Lemma cgaputc_spec c s : screen_ok s -> wp (cgaputc c) (fun _ s' => printed s s') no_halt s.
Proof.
  intros (Hp & Hl & Hpos). assert (HC : Z.of_nat CRTCELLS = 16384) by done. unfold cgaputc. wp_step. wp_step.
  apply wp_bind.
  assert (Hstep : wp (if c =? 10 then mret (cn_pos s + (80 - cn_pos s mod 80))
         else if c =? BACKSPACE then mret (if 0 <? cn_pos s then cn_pos s - 1 else cn_pos s)
         else store_cell (cn_pos s) (Z.lor (Z.land c 255) 1792);; mret (cn_pos s + 1))
       (fun pos s' => 0 <= pos <= 24 * 80 /\ exists crt, length crt = CRTCELLS /\ s' = cset_crt crt s) no_halt s).
  { pose proof (Z.mod_pos_bound (cn_pos s) 80 ltac:(lia)). pose proof (Z.div_mod (cn_pos s) 80 ltac:(lia)).
    assert (cn_pos s / 80 < 24) by (apply Z.div_lt_upper_bound; lia).
    destruct (c =? 10); [|destruct (c =? BACKSPACE)].
    - wp_step. split; [lia|]. exists (cn_crt s). split; [done|by destruct s].
    - wp_step. split; [destruct (Z.ltb_spec 0 (cn_pos s)); lia|]. exists (cn_crt s). split; [done|by destruct s].
    - wp_step. apply store_cell_spec; [lia|]. wp_step. split; [lia|]. eexists. split; [|done]. by rewrite length_insert. }
  eapply wp_conseq; [exact Hstep|]. intros pos s1 (Hpos1 & crt & Hlc & ->). apply wp_bind.
  assert (Hscroll : wp (if 24 <=? pos / 80 then
           modify (fun s => cset_crt (splice 0 (slice 80 (23 * 80) (cn_crt s)) (cn_crt s)) s);;
           let pos := pos - 80 in
           when (24 * 80 <? pos) (halt_with OutOfBounds);;
           modify (fun s => cset_crt (splice (Z.to_nat pos) (replicate (Z.to_nat (24 * 80 - pos)) 0) (cn_crt s)) s);;
           mret pos
         else mret pos)
       (fun pos s' => 0 <= pos < 24 * 80 /\ exists crt, length crt = CRTCELLS /\ s' = cset_crt crt s) no_halt (cset_crt crt s)).
  { destruct (Z.leb_spec 24 (pos / 80)) as [Hge|Hlt].
    - assert (pos = 24 * 80) as -> by (pose proof (Z.mul_div_le pos 80 ltac:(lia)); lia).
      wp_step. wp_step. cbv zeta. wp_step. change (24 * 80 <? 24 * 80 - 80) with false. cbn [when]. wp_step. wp_step. wp_step. wp_step.
      split; [lia|]. eexists. split; [|done]. cbn [cn_crt cset_crt].
      assert (H80 : (80 + 23 * 80 <= length crt)%nat) by (rewrite Hlc; lia).
      rewrite !length_splice; rewrite ?length_splice; rewrite ?length_replicate, ?length_slice by lia; lia.
    - wp_step. split; [|by eexists]. assert (pos < 24 * 80); [|lia].
      apply Z.nle_gt. intros Hle. pose proof (Z.div_le_mono (24 * 80) pos 80 ltac:(lia) Hle). change (24 * 80 / 80) with 24 in *. lia. }
  eapply wp_conseq; [exact Hscroll|]. intros pos2 s2 (Hpos2 & crt2 & Hlc2 & ->). wp_step. wp_step.
  apply store_cell_spec; [lia|]. rewrite u16_id by (unfold is_u16; lia). split.
  - split; [done|]. cbn. split; [by rewrite length_insert|lia].
  - eexists (cn_sent s), _, pos2. by destruct s.
Qed.

Lemma uartputc_spec c s : screen_ok s -> wp (uartputc c) (fun _ s' => printed s s') no_halt s.
Proof.
  intros Hs. unfold uartputc. wp_step. wp_step. destruct (cn_uart s); cbn [when]; wp_step; [|by apply printed_refl].
  split; [done|]. exists (cn_sent s ++ [u8 c]), (cn_crt s), (cn_pos s). by destruct s.
Qed.

Lemma consputc_spec c s : screen_ok s -> wp (consputc c) (fun _ s' => printed s s') no_halt s.
Proof.
  intros Hs. unfold consputc. wp_step. wp_step. rewrite (proj1 Hs). cbn [when]. wp_step. wp_step. wp_step.
  assert (Hu : wp (if c =? BACKSPACE then uartputc 8;; uartputc 32;; uartputc 8 else uartputc c) (fun _ s' => printed s s') no_halt s).
  { destruct (c =? BACKSPACE); [|by apply uartputc_spec].
    wp_step. eapply wp_conseq; [by apply uartputc_spec|]. intros ? s1 H1. wp_step.
    eapply wp_conseq; [apply uartputc_spec, H1|]. intros ? s2 H2.
    eapply wp_conseq; [apply uartputc_spec, H2|]. intros ? s3 H3.
    exact (printed_trans _ _ _ H1 (printed_trans _ _ _ H2 H3)). }
  eapply wp_conseq; [exact Hu|]. intros ? s1 H1. eapply wp_conseq; [apply cgaputc_spec, H1|]. intros ? s2 H2.
  exact (printed_trans _ _ _ H1 H2).
Qed.

(** A loop whose body only prints only prints. *)
Lemma printing_loop {X} (xs : list X) (body : X -> M console (option unit)) s : screen_ok s ->
  (forall x s, screen_ok s -> wp (body x) (fun r s' => r = None /\ printed s s') no_halt s) ->
  wp (for_each xs body;; mret tt) (fun _ s' => printed s s') no_halt s.
Proof.
  intros Hs Hb. wp_step. eapply (wp_conseq _ (fun _ s' => printed s s')); [|intros ? s' ?; by wp_step].
  revert s Hs. induction xs as [|x xs IH]; intros s Hs; cbn [for_each]; [wp_step; by apply printed_refl|].
  wp_step. eapply wp_conseq; [by apply Hb|]. cbn. intros r s1 [-> H1]. eapply wp_conseq; [apply IH, H1|]. intros ? s2 H2.
  exact (printed_trans _ _ _ H1 H2).
Qed.

Lemma consputs_spec l s : screen_ok s -> wp (consputs l) (fun _ s' => printed s s') no_halt s.
Proof.
  intros Hs. apply printing_loop; [done|]. intros c s1 H1. wp_step. eapply wp_conseq; [by apply consputc_spec|].
  intros ? s2 H2. by wp_step.
Qed.

Lemma print_d_total v : is_s32 v -> exists l, print_d v = Some l.
Proof.
  intros Hv. unfold print_d, is_s32 in *.
  assert (0 <= (if v <? 0 then - v else v) < 10 ^ Z.of_nat 10) as Hx.
  { change (10 ^ Z.of_nat 10) with 10000000000. destruct (Z.ltb_spec v 0); lia. }
  destruct (print_d_loop_spec 9 16 _ Hx ltac:(lia)) as (buf & -> & Hl & _).
  destruct (v <? 0); rewrite (proj2 (Nat.leb_le _ _)) by (rewrite ?length_app; cbn; lia); by eexists.
Qed.

(** The arguments that the directives of a format consume. *)
Fixpoint nargs (fmt : list Z) : nat :=
  match fmt with
  | [] => 0
  | c :: fmt =>
      if c =? 37 then
        match fmt with
        | [] => 0
        | c :: fmt => ((if bool_decide (c ∈ [100; 120; 112; 115]%Z) then 1 else 0) + nargs fmt)%nat
        end
      else nargs fmt
  end.

Lemma cdirective_total str c ap k :
  ((if bool_decide (c ∈ [100; 120; 112; 115]%Z) then 1 else 0) + k <= length ap)%nat ->
  exists l ap', cdirective str c ap = Some (l, ap') /\ (k <= length ap')%nat.
Proof.
  unfold cdirective. destruct (Z.eqb_spec c 37) as [->|_]; [cbn; by eauto|].
  destruct (bool_decide (c ∈ [100; 120; 112; 115])); [|by eauto]. destruct ap as [|a ap]; cbn; [lia|]. intros Hk.
  destruct (c =? 100); [destruct (print_d_total (s32 a) (s32_range a)) as [l ->]; eexists _, _; split; [done|lia]|].
  destruct (c =? 120); [eexists _, _; split; [done|lia]|]. destruct (c =? 112); eexists _, _; (split; [done|lia]).
Qed.

(** With enough arguments the kernel's printf returns. *)
Lemma cprintf_spec str : forall k fmt ap s, (length fmt <= k)%nat -> (nargs fmt <= length ap)%nat -> screen_ok s ->
  wp (cprintf str (Some fmt) ap) (fun _ s' => printed s s') no_halt s.
Proof.
  cbn [cprintf]. induction k as [|k IH]; intros fmt ap s Hk Ha Hs; (destruct fmt as [|c fmt]; [cbn [cprintf_loop]; wp_step; by apply printed_refl|]);
    cbn in Hk; [lia|]. cbn [cprintf_loop nargs] in *. destruct (c =? 37).
  - destruct fmt as [|d fmt]; [wp_step; by apply printed_refl|].
    destruct (cdirective_total str d ap (nargs fmt) Ha) as (l & ap' & -> & Ha'). wp_step.
    eapply wp_conseq; [by apply consputs_spec|]. intros ? s1 H1. eapply wp_conseq; [apply IH; [cbn in Hk; lia|done|apply H1]|].
    intros ? s2 H2. exact (printed_trans _ _ _ H1 H2).
  - wp_step. eapply wp_conseq; [by apply consputc_spec|]. intros ? s1 H1.
    eapply wp_conseq; [apply IH; [lia|done|apply H1]|]. intros ? s2 H2. exact (printed_trans _ _ _ H1 H2).
Qed.

Lemma procdump_spec rows s : screen_ok s -> wp (procdump rows) (fun _ s' => printed s s') no_halt s.
Proof.
  intros Hs. apply printing_loop; [done|]. clear s Hs. intros p s Hs. wp_step.
  eapply (wp_conseq _ (fun _ s' => printed s s')); [|intros ? s' ?; by wp_step]. unfold procdump_row.
  destruct (dr_state p =? 0); [wp_step; by apply printed_refl|]. cbv zeta. wp_step.
  eapply wp_conseq; [eapply (cprintf_spec _ 8); [cbn; lia|by apply Nat.leb_le|done]|]. intros ? s1 H1. wp_step.
  eapply (wp_conseq _ (fun _ s' => printed s1 s')).
  { destruct (dr_state p =? 2); cbn [when]; [|wp_step; apply printed_refl, H1]. apply printing_loop; [apply H1|].
    intros pc s2 H2. wp_step. eapply wp_conseq; [eapply (cprintf_spec _ 3); [cbn; lia|by apply Nat.leb_le|done]|]. intros ? s3 H3. by wp_step. }
  intros ? s2 H2. eapply wp_conseq; [eapply (cprintf_spec _ 1); [cbn; lia|by apply Nat.leb_le|apply H2]|]. intros ? s3 H3.
  exact (printed_trans _ _ _ H1 (printed_trans _ _ _ H2 H3)).
Qed.

(** ** Input *)

(** The console represents the terminal [t]. *)
Definition console_rep (s : console) (t : tty) : Prop := screen_ok s /\ input_rep (cn_input s) t.

(** [s'] differs from [s] in the output, the input buffer, the wakeups and
    the interrupt table only: the devices' queues are as they were. *)
Definition devices_same (s s' : console) : Prop :=
  cn_uart s' = cn_uart s /\ cn_uartq s' = cn_uartq s /\ cn_kbdq s' = cn_kbdq s /\ cn_shift s' = cn_shift s.

Definition turned (s : console) (t : tty) (s' : console) : Prop := console_rep s' t /\ devices_same s s'.

Lemma printed_turned s s' t : printed s s' -> input_rep (cn_input s) t -> turned s t s'.
Proof. intros (H & a & b & c & ->) Hr. by split. Qed.

Lemma turned_trans s s' s'' t t' : turned s t s' -> turned s' t' s'' -> turned s t' s''.
Proof. unfold turned, devices_same. intuition congruence. Qed.

Lemma erase_one_spec s t l c : console_rep s t -> t_edit t = l ++ [c] ->
  wp erase_one (fun _ s' => turned s (mkTty (t_ready t) l) s') no_halt s.
Proof.
  intros [Hs Hr] E. unfold erase_one. wp_step. wp_step.
  eapply wp_conseq; [apply consputc_spec; exact Hs|]. intros ? s' (Hs' & a & b & d & ->).
  split; [split; [done|]|done]. exact (proj1 (rep_erase _ _ Hr l c E)).
Qed.

Definition kill_step : unit -> M console (unit + unit) := fun _ =>
  i ← gets cn_input;
  if (negb (in_e i =? in_w i) && negb (cell i (in_e i - 1) =? 10))%bool
  then erase_one;; mret (inl tt)
  else mret (inr tt).

Lemma kill_loop_spec : forall k s t fuel, console_rep s t -> (length (t_edit t) <= k)%nat -> (k < fuel)%nat ->
  wp (while fuel kill_step tt) (fun _ s' => turned s (mkTty (t_ready t) []) s') no_halt s.
Proof.
  induction k as [|k IH]; intros s t [|fuel] Ht Hk Hf; try lia; cbn [while]; wp_step; unfold kill_step at 1; wp_step; wp_step;
    rewrite (rep_edit_empty _ _ (proj2 Ht)); destruct (decide (t_edit t = [])) as [E|E].
  - rewrite bool_decide_true by done. cbn [negb andb]. wp_step. wp_step. split; [|done]. rewrite <- E. by destruct t.
  - destruct (t_edit t); [done|cbn in Hk; lia].
  - rewrite bool_decide_true by done. cbn [negb andb]. wp_step. wp_step. split; [|done]. rewrite <- E. by destruct t.
  - rewrite bool_decide_false by done. destruct (exists_last E) as (l & c & El).
    pose proof Ht as [_ Hr]. destruct (rep_erase _ _ Hr l c El) as [_ ->].
    assert (c <> 10) as Hc.
    { destruct Hr as (_ & _ & _ & _ & _ & _ & H). rewrite El in H. apply Forall_app in H as [_ H]. exact (Forall_inv H). }
    rewrite (proj2 (Z.eqb_neq c 10)) by done. cbn [negb andb]. wp_step. eapply wp_conseq; [by apply (erase_one_spec s t l c)|].
    intros ? s1 H1. wp_step. eapply wp_conseq.
    + apply (IH s1 (mkTty (t_ready t) l)); [apply H1| |lia]. cbn. rewrite El, length_app in Hk. cbn in Hk. lia.
    + intros ? s2 H2. exact (turned_trans _ _ _ _ _ H1 H2).
Qed.

Lemma kill_line_spec s t : console_rep s t -> wp kill_line (fun _ s' => turned s (mkTty (t_ready t) []) s') no_halt s.
Proof.
  intros Ht. apply (kill_loop_spec 128); [done| |unfold INPUT_BUF; lia]. destruct Ht as [_ Hr]. destruct (rep_len _ _ Hr) as [_ H].
  rewrite length_app in H. lia.
Qed.

(** One character typed. *)
Lemma consoleintr_char_spec rows c s t : console_rep s t -> is_u8 c ->
  wp (consoleintr_char rows c) (fun _ s' => turned s (type_char t c) s') no_halt s.
Proof.
  intros Ht Hc. pose proof Ht as [Hs Hr]. unfold consoleintr_char, type_char.
  assert (Hsame : turned s t s) by done.
  destruct (Z.eqb_spec c (CTRL 90)) as [->|H90].
  { rewrite bool_decide_true by (by left). wp_step. by split. }
  destruct (Z.eqb_spec c (CTRL 80)) as [->|H80].
  { rewrite bool_decide_true by (right; by left). eapply wp_conseq; [by apply procdump_spec|]. intros ? s' H. by apply printed_turned. }
  destruct (Z.eqb_spec c (CTRL 85)) as [->|H85].
  { rewrite bool_decide_false by (rewrite !elem_of_cons, elem_of_nil; unfold CTRL; lia). by apply kill_line_spec. }
  destruct (decide (c ∈ [CTRL 72; 127])) as [Hbs|Hbs].
  { rewrite (bool_decide_true (c ∈ [CTRL 72; 127])), bool_decide_false by (done || (intros H; revert H Hbs; rewrite !elem_of_cons, !elem_of_nil; unfold CTRL; lia)).
    replace ((c =? CTRL 72) || (c =? 127))%bool with true
      by (symmetry; rewrite orb_true_iff, !Z.eqb_eq; rewrite !elem_of_cons, elem_of_nil in Hbs; tauto).
    wp_step. wp_step. rewrite (rep_edit_empty _ _ Hr). destruct (decide (t_edit t = [])) as [E|E].
    - rewrite bool_decide_true, E by done. cbn [negb when]. wp_step. cbn [length pred take]. rewrite <- E. by destruct t.
    - rewrite bool_decide_false by done. cbn [negb when]. destruct (exists_last E) as (l & d & El).
      rewrite El, length_app. cbn [length]. replace (pred (length l + 1)) with (length l) by lia. rewrite take_app_length.
      by apply (erase_one_spec s t l d). }
  rewrite (bool_decide_false (c ∈ [CTRL 72; 127])) by done.
  replace ((c =? CTRL 72) || (c =? 127))%bool with false
    by (symmetry; rewrite orb_false_iff, !Z.eqb_neq; rewrite !elem_of_cons, elem_of_nil in Hbs; tauto).
  wp_step. wp_step. rewrite (rep_used _ _ Hr), length_app.
  destruct (Z.eqb_spec c 0) as [->|H0]; [rewrite bool_decide_true by (do 2 right; by left); cbn [negb andb]; by wp_step|].
  rewrite bool_decide_false by (rewrite !elem_of_cons, elem_of_nil; tauto). cbn [negb andb].
  destruct (Z.ltb_spec (Z.of_nat (length (t_ready t) + length (t_edit t))) INPUT_BUF) as [Hroom|Hfull]; [|by wp_step].
  cbv zeta. set (c' := if c =? 13 then 10 else c). assert (is_u8 c') as Hc' by (unfold c'; destruct (c =? 13); done).
  wp_step. wp_step. wp_step. eapply wp_conseq; [apply consputc_spec; exact Hs|].
  intros ? s' (Hs' & a & b & d & ->). wp_step. wp_step.
  assert (Hroom' : Z.of_nat (length (t_ready t ++ t_edit t)) < INPUT_BUF) by (rewrite length_app; lia).
  destruct (rep_store _ _ Hr c' Hroom' Hc') as (Hkeep & Hcommit & He). cbn [cn_input cset_pos cset_crt cset_sent cset_input] in *.
  set (i' := store_char c' (cn_input s)) in *.
  assert (Hend : ((c' =? 10) || (c' =? CTRL 68) || (in_e i' =? u32 (in_r i' + INPUT_BUF)))%bool =
                 (bool_decide (c' ∈ [10; CTRL 68]) || (Z.of_nat (length (t_ready t) + length (t_edit t ++ [c'])) =? INPUT_BUF))%bool).
  { f_equal.
    - apply eq_true_iff_eq. rewrite orb_true_iff, bool_decide_eq_true, !elem_of_cons, elem_of_nil, !Z.eqb_eq. tauto.
    - rewrite He. change (in_r i') with (in_r (cn_input s)). rewrite !length_app. cbn [length].
      destruct (Z.eqb_spec (Z.of_nat (length (t_ready t) + (length (t_edit t) + 1))) INPUT_BUF) as [E|E].
      + apply Z.eqb_eq. do 2 f_equal. lia.
      + apply Z.eqb_neq. intros H. apply u32_inj_add in H; unfold INPUT_BUF in *; lia. }
  rewrite Hend. clearbody c'.
  destruct (bool_decide (c' ∈ [10; CTRL 68]) || (Z.of_nat (length (t_ready t) + length (t_edit t ++ [c'])) =? INPUT_BUF))%bool eqn:Eb; wp_step.
  - split; [split; [done|exact Hcommit]|done].
  - split; [split; [done|]|done]. apply Hkeep. intros ->. rewrite bool_decide_true in Eb by (by left). done.
Qed.
