(* ===== verification/Kbd.v ===== *)
(** * Kbd: the keyboard driver (kbd.c, kbd.h) *)
From S2P Require Import Prelude CString Printf Console.

Definition SHIFT : Z := Z.shiftl 1 0.
Definition CTL : Z := Z.shiftl 1 1.
Definition ALT : Z := Z.shiftl 1 2.
Definition CAPSLOCK : Z := Z.shiftl 1 3.
Definition NUMLOCK : Z := Z.shiftl 1 4.
Definition SCROLLLOCK : Z := Z.shiftl 1 5.
Definition E0ESC : Z := Z.shiftl 1 6.

Definition KEY_HOME : Z := 224.
Definition KEY_END : Z := 225.
Definition KEY_UP : Z := 226.
Definition KEY_DN : Z := 227.
Definition KEY_LF : Z := 228.
Definition KEY_RT : Z := 229.
Definition KEY_PGUP : Z := 230.
Definition KEY_PGDN : Z := 231.
Definition KEY_INS : Z := 232.
Definition KEY_DEL : Z := 233.

(** A table with the given first entries and designated ones, as bytes; the
    others are zero. *)
Definition table (first : list Z) (designated : list (Z * Z)) (i : Z) : Z :=
  u8 (match List.find (fun p => p.1 =? i) designated with
      | Some p => p.2
      | None => nth (Z.to_nat i) first 0
      end).

Definition shiftcode : Z -> Z := table [] [(0x1D, CTL); (0x2A, SHIFT); (0x36, SHIFT); (0x38, ALT); (0x9D, CTL); (0xB8, ALT)].
Definition togglecode : Z -> Z := table [] [(0x3A, CAPSLOCK); (0x45, NUMLOCK); (0x46, SCROLLLOCK)].

(** The keys after an escape: the arrows and their neighbours. *)
Definition extended (enter slash : Z) : list (Z * Z) :=
  [(0x9C, enter); (0xB5, slash); (0xC8, KEY_UP); (0xD0, KEY_DN); (0xC9, KEY_PGUP); (0xD1, KEY_PGDN);
   (0xCB, KEY_LF); (0xCD, KEY_RT); (0x97, KEY_HOME); (0xCF, KEY_END); (0xD2, KEY_INS); (0xD3, KEY_DEL)].

Definition keypad : list Z :=
  [0; 0; 0; 0; 0; 0; 0; 55; 56; 57; 45; 52; 53; 54; 43; 49; 50; 51; 48; 46; 0; 0; 0; 0].

Definition normalmap : Z -> Z :=
  table ([0; 27; 49; 50; 51; 52; 53; 54; 55; 56; 57; 48; 45; 61; 8; 9;
          113; 119; 101; 114; 116; 121; 117; 105; 111; 112; 91; 93; 10; 0; 97; 115;
          100; 102; 103; 104; 106; 107; 108; 59; 39; 96; 0; 92; 122; 120; 99; 118;
          98; 110; 109; 44; 46; 47; 0; 42; 0; 32; 0; 0; 0; 0; 0; 0] ++ keypad)
        (extended 10 47).

Definition shiftmap : Z -> Z :=
  table ([0; 27; 33; 64; 35; 36; 37; 94; 38; 42; 40; 41; 95; 43; 8; 9;
          81; 87; 69; 82; 84; 89; 85; 73; 79; 80; 123; 125; 10; 0; 65; 83;
          68; 70; 71; 72; 74; 75; 76; 58; 34; 126; 0; 124; 90; 88; 67; 86;
          66; 78; 77; 60; 62; 63; 0; 42; 0; 32; 0; 0; 0; 0; 0; 0] ++ keypad)
        (extended 10 47).

Definition ctlmap : Z -> Z :=
  table [0; 0; 0; 0; 0; 0; 0; 0; 0; 0; 0; 0; 0; 0; 0; 0;
         CTRL 81; CTRL 87; CTRL 69; CTRL 82; CTRL 84; CTRL 89; CTRL 85; CTRL 73;
         CTRL 79; CTRL 80; 0; 0; 13; 0; CTRL 65; CTRL 83;
         CTRL 68; CTRL 70; CTRL 71; CTRL 72; CTRL 74; CTRL 75; CTRL 76; 0;
         0; 0; 0; CTRL 92; CTRL 90; CTRL 88; CTRL 67; CTRL 86;
         CTRL 66; CTRL 78; CTRL 77; 0; 0; CTRL 47; 0; 0]
        (extended 13 (CTRL 47)).

(** [charcode[k]] *)
Definition charcode (k : Z) : Z -> Z :=
  if k =? 0 then normalmap else if k =? 1 then shiftmap else ctlmap.

(** What [kbdgetc] does with the data byte of the controller: the new
    [shift] and the character. *)
Definition kbd_data (shift data : Z) : Z * Z :=
  if data =? 0xE0 then (Z.lor shift E0ESC, 0)
  else if negb (Z.land data 0x80 =? 0) then
    let data := if negb (Z.land shift E0ESC =? 0) then data else Z.land data 0x7F in
    (Z.land shift (Z.lnot (Z.lor (shiftcode data) E0ESC)), 0)
  else
    let '(data, shift) :=
      if negb (Z.land shift E0ESC =? 0) then (Z.lor data 0x80, Z.land shift (Z.lnot E0ESC)) else (data, shift) in
    let shift := Z.lor shift (shiftcode data) in
    let shift := Z.lxor shift (togglecode data) in
    let c := charcode (Z.land shift (Z.lor CTL SHIFT)) data in
    (shift,
     if negb (Z.land shift CAPSLOCK =? 0) then
       if ((97 <=? c) && (c <=? 122))%bool then c + (65 - 97)
       else if ((65 <=? c) && (c <=? 90))%bool then c + (97 - 65)
       else c
     else c).

Definition kbdgetc : M console Z :=
  q ← gets cn_kbdq;
  match q with
  | [] => mret (-1)
  | data :: q =>
      modify (cset_kbdq q);;
      shift ← gets cn_shift;
      let '(shift, c) := kbd_data shift (u8 data) in
      modify (cset_shift shift);;
      mret c
  end.

Definition kbdintr (rows : list dump_row) : M console unit :=
  q ← gets cn_kbdq;
  consoleintr rows (S (length q)) kbdgetc.
