(* ===== verification/ConsoleTheorems.v ===== *)
(** * ConsoleTheorems: what is typed is what is read *)
From S2P Require Import Prelude CString Printf Console ConsoleProof Kbd.

(** ** The devices *)

(** The characters that the keyboard's data bytes stand for, and [shift]
    after them. *)
Fixpoint kbd_codes (shift : Z) (q : list Z) : list Z :=
  match q with
  | [] => []
  | data :: q => (kbd_data shift (u8 data)).2 :: kbd_codes (kbd_data shift (u8 data)).1 q
  end.
Definition kbd_shift (shift : Z) (q : list Z) : Z := foldl (fun sh data => (kbd_data sh (u8 data)).1) shift q.

Lemma table_u8 l d i : is_u8 (table l d i).
Proof. apply u8_range. Qed.

Lemma kbd_data_u8 shift data : is_u8 (kbd_data shift data).2.
Proof.
  unfold kbd_data. destruct (data =? 224); [done|]. destruct (negb (Z.land data 128 =? 0)); [done|].
  destruct (if negb (Z.land shift E0ESC =? 0) then _ else _) as [data' shift']. cbn [snd].
  set (c := charcode _ _). assert (is_u8 c) as Hc.
  { unfold c, charcode. repeat case_match; apply table_u8. }
  unfold is_u8 in *. destruct (negb _); [|done].
  destruct ((97 <=? c) && (c <=? 122))%bool eqn:E; [lia|]. destruct ((65 <=? c) && (c <=? 90))%bool eqn:E'; lia.
Qed.

(** [consoleintr] on a device that has the characters [codes s] to give;
    [P] holds of the rest of the state. *)
Section device.
Context (rows : list dump_row) (getc : M console Z) (codes : console -> list Z) (P : console -> Prop).
Context (Hget : forall s t, console_rep s t -> P s ->
  wp getc (fun c s' => match codes s with
                       | [] => c = -1 /\ s' = s
                       | x :: xs => c = x /\ is_u8 x /\ console_rep s' t /\ codes s' = xs /\ P s'
                       end) no_halt s).
Context (Hdev : forall s t s', turned s t s' -> P s -> codes s' = codes s /\ P s').

Lemma consoleintr_spec : forall fuel s t, console_rep s t -> P s -> (length (codes s) < fuel)%nat ->
  wp (consoleintr rows fuel getc)
     (fun _ s' => console_rep s' (foldl type_char t (codes s)) /\ codes s' = [] /\ P s') no_halt s.
Proof.
  induction fuel as [|fuel IH]; intros s t Hs HP Hf; [lia|]. unfold consoleintr. cbn [while]. wp_step. wp_step.
  eapply wp_conseq; [by apply Hget|]. cbn beta. intros c s1 H1. destruct (codes s) as [|x xs] eqn:E.
  - destruct H1 as [-> ->]. cbn [Z.leb Z.compare]. wp_step. wp_step. done.
  - destruct H1 as (-> & Hx & H1 & Hc & HP1). rewrite (proj2 (Z.leb_le 0 x)) by (unfold is_u8 in Hx; lia).
    wp_step. eapply wp_conseq; [by apply consoleintr_char_spec|]. intros ? s2 H2. wp_step.
    destruct (Hdev _ _ _ H2 HP1) as [Hc2 HP2]. rewrite Hc in Hc2.
    eapply wp_conseq; [apply (IH s2 (type_char t x)); [apply H2|done|rewrite Hc2; cbn in Hf; lia]|]. cbn beta. rewrite Hc2. done.
Qed.
End device.

(** ** The specification as a machine

    Bytes on the serial line and scan codes on the keyboard arrive, processes
    read and write; the state is the terminal and the shift keys. *)
Inductive cevent : Type :=
| EvSerial (bytes : list Z)
| EvKeys (codes : list Z)
| EvRead (killed : bool) (target n : nat) (dst : list Z)
| EvWrite (buf : list Z).

Definition spec_event (x : tty * Z) (ev : cevent) : (tty * Z) * option cread :=
  let '(t, shift) := x in
  match ev with
  | EvSerial bytes => ((foldl type_char t (map u8 bytes), shift), None)
  | EvKeys codes => ((foldl type_char t (kbd_codes shift codes), kbd_shift shift codes), None)
  | EvRead killed target n dst =>
      let '(r, ready) := read_ready killed target n dst (t_ready t) in ((mkTty ready (t_edit t), shift), Some r)
  | EvWrite _ => ((t, shift), None)
  end.

Fixpoint spec_run (x : tty * Z) (evs : list cevent) : list (option cread) :=
  match evs with [] => [] | ev :: evs => let '(x, r) := spec_event x ev in r :: spec_run x evs end.

Definition console_event (rows : list dump_row) (ev : cevent) : M console (option cread) :=
  match ev with
  | EvSerial bytes => modify (fun s => cset_uartq (cn_uartq s ++ bytes) s);; uartintr rows;; mret None
  | EvKeys codes => modify (fun s => cset_kbdq (cn_kbdq s ++ codes) s);; kbdintr rows;; mret None
  | EvRead killed target n dst => r ← consoleread killed target n dst; mret (Some r)
  | EvWrite buf => consolewrite buf;; mret None
  end.

Fixpoint console_run (rows : list dump_row) (evs : list cevent) : M console (list (option cread)) :=
  match evs with
  | [] => mret []
  | ev :: evs => r ← console_event rows ev; rs ← console_run rows evs; mret (r :: rs)
  end.

(** The console with its devices idle. *)
Definition idle (s : console) (x : tty * Z) : Prop :=
  console_rep s x.1 /\ cn_uart s = true /\ cn_uartq s = [] /\ cn_kbdq s = [] /\ cn_shift s = x.2.

Lemma console_event_spec rows ev s x : idle s x ->
  wp (console_event rows ev) (fun r s' => r = (spec_event x ev).2 /\ idle s' (spec_event x ev).1) no_halt s.
Proof.
  destruct x as [t shift]. intros (Hs & Hu & Hq & Hk & Hsh). cbn in Hs, Hsh.
  destruct ev as [bytes|codes|killed target n dst|buf]; cbn [console_event spec_event].
  - wp_step. wp_step. rewrite Hq. cbn [app]. wp_step. unfold uartintr. wp_step. wp_step. cbn [cset_uartq cn_uartq].
    eapply wp_conseq.
    { apply (consoleintr_spec rows uartgetc (fun s => map u8 (cn_uartq s))
        (fun s => cn_uart s = true /\ cn_kbdq s = [] /\ cn_shift s = shift)) with (t := t).
      - intros s1 t1 H1 (Hu1 & Hk1 & Hs1). unfold uartgetc. wp_step. wp_step. rewrite Hu1. cbn [negb]. wp_step. wp_step.
        destruct (cn_uartq s1) as [|c q]; [by wp_step|]. wp_step. wp_step. wp_step. cbn. split; [done|]. split; [apply u8_range|]. done.
      - intros s1 t1 s2 [_ (E1 & E2 & E3 & E4)] (Hu1 & Hk1 & Hs1). rewrite E1, E2, E3, E4. done.
      - exact Hs.
      - done.
      - cbn. rewrite length_map. lia. }
    intros ? s1 (H1 & Hq1 & ? & ? & ?). wp_step. split; [done|]. split; [done|]. cbn. split; [done|].
    split; [by apply map_eq_nil in Hq1|done].
  - wp_step. wp_step. rewrite Hk. cbn [app]. wp_step. unfold kbdintr. wp_step. wp_step. cbn [cset_kbdq cn_kbdq].
    eapply wp_conseq.
    { apply (consoleintr_spec rows kbdgetc (fun s => kbd_codes (cn_shift s) (cn_kbdq s))
        (fun s => cn_uart s = true /\ cn_uartq s = [] /\ kbd_shift (cn_shift s) (cn_kbdq s) = kbd_shift shift codes)) with (t := t).
      - intros s1 t1 H1 (Hu1 & Hk1 & Hs1). unfold kbdgetc. wp_step. wp_step.
        destruct (cn_kbdq s1) as [|c q]; [by wp_step|]. wp_step. wp_step. wp_step. wp_step. cbn [cset_kbdq cn_shift].
        cbn [kbd_codes]. pose proof (kbd_data_u8 (cn_shift s1) (u8 c)) as Hd. unfold kbd_shift in *. cbn [foldl] in Hs1.
        destruct (kbd_data (cn_shift s1) (u8 c)) as [sh d]. wp_step. wp_step. wp_step. done.
      - intros s1 t1 s2 [_ (E1 & E2 & E3 & E4)] (Hu1 & Hk1 & Hs1). rewrite E1, E2, E3, E4. done.
      - exact Hs.
      - cbn. by rewrite Hsh.
      - cbn. generalize (cn_shift s). clear. induction codes as [|c q IH]; intros sh; cbn; [lia|]. specialize (IH (kbd_data sh (u8 c)).1). lia. }
    cbn [cset_kbdq cn_kbdq cn_shift]. rewrite Hsh. intros ? s1 (H1 & Hq1 & ? & ? & Hf). wp_step. split; [done|]. split; [done|]. cbn.
    destruct (cn_kbdq s1) as [|]; [|done]. cbn in Hf. done.
  - unfold consoleread. wp_step. wp_step. wp_step. destruct Hs as [Hs Hr].
    pose proof (consoleread_loop_spec killed target n dst _ _ Hr) as H.
    destruct (consoleread_loop killed target n dst (cn_input s)) as [r i].
    destruct (read_ready killed target n dst (t_ready t)) as [r' ready]. destruct H as [-> H].
    wp_step. wp_step. wp_step. wp_step. done.
  - unfold consolewrite. wp_step. wp_step. destruct Hs as [Hs Hr]. eapply wp_conseq; [by apply consputs_spec|].
    intros ? s1 (H1 & a & b & c & ->). wp_step. wp_step. done.
Qed.

(** C14: for every history of bytes on the serial line, keys pressed, and
    reads and writes by processes, the console never faults and every read
    gets what the terminal specification says: the characters of the finished
    lines in order, with erased ones gone, whatever the wrap-around of the
    three 32-bit counters. *)
Theorem console_refines_terminal rows evs s x : idle s x ->
  wp (console_run rows evs) (fun rs _ => rs = spec_run x evs) no_halt s.
Proof.
  revert s x. induction evs as [|ev evs IH]; intros s x Hi; cbn [console_run spec_run]; [by wp_step|]. wp_step.
  eapply wp_conseq; [by apply console_event_spec|]. cbn beta. intros r s1 [-> H1]. wp_step.
  eapply wp_conseq; [by apply IH|]. cbn beta. intros rs s2 ->. wp_step. by destruct (spec_event x ev).
Qed.

(** ** A line typed on the keyboard *)

(** The scan codes of pressing and releasing the key of a character, with the
    shift key held down if it needs it. *)
Definition scancodes (c : Z) : list Z :=
  match List.find (fun i => normalmap i =? c) (seqZ 1 127) with
  | Some i => [i; i + 128]
  | None => match List.find (fun i => shiftmap i =? c) (seqZ 1 127) with
            | Some i => [0x2A; i; i + 128; 0xAA]
            | None => []
            end
  end.

Definition printable (c : Z) : Prop := 32 <= c <= 126.

(** Every printable character and the newline can be typed, and the shift
    state is then what it was. *)
Lemma scancodes_typed c : printable c \/ c = 10 ->
  List.filter (fun d => negb (d =? 0)) (kbd_codes 0 (scancodes c)) = [c] /\ kbd_shift 0 (scancodes c) = 0.
Proof.
  assert (H : forallb (fun c => bool_decide (List.filter (fun d => negb (d =? 0)) (kbd_codes 0 (scancodes c)) = [c] /\
                                             kbd_shift 0 (scancodes c) = 0)) (10 :: seqZ 32 95) = true)
    by (vm_compute; reflexivity).
  rewrite forallb_forall in H. intros Hc. specialize (H c). rewrite bool_decide_eq_true in H. apply H.
  apply list_elem_of_In. rewrite elem_of_cons, elem_of_seqZ. unfold printable in Hc. lia.
Qed.

Lemma kbd_codes_app q' : forall q sh, kbd_codes sh (q ++ q') = kbd_codes sh q ++ kbd_codes (kbd_shift sh q) q'.
Proof. induction q as [|d q IH]; intros sh; cbn; [done|]. by rewrite IH. Qed.

Lemma type_zero t : type_char t 0 = t.
Proof. unfold type_char. by rewrite bool_decide_true by (do 2 right; left). Qed.

Lemma foldl_type_filter l : forall t, foldl type_char t l = foldl type_char t (List.filter (fun d => negb (d =? 0)) l).
Proof.
  induction l as [|d l IH]; intros t; cbn [foldl List.filter]; [done|]. rewrite IH.
  destruct (Z.eqb_spec d 0) as [->|]; cbn [negb foldl]; [by rewrite type_zero|done].
Qed.

Lemma typed_codes l : Forall (fun c => printable c \/ c = 10) l ->
  List.filter (fun d => negb (d =? 0)) (kbd_codes 0 (concat (map scancodes l))) = l.
Proof.
  induction l as [|c l IH]; intros Hl; cbn [map concat]; [done|]. apply Forall_cons in Hl as [Hc Hl].
  destruct (scancodes_typed c Hc) as [H1 H2]. by rewrite kbd_codes_app, List.filter_app, H1, H2, IH.
Qed.

(** Typing printable characters appends them to the line. *)
Lemma type_printable : forall l t, Forall printable l -> Z.of_nat (length (t_ready t) + length (t_edit t) + length l) < INPUT_BUF ->
  foldl type_char t l = mkTty (t_ready t) (t_edit t ++ l).
Proof.
  induction l as [|c l IH]; intros t Hl Hn; cbn [foldl]; [by rewrite app_nil_r; destruct t|].
  apply Forall_cons in Hl as [Hc Hl]. cbn [length] in Hn. unfold printable in Hc.
  assert (type_char t c = mkTty (t_ready t) (t_edit t ++ [c])) as ->.
  { unfold type_char. rewrite !bool_decide_false by (rewrite !elem_of_cons, elem_of_nil; unfold CTRL; lia).
    rewrite (proj2 (Z.eqb_neq c (CTRL 85))), (proj2 (Z.eqb_neq c 13)) by (unfold CTRL; lia).
    rewrite (proj2 (Z.ltb_lt _ _)) by lia. rewrite length_app. cbn [length orb].
    rewrite bool_decide_false by (rewrite !elem_of_cons, elem_of_nil; unfold CTRL; lia).
    rewrite (proj2 (Z.eqb_neq _ _)) by lia. done. }
  rewrite IH; [cbn; by rewrite <- app_assoc|done|cbn; rewrite length_app; cbn; lia].
Qed.

Lemma read_line target : forall l n dst rest, Forall printable l -> (length l < n)%nat ->
  read_ready false target n dst (l ++ 10 :: rest) = (CRDone (dst ++ l ++ [10]), rest).
Proof.
  induction l as [|c l IH]; intros [|n] dst rest Hl Hn; cbn in Hn; try lia; cbn [app read_ready].
  - change (10 =? CTRL 68) with false. done.
  - apply Forall_cons in Hl as [Hc Hl]. unfold printable in Hc.
    rewrite (proj2 (Z.eqb_neq c (CTRL 68))), (proj2 (Z.eqb_neq c 10)) by (unfold CTRL; lia).
    rewrite IH by (done || lia). by rewrite <- app_assoc.
Qed.

(** A line of printable characters typed on the keyboard, key by key with
    shift where needed and Enter at the end, is what a process that reads the
    console gets, with its newline. *)
Theorem typed_line_is_read rows s line n :
  idle s (mkTty [] [], 0) -> Forall printable line -> Z.of_nat (length line) < INPUT_BUF - 1 -> (length line < n)%nat ->
  wp (console_run rows [EvKeys (concat (map scancodes (line ++ [10]))); EvRead false n n []])
     (fun rs _ => rs = [None; Some (CRDone (line ++ [10]))]) no_halt s.
Proof.
  intros Hi Hl Hlen Hn. cbn [console_run]. wp_step. eapply wp_conseq; [by apply console_event_spec|].
  cbn beta. intros r s1 [-> H1]. wp_step. wp_step. eapply wp_conseq; [by apply console_event_spec|].
  cbn beta. intros r s2 [-> H2]. wp_step. wp_step. wp_step. wp_step. cbn [spec_event fst snd].
  rewrite foldl_type_filter, typed_codes, foldl_app
    by (apply Forall_app; split; [by eapply Forall_impl; [|intros ? ?; left]|apply Forall_singleton; by right]).
  rewrite (type_printable line) by first [done|cbn [length t_ready t_edit]; lia]. cbn [foldl t_ready t_edit app].
  assert (type_char (mkTty [] line) 10 = mkTty (line ++ [10]) []) as ->.
  { unfold type_char. rewrite !bool_decide_false by (rewrite !elem_of_cons, elem_of_nil; unfold CTRL; lia).
    cbn [t_ready t_edit app length Nat.add]. rewrite (proj2 (Z.ltb_lt _ _)) by lia. done. }
  cbn [t_ready]. by rewrite read_line.
Qed.

Module ConsoleInstances.
(** The counters about to wrap around. *)
Definition s0 : console :=
  mkConsole false true true [] (replicate CRTCELLS 0) 0
    (mkInput (replicate 128 0) (2 ^ 32 - 2) (2 ^ 32 - 2) (2 ^ 32 - 2)) 0 false [] [] 0.

Lemma s0_idle : idle s0 (mkTty [] [], 0).
Proof.
  split; [|done]. split; [split; [done|]; split; [apply length_replicate|cbn; lia]|].
  split; [done|]. split; [unfold is_u32; cbn; lia|]. split; [done|]. split; [done|]. split; [cbn; unfold INPUT_BUF; lia|].
  split; [by intros [|]|constructor].
Qed.

Lemma console_refines_witness :
  wp (console_run [] [EvSerial [108; 120; 8; 115; 13]; EvRead false 10 10 []])
     (fun rs _ => rs = [None; Some (CRDone [108; 115; 10])]) no_halt s0.
Proof. exact (console_refines_terminal [] [EvSerial [108; 120; 8; 115; 13]; EvRead false 10 10 []] s0 _ s0_idle). Defined.

Lemma typed_line_witness :
  wp (console_run [] [EvKeys (concat (map scancodes ([76; 115] ++ [10]))); EvRead false 10 10 []])
     (fun rs _ => rs = [None; Some (CRDone ([76; 115] ++ [10]))]) no_halt s0.
Proof.
  apply (typed_line_is_read [] s0 [76; 115] 10 s0_idle).
  - repeat constructor; unfold printable; lia.
  - unfold INPUT_BUF. cbn. lia.
  - cbn. lia.
Defined.
End ConsoleInstances.
