(* ===== verification/Spinlock.v ===== *)
(** * Spinlock: mutual exclusion (spinlock.c)

    CPUs are indices into a list.  Each runs any sequence of [acquire] and
    [release] calls; a step is one CPU executing up to and including its next
    access to a lock that other CPUs can see, so that every interleaving of
    these accesses is covered. *)
From S2P Require Import Prelude.

(** [lk->cpu] is a CPU or null. *)
Record spinlock := mkLock { lk_locked : bool; lk_cpu : option nat }.

Definition initlock : spinlock := mkLock false None.

(** Where a CPU is: outside of the two functions, spinning in [acquire]
    after [pushcli] and the check, past the successful [xchg] and before
    [lk->cpu = cpu], or in [release] after [lk->cpu = 0]. *)
Inductive where_at : Type := Outside | Spinning (l : nat) | Acquired (l : nat) | Releasing (l : nat).

Record cpu := mkCpu { c_at : where_at; c_ncli : Z; c_intena : bool; c_if : bool }.

Definition set_at (a : where_at) (c : cpu) : cpu := mkCpu a (c_ncli c) (c_intena c) (c_if c).

Definition pushcli (c : cpu) : cpu :=
  mkCpu (c_at c) (c_ncli c + 1) (if c_ncli c =? 0 then c_if c else c_intena c) false.

(** [None] for the two panics. *)
Definition popcli (c : cpu) : option cpu :=
  if c_if c then None
  else
    let n := c_ncli c - 1 in
    if n <? 0 then None
    else Some (mkCpu (c_at c) n (c_intena c) ((n =? 0) && c_intena c)%bool).

(** Whether the CPU [i] is holding the lock. *)
Definition holding (i : nat) (k : spinlock) : bool :=
  (lk_locked k && bool_decide (lk_cpu k = Some i))%bool.

Record machine := mkMachine { m_locks : list spinlock; m_cpus : list cpu }.

Definition set_lock (l : nat) (k : spinlock) (m : machine) : machine := mkMachine (<[l := k]> (m_locks m)) (m_cpus m).
Definition set_cpu (i : nat) (c : cpu) (m : machine) : machine := mkMachine (m_locks m) (<[i := c]> (m_cpus m)).

(** One step of CPU [i]; [None] is a panic. *)
Inductive act : Type := CallAcquire (l : nat) | CallRelease (l : nat) | Continue.

Definition lock_step (i : nat) (c : cpu) (a : act) (m : machine) : option machine :=
  match c_at c, a with
  | Outside, CallAcquire l =>
      match m_locks m !! l with
      | None => Some m
      | Some k =>
          let c := pushcli c in
          if holding i k then None else Some (set_cpu i (set_at (Spinning l) c) m)
      end
  | Outside, CallRelease l =>
      match m_locks m !! l with
      | None => Some m
      | Some k =>
          if negb (holding i k) then None
          else Some (set_cpu i (set_at (Releasing l) c) (set_lock l (mkLock (lk_locked k) None) m))
      end
  | Spinning l, Continue =>
      (* xchg(&lk->locked, 1) *)
      match m_locks m !! l with
      | None => Some m
      | Some k =>
          let m := set_lock l (mkLock true (lk_cpu k)) m in
          if lk_locked k then Some m else Some (set_cpu i (set_at (Acquired l) c) m)
      end
  | Acquired l, Continue =>
      match m_locks m !! l with
      | None => Some m
      | Some k => Some (set_cpu i (set_at Outside c) (set_lock l (mkLock (lk_locked k) (Some i)) m))
      end
  | Releasing l, Continue =>
      match m_locks m !! l with
      | None => Some m
      | Some k =>
          match popcli c with
          | None => None
          | Some c => Some (set_cpu i (set_at Outside c) (set_lock l (mkLock false (lk_cpu k)) m))
          end
      end
  | _, _ => Some m
  end.

Inductive mstep : machine -> machine -> Prop :=
| mstep_intro i c a m m' : m_cpus m !! i = Some c -> lock_step i c a m = Some m' -> mstep m m'.

(** The locks are free and no CPU has disabled interrupts through a lock. *)
Definition lock_boot (m : machine) : Prop :=
  Forall (fun k => k = initlock) (m_locks m) /\ Forall (fun c => c_at c = Outside /\ c_ncli c = 0) (m_cpus m).

(** ** Invariant *)

(** CPU [i] is past the [xchg] of [acquire] on [l] and has not yet cleared
    [locked] in [release]. *)
Definition inside (i : nat) (c : cpu) (l : nat) (k : spinlock) : bool :=
  match c_at c with
  | Acquired l' | Releasing l' => (bool_decide (l = l') || holding i k)%bool
  | _ => holding i k
  end.

(** How many [pushcli] of CPU [i] have not been undone. *)
Definition owes (i : nat) (c : cpu) (ks : list spinlock) : Z :=
  (match c_at c with Outside => 0 | _ => 1 end) + Z.of_nat (length (filter (fun k => holding i k = true) ks)).

(** A CPU in the middle of [acquire] or [release] is not recorded in the
    lock; past the [xchg] nobody is. *)
Definition mid_ok (i : nat) (c : cpu) (l : nat) (k : spinlock) : Prop :=
  match c_at c with
  | Outside => True
  | Spinning l' => l = l' -> holding i k = false
  | Acquired l' | Releasing l' => l = l' -> lk_cpu k = None
  end.

(** A free lock has no owner; at most one CPU is inside a lock, which is then
    taken; interrupts are off while a CPU holds or is taking one. *)
Record lock_inv (m : machine) : Prop := {
  li_free : forall l k, m_locks m !! l = Some k -> lk_locked k = false -> lk_cpu k = None;
  li_excl : forall l k i c i' c', m_locks m !! l = Some k -> m_cpus m !! i = Some c -> m_cpus m !! i' = Some c' ->
    inside i c l k = true -> inside i' c' l k = true -> i = i';
  li_locked : forall l k i c, m_locks m !! l = Some k -> m_cpus m !! i = Some c -> inside i c l k = true -> lk_locked k = true;
  li_mid : forall l k i c, m_locks m !! l = Some k -> m_cpus m !! i = Some c -> mid_ok i c l k;
  li_ncli : forall i c, m_cpus m !! i = Some c -> c_ncli c = owes i c (m_locks m) /\ (c_ncli c <> 0 -> c_if c = false);
}.

Lemma holding_spec i k : holding i k = true <-> lk_locked k = true /\ lk_cpu k = Some i.
Proof. unfold holding. rewrite andb_true_iff, bool_decide_eq_true. done. Qed.

Lemma holding_none i b : holding i (mkLock b None) = false.
Proof. unfold holding. cbn. by rewrite andb_false_r. Qed.

(** [at_only l a]: the place [a] mentions no lock but [l]. *)
Definition at_only (l : nat) (a : where_at) : Prop :=
  match a with Outside => True | Spinning l' | Acquired l' | Releasing l' => l' = l end.

Lemma inside_other i c l l' k : at_only l (c_at c) -> l' <> l -> inside i c l' k = holding i k.
Proof.
  intros Ha Hne. unfold inside. destruct (c_at c); cbn in Ha; try done; subst; by rewrite bool_decide_false.
Qed.

Lemma inside_holding i c l k : holding i k = true -> inside i c l k = true.
Proof. intros H. unfold inside. rewrite H. by destruct (c_at c); rewrite ?orb_true_r. Qed.

Lemma holding_count_eq i l k k' ks : ks !! l = Some k ->
  Z.of_nat (length (filter (fun k => holding i k = true) (<[l := k']> ks))) =
  Z.of_nat (length (filter (fun k => holding i k = true) ks)) - (if holding i k then 1 else 0) + (if holding i k' then 1 else 0).
Proof.
  intros Hk. pose proof (lookup_lt_Some _ _ _ Hk) as Hl.
  rewrite insert_take_drop by done. rewrite <- (take_drop_middle ks l k Hk) at 3.
  rewrite !filter_app, !filter_cons, !length_app.
  destruct (holding i k), (holding i k'); repeat (case_decide; try done); cbn [length]; lia.
Qed.

(** A step of CPU [i] on the lock [l] that leaves the other CPUs' view of
    the lock as it was. *)
Lemma lock_inv_update m i c c' l k k' :
  lock_inv m -> m_cpus m !! i = Some c -> m_locks m !! l = Some k -> at_only l (c_at c) -> at_only l (c_at c') ->
  (forall j, j <> i -> holding j k' = holding j k) ->
  (inside i c' l k' = true -> forall j cj, m_cpus m !! j = Some cj -> inside j cj l k = true -> j = i) ->
  (lk_locked k = true -> (exists j cj, m_cpus m !! j = Some cj /\ j <> i /\ inside j cj l k = true) -> lk_locked k' = true) ->
  (inside i c' l k' = true -> lk_locked k' = true) ->
  (lk_locked k' = false -> lk_cpu k' = None) -> mid_ok i c' l k' ->
  (lk_cpu k = None -> lk_cpu k' <> None -> inside i c l k = true) ->
  c_ncli c' - (match c_at c' with Outside => 0 | _ => 1 end) - (if holding i k' then 1 else 0) =
  c_ncli c - (match c_at c with Outside => 0 | _ => 1 end) - (if holding i k then 1 else 0) ->
  (c_ncli c' <> 0 -> c_if c' = false) ->
  lock_inv (set_cpu i c' (set_lock l k' m)).
Proof.
  intros [Hfree Hexcl Hlk Hmid Hn] Hc Hk Ha Ha' Hview Hin Hothers Hin' Hfree' Hmid' Hgain Hcount Hif.
  assert (Hin2 : forall j cj, j <> i -> m_cpus m !! j = Some cj -> inside j cj l k' = inside j cj l k).
  { intros j cj Hne _. unfold inside. rewrite Hview by done. done. }
  assert (Hlook : forall l0 k0, <[l := k']> (m_locks m) !! l0 = Some k0 -> (l0 = l /\ k0 = k') \/ (l0 <> l /\ m_locks m !! l0 = Some k0)).
  { intros l0 k0. rewrite list_lookup_insert_Some. intros [(-> & -> & _)|[? ?]]; [by left|by right]. }
  assert (Hcpu : forall j cj, <[i := c']> (m_cpus m) !! j = Some cj -> (j = i /\ cj = c') \/ (j <> i /\ m_cpus m !! j = Some cj)).
  { intros j cj. rewrite list_lookup_insert_Some. intros [(-> & -> & _)|[? ?]]; [by left|by right]. }
  assert (Hoth : forall l0 k0, l0 <> l -> inside i c' l0 k0 = inside i c l0 k0).
  { intros l0 k0 Hne. by rewrite !(inside_other _ _ l) by done. }
  split; cbn.
  - intros l0 k0 [[-> ->]|[? ?]]%Hlook; eauto.
  - intros l0 k0 j cj j' cj' [[-> ->]|[Hl0 H0]]%Hlook [[-> ->]|[Hj Hcj]]%Hcpu [[-> ->]|[Hj' Hcj']]%Hcpu; try done.
    + intros H1 H2. rewrite Hin2 in H2 by done. symmetry. eauto.
    + intros H1 H2. rewrite Hin2 in H1 by done. eauto.
    + rewrite !Hin2 by done. eauto.
    + rewrite Hoth by done. eauto.
    + rewrite Hoth by done. eauto.
    + eauto.
  - intros l0 k0 j cj [[-> ->]|[Hl0 H0]]%Hlook [[-> ->]|[Hj Hcj]]%Hcpu; [done| |rewrite Hoth by done; eauto|eauto].
    rewrite Hin2 by done. intros H. apply Hothers; [by eapply Hlk|eauto].
  - intros l0 k0 j cj [[-> ->]|[Hl0 H0]]%Hlook [[-> ->]|[Hj Hcj]]%Hcpu; [done| | |by eapply Hmid].
    + pose proof (Hmid _ _ _ _ Hk Hcj) as H. unfold mid_ok in *. destruct (c_at cj) as [|l'|l'|l'] eqn:E; [done|by rewrite Hview|..];
        intros <-; specialize (H eq_refl); destruct (lk_cpu k') eqn:Ek; [|done| |done]; exfalso; apply Hj;
        (apply (Hexcl l k j cj i c); [done..| |apply Hgain; [done|congruence]]); unfold inside; rewrite E; by rewrite bool_decide_true.
    + unfold mid_ok. destruct (c_at c'); cbn in Ha'; subst; done.
  - intros j cj [[-> ->]|[Hj Hcj]]%Hcpu; unfold owes; rewrite (holding_count_eq _ _ _ _ _ Hk).
    + destruct (Hn _ _ Hc) as [Hnc _]. unfold owes in Hnc. split; [lia|done].
    + rewrite Hview by done. destruct (Hn _ _ Hcj) as [Hnc ?]. unfold owes in Hnc. split; [lia|done].
Qed.

Lemma set_lock_id m l k : m_locks m !! l = Some k -> set_lock l k m = m.
Proof. intros H. destruct m. unfold set_lock. cbn in *. by rewrite list_insert_id. Qed.

Lemma set_cpu_id m i c : m_cpus m !! i = Some c -> set_cpu i c m = m.
Proof. intros H. destruct m. unfold set_cpu. cbn in *. by rewrite list_insert_id. Qed.

(** A CPU that is in one of the two functions, or holds a lock, has interrupts
    off, and its [popcli] returns. *)
Lemma owes_pos m i c : lock_inv m -> m_cpus m !! i = Some c -> c_at c <> Outside -> 0 < c_ncli c /\ c_if c = false.
Proof.
  intros Hi Hc Hne. destruct (li_ncli m Hi i c Hc) as [Hn Hif].
  assert (0 < c_ncli c) by (rewrite Hn; unfold owes; destruct (c_at c); [done|lia..]). split; [done|]. apply Hif. lia.
Qed.

Lemma popcli_some c : 0 < c_ncli c -> c_if c = false ->
  exists c', popcli c = Some c' /\ c_ncli c' = c_ncli c - 1 /\ (c_ncli c' <> 0 -> c_if c' = false).
Proof.
  intros Hn Hif. unfold popcli. rewrite Hif, (proj2 (Z.ltb_ge _ _)) by lia. eexists. split; [done|]. cbn. split; [done|].
  intros Hne. by rewrite (proj2 (Z.eqb_neq _ _)).
Qed.

Lemma lock_step_inv m i c a m' : lock_inv m -> m_cpus m !! i = Some c -> lock_step i c a m = Some m' -> lock_inv m'.
Proof.
  intros Hi Hc. unfold lock_step. destruct (c_at c) as [|l|l|l] eqn:Eat; (destruct a as [l'|l'|]; try (by intros [= <-])).
  - destruct (m_locks m !! l') as [k|] eqn:Hk; [|by intros [= <-]]. destruct (holding i k) eqn:Eh; [done|]. intros [= <-].
    destruct (li_ncli m Hi i c Hc) as [Hn _].
    rewrite <- (set_lock_id m l' k Hk). apply (lock_inv_update m i c _ l' k k); rewrite ?Eat; try done.
    + unfold inside. cbn. by rewrite Eh.
    + by unfold inside; cbn; rewrite Eh.
    + apply (li_free m Hi l' k Hk).
    + cbn. intros _. exact Eh.
    + rewrite Eh. cbn. lia.
  - destruct (m_locks m !! l') as [k|] eqn:Hk; [|by intros [= <-]]. destruct (holding i k) eqn:Eh; [|done]. cbn [negb]. intros [= <-].
    destruct (proj1 (holding_spec i k) Eh) as [Hl Hcpu]. destruct (li_ncli m Hi i c Hc) as [Hn Hif].
    apply (lock_inv_update m i c _ l' k _); rewrite ?Eat; try done.
    + intros j Hj. rewrite holding_none. unfold holding. rewrite Hcpu, bool_decide_false by congruence. by rewrite andb_false_r.
    + intros _ j cj Hcj Hin. eapply (li_excl m Hi l' k); [done..|by apply inside_holding].
    + rewrite holding_none, Eh. cbn. lia.
  - destruct (m_locks m !! l) as [k|] eqn:Hk; [|by intros [= <-]]. destruct (lk_locked k) eqn:El; intros [= <-].
    { replace (mkLock true (lk_cpu k)) with k by (destruct k; cbn in *; congruence). by rewrite set_lock_id. }
    pose proof (li_free m Hi l k Hk El) as Hcpu. rewrite Hcpu.
    assert (Hnone : forall j, holding j k = false) by (intros j; unfold holding; by rewrite El).
    destruct (owes_pos m i c Hi Hc ltac:(congruence)) as [Hn Hif].
    apply (lock_inv_update m i c _ l k _); rewrite ?Eat; try done.
    + intros _ j cj Hcj Hin. pose proof (li_locked m Hi l k j cj Hk Hcj Hin). congruence.
    + rewrite holding_none, Hnone. cbn. lia.
  - destruct (m_locks m !! l) as [k|] eqn:Hk; [|by intros [= <-]]. intros [= <-].
    assert (Hin : inside i c l k = true) by (unfold inside; rewrite Eat; by rewrite bool_decide_true).
    pose proof (li_locked m Hi l k i c Hk Hc Hin) as Hl. pose proof (li_mid m Hi l k i c Hk Hc) as Hm. unfold mid_ok in Hm.
    rewrite Eat in Hm. specialize (Hm eq_refl). rewrite Hl.
    assert (Hnone : forall j, holding j k = false) by (intros j; unfold holding; rewrite Hm; cbn; by rewrite andb_false_r).
    destruct (owes_pos m i c Hi Hc ltac:(congruence)) as [Hn Hif].
    apply (lock_inv_update m i c _ l k _); rewrite ?Eat; try done.
    + intros j Hj. rewrite Hnone. unfold holding. cbn. by rewrite bool_decide_false by congruence.
    + intros _ j cj Hcj Hin'. by eapply (li_excl m Hi l k).
    + rewrite Hnone. unfold holding. cbn. rewrite bool_decide_true by done. lia.
  - destruct (m_locks m !! l) as [k|] eqn:Hk; [|by intros [= <-]].
    assert (Hin : inside i c l k = true) by (unfold inside; rewrite Eat; by rewrite bool_decide_true).
    pose proof (li_mid m Hi l k i c Hk Hc) as Hm. unfold mid_ok in Hm. rewrite Eat in Hm. specialize (Hm eq_refl).
    destruct (owes_pos m i c Hi Hc ltac:(congruence)) as [Hn Hif].
    destruct (popcli_some c Hn Hif) as (c' & -> & Hn' & Hif'). intros [= <-]. rewrite Hm.
    assert (Hnone : forall j, holding j k = false) by (intros j; unfold holding; rewrite Hm; cbn; by rewrite andb_false_r).
    apply (lock_inv_update m i c _ l k _); rewrite ?Eat; try done.
    + intros _ (j & cj & Hcj & Hj & Hin'). exfalso. apply Hj. by eapply (li_excl m Hi l k).
    + rewrite holding_none, Hnone. cbn. lia.
Qed.

Lemma lock_boot_inv m : lock_boot m -> lock_inv m.
Proof.
  intros [Hk Hc]. rewrite Forall_lookup in Hk. rewrite Forall_lookup in Hc.
  assert (Hh : forall l k i, m_locks m !! l = Some k -> holding i k = false) by (intros l k i H; by rewrite (Hk l k H)).
  assert (Hin : forall l k i c, m_locks m !! l = Some k -> m_cpus m !! i = Some c -> inside i c l k = false).
  { intros l k i c H1 H2. unfold inside. destruct (Hc i c H2) as [-> _]. eauto. }
  split.
  - intros l k H _. by rewrite (Hk l k H).
  - intros l k i c i' c' H1 H2 H3 H4. by rewrite (Hin l k i c) in H4.
  - intros l k i c H1 H2 H3. by rewrite (Hin l k i c) in H3.
  - intros l k i c H1 H2. unfold mid_ok. by destruct (Hc i c H2) as [-> _].
  - intros i c H. destruct (Hc i c H) as [H1 H2]. rewrite H2. split; [|done]. unfold owes. rewrite H1.
    rewrite (proj2 (length_zero_iff_nil _)); [done|]. destruct (filter _ _) as [|k ks] eqn:E; [done|].
    assert (k ∈ filter (fun k => holding i k = true) (m_locks m)) as Hf by (rewrite E; by left).
    apply list_elem_of_filter in Hf as [Hf (l & Hl)%list_elem_of_lookup]. by rewrite (Hh l k i Hl) in Hf.
Qed.

(** C15: on any number of CPUs and for every interleaving of their accesses
    to the locks, at most one CPU is between the successful exchange of
    acquire and the clearing of the lock in release; that CPU has interrupts
    off, so no handler runs on it meanwhile; and popcli never panics in
    release. *)
Theorem spinlock_mutual_exclusion m0 m : lock_boot m0 -> rtc mstep m0 m ->
  forall l k i c, m_locks m !! l = Some k -> m_cpus m !! i = Some c ->
    (inside i c l k = true -> lk_locked k = true /\ c_if c = false /\
       forall i' c', m_cpus m !! i' = Some c' -> inside i' c' l k = true -> i' = i) /\
    (c_at c = Releasing l -> popcli c <> None).
Proof.
  intros Hb Hr. assert (Hi : lock_inv m).
  { apply lock_boot_inv in Hb. induction Hr as [|m m1 m2 Hstep _ IH]; [done|]. destruct Hstep as [i c a m m1 Hc Hs].
    apply IH. by eapply lock_step_inv. }
  intros l k i c Hk Hc. split.
  - intros Hin. split; [by eapply (li_locked m Hi)|]. split; [|intros i' c' Hc' Hin'; by eapply (li_excl m Hi l k)].
    destruct (li_ncli m Hi i c Hc) as [Hn Hif]. apply Hif. rewrite Hn. unfold owes.
    destruct (c_at c) eqn:E; [|lia..]. unfold inside in Hin. rewrite E in Hin.
    assert (k ∈ filter (fun k => holding i k = true) (m_locks m)) as Hf.
    { apply list_elem_of_filter. split; [done|]. by eapply list_elem_of_lookup_2. }
    destruct (filter _ _) as [|k1 ks]; [by apply elem_of_nil in Hf|cbn; lia].
  - intros E. destruct (owes_pos m i c Hi Hc ltac:(congruence)) as [Hn Hif].
    destruct (popcli_some c Hn Hif) as (c' & -> & _). done.
Qed.

(** [n] nested [pushcli] and as many [popcli] leave the interrupt flag as it
    was. *)
Lemma cli_nesting n c : 0 <= c_ncli c -> (c_ncli c <> 0 -> c_if c = false) ->
  exists c', Nat.iter n (fun o => match o with Some c => popcli c | None => None end) (Some (Nat.iter n pushcli c)) = Some c' /\
    c_if c' = c_if c /\ c_ncli c' = c_ncli c.
Proof.
  intros Hn Hif.
  assert (Hpush : forall n, c_ncli (Nat.iter n pushcli c) = c_ncli c + Z.of_nat n /\
            (n <> O -> c_if (Nat.iter n pushcli c) = false /\
               c_intena (Nat.iter n pushcli c) = if c_ncli c =? 0 then c_if c else c_intena c)).
  { clear n. induction n as [|n [IH1 IH2]]; cbn [Nat.iter nat_rect]; [split; [lia|done]|].
    cbn. change (nat_rect _ _ _ n) with (Nat.iter n pushcli c). split; [lia|]. intros _. split; [done|].
    destruct n as [|n]; [done|]. destruct (IH2 ltac:(lia)) as [_ ->]. rewrite (proj2 (Z.eqb_neq _ _)) by lia. done. }
  assert (Hpop : forall k c1, c_ncli c1 = c_ncli c + Z.of_nat k -> (k <> O -> c_if c1 = false /\ c_intena c1 = if c_ncli c =? 0 then c_if c else c_intena c) ->
            (k = O -> c_if c1 = c_if c) ->
            exists c', Nat.iter k (fun o => match o with Some c => popcli c | None => None end) (Some c1) = Some c' /\
              c_if c' = c_if c /\ c_ncli c' = c_ncli c).
  { clear Hpush n. induction k as [|k IH]; intros c1 H1 H2 H3; [exists c1; split; [done|]; split; [by apply H3|lia]|].
    destruct (H2 ltac:(lia)) as [Hf He]. rewrite Nat.iter_succ_r. unfold popcli at 2. rewrite Hf, (proj2 (Z.ltb_ge _ _)) by lia.
    apply IH; cbn; [lia|intros Hk; split; [by rewrite (proj2 (Z.eqb_neq _ _)) by lia|done]|].
    intros ->. rewrite He. destruct (Z.eqb_spec (c_ncli c1 - 1) 0) as [E|E]; cbn.
    - by rewrite (proj2 (Z.eqb_eq _ _)) by lia.
    - symmetry. apply Hif. lia. }
  destruct (Hpush n) as [H1 H2]. apply Hpop; [done|done|]. by intros ->.
Qed.

Module SpinInstances.
(** Two CPUs race for a lock: the first takes it and the second spins. *)
Definition boot : machine := mkMachine [initlock] [mkCpu Outside 0 false true; mkCpu Outside 0 false true].
Definition run (m : machine) (l : list (nat * act)) : option machine :=
  foldl (fun o x => match o with Some m => match m_cpus m !! x.1 with Some c => lock_step x.1 c x.2 m | None => None end | None => None end) (Some m) l.

Lemma run_steps l : forall m m', run m l = Some m' -> rtc mstep m m'.
Proof.
  unfold run. induction l as [|[i a] l IH]; intros m m'; cbn; [by intros [= <-]|].
  destruct (m_cpus m !! i) as [c|] eqn:Ec.
  2:{ intros H. exfalso. revert H. clear. induction l; [done|exact IHl]. }
  destruct (lock_step i c a m) as [m1|] eqn:E; [|intros H; exfalso; revert H; clear; induction l; [done|exact IHl]].
  intros H. eapply rtc_l; [econstructor; done|]. by apply IH.
Qed.

Definition race : list (nat * act) :=
  [(0, CallAcquire 0); (1, CallAcquire 0); (0, Continue); (1, Continue); (0, Continue); (1, Continue)]%nat.

Lemma spinlock_witness :
  match run boot race with
  | Some m => match m_locks m !! O, m_cpus m !! O, m_cpus m !! 1%nat with
              | Some k, Some c, Some c1 => inside 0 c 0 k = true /\ c_if c = false /\ inside 1 c1 0 k = false
              | _, _, _ => False
              end
  | None => False
  end.
Proof.
  destruct (run boot race) as [m|] eqn:E; [|vm_compute in E; discriminate].
  assert (Hb : lock_boot boot) by (split; repeat constructor).
  pose proof (spinlock_mutual_exclusion boot m Hb (run_steps _ _ _ E)) as H.
  vm_compute in E. injection E as <-.
  destruct (H 0%nat _ 0%nat _ eq_refl eq_refl) as [H1 _]. destruct (H1 eq_refl) as (_ & H2 & _).
  cbn. split; [reflexivity|]. split; [exact H2|reflexivity].
Defined.
End SpinInstances.
