(* ===== verification/Umalloc.v ===== *)
(** * Umalloc: the user-level allocator (umalloc.c)

    Memory is bytes by address.  A [Header] is 16 bytes: the pointer to the
    next free block, and the size of the block in units of a header, its own
    included.  The free blocks form a circular list in address order that
    passes through the static [base]. *)
From S2P Require Import Prelude Mmu.

Definition HDR : Z := 16.

Record ustate := mkU { u_mem : Z -> Z; u_freep : Z; u_brk : Z }.
Definition uset_mem (m : Z -> Z) (s : ustate) : ustate := mkU m (u_freep s) (u_brk s).
Definition uset_freep (p : Z) (s : ustate) : ustate := mkU (u_mem s) p (u_brk s).
Definition uset_brk (b : Z) (s : ustate) : ustate := mkU (u_mem s) (u_freep s) b.

(** [p->s.ptr] and [p->s.size] *)
Definition hptr (m : Z -> Z) (p : Z) : Z := read64 m p.
Definition hsize (m : Z -> Z) (p : Z) : Z := le_Z (peek m (p + 8) 4).
Definition set_hptr (p v : Z) (m : Z -> Z) : Z -> Z := write64 p v m.
Definition set_hsize (p v : Z) (m : Z -> Z) : Z -> Z := poke (p + 8) (le_bytes 4 v) m.

(** Where the program's data ends up: the address of [base], below the heap,
    and how far the kernel lets the process grow. *)
Class Program := {
  base : Z;
  base_pos : 0 < base;
  (** whether [sbrk(n)] returns the old break, at the break [b], and not -1; a
      kernel without a free page does neither, it panics *)
  can_grow : Z -> Z -> bool;
  (** the address space of a process ends below 2^36 *)
  can_grow_limit : forall b n, can_grow b n = true -> b + n <= 2 ^ 36;
}.

Section umalloc.
Context `{Program}.

Abbreviation MU A := (M ustate A).

Definition lptr (p : Z) : MU Z := gets (fun s => hptr (u_mem s) p).
Definition lsize (p : Z) : MU Z := gets (fun s => hsize (u_mem s) p).
Definition sptr (p v : Z) : MU unit := modify (fun s => uset_mem (set_hptr p v (u_mem s)) s).
Definition ssize (p v : Z) : MU unit := modify (fun s => uset_mem (set_hsize p v (u_mem s)) s).

(** There are at most as many free blocks as headers fit below the break. *)
Definition ufuel (s : ustate) : nat := Z.to_nat ((u_brk s - base) / HDR + 2).

(** [for(p = freep; !(bp > p && bp < p->s.ptr); p = p->s.ptr) if(...) break;] *)
Fixpoint free_search (fuel : nat) (bp p : Z) : MU Z :=
  match fuel with
  | O => halt_with NoFuel
  | S fuel =>
      next ← lptr p;
      if ((p <? bp) && (bp <? next))%bool then mret p
      else if ((next <=? p) && ((p <? bp) || (bp <? next)))%bool then mret p
      else free_search fuel bp next
  end.

Definition free (ap : Z) : MU unit :=
  let bp := ap - HDR in
  freep ← gets u_freep;
  fuel ← gets ufuel;
  p ← free_search fuel bp freep;
  next ← lptr p;
  size ← lsize bp;
  (if bp + size * HDR =? next then
     nsize ← lsize next;
     ssize bp (u32 (size + nsize));;
     nnext ← lptr next;
     sptr bp nnext
   else sptr bp next);;
  psize ← lsize p;
  (if p + psize * HDR =? bp then
     size ← lsize bp;
     ssize p (u32 (psize + size));;
     next ← lptr bp;
     sptr p next
   else sptr p bp);;
  modify (uset_freep p).

(** [None] for the pointer -1. *)
Definition sbrk (n : Z) : MU (option Z) :=
  brk ← gets u_brk;
  if can_grow brk n then modify (uset_brk (brk + n));; mret (Some brk) else mret None.

Definition morecore (nu : Z) : MU Z :=
  let nu := if nu <? 4096 then 4096 else nu in
  p ← sbrk (nu * HDR);
  match p with
  | None => mret 0
  | Some hp => ssize hp nu;; free (hp + HDR);; gets u_freep
  end.

(** [if(p->s.size >= nunits){ ... }]: the block is found. *)
Definition take_block (nunits prevp p : Z) : MU Z :=
  size ← lsize p;
  p ← (if size =? nunits then next ← lptr p; sptr prevp next;; mret p
       else
         ssize p (u32 (size - nunits));;
         size ← lsize p;
         let p := p + size * HDR in
         ssize p nunits;; mret p);
  modify (uset_freep prevp);;
  mret (p + HDR).

Fixpoint malloc_loop (fuel : nat) (nunits prevp p : Z) : MU Z :=
  match fuel with
  | O => halt_with NoFuel
  | S fuel =>
      size ← lsize p;
      if nunits <=? size then take_block nunits prevp p
      else
        freep ← gets u_freep;
        if p =? freep then
          p ← morecore nunits;
          if p =? 0 then mret 0
          else next ← lptr p; malloc_loop fuel nunits p next
        else next ← lptr p; malloc_loop fuel nunits p next
  end.

Definition malloc (nbytes : Z) : MU Z :=
  let nunits := u32 ((nbytes + HDR - 1) / HDR + 1) in
  freep ← gets u_freep;
  (if freep =? 0 then sptr base base;; ssize base 0;; modify (uset_freep base) else mret tt);;
  prevp ← gets u_freep;
  p ← lptr prevp;
  fuel ← gets ufuel;
  (* one round of the free list, one more after it has grown *)
  malloc_loop (fuel + fuel) nunits prevp p.
End umalloc.
