(* ===== verification/UmallocProof.v ===== *)
(** * UmallocProof: the allocator's blocks are disjoint and keep their bytes *)
From S2P Require Import Prelude Mmu Umalloc.

(** Membership in lists put together from others. *)
Ltac in_app :=
  repeat first [rewrite elem_of_app | rewrite elem_of_cons]; tauto.

(** ** Headers *)

Section headers.
Implicit Types (m : Z -> Z) (a b v : Z).

(** Two headers are the same or do not overlap. *)
Definition hsep a b : Prop := a = b \/ a + 16 <= b \/ b + 16 <= a.

Lemma hptr_set_hptr a v m : 0 <= v < 2 ^ 64 -> hptr (set_hptr a v m) a = v.
Proof. apply read64_write64. Qed.

Lemma hsize_set_hsize a v m : is_u32 v -> hsize (set_hsize a v m) a = v.
Proof.
  intros Hv. unfold hsize, set_hsize. change 4%nat with (length (le_bytes 4 v)) at 2. rewrite peek_poke. by apply le_Z_bytes_4.
Qed.

Lemma set_hptr_frame a v m x : x < a \/ a + 16 <= x -> set_hptr a v m x = m x.
Proof. intros Hx. apply write64_other. lia. Qed.
Lemma set_hsize_frame a v m x : x < a \/ a + 16 <= x -> set_hsize a v m x = m x.
Proof. intros Hx. apply poke_other. rewrite length_le_bytes. lia. Qed.

Lemma hptr_set_hptr_ne a v m b : a + 16 <= b \/ b + 16 <= a -> hptr (set_hptr a v m) b = hptr m b.
Proof. intros Hs. apply read64_write64_other. lia. Qed.
Lemma hptr_set_hsize a v m b : hsep a b -> hptr (set_hsize a v m) b = hptr m b.
Proof. unfold hsep. intros Hs. apply read64_ext. intros x Hx. apply poke_other. rewrite length_le_bytes. lia. Qed.
Lemma hsize_set_hptr a v m b : hsep a b -> hsize (set_hptr a v m) b = hsize m b.
Proof. unfold hsep. intros Hs. unfold hsize. f_equal. apply peek_ext. intros x Hx. apply write64_other. lia. Qed.
Lemma hsize_set_hsize_ne a v m b : a + 16 <= b \/ b + 16 <= a -> hsize (set_hsize a v m) b = hsize m b.
Proof. intros Hs. unfold hsize. f_equal. apply peek_ext. intros x Hx. apply poke_other. rewrite length_le_bytes. lia. Qed.

(** A header whose bytes did not change. *)
Lemma header_ext m m' a : (forall x, a <= x < a + 16 -> m' x = m x) -> hptr m' a = hptr m a /\ hsize m' a = hsize m a.
Proof.
  intros Hx. split; [apply read64_ext; intros x ?; apply Hx; lia|].
  unfold hsize. f_equal. apply peek_ext. intros x ?. apply Hx. lia.
Qed.
End headers.

(** ** Blocks *)

(** A block is its address and its size in units. *)
Abbreviation block := (Z * Z)%type.
Definition bend (x : block) : Z := x.1 + HDR * x.2.
Definition disj (x y : block) : Prop := bend x <= y.1 \/ bend y <= x.1.

Fixpoint pairwise (l : list block) : Prop :=
  match l with [] => True | x :: l => Forall (disj x) l /\ pairwise l end.

Lemma disj_sym x y : disj x y -> disj y x.
Proof. unfold disj. tauto. Qed.

#[global] Instance pairwise_perm : Proper ((≡ₚ) ==> iff) pairwise.
Proof.
  assert (H : forall l l', l ≡ₚ l' -> pairwise l -> pairwise l').
  { induction 1 as [|x l l' Hp IH|x y l|l1 l2 l3 _ IH1 _ IH2]; cbn; [done| | |auto].
    - intros [? ?]. split; [by rewrite <- Hp|auto].
    - rewrite !Forall_cons. intros ([Hyx ?] & ? & ?). eauto using disj_sym. }
  intros l l' Hl. split; apply H; done.
Qed.

Lemma pairwise_app l l' : pairwise (l ++ l') <-> pairwise l /\ pairwise l' /\ forall x y, x ∈ l -> y ∈ l' -> disj x y.
Proof.
  induction l as [|x l IH]; cbn.
  - split; [intros; split; [done|]; split; [done|]; by intros x y ?%elem_of_nil|tauto].
  - rewrite IH, Forall_app, (Forall_forall _ l'). split.
    + intros ((? & H1) & ? & ? & H2). do 2 (split; [done|]). intros a b [->|?]%elem_of_cons; auto.
    + intros ((? & ?) & ? & H2). split; [split; [done|]|]; [intros y Hy; apply H2; [by left|done]|].
      split; [done|]. split; [done|]. intros a b Ha Hb. apply H2; [by right|done].
Qed.

(** ** The free list *)

(** From the header [a] the pointers lead through [fl], with its sizes, to
    the header [z]. *)
Fixpoint flinks (m : Z -> Z) (a : Z) (fl : list block) (z : Z) : Prop :=
  match fl with
  | [] => hptr m a = z
  | (b, n) :: fl => hptr m a = b /\ hsize m b = n /\ flinks m b fl z
  end.

(** The address of the last block of [fl], or [a]. *)
Definition last_of (a : Z) (fl : list block) : Z := default a (last fl.*1).

(** Blocks in address order, none of them adjacent to the one before. *)
Fixpoint apart (lo : Z) (fl : list block) : Prop :=
  match fl with
  | [] => True
  | x :: fl => lo < x.1 /\ 1 <= x.2 /\ apart (bend x) fl
  end.

Lemma flinks_app m l2 z b n : forall l1 a,
  flinks m a (l1 ++ (b, n) :: l2) z <-> flinks m a l1 b /\ hsize m b = n /\ flinks m b l2 z.
Proof. induction l1 as [|[c k] l1 IH]; intros a; cbn; [tauto|]. rewrite IH. tauto. Qed.

Lemma last_of_cons a b n l : last_of a ((b, n) :: l) = last_of b l.
Proof. unfold last_of. cbn [fmap list_fmap fst]. rewrite last_cons. by destruct (last _). Qed.

Lemma last_of_app a b n l : last_of a (l ++ [(b, n)]) = b.
Proof. unfold last_of. rewrite fmap_app. cbn. by rewrite last_snoc. Qed.

(** The last header of a path points to its end. *)
Lemma flinks_last m z : forall l a, flinks m a l z -> hptr m (last_of a l) = z.
Proof.
  induction l as [|[b n] l IH]; intros a; cbn [flinks]; [done|]. intros (_ & _ & H). rewrite last_of_cons. by apply IH.
Qed.

(** A path is the same if its headers are, up to the pointer of its last. *)
Lemma flinks_frame m m' z z' : forall l a,
  flinks m a l z -> (forall b, b ∈ l.*1 -> hsize m' b = hsize m b) ->
  (forall b, b ∈ a :: l.*1 -> b <> last_of a l -> hptr m' b = hptr m b) ->
  NoDup (a :: l.*1) -> hptr m' (last_of a l) = z' -> flinks m' a l z'.
Proof.
  induction l as [|[b n] l IH]; intros a; cbn [flinks]; [done|]. intros (Hp & Hs & Hl) Hsz Hptr Hnd Hz.
  rewrite last_of_cons in *. cbn [fmap list_fmap fst] in *. apply NoDup_cons in Hnd as [Ha Hnd].
  split; [|split].
  - rewrite Hptr; [done|by left|]. intros E. apply Ha. rewrite E. unfold last_of.
    destruct (last l.*1) as [x|] eqn:El; cbn; [right; by apply last_Some_elem_of|by left].
  - rewrite Hsz; [done|by left].
  - apply IH; [done|intros c Hc; apply Hsz; by right|intros c Hc; apply Hptr; by right|done|done].
Qed.

Definition end_of (lo : Z) (fl : list block) : Z := default lo (bend <$> last fl).

Lemma end_of_cons lo x l : end_of lo (x :: l) = end_of (bend x) l.
Proof. unfold end_of. rewrite last_cons. by destruct (last l). Qed.

Lemma apart_app x l2 : forall l1 lo,
  apart lo (l1 ++ x :: l2) <-> apart lo l1 /\ end_of lo l1 < x.1 /\ 1 <= x.2 /\ apart (bend x) l2.
Proof.
  induction l1 as [|y l1 IH]; intros lo; cbn [app apart]; [tauto|]. rewrite IH, end_of_cons. tauto.
Qed.

Lemma apart_in : forall l lo, apart lo l -> lo <= end_of lo l /\ forall x, x ∈ l -> lo < x.1 /\ 1 <= x.2 /\ bend x <= end_of lo l.
Proof.
  induction l as [|y l IH]; intros lo; cbn [apart].
  - intros _. split; [unfold end_of; cbn; lia|]. by intros x ?%elem_of_nil.
  - intros (H1 & H2 & H3). apply IH in H3 as [H4 H5]. rewrite end_of_cons.
    assert (bend y = y.1 + 16 * y.2) as Hy by done. split; [lia|].
    intros x [->|Hx]%elem_of_cons; [lia|]. destruct (H5 x Hx) as (? & ? & ?). lia.
Qed.

Lemma apart_mono lo lo' l : lo' <= lo -> apart lo l -> apart lo' l.
Proof. destruct l; cbn; [done|]. intros ? (? & ? & ?). split; [lia|done]. Qed.

Lemma apart_nodup : forall l lo a, apart lo l -> a <= lo -> NoDup (a :: l.*1).
Proof.
  induction l as [|y l IH]; intros lo a; cbn [apart fmap list_fmap]; [intros; apply NoDup_singleton|].
  intros (H1 & H2 & H3) Ha. apply NoDup_cons. split.
  - intros [E|(z & E & Hz)%list_elem_of_fmap]%elem_of_cons; [lia|]. destruct (apart_in _ _ H3) as [_ Hin].
    destruct (Hin z Hz). unfold bend, HDR in *. lia.
  - apply (IH (bend y)); [done|]. unfold bend, HDR. lia.
Qed.

(** The headers below and above an address. *)
Lemma apart_split b : forall l lo, apart lo l -> (forall x, x ∈ l -> x.1 <> b) ->
  exists l1 l2, l = l1 ++ l2 /\ (forall x, x ∈ l1 -> x.1 < b) /\ (forall x, x ∈ l2 -> b < x.1).
Proof.
  induction l as [|y l IH]; intros lo; cbn [apart].
  - intros _ _. exists [], []. split; [done|]. by split; intros x ?%elem_of_nil.
  - intros (H1 & H2 & H3) Hb. destruct (Z.lt_ge_cases y.1 b) as [Hy|Hy].
    + destruct (IH (bend y) H3) as (l1 & l2 & -> & Hl1 & Hl2); [intros x Hx; apply Hb; by right|].
      exists (y :: l1), l2. split; [done|]. split; [|done]. intros x [->|Hx]%elem_of_cons; auto.
    + exists [], (y :: l). split; [done|]. split; [by intros x ?%elem_of_nil|].
      assert (y.1 <> b) by (apply Hb; by left). destruct (apart_in _ _ H3) as [_ Hin].
      intros x [->|Hx]%elem_of_cons; [lia|]. destruct (Hin x Hx). unfold bend, HDR in *. lia.
Qed.

(** ** The invariant *)

Section proof.
Context `{Program}.

(** The free blocks [fl], in order, and the blocks [live] of the client. *)
Record heap_wf (s : ustate) (fl live : list block) : Prop := {
  hw_links : flinks (u_mem s) base fl base;
  hw_base : hsize (u_mem s) base = 0;
  hw_apart : apart (base + 15) fl;
  hw_in : forall x, x ∈ fl ++ live -> base + HDR <= x.1 /\ 1 <= x.2 /\ bend x <= u_brk s;
  hw_disj : pairwise (fl ++ live);
  hw_live : forall x, x ∈ live -> hsize (u_mem s) x.1 = x.2;
  hw_freep : u_freep s ∈ base :: fl.*1;
  hw_brk : base + HDR <= u_brk s <= 2 ^ 36;
}.

(** The client's blocks did not change. *)
Definition keeps (live : list block) (s s' : ustate) : Prop :=
  forall x a, x ∈ live -> x.1 <= a < bend x -> u_mem s' a = u_mem s a.

Lemma ukeeps_trans live s s' s'' : keeps live s s' -> keeps live s' s'' -> keeps live s s''.
Proof. intros H1 H2 x a Hx Ha. by rewrite (H2 x a), (H1 x a). Qed.

(** *** Searching for the place of a block *)

Lemma free_search_up bp l2 s : forall l1 p f, flinks (u_mem s) p (l1 ++ l2) base -> base <= p -> p < bp ->
  (forall x, x ∈ l1 -> x.1 < bp) -> (forall x, x ∈ l2 -> bp < x.1) -> (exists lo, p <= lo /\ apart lo l1) ->
  wp (free_search (S (length l1) + f) bp p) (fun r s' => r = last_of p l1 /\ s' = s) no_halt s.
Proof.
  induction l1 as [|[q n] l1 IH]; intros p f Hl Hp Hb H1 H2 (lo & Hlo & Ha); cbn [length Nat.add free_search]; unfold lptr; wp_step; wp_step.
  - rewrite (proj2 (Z.ltb_lt p bp)) by done. destruct l2 as [|[q n] l2]; cbn [app flinks] in Hl.
    + rewrite Hl, (proj2 (Z.ltb_ge bp base)), (proj2 (Z.leb_le base p)) by lia. cbn [andb orb]. by wp_step.
    + destruct Hl as (-> & _). rewrite (proj2 (Z.ltb_lt bp q)) by (apply (H2 (q, n)); by left). cbn [andb]. by wp_step.
  - cbn [app flinks] in Hl. destruct Hl as (-> & _ & Hl). cbn [apart] in Ha. destruct Ha as (Hq & Hn & Ha). cbn in Hq, Hn.
    assert (q < bp) by (apply (H1 (q, n)); by left).
    rewrite (proj2 (Z.ltb_ge bp q)), (proj2 (Z.leb_gt q p)) by lia. rewrite andb_false_r. cbn [andb].
    rewrite last_of_cons. apply (IH q f Hl); [lia|lia|intros x Hx; apply H1; by right|done|].
    exists (bend (q, n)). split; [unfold bend, HDR; cbn; lia|done].
Qed.

Lemma free_search_wrap bp s Q : base < bp -> forall l2 p f, flinks (u_mem s) p l2 base -> bp < p ->
  (exists lo, p <= lo /\ apart lo l2) ->
  wp (free_search f bp base) Q no_halt s -> wp (free_search (S (length l2) + f) bp p) Q no_halt s.
Proof.
  intros Hb. induction l2 as [|[q n] l2 IH]; intros p f Hl Hp (lo & Hlo & Ha) HQ; cbn [length Nat.add free_search]; unfold lptr; wp_step; wp_step;
    rewrite (proj2 (Z.ltb_ge p bp)) by lia; cbn [andb orb flinks] in *.
  - rewrite Hl, (proj2 (Z.ltb_ge bp base)) by lia. rewrite andb_false_r. done.
  - destruct Hl as (-> & _ & Hl). destruct Ha as (Hq & Hn & Ha). cbn in Hq, Hn.
    rewrite (proj2 (Z.leb_gt q p)) by lia. cbn [andb]. apply (IH q f Hl); [lia| |done].
    exists (bend (q, n)). split; [unfold bend, HDR; cbn; lia|done].
Qed.

(** Wherever the search starts, it ends at the header before the block. *)
Lemma free_search_spec s l1 l2 bp fuel :
  flinks (u_mem s) base (l1 ++ l2) base -> apart (base + 15) (l1 ++ l2) -> base < bp ->
  (forall x, x ∈ l1 -> x.1 < bp) -> (forall x, x ∈ l2 -> bp < x.1) ->
  u_freep s ∈ base :: (l1 ++ l2).*1 -> (length l1 + length l2 + 2 <= fuel)%nat ->
  wp (free_search fuel bp (u_freep s)) (fun r s' => r = last_of base l1 /\ s' = s) no_halt s.
Proof.
  intros Hl Ha Hb H1 H2 Hf Hfuel. apply elem_of_cons in Hf as [->|Hf].
  { replace fuel with (S (length l1) + (fuel - S (length l1)))%nat by lia. eapply (free_search_up bp l2); try done.
    exists (base + 15). split; [lia|]. destruct l2 as [|y l2]; [by rewrite app_nil_r in Ha|]. by apply apart_app in Ha as [? _]. }
  rewrite fmap_app in Hf. apply elem_of_app in Hf as [([p n] & -> & Hin)%list_elem_of_fmap|([p n] & -> & Hin)%list_elem_of_fmap];
    apply list_elem_of_split in Hin as (la & lb & ->); cbn [fst].
  - rewrite <- app_assoc in Hl, Ha. cbn [app] in Hl, Ha. apply flinks_app in Hl as (_ & _ & Hl). apply apart_app in Ha as (Ha0 & Hend & Hn & Ha).
    assert (base < p) by (destruct (apart_in _ _ Ha0); cbn in *; lia).
    rewrite length_app in Hfuel. cbn in Hfuel. replace fuel with (S (length lb) + (fuel - S (length lb)))%nat by lia.
    replace (last_of base (la ++ (p, n) :: lb)) with (last_of p lb).
    2:{ unfold last_of. rewrite fmap_app. cbn [fmap list_fmap fst]. rewrite last_app, last_cons. by destruct (last lb.*1). }
    eapply (free_search_up bp l2); try done; [lia|apply (H1 (p, n)); in_app|intros x Hx; apply H1; in_app|].
    exists (bend (p, n)). split; [unfold bend, HDR; cbn in *; lia|].
    destruct l2 as [|y l2]; [by rewrite app_nil_r in Ha|]. by apply apart_app in Ha as [? _].
  - pose proof Hl as Hl0. rewrite app_assoc in Hl. apply flinks_app in Hl as (_ & _ & Hl).
    pose proof Ha as Ha0. rewrite app_assoc in Ha. apply apart_app in Ha as (_ & _ & Hn & Ha).
    rewrite length_app in Hfuel. cbn in Hfuel.
    replace fuel with (S (length lb) + (S (length l1) + (fuel - S (length lb) - S (length l1))))%nat by lia.
    apply free_search_wrap; [done|done|apply (H2 (p, n)); in_app| |].
    + exists (bend (p, n)). split; [unfold bend, HDR; cbn in *; lia|done].
    + eapply (free_search_up bp (la ++ (p, n) :: lb)); try done.
      exists (base + 15). split; [lia|]. destruct la as [|y la]; cbn [app] in Ha0; by apply apart_app in Ha0 as [? _].
Qed.

(** *** Merging *)

Lemma pairwise_merge b n k l : (forall x, x ∈ l -> 1 <= x.2) -> 1 <= n -> 1 <= k ->
  pairwise ((b, n) :: (b + HDR * n, k) :: l) -> pairwise ((b, n + k) :: l).
Proof.
  intros Hl Hn Hk. cbn. rewrite !Forall_cons, !Forall_forall. intros ((_ & H1) & H2 & H3). split; [|done].
  intros x Hx. specialize (H1 x Hx). specialize (H2 x Hx). specialize (Hl x Hx). unfold disj, bend, HDR in *. cbn in *. lia.
Qed.

(** Between the two halves of [free]: the block [b] with [n] units leads into
    the upper part [l2], and the lower part [l1] does not lead to it yet. *)
Record half_freed (s : ustate) (l1 : list block) (b n : Z) (l2 live : list block) : Prop := {
  hf_low : exists z, flinks (u_mem s) base l1 z;
  hf_base : hsize (u_mem s) base = 0;
  hf_size : hsize (u_mem s) b = n;
  hf_high : flinks (u_mem s) b l2 base;
  hf_apart : apart (base + 15) l1 /\ end_of (base + 15) l1 <= b /\ apart (b + HDR * n) l2;
  hf_in : forall x, x ∈ (b, n) :: l1 ++ l2 ++ live -> base + HDR <= x.1 /\ 1 <= x.2 /\ bend x <= u_brk s;
  hf_disj : pairwise ((b, n) :: l1 ++ l2 ++ live);
  hf_live : forall x, x ∈ live -> hsize (u_mem s) x.1 = x.2;
  hf_brk : base + HDR <= u_brk s <= 2 ^ 36;
}.

(** Addresses in [live] are away from the header of another block. *)
Lemma live_away (l live : list block) b n x a :
  pairwise ((b, n) :: l ++ live) -> 1 <= n -> x ∈ live -> x.1 <= a < bend x -> a < b \/ b + 16 <= a.
Proof.
  intros Hp Hn Hx Ha. cbn in Hp. destruct Hp as [Hp _]. rewrite Forall_forall in Hp.
  assert (disj (b, n) x) as Hd by (apply Hp; in_app). unfold disj, bend, HDR in *. cbn in *. lia.
Qed.

Lemma headers_apart (l : list block) x y : pairwise l -> x ∈ l -> y ∈ l -> x.1 <> y.1 -> 1 <= x.2 -> 1 <= y.2 ->
  x.1 + 16 <= y.1 \/ y.1 + 16 <= x.1.
Proof.
  intros Hp Hx Hy Hne Hx1 Hy1. apply list_elem_of_split in Hx as (l1 & l2 & ->). revert Hp. rewrite <- Permutation_middle.
  cbn. intros [Hp _]. rewrite Forall_forall in Hp. assert (y ∈ l1 ++ l2) as Hy'.
  { revert Hy. rewrite !elem_of_app, elem_of_cons. intros [?|[->|?]]; [tauto|done|tauto]. }
  specialize (Hp y Hy'). unfold disj, bend, HDR in Hp. lia.
Qed.

Lemma flinks_tail m z l2 : forall l1 a, flinks m a (l1 ++ l2) z -> flinks m (last_of a l1) l2 z.
Proof.
  induction l1 as [|[b n] l1 IH]; intros a; cbn [app flinks]; [done|]. intros (_ & _ & Hl). rewrite last_of_cons. by apply IH.
Qed.

(** The path from another header with the same pointer. *)
Lemma flinks_start m m' a b z l : flinks m a l z -> hptr m' b = hptr m a ->
  (forall x, x ∈ l -> hptr m' x.1 = hptr m x.1 /\ hsize m' x.1 = hsize m x.1) -> flinks m' b l z.
Proof.
  revert a b. induction l as [|[c k] l IH]; intros a b; cbn [flinks]; [by intros <-|].
  intros (Hp & Hs & Hl) Hb Hx. destruct (Hx (c, k) ltac:(by left)) as [H1 H2]. cbn [fst] in H1, H2.
  split; [by rewrite Hb|]. split; [by rewrite H2|]. apply (IH c c); [done|done|]. intros x ?. apply Hx. by right.
Qed.

(** A block on its way to the free list, between [l1] and [l2]. *)
Section between.
Context (s : ustate) (l1 l2 : list block) (b n : Z) (live : list block).
Context (Hw : heap_wf s (l1 ++ l2) ((b, n) :: live)).
Context (Hl1 : forall x, x ∈ l1 -> x.1 < b) (Hl2 : forall x, x ∈ l2 -> b < x.1).

Lemma between_in x : x ∈ (b, n) :: l1 ++ l2 ++ live -> base + HDR <= x.1 /\ 1 <= x.2 /\ bend x <= u_brk s.
Proof. intros Hx. apply (hw_in _ _ _ Hw). revert Hx. rewrite !elem_of_app, !elem_of_cons, !elem_of_app. tauto. Qed.

Lemma between_disj : pairwise ((b, n) :: l1 ++ l2 ++ live).
Proof. pose proof (hw_disj _ _ _ Hw) as Hd. revert Hd. by rewrite <- Permutation_middle, <- app_assoc. Qed.

Lemma between_bounds : base + 16 <= b /\ 1 <= n /\ b + 16 * n <= u_brk s.
Proof. destruct (between_in (b, n) ltac:(by left)) as (H1 & H2 & H3). done. Qed.

Lemma between_apart : apart (base + 15) l1 /\ end_of (base + 15) l1 <= b /\
  forall x l, l2 = x :: l -> b + HDR * n <= x.1 /\ 1 <= x.2 /\ apart (bend x) l.
Proof.
  pose proof between_bounds as Hb. pose proof between_disj as Hd. cbn in Hd. rewrite Forall_forall in Hd. destruct Hd as [Hd _].
  pose proof (hw_apart _ _ _ Hw) as Ha. split; [|split].
  - destruct l2; [by rewrite app_nil_r in Ha|by apply apart_app in Ha as [? _]].
  - unfold end_of. destruct (last l1) as [x|] eqn:E; cbn; [|lia]. apply last_Some_elem_of in E.
    pose proof (Hl1 x E). assert (disj (b, n) x) as Hx by (apply Hd; in_app). unfold disj, bend, HDR in *. cbn in *. lia.
  - intros x l El. rewrite El in *. apply apart_app in Ha as (_ & _ & Hx1 & Ha). split; [|done].
    assert (x ∈ x :: l) as Hx by by left. pose proof (Hl2 x Hx). assert (disj (b, n) x) as Hdx by (apply Hd; in_app).
    unfold disj, bend, HDR in *. cbn in *. lia.
Qed.

(** Writing the block's own header leaves everything else. *)
Lemma between_frame m' : (forall a, a < b \/ b + 16 <= a -> m' a = u_mem s a) ->
  (exists z, flinks m' base l1 z) /\ hsize m' base = 0 /\ (forall x, x ∈ live -> hsize m' x.1 = x.2) /\
  (forall x, x ∈ l2 -> hptr m' x.1 = hptr (u_mem s) x.1 /\ hsize m' x.1 = hsize (u_mem s) x.1).
Proof.
  intros Hm'. pose proof between_bounds as Hb. pose proof between_disj as Hd. cbn in Hd. rewrite Forall_forall in Hd. destruct Hd as [Hd _].
  assert (Hsep : forall x, x ∈ l1 ++ l2 ++ live -> hptr m' x.1 = hptr (u_mem s) x.1 /\ hsize m' x.1 = hsize (u_mem s) x.1).
  { intros x Hx. destruct (between_in x ltac:(by right)) as (_ & Hx1 & _). apply header_ext. intros a Haa. apply Hm'.
    specialize (Hd x Hx). unfold disj, bend, HDR in *. cbn in *. lia. }
  assert (Hbase : hptr m' base = hptr (u_mem s) base /\ hsize m' base = hsize (u_mem s) base).
  { apply header_ext. intros a Haa. apply Hm'. lia. }
  destruct Hbase as [Hbp ->]. pose proof (hw_links _ _ _ Hw) as Hl. split; [|split; [by apply Hw|split]].
  - assert (exists z, flinks (u_mem s) base l1 z) as [z Hz].
    { destruct l2 as [|[c k] l2']; [rewrite app_nil_r in Hl; eauto|]. apply flinks_app in Hl as [? _]. eauto. }
    exists z. apply (flinks_start (u_mem s) m' base); [done|done|]. intros x Hx. apply Hsep. in_app.
  - intros x Hx. rewrite (proj2 (Hsep x ltac:(in_app))). apply Hw. by right.
  - intros x Hx. apply Hsep. in_app.
Qed.

End between.

(** The upper half: the block takes in the next one if they touch. *)
Lemma free_upper s l1 l2 b n live : heap_wf s (l1 ++ l2) ((b, n) :: live) ->
  (forall x, x ∈ l1 -> x.1 < b) -> (forall x, x ∈ l2 -> b < x.1) ->
  let next := hptr (u_mem s) (last_of base l1) in
  wp (if b + n * HDR =? next then
        nsize ← lsize next; ssize b (u32 (n + nsize));; nnext ← lptr next; sptr b nnext
      else sptr b next)
     (fun _ s' => exists n' l2', half_freed s' l1 b n' l2' live /\ n <= n' /\ (length l2' <= length l2)%nat /\
        u_brk s' = u_brk s /\ forall a, a < b \/ b + 16 <= a -> u_mem s' a = u_mem s a) no_halt s.
Proof.
  intros Hw H1 H2 next. pose proof (between_bounds _ _ _ _ _ _ Hw) as Hb.
  pose proof (between_apart _ _ _ _ _ _ Hw H1 H2) as (Ha1 & Ha2 & Ha3). pose proof (hw_brk _ _ _ Hw) as Hbrk.
  pose proof (between_disj _ _ _ _ _ _ Hw) as Hd. pose proof (between_in _ _ _ _ _ _ Hw) as Hin. pose proof (between_frame _ _ _ _ _ _ Hw H2) as Hfr. unfold lsize, lptr, ssize, sptr.
  assert (Hsz : hsize (u_mem s) b = n) by (apply (hw_live _ _ _ Hw (b, n)); by left).
  pose proof (flinks_tail _ _ _ _ _ (hw_links _ _ _ Hw)) as Ht.
  assert (Hrange : forall a l, flinks (u_mem s) a l base -> (forall x, x ∈ l -> x ∈ l2) -> 0 <= hptr (u_mem s) a < 2 ^ 64).
  { intros a l Hl Hx. pose proof base_pos. destruct l as [|[c k] l]; cbn [flinks] in Hl; [lia|]. destruct Hl as [-> _].
    assert ((c, k) ∈ l2) as Hc by (apply Hx; by left).
    destruct (Hin (c, k) ltac:(in_app)) as (G1 & G2 & G3). unfold bend, HDR in *. cbn [fst snd] in *. lia. }
  assert (Hnext : 0 <= next < 2 ^ 64) by (by apply (Hrange _ l2 Ht)).
  pose proof base_pos as Hbase. destruct (Z.eqb_spec (b + n * HDR) next) as [E|E].
  - destruct l2 as [|[c k] l2'] eqn:El2; [cbn [flinks] in Ht; unfold next, HDR in *; lia|].
    destruct (Ha3 _ _ eq_refl) as (_ & Hk & Ha4). cbn [snd] in Hk.
    destruct (Hin (c, k) ltac:(in_app)) as (Hc1 & _ & Hc2). unfold bend in Hc2. cbn [fst snd] in Hc1, Hc2.
    cbn [flinks] in Ht. destruct Ht as (Hl2n & Hck & Ht). fold next in Hl2n.
    do 6 wp_step. wp_step. rewrite Hl2n, Hck, u32_id by (unfold is_u32, HDR in *; lia).
    cbn [u_mem uset_mem]. rewrite hptr_set_hsize by (unfold hsep, HDR in *; lia).
    set (m' := set_hptr b (hptr (u_mem s) c) (set_hsize b (n + k) (u_mem s))).
    assert (Hm' : forall a, a < b \/ b + 16 <= a -> m' a = u_mem s a).
    { intros a Haa. unfold m'. by rewrite set_hptr_frame, set_hsize_frame. }
    destruct (Hfr m' Hm') as (F1 & F2 & F3 & F4).
    assert (Hperm : (b, n) :: l1 ++ ((c, k) :: l2') ++ live ≡ₚ (b, n) :: (c, k) :: l1 ++ l2' ++ live)
      by (apply perm_skip; cbn; by rewrite <- Permutation_middle).
    exists (n + k), l2'. split; [|split; [lia|split; [cbn; lia|done]]]. split; try done; cbn [u_mem uset_mem u_brk].
    + unfold m'. rewrite hsize_set_hptr by (by left). apply hsize_set_hsize. unfold is_u32, HDR in *. lia.
    + apply (flinks_start (u_mem s) m' c); [done| |intros x Hx; apply F4; by right].
      apply hptr_set_hptr. apply (Hrange c l2' Ht). intros x Hx. by right.
    + split; [done|]. split; [done|]. replace (b + HDR * (n + k)) with (bend (c, k)) by (unfold bend, HDR in *; cbn; lia). done.
    + intros x [->|Hx]%elem_of_cons; [unfold bend, HDR in *; cbn; lia|]. apply Hin. revert Hx. in_app.
    + apply pairwise_merge; [|lia|lia|].
      * intros x Hx. apply Hin. revert Hx. in_app.
      * replace (b + HDR * n) with c by lia. revert Hd. by rewrite Hperm.
  - wp_step. set (m' := set_hptr b next (u_mem s)).
    assert (Hm' : forall a, a < b \/ b + 16 <= a -> m' a = u_mem s a) by (intros a Haa; unfold m'; by rewrite set_hptr_frame).
    destruct (Hfr m' Hm') as (F1 & F2 & F3 & F4).
    exists n, l2. split; [|split; [lia|done]]. split; try done; cbn [u_mem uset_mem u_brk].
    + unfold m'. by rewrite hsize_set_hptr by (by left).
    + apply (flinks_start (u_mem s) m' (last_of base l1)); [done|by apply hptr_set_hptr|done].
    + split; [done|]. split; [done|]. destruct l2 as [|[c k] l2']; [done|]. destruct (Ha3 _ _ eq_refl) as (G1 & G2 & G3).
      cbn [flinks] in Ht. destruct Ht as [Hn _]. fold next in Hn. cbn in *. split; [unfold HDR in *; lia|done].
Qed.

(** Writing the header of the block (or [base]) before [b] leaves every other
    header, and the client's blocks. *)
Lemma half_frame s l1 b n l2 live m' : half_freed s l1 b n l2 live -> let p := last_of base l1 in
  (forall a, a < p \/ p + 16 <= a -> m' a = u_mem s a) ->
  (forall h, h ∈ base :: ((b, n) :: l1 ++ l2 ++ live).*1 -> h <> p -> hptr m' h = hptr (u_mem s) h /\ hsize m' h = hsize (u_mem s) h) /\
  (forall x a, x ∈ live -> x.1 <= a < bend x -> m' a = u_mem s a).
Proof.
  intros Hh p Hm'. pose proof (hf_in _ _ _ _ _ _ Hh) as Hin. pose proof (hf_disj _ _ _ _ _ _ Hh) as Hd.
  assert (Hp : p = base \/ exists k, (p, k) ∈ l1 /\ 1 <= k).
  { unfold p, last_of. destruct (last l1.*1) as [q|] eqn:E; cbn; [right|by left].
    apply last_Some_elem_of, list_elem_of_fmap in E as ([q' k] & -> & Hk). exists k. cbn. split; [done|].
    apply (Hin (q', k)). in_app. }
  split.
  - intros h Hh' Hne. apply header_ext. intros a Ha. apply Hm'.
    apply elem_of_cons in Hh' as [->|(x & -> & Hx)%list_elem_of_fmap].
    + destruct Hp as [?|(k & Hk & _)]; [done|]. destruct (Hin (p, k) ltac:(in_app)) as (? & _). unfold HDR in *. cbn in *. lia.
    + destruct (Hin x Hx) as (Hx1 & Hx2 & _). destruct Hp as [->|(k & Hk & Hk1)]; [unfold HDR in *; lia|].
      destruct (headers_apart _ x (p, k) Hd Hx ltac:(in_app)) as [?|?]; cbn in *; lia.
  - intros x a Hx Ha. apply Hm'. destruct (Hin x ltac:(in_app)) as (Hx1 & Hx2 & _).
    destruct Hp as [->|(k & Hk & Hk1)]; [unfold HDR in *; lia|].
    apply list_elem_of_split in Hk as (la & lb & E). apply (live_away ((b, n) :: la ++ lb ++ l2) live p k x); [|done|done|done].
    revert Hd. rewrite E, <- !app_assoc. cbn [app]. rewrite <- Permutation_middle. cbn [app]. rewrite <- !app_assoc. by rewrite perm_swap.
Qed.

(** The lower half: the block before takes it in if they touch, or points to
    it. *)
Definition free_low_code (p b : Z) : M ustate unit :=
  psize ← lsize p;
  (if p + psize * HDR =? b then
     size ← lsize b;
     ssize p (u32 (psize + size));;
     next ← lptr b;
     sptr p next
   else sptr p b);;
  modify (uset_freep p).

Definition freed_into (s s' : ustate) (k : nat) (b n : Z) (fl' live : list block) : Prop :=
  heap_wf s' fl' live /\ u_brk s' = u_brk s /\ keeps live s s' /\ (length fl' <= k)%nat /\
  exists x, x ∈ fl' /\ x.1 <= b /\ b + HDR * n <= bend x.

Lemma free_link s l1 b n l2 live : half_freed s l1 b n l2 live -> end_of (base + 15) l1 < b ->
  let p := last_of base l1 in
  freed_into s (uset_freep p (uset_mem (set_hptr p b (u_mem s)) s)) (S (length l1 + length l2)) b n (l1 ++ (b, n) :: l2) live.
Proof.
  intros Hh Hend p. set (m' := set_hptr p b (u_mem s)).
  assert (Hm' : forall a, a < p \/ p + 16 <= a -> m' a = u_mem s a) by (intros a Ha; unfold m'; by rewrite set_hptr_frame).
  destruct (half_frame _ _ _ _ _ _ m' Hh Hm') as [Hhd Hlv]. pose proof Hh as [[z Hlow] Hb0 Hsz Hhigh (Ha1 & _ & Ha2) Hin Hd Hlive Hbrk].
  destruct (Hin (b, n) ltac:(by left)) as (Hb1 & Hn & Hbe). unfold bend in Hbe. cbn [fst snd] in *.
  pose proof base_pos as Hbp. fold p in Hhd.
  assert (Hpl : p ∈ base :: l1.*1).
  { unfold p, last_of. destruct (last l1.*1) as [q|] eqn:E; cbn; [right; by apply last_Some_elem_of|by left]. }
  assert (Hplt : p < b).
  { apply elem_of_cons in Hpl as [->|(x & -> & Hx)%list_elem_of_fmap]; [unfold HDR in *; lia|].
    destruct (apart_in _ _ Ha1) as [_ H1]. destruct (H1 x Hx) as (? & ? & ?). unfold bend, HDR in *. lia. }
  assert (Hsizes : forall h, h ∈ base :: ((b, n) :: l1 ++ l2 ++ live).*1 -> hsize m' h = hsize (u_mem s) h).
  { intros h Hh'. destruct (decide (h = p)) as [->|]; [unfold m'; apply hsize_set_hptr; by left|by apply Hhd]. }
  assert (Hup : forall x, x ∈ (b, n) :: l2 -> x.1 <> p).
  { intros x [->|Hx]%elem_of_cons; cbn; [lia|]. destruct (apart_in _ _ Ha2) as [_ H1]. destruct (H1 x Hx). unfold HDR in *. lia. }
  split; [|split; [done|split; [done|split; [rewrite length_app; cbn; lia|]]]].
  - split; cbn [u_mem uset_freep uset_mem u_freep u_brk].
    + apply flinks_app. split; [|split].
      * apply (flinks_frame (u_mem s) m' z); [done| | |by apply (apart_nodup _ (base + 15)); [|lia]|].
        -- intros c (x & -> & Hx)%list_elem_of_fmap. apply Hsizes. right. apply list_elem_of_fmap. exists x. split; [done|]. in_app.
        -- intros c Hc Hne. apply Hhd; [|done]. apply elem_of_cons in Hc as [->|(x & -> & Hx)%list_elem_of_fmap]; [by left|].
           right. apply list_elem_of_fmap. exists x. split; [done|]. in_app.
        -- apply hptr_set_hptr. unfold HDR in *. lia.
      * rewrite Hsizes; [done|]. right. by left.
      * apply (flinks_start (u_mem s) m' b); [done| |].
        -- apply Hhd; [right; by left|lia].
        -- intros x Hx. apply Hhd; [|apply Hup; by right]. right. apply list_elem_of_fmap. exists x. split; [done|]. in_app.
    + rewrite Hsizes; [done|by left].
    + apply apart_app. done.
    + intros x Hx. apply Hin. revert Hx. in_app.
    + revert Hd. rewrite <- app_assoc. cbn [app]. by rewrite <- Permutation_middle.
    + intros x Hx. rewrite Hsizes; [by apply Hlive|]. right. apply list_elem_of_fmap. exists x. split; [done|]. in_app.
    + rewrite fmap_app. revert Hpl. in_app.
    + done.
  - exists (b, n). split; [in_app|]. unfold bend. cbn. lia.
Qed.

Lemma free_absorb s l0 p np b n l2 live : half_freed s (l0 ++ [(p, np)]) b n l2 live -> p + HDR * np = b ->
  let m' := set_hptr p (hptr (u_mem s) b) (set_hsize p (np + n) (u_mem s)) in
  freed_into s (uset_freep p (uset_mem m' s)) (S (length (l0 ++ [(p, np)]) + length l2)) b n (l0 ++ (p, np + n) :: l2) live.
Proof.
  intros Hh Hpb m'. pose proof (last_of_app base p np l0) as Hlast.
  assert (Hm' : forall a, a < p \/ p + 16 <= a -> m' a = u_mem s a) by (intros a Ha; unfold m'; by rewrite set_hptr_frame, set_hsize_frame).
  assert (HF : forall a, a < last_of base (l0 ++ [(p, np)]) \/ last_of base (l0 ++ [(p, np)]) + 16 <= a -> m' a = u_mem s a) by by rewrite Hlast.
  destruct (half_frame _ _ _ _ _ _ m' Hh HF) as [Hhd Hlv]. rewrite Hlast in Hhd.
  pose proof Hh as [[z Hlow] Hb0 Hsz Hhigh (Ha1 & _ & Ha2) Hin Hd Hlive Hbrk]. pose proof base_pos as Hbp.
  destruct (Hin (b, n) ltac:(by left)) as (Hb1 & Hn & Hbe). destruct (Hin (p, np) ltac:(in_app)) as (Hp1 & Hnp & _).
  unfold bend in Hbe. cbn [fst snd] in *. apply flinks_app in Hlow as (Hlow & Hps & _). apply apart_app in Ha1 as (Ha1 & Hend & _ & _). cbn [fst] in Hend.
  assert (Hhd' : forall x, x ∈ l0 ++ l2 ++ live -> x.1 <> p -> hptr m' x.1 = hptr (u_mem s) x.1 /\ hsize m' x.1 = hsize (u_mem s) x.1).
  { intros x Hx Hne. apply Hhd; [|done]. right. apply list_elem_of_fmap. exists x. split; [done|]. revert Hx. in_app. }
  assert (Hlo : forall x, x ∈ l0 -> x.1 <> p).
  { intros x Hx. destruct (apart_in _ _ Ha1) as [_ H1]. destruct (H1 x Hx) as (? & ? & ?). unfold bend, HDR in *. lia. }
  assert (Hhi : forall x, x ∈ l2 -> x.1 <> p).
  { intros x Hx. destruct (apart_in _ _ Ha2) as [_ H1]. destruct (H1 x Hx). unfold HDR in *. lia. }
  assert (Hsum : pairwise ((p, np + n) :: l0 ++ l2 ++ live)).
  { apply pairwise_merge; [intros x Hx; apply (Hin x); revert Hx; in_app|done|done|]. rewrite Hpb. revert Hd.
    rewrite <- app_assoc. cbn [app]. rewrite <- Permutation_middle. by rewrite perm_swap. }
  split; [|split; [done|split; [done|split; [rewrite !length_app; cbn; lia|]]]].
  - split; cbn [u_mem uset_freep uset_mem u_freep u_brk].
    + apply flinks_app. split; [|split].
      * apply (flinks_start (u_mem s) m' base); [done|apply Hhd; [by left|unfold HDR in *; lia]|].
        intros x Hx. apply Hhd'; [in_app|by apply Hlo].
      * unfold m'. rewrite hsize_set_hptr by (by left). apply hsize_set_hsize. unfold is_u32, HDR in *. lia.
      * apply (flinks_start (u_mem s) m' b); [done| |intros x Hx; apply Hhd'; [in_app|by apply Hhi]].
        apply hptr_set_hptr. destruct l2 as [|[c k] l2]; cbn [flinks] in Hhigh; [unfold HDR in *; lia|]. destruct Hhigh as [-> _].
        destruct (Hin (c, k) ltac:(in_app)) as (? & ? & ?). unfold bend, HDR in *. cbn in *. lia.
    + rewrite (proj2 (Hhd base ltac:(by left) ltac:(unfold HDR in *; lia))). done.
    + apply apart_app. cbn. unfold bend. cbn. split; [done|]. split; [done|]. split; [lia|].
      replace (p + HDR * (np + n)) with (b + HDR * n) by lia. done.
    + intros x. rewrite <- app_assoc. cbn [app]. rewrite <- Permutation_middle. intros [->|Hx]%elem_of_cons.
      * unfold bend. cbn. split; [done|]. split; [lia|]. unfold HDR in *. lia.
      * apply Hin. revert Hx. in_app.
    + rewrite <- app_assoc. cbn [app]. by rewrite <- Permutation_middle.
    + intros x Hx. rewrite (proj2 (Hhd' x ltac:(in_app) ltac:(intros E; revert Hsum; cbn; rewrite Forall_forall; intros [H1 _];
        specialize (H1 x ltac:(in_app)); destruct (Hin x ltac:(in_app)) as (_ & ? & _); unfold disj, bend, HDR in *; cbn in *; lia))).
      by apply Hlive.
    + rewrite fmap_app. cbn [fmap list_fmap fst]. in_app.
    + done.
  - exists (p, np + n). split; [in_app|]. unfold bend, HDR in *. cbn. lia.
Qed.

Lemma free_lower s l1 b n l2 live : half_freed s l1 b n l2 live ->
  wp (free_low_code (last_of base l1) b)
     (fun _ s' => exists fl', freed_into s s' (S (length l1 + length l2)) b n fl' live) no_halt s.
Proof.
  intros Hh. pose proof (hf_in _ _ _ _ _ _ Hh) as Hin. pose proof (hf_brk _ _ _ _ _ _ Hh) as Hbrk.
  destruct (Hin (b, n) ltac:(by left)) as (Hb1 & Hn & Hbe). unfold bend in Hbe. cbn [fst snd] in *.
  pose proof (hf_apart _ _ _ _ _ _ Hh) as (Ha1 & Hend & _). pose proof base_pos as Hbp.
  unfold free_low_code, lsize, lptr, ssize, sptr. wp_step. wp_step. wp_step.
  destruct l1 as [|[p np] l0 _] using rev_ind.
  - unfold last_of in *. cbn [fmap list_fmap last default] in *. rewrite (hf_base _ _ _ _ _ _ Hh).
    rewrite (proj2 (Z.eqb_neq _ _)) by (unfold HDR in *; lia). wp_step. wp_step. eexists. apply (free_link s [] b n l2 live Hh).
    unfold end_of. cbn. unfold HDR in *. lia.
  - rewrite last_of_app. destruct (Hin (p, np) ltac:(in_app)) as (Hp1 & Hnp & _). cbn [fst snd] in *.
    destruct (hf_low _ _ _ _ _ _ Hh) as [z Hlow]. apply flinks_app in Hlow as (_ & -> & _).
    assert (He : end_of (base + 15) (l0 ++ [(p, np)]) = p + HDR * np) by (unfold end_of; by rewrite last_snoc).
    destruct (Z.eqb_spec (p + np * HDR) b) as [E|E].
    + do 6 wp_step. wp_step. wp_step. cbn [u_mem uset_mem]. rewrite (hf_size _ _ _ _ _ _ Hh).
      rewrite hptr_set_hsize by (unfold hsep, HDR in *; lia). rewrite u32_id by (unfold is_u32, HDR in *; lia).
      eexists. apply (free_absorb s l0 p np b n l2 live Hh). lia.
    + wp_step. wp_step. eexists. pose proof (free_link s _ b n l2 live Hh ltac:(lia)) as H1. rewrite last_of_app in H1. exact H1.
Qed.

(** The free list is shorter than the fuel. *)
Lemma heap_fuel s fl live : heap_wf s fl live -> (length fl + 2 <= ufuel s)%nat.
Proof.
  intros [_ _ Ha Hin _ _ _ Hbrk]. unfold ufuel.
  assert (H1 : forall l lo, apart lo l -> (forall x, x ∈ l -> bend x <= u_brk s) -> l <> [] -> lo + 16 * Z.of_nat (length l) <= u_brk s).
  { clear. induction l as [|x l IH]; intros lo; cbn [apart]; [done|]. intros (H1 & H2 & H3) Hx _.
    specialize (Hx x ltac:(by left)) as Hxe. unfold bend, HDR in Hxe. destruct l as [|y l]; [cbn [length]; lia|].
    specialize (IH (bend x) H3 ltac:(intros; apply Hx; by right) ltac:(done)). unfold bend, HDR in IH. cbn [length] in *. lia. }
  assert (Hlen : 16 * Z.of_nat (length fl) <= u_brk s - base).
  { destruct fl as [|x fl]; [unfold HDR in *; cbn; lia|]. specialize (H1 (x :: fl) _ Ha).
    assert (base + 15 + 16 * Z.of_nat (length (x :: fl)) <= u_brk s) by (apply H1; [intros y Hy; apply Hin, elem_of_app; by left|done]). lia. }
  assert (Z.of_nat (length fl) <= (u_brk s - base) / HDR) by (apply Z.div_le_lower_bound; unfold HDR; lia). lia.
Qed.

(** [free] returns and the block is free, alone or merged. *)
Lemma free_spec s fl b n live : heap_wf s fl ((b, n) :: live) ->
  wp (free (b + HDR)) (fun _ s' => exists fl', freed_into s s' (S (length fl)) b n fl' live) no_halt s.
Proof.
  intros Hw. unfold free. cbv zeta. replace (b + HDR - HDR) with b by lia. wp_step. wp_step. wp_step. wp_step.
  pose proof (hw_disj _ _ _ Hw) as Hd. destruct (hw_in _ _ _ Hw (b, n) ltac:(in_app)) as (Hb1 & Hn & Hbe).
  unfold bend in Hbe. cbn [fst snd] in *.
  destruct (apart_split b fl _ (hw_apart _ _ _ Hw)) as (l1 & l2 & -> & H1 & H2).
  { intros x Hx E. destruct (hw_in _ _ _ Hw x ltac:(in_app)) as (_ & Hx1 & _). apply pairwise_app in Hd as (_ & _ & Hd).
    specialize (Hd x (b, n) Hx ltac:(by left)). unfold disj, bend, HDR in *. cbn in *. lia. }
  pose proof (heap_fuel _ _ _ Hw) as Hfuel. rewrite length_app in Hfuel. wp_step.
  eapply wp_conseq; [apply (free_search_spec s l1 l2); [apply Hw|apply Hw|unfold HDR in *; lia|done|done|apply Hw|lia]|].
  cbn beta. intros r s' [-> ->]. wp_step. apply wp_gets. wp_step. apply wp_gets.
  assert (hsize (u_mem s) b = n) as -> by (apply (hw_live _ _ _ Hw (b, n)); by left).
  wp_step. eapply wp_conseq; [by apply (free_upper s l1 l2 b n live)|].
  cbn beta. intros ? s1 (n' & l2' & Hh & Hnn & Hlen & Hbk & Hfr).
  eapply wp_conseq; [apply (free_lower s1 l1 b n' l2' live Hh)|]. cbn beta.
  intros ? s2 (fl' & Hw' & Hb2 & Hk & Hl' & x & Hx & Hx1 & Hx2). exists fl'.
  split; [done|]. split; [congruence|]. split; [|split; [rewrite length_app; lia|exists x; split; [done|]; unfold HDR in *; lia]].
  intros y c Hy Hc. rewrite (Hk y c Hy Hc). apply Hfr. apply (live_away (l1 ++ l2) live b n y c); [|done|done|done].
  revert Hd. by rewrite <- Permutation_middle.
Qed.
End proof.
