(* ===== verification/UmallocTheorems.v ===== *)
(** * UmallocTheorems: malloc and free as a client sees them *)
From S2P Require Import Prelude Mmu Umalloc UmallocProof.

Lemma flinks_glue m z l2 : forall l1 a, (exists y, flinks m a l1 y) -> flinks m (last_of a l1) l2 z -> flinks m a (l1 ++ l2) z.
Proof.
  induction l1 as [|[b n] l1 IH]; intros a [y Hy] Ht; [done|]. cbn [flinks app] in *. rewrite last_of_cons in Ht.
  destruct Hy as (H1 & H2 & H3). split; [done|]. split; [done|]. apply IH; eauto.
Qed.

Lemma last_of_middle a l p n l' : last_of a (l ++ (p, n) :: l') = last_of p l'.
Proof. unfold last_of. rewrite fmap_app. cbn [fmap list_fmap fst]. rewrite last_app, last_cons. by destruct (last l'.*1). Qed.

Section theorems.
Context `{Program}.

(** A free block seen from the two sides of it. *)
Lemma wf_half s l1 p n l2 live : heap_wf s (l1 ++ (p, n) :: l2) live -> half_freed s l1 p n l2 live.
Proof.
  intros [Hl Hb Ha Hin Hd Hlv Hf Hbrk]. apply flinks_app in Hl as (H1 & H2 & H3). apply apart_app in Ha as (H4 & H5 & H6 & H7).
  split; try done; [eauto|split; [done|split; [cbn in H5; lia|done]]| |].
  - intros x Hx. apply Hin. revert Hx. in_app.
  - revert Hd. rewrite <- app_assoc. cbn [app]. by rewrite <- Permutation_middle.
Qed.

(** What [malloc] and [free] leave: a block of [nunits] was handed out. *)
Definition allotted (s s' : ustate) (live : list block) (nunits r : Z) : Prop :=
  exists q fl', r = q + HDR /\ heap_wf s' fl' ((q, nunits) :: live) /\ keeps live s s'.

(** The whole block is handed out. *)
Lemma take_exact s l1 p n l2 live : heap_wf s (l1 ++ (p, n) :: l2) live ->
  let prevp := last_of base l1 in
  allotted s (uset_freep prevp (uset_mem (set_hptr prevp (hptr (u_mem s) p) (u_mem s)) s)) live n (p + HDR).
Proof.
  intros Hw prevp. pose proof (wf_half _ _ _ _ _ _ Hw) as Hh. set (m' := set_hptr prevp (hptr (u_mem s) p) (u_mem s)).
  assert (Hm' : forall a, a < prevp \/ prevp + 16 <= a -> m' a = u_mem s a) by (intros a Ha; unfold m'; by rewrite set_hptr_frame).
  destruct (half_frame _ _ _ _ _ _ m' Hh Hm') as [Hhd Hlv]. fold prevp in Hhd.
  pose proof Hh as [[z Hlow] Hb0 Hsz Hhigh (Ha1 & Hend & Ha2) Hin Hd Hlive Hbrk].
  pose proof (hw_apart _ _ _ Hw) as Ha. apply apart_app in Ha as (_ & Hend' & Hn & _). cbn [fst snd] in Hend', Hn.
  assert (Hpl : prevp ∈ base :: l1.*1).
  { unfold prevp, last_of. destruct (last l1.*1) as [q|] eqn:E; cbn; [right; by apply last_Some_elem_of|by left]. }
  assert (Hplt : prevp < p).
  { apply elem_of_cons in Hpl as [->|(x & -> & Hx)%list_elem_of_fmap].
    - destruct (apart_in _ _ Ha1). lia.
    - destruct (apart_in _ _ Ha1) as [_ H1]. destruct (H1 x Hx) as (? & ? & ?). unfold bend, HDR in *. lia. }
  assert (Hsizes : forall x, x ∈ (p, n) :: l1 ++ l2 ++ live -> hsize m' x.1 = hsize (u_mem s) x.1).
  { intros x Hx. destruct (decide (x.1 = prevp)) as [->|]; [unfold m'; apply hsize_set_hptr; by left|].
    apply Hhd; [|done]. right. by apply list_elem_of_fmap_2. }
  exists p, (l1 ++ l2). split; [done|]. split; [|done]. split; cbn [u_mem uset_freep uset_mem u_freep u_brk].
  - apply flinks_glue.
    + exists (hptr m' prevp). apply (flinks_frame (u_mem s) m' z); [done| | |by apply (apart_nodup _ (base + 15)); [|lia]|done].
      * intros c (x & -> & Hx)%list_elem_of_fmap. apply Hsizes. in_app.
      * intros c Hc Hne. apply Hhd; [|done]. apply elem_of_cons in Hc as [->|(x & -> & Hx)%list_elem_of_fmap]; [by left|].
        right. apply list_elem_of_fmap_2. in_app.
    + apply (flinks_start (u_mem s) m' p); [done| |].
      * apply hptr_set_hptr. pose proof base_pos. destruct l2 as [|[c k] l2]; cbn [flinks] in Hhigh; [unfold HDR in *; lia|].
        destruct Hhigh as [-> _]. destruct (Hin (c, k) ltac:(in_app)) as (? & ? & ?). unfold bend, HDR in *. cbn in *. lia.
      * intros x Hx. apply Hhd; [right; apply list_elem_of_fmap_2; in_app|]. destruct (apart_in _ _ Ha2) as [_ H1].
        destruct (H1 x Hx). unfold HDR in *. lia.
  - destruct (decide (base = prevp)) as [E|E]; [unfold m'; rewrite <- E; by rewrite hsize_set_hptr by (by left)|].
    by rewrite (proj2 (Hhd base ltac:(by left) E)).
  - clear -Ha1 Hend' Ha2 Hn. destruct l2 as [|x l2]; [by rewrite app_nil_r|]. apply apart_app. cbn in Ha2.
    destruct Ha2 as (? & ? & ?). split; [done|]. split; [unfold HDR in *; lia|done].
  - intros x Hx. apply Hin. revert Hx. in_app.
  - revert Hd. rewrite <- (Permutation_middle (l1 ++ l2)), <- app_assoc. done.
  - intros x [->|Hx]%elem_of_cons; [by rewrite Hsizes by by left|]. rewrite Hsizes by in_app. by apply Hlive.
  - rewrite fmap_app. revert Hpl. in_app.
  - done.
Qed.

(** The tail of the block is handed out. *)
Lemma take_split s l1 p n l2 live k : heap_wf s (l1 ++ (p, n) :: l2) live -> 1 <= k < n ->
  let q := p + HDR * (n - k) in
  allotted s (uset_freep (last_of base l1) (uset_mem (set_hsize q k (set_hsize p (n - k) (u_mem s))) s)) live k (q + HDR).
Proof.
  intros Hw Hk q. pose proof (wf_half _ _ _ _ _ _ Hw) as Hh. set (m' := set_hsize q k (set_hsize p (n - k) (u_mem s))).
  pose proof Hh as [[z Hlow] Hb0 Hsz Hhigh (Ha1 & Hend & Ha2) Hin Hd Hlive Hbrk].
  pose proof (hw_apart _ _ _ Hw) as Ha. apply apart_app in Ha as (_ & Hend' & Hn & _). cbn [fst snd] in Hend', Hn.
  destruct (Hin (p, n) ltac:(by left)) as (Hp1 & _ & Hpe). unfold bend in Hpe. cbn [fst snd] in *. pose proof base_pos as Hbp.
  assert (Hq : p + 16 <= q /\ q + HDR * k = p + HDR * n) by (unfold q, HDR; lia).
  assert (Hm' : forall a, a < p \/ p + HDR * n <= a -> m' a = u_mem s a).
  { intros a Haa. unfold m'. rewrite !set_hsize_frame by (unfold HDR in *; lia). done. }
  assert (Hout : forall x, x ∈ l1 ++ l2 ++ live -> forall a, x.1 <= a < bend x -> m' a = u_mem s a).
  { intros x Hx a Hax. apply Hm'. cbn in Hd. rewrite Forall_forall in Hd. destruct Hd as [Hd _]. specialize (Hd x Hx).
    unfold disj, bend in *. cbn in *. lia. }
  assert (Hhd : forall x, x ∈ l1 ++ l2 ++ live -> hptr m' x.1 = hptr (u_mem s) x.1 /\ hsize m' x.1 = hsize (u_mem s) x.1).
  { intros x Hx. apply header_ext. intros a Hax. apply (Hout x Hx). destruct (Hin x ltac:(by right)) as (_ & ? & _). unfold bend, HDR. lia. }
  assert (Hbase : hptr m' base = hptr (u_mem s) base /\ hsize m' base = hsize (u_mem s) base).
  { apply header_ext. intros a Hax. apply Hm'. unfold HDR in *. lia. }
  assert (Hu32 : is_u32 (n - k) /\ is_u32 k) by (unfold is_u32, HDR in *; lia).
  exists q, (l1 ++ (p, n - k) :: l2). split; [done|]. split.
  2:{ intros x a Hx Hax. cbn. apply (Hout x); [in_app|done]. }
  split; cbn [u_mem uset_freep uset_mem u_freep u_brk].
  - apply flinks_glue.
    + exists p. apply (flinks_start (u_mem s) m' base); [|apply Hbase|intros x Hx; apply Hhd; in_app].
      pose proof (hw_links _ _ _ Hw) as Hl. apply flinks_app in Hl as [Hl _]. exact Hl.
    + pose proof (flinks_tail _ _ _ _ _ (hw_links _ _ _ Hw)) as Ht. cbn [flinks] in Ht |- *. destruct Ht as (Ht1 & _ & Ht2).
      split; [|split].
      * assert (hptr m' (last_of base l1) = hptr (u_mem s) (last_of base l1)) as ->; [|done].
        unfold last_of. destruct (last l1.*1) as [c|] eqn:E; cbn; [|apply Hbase].
        apply last_Some_elem_of, list_elem_of_fmap in E as (x & -> & Hx). apply Hhd. in_app.
      * unfold m'. rewrite hsize_set_hsize_ne by lia. apply hsize_set_hsize, Hu32.
      * apply (flinks_start (u_mem s) m' p); [done| |intros x Hx; apply Hhd; in_app].
        unfold m'. rewrite !hptr_set_hsize by (unfold hsep; lia). done.
  - rewrite (proj2 Hbase). done.
  - apply apart_app. cbn. split; [done|]. split; [done|]. split; [lia|]. apply (apart_mono (p + HDR * n)); [unfold bend, HDR; cbn; lia|done].
  - intros x. rewrite <- app_assoc. cbn [app]. rewrite <- (Permutation_middle l1), (app_assoc l1), <- (Permutation_middle (l1 ++ l2)), <- app_assoc.
    intros [->|[->|Hx]%elem_of_cons]%elem_of_cons; [unfold bend, HDR in *; cbn; lia..|]. apply Hin. by right.
  - rewrite <- app_assoc. cbn [app]. rewrite <- (Permutation_middle l1), (app_assoc l1), <- (Permutation_middle (l1 ++ l2)), <- app_assoc.
    clear -Hd Hk Hq. cbn in Hd |- *. rewrite !Forall_cons, !Forall_forall in *. destruct Hd as [Hd1 Hd2].
    split; [split|split; [|done]]; [unfold disj, bend, HDR in *; cbn in *; lia| |];
      intros x Hx; specialize (Hd1 x Hx); unfold disj, bend, HDR in *; cbn in *; lia.
  - intros x [->|Hx]%elem_of_cons; [cbn; unfold m'; apply hsize_set_hsize, Hu32|]. rewrite (proj2 (Hhd x ltac:(in_app))). by apply Hlive.
  - rewrite fmap_app. unfold last_of. destruct (last l1.*1) as [c|] eqn:E; cbn; [|by left]. apply last_Some_elem_of in E. in_app.
  - done.
Qed.

Lemma take_block_spec s l1 p n l2 live nunits : heap_wf s (l1 ++ (p, n) :: l2) live -> 1 <= nunits <= n ->
  wp (take_block nunits (last_of base l1) p) (fun r s' => allotted s s' live nunits r) no_halt s.
Proof.
  intros Hw Hk. assert (Hsz : hsize (u_mem s) p = n) by (apply (wf_half _ _ _ _ _ _ Hw)).
  destruct (hw_in _ _ _ Hw (p, n) ltac:(in_app)) as (Hp & Hn & Hbe). unfold bend in Hbe. cbn [fst snd] in *.
  pose proof (hw_brk _ _ _ Hw) as Hbrk. pose proof base_pos as Hbp.
  unfold take_block, lsize, lptr, ssize, sptr. wp_step. wp_step. rewrite Hsz. wp_step. destruct (Z.eqb_spec n nunits) as [->|Hne].
  - do 8 wp_step. exact (take_exact s l1 p nunits l2 live Hw).
  - rewrite (u32_id (n - nunits)) by (unfold is_u32, HDR in *; lia). do 4 wp_step. cbn [u_mem uset_mem].
    rewrite hsize_set_hsize by (unfold is_u32, HDR in *; lia). cbv zeta. do 6 wp_step.
    rewrite (Z.mul_comm (n - nunits)). apply (take_split s l1 p n l2 live nunits Hw). lia.
Qed.

(** ** Growing the heap *)
Lemma morecore_spec s fl live nu : heap_wf s fl live -> 1 <= nu ->
  wp (morecore nu) (fun r s' => (r = 0 /\ s' = s) \/
    (r <> 0 /\ r = u_freep s' /\ exists fl', heap_wf s' fl' live /\ keeps live s s' /\ (length fl' <= S (length fl))%nat /\
       exists x, x ∈ fl' /\ nu <= x.2)) no_halt s.
Proof.
  intros Hw Hnu. unfold morecore. cbv zeta. set (n := if nu <? 4096 then 4096 else nu).
  assert (nu <= n) as Hn by (unfold n; destruct (Z.ltb_spec nu 4096); lia). clearbody n.
  unfold sbrk. wp_step. wp_step. wp_step. destruct (can_grow (u_brk s) (n * HDR)) eqn:Eg; [|wp_step; wp_step; by left].
  apply can_grow_limit in Eg. do 3 wp_step. unfold ssize. wp_step. wp_step. wp_step. cbn [u_mem uset_mem u_brk uset_brk].
  set (b := u_brk s) in *. set (m' := set_hsize b n (u_mem s)). set (s1 := uset_mem m' (uset_brk (b + n * HDR) s)).
  pose proof Hw as [Hl Hb0 Ha Hin Hd Hlv Hf Hbrk]. pose proof base_pos as Hbp.
  assert (Hm' : forall a, a < b -> m' a = u_mem s a) by (intros a Haa; apply set_hsize_frame; lia).
  assert (Hhd : forall x, x ∈ fl ++ live -> hptr m' x.1 = hptr (u_mem s) x.1 /\ hsize m' x.1 = hsize (u_mem s) x.1).
  { intros x Hx. apply header_ext. intros a Haa. apply Hm'. destruct (Hin x Hx) as (? & ? & ?). unfold bend, HDR in *. lia. }
  assert (Hbase : hptr m' base = hptr (u_mem s) base /\ hsize m' base = hsize (u_mem s) base).
  { apply header_ext. intros a Haa. apply Hm'. unfold HDR in *. lia. }
  assert (Hw1 : heap_wf s1 fl ((b, n) :: live)).
  { split; cbn [s1 u_mem u_brk u_freep uset_mem uset_brk]; try done.
    - apply (flinks_start (u_mem s) m' base); [done|apply Hbase|intros x Hx; apply Hhd; in_app].
    - by rewrite (proj2 Hbase).
    - intros x. rewrite <- Permutation_middle. intros [->|Hx]%elem_of_cons; [unfold bend, HDR in *; cbn; lia|].
      destruct (Hin x Hx) as (? & ? & ?). unfold HDR in *. lia.
    - rewrite <- Permutation_middle. cbn. rewrite Forall_forall. split; [|done]. intros x Hx. destruct (Hin x Hx) as (_ & _ & ?). by right.
    - intros x [->|Hx]%elem_of_cons; [apply hsize_set_hsize; unfold is_u32, HDR in *; cbn; lia|].
      rewrite (proj2 (Hhd x ltac:(in_app))). by apply Hlv.
    - unfold HDR in *. lia. }
  eapply wp_conseq; [by apply (free_spec s1 fl b n live)|]. cbn beta.
  intros ? s2 (fl' & Hw2 & _ & Hk2 & Hlen & x & Hx & Hx1 & Hx2). wp_step. right. split; [|split; [done|]].
  - pose proof (hw_freep _ _ _ Hw2) as Hf2. apply elem_of_cons in Hf2 as [->|(y & -> & Hy)%list_elem_of_fmap]; [lia|].
    destruct (hw_in _ _ _ Hw2 y ltac:(in_app)) as (? & _). unfold HDR in *. lia.
  - exists fl'. split; [done|]. split; [|split; [done|exists x; split; [done|unfold bend, HDR in *; lia]]].
    intros y c Hy Hyc. rewrite (Hk2 y c Hy Hyc). cbn. apply Hm'. destruct (Hin y ltac:(in_app)) as (_ & _ & ?). lia.
Qed.

(** ** Searching for a block that is large enough *)

(** Along a stretch of the free list that does not pass [freep]. *)
Lemma malloc_walk s nunits z (Q : Z -> ustate -> Prop) : forall l prevp f,
  flinks (u_mem s) prevp l z -> (forall x, x ∈ l -> x.1 <> u_freep s) ->
  (forall l' p n l'', l = l' ++ (p, n) :: l'' -> nunits <= n -> wp (take_block nunits (last_of prevp l') p) Q no_halt s) ->
  ((forall x, x ∈ l -> x.2 < nunits) -> wp (malloc_loop f nunits (last_of prevp l) z) Q no_halt s) ->
  wp (malloc_loop (length l + f) nunits prevp (hptr (u_mem s) prevp)) Q no_halt s.
Proof.
  induction l as [|[b n] l IH]; intros prevp f Hl Hne Htake Hcont; cbn [flinks] in Hl.
  - cbn [length Nat.add]. rewrite Hl. apply Hcont. by intros x ?%elem_of_nil.
  - destruct Hl as (-> & Hsz & Hl). cbn [length Nat.add malloc_loop]. wp_step. apply wp_gets. rewrite Hsz.
    destruct (Z.leb_spec nunits n) as [Hfit|Hfit]; [by apply (Htake [] b n l)|]. wp_step. wp_step.
    rewrite (proj2 (Z.eqb_neq _ _)) by (apply (Hne (b, n)); by left). wp_step. apply wp_gets.
    apply (IH b f Hl); [intros x Hx; apply Hne; by right| |].
    + intros l' p k l'' -> Hk. rewrite <- (last_of_cons prevp b n). by apply (Htake ((b, n) :: l') p k l'').
    + rewrite <- (last_of_cons prevp b n). intros Hsmall. apply Hcont.
      intros x [->|Hx]%elem_of_cons; [done|by apply Hsmall].
Qed.

Definition grow_code (f : nat) (nunits : Z) : M ustate Z :=
  p ← morecore nunits;
  if p =? 0 then mret 0 else next ← lptr p; malloc_loop f nunits p next.

(** One round from [freep]: a block is taken, or none is large enough and
    the heap has to grow. *)
Lemma malloc_round s fl live nunits f (Q : Z -> ustate -> Prop) : heap_wf s fl live -> 1 <= nunits ->
  (forall r s', allotted s s' live nunits r -> Q r s') ->
  ((forall x, x ∈ fl -> x.2 < nunits) -> wp (grow_code f nunits) Q no_halt s) ->
  wp (malloc_loop (S (length fl) + f) nunits (u_freep s) (hptr (u_mem s) (u_freep s))) Q no_halt s.
Proof.
  intros Hw Hk HQ Hgrow. pose proof Hw as [Hl Hb0 Ha Hin Hd Hlv Hf Hbrk].
  assert (Htake : forall l' p n l'', fl = l' ++ (p, n) :: l'' -> nunits <= n -> wp (take_block nunits (last_of base l') p) Q no_halt s).
  { intros l' p n l'' -> Hn. eapply wp_conseq; [apply (take_block_spec s l' p n l'' live nunits Hw); lia|]. cbn beta. eauto. }
  apply elem_of_cons in Hf as [Ef|([q nq] & Ef & Hq)%list_elem_of_fmap]; rewrite Ef.
  - replace (S (length fl) + f)%nat with (length fl + S f)%nat by lia. apply (malloc_walk s nunits base); [done| |done|].
    + intros x Hx. rewrite Ef. destruct (Hin x ltac:(in_app)) as (? & _). unfold HDR in *. lia.
    + intros Hsmall. cbn [malloc_loop]. wp_step. apply wp_gets. rewrite Hb0, (proj2 (Z.leb_gt _ _)) by lia. wp_step. wp_step.
      rewrite (proj2 (Z.eqb_eq _ _)) by done. by apply Hgrow.
  - cbn [fst] in *. apply list_elem_of_split in Hq as (la & lb & ->). apply flinks_app in Hl as (Hla & Hqs & Hlb).
    assert (Hb15 : base <= base + 15) by lia. pose proof (apart_nodup _ _ _ Ha Hb15) as Hnd. rewrite fmap_app in Hnd. cbn [fmap list_fmap fst] in Hnd.
    apply NoDup_cons in Hnd as [Hnb Hnd]. apply NoDup_app in Hnd as (_ & Hnla & Hnlb). apply NoDup_cons in Hnlb as [Hnlb _].
    rewrite length_app. cbn [length].
    replace (S (length la + S (length lb)) + f)%nat with (length lb + S (length la + S f))%nat by lia.
    apply (malloc_walk s nunits base); [done| | |].
    + intros x Hx E. apply Hnlb. rewrite <- Ef, <- E. by apply list_elem_of_fmap_2.
    + intros l' p n l'' -> Hn. rewrite <- (last_of_middle base la q nq). apply (Htake (la ++ (q, nq) :: l') p n l''); [|done].
      by rewrite <- app_assoc.
    + intros Hsb. cbn [malloc_loop]. wp_step. apply wp_gets. rewrite Hb0, (proj2 (Z.leb_gt _ _)) by lia. wp_step. wp_step.
      rewrite (proj2 (Z.eqb_neq _ _)) by (intros E; apply Hnb; rewrite E, Ef, elem_of_app; right; by left). wp_step. apply wp_gets.
      apply (malloc_walk s nunits q); [done| | |].
      * intros x Hx E. apply (Hnla x.1); [by apply list_elem_of_fmap_2|]. rewrite E, Ef. by left.
      * intros l' p n l'' -> Hn. apply (Htake l' p n (l'' ++ (q, nq) :: lb)); [by rewrite <- app_assoc|done].
      * intros Hsa. cbn [malloc_loop]. wp_step. apply wp_gets. rewrite Hqs. destruct (Z.leb_spec nunits nq) as [Hfit|Hfit].
        { by apply (Htake la q nq lb). }
        wp_step. wp_step. rewrite (proj2 (Z.eqb_eq _ _)) by done. apply Hgrow.
        intros x. rewrite elem_of_app, elem_of_cons. intros [?|[->|?]]; auto.
Qed.

(** ** The allocator *)

(** Before the first call of [malloc]. *)
Definition fresh_heap (s : ustate) : Prop := u_freep s = 0 /\ base + HDR <= u_brk s <= 2 ^ 36.

Definition heap_ok (s : ustate) (live : list block) : Prop :=
  (exists fl, heap_wf s fl live) \/ (fresh_heap s /\ live = []).

(** Units for [nbytes] and a header. *)
Definition units (nbytes : Z) : Z := (nbytes + HDR - 1) / HDR + 1.

Lemma units_spec nbytes : is_u32 nbytes -> 1 <= units nbytes /\ is_u32 (units nbytes) /\ nbytes <= HDR * (units nbytes - 1).
Proof.
  intros Hn. unfold units, HDR, is_u32 in *. pose proof (Z.div_mod (nbytes + 16 - 1) 16 ltac:(lia)).
  pose proof (Z.mod_pos_bound (nbytes + 16 - 1) 16 ltac:(lia)). lia.
Qed.

Lemma malloc_wf s fl live nbytes : heap_wf s fl live -> is_u32 nbytes ->
  wp (prevp ← gets u_freep; p ← lptr prevp; fuel ← gets ufuel; malloc_loop (fuel + fuel) (units nbytes) prevp p)
     (fun r s' => (r = 0 /\ s' = s) \/ allotted s s' live (units nbytes) r) no_halt s.
Proof.
  intros Hw Hn. destruct (units_spec nbytes Hn) as (Hu & _ & _). pose proof (heap_fuel _ _ _ Hw) as Hf.
  wp_step. wp_step. wp_step. apply wp_gets. wp_step. wp_step.
  replace (ufuel s + ufuel s)%nat with (S (length fl) + (ufuel s + ufuel s - S (length fl)))%nat by lia.
  apply (malloc_round s fl live); [done|done|by right|]. intros _. unfold grow_code. wp_step.
  eapply wp_conseq; [by apply (morecore_spec s fl live)|]. cbn beta.
  intros r s1 [[-> ->]|(Hr & Er & fl1 & Hw1 & Hk1 & Hlen & x & Hx & Hxn)]; [cbn [Z.eqb]; wp_step; by left|].
  rewrite (proj2 (Z.eqb_neq r 0)) by done. wp_step. apply wp_gets. rewrite Er.
  replace (ufuel s + ufuel s - S (length fl))%nat with (S (length fl1) + (ufuel s + ufuel s - S (length fl) - S (length fl1)))%nat by lia.
  apply (malloc_round s1 fl1 live); [done|done| |].
  - intros r' s2 (q & fl2 & E2 & Hw2 & Hk2). right. exists q, fl2. split; [done|]. split; [done|]. exact (ukeeps_trans _ _ _ _ Hk1 Hk2).
  - intros Hsmall. specialize (Hsmall x Hx). lia.
Qed.

(** [malloc] always returns: null, or a block apart from all others. *)
Lemma malloc_spec s live nbytes : heap_ok s live -> is_u32 nbytes ->
  wp (malloc nbytes)
     (fun r s' => (r = 0 /\ heap_ok s' live /\ keeps live s s') \/ allotted s s' live (units nbytes) r) no_halt s.
Proof.
  intros Hok Hn. destruct (units_spec nbytes Hn) as (_ & Hu & _). unfold malloc. cbv zeta.
  change ((nbytes + HDR - 1) / HDR + 1) with (units nbytes). rewrite (u32_id (units nbytes)) by done.
  wp_step. wp_step. wp_step. pose proof base_pos as Hbp. destruct Hok as [[fl Hw]|[[Hfp Hbrk] ->]].
  - rewrite (proj2 (Z.eqb_neq _ _)).
    2:{ pose proof (hw_freep _ _ _ Hw) as Hf. apply elem_of_cons in Hf as [->|(y & -> & Hy)%list_elem_of_fmap]; [lia|].
        destruct (hw_in _ _ _ Hw y ltac:(in_app)) as (? & _). unfold HDR in *. lia. }
    wp_step. eapply wp_conseq; [by apply (malloc_wf s fl live)|]. cbn beta.
    intros r s' [[-> ->]|?]; [left; split; [done|]; split; [left; by exists fl|done]|by right].
  - rewrite Hfp. cbn [Z.eqb]. unfold sptr, ssize. do 5 wp_step.
    set (s1 := uset_freep base _). assert (Hw : heap_wf s1 [] []).
    { split; unfold s1; cbn [flinks u_mem uset_freep uset_mem u_brk u_freep app]; [|by apply hsize_set_hsize|done|by intros x ?%elem_of_nil|done|by intros x ?%elem_of_nil|by left|done].
      rewrite hptr_set_hsize by (by left). apply hptr_set_hptr. unfold HDR in *. lia. }
    eapply wp_conseq; [by apply (malloc_wf s1 [] [])|]. cbn beta.
    intros r s' [[-> ->]|(q & fl' & ? & ? & _)]; [left; split; [done|]; split; [left; by exists []|]|right; exists q, fl'; split; [done|]; split; [done|]];
      by intros x ? ?%elem_of_nil.
Qed.

(** ** A client of the allocator

    The blocks that the client owns, with the bytes it expects in each. *)
Inductive ureach : ustate -> gmap Z (list Z) -> Prop :=
| ur_start s : fresh_heap s -> ureach s ∅
| ur_malloc s A n r s' : ureach s A -> is_u32 n -> malloc n s = (Ret r, s') ->
    ureach s' (if r =? 0 then A else <[r := peek (u_mem s') r (Z.to_nat n)]> A)
| ur_free s A p bs u s' : ureach s A -> A !! p = Some bs -> free p s = (Ret u, s') -> ureach s' (delete p A)
| ur_write s A p bs off v : ureach s A -> A !! p = Some bs -> (off + length v <= length bs)%nat ->
    ureach (uset_mem (poke (p + Z.of_nat off) v (u_mem s)) s) (<[p := splice off v bs]> A).

(** Each block of the client is live, large enough, and holds its bytes. *)
Definition owned (s : ustate) (live : list block) (A : gmap Z (list Z)) : Prop :=
  forall p bs, A !! p = Some bs -> exists n, (p - HDR, n) ∈ live /\ Z.of_nat (length bs) <= HDR * (n - 1) /\
    peek (u_mem s) p (length bs) = bs.

Lemma heap_wf_perm s fl live live' : live ≡ₚ live' -> heap_wf s fl live -> heap_wf s fl live'.
Proof.
  intros Hp [? ? ? Hin Hd Hl ? ?]. split; try done; [intros x; rewrite <- Hp; apply Hin|by rewrite <- Hp|intros x; rewrite <- Hp; apply Hl].
Qed.

Lemma owned_keeps s s' live live' A :
  owned s live A -> keeps live s s' -> (forall x, x ∈ live -> x ∈ live') -> owned s' live' A.
Proof.
  intros Ho Hk Hsub p bs Hp. destruct (Ho p bs Hp) as (n & Hn & Hlen & Hpk). exists n. split; [by apply Hsub|]. split; [done|].
  rewrite <- Hpk at 2. apply peek_ext. intros a Ha. apply (Hk (p - HDR, n)); [done|]. unfold bend, HDR in *. cbn. lia.
Qed.

Lemma wf_distinct s fl live x y : heap_wf s fl live -> x ∈ live -> y ∈ live -> x = y \/ disj x y.
Proof.
  intros Hw Hx Hy. pose proof (hw_disj _ _ _ Hw) as Hd. apply pairwise_app in Hd as (_ & Hd & _).
  apply list_elem_of_split in Hx as (l1 & l2 & ->). revert Hd Hy. rewrite <- Permutation_middle. cbn. rewrite Forall_forall.
  intros [Hd _] [->|Hy]%elem_of_cons; [by left|right; by apply Hd].
Qed.

Lemma free_wf s fl live p n : heap_wf s fl live -> (p - HDR, n) ∈ live ->
  exists live', live ≡ₚ (p - HDR, n) :: live' /\
    wp (free p) (fun _ s' => exists fl', heap_wf s' fl' live' /\ keeps live' s s') no_halt s.
Proof.
  intros Hw Hp. apply list_elem_of_split in Hp as (l1 & l2 & ->). exists (l1 ++ l2). assert (Hperm : l1 ++ (p - HDR, n) :: l2 ≡ₚ (p - HDR, n) :: l1 ++ l2)
    by (by rewrite <- Permutation_middle). split; [done|]. replace p with (p - HDR + HDR) at 1 by lia.
  eapply wp_conseq; [apply (free_spec s fl _ n (l1 ++ l2)); by apply (heap_wf_perm _ _ _ _ Hperm)|]. cbn beta.
  intros ? s' (fl' & ? & _ & ? & _). by exists fl'.
Qed.

Lemma client_write s fl live A p bs off v : heap_wf s fl live -> owned s live A -> A !! p = Some bs -> (off + length v <= length bs)%nat ->
  heap_wf (uset_mem (poke (p + Z.of_nat off) v (u_mem s)) s) fl live /\
  owned (uset_mem (poke (p + Z.of_nat off) v (u_mem s)) s) live (<[p := splice off v bs]> A).
Proof.
  intros Hw Ho Hp Hoff. destruct (Ho p bs Hp) as (n & Hn & Hlen & Hpk). set (m' := poke (p + Z.of_nat off) v (u_mem s)).
  destruct (hw_in _ _ _ Hw (p - HDR, n) ltac:(in_app)) as (Hb & Hn1 & _). cbn [fst snd] in Hb, Hn1.
  assert (Hm' : forall a, a < p \/ p - HDR + HDR * n <= a -> m' a = u_mem s a).
  { intros a Ha. apply poke_other. unfold HDR in *. lia. }
  assert (Hhd : forall x, x ∈ fl ++ live -> hptr m' x.1 = hptr (u_mem s) x.1 /\ hsize m' x.1 = hsize (u_mem s) x.1).
  { intros x Hx. apply header_ext. intros a Ha. apply Hm'. destruct (hw_in _ _ _ Hw x Hx) as (_ & Hx1 & _).
    destruct (decide (x = (p - HDR, n))) as [->|Hne]; [cbn in Ha; unfold HDR in *; lia|].
    assert (disj (p - HDR, n) x) as Hdx; [|unfold disj, bend, HDR in *; cbn in *; lia].
    apply elem_of_app in Hx as [Hx|Hx]; [|destruct (wf_distinct _ _ _ _ _ Hw Hn Hx); [congruence|done]].
    pose proof (hw_disj _ _ _ Hw) as Hd. apply pairwise_app in Hd as (_ & _ & Hd). by apply disj_sym, Hd. }
  assert (Hbase : hptr m' base = hptr (u_mem s) base /\ hsize m' base = hsize (u_mem s) base).
  { apply header_ext. intros a Ha. apply Hm'. unfold HDR in *. lia. }
  split.
  - pose proof Hw as [Hl Hb0 Ha Hin Hd Hlv Hf Hbrk]. split; cbn [u_mem uset_mem u_brk u_freep]; try done.
    + apply (flinks_start (u_mem s) m' base); [done|apply Hbase|]. intros x Hx. apply Hhd. in_app.
    + by rewrite (proj2 Hbase).
    + intros x Hx. rewrite (proj2 (Hhd x ltac:(in_app))). by apply Hlv.
  - intros q cs. destruct (decide (q = p)) as [->|Hne].
    + rewrite lookup_insert_eq. intros [= <-]. exists n. split; [done|]. rewrite length_splice by done. split; [done|].
      apply list_eq. intros i. cbn [u_mem uset_mem]. destruct (decide (i < length bs)%nat) as [Hi|Hi].
      2:{ rewrite !lookup_ge_None_2; [done|rewrite length_splice by done; lia|rewrite length_peek; lia]. }
      rewrite lookup_peek by done. unfold m'. destruct (decide (off <= i < off + length v)%nat) as [Hin|Hout].
      * rewrite lookup_splice_in by lia. unfold poke.
        rewrite (proj2 (Z.leb_le _ _)), (proj2 (Z.ltb_lt _ _)) by lia. cbn [andb].
        replace (Z.to_nat (p + Z.of_nat i - (p + Z.of_nat off))) with (i - off)%nat by lia.
        destruct (lookup_lt_is_Some_2 v (i - off)) as [x ->]; [lia|done].
      * rewrite lookup_splice_out, poke_other by lia. rewrite <- Hpk, lookup_peek by done. done.
    + rewrite lookup_insert_ne by done. intros Hq. destruct (Ho q cs Hq) as (k & Hk & Hlk & Hqk). exists k. split; [done|]. split; [done|].
      cbn [u_mem uset_mem]. rewrite <- Hqk at 2. apply peek_ext. intros a Ha. apply Hm'.
      destruct (wf_distinct _ _ _ _ _ Hw Hn Hk) as [E|Hdx]; [injection E; lia|]. unfold disj, bend, HDR in *. cbn in *. lia.
Qed.

Lemma ureach_inv s A : ureach s A -> exists live, heap_ok s live /\ owned s live A.
Proof.
  induction 1 as [s Hs|s A n r s' _ (live & Hok & Ho) Hn Hrun|s A p bs u s' _ (live & Hok & Ho) Hp Hrun|s A p bs off v _ (live & Hok & Ho) Hp Hoff].
  - exists []. split; [by right|]. by intros p bs ?%lookup_empty_Some.
  - pose proof (malloc_spec s live n Hok Hn) as Hm. unfold wp in Hm. rewrite Hrun in Hm. cbn in Hm.
    destruct Hm as [(-> & Hok' & Hk)|(q & fl' & -> & Hw' & Hk)]; [exists live; split; [done|]; by apply (owned_keeps s s' live)|].
    exists ((q, units n) :: live). split; [left; by exists fl'|].
    destruct (hw_in _ _ _ Hw' (q, units n) ltac:(in_app)) as (Hq & _). cbn [fst] in Hq. pose proof base_pos.
    rewrite (proj2 (Z.eqb_neq _ _)) by (unfold HDR in *; lia). intros p bs. destruct (decide (p = q + HDR)) as [->|Hne].
    + rewrite lookup_insert_eq. intros [= <-]. exists (units n). rewrite length_peek. destruct (units_spec n Hn) as (_ & _ & Hu).
      split; [replace (q + HDR - HDR) with q by lia; by left|]. split; [unfold is_u32 in Hn; lia|done].
    + rewrite lookup_insert_ne by done. apply (owned_keeps s s' live); [done|done|]. intros x Hx. by right.
  - destruct (Ho p bs Hp) as (n & Hn & _). destruct Hok as [[fl Hw]|[_ ->]]; [|by apply elem_of_nil in Hn].
    destruct (free_wf s fl live p n Hw Hn) as (live' & Hperm & Hf). unfold wp in Hf. rewrite Hrun in Hf. cbn in Hf.
    destruct Hf as (fl' & Hw' & Hk). exists live'. split; [left; by exists fl'|].
    intros q cs [Hne Hq]%lookup_delete_Some. apply (owned_keeps s s' live' live' (delete p A)); [|done|done|by rewrite lookup_delete_ne].
    intros q' cs' [Hne' Hq']%lookup_delete_Some. destruct (Ho q' cs' Hq') as (k & Hk' & ?). exists k. split; [|done].
    revert Hk'. rewrite Hperm. intros [E|?]%elem_of_cons; [injection E; lia|done].
  - destruct (Ho p bs Hp) as (n & Hn & _). destruct Hok as [[fl Hw]|[_ ->]]; [|by apply elem_of_nil in Hn].
    destruct (client_write s fl live A p bs off v Hw Ho Hp Hoff) as [Hw' Ho']. exists live. split; [left; by exists fl|done].
Qed.

(** C13: for every sequence of calls of malloc and free by a program, which
    writes anything into the blocks it owns: the blocks lie in the heap, do
    not overlap, and keep the bytes written to them; malloc always returns
    null or the address of a block that is not in use, and free returns on
    every block in use. *)
Theorem umalloc_sound s A : ureach s A ->
  (forall p bs, A !! p = Some bs ->
     base + HDR <= p /\ p + Z.of_nat (length bs) <= u_brk s /\ peek (u_mem s) p (length bs) = bs) /\
  (forall p q bs cs, A !! p = Some bs -> A !! q = Some cs -> p <> q ->
     p + Z.of_nat (length bs) <= q \/ q + Z.of_nat (length cs) <= p) /\
  (forall n, is_u32 n -> wp (malloc n) (fun r s' => r = 0 \/ A !! r = None /\ r + n <= u_brk s') no_halt s) /\
  (forall p bs, A !! p = Some bs -> wp (free p) (fun _ _ => True) no_halt s).
Proof.
  intros (live & Hok & Ho)%ureach_inv.
  assert (Hwf : forall p bs, A !! p = Some bs -> exists fl, heap_wf s fl live).
  { intros p bs Hp. destruct (Ho p bs Hp) as (n & Hn & _). destruct Hok as [?|[_ ->]]; [done|by apply elem_of_nil in Hn]. }
  split; [|split; [|split]].
  - intros p bs Hp. destruct (Hwf p bs Hp) as [fl Hw]. destruct (Ho p bs Hp) as (n & Hn & Hlen & Hpk).
    destruct (hw_in _ _ _ Hw (p - HDR, n) ltac:(in_app)) as (? & ? & ?). unfold bend, HDR in *. cbn in *. split; [lia|]. split; [lia|done].
  - intros p q bs cs Hp Hq Hne. destruct (Hwf p bs Hp) as [fl Hw]. destruct (Ho p bs Hp) as (n & Hn & Hl & _). destruct (Ho q cs Hq) as (k & Hk & Hlk & _).
    destruct (hw_in _ _ _ Hw (p - HDR, n) ltac:(in_app)) as (_ & ? & _). destruct (hw_in _ _ _ Hw (q - HDR, k) ltac:(in_app)) as (_ & ? & _).
    destruct (wf_distinct _ _ _ _ _ Hw Hn Hk) as [E|Hd]; [injection E; lia|]. unfold disj, bend, HDR in *. cbn in *. lia.
  - intros n Hn. eapply wp_conseq; [by apply (malloc_spec s live)|]. cbn beta.
    intros r s' [(-> & _)|(q & fl' & -> & Hw' & _)]; [by left|right].
    destruct (units_spec n Hn) as (Hu1 & _ & Hu). destruct (hw_in _ _ _ Hw' (q, units n) ltac:(in_app)) as (_ & _ & Hend).
    split; [|unfold bend, HDR in *; cbn in *; lia]. destruct (A !! (q + HDR)) as [bs|] eqn:E; [|done].
    destruct (Ho _ _ E) as (k & Hk & _). replace (q + HDR - HDR) with q in Hk by lia.
    pose proof (hw_disj _ _ _ Hw') as Hd. apply pairwise_app in Hd as (_ & [Hd _] & _). rewrite Forall_forall in Hd. specialize (Hd _ Hk).
    destruct (hw_in _ _ _ Hw' (q, k) ltac:(in_app)) as (_ & ? & _). unfold disj, bend, HDR in *. cbn in *. lia.
  - intros p bs Hp. destruct (Hwf p bs Hp) as [fl Hw]. destruct (Ho p bs Hp) as (n & Hn & _).
    destruct (free_wf s fl live p n Hw Hn) as (live' & _ & Hf). by eapply wp_conseq; [exact Hf|].
Qed.
End theorems.

Module UmallocInstances.
#[local] Instance prog : Program := {| base := 8192; base_pos := eq_refl; can_grow := fun b n => b + n <=? 2 ^ 20; can_grow_limit := ltac:(intros b n Hb; apply Z.leb_le in Hb; lia) |}.

Definition s0 : ustate := mkU (fun _ => 0) 0 65536.
Definition s1 : ustate := (malloc 20 s0).2.
Definition p1 : Z := 65536 + 65536 - 48 + 16.

(** The first block is cut from the end of a fresh piece of the heap, and a
    free block before it is extended when it is given back. *)
Lemma malloc_runs : (malloc 20 s0).1 = Ret p1 /\ (malloc 4 s1).1 = Ret (p1 - 32).
Proof. vm_compute. done. Qed.

Lemma umalloc_sound_witness : peek (u_mem s1) p1 20 = peek (u_mem s1) p1 20 /\ p1 + 20 <= u_brk s1.
Proof.
  assert (E : malloc 20 s0 = (Ret p1, s1)).
  { unfold s1. pose proof malloc_runs as [E _]. destruct (malloc 20 s0) as [o s]. cbn in *. by rewrite E. }
  assert (Hr : ureach s1 (<[p1 := peek (u_mem s1) p1 20]> ∅)).
  { apply (ur_malloc s0 ∅ 20 p1 s1); [apply ur_start; split; [done|vm_compute; done]|unfold is_u32; lia|exact E]. }
  destruct (umalloc_sound s1 _ Hr) as (H1 & _). destruct (H1 p1 _ (lookup_insert_eq _ _ _)) as (_ & H2 & _).
  rewrite length_peek in H2. split; [done|exact H2].
Defined.
End UmallocInstances.
