(* ===== verification/Mkfs.v ===== *)
(** * Mkfs: the program that builds the disk image (mkfs.c)

    The image is the list of its blocks.  [exit(1)] after a failed read is the
    halt [Exited], a failed [assert] a panic; messages are left out.  The files
    of the host open and the host's disk has room: mkfs exits otherwise. *)
From S2P Require Import Prelude CString FsFormat.

Definition NINODES : Z := 200.
Definition nbitmap : Z := FSSIZE / (BSIZE * 8) + 1.
Definition ninodeblocks : Z := NINODES / IPB + 1.
Definition nlog : Z := LOGSIZE.
Definition nmeta : Z := 2 + nlog + ninodeblocks + nbitmap.
Definition zeroes : list Z := replicate (Z.to_nat BSIZE) 0.

(** The bytes of the result are those of [x] in little-endian order; the host
    is little-endian. *)
Definition xshort (x : Z) : Z := le_Z (le_bytes 2 x).
Definition xint (x : Z) : Z := le_Z (le_bytes 4 x).

Definition mkfs_sb : superblock :=
  mkSb (xint FSSIZE) (xint (FSSIZE - nmeta)) (xint NINODES) (xint nlog) (xint 2) (xint (2 + nlog)) (xint (2 + nlog + ninodeblocks)).

Record mkfs := mkMkfs { mk_img : list (list Z); mk_freeinode : Z; mk_freeblock : Z }.
Definition mset_img v s := mkMkfs v (mk_freeinode s) (mk_freeblock s).
Definition mset_freeinode v s := mkMkfs (mk_img s) v (mk_freeblock s).
Definition mset_freeblock v s := mkMkfs (mk_img s) (mk_freeinode s) v.

(** Where [lseek(fsfd, sec * BSIZE, 0)] leads, in blocks. *)
Definition sect (sec : Z) : nat := Z.to_nat (u32 (sec * BSIZE) / BSIZE).

(** Writing past the end extends the file. *)
Definition wsect (sec : Z) (buf : list Z) : M mkfs unit :=
  modify (fun s =>
    let img := mk_img s in
    mset_img (if (sect sec <? length img)%nat then <[sect sec := buf]> img
              else img ++ replicate (sect sec - length img) zeroes ++ [buf]) s).

Definition rsect (sec : Z) : M mkfs (list Z) :=
  s ← getS;
  of_option Exited (mk_img s !! sect sec).

Definition winode (inum : Z) (ip : dinode) : M mkfs unit :=
  let bn := IBLOCK inum mkfs_sb in
  buf ← rsect bn;
  wsect bn (set_dinode inum ip buf).

Definition rinode (inum : Z) : M mkfs dinode :=
  let bn := IBLOCK inum mkfs_sb in
  buf ← rsect bn;
  mret (dinode_at buf inum).

Definition mk_ialloc (type : Z) : M mkfs Z :=
  inum ← gets mk_freeinode;
  modify (mset_freeinode (u32 (inum + 1)));;
  winode inum (mkDinode (s16 (xshort type)) 0 0 (s16 (xshort 1)) (xint 0) (replicate 13 0));;
  mret inum.

Definition assert_ (b : bool) : M mkfs unit := if b then mret tt else panic "assert".

Definition mk_balloc (used : Z) : M mkfs unit :=
  assert_ (used <? BSIZE * 8);;
  let buf := foldl (fun buf i => set_bit i buf) zeroes (seqZ 0 used) in
  wsect (sb_bmapstart mkfs_sb) buf.

(** [freeblock++] *)
Definition next_block : M mkfs Z :=
  fb ← gets mk_freeblock;
  modify (mset_freeblock (u32 (fb + 1)));;
  mret (xint fb).

(** [din.addrs[k]] *)
Definition daddr (din : dinode) (k : Z) : Z := xint (default 0 (di_addrs din !! Z.to_nat k)).
Definition set_daddr (k v : Z) (din : dinode) : dinode :=
  mkDinode (di_type din) (di_major din) (di_minor din) (di_nlink din) (di_size din) (<[Z.to_nat k := v]> (di_addrs din)).
Definition set_dsize (v : Z) (din : dinode) : dinode :=
  mkDinode (di_type din) (di_major din) (di_minor din) (di_nlink din) v (di_addrs din).

(** [if(xint(din.addrs[k]) == 0) din.addrs[k] = xint(freeblock++);] *)
Definition ensure_addr (din : dinode) (k : Z) : M mkfs dinode :=
  if daddr din k =? 0 then fb ← next_block; mret (set_daddr k fb din) else mret din.

(** The block [x] that holds block [fbn] of the file, allocated if needed. *)
Definition append_block (din : dinode) (fbn : Z) : M mkfs (dinode * Z) :=
  if fbn <? NDIRECT then
    din ← ensure_addr din fbn;
    mret (din, daddr din fbn)
  else
    din ← ensure_addr din NDIRECT;
    indirect ← rsect (daddr din NDIRECT);
    let k := Z.to_nat (fbn - NDIRECT) in
    indirect ← (if word_at indirect k =? 0 then
                  fb ← next_block;
                  let indirect := set_word k fb indirect in
                  wsect (daddr din NDIRECT) indirect;; mret indirect
                else mret indirect);
    mret (din, xint (word_at indirect k)).

(** One round of the loop of [iappend] on the bytes [p] that are left. *)
Definition iappend_step (st : dinode * Z * list Z) : M mkfs ((dinode * Z * list Z) + (dinode * Z)) :=
  let '(din, off, p) := st in
  match p with
  | [] => mret (inr (din, off))
  | _ =>
      let fbn := off / BSIZE in
      assert_ (fbn <? MAXFILE);;
      dx ← append_block din fbn;
      let '(din, x) := dx in
      let n1 := Nat.min (length p) (Z.to_nat ((fbn + 1) * BSIZE - off)) in
      buf ← rsect x;
      wsect x (splice (Z.to_nat (off - fbn * BSIZE)) (take n1 p) buf);;
      mret (inl (din, u32 (off + Z.of_nat n1), drop n1 p))
  end.

(** Every round appends a byte at least. *)
Definition iappend (inum : Z) (p : list Z) : M mkfs unit :=
  din ← rinode inum;
  r ← while (S (length p)) iappend_step (din, xint (di_size din), p);
  let '(din, off) := r in
  winode inum (set_dsize (xint off) din).

(** [bzero(&de); de.inum = xshort(inum); strncpy(de.name, name, DIRSIZ);] *)
Definition mk_dirent (inum : Z) (name : list Z) : list Z :=
  encode_dirent (mkDirent (xshort inum) (take DIRSIZ (name ++ replicate DIRSIZ 0))).

(** A file of the host: its name and what each [read] of it returns. *)
Record hostfile := mkHost { h_name : list Z; h_chunks : list (list Z) }.

Definition skip_underscore (name : list Z) : list Z :=
  match name with c :: rest => if c =? 95 then rest else name | [] => [] end.

Definition add_file (rootino : Z) (f : hostfile) : M mkfs unit :=
  assert_ (negb (existsb (Z.eqb 47) (h_name f)));;
  let name := skip_underscore (h_name f) in
  inum ← mk_ialloc T_FILE;
  iappend rootino (mk_dirent inum name);;
  for_each (R := unit) (h_chunks f) (fun buf => iappend inum buf;; mret None);;
  mret tt.

Definition mkfs_main (files : list hostfile) : M mkfs unit :=
  for_each (R := unit) (seqZ 0 FSSIZE) (fun i => wsect i zeroes;; mret None);;
  wsect 1 (splice 0 (encode_sb mkfs_sb) zeroes);;
  rootino ← mk_ialloc T_DIR;
  assert_ (rootino =? ROOTINO);;
  iappend rootino (mk_dirent rootino [46]);;
  iappend rootino (mk_dirent rootino [46; 46]);;
  for_each (R := unit) files (fun f => add_file rootino f;; mret None);;
  din ← rinode rootino;
  let off := xint (di_size din) in
  let off := u32 ((off / BSIZE + 1) * BSIZE) in
  winode rootino (set_dsize (xint off) din);;
  freeblock ← gets mk_freeblock;
  mk_balloc (s32 freeblock).

(** The state when [main] starts: an empty file. *)
Definition mkfs_start : mkfs := mkMkfs [] 1 nmeta.
