(* ===== verification/MkfsData.v ===== *)
(** * MkfsData: the files of an image under construction

    An abstract file has its bytes, the blocks that hold them and its indirect
    block (0 if it has none); [data_ok] says that an image stores a list of
    files, in blocks that no two of them share, allocated from the bottom up,
    and that all blocks above are still zero. *)
From S2P Require Import Prelude CString FsFormat Mkfs.

Record afile := AFile { af_type : Z; af_bytes : list Z; af_blocks : list Z; af_ind : Z }.

Definition af_all (f : afile) : list Z := af_blocks f ++ (if af_ind f =? 0 then [] else [af_ind f]).

(** The block with number [b]. *)
Definition blk (img : list (list Z)) (b : Z) : list Z := default [] (img !! Z.to_nat b).

(** A block that starts with [l]. *)
Definition pad (l : list Z) : list Z := l ++ replicate (512 - length l) 0.

Record af_ok (img : list (list Z)) (f : afile) : Prop := {
  ao_size : (length (af_bytes f) <= 512 * length (af_blocks f))%nat;
  ao_max : (length (af_blocks f) <= 140)%nat;
  ao_ind : af_ind f = 0 <-> (length (af_blocks f) <= 12)%nat;
  ao_data : forall i b, af_blocks f !! i = Some b -> blk img b = pad (slice (512 * i) 512 (af_bytes f));
  ao_words : af_ind f <> 0 -> forall k, (k < 128)%nat -> word_at (blk img (af_ind f)) k = default 0 (af_blocks f !! (12 + k)%nat);
}.

Definition all_blocks (fs : list afile) : list Z := concat (map af_all fs).

Record data_ok (img : list (list Z)) (fs : list afile) (fb : Z) : Prop := {
  do_len : Z.of_nat (length img) = FSSIZE;
  do_blocks : Forall (fun b => length b = 512%nat) img;
  do_fb : nmeta <= fb <= FSSIZE;
  do_af : forall f, f ∈ fs -> af_ok img f;
  do_nodup : NoDup (all_blocks fs);
  do_range : forall b, b ∈ all_blocks fs -> nmeta <= b < fb;
  do_zero : forall b, fb <= b < FSSIZE -> blk img b = zeroes;
}.

Lemma all_blocks_app l l' : all_blocks (l ++ l') = all_blocks l ++ all_blocks l'.
Proof. unfold all_blocks. by rewrite map_app, concat_app. Qed.

Lemma all_blocks_split fs k f : fs !! k = Some f -> all_blocks fs ≡ₚ af_all f ++ all_blocks (delete k fs).
Proof.
  intros Hk. rewrite <- (take_drop_middle fs k f Hk) at 1. rewrite delete_take_drop, !all_blocks_app.
  change (all_blocks (f :: drop (S k) fs)) with (af_all f ++ all_blocks (drop (S k) fs)).
  by rewrite !app_assoc, (Permutation_app_comm (all_blocks (take k fs))).
Qed.

Lemma all_blocks_insert fs k f f' : fs !! k = Some f -> all_blocks (<[k := f']> fs) ≡ₚ af_all f' ++ all_blocks (delete k fs).
Proof.
  intros Hk. rewrite (all_blocks_split (<[k := f']> fs) k f') by (apply list_lookup_insert_eq; by eapply lookup_lt_Some).
  rewrite !delete_take_drop, take_insert_ge, drop_insert_lt by lia. done.
Qed.

Lemma all_blocks_in fs f b : f ∈ fs -> b ∈ af_all f -> b ∈ all_blocks fs.
Proof.
  intros (k & Hk)%list_elem_of_lookup Hb. rewrite (all_blocks_split fs k f Hk). apply elem_of_app. by left.
Qed.

Lemma blk_insert img b x c : 0 <= b -> 0 <= c -> (Z.to_nat b < length img)%nat ->
  blk (<[Z.to_nat b := x]> img) c = if decide (c = b) then x else blk img c.
Proof.
  intros Hb Hc Hl. unfold blk. destruct (decide (c = b)) as [->|Hne]; [by rewrite list_lookup_insert_eq|].
  rewrite list_lookup_insert_ne by lia. done.
Qed.

Lemma blk_length img b : Forall (fun b => length b = 512%nat) img -> 0 <= b < Z.of_nat (length img) -> length (blk img b) = 512%nat.
Proof.
  intros Hf Hb. unfold blk. destruct (lookup_lt_is_Some_2 img (Z.to_nat b)) as [x Hx]; [lia|]. rewrite Hx.
  rewrite Forall_lookup in Hf. by eapply Hf.
Qed.

(** A file does not depend on the blocks of others. *)
Lemma af_ok_ext img img' f : (forall b, b ∈ af_all f -> blk img' b = blk img b) -> af_ok img f -> af_ok img' f.
Proof.
  intros He [H1 H2 H3 H4 H5]. split; try done.
  - intros i b Hb. rewrite He; [by apply H4|]. unfold af_all. apply elem_of_app. left. by eapply list_elem_of_lookup_2.
  - intros Hi k Hk. rewrite He; [by apply H5|]. unfold af_all. apply elem_of_app. right.
    rewrite (proj2 (Z.eqb_neq _ _)) by done. by left.
Qed.

(** One file changes: it may take the next blocks, and only its blocks
    change. *)
Lemma data_ok_update img img' fs k f f' fb new :
  data_ok img fs fb -> fs !! k = Some f -> length img' = length img -> Forall (fun b => length b = 512%nat) img' ->
  fb + Z.of_nat (length new) <= FSSIZE -> NoDup new -> (forall b, b ∈ new -> fb <= b < fb + Z.of_nat (length new)) ->
  (forall b, 0 <= b -> b ∉ af_all f ++ new -> blk img' b = blk img b) ->
  af_all f' ≡ₚ new ++ af_all f -> af_ok img' f' ->
  data_ok img' (<[k := f']> fs) (fb + Z.of_nat (length new)).
Proof.
  intros [H1 H2 H3 H4 H5 H6 H7] Hk Hlen Hbl Hroom Hnd Hnew Hsame Hall Hok'.
  assert (Hperm : all_blocks (<[k := f']> fs) ≡ₚ new ++ all_blocks fs).
  { rewrite (all_blocks_insert fs k f f' Hk), Hall, (all_blocks_split fs k f Hk). by rewrite app_assoc. }
  assert (Hf : forall b, b ∈ af_all f -> nmeta <= b < fb) by (intros b Hb; apply H6; eapply all_blocks_in; [by eapply list_elem_of_lookup_2|done]).
  split.
  - congruence.
  - done.
  - lia.
  - intros g (j & Hj)%list_elem_of_lookup. apply list_lookup_insert_Some in Hj as [(-> & -> & _)|[Hne Hj]]; [done|].
    apply (af_ok_ext img); [|apply H4; by eapply list_elem_of_lookup_2]. intros b Hb.
    assert (Hb' : b ∈ all_blocks fs) by (eapply all_blocks_in; [by eapply list_elem_of_lookup_2|done]).
    assert (0 <= nmeta) by done. apply H6 in Hb' as Hr. apply Hsame; [lia|]. intros [Hbf|Hbn]%elem_of_app; [|apply Hnew in Hbn; lia].
    revert H5. rewrite (all_blocks_split fs k f Hk). intros (_ & Hdj & _)%NoDup_app. apply (Hdj b Hbf).
    assert (exists j', delete k fs !! j' = Some g) as (j' & Hj').
    { destruct (decide (j < k)%nat); [exists j; by rewrite list_lookup_delete_lt|exists (pred j)]. rewrite list_lookup_delete_ge by lia. by replace (S (pred j)) with j by lia. }
    eapply all_blocks_in; [by eapply list_elem_of_lookup_2|done].
  - rewrite Hperm. apply NoDup_app. split; [done|]. split; [|done]. intros b Hb Hb'. apply Hnew in Hb. apply H6 in Hb'. lia.
  - intros b. rewrite Hperm. intros [Hb|Hb]%elem_of_app; [apply Hnew in Hb; lia|]. apply H6 in Hb. lia.
  - intros b Hb. assert (0 <= nmeta) by done. rewrite Hsame; [apply H7; lia|lia|]. intros [Hbf|Hbn]%elem_of_app; [apply Hf in Hbf; lia|apply Hnew in Hbn; lia].
Qed.

(** ** Reading and writing blocks *)

Lemma xint_id x : is_u32 x -> xint x = x.
Proof. apply le_Z_bytes_4. Qed.

Lemma sect_id b : 0 <= b < FSSIZE -> sect b = Z.to_nat b.
Proof.
  intros Hb. unfold sect. change FSSIZE with 1000 in Hb. change BSIZE with 512. rewrite u32_id by (unfold is_u32; lia).
  by rewrite Z.div_mul.
Qed.

Lemma rsect_spec b s (Q : list Z -> mkfs -> Prop) E : Z.of_nat (length (mk_img s)) = FSSIZE -> 0 <= b < FSSIZE ->
  Q (blk (mk_img s) b) s -> wp (rsect b) Q E s.
Proof.
  intros Hl Hb HQ. unfold rsect. wp_step. wp_step. rewrite sect_id by done.
  destruct (lookup_lt_is_Some_2 (mk_img s) (Z.to_nat b)) as [x Hx]; [lia|]. eapply wp_of_option; [done|].
  unfold blk in HQ. by rewrite Hx in HQ.
Qed.

Lemma wsect_spec b x s (Q : unit -> mkfs -> Prop) E : Z.of_nat (length (mk_img s)) = FSSIZE -> 0 <= b < FSSIZE ->
  Q tt (mset_img (<[Z.to_nat b := x]> (mk_img s)) s) -> wp (wsect b x) Q E s.
Proof.
  intros Hl Hb HQ. unfold wsect. wp_step. cbv zeta. rewrite sect_id by done. by rewrite (proj2 (Nat.ltb_lt _ _)) by lia.
Qed.

(** ** The block of a file for its next byte *)

Definition addrs (f : afile) : list Z := take 12 (af_blocks f ++ replicate 12 0) ++ [af_ind f].

(** The inode of [f] in memory, with the size it had when it was read. *)
Definition dino (f : afile) (size : Z) : dinode := mkDinode (af_type f) 0 0 1 size (addrs f).

Lemma addrs_lookup f i : (i < 12)%nat -> addrs f !! i = Some (default 0 (af_blocks f !! i)).
Proof.
  intros Hi. unfold addrs. assert (Hl : length (take 12 (af_blocks f ++ replicate 12 0)) = 12%nat).
  { rewrite length_take, length_app, length_replicate. lia. }
  rewrite lookup_app_l, lookup_take_lt by lia. destruct (af_blocks f !! i) as [b|] eqn:E; cbn [from_option id].
  - by apply lookup_app_l_Some.
  - apply lookup_ge_None in E. rewrite lookup_app_r by done. by rewrite lookup_replicate_2 by lia.
Qed.

Lemma addrs_ind f : addrs f !! 12%nat = Some (af_ind f).
Proof.
  unfold addrs. assert (Hl : length (take 12 (af_blocks f ++ replicate 12 0)) = 12%nat).
  { rewrite length_take, length_app, length_replicate. lia. }
  rewrite lookup_app_r by lia. by rewrite Hl.
Qed.

Lemma length_addrs f : length (addrs f) = 13%nat.
Proof. unfold addrs. rewrite length_app, length_take, length_app, length_replicate. cbn [length]. lia. Qed.

(** Adding the next direct block, and the next one with an indirect block. *)
Definition add_block (b : Z) (f : afile) : afile := AFile (af_type f) (af_bytes f) (af_blocks f ++ [b]) (af_ind f).
Definition add_ind (i : Z) (f : afile) : afile := AFile (af_type f) (af_bytes f) (af_blocks f) i.

Lemma addrs_add_direct f b : (length (af_blocks f) < 12)%nat ->
  <[length (af_blocks f) := b]> (addrs f) = addrs (add_block b f).
Proof.
  intros Hl. apply list_eq. intros i. destruct (decide (i < 13)%nat) as [Hi|Hi].
  2:{ rewrite !lookup_ge_None_2; [done|rewrite length_addrs; lia|rewrite length_insert, length_addrs; lia]. }
  destruct (decide (i = 12%nat)) as [->|Hne]; [rewrite list_lookup_insert_ne by lia; by rewrite !addrs_ind|].
  rewrite (addrs_lookup (add_block b f)) by lia. cbn. destruct (decide (i = length (af_blocks f))) as [->|Hne'].
  - rewrite list_lookup_insert_eq by (rewrite length_addrs; lia). by rewrite list_lookup_middle.
  - rewrite list_lookup_insert_ne by done. rewrite addrs_lookup by lia. f_equal.
    destruct (decide (i < length (af_blocks f))%nat); [by rewrite lookup_app_l|].
    rewrite lookup_app_r, lookup_ge_None_2 by lia. destruct (i - length (af_blocks f))%nat eqn:E; [lia|done].
Qed.

Lemma addrs_add_late f b : (12 <= length (af_blocks f))%nat -> addrs (add_block b f) = addrs f.
Proof. intros Hl. unfold addrs. cbn. rewrite <- app_assoc. by rewrite !take_app_le by lia. Qed.

Lemma addrs_add_ind f i : <[12%nat := i]> (addrs f) = addrs (add_ind i f).
Proof.
  unfold addrs. assert (Hl : length (take 12 (af_blocks f ++ replicate 12 0)) = 12%nat).
  { rewrite length_take, length_app, length_replicate. lia. }
  rewrite insert_app_r_alt by lia. by rewrite Hl.
Qed.

(** Blocks that a file of [n] data blocks takes. *)
Definition bcost (n : nat) : nat := n + if (12 <? n)%nat then 1 else 0.

Lemma af_all_length img f : af_ok img f -> length (af_all f) = bcost (length (af_blocks f)).
Proof.
  intros [_ _ H _ _]. unfold af_all, bcost. rewrite length_app. destruct (Z.eqb_spec (af_ind f) 0) as [E|E]; cbn [length].
  - apply H in E. rewrite (proj2 (Nat.ltb_ge _ _)) by done. done.
  - destruct (Nat.ltb_spec 12 (length (af_blocks f))); [done|]. exfalso. apply E, H. done.
Qed.

Lemma length_zeroes : length zeroes = 512%nat.
Proof. apply length_replicate. Qed.

Lemma word_zeroes k : (k < 128)%nat -> word_at zeroes k = 0.
Proof.
  intros Hk. unfold word_at. assert (slice (4 * k) 4 zeroes = replicate 4 0) as ->; [|done].
  unfold slice, zeroes. rewrite drop_replicate, take_replicate. f_equal. change (Z.to_nat BSIZE) with 512%nat. lia.
Qed.

Lemma pad_nil : pad [] = zeroes.
Proof. done. Qed.

(** What [append_block] leaves: the file has a block [x] for its block [fbn],
    and only what it needed was allocated. *)
Definition appended (s : mkfs) (fs : list afile) (k : nat) (f : afile) (fbn : nat) (size : Z) (r : dinode * Z) (s' : mkfs) : Prop :=
  exists f', r.1 = dino f' size /\ af_bytes f' = af_bytes f /\ af_type f' = af_type f /\ af_blocks f' !! fbn = Some r.2 /\
    length (af_blocks f') = Nat.max (length (af_blocks f)) (S fbn) /\
    data_ok (mk_img s') (<[k := f']> fs) (mk_freeblock s') /\
    mk_freeblock s' = mk_freeblock s + Z.of_nat (bcost (length (af_blocks f'))) - Z.of_nat (bcost (length (af_blocks f))) /\
    mk_freeinode s' = mk_freeinode s /\ forall b, 0 <= b < nmeta -> blk (mk_img s') b = blk (mk_img s) b.

Section append.
Context (s : mkfs) (fs : list afile) (k : nat) (f : afile) (fbn : nat) (size : Z).
Context (Hd : data_ok (mk_img s) fs (mk_freeblock s)) (Hk : fs !! k = Some f) (Hmax : (fbn < 140)%nat).

Lemma file_ok : af_ok (mk_img s) f.
Proof. apply (do_af _ _ _ Hd). by eapply list_elem_of_lookup_2. Qed.

Lemma file_blocks b : b ∈ af_all f -> nmeta <= b < mk_freeblock s.
Proof. intros Hb. apply (do_range _ _ _ Hd). eapply all_blocks_in; [by eapply list_elem_of_lookup_2|done]. Qed.

Lemma file_block b : b ∈ af_blocks f -> nmeta <= b < mk_freeblock s.
Proof. intros Hb. apply file_blocks, elem_of_app. by left. Qed.

Lemma file_ind : af_ind f <> 0 -> nmeta <= af_ind f < mk_freeblock s.
Proof. intros Hi. apply file_blocks, elem_of_app. right. rewrite (proj2 (Z.eqb_neq _ _)) by done. by left. Qed.

Lemma daddr_lookup i : (i < 12)%nat -> daddr (dino f size) (Z.of_nat i) = default 0 (af_blocks f !! i).
Proof.
  intros Hi. unfold daddr. cbn [di_addrs dino]. rewrite Nat2Z.id, addrs_lookup by done. cbn [from_option id]. apply xint_id.
  pose proof (do_fb _ _ _ Hd) as Hfb. change FSSIZE with 1000 in Hfb. change nmeta with 59 in Hfb.
  destruct (af_blocks f !! i) as [b|] eqn:E; cbn [from_option id]; [|done].
  apply list_elem_of_lookup_2, file_block in E. change nmeta with 59 in E. unfold is_u32. lia.
Qed.

Lemma daddr_ind : daddr (dino f size) NDIRECT = af_ind f.
Proof.
  unfold daddr. cbn [di_addrs dino]. change (Z.to_nat NDIRECT) with 12%nat. rewrite addrs_ind. cbn [from_option id]. apply xint_id.
  pose proof (do_fb _ _ _ Hd) as Hfb. change FSSIZE with 1000 in Hfb. change nmeta with 59 in Hfb.
  destruct (decide (af_ind f = 0)) as [->|E]; [done|]. apply file_ind in E. change nmeta with 59 in E. unfold is_u32. lia.
Qed.

(** The block is there already. *)
Lemma append_existing : (fbn < length (af_blocks f))%nat ->
  wp (append_block (dino f size) (Z.of_nat fbn)) (appended s fs k f fbn size) no_halt s.
Proof.
  intros Hlt. destruct (lookup_lt_is_Some_2 (af_blocks f) fbn Hlt) as [b Hb].
  pose proof file_ok as [_ _ Hi _ Hw]. pose proof (do_fb _ _ _ Hd) as Hfb. pose proof (do_len _ _ _ Hd) as Hlen.
  pose proof (file_block b ltac:(by eapply list_elem_of_lookup_2)) as Hbr. change nmeta with 59 in *. change FSSIZE with 1000 in Hfb.
  assert (Hres : appended s fs k f fbn size (dino f size, b) s).
  { exists f. rewrite list_insert_id by done. repeat (split; [done|]). split; [lia|]. split; [done|]. split; [lia|]. done. }
  unfold append_block. destruct (Z.ltb_spec (Z.of_nat fbn) NDIRECT) as [Hdir|Hdir]; change NDIRECT with 12 in Hdir.
  - unfold ensure_addr. rewrite daddr_lookup, Hb by lia. cbn [from_option id]. rewrite (proj2 (Z.eqb_neq b 0)) by lia.
    wp_step. wp_step. wp_step. rewrite daddr_lookup, Hb by lia. done.
  - assert (af_ind f <> 0) as Hne by (intros E; apply Hi in E; lia). pose proof (file_ind Hne) as Hir. change nmeta with 59 in Hir.
    unfold ensure_addr. rewrite daddr_ind. rewrite (proj2 (Z.eqb_neq (af_ind f) 0)) by done. wp_step. wp_step. wp_step. rewrite daddr_ind.
    apply rsect_spec; [done|change FSSIZE with 1000; lia|]. cbv zeta. change NDIRECT with 12.
    assert (word_at (blk (mk_img s) (af_ind f)) (Z.to_nat (Z.of_nat fbn - 12)) = b) as Hword.
    { rewrite Hw by (done || lia). replace (12 + Z.to_nat (Z.of_nat fbn - 12))%nat with fbn by lia. by rewrite Hb. }
    wp_step. rewrite Hword, (proj2 (Z.eqb_neq b 0)) by lia. wp_step. wp_step. rewrite Hword, xint_id by (unfold is_u32; lia). done.
Qed.

(** A fresh block holds nothing of the file. *)
Lemma fresh_data b : mk_freeblock s <= b < FSSIZE -> blk (mk_img s) b = pad (slice (512 * length (af_blocks f)) 512 (af_bytes f)).
Proof.
  intros Hb. rewrite (do_zero _ _ _ Hd) by done. pose proof (ao_size _ _ file_ok) as Hs. unfold slice. rewrite drop_ge by lia. done.
Qed.

Lemma fresh_apart b : mk_freeblock s <= b -> b ∉ af_all f.
Proof. intros Hb Hin. apply file_blocks in Hin. lia. Qed.

Lemma next_block_spec s0 (Q : Z -> mkfs -> Prop) E : 0 <= mk_freeblock s0 < 1000 ->
  Q (mk_freeblock s0) (mset_freeblock (mk_freeblock s0 + 1) s0) -> wp next_block Q E s0.
Proof.
  intros Hb HQ. unfold next_block. wp_step. wp_step. wp_step. wp_step. wp_step.
  rewrite xint_id, u32_id by (unfold is_u32; lia). done.
Qed.

(** The next direct block. *)
Lemma append_direct : fbn = length (af_blocks f) -> (fbn < 12)%nat -> mk_freeblock s < FSSIZE ->
  wp (append_block (dino f size) (Z.of_nat fbn)) (appended s fs k f fbn size) no_halt s.
Proof.
  intros Hn Hdir Hroom. pose proof file_ok as Hf. pose proof (do_fb _ _ _ Hd) as Hfb. change FSSIZE with 1000 in Hfb, Hroom. change nmeta with 59 in Hfb.
  assert (Hnone : af_blocks f !! fbn = None) by (apply lookup_ge_None_2; lia).
  assert (Hz : af_ind f = 0) by (apply Hf; lia).
  unfold append_block. rewrite (proj2 (Z.ltb_lt (Z.of_nat fbn) NDIRECT)) by (change NDIRECT with 12; lia).
  unfold ensure_addr. rewrite daddr_lookup, Hnone by lia. cbn [from_option id Z.eqb]. wp_step. wp_step. apply next_block_spec; [lia|].
  wp_step. wp_step. set (fb := mk_freeblock s) in *. set (f' := add_block fb f).
  assert (Hset : set_daddr (Z.of_nat fbn) fb (dino f size) = dino f' size).
  { unfold set_daddr, dino, f'. cbn [di_type di_major di_minor di_nlink di_size di_addrs af_type add_block]. rewrite Nat2Z.id, Hn.
    by rewrite addrs_add_direct by lia. }
  rewrite Hset. exists f'. cbn [fst snd]. split; [done|]. split; [done|]. split; [done|].
  assert (Hlast : af_blocks f' !! fbn = Some fb) by (unfold f'; cbn; by rewrite Hn, list_lookup_middle).
  assert (Hlen' : length (af_blocks f') = S fbn) by (unfold f'; cbn; rewrite length_app; cbn; lia).
  split; [|split; [lia|split; [|split; [|done]]]].
  - rewrite Hlast. unfold daddr. cbn [di_addrs dino]. rewrite Nat2Z.id, addrs_lookup, Hlast by lia. cbn [from_option id].
    by rewrite xint_id by (unfold is_u32; lia).
  - apply (data_ok_update (mk_img s) _ fs k f f' fb [fb]); try done.
    + apply Hd.
    + cbn. change FSSIZE with 1000. lia.
    + apply NoDup_singleton.
    + intros b ->%list_elem_of_singleton. cbn. lia.
    + unfold af_all, f'. cbn [af_blocks af_ind add_block]. rewrite Hz. cbn [Z.eqb]. rewrite !app_nil_r. by rewrite Permutation_app_comm.
    + destruct Hf as [G1 G2 G3 G4 G5]. split; rewrite ?Hlen'; cbn [f' af_bytes add_block af_ind]; [lia|lia|rewrite Hz; split; [lia|done]| |done].
      intros i b Hb. unfold f' in Hb. cbn in Hb. apply lookup_app_Some in Hb as [Hb|[Hge Hb]]; [by apply G4|].
      apply list_lookup_singleton_Some in Hb as [Hi <-]. replace i with (length (af_blocks f)) by lia. apply fresh_data. change FSSIZE with 1000. lia.
  - rewrite Hlen'. unfold bcost. rewrite <- Hn. cbn [mset_freeblock mk_freeblock].
    rewrite (proj2 (Nat.ltb_ge 12 (S fbn))), (proj2 (Nat.ltb_ge 12 fbn)) by lia. lia.
Qed.

(** Block 12: the indirect block comes first. *)
Lemma append_first : fbn = length (af_blocks f) -> fbn = 12%nat -> mk_freeblock s + 1 < FSSIZE ->
  wp (append_block (dino f size) (Z.of_nat fbn)) (appended s fs k f fbn size) no_halt s.
Proof.
  intros Hn H12 Hroom. pose proof file_ok as Hf. pose proof (do_fb _ _ _ Hd) as Hfb. pose proof (do_len _ _ _ Hd) as Hlen.
  change FSSIZE with 1000 in Hfb, Hroom. change nmeta with 59 in Hfb. assert (Hz : af_ind f = 0) by (apply Hf; lia).
  unfold append_block. rewrite (proj2 (Z.ltb_ge (Z.of_nat fbn) NDIRECT)) by (change NDIRECT with 12; lia).
  unfold ensure_addr. rewrite daddr_ind, Hz. cbn [Z.eqb]. wp_step. wp_step. apply next_block_spec; [lia|]. wp_step.
  set (fb := mk_freeblock s) in *. set (f1 := add_ind fb f).
  assert (Hset : set_daddr NDIRECT fb (dino f size) = dino f1 size).
  { unfold set_daddr, dino, f1. cbn [di_type di_major di_minor di_nlink di_size di_addrs af_type add_ind].
    change (Z.to_nat NDIRECT) with 12%nat. by rewrite addrs_add_ind. }
  assert (Hind : daddr (dino f1 size) NDIRECT = fb).
  { unfold daddr. cbn [di_addrs dino]. change (Z.to_nat NDIRECT) with 12%nat. rewrite addrs_ind. cbn [from_option id f1 af_ind add_ind].
    apply xint_id. unfold is_u32. lia. }
  rewrite Hset, Hind. wp_step. apply rsect_spec; [done|change FSSIZE with 1000; lia|]. cbv zeta. cbn [mset_freeblock mk_img].
  rewrite (do_zero _ _ _ Hd) by (change FSSIZE with 1000; lia). rewrite H12. change (Z.to_nat (Z.of_nat 12 - NDIRECT)) with 0%nat.
  rewrite word_zeroes by lia. cbn [Z.eqb]. wp_step. wp_step. apply next_block_spec; [cbn; lia|]. cbn [mset_freeblock mk_freeblock mk_img].
  wp_step. apply wsect_spec; [done|change FSSIZE with 1000; lia|]. cbn [mset_freeblock mk_img]. wp_step. wp_step.
  rewrite word_set_word by (rewrite ?length_zeroes; unfold is_u32; lia). rewrite xint_id by (unfold is_u32; lia).
  set (f' := add_block (fb + 1) f1). set (img' := <[Z.to_nat fb := set_word 0 (fb + 1) zeroes]> (mk_img s)).
  assert (Hblk : forall b, 0 <= b -> blk img' b = if decide (b = fb) then set_word 0 (fb + 1) zeroes else blk (mk_img s) b).
  { intros b Hb. apply blk_insert; [lia|done|]. change FSSIZE with 1000 in Hlen. lia. }
  assert (Hlen' : length (af_blocks f') = 13%nat) by (unfold f', f1; cbn; rewrite length_app; cbn; lia).
  exists f'. cbn [fst snd]. split; [|split; [done|split; [done|split; [unfold f', f1; cbn; by rewrite <- H12, Hn, list_lookup_middle|split; [lia|split; [|split; [|split; [done|]]]]]]]].
  - unfold dino, f'. by rewrite addrs_add_late by (cbn; lia).
  - cbn [mset_img mk_img mk_freeblock mset_freeblock]. replace (fb + 1 + 1) with (fb + Z.of_nat (length [fb + 1; fb])) by (cbn; lia).
    apply (data_ok_update (mk_img s) _ fs k f f' fb [fb + 1; fb]); try done.
    + unfold img'. by rewrite length_insert.
    + apply Forall_insert; [apply Hd|]. rewrite length_set_word; rewrite length_zeroes; [done|lia].
    + cbn. change FSSIZE with 1000. lia.
    + apply NoDup_cons. split; [intros E%list_elem_of_singleton; lia|apply NoDup_singleton].
    + intros b Hb. rewrite !elem_of_cons, elem_of_nil in Hb. cbn. lia.
    + intros b Hb Hnin. rewrite Hblk by done. destruct (decide (b = fb)) as [->|]; [|done]. exfalso. apply Hnin, elem_of_app. right. right. by left.
    + unfold af_all, f', f1. cbn [af_blocks af_ind add_block add_ind]. rewrite Hz, (proj2 (Z.eqb_neq fb 0)) by lia. cbn [Z.eqb].
      rewrite app_nil_r, <- app_assoc. cbn [app]. by rewrite Permutation_app_comm.
    + destruct Hf as [G1 G2 G3 G4 G5]. split; rewrite ?Hlen'; [cbn; lia|lia|cbn; split; [lia|lia]| |].
      * intros i b Hb. unfold f', f1 in Hb. cbn in Hb. cbn [f' f1 af_bytes add_block add_ind]. apply lookup_app_Some in Hb as [Hb|[Hge Hb]].
        -- assert (b <> fb) by (intros ->; apply (fresh_apart fb ltac:(lia)); apply elem_of_app; left; by eapply list_elem_of_lookup_2).
           assert (59 <= b) by (change 59 with nmeta; apply file_block; by eapply list_elem_of_lookup_2).
           rewrite Hblk, decide_False by (done || lia). by apply G4.
        -- apply list_lookup_singleton_Some in Hb as [Hi <-]. rewrite Hblk, decide_False by lia.
           replace i with (length (af_blocks f)) by lia. apply fresh_data. change FSSIZE with 1000. lia.
      * intros _ j Hj. cbn [f' f1 af_ind add_block add_ind]. rewrite Hblk, decide_True by (done || lia).
        unfold f', f1; cbn [af_blocks add_block add_ind]. destruct j as [|j].
        -- rewrite word_set_word by (rewrite ?length_zeroes; unfold is_u32; lia).
           rewrite Nat.add_0_r, <- H12, Hn, list_lookup_middle by done. done.
        -- rewrite word_set_word_ne by (rewrite ?length_zeroes; lia). rewrite word_zeroes by lia.
           by rewrite lookup_ge_None_2 by (rewrite length_app; cbn; lia).
  - rewrite Hlen', <- Hn, H12. cbn. lia.
  - intros b Hb. cbn. rewrite Hblk, decide_False by (change nmeta with 59 in Hb; lia). done.
Qed.

(** Later blocks are entered in the indirect block. *)
Lemma append_later : fbn = length (af_blocks f) -> (12 < fbn)%nat -> mk_freeblock s < FSSIZE ->
  wp (append_block (dino f size) (Z.of_nat fbn)) (appended s fs k f fbn size) no_halt s.
Proof.
  intros Hn H12 Hroom. pose proof file_ok as Hf. pose proof (do_fb _ _ _ Hd) as Hfb. pose proof (do_len _ _ _ Hd) as Hlen.
  change FSSIZE with 1000 in Hfb, Hroom. change nmeta with 59 in Hfb. pose proof Hf as [G1 G2 G3 G4 G5].
  assert (Hne : af_ind f <> 0) by (intros E; apply G3 in E; lia). pose proof (file_ind Hne) as Hir. change nmeta with 59 in Hir.
  unfold append_block. rewrite (proj2 (Z.ltb_ge (Z.of_nat fbn) NDIRECT)) by (change NDIRECT with 12; lia).
  unfold ensure_addr. rewrite daddr_ind, (proj2 (Z.eqb_neq (af_ind f) 0)) by done. wp_step. wp_step. wp_step. rewrite daddr_ind.
  apply rsect_spec; [done|change FSSIZE with 1000; lia|]. cbv zeta.
  set (kk := Z.to_nat (Z.of_nat fbn - NDIRECT)). assert (Hkk : (12 + kk)%nat = fbn) by (unfold kk; change NDIRECT with 12; lia). clearbody kk.
  assert (Hil : length (blk (mk_img s) (af_ind f)) = 512%nat) by (apply blk_length; [apply Hd|rewrite Hlen; change FSSIZE with 1000; lia]).
  rewrite G5 by (done || lia). rewrite Hkk, lookup_ge_None_2 by lia. cbn [from_option id Z.eqb].
  set (fb := mk_freeblock s) in *. wp_step. wp_step. apply next_block_spec; [lia|]. fold fb.
  wp_step. apply wsect_spec; [done|change FSSIZE with 1000; lia|]. cbn [mset_freeblock mk_img]. wp_step. wp_step.
  rewrite word_set_word by (rewrite ?Hil; unfold is_u32; lia). rewrite xint_id by (unfold is_u32; lia).
  set (f' := add_block fb f). set (img' := <[Z.to_nat (af_ind f) := _]> (mk_img s)).
  assert (Hblk : forall b, 0 <= b -> blk img' b = if decide (b = af_ind f) then set_word kk fb (blk (mk_img s) (af_ind f)) else blk (mk_img s) b).
  { intros b Hb. apply blk_insert; [lia|done|]. change FSSIZE with 1000 in Hlen. lia. }
  assert (Hlen' : length (af_blocks f') = S fbn) by (unfold f'; cbn; rewrite length_app; cbn; lia).
  assert (Hinb : af_ind f ∉ af_blocks f).
  { pose proof (do_nodup _ _ _ Hd) as Hnd. rewrite (all_blocks_split fs k f Hk) in Hnd. apply NoDup_app in Hnd as (Hnd & _).
    unfold af_all in Hnd. rewrite (proj2 (Z.eqb_neq _ _)) in Hnd by done. apply NoDup_app in Hnd as (_ & Hnd & _).
    intros Hin. apply (Hnd _ Hin). by left. }
  exists f'. cbn [fst snd]. split; [unfold dino, f'; by rewrite addrs_add_late by lia|].
  split; [done|]. split; [done|]. split; [unfold f'; cbn; by rewrite Hn, list_lookup_middle|]. split; [lia|]. split; [|split; [|split; [done|]]].
  - cbn [mset_img mk_img mk_freeblock mset_freeblock]. change (fb + 1) with (fb + Z.of_nat (length [fb])).
    apply (data_ok_update (mk_img s) _ fs k f f' fb [fb]); try done.
    + unfold img'. by rewrite length_insert.
    + apply Forall_insert; [apply Hd|]. rewrite length_set_word; lia.
    + cbn. change FSSIZE with 1000. lia.
    + apply NoDup_singleton.
    + intros b ->%list_elem_of_singleton. cbn. lia.
    + intros b Hb Hnin. rewrite Hblk by done. destruct (decide (b = af_ind f)) as [->|]; [|done]. exfalso. apply Hnin, elem_of_app. left.
      unfold af_all. apply elem_of_app. right. rewrite (proj2 (Z.eqb_neq _ _)) by done. by left.
    + unfold af_all, f'. cbn [af_blocks af_ind add_block]. rewrite <- app_assoc. cbn [app]. by rewrite <- Permutation_middle.
    + split; rewrite ?Hlen'; [cbn; lia|lia|cbn; split; [done|lia]| |].
      * intros i b Hb. unfold f' in Hb. cbn in Hb. cbn [f' af_bytes add_block]. apply lookup_app_Some in Hb as [Hb|[Hge Hb]].
        -- assert (b <> af_ind f) by (intros ->; apply Hinb; by eapply list_elem_of_lookup_2).
           assert (59 <= b) by (change 59 with nmeta; apply file_block; by eapply list_elem_of_lookup_2).
           rewrite Hblk, decide_False by (done || lia). by apply G4.
        -- apply list_lookup_singleton_Some in Hb as [Hi <-]. rewrite Hblk, decide_False by lia.
           replace i with (length (af_blocks f)) by lia. apply fresh_data. change FSSIZE with 1000. lia.
      * intros _ j Hj. cbn [f' af_ind af_blocks add_block]. rewrite Hblk, decide_True by (done || lia).
        destruct (decide (j = kk)) as [->|Hjk].
        -- rewrite word_set_word by (rewrite ?Hil; unfold is_u32; lia). by rewrite Hkk, Hn, list_lookup_middle.
        -- rewrite word_set_word_ne, G5 by (rewrite ?Hil; done || lia). f_equal.
           destruct (decide (12 + j < length (af_blocks f))%nat); [by rewrite lookup_app_l|].
           rewrite lookup_ge_None_2 by lia. symmetry. apply lookup_ge_None_2. rewrite length_app. cbn. lia.
  - rewrite Hlen', <- Hn. unfold bcost. cbn [mset_freeblock mset_img mk_freeblock].
    rewrite (proj2 (Nat.ltb_lt 12 (S fbn))), (proj2 (Nat.ltb_lt 12 fbn)) by lia. lia.
  - intros b Hb. cbn. rewrite Hblk, decide_False by (change nmeta with 59 in Hb; lia). done.
Qed.

Lemma append_block_spec : (fbn <= length (af_blocks f))%nat ->
  mk_freeblock s + Z.of_nat (bcost (Nat.max (length (af_blocks f)) (S fbn))) - Z.of_nat (bcost (length (af_blocks f))) <= FSSIZE ->
  wp (append_block (dino f size) (Z.of_nat fbn)) (appended s fs k f fbn size) no_halt s.
Proof.
  intros Hle Hroom. destruct (decide (fbn < length (af_blocks f))%nat) as [|Hge]; [by apply append_existing|].
  assert (Hn : fbn = length (af_blocks f)) by lia. rewrite Nat.max_r, <- Hn in Hroom by lia. unfold bcost in Hroom.
  destruct (decide (fbn < 12)%nat); [|destruct (decide (fbn = 12)%nat)].
  - rewrite (proj2 (Nat.ltb_ge 12 (S fbn))), (proj2 (Nat.ltb_ge 12 fbn)) in Hroom by lia. apply append_direct; [done|done|lia].
  - rewrite (proj2 (Nat.ltb_lt 12 (S fbn))), (proj2 (Nat.ltb_ge 12 fbn)) in Hroom by lia. apply append_first; [done|done|lia].
  - rewrite (proj2 (Nat.ltb_lt 12 (S fbn))), (proj2 (Nat.ltb_lt 12 fbn)) in Hroom by lia. apply append_later; [done|lia|lia].
Qed.
End append.
