(* ===== verification/MkfsProof.v ===== *)
(** * MkfsProof: mkfs builds the image of the files it was given *)
From S2P Require Import Prelude CString FsFormat Mkfs MkfsData.

(** Blocks for [n] bytes. *)
Definition nblk_for (n : nat) : nat := (n + 511) / 512.

Definition tight (f : afile) : Prop := length (af_blocks f) = nblk_for (length (af_bytes f)).

Lemma nblk_spec n : (n <= 512 * nblk_for n < n + 512)%nat.
Proof.
  unfold nblk_for. pose proof (Nat.div_mod_eq (n + 511) 512). pose proof (Nat.mod_upper_bound (n + 511) 512 ltac:(lia)). lia.
Qed.

Lemma nblk_mono n m : (n <= m)%nat -> (nblk_for n <= nblk_for m)%nat.
Proof. intros H. unfold nblk_for. apply Nat.Div0.div_le_mono. lia. Qed.

Lemma bcost_mono n m : (n <= m)%nat -> (bcost n <= bcost m)%nat.
Proof. intros H. unfold bcost. destruct (Nat.ltb_spec 12 n), (Nat.ltb_spec 12 m); lia. Qed.

Lemma splice_pad l t : (length l + length t <= 512)%nat -> splice (length l) t (pad l) = pad (l ++ t).
Proof.
  intros Hl. unfold splice, pad. rewrite take_app_length, length_app, app_assoc. f_equal.
  rewrite drop_app_ge by lia. rewrite drop_replicate. f_equal. lia.
Qed.

Definition add_bytes (t : list Z) (f : afile) : afile := AFile (af_type f) (af_bytes f ++ t) (af_blocks f) (af_ind f).

(** [s'] differs from [s] in the data area only. *)
Definition data_only (s s' : mkfs) : Prop :=
  mk_freeinode s' = mk_freeinode s /\ forall b, 0 <= b < nmeta -> blk (mk_img s') b = blk (mk_img s) b.

Lemma data_only_trans s s' s'' : data_only s s' -> data_only s' s'' -> data_only s s''.
Proof. intros [H1 H2] [H3 H4]. split; [congruence|]. intros b Hb. by rewrite H4, H2. Qed.

(** Storing bytes after the last one of the file, in its last block. *)
Lemma store_bytes s fs k f fbn b t :
  data_ok (mk_img s) fs (mk_freeblock s) -> fs !! k = Some f -> af_blocks f !! fbn = Some b ->
  (512 * fbn <= length (af_bytes f))%nat -> length (af_blocks f) = S fbn ->
  (length (af_bytes f) + length t <= 512 * S fbn)%nat ->
  let img' := <[Z.to_nat b := splice (length (af_bytes f) - 512 * fbn) t (blk (mk_img s) b)]> (mk_img s) in
  data_ok img' (<[k := add_bytes t f]> fs) (mk_freeblock s) /\ forall c, 0 <= c < nmeta -> blk img' c = blk (mk_img s) c.
Proof.
  intros Hd Hk Hb Hlo Hlen Hhi img'. pose proof (file_ok _ _ _ _ Hd Hk) as Hf. pose proof (do_len _ _ _ Hd) as Hl. pose proof (do_fb _ _ _ Hd) as Hfb.
  pose proof (file_block _ _ _ _ Hd Hk b ltac:(by eapply list_elem_of_lookup_2)) as Hbr. change nmeta with 59 in *. change FSSIZE with 1000 in *.
  pose proof Hf as [G1 G2 G3 G4 G5]. set (l := slice (512 * fbn) 512 (af_bytes f)).
  assert (Hll : length l = (length (af_bytes f) - 512 * fbn)%nat).
  { unfold l, slice. rewrite length_take, length_drop. lia. }
  assert (Hnew : splice (length (af_bytes f) - 512 * fbn) t (blk (mk_img s) b) = pad (slice (512 * fbn) 512 (af_bytes f ++ t))).
  { rewrite (G4 fbn b Hb). fold l. rewrite <- Hll, splice_pad by lia. f_equal. unfold l, slice.
    rewrite drop_app_le by lia. rewrite (take_ge (drop _ _)), (take_ge (_ ++ _)); [done|rewrite length_app, length_drop; lia|rewrite length_drop; lia]. }
  assert (Hblk : forall c, 0 <= c -> blk img' c = if decide (c = b) then pad (slice (512 * fbn) 512 (af_bytes f ++ t)) else blk (mk_img s) c).
  { intros c Hc. unfold img'. rewrite Hnew. apply blk_insert; lia. }
  assert (Hpl : length (pad (slice (512 * fbn) 512 (af_bytes f ++ t))) = 512%nat).
  { unfold pad. rewrite length_app, length_replicate. unfold slice. rewrite length_take. lia. }
  pose proof (do_nodup _ _ _ Hd) as Hnd. rewrite (all_blocks_split fs k f Hk) in Hnd. apply NoDup_app in Hnd as (Hnd & _).
  unfold af_all in Hnd. apply NoDup_app in Hnd as (Hnd & Hndi & _).
  split; [|intros c Hc; rewrite Hblk, decide_False by lia; done].
  replace (mk_freeblock s) with (mk_freeblock s + Z.of_nat (length (@nil Z))) by (cbn; lia).
  apply (data_ok_update (mk_img s) _ fs k f _ _ []); try done.
  - unfold img'. by rewrite length_insert.
  - apply Forall_insert; [apply Hd|]. by rewrite Hnew.
  - cbn. change FSSIZE with 1000. lia.
  - constructor.
  - by intros c ?%elem_of_nil.
  - intros c Hc Hnin. rewrite Hblk by done. destruct (decide (c = b)) as [->|]; [|done]. exfalso. apply Hnin. rewrite app_nil_r.
    unfold af_all. apply elem_of_app. left. by eapply list_elem_of_lookup_2.
  - split; cbn [add_bytes af_bytes af_blocks af_ind]; [rewrite length_app; lia|done|done| |].
    + intros i c Hc. pose proof (file_block _ _ _ _ Hd Hk c ltac:(by eapply list_elem_of_lookup_2)) as Hcr. change nmeta with 59 in Hcr.
      rewrite Hblk by lia. destruct (decide (c = b)) as [->|Hne].
      * by rewrite (NoDup_lookup _ _ _ _ Hnd Hc Hb).
      * rewrite (G4 i c Hc). f_equal. assert (i <> fbn) by congruence. apply lookup_lt_Some in Hc. unfold slice.
        rewrite drop_app_le by lia. rewrite take_app_le by (rewrite length_drop; lia). done.
    + intros Hi j Hj. pose proof (file_ind _ _ _ _ Hd Hk Hi) as Hir. change nmeta with 59 in Hir. rewrite Hblk, decide_False by first [lia|intros E; apply (Hndi b); [by eapply list_elem_of_lookup_2|]; rewrite <- E, (proj2 (Z.eqb_neq _ _)) by done; by left].
      by apply G5.
Qed.

(** The state of the loop of [iappend] that still has to append [p]. *)
Lemma iappend_loop_spec k size : forall fuel p s fs f,
  data_ok (mk_img s) fs (mk_freeblock s) -> fs !! k = Some f -> tight f -> (length p < fuel)%nat ->
  (length (af_bytes f) + length p <= 140 * 512)%nat ->
  mk_freeblock s + Z.of_nat (bcost (nblk_for (length (af_bytes f) + length p))) - Z.of_nat (bcost (length (af_blocks f))) <= FSSIZE ->
  wp (while fuel iappend_step (dino f size, Z.of_nat (length (af_bytes f)), p))
     (fun r s' => exists f', r = (dino f' size, Z.of_nat (length (af_bytes f'))) /\ af_bytes f' = af_bytes f ++ p /\
        af_type f' = af_type f /\ tight f' /\ data_ok (mk_img s') (<[k := f']> fs) (mk_freeblock s') /\
        mk_freeblock s' = mk_freeblock s + Z.of_nat (bcost (length (af_blocks f'))) - Z.of_nat (bcost (length (af_blocks f))) /\
        data_only s s') no_halt s.
Proof.
  induction fuel as [|fuel IH]; intros p s fs f Hd Hk Ht Hfuel Hmax Hroom; [lia|]. cbn [while]. wp_step.
  unfold iappend_step at 1. destruct p as [|c p'] eqn:Ep.
  { wp_step. wp_step. exists f. rewrite list_insert_id by done. rewrite app_nil_r. repeat (split; [done|]). split; [lia|]. done. }
  rewrite <- Ep in *. set (n := length (af_bytes f)) in *. assert (Hp : (1 <= length p)%nat) by (rewrite Ep; cbn; lia).
  set (fbn := (n / 512)%nat). pose proof (Nat.div_mod_eq n 512) as Hdm. fold fbn in Hdm. pose proof (Nat.mod_upper_bound n 512 ltac:(lia)) as Hmu.
  assert (Hz : Z.of_nat n / BSIZE = Z.of_nat fbn) by (unfold fbn; rewrite Nat2Z.inj_div; done).
  cbv zeta. rewrite Hz. unfold assert_. change MAXFILE with 140. rewrite (proj2 (Z.ltb_lt (Z.of_nat fbn) 140)) by lia. wp_step. wp_step.
  pose proof (nblk_spec n) as Hnb. unfold tight in Ht. fold n in Ht.
  assert (Hle : (fbn <= length (af_blocks f))%nat) by (rewrite Ht; lia).
  assert (Hmx : Nat.max (length (af_blocks f)) (S fbn) = S fbn) by (rewrite Ht; lia).
  assert (Hcost : (bcost (S fbn) <= bcost (nblk_for (n + length p)))%nat).
  { apply bcost_mono. pose proof (nblk_spec (n + length p)). lia. }
  wp_step. eapply wp_conseq; [apply (append_block_spec s fs k f fbn size Hd Hk); [lia|done|rewrite Hmx; lia]|].
  cbn beta. intros [d x] s1 (f1 & E1 & Hb1 & Ht1 & Hx & Hl1 & Hd1 & Hfb1 & Hfi1 & Hfr1). cbn [fst snd] in E1, Hx. subst d. rewrite Hmx in Hl1.
  set (n1 := Nat.min (length p) (Z.to_nat ((Z.of_nat fbn + 1) * BSIZE - Z.of_nat n))).
  assert (Hn1 : (1 <= n1 <= length p /\ n + n1 <= 512 * S fbn /\ (n1 < length p -> n + n1 = 512 * S fbn))%nat) by (unfold n1; change BSIZE with 512; lia).
  clearbody n1. assert (Hk1 : <[k := f1]> fs !! k = Some f1) by (apply list_lookup_insert_eq; by eapply lookup_lt_Some).
  pose proof (file_block _ _ _ _ Hd1 Hk1 x ltac:(by eapply list_elem_of_lookup_2)) as Hxr. pose proof (do_fb _ _ _ Hd1) as Hfb1'.
  wp_step. apply rsect_spec; [apply Hd1|change nmeta with 59 in *; lia|]. wp_step. apply wsect_spec; [apply Hd1|change nmeta with 59 in *; lia|].
  replace (Z.to_nat (Z.of_nat n - Z.of_nat fbn * BSIZE)) with (length (af_bytes f1) - 512 * fbn)%nat by (rewrite Hb1; fold n; change BSIZE with 512; lia).
  destruct (store_bytes s1 (<[k := f1]> fs) k f1 fbn x (take n1 p) Hd1 Hk1 Hx) as [Hd2 Hfr2];
    [rewrite Hb1; fold n; lia|done|rewrite Hb1, length_take; fold n; lia|].
  set (s2 := mset_img _ s1). rewrite list_insert_insert_eq in Hd2. set (f2 := add_bytes (take n1 p) f1) in *.
  assert (Hlen2 : length (af_bytes f2) = (n + n1)%nat) by (unfold f2; cbn; rewrite length_app, Hb1, length_take; fold n; lia).
  wp_step. change FSSIZE with 1000 in *. rewrite u32_id by (unfold is_u32; lia). replace (Z.of_nat n + Z.of_nat n1) with (Z.of_nat (length (af_bytes f2))) by lia.
  assert (Hk2 : <[k := f2]> fs !! k = Some f2) by (apply list_lookup_insert_eq; by eapply lookup_lt_Some).
  change (dino f1 size) with (dino f2 size).
  eapply wp_conseq; [apply (IH (drop n1 p) s2 (<[k := f2]> fs) f2); [done|done| |rewrite length_drop; lia|rewrite Hlen2, length_drop; lia|]|].
  - unfold tight. cbn [f2 af_blocks add_bytes]. rewrite Hl1, Hlen2. pose proof (nblk_spec (n + n1)). lia.
  - rewrite Hlen2, length_drop. replace (n + n1 + (length p - n1))%nat with (n + length p)%nat by lia. cbn [f2 af_blocks add_bytes].
    change FSSIZE with 1000. change (mk_freeblock s2) with (mk_freeblock s1). lia.
  - cbn beta. intros r s' (f' & -> & Hb' & Ht' & Htt & Hd' & Hfb' & Hdo). exists f'. rewrite list_insert_insert_eq in Hd'.
    split; [done|]. split; [rewrite Hb'; cbn [f2 af_bytes add_bytes]; rewrite Hb1, <- app_assoc, take_drop; done|].
    split; [rewrite Ht'; cbn [f2 af_type add_bytes]; done|]. split; [done|]. split; [done|]. split.
    + rewrite Hfb'. change (mk_freeblock s2) with (mk_freeblock s1). cbn [f2 af_blocks add_bytes]. lia.
    + apply (data_only_trans s s2); [|done]. split; [done|]. intros b Hb. cbn. rewrite Hfr2, Hfr1 by done. done.
Qed.

(** ** The inode table *)

Definition fsize (f : afile) : Z := Z.of_nat (length (af_bytes f)).

(** What the inode with number [i] should be. *)
Definition table (fs : list afile) (i : Z) : dinode :=
  if i =? 0 then zero_dinode
  else match fs !! Z.to_nat (i - 1) with Some f => dino f (fsize f) | None => zero_dinode end.

(** Inodes 0 to 207 have a slot. *)
Definition inodes_ok (img : list (list Z)) (t : Z -> dinode) : Prop :=
  forall i, 0 <= i < 208 -> dinode_at (blk img (i / 8 + 32)) i = t i.

Record mk_ok (s : mkfs) (fs : list afile) : Prop := {
  mo_data : data_ok (mk_img s) fs (mk_freeblock s);
  mo_free : mk_freeblock s = nmeta + Z.of_nat (length (all_blocks fs));
  mo_tight : Forall (fun f => tight f /\ is_s16 (af_type f) /\ (length (af_bytes f) <= 140 * 512)%nat) fs;
  mo_inodes : inodes_ok (mk_img s) (table fs);
  mo_next : mk_freeinode s = 1 + Z.of_nat (length fs) /\ (length fs <= 207)%nat;
  mo_sb : blk (mk_img s) 1 = splice 0 (encode_sb mkfs_sb) zeroes;
}.

Lemma IBLOCK_mkfs i : 0 <= i < 208 -> IBLOCK i mkfs_sb = i / 8 + 32 /\ 32 <= i / 8 + 32 < 58.
Proof.
  intros Hi. unfold IBLOCK. change (sb_inodestart mkfs_sb) with 32. change IPB with 8.
  assert (0 <= i / 8 < 26) by (split; [apply Z.div_pos; lia|apply Z.div_lt_upper_bound; lia]). rewrite u32_id by (unfold is_u32; lia). lia.
Qed.

Lemma dino_ok img fs fb f : data_ok img fs fb -> f ∈ fs -> is_s16 (af_type f) -> (length (af_bytes f) <= 140 * 512)%nat -> forall size, is_u32 size -> dinode_ok (dino f size).
Proof.
  intros Hd Hf Ht Hl size Hs. pose proof (do_fb _ _ _ Hd) as Hfb. change FSSIZE with 1000 in Hfb. change nmeta with 59 in Hfb.
  split; [done|]. split; [done|]. split; [done|]. split; [done|]. split; [done|]. split; [apply length_addrs|].
  apply Forall_lookup. intros i a Ha. cbn [di_addrs dino] in Ha. pose proof (lookup_lt_Some _ _ _ Ha) as Hi. rewrite length_addrs in Hi.
  destruct (decide (i = 12%nat)) as [->|Hne].
  - rewrite addrs_ind in Ha. injection Ha as <-. destruct (decide (af_ind f = 0)) as [->|Hne]; [done|].
    assert (nmeta <= af_ind f < fb) as Hr; [|change nmeta with 59 in Hr; unfold is_u32; lia].
    apply (do_range _ _ _ Hd). eapply all_blocks_in; [done|]. apply elem_of_app. right. rewrite (proj2 (Z.eqb_neq _ _)) by done. by left.
  - rewrite addrs_lookup in Ha by lia. injection Ha as <-. destruct (af_blocks f !! i) as [b|] eqn:E; cbn [from_option id]; [|done].
    assert (nmeta <= b < fb) as Hr; [|change nmeta with 59 in Hr; unfold is_u32; lia].
    apply (do_range _ _ _ Hd). eapply all_blocks_in; [done|]. apply elem_of_app. left. by eapply list_elem_of_lookup_2.
Qed.

(** Blocks of the metadata do not matter to the files. *)
Lemma data_ok_meta img img' fs fb : data_ok img fs fb -> length img' = length img -> Forall (fun b => length b = 512%nat) img' ->
  (forall b, nmeta <= b -> blk img' b = blk img b) -> data_ok img' fs fb.
Proof.
  intros [H1 H2 H3 H4 H5 H6 H7] Hl Hb He. split; try done; [congruence| |intros b Hb'; rewrite He by lia; by apply H7].
  intros f Hf. apply (af_ok_ext img); [|by apply H4]. intros b Hbf. apply He. apply H6. by eapply all_blocks_in.
Qed.

(** Writing an inode changes its slot and nothing else. *)
Lemma winode_spec s fs t i d (Q : unit -> mkfs -> Prop) : data_ok (mk_img s) fs (mk_freeblock s) -> inodes_ok (mk_img s) t ->
  0 <= i < 208 -> dinode_ok d ->
  (forall s', data_ok (mk_img s') fs (mk_freeblock s) -> inodes_ok (mk_img s') (fun j => if j =? i then d else t j) ->
     mk_freeinode s' = mk_freeinode s -> mk_freeblock s' = mk_freeblock s ->
     (forall b, 0 <= b < 32 -> blk (mk_img s') b = blk (mk_img s) b) -> Q tt s') ->
  wp (winode i d) Q no_halt s.
Proof.
  intros Hd Ht Hi Hdok HQ. unfold winode. cbv zeta. destruct (IBLOCK_mkfs i Hi) as [-> Hb]. pose proof (do_len _ _ _ Hd) as Hlen.
  change FSSIZE with 1000 in Hlen. wp_step. apply rsect_spec; [done|change FSSIZE with 1000; lia|]. apply wsect_spec; [done|change FSSIZE with 1000; lia|].
  set (old := blk (mk_img s) (i / 8 + 32)). set (img' := <[_ := _]> (mk_img s)).
  assert (Hol : length old = 512%nat) by (apply blk_length; [apply Hd|lia]).
  assert (Hblk : forall b, 0 <= b -> blk img' b = if decide (b = i / 8 + 32) then set_dinode i d old else blk (mk_img s) b).
  { intros b Hb'. apply blk_insert; lia. }
  assert (Hf : Forall (fun b => length b = 512%nat) img').
  { apply Forall_insert; [apply Hd|]. apply length_set_dinode; [apply Hdok|done]. }
  destruct (dinode_slot_roundtrip i d old Hdok Hol) as [Hsame Hother].
  apply HQ; cbn [mset_img mk_img]; try done.
  - apply (data_ok_meta (mk_img s)); [done|by unfold img'; rewrite length_insert|done|].
    intros b Hb'. rewrite Hblk, decide_False by (change nmeta with 59 in Hb'; lia). done.
  - intros j Hj. destruct (IBLOCK_mkfs j Hj) as [_ Hbj]. rewrite Hblk by lia. destruct (Z.eqb_spec j i) as [->|Hne]; [by rewrite decide_True|].
    destruct (decide (j / 8 + 32 = i / 8 + 32)) as [E|E]; [|by apply Ht]. rewrite Hother.
    + unfold old. rewrite <- E. by apply Ht.
    + change IPB with 8. pose proof (Z.div_mod j 8 ltac:(lia)). pose proof (Z.div_mod i 8 ltac:(lia)). lia.
  - intros b Hb'. rewrite Hblk, decide_False by lia. done.
Qed.

Lemma rinode_spec s fs i (Q : dinode -> mkfs -> Prop) : mk_ok s fs -> 0 <= i < 208 -> Q (table fs i) s -> wp (rinode i) Q no_halt s.
Proof.
  intros Hm Hi HQ. unfold rinode. cbv zeta. destruct (IBLOCK_mkfs i Hi) as [-> Hb]. wp_step.
  apply rsect_spec; [apply (mo_data _ _ Hm)|change FSSIZE with 1000; lia|]. wp_step. by rewrite (mo_inodes _ _ Hm) by done.
Qed.

(** ** The files by their type and bytes *)

Definition view (fs : list afile) : list (Z * list Z) := map (fun f => (af_type f, af_bytes f)) fs.
Definition cost (v : list (Z * list Z)) : nat := sum_list_with (fun x => bcost (nblk_for (length x.2))) v.

Lemma cost_blocks s fs : mk_ok s fs -> length (all_blocks fs) = cost (view fs).
Proof.
  intros Hm. pose proof (do_af _ _ _ (mo_data _ _ Hm)) as Haf. pose proof (mo_tight _ _ Hm) as Ht. clear Hm. revert Haf Ht.
  induction fs as [|f fs IH]; intros Haf Ht; [done|]. apply Forall_cons in Ht as [[Ht _] Hts].
  change (all_blocks (f :: fs)) with (af_all f ++ all_blocks fs). rewrite length_app, IH by (done || (intros g Hg; apply Haf; by right)).
  rewrite (af_all_length (mk_img s) f) by (apply Haf; by left). unfold tight in Ht. rewrite Ht. done.
Qed.

Definition mk_view (s : mkfs) (v : list (Z * list Z)) : Prop := exists fs, mk_ok s fs /\ view fs = v.

Lemma view_lookup fs k : view fs !! k = (fun f => (af_type f, af_bytes f)) <$> fs !! k.
Proof. unfold view. apply list_lookup_fmap. Qed.

Lemma cost_insert v k t bs bs' : v !! k = Some (t, bs) ->
  (cost (<[k := (t, bs')]> v) + bcost (nblk_for (length bs)) = cost v + bcost (nblk_for (length bs')))%nat.
Proof.
  intros Hk. pose proof (lookup_lt_Some _ _ _ Hk). rewrite <- (take_drop_middle v k _ Hk) at 2. rewrite insert_take_drop by done.
  unfold cost. rewrite !sum_list_with_app. cbn. lia.
Qed.

Lemma view_insert fs k f : view (<[k := f]> fs) = <[k := (af_type f, af_bytes f)]> (view fs).
Proof. exact (list_fmap_insert (fun f => (af_type f, af_bytes f)) fs k f). Qed.

Lemma table_insert fs k f : (k < length fs)%nat -> forall i, 0 <= i ->
  table (<[k := f]> fs) i = if i =? Z.of_nat k + 1 then dino f (fsize f) else table fs i.
Proof.
  intros Hk i Hi. unfold table. destruct (Z.eqb_spec i 0) as [->|Hi0]; [by rewrite (proj2 (Z.eqb_neq _ _)) by lia|].
  destruct (Z.eqb_spec i (Z.of_nat k + 1)) as [->|Hne].
  - replace (Z.to_nat (Z.of_nat k + 1 - 1)) with k by lia. by rewrite list_lookup_insert_eq.
  - by rewrite list_lookup_insert_ne by lia.
Qed.

(** [iappend] appends, if there is room. *)
Lemma iappend_spec s v k t bs p : mk_view s v -> v !! k = Some (t, bs) -> (length bs + length p <= 140 * 512)%nat ->
  nmeta + Z.of_nat (cost (<[k := (t, bs ++ p)]> v)) <= FSSIZE ->
  wp (iappend (Z.of_nat k + 1) p) (fun _ s' => mk_view s' (<[k := (t, bs ++ p)]> v)) no_halt s.
Proof.
  intros (fs & Hm & <-) Hk Hlen Hroom. rewrite view_lookup in Hk. destruct (fs !! k) as [f|] eqn:Ef; [|done]. injection Hk as <- <-.
  pose proof (mo_next _ _ Hm) as [Hnext H207]. pose proof (lookup_lt_Some _ _ _ Ef) as Hklt.
  pose proof (mo_tight _ _ Hm) as Ht. rewrite Forall_lookup in Ht. destruct (Ht k f Ef) as (Htf & Htt & _).
  assert (Hvk : view fs !! k = Some (af_type f, af_bytes f)) by (rewrite view_lookup, Ef; done).
  pose proof (cost_insert (view fs) k (af_type f) (af_bytes f) (af_bytes f ++ p) Hvk) as Hc. pose proof (cost_blocks s fs Hm) as Hcb.
  pose proof (mo_free _ _ Hm) as Hfree.
  unfold iappend. wp_step. apply (rinode_spec s fs); [done|lia|].
  assert (table fs (Z.of_nat k + 1) = dino f (fsize f)) as ->.
  { unfold table. rewrite (proj2 (Z.eqb_neq _ _)) by lia. replace (Z.to_nat (Z.of_nat k + 1 - 1)) with k by lia. by rewrite Ef. }
  cbn [di_size dino]. rewrite xint_id by (unfold is_u32, fsize; lia). wp_step.
  eapply wp_conseq; [apply (iappend_loop_spec k (fsize f) (S (length p)) p s fs f); [apply Hm|done|done|lia|done|]|].
  { unfold tight in Htf. rewrite Htf. rewrite length_app in Hc. lia. }
  cbn beta. intros r s1 (f' & -> & Hb' & Ht' & Htt' & Hd' & Hfb' & Hfi & Hfr).
  assert (Hl' : length (af_bytes f') = (length (af_bytes f) + length p)%nat) by (rewrite Hb', length_app; done).
  rewrite xint_id by (unfold is_u32; lia).
  assert (Hin' : f' ∈ <[k := f']> fs) by (eapply list_elem_of_lookup_2, list_lookup_insert_eq; done).
  change (set_dsize (Z.of_nat (length (af_bytes f'))) (dino f' (fsize f))) with (dino f' (fsize f')).
  assert (Hino : inodes_ok (mk_img s1) (table fs)).
  { intros i Hi. destruct (IBLOCK_mkfs i Hi) as [_ Hb]. rewrite Hfr by (change nmeta with 59; lia). by apply (mo_inodes _ _ Hm). }
  apply (winode_spec s1 (<[k := f']> fs) (table fs)); [done|done|lia| |].
  { eapply dino_ok; [done|done|by rewrite Ht'|lia|unfold is_u32, fsize; lia]. }
  intros s2 Hd2 Hi2 Hfi2 Hfb2 Hsb2. exists (<[k := f']> fs). split; [|by rewrite view_insert, Ht', Hb'].
  assert (Htight2 : Forall (fun f => tight f /\ is_s16 (af_type f) /\ (length (af_bytes f) <= 140 * 512)%nat) (<[k := f']> fs)).
  { apply Forall_insert; [apply Hm|]. rewrite Ht'. split; [done|]. split; [done|lia]. }
  assert (Hab : length (all_blocks (<[k := f']> fs)) = (length (all_blocks fs) + bcost (length (af_blocks f')) - bcost (length (af_blocks f)))%nat).
  { rewrite (all_blocks_insert fs k f f' Ef), (all_blocks_split fs k f Ef), !length_app.
    rewrite (af_all_length (mk_img s1) f') by (by apply (do_af _ _ _ Hd')). rewrite (af_all_length (mk_img s) f) by (apply (do_af _ _ _ (mo_data _ _ Hm)); by eapply list_elem_of_lookup_2). lia. }
  assert (Hle : (bcost (length (af_blocks f)) <= length (all_blocks fs))%nat).
  { rewrite (all_blocks_split fs k f Ef), length_app, (af_all_length (mk_img s) f) by (apply (do_af _ _ _ (mo_data _ _ Hm)); by eapply list_elem_of_lookup_2). lia. }
  split.
  - by rewrite Hfb2.
  - rewrite Hfb2, Hfb', Hab. lia.
  - done.
  - intros i Hi. rewrite Hi2, table_insert by (done || lia). done.
  - rewrite Hfi2, Hfi, length_insert. done.
  - rewrite Hsb2, Hfr by (done || (change nmeta with 59; lia)). apply Hm.
Qed.

(** [ialloc] takes the next inode. *)
Lemma ialloc_spec s v t : mk_view s v -> (length v < 207)%nat -> 0 <= t < 2 ^ 15 ->
  wp (mk_ialloc t) (fun r s' => r = Z.of_nat (length v) + 1 /\ mk_view s' (v ++ [(t, [])])) no_halt s.
Proof.
  intros (fs & Hm & <-) Hlen Ht. unfold view in Hlen |- *. rewrite length_map in *. pose proof (mo_next _ _ Hm) as [Hnext _].
  assert (Hxs : forall x, 0 <= x < 2 ^ 15 -> s16 (xshort x) = x).
  { intros x Hx. unfold xshort. rewrite le_Z_bytes_2 by (unfold is_u16; lia). apply s16_id. unfold is_s16. lia. }
  unfold mk_ialloc. wp_step. wp_step. wp_step. wp_step. rewrite Hnext, u32_id by (unfold is_u32; lia). rewrite !Hxs by lia.
  rewrite xint_id by done. wp_step. set (f := AFile t [] [] 0).
  change (mkDinode t 0 0 1 0 (replicate 13 0)) with (dino f 0).
  pose proof (mo_data _ _ Hm) as Hd.
  assert (Hd' : data_ok (mk_img s) (fs ++ [f]) (mk_freeblock s)).
  { destruct Hd as [H1 H2 H3 H4 H5 H6 H7]. assert (all_blocks (fs ++ [f]) = all_blocks fs) as Hab by (rewrite all_blocks_app; cbn; by rewrite app_nil_r).
    split; rewrite ?Hab; try done. intros g [Hg| ->%list_elem_of_singleton]%elem_of_app; [by apply H4|].
    split; cbn; [lia|lia|split; [lia|done]|done|done]. }
  apply (winode_spec (mset_freeinode _ s) (fs ++ [f]) (table fs)); [done|apply Hm|lia| |].
  { eapply (dino_ok _ _ _ f Hd'); [apply elem_of_app; right; by left|unfold is_s16; cbn [af_type f]; lia|cbn [af_bytes f length]; lia|done]. }
  intros s2 Hd2 Hi2 Hfi2 Hfb2 Hsb2. wp_step. split; [lia|]. exists (fs ++ [f]). split; [|unfold view; by rewrite map_app].
  cbn [mset_freeinode mk_freeblock mk_freeinode mk_img] in *. split.
  - by rewrite Hfb2.
  - rewrite Hfb2, all_blocks_app. cbn. rewrite app_nil_r. apply Hm.
  - apply Forall_app. split; [apply Hm|]. apply Forall_singleton. split; [done|]. split; [unfold is_s16; cbn [af_type f]; lia|cbn [af_bytes f length]; lia].
  - intros i Hi. rewrite Hi2 by done. unfold table. destruct (Z.eqb_spec i (1 + Z.of_nat (length fs))) as [->|Hne].
    + rewrite (proj2 (Z.eqb_neq _ _)) by lia. replace (Z.to_nat (1 + Z.of_nat (length fs) - 1)) with (length fs) by lia.
      by rewrite list_lookup_middle.
    + destruct (i =? 0) eqn:E0; [done|]. apply Z.eqb_neq in E0.
      destruct (decide (Z.to_nat (i - 1) < length fs)%nat); [by rewrite lookup_app_l|].
      rewrite (lookup_ge_None_2 fs), lookup_ge_None_2; [done|rewrite length_app; cbn; lia|lia].
  - rewrite Hfi2, length_app. cbn. lia.
  - rewrite Hsb2 by lia. apply Hm.
Qed.
