(* ===== verification/MkfsTheorems.v ===== *)
(** * MkfsTheorems: the image that mkfs builds, and what the server reads
    from it *)
From S2P Require Import Prelude CString FsFormat Mkfs MkfsData MkfsProof.
From S2P Require Import Ring BlockDev Ipc FssCache FssFile.

(** ** What the image should hold *)

Definition content (f : hostfile) : list Z := concat (h_chunks f).

(** The entries of the root directory. *)
Definition root_entries (files : list hostfile) : list Z :=
  mk_dirent 1 [46] ++ mk_dirent 1 [46; 46] ++
  concat (imap (fun i f => mk_dirent (Z.of_nat i + 2) (skip_underscore (h_name f))) files).

Definition view_of (files : list hostfile) : list (Z * list Z) :=
  (T_DIR, root_entries files) :: map (fun f => (T_FILE, content f)) files.

(** The files fit on the disk and their names have no slash. *)
Record fits_disk (files : list hostfile) : Prop := {
  fd_room : nmeta + Z.of_nat (cost (view_of files)) <= FSSIZE;
  fd_count : (length files <= 206)%nat;
  fd_size : Forall (fun f => (length (content f) <= 140 * 512)%nat) files;
  fd_names : Forall (fun f => existsb (Z.eqb 47) (h_name f) = false) files;
}.

Lemma length_mk_dirent i name : length (mk_dirent i name) = 16%nat.
Proof.
  unfold mk_dirent, encode_dirent. cbn [de_inum de_name]. rewrite length_app, length_le_bytes, length_take, length_app, length_replicate.
  change DIRSIZ with 14%nat. lia.
Qed.

Lemma root_entries_snoc files f :
  root_entries (files ++ [f]) = root_entries files ++ mk_dirent (Z.of_nat (length files) + 2) (skip_underscore (h_name f)).
Proof.
  unfold root_entries. rewrite imap_app, concat_app. cbn [imap concat]. rewrite Nat.add_0_r, (app_nil_r (mk_dirent _ _)).
  by rewrite <- !app_assoc.
Qed.

Lemma length_root_entries files : length (root_entries files) = (16 * (length files + 2))%nat.
Proof.
  induction files as [|f files IH] using rev_ind; [done|]. rewrite root_entries_snoc, !length_app, IH, length_mk_dirent. cbn [length]. lia.
Qed.

(** ** Views grow *)

Definition grows (v v' : list (Z * list Z)) : Prop :=
  (length v <= length v')%nat /\ forall k x y, v !! k = Some x -> v' !! k = Some y -> (length x.2 <= length y.2)%nat.

Lemma cost_mono : forall v v', grows v v' -> (cost v <= cost v')%nat.
Proof.
  induction v as [|x v IH]; intros v' [Hl H]; [apply Nat.le_0_l|]. destruct v' as [|y v']; cbn in Hl; [lia|].
  unfold cost. cbn [sum_list_with]. fold (cost v). fold (cost v'). pose proof (H 0%nat x y eq_refl eq_refl) as H0.
  pose proof (bcost_mono _ _ (nblk_mono _ _ H0)). specialize (IH v'). assert (cost v <= cost v')%nat; [|lia].
  apply IH. split; [lia|]. intros k a b Ha Hb. by apply (H (S k) a b).
Qed.

(** The view while the file [acc] is being added after [done]. *)
Definition view_at (root : list Z) (done : list hostfile) (acc : list Z) : list (Z * list Z) :=
  (T_DIR, root) :: map (fun f => (T_FILE, content f)) done ++ [(T_FILE, acc)].

Lemma view_at_root root root' done acc : <[0%nat := (T_DIR, root')]> (view_at root done acc) = view_at root' done acc.
Proof. done. Qed.

Lemma view_at_acc root done acc acc' : <[S (length done) := (T_FILE, acc')]> (view_at root done acc) = view_at root done acc'.
Proof.
  unfold view_at. change (<[S ?n := ?x]> (?y :: ?l)) with (y :: <[n := x]> l). f_equal. rewrite insert_app_r_alt by (rewrite length_map; lia). by rewrite length_map, Nat.sub_diag.
Qed.

Lemma view_at_lookup root done acc : view_at root done acc !! S (length done) = Some (T_FILE, acc).
Proof.
  change ((map (fun f => (T_FILE, content f)) done ++ [(T_FILE, acc)]) !! length done = Some (T_FILE, acc)).
  apply list_lookup_middle. by rewrite length_map.
Qed.

Lemma view_at_grows files done f rest root acc :
  files = done ++ f :: rest -> (length root <= length (root_entries files))%nat -> (length acc <= length (content f))%nat ->
  grows (view_at root done acc) (view_of files).
Proof.
  intros -> Hr Ha. split; [unfold view_at, view_of; cbn; rewrite length_app, !length_map, length_app; cbn; lia|].
  unfold view_at, view_of. intros [|k] x y Hx Hy; [by injection Hx as <-; injection Hy as <-|].
  change ((map (fun f => (T_FILE, content f)) done ++ [(T_FILE, acc)]) !! k = Some x) in Hx.
  change (map (fun f => (T_FILE, content f)) (done ++ f :: rest) !! k = Some y) in Hy. revert Hx Hy.
  rewrite map_app. cbn [map]. destruct (decide (k < length done)%nat) as [Hk|Hk].
  - rewrite !lookup_app_l by (by rewrite length_map). intros -> [= ->]. done.
  - rewrite !lookup_app_r by (rewrite length_map; lia). rewrite length_map. destruct (k - length done)%nat as [|j]; [|done].
    by intros [= <-] [= <-].
Qed.

Section main.
Context (files : list hostfile) (Hfit : fits_disk files).

Lemma chunks_spec done f rest root : files = done ++ f :: rest -> (length root <= length (root_entries files))%nat ->
  forall chunks acc s, acc ++ concat chunks = content f -> mk_view s (view_at root done acc) ->
  wp (for_each (R := unit) chunks (fun buf => iappend (Z.of_nat (length done) + 2) buf;; mret None))
     (fun _ s' => mk_view s' (view_at root done (content f))) no_halt s.
Proof.
  intros Hf Hr. assert (Hfl : (length (content f) <= 140 * 512)%nat).
  { pose proof (fd_size _ Hfit) as H. rewrite Hf in H. apply Forall_app in H as [_ H]. by apply Forall_cons in H as [H _]. }
  induction chunks as [|buf chunks IH]; intros acc s Hacc Hv; cbn [for_each concat] in *.
  - rewrite app_nil_r in Hacc. wp_step. by rewrite <- Hacc.
  - wp_step. wp_step. replace (Z.of_nat (length done) + 2) with (Z.of_nat (S (length done)) + 1) by lia.
    assert (Hle : (length (acc ++ buf) <= length (content f))%nat) by (rewrite <- Hacc, !length_app; lia).
    eapply wp_conseq; [apply (iappend_spec s _ (S (length done)) T_FILE acc buf Hv); [apply view_at_lookup|rewrite length_app in Hle; lia|]|].
    { rewrite view_at_acc. pose proof (fd_room _ Hfit). pose proof (cost_mono _ _ (view_at_grows files done f rest root (acc ++ buf) Hf Hr Hle)). lia. }
    intros ? s1 H1. rewrite view_at_acc in H1. wp_step. replace (Z.of_nat (S (length done)) + 1) with (Z.of_nat (length done) + 2) by lia.
    apply (IH (acc ++ buf)); [by rewrite <- app_assoc|done].
Qed.

Lemma add_file_spec done f rest s : files = done ++ f :: rest -> mk_view s (view_of done) ->
  wp (add_file 1 f) (fun _ s' => mk_view s' (view_of (done ++ [f]))) no_halt s.
Proof.
  intros Hf Hv. unfold add_file, assert_. assert (existsb (Z.eqb 47) (h_name f) = false) as ->.
  { pose proof (fd_names _ Hfit) as H. rewrite Hf in H. apply Forall_app in H as [_ H]. by apply Forall_cons in H as [H _]. }
  pose proof (fd_count _ Hfit) as Hcount. assert (Hl : (length done < length files)%nat) by (rewrite Hf, length_app; cbn; lia).
  cbn [negb]. wp_step. wp_step. cbv zeta. wp_step.
  eapply wp_conseq; [apply (ialloc_spec s _ T_FILE Hv); [unfold view_of; cbn; rewrite length_map; lia|done]|].
  cbn beta. intros inum s1 [Hi H1]. assert (Hinum : inum = Z.of_nat (length done) + 2) by (rewrite Hi; unfold view_of; cbn; rewrite length_map; lia).
  rewrite Hinum. change (view_of done ++ [(T_FILE, [])]) with (view_at (root_entries done) done []) in H1.
  set (e := mk_dirent (Z.of_nat (length done) + 2) (skip_underscore (h_name f))).
  assert (He : root_entries done ++ e = root_entries (done ++ [f])) by (by rewrite root_entries_snoc).
  assert (Hr : (length (root_entries (done ++ [f])) <= length (root_entries files))%nat) by (rewrite !length_root_entries, length_app; cbn [length]; lia).
  wp_step. eapply wp_conseq; [apply (iappend_spec s1 _ 0%nat T_DIR (root_entries done) e H1); [done| |]|].
  { rewrite length_root_entries. unfold e. rewrite length_mk_dirent. lia. }
  { rewrite view_at_root, He. pose proof (fd_room _ Hfit).
    pose proof (cost_mono _ _ (view_at_grows files done f rest (root_entries (done ++ [f])) [] Hf Hr ltac:(cbn; lia))). lia. }
  intros ? s2 H2. rewrite view_at_root, He in H2. wp_step.
  eapply wp_conseq; [by apply (chunks_spec done f rest (root_entries (done ++ [f])) Hf Hr (h_chunks f) [] s2)|].
  intros ? s3 H3. wp_step. unfold view_of. by rewrite map_app.
Qed.

Lemma add_files_spec : forall rest done s, files = done ++ rest -> mk_view s (view_of done) ->
  wp (for_each (R := unit) rest (fun f => add_file 1 f;; mret None)) (fun _ s' => mk_view s' (view_of files)) no_halt s.
Proof.
  induction rest as [|f rest IH]; intros done s Hf Hv; cbn [for_each].
  - rewrite app_nil_r in Hf. wp_step. by rewrite Hf.
  - wp_step. wp_step. eapply wp_conseq; [by apply (add_file_spec done f rest)|]. intros ? s1 H1. wp_step.
    apply (IH (done ++ [f])); [by rewrite <- app_assoc|done].
Qed.

(** ** The empty image *)

Lemma dinode_zeroes i : dinode_at zeroes i = zero_dinode.
Proof.
  unfold dinode_at. assert (slice (dinode_off i) sizeof_dinode zeroes = replicate 64 0) as ->; [|done].
  pose proof (dinode_off_bound i). unfold slice, zeroes. rewrite drop_replicate, take_replicate. f_equal.
  change (Z.to_nat BSIZE) with 512%nat. change sizeof_dinode with 64%nat in *. lia.
Qed.

Lemma clear_image (Q : option unit -> mkfs -> Prop) : Q None (mkMkfs (replicate 1000 zeroes) 1 nmeta) ->
  wp (for_each (R := unit) (seqZ 0 FSSIZE) (fun i => wsect i zeroes;; mret None)) Q no_halt mkfs_start.
Proof.
  intros HQ. change FSSIZE with 1000. apply (wp_for_seqZ (fun i s => s = mkMkfs (replicate (Z.to_nat i) zeroes) 1 nmeta)); [lia|done| |].
  - intros i s Hi ->. wp_step. unfold wsect. wp_step. wp_step. split; [done|]. cbn [mk_img mset_img mk_freeinode mk_freeblock].
    rewrite sect_id by (change FSSIZE with 1000; lia). rewrite length_replicate, Nat.ltb_irrefl, Nat.sub_diag. cbn [replicate app].
    unfold mset_img. cbn. replace (Z.to_nat (i + 1)) with (Z.to_nat i + 1)%nat by lia. by rewrite replicate_add.
  - intros s ->. exact HQ.
Qed.

Lemma empty_view : mk_view (mset_img (<[1%nat := splice 0 (encode_sb mkfs_sb) zeroes]> (replicate 1000 zeroes)) (mkMkfs (replicate 1000 zeroes) 1 nmeta)) [].
Proof.
  exists []. split; [|done]. set (sbb := splice 0 (encode_sb mkfs_sb) zeroes).
  assert (Hsbl : length sbb = 512%nat) by (unfold sbb; rewrite length_splice; [apply length_zeroes|rewrite length_zeroes; cbn; lia]).
  assert (Hblk : forall b, 0 <= b < 1000 -> b <> 1 -> blk (<[1%nat := sbb]> (replicate 1000 zeroes)) b = zeroes).
  { intros b Hb Hne. unfold blk. rewrite list_lookup_insert_ne by lia. by rewrite lookup_replicate_2 by lia. }
  assert (Hdata : data_ok (<[1%nat := sbb]> (replicate 1000 zeroes)) [] nmeta).
  { split; try done.
    - apply Forall_insert; [apply Forall_replicate, length_zeroes|done].
    - by intros f ?%elem_of_nil.
    - constructor.
    - by intros b ?%elem_of_nil.
    - intros b Hb. apply Hblk; change nmeta with 59 in Hb; change FSSIZE with 1000 in Hb; lia. }
  split; cbn [mset_img mk_img mk_freeinode mk_freeblock]; try done.
  - intros i Hi. destruct (IBLOCK_mkfs i Hi) as [_ Hb]. rewrite Hblk by lia. rewrite dinode_zeroes. unfold table.
    destruct (i =? 0); done.
  - split; [done|cbn; lia].
Qed.

(** Everything up to the last adjustments. *)
Lemma mkfs_files (rest : Z -> M mkfs unit) (Q : unit -> mkfs -> Prop) :
  (forall s, mk_view s (view_of files) -> wp (rest ROOTINO) Q no_halt s) ->
  wp (for_each (R := unit) (seqZ 0 FSSIZE) (fun i => wsect i zeroes;; mret None);;
      wsect 1 (splice 0 (encode_sb mkfs_sb) zeroes);;
      rootino ← mk_ialloc T_DIR;
      assert_ (rootino =? ROOTINO);;
      iappend rootino (mk_dirent rootino [46]);;
      iappend rootino (mk_dirent rootino [46; 46]);;
      for_each (R := unit) files (fun f => add_file rootino f;; mret None);;
      rest rootino) Q no_halt mkfs_start.
Proof.
  intros Hrest. wp_step. apply clear_image. wp_step. apply wsect_spec; [cbn [mk_img]; by rewrite length_replicate|done|].
  wp_step. eapply wp_conseq; [apply (ialloc_spec _ [] T_DIR empty_view); [cbn; lia|done]|].
  cbn beta. intros r s1 [-> H1]. change (Z.of_nat (length (@nil (Z * list Z))) + 1) with 1. change (1 =? ROOTINO) with true.
  unfold assert_. wp_step. wp_step. pose proof (fd_room _ Hfit) as Hroom.
  assert (Hg : forall l, (length l <= length (root_entries files))%nat -> (cost [(T_DIR, l)] <= cost (view_of files))%nat).
  { intros l Hl. apply cost_mono. split; [unfold view_of; cbn; lia|]. intros [|k0] x y Hx Hy; [|done]. by injection Hx as <-; injection Hy as <-. }
  rewrite length_root_entries in Hg.
  wp_step. change 1 with (Z.of_nat 0 + 1) at 1. eapply wp_conseq; [apply (iappend_spec s1 _ 0%nat T_DIR [] (mk_dirent 1 [46]) H1); [done|cbn [length]; rewrite length_mk_dirent; lia|]|].
  { change (<[0%nat := (T_DIR, [] ++ mk_dirent 1 [46])]> ([] ++ [(T_DIR, [])])) with [(T_DIR, mk_dirent 1 [46])].
    specialize (Hg (mk_dirent 1 [46])). rewrite length_mk_dirent in Hg. lia. }
  intros ? s2 H2. change (<[0%nat := (T_DIR, [] ++ mk_dirent 1 [46])]> ([] ++ [(T_DIR, [])])) with [(T_DIR, mk_dirent 1 [46])] in H2.
  wp_step. change 1 with (Z.of_nat 0 + 1) at 1. eapply wp_conseq; [apply (iappend_spec s2 _ 0%nat T_DIR (mk_dirent 1 [46]) (mk_dirent 1 [46; 46]) H2); [done|rewrite !length_mk_dirent; lia|]|].
  { change (<[0%nat := (T_DIR, mk_dirent 1 [46] ++ mk_dirent 1 [46; 46])]> [(T_DIR, mk_dirent 1 [46])]) with [(T_DIR, mk_dirent 1 [46] ++ mk_dirent 1 [46; 46])].
    specialize (Hg (mk_dirent 1 [46] ++ mk_dirent 1 [46; 46])). rewrite length_app, !length_mk_dirent in Hg. lia. }
  intros ? s3 H3. wp_step. eapply wp_conseq; [apply (add_files_spec files []); [done|]|].
  { unfold view_of, root_entries. cbn [imap concat map]. rewrite app_nil_r. exact H3. }
  intros ? s4 H4. by apply Hrest.
Qed.
End main.

(** ** Reading the image back *)

(** The block of the disk that holds block [bn] of a file, as the kernel and
    the server find it. *)
Definition iblk (img : list (list Z)) (d : dinode) (bn : nat) : Z :=
  if (bn <? 12)%nat then default 0 (di_addrs d !! bn)
  else word_at (blk img (default 0 (di_addrs d !! 12%nat))) (bn - 12).

(** The file with inode [d] starts with the bytes [c]. *)
Record stores (img : list (list Z)) (d : dinode) (c : list Z) : Prop := {
  st_map : forall bn, (bn < nblk_for (length c))%nat ->
    (bn < 140)%nat /\ nmeta <= iblk img d bn < FSSIZE /\ ((12 <= bn)%nat -> nmeta <= default 0 (di_addrs d !! 12%nat) < FSSIZE);
  st_bytes : forall x b, c !! x = Some b -> blk img (iblk img d (x / 512)) !! (x mod 512)%nat = Some b;
}.

Lemma file_stores img fs fb f size : data_ok img fs fb -> f ∈ fs -> tight f -> stores img (dino f size) (af_bytes f).
Proof.
  intros Hd Hf Ht. pose proof (do_af _ _ _ Hd f Hf) as [G1 G2 G3 G4 G5]. pose proof (do_fb _ _ _ Hd) as Hfb.
  assert (Hr : forall b, b ∈ af_all f -> nmeta <= b < FSSIZE) by (intros b Hb; pose proof (do_range _ _ _ Hd b (all_blocks_in _ _ _ Hf Hb)); lia).
  assert (Hib : forall bn b, af_blocks f !! bn = Some b -> iblk img (dino f size) bn = b).
  { intros bn b Hb. pose proof (lookup_lt_Some _ _ _ Hb). unfold iblk. cbn [di_addrs dino]. rewrite addrs_ind.
    destruct (Nat.ltb_spec bn 12) as [H12|H12]; [by rewrite addrs_lookup, Hb by done|]. cbn [from_option id].
    rewrite G5; [by replace (12 + (bn - 12))%nat with bn by lia; rewrite Hb|intros E; apply G3 in E; lia|lia]. }
  split.
  - intros bn Hbn. unfold tight in Ht. rewrite <- Ht in Hbn. destruct (lookup_lt_is_Some_2 _ _ Hbn) as [b Hb].
    split; [lia|]. rewrite (Hib bn b Hb). split; [apply Hr, elem_of_app; left; by eapply list_elem_of_lookup_2|].
    intros H12. cbn [di_addrs dino]. rewrite addrs_ind. cbn [from_option id]. apply Hr, elem_of_app. right.
    rewrite (proj2 (Z.eqb_neq _ _)) by (intros E; apply G3 in E; lia). by left.
  - intros x b Hx. pose proof (lookup_lt_Some _ _ _ Hx) as Hlt. pose proof (Nat.div_mod_eq x 512) as Hdm.
    pose proof (Nat.mod_upper_bound x 512 ltac:(lia)) as Hmu. assert (Hbn : (x / 512 < length (af_blocks f))%nat) by lia.
    destruct (lookup_lt_is_Some_2 _ _ Hbn) as [c Hc]. rewrite (Hib _ c Hc), (G4 _ c Hc). unfold pad.
    apply lookup_app_l_Some. unfold slice. rewrite lookup_take_lt, lookup_drop by done. by rewrite <- Hdm.
Qed.

(** The bitmap with the first [n] bits set. *)
Definition bitmap (n : Z) : list Z := foldl (fun buf i => set_bit i buf) zeroes (seqZ 0 n).

Lemma bitmap_prefix (n : nat) : (n <= 4096)%nat -> length (bitmap (Z.of_nat n)) = 512%nat /\
  forall b, 0 <= b -> bit_clear (bitmap (Z.of_nat n)) b = negb (b <? Z.of_nat n).
Proof.
  unfold bitmap. induction n as [|n IH]; intros Hn.
  - split; [apply length_zeroes|]. intros b Hb. rewrite (proj2 (Z.ltb_ge _ _)) by lia. unfold bit_clear, byte_at, zeroes. cbn [seqZ foldl negb].
    change (foldl (fun buf i => set_bit i buf) (replicate (Z.to_nat BSIZE) 0) (seqZ 0 (Z.of_nat 0))) with (replicate (Z.to_nat BSIZE) 0).
    assert (default 0 (replicate (Z.to_nat BSIZE) 0 !! Z.to_nat (b / 8)) = 0) as ->; [|by rewrite Z.land_0_l].
    destruct (replicate (Z.to_nat BSIZE) 0 !! Z.to_nat (b / 8)) as [x|] eqn:E; [|done]. by apply lookup_replicate in E as [-> _].
  - destruct IH as [IHl IH]; [lia|]. replace (Z.of_nat (S n)) with (Z.of_nat n + 1) by lia. rewrite seqZ_app by lia.
    rewrite foldl_app. change (seqZ (0 + Z.of_nat n) 1) with [Z.of_nat n]. cbn [foldl]. split; [by rewrite length_set_bit|].
    intros b Hb. rewrite bit_clear_set_bit by (rewrite ?IHl; lia). rewrite IH by done.
    destruct (Z.eqb_spec (Z.of_nat n) b) as [<-|Hne]; [by rewrite (proj2 (Z.ltb_lt _ _)) by lia|].
    destruct (Z.ltb_spec b (Z.of_nat n)), (Z.ltb_spec b (Z.of_nat n + 1)); (done || lia).
Qed.

(** The inode of the image with number [i]. *)
Definition img_inode (img : list (list Z)) (i : Z) : dinode := dinode_at (blk img (i / 8 + 32)) i.

(** The image of [files]. *)
Record image_of (img : list (list Z)) (files : list hostfile) : Prop := {
  io_size : Z.of_nat (length img) = FSSIZE /\ Forall (fun b => length b = 512%nat) img;
  io_sb : decode_sb (blk img 1) = mkfs_sb;
  io_root : di_type (img_inode img ROOTINO) = T_DIR /\ stores img (img_inode img ROOTINO) (root_entries files) /\
    di_size (img_inode img ROOTINO) = Z.of_nat (length (root_entries files)) / BSIZE * BSIZE + BSIZE /\ di_nlink (img_inode img ROOTINO) = 1;
  io_files : forall k f, files !! k = Some f ->
    let d := img_inode img (Z.of_nat k + 2) in
    di_type d = T_FILE /\ di_nlink d = 1 /\ di_size d = Z.of_nat (length (content f)) /\ stores img d (content f);
  io_bitmap : forall b, 0 <= b < FSSIZE ->
    bit_clear (blk img (sb_bmapstart mkfs_sb)) b = negb (b <? nmeta + Z.of_nat (cost (view_of files)));
}.

Lemma view_of_file files fs k f : view fs = view_of files -> files !! k = Some f ->
  exists g, fs !! S k = Some g /\ af_type g = T_FILE /\ af_bytes g = content f.
Proof.
  intros Hv Hk. assert (view fs !! S k = Some (T_FILE, content f)) as H.
  { rewrite Hv. change (map (fun f => (T_FILE, content f)) files !! k = Some (T_FILE, content f)).
    change (((fun f => (T_FILE, content f)) <$> files) !! k = Some (T_FILE, content f)). by rewrite list_lookup_fmap, Hk. }
  rewrite view_lookup in H. destruct (fs !! S k) as [g|]; [|done]. injection H as H1 H2. by exists g.
Qed.

(** The last steps of [main]: the size of the root directory is rounded up and
    the bitmap is written. *)
Definition finish (rootino : Z) : M mkfs unit :=
  din ← rinode rootino;
  let off := xint (di_size din) in
  let off := u32 ((off / BSIZE + 1) * BSIZE) in
  winode rootino (set_dsize (xint off) din);;
  freeblock ← gets mk_freeblock;
  mk_balloc (s32 freeblock).

Lemma finish_image files fs s : fits_disk files -> mk_ok s fs -> view fs = view_of files ->
  wp (finish ROOTINO) (fun _ s' => image_of (mk_img s') files) no_halt s.
Proof.
  intros Hfit Hm Hv. pose proof (mo_data _ _ Hm) as Hd. pose proof (mo_tight _ _ Hm) as Ht. rewrite Forall_lookup in Ht.
  assert (exists r, fs !! 0%nat = Some r /\ af_type r = T_DIR /\ af_bytes r = root_entries files) as (r & Hr & Hrt & Hrb).
  { assert (view fs !! 0%nat = Some (T_DIR, root_entries files)) as H by (by rewrite Hv). rewrite view_lookup in H.
    destruct (fs !! 0%nat) as [g|]; [|done]. injection H as H1 H2. by exists g. }
  destruct (Ht 0%nat r Hr) as (Htr & Hts & Htl). pose proof (fd_count _ Hfit) as Hcount.
  assert (Hrl : Z.of_nat (length (root_entries files)) <= 3328) by (rewrite length_root_entries; lia).
  unfold finish. wp_step. apply (rinode_spec s fs); [done|done|]. assert (table fs ROOTINO = dino r (fsize r)) as ->.
  { unfold table. change (ROOTINO =? 0) with false. change (Z.to_nat (ROOTINO - 1)) with 0%nat. by rewrite Hr. }
  cbv zeta. cbn [di_size dino]. unfold fsize. rewrite Hrb. set (n := Z.of_nat (length (root_entries files))) in *.
  assert (Hn : 0 <= n / BSIZE <= 6) by (split; [apply Z.div_pos; [lia|done]|]; change 6 with (3328 / BSIZE); apply Z.div_le_mono; [done|lia]).
  rewrite (xint_id n) by (unfold is_u32; lia). change BSIZE with 512 in *. rewrite u32_id, xint_id by (unfold is_u32; lia).
  change (set_dsize ((n / 512 + 1) * 512) (dino r n)) with (dino r ((n / 512 + 1) * 512)).
  wp_step. apply (winode_spec s fs (table fs)); [done|apply Hm|done|eapply dino_ok; [done|by eapply list_elem_of_lookup_2|done|done|unfold is_u32; lia]|].
  intros s1 Hd1 Hi1 Hfi1 Hfb1 Hsb1. wp_step. wp_step. rewrite Hfb1, (mo_free _ _ Hm), (cost_blocks s fs Hm), Hv.
  pose proof (fd_room _ Hfit) as Hroom. set (used := nmeta + Z.of_nat (cost (view_of files))) in *.
  assert (Hused : 59 <= used <= 1000) by (unfold used; change nmeta with 59 in *; change FSSIZE with 1000 in *; lia).
  rewrite s32_id by (unfold is_s32; lia). unfold mk_balloc, assert_. rewrite (proj2 (Z.ltb_lt used _)) by (change (BSIZE * 8) with 4096; lia).
  wp_step. wp_step. cbv zeta. apply wsect_spec; [apply Hd1|done|]. fold (bitmap used). change (sb_bmapstart mkfs_sb) with 58.
  set (img := mk_img s1) in *. set (img' := <[Z.to_nat 58 := bitmap used]> img). cbn [mset_img mk_img].
  destruct (bitmap_prefix (Z.to_nat used) ltac:(lia)) as [Hbl Hbits]. rewrite Z2Nat.id in Hbl, Hbits by lia.
  pose proof (do_len _ _ _ Hd1) as Hlen. fold img in Hlen. change FSSIZE with 1000 in Hlen.
  assert (Hblk : forall b, 0 <= b -> blk img' b = if decide (b = 58) then bitmap used else blk img b) by (intros b Hb; apply blk_insert; lia).
  assert (Hd' : data_ok img' fs (mk_freeblock s)).
  { apply (data_ok_meta img); [done|by unfold img'; rewrite length_insert|apply Forall_insert; [apply Hd1|done]|].
    intros b Hb. rewrite Hblk, decide_False by (change nmeta with 59 in Hb; lia). done. }
  assert (Hino : forall i, 0 <= i < 208 -> img_inode img' i = if i =? 1 then dino r ((n / 512 + 1) * 512) else table fs i).
  { intros i Hi. unfold img_inode. destruct (IBLOCK_mkfs i Hi) as [_ Hb]. rewrite Hblk, decide_False by lia. by apply Hi1. }
  split.
  - split; [apply Hd'|apply Hd'].
  - rewrite Hblk, decide_False, Hsb1, (mo_sb _ _ Hm) by lia. reflexivity.
  - rewrite (Hino ROOTINO) by done. change (ROOTINO =? 1) with true. cbv iota. split; [done|]. split; [|split; [cbn [di_size dino]; change BSIZE with 512; fold n; lia|done]].
    rewrite <- Hrb. eapply file_stores; [done|by eapply list_elem_of_lookup_2|done].
  - intros k f Hk d. pose proof (lookup_lt_Some _ _ _ Hk). destruct (view_of_file files fs k f Hv Hk) as (g & Hg & Hgt & Hgb).
    destruct (Ht _ g Hg) as (Htg & _). assert (d = dino g (fsize g)) as ->.
    { unfold d. rewrite Hino, (proj2 (Z.eqb_neq _ 1)) by lia. unfold table. rewrite (proj2 (Z.eqb_neq _ _)) by lia.
      replace (Z.to_nat (Z.of_nat k + 2 - 1)) with (S k) by lia. by rewrite Hg. }
    split; [done|]. split; [done|]. split; [cbn [di_size dino]; unfold fsize; by rewrite Hgb|].
    rewrite <- Hgb. eapply file_stores; [done|by eapply list_elem_of_lookup_2|done].
  - intros b Hb. change (sb_bmapstart mkfs_sb) with 58. rewrite Hblk, decide_True by lia. apply Hbits. lia.
Qed.

Lemma mkfs_image files : fits_disk files -> wp (mkfs_main files) (fun _ s' => image_of (mk_img s') files) no_halt mkfs_start.
Proof.
  intros Hfit. apply (mkfs_files files Hfit finish). intros s (fs & Hm & Hv). by apply (finish_image files fs).
Qed.

(** C23: given files that fit on the disk, mkfs terminates without a failed
    assertion or read and its image holds exactly them: the superblock, a root
    directory that lists the files, for every file an inode of its type and
    size whose blocks, direct and indirect, hold its bytes, and a bitmap that
    marks the blocks in use and no other. *)
Theorem mkfs_builds_image files : fits_disk files ->
  wp (mkfs_main files) (fun _ s' => image_of (mk_img s') files) no_halt mkfs_start.
Proof. apply mkfs_image. Qed.

(** ** Directory entries and names *)

(** A name in a buffer of [DIRSIZ] bytes. *)
Definition name_field (nm : list Z) : list Z := take DIRSIZ (nm ++ replicate DIRSIZ 0).

Lemma decode_mk_dirent i nm : 0 <= i < 65536 -> decode_dirent (mk_dirent i nm) = mkDirent i (name_field nm).
Proof.
  intros Hi. unfold mk_dirent. fold (name_field nm). unfold decode_dirent, encode_dirent. cbn [de_inum de_name].
  assert (Hx : xshort i = i) by (apply le_Z_bytes_2; unfold is_u16; lia). rewrite Hx, u16_id by (unfold is_u16; lia).
  f_equal; [apply le_Z_bytes_2; unfold is_u16; lia|]. unfold slice. change (drop 2 (le_bytes 2 i ++ name_field nm)) with (name_field nm).
  apply take_ge. unfold name_field. rewrite length_take. change DIRSIZ with 14%nat. lia.
Qed.

(** The entries of the root directory. *)
Definition entries (files : list hostfile) : list (Z * list Z) :=
  (1, [46]) :: (1, [46; 46]) :: imap (fun i f => (Z.of_nat i + 2, skip_underscore (h_name f))) files.

Lemma slice_concat {A} (n : nat) (l : list (list A)) : forall j c, Forall (fun c => length c = n) l -> l !! j = Some c ->
  slice (n * j) n (concat l) = c.
Proof.
  induction l as [|c' l IH]; intros j c Hl Hj; [done|]. apply Forall_cons in Hl as [Hc' Hl]. cbn [concat]. unfold slice in *.
  destruct j as [|j].
  - injection Hj as ->. rewrite Nat.mul_0_r, drop_0, take_app_le, take_ge by lia. done.
  - rewrite drop_app_ge by lia. replace (n * S j - length c')%nat with (n * j)%nat by lia. by apply IH.
Qed.

Lemma entry_slice files j i nm : entries files !! j = Some (i, nm) -> slice (16 * j) 16 (root_entries files) = mk_dirent i nm.
Proof.
  intros Hj. assert (root_entries files = concat ((fun e => mk_dirent e.1 e.2) <$> entries files)) as ->.
  { unfold root_entries, entries. rewrite !fmap_cons. cbn [concat fst snd]. do 3 f_equal. by rewrite fmap_imap. }
  apply slice_concat; [apply Forall_fmap, Forall_forall; intros e _; apply length_mk_dirent|]. by rewrite list_lookup_fmap, Hj.
Qed.

(** What mkfs calls the file. *)
Definition fname (f : hostfile) : list Z := skip_underscore (h_name f).

(** The name of file [k] fits in an entry, no file before it has the same
    name, and names are C strings. *)
Record findable (files : list hostfile) (k : nat) (f : hostfile) : Prop := {
  fi_file : files !! k = Some f;
  fi_len : (length (fname f) < DIRSIZ)%nat;
  fi_dots : fname f <> [] /\ fname f <> [46] /\ fname f <> [46; 46];
  fi_nul : Forall (fun g => 0 ∉ fname g) files;
  fi_first : forall k' g, files !! k' = Some g -> (k' < k)%nat -> fname g <> fname f;
}.

Lemma findable_entry files k f : findable files k f -> entries files !! S (S k) = Some (Z.of_nat k + 2, fname f).
Proof.
  intros Hf. change (imap (fun i f => (Z.of_nat i + 2, skip_underscore (h_name f))) files !! k = Some (Z.of_nat k + 2, fname f)).
  by rewrite list_lookup_imap, (fi_file _ _ _ Hf).
Qed.

Lemma findable_names files k f : findable files k f ->
  forall j e, entries files !! j = Some e -> (0 ∉ e.2) /\ ((j < S (S k))%nat -> e.2 <> fname f).
Proof.
  intros Hf j e He. destruct (fi_dots _ _ _ Hf) as (_ & Hd1 & Hd2). unfold entries in He. destruct j as [|[|j]].
  - injection He as <-. cbn [snd]. split; [set_solver|done].
  - injection He as <-. cbn [snd]. split; [set_solver|done].
  - cbn [lookup list_lookup] in He. apply list_lookup_imap_Some in He as (g & Hg & ->). cbn [snd]. fold (fname g). split.
    + pose proof (fi_nul _ _ _ Hf) as Hn. rewrite Forall_lookup in Hn. by eapply Hn.
    + intros Hlt. eapply (fi_first _ _ _ Hf); [done|lia].
Qed.

Lemma fname_noslash files k f : fits_disk files -> files !! k = Some f -> SLASH ∉ fname f.
Proof.
  intros Hfit Hk Hin. pose proof (fd_names _ Hfit) as Hn. rewrite Forall_lookup in Hn. specialize (Hn _ _ Hk). cbv beta in Hn.
  assert (In SLASH (h_name f)).
  { apply list_elem_of_In. unfold fname, skip_underscore in Hin. destruct (h_name f) as [|c rest]; [done|]. destruct (c =? 95); [by right|done]. }
  assert (existsb (Z.eqb 47) (h_name f) = true) by (apply existsb_exists; by exists SLASH). congruence.
Qed.
