(* ===== verification/MkfsServer.v ===== *)
(** * MkfsServer: the file server on a fresh image

    Composes mkfs.c with fsserver.c: what a client of the server gets from an
    image that mkfs wrote. *)
From S2P Require Import Prelude CString Ring FsFormat Bio BlockDev DiskReq Ipc FssCache FssFile FssDir FssRefs FssServer FssInv.
From S2P Require Import Mkfs MkfsData MkfsProof MkfsTheorems.

(** ** Directory entries and names *)

(** Comparing a name that fits with the name of an entry. *)
Lemma unamecmp_field : forall (n : nat) nm nm', (length nm < n)%nat -> 0 ∉ nm -> 0 ∉ nm' ->
  exists c, unamecmp (take n (nm ++ replicate n 0)) (take n (nm' ++ replicate n 0)) = Some c /\ (c = 0 <-> nm = nm').
Proof.
  induction n as [|n IH]; intros nm nm' Hl H0 H0'; [lia|].
  assert (Hrep : forall l, take n (l ++ replicate (S n) 0) = take n (l ++ replicate n 0)).
  { intros l. change (replicate (S n) 0) with (replicate (1 + n) 0). rewrite Nat.add_comm, replicate_add, app_assoc.
    apply take_app_le. rewrite length_app, length_replicate. lia. }
  destruct nm as [|a nm], nm' as [|b nm']; cbn [app replicate take firstn].
  - cbn [unamecmp]. exists 0. done.
  - cbn [unamecmp]. rewrite Z.eqb_refl. cbn [negb andb]. eexists. split; [done|]. split; [|done]. intros E. exfalso. apply H0'. assert (b = 0) as -> by lia. by left.
  - cbn [unamecmp]. rewrite (Z.eqb_refl 0), andb_false_r. cbn [negb andb]. eexists. split; [done|]. split; [|done].
    intros E. exfalso. apply H0. assert (a = 0) as -> by lia. by left.
  - apply not_elem_of_cons in H0 as [Ha H0]. apply not_elem_of_cons in H0' as [Hb H0']. cbn [unamecmp].
    rewrite (proj2 (Z.eqb_neq a 0)), (proj2 (Z.eqb_neq b 0)) by done. cbn [negb andb].
    destruct (Z.eqb_spec a b) as [->|Hne]; [|eexists; split; [done|]; split; [intros E; lia|by intros [= ->]]].
    cbn [length] in Hl. rewrite !Hrep. destruct (IH nm nm') as (c & Hc & Hiff); [lia|done..|]. exists c. split; [done|].
    rewrite Hiff. split; [by intros ->|by intros [= ->]].
Qed.

(** A path of one element. *)
Lemma scan_elem_name nm rest : 0 ∉ nm -> SLASH ∉ nm -> scan_elem (nm ++ 0 :: rest) = Some (length nm, 0 :: rest).
Proof.
  induction nm as [|a nm IH]; intros H0 Hs; [done|]. apply not_elem_of_cons in H0 as [Ha H0]. apply not_elem_of_cons in Hs as [Hb Hs].
  cbn [app scan_elem length]. rewrite (proj2 (Z.eqb_neq a 0)), (proj2 (Z.eqb_neq a SLASH)) by done. cbn [negb andb]. by rewrite IH.
Qed.

Lemma copy_elem_name nm rest : (length nm < DIRSIZ)%nat -> copy_elem (nm ++ rest) (length nm) (replicate DIRSIZ 0) = name_field nm.
Proof.
  intros Hl. unfold copy_elem, name_field. rewrite (proj2 (Nat.leb_gt _ _)) by lia. rewrite take_app_length. unfold splice. rewrite take_0, app_nil_l.
  change (0 + length nm)%nat with (length nm). rewrite drop_replicate. rewrite take_app_ge by lia. rewrite take_replicate, Nat.min_l by lia.
  rewrite insert_app_r_alt by done. rewrite Nat.sub_diag. f_equal. apply insert_replicate.
Qed.

(** ** The server's view of the image *)
Section server.
Context {D : Type} `{BlockDevLaws D}.
Implicit Types s : fss D.

(** The device holds the image. *)
Definition on_image (img : list (list Z)) s : Prop :=
  nblk s = FSSIZE /\ forall b, 0 <= b < FSSIZE -> blocks s b = blk img b.

Lemma on_image_reads img p s s' : reads p s s' -> on_image img s -> on_image img s'.
Proof.
  intros [Hk Hb] [Hn Hi]. split; [by rewrite (kp_size _ _ _ Hk)|]. intros b Hb'. rewrite Hb by (by rewrite Hn). by apply Hi.
Qed.

Lemma div_512 x : 0 <= x -> x / 512 = Z.of_nat (Z.to_nat x / 512) /\ x mod 512 = Z.of_nat (Z.to_nat x mod 512).
Proof. intros Hx. rewrite Nat2Z.inj_div, Nat2Z.inj_mod, Z2Nat.id by lia. done. Qed.

Lemma fblock_image img s ip bn : on_image img s -> (bn < 140)%nat ->
  ((12 <= bn)%nat -> nmeta <= default 0 (di_addrs (ui_dinode ip) !! 12%nat) < FSSIZE) ->
  fblock s ip (Z.of_nat bn) = iblk img (ui_dinode ip) bn.
Proof.
  intros [Hn Hi] Hbn Hind. unfold fblock, iblk, addr_of. cbn [ui_dinode di_addrs] in *. change NDIRECT with 12.
  destruct (Nat.ltb_spec bn 12); [rewrite (proj2 (Z.ltb_lt _ _)) by lia; by rewrite Nat2Z.id|].
  rewrite (proj2 (Z.ltb_ge _ _)) by lia. change (Z.to_nat 12) with 12%nat. rewrite Hi by (change nmeta with 59 in Hind; lia).
  by replace (Z.to_nat (Z.of_nat bn - 12)) with (bn - 12)%nat by lia.
Qed.

(** A file that the image stores is mapped and has its bytes. *)
Lemma stored_mapped img s ip c x : on_image img s -> stores img (ui_dinode ip) c -> 0 <= x < Z.of_nat (length c) -> mapped s ip (x / BSIZE).
Proof.
  intros Hon Hst Hx. destruct (div_512 x) as [Hq _]; [lia|]. change BSIZE with 512. rewrite Hq. pose proof (nblk_spec (length c)).
  pose proof (Nat.div_mod_eq (Z.to_nat x) 512). destruct (st_map _ _ _ Hst (Z.to_nat x / 512)) as (H140 & Hr & Hind); [lia|].
  set (bn := (Z.to_nat x / 512)%nat) in *. assert (Hr' : forall a, nmeta <= a < FSSIZE -> on_disk s a).
  { intros a Ha. unfold on_disk. destruct Hon as [-> _]. change nmeta with 59 in Ha. change FSSIZE with 1000 in *. lia. }
  split; [change MAXFILE with 140; lia|]. split; [rewrite (fblock_image img) by (done || lia)|]; [by apply Hr'|].
  intros Hnd. apply Hr', Hind. change NDIRECT with 12 in Hnd. lia.
Qed.

Lemma stored_byte img s ip c x b : on_image img s -> stores img (ui_dinode ip) c -> 0 <= x -> c !! Z.to_nat x = Some b -> fbyte s ip x = b.
Proof.
  intros Hon Hst Hx0 Hx. destruct (div_512 x Hx0) as [Hq Hr]. unfold fbyte. change BSIZE with 512. rewrite Hq, Hr.
  pose proof (lookup_lt_Some _ _ _ Hx) as Hlt. pose proof (nblk_spec (length c)). pose proof (Nat.div_mod_eq (Z.to_nat x) 512).
  destruct (st_map _ _ _ Hst (Z.to_nat x / 512)) as (H140 & Hrg & Hind); [lia|]. rewrite (fblock_image img) by done.
  destruct Hon as [_ Hi]. rewrite Hi by (change nmeta with 59 in Hrg; lia). unfold byte_at. rewrite Nat2Z.id.
  by rewrite (st_bytes _ _ _ Hst _ _ Hx).
Qed.

Lemma stored_bytes img s ip c off n : on_image img s -> stores img (ui_dinode ip) c -> 0 <= off -> 0 <= n -> off + n <= Z.of_nat (length c) ->
  fbytes s ip off n = slice (Z.to_nat off) (Z.to_nat n) c.
Proof.
  intros Hon Hst Hoff Hn Hle. apply list_eq_same_length with (n := Z.to_nat n); [|by rewrite length_fbytes|].
  { unfold slice. rewrite length_take, length_drop. lia. }
  intros i x y Hi. unfold fbytes. rewrite list_lookup_fmap. unfold slice. rewrite lookup_take_lt, lookup_drop by done.
  rewrite lookup_seqZ_lt by lia. cbn [fmap option_fmap option_map]. intros [= <-] Hx.
  apply (stored_byte img _ _ c); [done|done|lia|]. by replace (Z.to_nat (off + Z.of_nat i)) with (Z.to_nat off + i)%nat by lia.
Qed.

(** ** Steps that only change the inode cache *)

(** From [s] to [s'] the inode cache became [l]; the device is only read. *)
Definition moved (l : list uinode) s s' : Prop := cinv [] s' /\ reads [] (set_inodes l s) s'.

Lemma reads_set_inodes l s s' : reads [] s s' -> reads [] (set_inodes l s) (set_inodes l s').
Proof. intros [[] ?]. split; [constructor; try done|done]. Qed.

Lemma moved_refl s : cinv [] s -> moved (fs_inodes s) s s.
Proof. intros Hc. split; [done|]. destruct s. apply reads_refl. Qed.

Lemma moved_set l s : cinv [] s -> moved l s (set_inodes l s).
Proof. intros Hc. split; [by destruct Hc|apply reads_refl]. Qed.

Lemma moved_trans l l' s s1 s2 : moved l s s1 -> moved l' s1 s2 -> moved l' s s2.
Proof.
  intros [_ Hr1] [Hc2 Hr2]. split; [done|]. eapply reads_trans; [|exact Hr2].
  exact (reads_set_inodes l' _ _ Hr1).
Qed.

Lemma moved_inodes l s s' : moved l s s' -> fs_inodes s' = l.
Proof. intros [_ [Hk _]]. apply Hk. Qed.

Lemma moved_reads s s1 s2 l : moved l s s1 -> cinv [] s2 -> reads [] s1 s2 -> moved l s s2.
Proof. intros [_ Hr1] Hc2 Hr2. split; [done|]. by eapply reads_trans. Qed.

Lemma moved_image img l s s' : moved l s s' -> on_image img s -> on_image img s'.
Proof. intros [_ Hr] Hon. by apply (on_image_reads img [] (set_inodes l s)). Qed.

Lemma moved_rest l s s' : moved l s s' -> fs_sb s' = fs_sb s /\ fs_fdt s' = fs_fdt s /\ fs_fdi s' = fs_fdi s /\ fs_sent s' = fs_sent s.
Proof. intros [_ [Hk _]]. by destruct Hk. Qed.

Lemma upd_inode_at i f ip s : fs_inodes s !! i = Some ip -> upd_inode i f s = set_inodes (<[i := f ip]> (fs_inodes s)) s.
Proof. intros Hi. unfold upd_inode. f_equal. by apply alter_as_insert. Qed.

(** [uilock] loads the inode from its slot on the disk. *)
Lemma uilock_loads img s i ip : cinv [] s -> on_image img s -> fs_sb s = mkfs_sb -> fs_inodes s !! i = Some ip ->
  ui_valid ip = 0 -> ui_dev ip = ROOTDEV -> 0 <= ui_inum ip < 208 ->
  wp (uilock i) (fun _ s' => moved (<[i := ui_set_valid 1 (ui_set_dinode (img_inode img (ui_inum ip)) ip)]> (fs_inodes s)) s s') no_halt s.
Proof.
  intros Hc Hon Hsb Hi Hv Hdev Hnum. unfold uilock. wp_step. eapply wp_the_inode; [done|]. rewrite Hv. cbn [Z.eqb negb].
  wp_step. apply wp_gets. rewrite Hsb, Hdev. destruct (IBLOCK_mkfs _ Hnum) as [-> Hr]. wp_step.
  wp_call (ubread_spec [] s (ui_inum ip / 8 + 32)); [done|cbn; unfold UNBUF; lia|destruct Hon as [-> _]; change FSSIZE with 1000; lia|].
  intros ? s1 (bp & -> & Hc1 & Hp1 & Hr1). cbv beta iota. destruct (pinned_data _ _ _ _ Hc1 Hp1) as (b & Hb & Hd & _).
  wp_step. eapply wp_the_ubuf; [done|]. pose proof (kp_inodes _ _ _ (proj1 Hr1)) as Hin. wp_step. wp_step.
  rewrite (upd_inode_at _ _ ip) by (by rewrite Hin). rewrite Hd, Hin.
  assert (blocks s1 (ui_inum ip / 8 + 32) = blk img (ui_inum ip / 8 + 32)) as ->.
  { destruct (on_image_reads img _ _ _ Hr1 Hon) as [_ Hi1]. apply Hi1. change FSSIZE with 1000. lia. }
  fold (img_inode img (ui_inum ip)). set (l1 := <[i := ui_set_dinode (img_inode img (ui_inum ip)) ip]> (fs_inodes s)).
  wp_step. wp_call (ubrelse_spec bp (ui_inum ip / 8 + 32) [] [] (set_inodes l1 s1)); [by destruct Hc1|cbn; unfold UNBUF; lia|done|].
  intros ? s2 [Hc2 Hr2]. apply wp_modify. pose proof (kp_inodes _ _ _ (proj1 Hr2)) as Hin2. cbn [set_inodes fs_inodes] in Hin2.
  rewrite (upd_inode_at i _ (ui_set_dinode (img_inode img (ui_inum ip)) ip))
    by (rewrite Hin2; apply list_lookup_insert_eq; by eapply lookup_lt_Some).
  rewrite Hin2. unfold l1. rewrite list_insert_insert_eq. eapply (moved_trans l1); [|by apply moved_set].
  split; [done|]. eapply reads_trans; [by apply reads_set_inodes|done].
Qed.

(** Looking up an entry of the root directory leads to [uiget] of its inode. *)
Lemma dirlookup_entry img files s dp d j i nm (Q : option nat * option Z -> fss D -> Prop) :
  cinv [] s -> on_image img s -> fs_inodes s !! dp = Some d -> ui_type d = T_DIR ->
  stores img (ui_dinode d) (root_entries files) -> Z.of_nat (length (root_entries files)) <= ui_size d < 2 ^ 31 ->
  entries files !! j = Some (i, nm) -> (length files <= 206)%nat -> (length nm < DIRSIZ)%nat ->
  (forall j' e, entries files !! j' = Some e -> (0 ∉ e.2) /\ ((j' < j)%nat -> e.2 <> nm)) ->
  (forall s1, cinv [] s1 -> reads [] s s1 -> wp (uiget (ui_dev d) i) (fun ip s' => Q (ip, Some (16 * Z.of_nat j)) s') no_halt s1) ->
  wp (dirlookup dp (name_field nm)) Q no_halt s.
Proof.
  intros Hc Hon Hd Ht Hst Hsz Hj Hcount Hnm Hnames HQ. unfold dirlookup. wp_step. eapply wp_the_inode; [done|]. rewrite Ht. cbn [Z.eqb Pos.eqb T_DIR negb].
  pose proof (length_root_entries files) as Hrl. assert (Hjl : (j < length files + 2)%nat).
  { apply lookup_lt_Some in Hj. unfold entries in Hj. cbn [length] in Hj. rewrite length_imap in Hj. lia. }
  wp_step. apply (wp_for_range (fun k s' => cinv [] s' /\ reads [] s s' /\ k <= Z.of_nat j)); [done|lia|split_and!; [done|apply reads_refl|lia]| |].
  2: { intros k s' Hk Hend (_ & _ & Hkj). exfalso. lia. }
  intros k s' Hk Hlt (Hc' & Hr' & Hkj). cbv beta. pose proof (on_image_reads img _ _ _ Hr' Hon) as Hon'.
  destruct (lookup_lt_is_Some_2 (entries files) (Z.to_nat k)) as [[i' nm'] He]; [unfold entries; cbn [length]; rewrite length_imap; lia|].
  wp_step. wp_call (ureadi_spec [] s' dp d (k * 16) 16); try done; [cbn; unfold UNBUF; lia|by rewrite (kp_inodes _ _ _ (proj1 Hr'))|unfold is_u32; lia|lia|lia| |].
  { intros x Hx. apply (stored_mapped img _ _ (root_entries files)); [done|done|lia]. }
  intros ? s1 (-> & Hc1 & Hr1). rewrite Z.min_l, Z.max_r by lia. cbn [fst snd]. change (negb (16 =? 16)) with false. cbv iota zeta.
  rewrite (stored_bytes img s' d (root_entries files)) by (done || lia). change (Z.to_nat 16) with 16%nat.
  replace (Z.to_nat (k * 16)) with (16 * Z.to_nat k)%nat by lia. rewrite (entry_slice _ _ _ _ He).
  assert (Hi' : 0 < i' < 65536).
  { unfold entries in He. destruct (Z.to_nat k) as [|[|m]]; [by injection He as <- <-..|]. cbn [lookup list_lookup] in He.
    apply list_lookup_imap_Some in He as (f & Hf & [= -> ->]). apply lookup_lt_Some in Hf. lia. }
  rewrite decode_mk_dirent by lia. cbn [de_inum de_name]. rewrite (proj2 (Z.eqb_neq i' 0)) by lia.
  destruct (Hnames _ _ He) as [Hz Hne]. destruct (Hnames _ _ Hj) as [Hz0 _]. cbn [snd] in *.
  destruct (unamecmp_field DIRSIZ nm nm' Hnm Hz0 Hz) as (c & Hcmp & Hiff). fold (name_field nm) (name_field nm') in Hcmp. rewrite Hcmp.
  wp_step. cbn [of_option]. wp_step. pose proof (reads_trans _ _ _ _ Hr' Hr1) as Hr01.
  destruct (Z.eqb_spec c 0) as [->|Hc0].
  - destruct (Nat.lt_trichotomy (Z.to_nat k) j) as [Hkj'|[Hkj'|Hkj']]; [by destruct (Hne Hkj' (eq_sym (proj1 Hiff eq_refl)))| |lia].
    subst j. rewrite Hj in He. injection He as <- <-. wp_step. eapply wp_conseq; [by apply HQ|]. cbv beta. intros r s2 HQ2.
    wp_step. wp_step. cbn [from_option id default]. by replace (k * 16) with (16 * Z.of_nat (Z.to_nat k)) by lia.
  - wp_step. split_and!; [done|done|]. destruct (decide (Z.to_nat k = j)) as [E|E]; [|lia]. subst j. rewrite Hj in He. injection He as <- <-.
    by destruct Hc0; apply Hiff.
Qed.

(** *** The inode cache while a path is looked up *)

(** The root directory's slot after [uiget] and after [uilock]. *)
Definition root_got : uinode := mkUinode ROOTDEV ROOTINO 1 0 0 0 0 0 (replicate 13 0) 0.
Definition root_locked (img : list (list Z)) : uinode := ui_set_valid 1 (ui_set_dinode (img_inode img ROOTINO) root_got).
Definition file_got (i : Z) : uinode := mkUinode ROOTDEV i 1 0 0 0 0 0 (replicate 13 0) 0.

Lemma uiget_loop_zero dev inum n : forall i e, uiget_loop dev inum (replicate n zero_uinode) i (Some e) = inr (Some e).
Proof. induction n as [|n IH]; intros i e; [done|]. apply IH. Qed.

Lemma uiget_root s : fs_inodes s = replicate UNINODE zero_uinode -> cinv [] s ->
  wp (uiget ROOTDEV ROOTINO) (fun r s' => r = Some 0%nat /\ moved (root_got :: replicate 31 zero_uinode) s s') no_halt s.
Proof.
  intros Hi Hc. unfold uiget. wp_step. wp_step. rewrite Hi. change (replicate UNINODE zero_uinode) with (zero_uinode :: replicate 31 zero_uinode).
  assert (uiget_loop ROOTDEV ROOTINO (zero_uinode :: replicate 31 zero_uinode) 0 None = inr (Some 0%nat)) as ->.
  { change (uiget_loop ROOTDEV ROOTINO (replicate 31 zero_uinode) 1 (Some 0%nat) = inr (Some 0%nat)). apply uiget_loop_zero. }
  wp_step. wp_step. wp_step. split; [done|]. rewrite (upd_inode_at 0 _ zero_uinode) by (by rewrite Hi). rewrite Hi.
  by apply (moved_set (root_got :: replicate 31 zero_uinode)).
Qed.

Lemma uiget_loop_file r i n : ui_ref r = 1 -> ui_inum r = ROOTINO -> i <> ROOTINO ->
  uiget_loop ROOTDEV i (r :: replicate (S n) zero_uinode) 0 None = inr (Some 1%nat).
Proof.
  intros Hr Hn Hne. cbn [uiget_loop replicate]. rewrite Hr, Hn, (proj2 (Z.eqb_neq ROOTINO i)), andb_false_r by done.
  cbn [Z.eqb ui_ref zero_uinode Z.ltb Z.compare andb]. apply uiget_loop_zero.
Qed.

Lemma uiget_file s r i : fs_inodes s = r :: replicate 31 zero_uinode -> ui_ref r = 1 -> ui_inum r = ROOTINO -> i <> ROOTINO -> cinv [] s ->
  wp (uiget ROOTDEV i) (fun o s' => o = Some 1%nat /\ moved (r :: file_got i :: replicate 30 zero_uinode) s s') no_halt s.
Proof.
  intros Hi Hr Hn Hne Hc. unfold uiget. wp_step. wp_step. rewrite Hi, uiget_loop_file by done.
  wp_step. wp_step. wp_step. split; [done|]. rewrite (upd_inode_at 1 _ zero_uinode) by (by rewrite Hi). rewrite Hi.
  by apply moved_set.
Qed.

(** Dropping the only reference. *)
Lemma uiput_last s i ip : cinv [] s -> fs_inodes s !! i = Some ip -> ui_ref ip = 1 ->
  wp (uiput i) (fun _ s' => moved (<[i := ui_set_valid 0 (ui_set_ref 0 ip)]> (fs_inodes s)) s s') no_halt s.
Proof.
  intros Hc Hi Hr. unfold uiput. wp_step. wp_step. rewrite (upd_inode_at i _ ip), Hr by done. change (s32 (1 - 1)) with 0.
  set (l := <[i := ui_set_ref 0 ip]> (fs_inodes s)). assert (Hl : l !! i = Some (ui_set_ref 0 ip)) by (apply list_lookup_insert_eq; by eapply lookup_lt_Some).
  wp_step. eapply wp_the_inode; [done|]. cbn [ui_ref ui_set_ref Z.eqb when]. apply wp_modify.
  rewrite (upd_inode_at i _ (ui_set_ref 0 ip)) by done. cbn [fs_inodes set_inodes]. unfold l. rewrite list_insert_insert_eq.
  eapply (moved_trans l); by apply moved_set; destruct Hc.
Qed.

(** ** The server starts *)

(** The server before its first request. *)
Record fresh (img : list (list Z)) s : Prop := mkFresh {
  fr_cinv : cinv [] s;
  fr_image : on_image img s;
  fr_sb : fs_sb s = mkfs_sb;
  fr_inodes : fs_inodes s = replicate UNINODE zero_uinode;
  fr_fdt : fs_fdt s = replicate MAX_REMOTE_FDS zero_fd;
  fr_fdi : fs_fdi s = replicate MAX_REMOTE_FDS None;
  fr_sent : fs_sent s = [];
}.

(** The device holds the image. *)
Definition holds (d : D) (img : list (list Z)) : Prop :=
  dev_ok d /\ dev_size d = FSSIZE /\ forall b, 0 <= b < FSSIZE -> dev_block d b = blk img b.

Lemma static_cinv d : dev_ok d -> cinv [] (set_ulinks (links_init UNBUF) (fss_static d)).
Proof.
  intros Hd. constructor; cbn -[replicate UNBUF UNINODE MAX_REMOTE_FDS links_init].
  - done.
  - by rewrite length_replicate.
  - done.
  - intros i b [-> _]%lookup_replicate. split; [|done]. split; [done|by left].
  - intros i j bi bj [-> _]%lookup_replicate _ Hdev. done.
Qed.

Lemma startup_fresh d img files : holds d img -> image_of img files -> wp startup (fun _ s' => fresh img s') no_halt (fss_static d).
Proof.
  intros (Hok & Hsz & Hbl) Himg. unfold startup, ubuf_init, uinode_init. wp_step. wp_step. wp_step. wp_step.
  rewrite (fmap_replicate (ui_set_ref 0) UNINODE zero_uinode : ui_set_ref 0 <$> fs_inodes (set_ulinks (links_init UNBUF) (fss_static d)) = _).
  change (ui_set_ref 0 zero_uinode) with zero_uinode. destruct (moved_set (replicate UNINODE zero_uinode) _ (static_cinv d Hok)) as [Hc0 _].
  set (s0 := set_inodes _ _) in *.
  assert (Hs0 : fs_inodes s0 = replicate UNINODE zero_uinode /\ fs_fdt s0 = replicate MAX_REMOTE_FDS zero_fd /\
    fs_fdi s0 = replicate MAX_REMOTE_FDS None /\ fs_sent s0 = []) by (split_and!; reflexivity). destruct Hs0 as (? & ? & ? & ?).
  assert (Hon : on_image img s0) by done. unfold readsb. wp_step.
  wp_call (ubread_spec [] s0 1); [done|cbn; unfold UNBUF; lia|destruct Hon as [-> _]; done|].
  intros ? s1 (bp & -> & Hc1 & Hp1 & Hr1). cbv beta iota. destruct (pinned_data _ _ _ _ Hc1 Hp1) as (b & Hb & Hd & _).
  wp_step. eapply wp_the_ubuf; [done|]. wp_step. wp_step. rewrite Hd.
  pose proof (on_image_reads img _ _ _ Hr1 Hon) as Hon1. rewrite (proj2 Hon1), (io_sb _ _ Himg) by done.
  wp_call (ubrelse_spec bp 1 [] [] (set_sb mkfs_sb s1)); [by destruct Hc1|cbn; unfold UNBUF; lia|done|].
  intros ? s2 [Hc2 Hr2]. pose proof Hr1 as [[] _]. pose proof Hr2 as [[] _].
  constructor; [done|by apply (on_image_reads img [] (set_sb mkfs_sb s1))|..]; cbn [set_sb fs_sb fs_inodes fs_fdt fs_fdi fs_sent] in *; congruence.
Qed.

(** ** Opening a file by its name *)

Lemma namei_finds img files k f s path rest : fresh img s -> fits_disk files -> image_of img files -> findable files k f ->
  skip_slashes path = Some (fname f ++ 0 :: rest) ->
  wp (namei path) (fun r s' => r = Some 1%nat /\ exists r0, moved (r0 :: file_got (Z.of_nat k + 2) :: replicate 30 zero_uinode) s s') no_halt s.
Proof.
  intros Hf Hfit Himg Hfind Hpath. pose proof (fr_cinv _ _ Hf) as Hc. pose proof (fr_image _ _ Hf) as Hon.
  destruct (io_root _ _ Himg) as (Hrt & Hrst & Hrsz & _). pose proof (length_root_entries files) as Hrl. pose proof (fd_count _ Hfit) as Hcount.
  assert (Hk : (k < length files)%nat) by (by eapply lookup_lt_Some, fi_file).
  pose proof (fname_noslash _ _ _ Hfit (fi_file _ _ _ Hfind)) as Hsl. destruct (findable_names _ _ _ Hfind _ _ (findable_entry _ _ _ Hfind)) as [Hnul _]. cbn [snd] in Hnul.
  unfold namei. wp_step. eapply wp_conseq; [by apply uiget_root; [apply Hf|]|]. intros ? s1 [-> M1]. rewrite Hpath. wp_step. cbn [of_option]. wp_step.
  destruct path as [|c0 path]; [done|]. cbn [length namei_loop].
  destruct (fname f) as [|c nm] eqn:Enm; [by destruct (fi_dots _ _ _ Hfind)|]. cbn [app head of_option]. wp_step. wp_step.
  apply not_elem_of_cons in Hnul as Hnul'. rewrite (proj2 (Z.eqb_neq c 0)) by (intros ->; by destruct Hnul').
  change (c :: nm ++ 0 :: rest) with ((c :: nm) ++ 0 :: rest). rewrite scan_elem_name by done. wp_step. cbn [of_option]. wp_step. cbn [fst snd].
  rewrite copy_elem_name by (rewrite <- Enm; apply Hfind). change (skip_slashes (0 :: rest)) with (Some (0 :: rest)). wp_step. cbn [of_option]. wp_step.
  unfold nonnull. wp_step. cbn [of_option]. wp_step. pose proof (moved_inodes _ _ _ M1) as I1. destruct (moved_rest _ _ _ M1) as (Sb1 & _).
  wp_step. wp_call (uilock_loads img s1 0 root_got); [apply M1|by eapply moved_image|by rewrite Sb1; apply Hf|by rewrite I1|done..|].
  intros ? s2 M2. rewrite I1 in M2. change (<[0%nat := _]> (root_got :: _)) with (root_locked img :: replicate 31 zero_uinode) in M2.
  pose proof (moved_trans _ _ _ _ _ M1 M2) as M02. pose proof (moved_inodes _ _ _ M2) as I2.
  wp_step. apply (wp_the_inode 0 (root_locked img)); [by rewrite I2|]. cbn [root_locked ui_set_valid ui_set_dinode ui_type]. rewrite Hrt. cbn [Z.eqb Pos.eqb T_DIR negb].
  wp_step. rewrite <- Enm.
  apply (dirlookup_entry img files s2 0 (root_locked img) (S (S k)) (Z.of_nat k + 2) (fname f)); [apply M2|by eapply moved_image|by rewrite I2|done|done| | | | | |].
  - cbn [root_locked ui_set_valid ui_set_dinode ui_size]. rewrite Hrsz. change BSIZE with 512. pose proof (Z.div_mod (Z.of_nat (length (root_entries files))) 512 ltac:(lia)).
    pose proof (Z.mod_pos_bound (Z.of_nat (length (root_entries files))) 512 ltac:(lia)). lia.
  - by apply findable_entry.
  - done.
  - apply Hfind.
  - by apply findable_names.
  - intros s3 Hc3 Hr3. pose proof (moved_reads _ _ _ _ M02 Hc3 Hr3) as M03. pose proof (moved_inodes _ _ _ M03) as I3.
    eapply wp_conseq; [apply (uiget_file s3 (root_locked img)); [done|done|done|change ROOTINO with 1; lia|done]|].
    cbv beta. intros ? s4 [-> M4]. pose proof (moved_trans _ _ _ _ _ M03 M4) as M04. pose proof (moved_inodes _ _ _ M4) as I4.
    wp_step. cbn [head of_option]. wp_step. cbn [fst]. cbv iota. wp_step.
    wp_call (uiput_last s4 0 (root_locked img)); [apply M4|by rewrite I4|done|]. intros ? s5 M5. rewrite I4 in M5.
    cbn [head of_option]. wp_step. wp_step. rewrite Z.eqb_refl. wp_step. split; [done|]. eexists. eapply moved_trans; [exact M04|]. exact M5.
Qed.

(** The requests of a client that opens the file and reads it. *)
Record opens (req : ipc_msg) (f : hostfile) : Prop := {
  on_type : m_type req = IPC_TYPE_FS_OPEN;
  on_flags : m_flags req = O_RDONLY;
  on_path : exists rest, skip_slashes (m_path req ++ m_data req) = Some (fname f ++ 0 :: rest);
}.

(** The first descriptor is open for process [pid] on the file with inode
    [nd] of the image, at offset [off]. *)
Record reading (img : list (list Z)) (pid off : Z) (c : list Z) s : Prop := {
  re_sinv : sinv s;
  re_cinv : cinv [] s;
  re_image : on_image img s;
  re_fd : fs_fdt s !! 0%nat = Some (mkFd 1 pid 0 off 1 0);
  re_fdi : fs_fdi s !! 0%nat = Some (Some 1%nat);
  re_inode : exists nd, fs_inodes s !! 1%nat = Some nd /\ ui_size nd = Z.of_nat (length c) /\ stores img (ui_dinode nd) c;
}.

Lemma open_fresh img files k f s req : fresh img s -> sinv s -> fits_disk files -> image_of img files -> findable files k f -> opens req f ->
  wp (handle req) (fun go s' => go = true /\ reading img (m_sender_pid req) 0 (content f) s' /\
    fs_sent s' = [(m_sender_pid req, mkMsg 0 (m_request_id req) IPC_TYPE_FS_REPLY 0 0 0 0 0 (replicate 64 0) (replicate 128 0))]) no_halt s.
Proof.
  intros Hf Hs Hfit Himg Hfind [Ht Hfl [rest Hp]]. 
  eapply wp_total; [eapply wp_and; [|apply (handle_spec req s Hs)]|cbv beta; intros go s' [HP [[Hsi _ _] _]]; exact (HP Hsi)].
  unfold handle. rewrite Ht. cbn [IPC_TYPE_FS_OPEN IPC_TYPE_FS_SHUTDOWN IPC_TYPE_FS_CLIENT_EXIT Z.eqb Pos.eqb]. wp_step. unfold serve_open. wp_step.
  wp_call (namei_finds img files k f s _ rest); [done..|]. intros ? s1 [-> [r0 M1]]. cbv iota. unfold open_found.
  pose proof (moved_inodes _ _ _ M1) as I1. destruct (moved_rest _ _ _ M1) as (Sb1 & _).
  pose proof (fd_count _ Hfit) as Hcount. pose proof (lookup_lt_Some _ _ _ (fi_file _ _ _ Hfind)) as Hk.
  wp_step. wp_call (uilock_loads img s1 1 (file_got (Z.of_nat k + 2))); [apply M1|eapply moved_image; [done|apply Hf]|by rewrite Sb1; apply Hf|by rewrite I1|done|done|cbn [file_got ui_inum]; lia|].
  intros ? s2 M2. rewrite I1 in M2. pose proof (moved_trans _ _ _ _ _ M1 M2) as M02. pose proof (moved_inodes _ _ _ M2) as I2.
  destruct (moved_rest _ _ _ M02) as (_ & Ft2 & Fi2 & Se2). rewrite (fr_fdt _ _ Hf) in Ft2. rewrite (fr_fdi _ _ Hf) in Fi2. rewrite (fr_sent _ _ Hf) in Se2.
  unfold alloc_remote_fd. wp_step. wp_step. wp_step. rewrite Ft2. change (free_slot (replicate MAX_REMOTE_FDS zero_fd) 0) with (Some 0%nat). cbv iota.
  wp_step. wp_step. wp_step. change (Z.of_nat 0 <? 0) with false. cbv iota. unfold set_fd_inode. wp_step. wp_step. unfold reply_to, send_reply. apply wp_modify.
  wp_step. intros Hsi. split; [done|]. destruct (io_files _ _ Himg k f (fi_file _ _ _ Hfind)) as (_ & _ & Hsz & Hst).
  split; [|cbn [set_sent fs_sent upd_fd set_fdt set_fdi]; by rewrite Se2].
  constructor.
  - done.
  - apply proj1 in M02. by destruct M02.
  - exact (moved_image img _ _ _ M02 (fr_image _ _ Hf)).
  - cbn [set_sent fs_fdt upd_fd set_fdt set_fdi]. rewrite Ft2, Hfl. done.
  - cbn [set_sent fs_fdi upd_fd set_fdt set_fdi]. rewrite Fi2. done.
  - eexists. cbn [set_sent fs_inodes upd_fd set_fdt set_fdi]. rewrite I2. split; [reflexivity|]. done.
Qed.

(** ** Reading it *)

(** A request to read from the first descriptor. *)
Record reads_first (pid : Z) (req : ipc_msg) : Prop := {
  rf_type : m_type req = IPC_TYPE_FS_READ;
  rf_fd : m_fd req = 0;
  rf_pid : m_sender_pid req = pid;
  rf_n : 0 <= m_nbytes req <= IPC_DATA_SIZE;
}.

(** The bytes that a reply carries. *)
Definition received (x : Z * ipc_msg) : list Z := take (Z.to_nat (m_result x.2)) (m_data x.2).

Lemma received_data_reply pid req n c : 0 <= n -> Z.to_nat n = length c -> received (pid, data_reply req n c) = c.
Proof. intros Hn Hl. unfold received, data_reply. cbn [snd m_result m_data]. rewrite Hl. apply take_splice_0. Qed.

Lemma read_more img pid off c s req : reading img pid off c s -> 0 <= off <= Z.of_nat (length c) -> (length c <= 140 * 512)%nat -> reads_first pid req ->
  let n := Z.min (m_nbytes req) (Z.of_nat (length c) - off) in
  wp (handle req) (fun go s' => go = true /\ reading img pid (off + n) c s' /\
    exists x, fs_sent s' = fs_sent s ++ [x] /\ is_reply req x /\ received x = slice (Z.to_nat off) (Z.to_nat n) c) no_halt s.
Proof.
  intros [Hs Hc Hon Hfd Hfi (nd & Hnd & Hsz & Hst)] Hoff Hlen [Ht Hf Hp Hn] n. change IPC_DATA_SIZE with 128 in Hn.
  assert (Ho : opened s req (mkFd 1 pid 0 off 1 0) 1 nd).
  { split; rewrite ?Hf; change (Z.to_nat 0) with 0%nat; [done|by split; [|split; [|by rewrite Hp]]|done|done|rewrite Hsz; lia|cbn [fe_off]; lia|done]. }
  eapply wp_total; [eapply wp_and; [|apply (handle_spec req s Hs)]|cbv beta; intros go s' [HP [[Hsi _ _] _]]; exact (HP Hsi)].
  unfold handle. rewrite Ht. cbn [IPC_TYPE_FS_READ IPC_TYPE_FS_OPEN IPC_TYPE_FS_SHUTDOWN IPC_TYPE_FS_CLIENT_EXIT Z.eqb Pos.eqb]. wp_step.
  eapply wp_conseq; [eapply (serve_read_spec s req _ 1 nd); [done|done|exact Ho|done|]|].
  { cbn [fe_off]. intros x Hx. apply (stored_mapped img _ _ c); [done|done|lia]. }
  cbn [fe_off]. rewrite Hsz, Z.max_r by lia. fold n. intros _ s1 (Hc1 & Hb1 & Ht1 & Hse1 & Hi1 & Hfi1 & Hnb1). wp_step. intros Hsi. split; [done|]. split.
  - constructor; [done|done| | |by rewrite Hfi1|exists nd; by rewrite Hi1].
    + destruct Hon as [E1 E2]. split; [by rewrite Hnb1|]. intros b Hb. rewrite Hb1 by (by rewrite E1). by apply E2.
    + rewrite Ht1, Hf. change (Z.to_nat 0) with 0%nat. apply list_lookup_insert_eq. by eapply lookup_lt_Some.
  - eexists. split; [exact Hse1|]. split; [done|]. rewrite <- (stored_bytes img s nd c) by (done || lia).
    apply received_data_reply; [lia|]. by rewrite length_fbytes.
Qed.

(** What is requested in total. *)
Definition wanted (reqs : list ipc_msg) : Z := foldr (fun r n => m_nbytes r + n) 0 reqs.

Lemma serve_reads img pid c reqs : forall s off, Forall (reads_first pid) reqs -> reading img pid off c s -> 0 <= off <= Z.of_nat (length c) -> (length c <= 140 * 512)%nat ->
  wp (serve (map Some reqs)) (fun _ s' => exists rs, fs_sent s' = fs_sent s ++ rs /\ Forall2 is_reply reqs rs /\
    concat (map received rs) = take (Z.to_nat (wanted reqs)) (drop (Z.to_nat off) c)) no_halt s.
Proof.
  induction reqs as [|req reqs IH]; intros s off Hr Hre Hoff Hlen; cbn [map serve].
  { wp_step. exists []. rewrite app_nil_r. done. }
  apply Forall_cons in Hr as [Hq Hr]. wp_step. eapply wp_conseq; [by eapply read_more|]. cbv beta.
  intros go s1 (-> & Hre1 & x & Hse & Hrep & Hx). destruct Hq as [_ _ _ Hn]. assert (Hw : 0 <= wanted reqs).
  { clear -Hr. induction Hr as [|r l [_ _ _ Hr] _ IHl]; [done|]. cbn [wanted foldr]. fold (wanted l). lia. }
  eapply wp_conseq; [apply (IH _ _ Hr Hre1); [lia|done]|]. cbv beta. intros _ s2 (rs & Hse2 & Hrs & Hcat). exists (x :: rs).
  split; [by rewrite Hse2, Hse, <- app_assoc|]. split; [by constructor|]. cbn [map concat]. rewrite Hx, Hcat. unfold slice.
  cbn [wanted foldr]. fold (wanted reqs). set (off' := Z.to_nat off). set (l := length c) in *.
  destruct (Z.min_spec (m_nbytes req) (Z.of_nat l - off)) as [[Hlt ->]|[Hge ->]].
  - rewrite Z2Nat.inj_add by lia. rewrite Z2Nat.inj_add by lia. fold off'. rewrite <- drop_drop. by rewrite take_take_drop.
  - rewrite (drop_ge c (Z.to_nat (off + _))) by lia. rewrite take_nil, app_nil_r. rewrite !take_ge; [done|rewrite length_drop; lia..].
Qed.

(** C1: an image that mkfs wrote serves its files.  For any files that fit on
    the disk, and any device that holds the image mkfs made of them, the
    server started on the device answers a client that opens one of the files
    by its name and then reads ([findable]: a name of fewer than [DIRSIZ]
    characters, not the name of an earlier file, nor empty or dots): the open request succeeds with descriptor 0,
    every read request gets one reply, and the bytes in the replies put
    together are the first bytes of the file, as many as were requested or
    all of it.  Neither program panics, faults or loops. *)
Theorem mkfs_files_are_served files k f open reqs :
  fits_disk files -> findable files k f -> opens open f -> Forall (reads_first (m_sender_pid open)) reqs ->
  wp (mkfs_main files) (fun _ m => forall d, holds d (mk_img m) ->
    wp (main (Some open :: map Some reqs)) (fun _ s' => exists x rs, fs_sent s' = x :: rs /\
      is_reply open x /\ m_result x.2 = 0 /\ m_fd x.2 = 0 /\ Forall2 is_reply reqs rs /\
      concat (map received rs) = take (Z.to_nat (wanted reqs)) (content f)) no_halt (fss_static d)) no_halt mkfs_start.
Proof.
  intros Hfit Hfind Hopen Hreqs. eapply wp_conseq; [by apply mkfs_image|]. cbv beta. intros _ m Himg d Hd.
  unfold main. wp_step. eapply wp_total; [eapply wp_and; [by eapply startup_fresh|apply startup_spec]|]. cbv beta. intros _ s1 [Hf [Hs _]].
  cbn [serve]. wp_step. eapply wp_conseq; [by eapply open_fresh|]. cbv beta. intros go s2 (-> & Hre & Hse).
  assert (Hl : (length (content f) <= 140 * 512)%nat).
  { pose proof (fd_size _ Hfit) as Hz. rewrite Forall_lookup in Hz. by eapply Hz, fi_file. }
  eapply wp_conseq; [apply (serve_reads _ _ _ _ _ 0 Hreqs Hre); [lia|done]|]. cbv beta. intros _ s3 (rs & Hse3 & Hrs & Hcat).
  rewrite Hse in Hse3. eexists _, rs. split; [exact Hse3|]. done.
Qed.
End server.

(** ** Two files on the kernel's disk *)
Module MkfsInstances.

(** The kernel after boot on the image, with process 3 as the server. *)
Definition kernel (img : list (list Z)) : kdisk := mkKdisk (binit img) 3 3 0.

Lemma kernel_holds img files : image_of img files -> holds (kernel img) img.
Proof.
  intros Himg. destruct (io_size _ _ Himg) as [Hl Hb]. destruct (binit_quiescent img Hb) as [Hq Hv]. split; [|split].
  - split; [exact Hq|]. split; [reflexivity|]. split; [reflexivity|].
    change (disksize (kd_cache (kernel img))) with (Z.of_nat (length img)). rewrite Hl. change FSSIZE with 1000. lia.
  - exact Hl.
  - intros b Hb'. exact (Hv b).
Qed.

(** A program [_cat] of 700 bytes, read in two pieces, and a text file. *)
Definition files : list hostfile :=
  [mkHost [95; 99; 97; 116] [replicate 512 1; replicate 188 2]; mkHost [82; 69; 65; 68; 77; 69] [[104; 105; 10]]].
Definition open_cat : ipc_msg := mkMsg 7 1 IPC_TYPE_FS_OPEN 0 O_RDONLY 0 0 0 (47 :: 99 :: 97 :: 116 :: replicate 60 0) (replicate 128 0).
Definition read_cat : ipc_msg := mkMsg 7 2 IPC_TYPE_FS_READ 0 0 128 0 0 (replicate 64 0) (replicate 128 0).

Lemma files_fit : fits_disk files.
Proof.
  split; [by vm_compute|cbn [files length]; lia| |by repeat constructor].
  unfold files. repeat (apply Forall_cons; split; [apply Nat.leb_le; by vm_compute|]). by apply Forall_nil.
Qed.

Lemma cat_findable : findable files 0 (mkHost [95; 99; 97; 116] [replicate 512 1; replicate 188 2]).
Proof.
  split; [done|cbn; unfold DIRSIZ; lia|done| |intros k' g _ Hk; lia].
  unfold files. repeat (apply Forall_cons; split; [unfold fname; cbn; set_solver|]). by apply Forall_nil.
Qed.

Lemma mkfs_files_are_served_witness :
  wp (mkfs_main files) (fun _ m => wp (main [Some open_cat; Some read_cat; Some read_cat]) (fun _ s' => exists x rs, fs_sent s' = x :: rs /\
    is_reply open_cat x /\ m_result x.2 = 0 /\ m_fd x.2 = 0 /\ Forall2 is_reply [read_cat; read_cat] rs /\
    concat (map received rs) = take 256 (replicate 512 1 ++ replicate 188 2)) no_halt (fss_static (kernel (mk_img m)))) no_halt mkfs_start.
Proof.
  eapply wp_total; [eapply wp_and; [apply (mkfs_files_are_served (D := kdisk) files 0 _ open_cat [read_cat; read_cat] files_fit cat_findable)|apply (mkfs_image files files_fit)]|].
  - split; [done|done|]. by exists (replicate 187 0).
  - by repeat constructor.
  - cbv beta. intros _ m [Hserve Himg]. exact (Hserve (kernel (mk_img m)) (kernel_holds _ _ Himg)).
Defined.

Lemma mkfs_builds_image_witness : wp (mkfs_main files) (fun _ s' => image_of (mk_img s') files) no_halt mkfs_start.
Proof. apply (mkfs_builds_image files files_fit). Defined.
End MkfsInstances.
