(* ===== verification/KRead.v ===== *)
(** * KRead: the kernel reads a file system image

    Lookup and reading in fs.c within an operation of the log that writes
    nothing, on a disk that holds an image written by mkfs: [iget], [ilock],
    [readi], [dirlookup], [namei] and [iunlockput]. *)
From S2P Require Import Prelude CString Ring FsFormat Bio Log LogProof LogCrash LogTx KFs KFsProof.
From S2P Require Import Mkfs MkfsData MkfsProof MkfsTheorems.

(** A part of a file that lies in one block. *)
Lemma block_slice img d c (x m : nat) : stores img d c -> (x mod 512 + m <= 512)%nat -> (x + m <= length c)%nat ->
  slice (x mod 512) m (blk img (iblk img d (x / 512))) = slice x m c.
Proof.
  intros Hst Hm Hle. apply list_eq. intros j. unfold slice. destruct (decide (j < m)%nat) as [Hj|Hj]; [|by rewrite !lookup_take_ge by lia].
  rewrite !lookup_take_lt, !lookup_drop by done. destruct (lookup_lt_is_Some_2 c (x + j)) as [b Hb]; [lia|]. rewrite Hb.
  pose proof (st_bytes _ _ _ Hst _ _ Hb) as H. pose proof (Nat.div_mod_eq x 512) as E.
  assert (E1 : ((x + j) / 512 = x / 512)%nat) by (symmetry; apply (Nat.div_unique _ _ _ (x mod 512 + j)); lia).
  assert (E2 : ((x + j) mod 512 = x mod 512 + j)%nat) by (symmetry; apply (Nat.mod_unique _ _ (x / 512)); lia).
  by rewrite E1, E2 in H.
Qed.

(** ** Names *)

Lemma cstr_nonul a : 0 ∉ a -> cstr a = a.
Proof.
  induction a as [|x a IH]; intros Ha; [done|]. apply not_elem_of_cons in Ha as [Hx Ha]. cbn [cstr].
  rewrite (proj2 (Z.eqb_neq x 0)) by done. by rewrite IH.
Qed.

Lemma cstrn_field nm : 0 ∉ nm -> cstrn DIRSIZ (name_field nm) = take DIRSIZ nm.
Proof.
  intros Hn. rewrite cstrn_take. unfold name_field. destruct (Nat.le_gt_cases DIRSIZ (length nm)) as [Hl|Hl].
  - rewrite take_app_le by done. rewrite cstr_nonul by (intros Hin; apply Hn; by apply (subseteq_take DIRSIZ)). by rewrite take_take, Nat.min_id.
  - rewrite take_app_ge, take_replicate, Nat.min_l by lia. destruct (DIRSIZ - length nm)%nat as [|m] eqn:E; [lia|]. cbn [replicate]. by rewrite cstr_app_nul.
Qed.

Lemma namecmp_field name nm nm' : length name = DIRSIZ -> cstrn DIRSIZ name = take DIRSIZ nm -> (length nm < DIRSIZ)%nat -> 0 ∉ nm' ->
  exists c, namecmp name (name_field nm') = Some c /\ (c = 0 <-> nm = nm').
Proof.
  intros Hl Hc Hn Hz. assert (Hl' : length (name_field nm') = DIRSIZ) by (unfold name_field; rewrite length_take, length_app, length_replicate; lia).
  destruct (strncmp_eq0 DIRSIZ name (name_field nm')) as (c & Hcmp & Hiff); [left; lia..|]. exists c. split; [done|]. rewrite Hiff, Hc, cstrn_field by done.
  rewrite (take_ge nm) by lia. split; [|by intros <-; rewrite take_ge by lia]. intros E. rewrite E. apply take_ge.
  apply (f_equal length) in E. rewrite length_take in E. lia.
Qed.

Lemma skipelem_length path name rest name' : skipelem path name = Some (Some rest, name') -> length name = DIRSIZ -> length name' = DIRSIZ.
Proof.
  unfold skipelem. intros H Hl. destruct (skip_slashes path) as [q|]; [|done]. cbn [mbind option_bind] in H. destruct (head q) as [c|]; [|done]. cbn [mbind option_bind] in H.
  destruct (c =? 0); [done|]. destruct (scan_elem q) as [[n r]|]; [|done]. cbn [mbind option_bind fst snd] in H. destruct (skip_slashes r); [|done].
  injection H as _ <-. unfold copy_name. destruct (Nat.leb_spec DIRSIZ n); rewrite ?length_insert; unfold splice; rewrite take_0, app_nil_l, length_app, length_drop, length_take; lia.
Qed.

Section kread.
Context (pid : Z) (cwd : nat).
Context (devsw_read : Z -> option (nat -> Z -> Z -> M kfs (Z * list Z))).
Context (devsw_write : Z -> option (nat -> Z -> list Z -> Z -> M kfs Z)).
Context (g : log) (c0 : bcache) (v : Z -> list Z) (img : list (list Z)) (room : nat).
Context (Hv : forall b, 0 <= b < FSSIZE -> v b = blk img b) (Hsize : disksize c0 = FSSIZE).
Implicit Types (s : kfs) (l : list inode) (ip : inode) (d : dinode).

(** An operation is open, the disk holds the image and the inode cache is [l]. *)
Definition kstate l s : Prop := tx g [] v c0 (S room) (k_log s) /\ k_sb s = mkfs_sb /\ k_ino s = l.

(** Buffer [i] with block [n] is held besides. *)
Definition kheld l (i : nat) (n : Z) s : Prop :=
  exists (s0 : lsys) ls, tx g [] v c0 (S room) s0 /\ took [] ls (ls_cache s0) i n (ls_cache (k_log s)) /\ ls_log (k_log s) = g /\
    b_data <$> bc_buf (ls_cache (k_log s)) !! i = Some (v n) /\ k_sb s = mkfs_sb /\ k_ino s = l.

Lemma kbread l s n : kstate l s -> 0 <= n < FSSIZE -> wp (on_buf (bread pid 1 n)) (fun i s' => kheld l i n s') no_halt s.
Proof using Hsize.
  intros (Htx & Hsb & Hl) Hn. apply wp_on_log. eapply tx_bread; [exact Htx|by rewrite Hsize|].
  intros ls i c1 T1 E1. destruct (ed_holds _ _ _ _ _ _ E1) as (b & Hb & _ & Hd). cbn [ls_cache] in Hb.
  exists (k_log s), ls. cbn [with_log k_log k_sb k_ino ls_cache ls_log]. rewrite Hb. cbn [fmap option_fmap option_map]. rewrite Hd. done.
Qed.

Lemma kdata l i n s (Q : list Z -> kfs -> Prop) : kheld l i n s -> 0 <= n < FSSIZE -> Q (blk img n) s ->
  wp (b ← on_buf (the_buf i); mret (b_data b)) Q no_halt s.
Proof using Hv.
  intros (s0 & ls & Htx & T1 & Hg & Hd & Hsb & Hl) Hn HQ. destruct (bc_buf (ls_cache (k_log s)) !! i) as [b|] eqn:Hb; [|done].
  injection Hd as Hd. wp_step. apply wp_on_log, wp_on_bc, (wp_the_buf _ b); [done|]. wp_step. rewrite Hd, Hv by done.
  by destruct s as [[]].
Qed.

Lemma kbrelse l i n s : kheld l i n s -> wp (on_buf (brelse i)) (fun _ s' => kstate l s') no_halt s.
Proof.
  intros (s0 & ls & Htx & T1 & Hg & Hd & Hsb & Hl). apply wp_on_log. destruct (k_log s) as [g' c] eqn:Es. cbn [ls_log ls_cache] in *. subst g'.
  wp_call tx_release; [exact Htx|exact T1|]. intros ? l2 H2. done.
Qed.

Lemma kupd l s i f ip : kstate l s -> l !! i = Some ip -> wp (upd_inode i f) (fun _ s' => kstate (<[i := f ip]> l) s') no_halt s.
Proof. intros (Htx & Hsb & Hl) Hi. apply wp_modify. split; [done|]. split; [done|]. cbn [k_ino]. rewrite Hl. by apply alter_as_insert. Qed.

Lemma kupd_held l s j n i f ip : kheld l j n s -> l !! i = Some ip -> wp (upd_inode i f) (fun _ s' => kheld (<[i := f ip]> l) j n s') no_halt s.
Proof.
  intros (s0 & ls & Htx & T1 & Hg & Hd & Hsb & Hl) Hi. apply wp_modify. exists s0, ls. cbn [k_log k_sb k_ino]. rewrite Hl.
  split_and!; try done. by apply alter_as_insert.
Qed.

Lemma kthe_inode l s i ip (Q : inode -> kfs -> Prop) E : k_ino s = l -> l !! i = Some ip -> Q ip s -> wp (the_inode i) Q E s.
Proof. intros <- Hi HQ. unfold the_inode. wp_step. wp_step. by eapply wp_of_option. Qed.

(** ** Contents *)

Lemma kbmap l s i ip bn : kstate l s -> l !! i = Some ip -> i_dev ip = 1 -> (bn < 140)%nat ->
  nmeta <= iblk img (i_din ip) bn < FSSIZE -> ((12 <= bn)%nat -> nmeta <= default 0 (di_addrs (i_din ip) !! 12%nat) < FSSIZE) ->
  wp (bmap pid i (Z.of_nat bn)) (fun a s' => a = iblk img (i_din ip) bn /\ kstate l s') no_halt s.
Proof using Hv Hsize.
  intros Hs Hi Hdev Hbn Hr Hind. assert (0 < nmeta) by done. unfold bmap, bmap_addr, iblk, addr in *. change NDIRECT with 12.
  destruct (Nat.ltb_spec bn 12) as [H12|H12].
  - rewrite (proj2 (Z.ltb_lt _ _)) by lia. wp_step. eapply kthe_inode; [apply Hs|done|]. rewrite Nat2Z.id.
    rewrite (proj2 (Z.eqb_neq _ 0)) by lia. wp_step. done.
  - rewrite (proj2 (Z.ltb_ge _ _)) by lia. rewrite u32_id by (unfold is_u32; lia). change NINDIRECT with 128. rewrite (proj2 (Z.ltb_lt _ 128)) by lia.
    specialize (Hind H12). wp_step. wp_step. eapply kthe_inode; [apply Hs|done|]. change (Z.to_nat 12) with 12%nat.
    rewrite (proj2 (Z.eqb_neq _ 0)) by lia. wp_step. wp_step. eapply kthe_inode; [apply Hs|done|]. rewrite Hdev.
    wp_step. eapply wp_conseq; [apply (kbread l); [done|lia]|]. cbv beta. intros bp s1 H1. wp_step. eapply kdata; [done|lia|].
    replace (Z.to_nat (Z.of_nat bn - 12)) with (bn - 12)%nat by lia. rewrite (proj2 (Z.eqb_neq _ 0)) by lia. wp_step. wp_step.
    wp_step. eapply wp_conseq; [by eapply kbrelse|]. cbv beta. intros ? s2 H2. wp_step. done.
Qed.

Lemma kreadi_step l s i ip c off n tot : kstate l s -> l !! i = Some ip -> i_dev ip = 1 -> stores img (i_din ip) c ->
  0 <= off -> 0 <= tot < n -> off + n <= Z.of_nat (length c) -> off + n < 2 ^ 32 ->
  wp (readi_step pid i n (tot, off + tot, slice (Z.to_nat off) (Z.to_nat tot) c))
     (fun r s' => kstate l s' /\ exists tot', tot < tot' <= n /\ r = inl (tot', off + tot', slice (Z.to_nat off) (Z.to_nat tot') c)) no_halt s.
Proof using Hv Hsize.
  intros Hs Hi Hdev Hst Hoff Htot Hc Hmax. unfold readi_step. rewrite (proj2 (Z.ltb_lt _ _)) by lia.
  wp_step. eapply kthe_inode; [apply Hs|done|]. set (x := Z.to_nat (off + tot)).
  assert (Ex : off + tot = Z.of_nat x) by lia. change BSIZE with 512. rewrite Ex.
  rewrite (eq_sym (Nat2Z.inj_div x 512) : Z.of_nat x / 512 = _), (eq_sym (Nat2Z.inj_mod x 512) : Z.of_nat x mod 512 = _).
  pose proof (Nat.div_mod_eq x 512) as Edm. pose proof (Nat.mod_upper_bound x 512 ltac:(lia)) as Hmu. pose proof (nblk_spec (length c)) as Hnb.
  destruct (st_map _ _ _ Hst (x / 512)) as (H140 & Hr & Hind); [lia|].
  wp_step. eapply wp_conseq; [by apply (kbmap l s i ip)|]. cbv beta. intros a s1 [-> H1].
  assert (0 < nmeta) by done. rewrite Hdev. wp_step. eapply wp_conseq; [apply (kbread l); [done|lia]|]. cbv beta. intros bp s2 H2.
  wp_step. eapply kdata; [done|lia|]. wp_step. eapply wp_conseq; [by eapply kbrelse|]. cbv beta. intros ? s3 H3. wp_step. split; [done|].
  set (m := Z.min (n - tot) (512 - Z.of_nat (x mod 512))). exists (tot + m). split; [lia|]. rewrite !u32_id by (unfold is_u32; lia).
  do 2 f_equal; [f_equal; lia|]. rewrite Nat2Z.id, (block_slice img (i_din ip) c) by (done || lia).
  replace (Z.to_nat (tot + m)) with (Z.to_nat tot + Z.to_nat m)%nat by lia. rewrite <- slice_join. do 2 f_equal. lia.
Qed.

(** [readi] returns the bytes of the file from [off] on, cut at its size. *)
Lemma kreadi l s i ip c off n : kstate l s -> l !! i = Some ip -> i_dev ip = 1 -> di_type (i_din ip) <> T_DEV -> stores img (i_din ip) c ->
  0 <= off -> 0 <= n -> off + n < 2 ^ 31 -> is_u32 (di_size (i_din ip)) ->
  Z.min (off + n) (di_size (i_din ip)) <= Z.of_nat (length c) ->
  wp (readi pid devsw_read i off n)
     (fun r s' => kstate l s' /\ r = if di_size (i_din ip) <? off then (-1, [])
        else let k := Z.min n (di_size (i_din ip) - off) in (k, slice (Z.to_nat off) (Z.to_nat k) c)) no_halt s.
Proof using Hv Hsize.
  intros Hs Hi Hdev Ht Hst Hoff Hn Hmax Hsz Hle. unfold readi. wp_step. eapply kthe_inode; [apply Hs|done|]. cbv zeta.
  rewrite (proj2 (Z.eqb_neq _ _) Ht). rewrite u32_id by (unfold is_u32; lia). rewrite (proj2 (Z.ltb_ge (off + n) off)), orb_false_r by lia.
  set (sz := di_size (i_din ip)) in *. unfold is_u32 in Hsz. destruct (Z.ltb_spec sz off) as [Hlt|Hge]; [by wp_step|].
  set (k := Z.min n (sz - off)). assert (Ek : (if sz <? off + n then u32 (sz - off) else n) = k).
  { destruct (Z.ltb_spec sz (off + n)); [rewrite u32_id by (unfold is_u32; lia)|]; lia. }
  rewrite Ek. wp_step. apply (wp_while (fun st s' => exists tot, 0 <= tot <= k /\ st = (tot, off + tot, slice (Z.to_nat off) (Z.to_nat tot) c) /\ kstate l s')
    (fun st => Z.to_nat (k - st.1.1))).
  - exists 0. rewrite Z.add_0_r. split; [lia|done].
  - cbn [fst]. lia.
  - intros st s1 (tot & Htot & -> & H1). destruct (decide (tot = k)) as [->|Hne].
    + unfold readi_step. rewrite Z.ltb_irrefl. wp_step. wp_step. rewrite s32_id by (unfold is_s32; lia). done.
    + eapply wp_conseq; [apply (kreadi_step l s1 i ip); [done..|lia|lia|lia]|]. cbv beta. intros r s2 (H2 & tot' & Htot' & ->).
      split; [exists tot'; split; [lia|done]|]. cbn [fst]. lia.
Qed.

(** ** The inode cache *)

(** Entry [i] of the cache, where [lk] is the inode that is locked. *)
Record entry_ok (lk : option nat) (i : nat) ip : Prop := {
  eo_ref : 0 <= i_ref ip;
  eo_lock : sl_locked (i_lock ip) = 0 <-> lk <> Some i;
  eo_held : lk = Some i -> 0 < i_ref ip /\ i_flags ip = I_VALID;
  eo_used : 0 < i_ref ip -> i_dev ip = 1 /\ 0 <= i_inum ip < 208 /\
    (i_flags ip = 0 \/ i_flags ip = I_VALID /\ i_din ip = img_inode img (i_inum ip));
}.
Definition icache_ok (lk : option nat) l : Prop := forall i ip, l !! i = Some ip -> entry_ok lk i ip.

(** At least [k] entries are free. *)
Definition free_slots (k : nat) l : Prop :=
  exists fs, NoDup fs /\ length fs = k /\ forall i, i ∈ fs -> exists ip, l !! i = Some ip /\ i_ref ip = 0.

(** All references together. *)
Definition isum l : Z := foldr (fun ip n => i_ref ip + n) 0 l.

Lemma isum_insert l i ip ip' : l !! i = Some ip -> isum (<[i := ip']> l) = isum l - i_ref ip + i_ref ip'.
Proof.
  revert i. induction l as [|x l IH]; intros [|i] Hi; [done|done|injection Hi as ->; cbn; lia|].
  change (i_ref x + isum (<[i := ip']> l) = i_ref x + isum l - i_ref ip + i_ref ip'). rewrite (IH i Hi). lia.
Qed.

Lemma icache_insert lk l i ip : icache_ok lk l -> entry_ok lk i ip -> icache_ok lk (<[i := ip]> l).
Proof. intros Hl Hi j jp Hj. apply list_lookup_insert_Some in Hj as [(-> & -> & _)|[_ Hj]]; [done|by apply Hl]. Qed.

Lemma free_slots_insert k l i ip : free_slots (S k) l -> free_slots k (<[i := ip]> l).
Proof.
  intros (fs & Hnd & Hlen & Hfree). destruct (decide (i ∈ fs)) as [Hin|Hin].
  - apply list_elem_of_split in Hin as (l1 & l2 & ->). exists (l1 ++ l2). rewrite length_app in Hlen |- *. cbn in Hlen.
    apply NoDup_app in Hnd as (Hn1 & Hd & [Hni Hn2]%NoDup_cons). split; [apply NoDup_app; split; [done|split; [|done]]; intros x Hx Hx2; by apply (Hd x Hx); right|].
    split; [lia|]. intros j Hj. assert (j <> i) by (intros ->; apply elem_of_app in Hj as [Hj|Hj]; [by apply (Hd i Hj); left|done]).
    rewrite list_lookup_insert_ne by done. apply Hfree. apply elem_of_app in Hj as [Hj|Hj]; apply elem_of_app; [by left|by right; right].
  - destruct fs as [|j fs]; [done|]. exists fs. cbn in Hlen. apply NoDup_cons in Hnd as [_ Hnd]. split; [done|]. split; [lia|].
    intros x Hx. rewrite list_lookup_insert_ne by (intros ->; apply Hin; by right). apply Hfree. by right.
Qed.

Lemma free_slots_used k l i ip ip' : free_slots k l -> l !! i = Some ip -> i_ref ip <> 0 -> free_slots k (<[i := ip']> l).
Proof.
  intros (fs & Hnd & Hlen & Hfree) Hi Hr. exists fs. split; [done|]. split; [done|]. intros j Hj. destruct (Hfree j Hj) as (jp & Hjp & H0).
  rewrite list_lookup_insert_ne; [by exists jp|]. intros ->. congruence.
Qed.

Lemma find_first (P : nat -> bool) (n : nat) : match List.find P (seq 0 n) with
  | Some i => (i < n)%nat /\ P i = true | None => forall i, (i < n)%nat -> P i = false end.
Proof.
  destruct (List.find P (seq 0 n)) as [i|] eqn:E.
  - apply find_some in E as [Hi Hp]. apply in_seq in Hi. split; [lia|done].
  - intros i Hi. apply (find_none _ _ E). apply in_seq. lia.
Qed.

(** Entries in use stay what they are. *)
Definition ikeeps l l' : Prop :=
  forall j jp, l !! j = Some jp -> 0 < i_ref jp -> exists jp', l' !! j = Some jp' /\ i_inum jp' = i_inum jp /\ i_ref jp <= i_ref jp'.

(** A reference to inode [inum]: from the cache or in a free entry. *)
Lemma kiget lk k l s inum : kstate l s -> icache_ok lk l -> free_slots (S k) l -> 0 <= inum < 208 ->
  wp (iget 1 inum) (fun i s' => exists l' ip, kstate l' s' /\ l' !! i = Some ip /\ i_inum ip = inum /\ 0 < i_ref ip /\
    icache_ok lk l' /\ free_slots k l' /\ isum l' = isum l + 1 /\ ikeeps l l') no_halt s.
Proof.
  intros Hs Hok Hfree Hnum. unfold iget. wp_step. wp_step. pose proof Hs as (_ & _ & Hl). rewrite Hl.
  match goal with |- context [List.find ?P (seq 0 (length l))] => pose proof (find_first P (length l)) as Hf; destruct (List.find P (seq 0 (length l))) as [i|] end.
  - destruct Hf as [Hi Hp]. destruct (lookup_lt_is_Some_2 l i Hi) as [ip Hip]. rewrite Hip in Hp.
    apply andb_prop in Hp as [[Hr%Z.ltb_lt Hd%Z.eqb_eq]%andb_prop Hn%Z.eqb_eq]. destruct (Hok _ _ Hip) as [E1 E2 E3 E4].
    wp_step. eapply wp_conseq; [by apply (kupd l s i _ ip)|]. cbv beta. intros ? s1 H1. wp_step.
    exists (<[i := set_iref (i_ref ip + 1) ip]> l), (set_iref (i_ref ip + 1) ip). split; [done|]. split; [by apply list_lookup_insert_eq|].
    split; [done|]. cbn [set_iref i_ref]. split; [lia|]. split; [|split; [|split]].
    + apply icache_insert; [done|]. split; cbn [set_iref i_ref i_lock i_dev i_inum i_flags i_din]; [lia|done| |by intros _; apply E4].
      intros Hlk. split; [lia|by apply E3].
    + by apply free_slots_insert.
    + rewrite (isum_insert _ _ _ _ Hip). cbn [set_iref i_ref]. lia.
    + intros j jp Hj Hjr. destruct (decide (j = i)) as [->|Hne]; [|exists jp; by rewrite list_lookup_insert_ne by done].
      rewrite Hip in Hj. injection Hj as <-. eexists. split; [by apply list_lookup_insert_eq|]. cbn [set_iref i_ref i_inum]. split; [done|lia].
  - clear Hf. match goal with |- context [List.find ?P (seq 0 (length l))] => pose proof (find_first P (length l)) as Hf; destruct (List.find P (seq 0 (length l))) as [i|] end.
    2: { exfalso. destruct Hfree as ([|j fs] & _ & Hlen & Hfs); [done|]. destruct (Hfs j) as (jp & Hj & H0); [by left|].
         specialize (Hf j (lookup_lt_Some _ _ _ Hj)). rewrite Hj in Hf. by rewrite H0 in Hf. }
    destruct Hf as [Hi Hp]. destruct (lookup_lt_is_Some_2 l i Hi) as [ip Hip]. rewrite Hip in Hp. apply Z.eqb_eq in Hp.
    destruct (Hok _ _ Hip) as [E1 E2 E3 E4]. wp_step. eapply wp_conseq; [by apply (kupd l s i _ ip)|]. cbv beta. intros ? s1 H1. wp_step.
    assert (Hnl : lk <> Some i) by (intros Hlk; apply E3 in Hlk; lia).
    eexists _, _. split; [exact H1|]. split; [by apply list_lookup_insert_eq|]. split; [done|]. split; [done|]. split; [|split; [|split]].
    + apply icache_insert; [done|]. split; cbn [i_ref i_lock i_dev i_inum i_flags i_din]; [lia|done|by intros Hlk|]. intros _. split; [done|]. split; [done|by left].
    + by apply free_slots_insert.
    + rewrite (isum_insert _ _ _ _ Hip). cbn [i_ref]. lia.
    + intros j jp Hj Hjr. destruct (decide (j = i)) as [->|Hne]; [rewrite Hip in Hj; injection Hj as <-; lia|]. exists jp. by rewrite list_lookup_insert_ne by done.
Qed.

(** The inode as its holder sees it. *)
Definition locked_inode l (i : nat) (inum : Z) : Prop :=
  exists ip, l !! i = Some ip /\ i_dev ip = 1 /\ i_inum ip = inum /\ i_din ip = img_inode img inum /\ 0 < i_ref ip.

Lemma kilock k l s i ip : kstate l s -> icache_ok None l -> free_slots k l -> l !! i = Some ip -> 0 < i_ref ip ->
  di_type (img_inode img (i_inum ip)) <> 0 ->
  wp (ilock pid (Some i)) (fun _ s' => exists l', kstate l' s' /\ icache_ok (Some i) l' /\ free_slots k l' /\ isum l' = isum l /\
    ikeeps l l' /\ locked_inode l' i (i_inum ip)) no_halt s.
Proof using Hv Hsize.
  intros Hs Hok Hfree Hi Hr Ht. destruct (Hok _ _ Hi) as [E1 E2 E3 E4]. destruct (E4 Hr) as (Hdev & Hnum & Hfl).
  unfold ilock. wp_step. eapply kthe_inode; [apply Hs|done|]. rewrite (proj2 (Z.ltb_ge _ 1)) by lia.
  unfold acquiresleep. rewrite (proj2 E2) by done. rewrite Z.eqb_refl. wp_step. cbn [of_option]. wp_step.
  set (lk := mkSleeplock 1 pid). wp_step. eapply wp_conseq; [by apply (kupd l s i _ ip)|]. cbv beta. intros ? s1 H1.
  assert (Hfin : forall l' ip', l' = <[i := ip']> l -> ip' = mkInode 1 (i_inum ip) (i_ref ip) lk I_VALID (img_inode img (i_inum ip)) ->
    icache_ok (Some i) l' /\ free_slots k l' /\ isum l' = isum l /\ ikeeps l l' /\ locked_inode l' i (i_inum ip)).
  { intros l' ip' -> ->. pose proof (lookup_lt_Some _ _ _ Hi) as Hlt. split; [|split; [|split; [|split]]].
    - intros j jp Hj. apply list_lookup_insert_Some in Hj as [(-> & <- & _)|[Hne Hj]].
      + split; cbn [i_ref i_lock i_dev i_inum i_flags i_din]; [lia| |done|intros _; split; [done|split; [done|by right]]]. split; [done|by intros []].
      + destruct (Hok _ _ Hj) as [F1 F2 F3 F4]. split; [done| |by intros [= ->]|done]. rewrite F2. split; [congruence|done].
    - eapply free_slots_used; [done|done|lia].
    - rewrite (isum_insert _ _ _ _ Hi). cbn [i_ref]. lia.
    - intros j jp Hj Hjr. destruct (decide (j = i)) as [->|Hne]; [|exists jp; by rewrite list_lookup_insert_ne by done].
      rewrite Hi in Hj. injection Hj as <-. eexists. split; [by apply list_lookup_insert_eq|]. cbn [i_ref i_inum]. done.
    - eexists. split; [by apply list_lookup_insert_eq|]. done. }
  destruct Hfl as [Hfl|[Hfl Hdin]]; rewrite Hfl.
  2: { change (Z.land I_VALID I_VALID =? 0) with false. cbv iota. wp_step. eexists. split; [exact H1|]. eapply Hfin; [done|].
       unfold set_ilock. by rewrite Hdev, Hfl, Hdin. }
  change (Z.land 0 I_VALID =? 0) with true. cbv iota. wp_step. apply wp_gets. destruct H1 as (H1a & H1b & H1c). rewrite H1b, Hdev.
  pose proof (conj H1a (conj H1b H1c) : kstate _ s1) as H1. destruct (IBLOCK_mkfs _ Hnum) as [-> Hblk].
  wp_step. eapply wp_conseq; [eapply kbread; [exact H1|change FSSIZE with 1000; lia]|]. cbv beta. intros bp s2 H2.
  wp_step. eapply kdata; [exact H2|change FSSIZE with 1000; lia|]. fold (img_inode img (i_inum ip)).
  wp_step. eapply wp_conseq; [eapply kupd_held; [exact H2|apply list_lookup_insert_eq; by eapply lookup_lt_Some]|]. cbv beta. intros ? s3 H3.
  rewrite list_insert_insert_eq in H3. wp_step. eapply wp_conseq; [by eapply kbrelse|]. cbv beta. intros ? s4 H4.
  wp_step. eapply wp_conseq; [eapply kupd; [exact H4|apply list_lookup_insert_eq; by eapply lookup_lt_Some]|]. cbv beta. intros ? s5 H5.
  rewrite list_insert_insert_eq in H5. wp_step. eapply kthe_inode; [apply H5|apply list_lookup_insert_eq; by eapply lookup_lt_Some|].
  cbn [set_iflags set_din i_din]. rewrite (proj2 (Z.eqb_neq _ 0) Ht). wp_step. eexists. split; [exact H5|]. eapply Hfin; [done|].
  unfold set_iflags, set_din, set_ilock. cbn [i_dev i_inum i_ref i_lock i_flags i_din]. by rewrite Hdev, Hfl.
Qed.

(** Unlocking and dropping a reference to a file that has a link. *)
Lemma kiunlockput k l s i inum : kstate l s -> icache_ok (Some i) l -> free_slots k l -> locked_inode l i inum -> di_nlink (img_inode img inum) <> 0 ->
  wp (iunlockput pid i) (fun _ s' => exists l', kstate l' s' /\ icache_ok None l' /\ free_slots k l' /\ isum l' = isum l - 1 /\
    forall j jp, j <> i -> l !! j = Some jp -> l' !! j = Some jp) no_halt s.
Proof.
  intros Hs Hok Hfree (ip & Hi & Hdev & Hnum & Hdin & Hr) Hlink. destruct (Hok _ _ Hi) as [E1 E2 E3 E4]. pose proof (lookup_lt_Some _ _ _ Hi) as Hlt.
  unfold iunlockput, iunlock. wp_step. wp_step. eapply kthe_inode; [apply Hs|done|].
  unfold holdingsleep. rewrite (proj2 (Z.eqb_neq (sl_locked (i_lock ip)) 0)) by (intros E; by apply E2 in E). rewrite (proj2 (Z.ltb_ge _ 1)) by lia. cbn [negb orb].
  eapply wp_conseq; [by apply (kupd l s i _ ip)|]. cbv beta. intros ? s1 H1. unfold iput. wp_step. eapply kthe_inode; [apply H1|by apply list_lookup_insert_eq|].
  cbn [set_ilock i_ref i_flags i_din]. rewrite Hdin, (proj2 (Z.eqb_neq _ 0) Hlink), andb_false_r. cbn [when]. wp_step. wp_step.
  eapply wp_conseq; [eapply kupd; [exact H1|by apply list_lookup_insert_eq]|]. cbv beta. intros ? s2 H2. rewrite list_insert_insert_eq in H2.
  eexists. split; [exact H2|]. cbn [set_iref set_ilock i_ref]. split; [|split; [|split]].
  - intros j jp Hj. apply list_lookup_insert_Some in Hj as [(-> & <- & _)|[Hne Hj]].
    + split; cbn [set_iref set_ilock i_ref i_lock i_dev i_inum i_flags i_din releasesleep sl_locked]; [lia|done|done|]. intros _. by apply E4.
    + destruct (Hok _ _ Hj) as [F1 F2 F3 F4]. split; [done| |done|done]. rewrite F2. split; [done|congruence].
  - eapply free_slots_used; [done|done|lia].
  - rewrite (isum_insert _ _ _ _ Hi). cbn [set_iref set_ilock i_ref]. lia.
  - intros j jp Hne Hj. by rewrite list_lookup_insert_ne.
Qed.

(** ** Path lookup *)

Lemma kdirlookup k l s dp files j i nm name :
  kstate l s -> icache_ok (Some dp) l -> free_slots (S k) l -> locked_inode l dp ROOTINO -> image_of img files ->
  entries files !! j = Some (i, nm) -> (length files <= 206)%nat -> (length nm < DIRSIZ)%nat ->
  length name = DIRSIZ -> cstrn DIRSIZ name = take DIRSIZ nm ->
  (forall j' e, entries files !! j' = Some e -> (0 ∉ e.2) /\ ((j' < j)%nat -> e.2 <> nm)) ->
  wp (dirlookup pid devsw_read dp name) (fun r s' => exists n off l' ip, r = Some (n, off) /\ kstate l' s' /\ l' !! n = Some ip /\
    i_inum ip = i /\ 0 < i_ref ip /\ icache_ok (Some dp) l' /\ free_slots k l' /\ isum l' = isum l + 1 /\ ikeeps l l') no_halt s.
Proof using Hv Hsize.
  intros Hs Hok Hfree (d & Hd & Hdev & Hnum & Hdin & Hr) Himg Hj Hcount Hnm Hnl Hname Hnames.
  destruct (io_root _ _ Himg) as (Hrt & Hrst & Hrsz & _). pose proof (length_root_entries files) as Hrl.
  assert (Hel : length (entries files) = (length files + 2)%nat) by (unfold entries; cbn [length]; rewrite length_imap; lia).
  assert (Hjl : (j < length files + 2)%nat) by (rewrite <- Hel; by eapply lookup_lt_Some). rewrite <- Hdin in Hrt, Hrst, Hrsz.
  unfold dirlookup. wp_step. eapply kthe_inode; [apply Hs|done|]. rewrite Hrt. cbn [Z.eqb Pos.eqb T_DIR negb].
  change BSIZE with 512 in Hrsz. pose proof (Z.div_mod (Z.of_nat (length (root_entries files))) 512 ltac:(lia)).
  pose proof (Z.mod_pos_bound (Z.of_nat (length (root_entries files))) 512 ltac:(lia)).
  apply (wp_for_range (fun k' s' => kstate l s' /\ k' <= Z.of_nat j)); [done|lia|split; [done|lia]| |].
  2: { intros k' s' Hk' Hend [_ Hkj]. exfalso. lia. }
  intros k' s' Hk' Hlt [Hs' Hkj]. cbv beta.
  destruct (lookup_lt_is_Some_2 (entries files) (Z.to_nat k')) as [[i' nm'] He]; [lia|].
  assert (Hi' : 0 < i' < 208).
  { unfold entries in He. destruct (Z.to_nat k') as [|[|m]]; [by injection He as <- <-..|]. cbn [lookup list_lookup] in He.
    apply list_lookup_imap_Some in He as (f & Hf & [= -> ->]). apply lookup_lt_Some in Hf. lia. }
  wp_step. eapply wp_conseq; [apply (kreadi l s' dp d (root_entries files) (k' * 16) 16); try done; [by rewrite Hrt|lia|lia|unfold is_u32; lia|lia]|].
  cbv beta. intros r s1 [H1 ->]. rewrite (proj2 (Z.ltb_ge _ _)), Z.min_l by lia. cbn [fst snd]. change (negb (16 =? 16)) with false. cbv iota zeta.
  replace (Z.to_nat (k' * 16)) with (16 * Z.to_nat k')%nat by lia. change (Z.to_nat 16) with 16%nat. rewrite (entry_slice _ _ _ _ He).
  rewrite decode_mk_dirent by lia. cbn [de_inum de_name]. rewrite (proj2 (Z.eqb_neq i' 0)) by lia.
  destruct (Hnames _ _ He) as [Hz Hne]. cbn [snd] in *. destruct (namecmp_field name nm nm' Hnl Hname Hnm Hz) as (c & Hcmp & Hiff). rewrite Hcmp.
  wp_step. cbn [of_option]. wp_step. destruct (Z.eqb_spec c 0) as [->|Hc0].
  - destruct (Nat.lt_trichotomy (Z.to_nat k') j) as [Hkj'|[Hkj'|Hkj']]; [by destruct (Hne Hkj' (eq_sym (proj1 Hiff eq_refl)))| |lia].
    subst j. rewrite Hj in He. injection He as <- <-. wp_step. rewrite Hdev. eapply wp_conseq; [by apply (kiget (Some dp) k l s1 i); [..|lia]|].
    cbv beta. intros n s2 (l' & ip & H2 & Hn & Hin & Hir & Hok2 & Hf2 & Hsum2 & Hk2). wp_step. by exists n, (k' * 16), l', ip.
  - wp_step. split; [done|]. destruct (decide (Z.to_nat k' = j)) as [E|E]; [|lia]. subst j. rewrite Hj in He. injection He as <- <-.
    by destruct Hc0; apply Hiff.
Qed.

(** [namei] of an absolute path with the name of a file as its only element. *)
Lemma knamei k l s path files n f : kstate l s -> icache_ok None l -> free_slots (S (S k)) l -> image_of img files -> (length files <= 206)%nat ->
  findable files n f -> head path = Some SLASH -> nul_terminated path -> components (cstr path) = [fname f] ->
  wp (namei pid cwd devsw_read path) (fun r s' => exists i l' ip, r = Some i /\ kstate l' s' /\ l' !! i = Some ip /\
    i_inum ip = Z.of_nat n + 2 /\ 0 < i_ref ip /\ icache_ok None l' /\ free_slots k l' /\ isum l' = isum l + 1) no_halt s.
Proof using Hv Hsize.
  intros Hs Hok Hfree Himg Hcount Hfind Hhead Hnul Hcomp. destruct (io_root _ _ Himg) as (Hrt & _ & _ & Hrl).
  unfold namei, namex. rewrite Hhead. wp_step. wp_step. cbn [of_option]. wp_step. rewrite Z.eqb_refl. wp_step.
  eapply wp_conseq; [by apply (kiget None (S k) l s ROOTINO)|]. cbv beta.
  intros dp s1 (l1 & d & H1 & Hd & Hdn & Hdr & Hok1 & Hf1 & Hsum1 & _).
  pose proof (skipelem_next path (replicate DIRSIZ 0) Hnul ltac:(done)) as Hsk. rewrite Hcomp in Hsk.
  destruct Hsk as (rest & name & Hsk & Hname & Hrest & Hrn & Hrs & Hrlen). pose proof (skipelem_length _ _ _ _ Hsk ltac:(done)) as Hnl.
  cbn [namex_loop]. rewrite Hsk. wp_step. cbn [of_option]. wp_step. wp_step.
  eapply wp_conseq; [apply (kilock (S k) l1 s1 dp d); [done..|by rewrite Hdn, Hrt]|]. cbv beta.
  intros ? s2 (l2 & H2 & Hok2 & Hf2 & Hsum2 & _ & Hlk). rewrite Hdn in Hlk. pose proof Hlk as (d2 & Hd2 & _ & _ & Hdin2 & _).
  wp_step. eapply kthe_inode; [apply H2|done|]. rewrite Hdin2, Hrt. cbn [Z.eqb Pos.eqb T_DIR negb].
  destruct rest as [|c rest]; [by apply not_elem_of_nil in Hrn|]. cbn [head]. wp_step. cbn [of_option]. wp_step. cbn [andb].
  wp_step. eapply wp_conseq; [apply (kdirlookup k l2 s2 dp files (S (S n)) (Z.of_nat n + 2) (fname f)); try done; [by apply findable_entry|apply Hfind|by apply findable_names]|].
  cbv beta. intros r s3 (i & off & l3 & ip & -> & H3 & Hip & Hin & Hir & Hok3 & Hf3 & Hsum3 & Hk3).
  destruct (Hk3 dp d2) as (d3 & Hd3 & Hdn3 & Hdr3); [done|destruct Hlk as (x & Hx & _ & _ & _ & Hxr); congruence|].
  assert (Hlk3 : locked_inode l3 dp ROOTINO).
  { destruct Hlk as (x & Hx & _ & Hxn & _). assert (x = d2) as -> by congruence. destruct (Hok3 _ _ Hd3) as [_ _ E3 E4]. destruct (E3 eq_refl) as [E5 E6].
    destruct (E4 E5) as (E7 & _ & [E8|[_ E8]]); [rewrite E6 in E8; done|]. exists d3. rewrite Hxn in Hdn3. rewrite Hdn3 in E8. done. }
  assert (Hne : i <> dp). { intros ->. destruct Hlk3 as (x & Hx & _ & Hxn & _). assert (x = ip) as -> by congruence. rewrite Hxn in Hin. change ROOTINO with 1 in Hin. lia. }
  cbv iota. wp_step. eapply wp_conseq; [apply (kiunlockput k l3 s3 dp ROOTINO); [done..|by rewrite Hrl]|]. cbv beta.
  intros ? s4 (l4 & H4 & Hok4 & Hf4 & Hsum4 & Hsame). destruct path as [|ch path]; [done|]. cbn [length namex_loop].
  pose proof (skipelem_next (c :: rest) name Hrn Hnl) as Hsk2. rewrite Hrest in Hsk2. rewrite Hsk2. wp_step. cbn [of_option]. wp_step. wp_step. wp_step.
  exists i, l4, ip. cbn [fst]. split; [done|]. split; [done|]. split; [by apply Hsame|]. split; [done|]. split; [done|]. split; [done|]. split; [done|]. lia.
Qed.
End kread.
