(* ===== verification/Exec.v ===== *)
(** * Exec: running a program (exec.c, elf.h, and loaduvm of vm.c)

    [exec] reads an executable through the kernel's file system into a new
    address space and puts it in place of the caller's.  The state has the
    memory of all processes, the file system, and the registers and the name
    of the calling process.  [argv] is the list of its strings.  [switchuvm]
    only loads registers of the machine. *)
From S2P Require Import Prelude CString FsFormat Bio Log KFs Mmu Kalloc Vm VmSystem.

(** ** ELF *)

Definition ELF_MAGIC : Z := 0x464C457F.
Definition ELF_PROG_LOAD : Z := 1.


Record elfhdr := mkElf {
  eh_magic : Z;
  eh_elf : list Z;
  eh_type : Z;
  eh_machine : Z;
  eh_version : Z;
  eh_entry : Z;
  eh_phoff : Z;
  eh_shoff : Z;
  eh_flags : Z;
  eh_ehsize : Z;
  eh_phentsize : Z;
  eh_phnum : Z;
  eh_shentsize : Z;
  eh_shnum : Z;
  eh_shstrndx : Z;
}.

Record proghdr := mkPh {
  ph_type : Z;
  ph_flags : Z;
  ph_off : Z;
  ph_vaddr : Z;
  ph_paddr : Z;
  ph_filesz : Z;
  ph_memsz : Z;
  ph_align : Z;
}.

Definition sizeof_elfhdr : Z := 64.
Definition sizeof_proghdr : Z := 56.

(** The little-endian number of [n] bytes at offset [off]. *)
Definition field (off n : nat) (bs : list Z) : Z := le_Z (slice off n bs).

Definition decode_elf (bs : list Z) : elfhdr :=
  mkElf (field 0 4 bs) (slice 4 12 bs) (field 16 2 bs) (field 18 2 bs) (field 20 4 bs) (field 24 8 bs) (field 32 8 bs) (field 40 8 bs)
        (field 48 4 bs) (field 52 2 bs) (field 54 2 bs) (field 56 2 bs) (field 58 2 bs) (field 60 2 bs) (field 62 2 bs).

Definition decode_ph (bs : list Z) : proghdr :=
  mkPh (field 0 4 bs) (field 4 4 bs) (field 8 8 bs) (field 16 8 bs) (field 24 8 bs) (field 32 8 bs) (field 40 8 bs) (field 48 8 bs).

(** ** The state *)

(** The registers of [struct trapframe] that [exec] sets. *)
Record uregs := mkRegs { r_rdi : Z; r_rsi : Z; r_rip : Z; r_rcx : Z; r_rsp : Z }.

Record xsys := XSys { x_vm : vsys; x_fs : kfs; x_regs : uregs; x_name : list Z }.

Definition on_vm {A} (m : M vsys A) : M xsys A := fun s =>
  let '(r, v) := m (x_vm s) in (r, XSys v (x_fs s) (x_regs s) (x_name s)).
Definition on_kfs {A} (m : M kfs A) : M xsys A := fun s =>
  let '(r, f) := m (x_fs s) in (r, XSys (x_vm s) f (x_regs s) (x_name s)).
Definition set_regs (f : uregs -> uregs) : M xsys unit := modify (fun s => XSys (x_vm s) (x_fs s) (f (x_regs s)) (x_name s)).
Definition set_name (n : list Z) : M xsys unit := modify (fun s => XSys (x_vm s) (x_fs s) (x_regs s) n).

(** [for(last=s=path; *s; s++) if( *s == '/') last = s+1;] *)
Fixpoint last_elem (last s : list Z) : option (list Z) :=
  match s with
  | [] => None
  | c :: s' => if c =? 0 then Some last else last_elem (if c =? SLASH then s' else last) s'
  end.

Section exec.
Context `{Kernel}.
(** The calling process, its working directory and the device table. *)
Context (mypid : Z) (cwd : nat).
Context (devsw_read : Z -> option (nat -> Z -> Z -> M kfs (Z * list Z))).

Abbreviation on_mem c := (on_vm (on_km c)).
Abbreviation readi' ip off n := (on_kfs (readi mypid devsw_read ip off n)).

(** One round of [loaduvm]; [readi] stores what it reads at [P2V(pa)]. *)
Definition load_step (pgdir addr : Z) (ip : nat) (offset sz i : Z) : M xsys (Z + Z) :=
  if i <? sz then
    pte ← on_mem (walkpgdir pgdir (u64 (addr + i)) false);
    match pte with
    | None => panic "loaduvm: address should exist"
    | Some pte =>
        e ← on_mem (load64 pte);
        let pa := PTE_ADDR e in
        let n := if sz - i <? PGSIZE then sz - i else PGSIZE in
        rd ← readi' ip (u32 (offset + i)) n;
        on_mem (modify (fun k => set_mem (poke (P2V pa) rd.2 (km_mem k)) k));;
        if negb (u32 rd.1 =? n) then mret (inr (-1)) else mret (inl (u32 (i + PGSIZE)))
    end
  else mret (inr 0).

(** Every round loads a page. *)
Definition loaduvm (pgdir addr : Z) (ip : nat) (offset sz : Z) : M xsys Z :=
  if negb (addr mod PGSIZE =? 0) then panic "loaduvm: addr must be page aligned"
  else while (S (S (Z.to_nat (sz / PGSIZE)))) (load_step pgdir addr ip offset sz) 0.

(** One round of the loop over the program headers on [(i, off, sz)]; the
    result is the size, or [None] for [goto bad]. *)
Definition seg_step (pgdir : Z) (ip : nat) (phnum : Z) (st : Z * Z * Z) : M xsys ((Z * Z * Z) + option Z) :=
  let '(i, off, sz) := st in
  if i <? phnum then
    rd ← readi' ip (u32 off) sizeof_proghdr;
    if negb (rd.1 =? sizeof_proghdr) then mret (inr None)
    else
      let ph := decode_ph rd.2 in
      let next sz := mret (inl (i + 1, s32 (off + sizeof_proghdr), sz)) in
      if negb (ph_type ph =? ELF_PROG_LOAD) then next sz
      else if ph_memsz ph <? ph_filesz ph then mret (inr None)
      else if u64 (ph_vaddr ph + ph_memsz ph) <? ph_vaddr ph then mret (inr None)
      else
        sz ← on_mem (allocuvm pgdir sz (u64 (ph_vaddr ph + ph_memsz ph)));
        if sz =? 0 then mret (inr None)
        else if negb (ph_vaddr ph mod PGSIZE =? 0) then mret (inr None)
        else
          r ← loaduvm pgdir (ph_vaddr ph) ip (u32 (ph_off ph)) (u32 (ph_filesz ph));
          if r <? 0 then mret (inr None) else next sz
  else mret (inr (Some sz)).

(** Pushing the argument strings: the pointers and the stack pointer. *)
Fixpoint push_args (pgdir : Z) (argv : list (list Z)) (argc sp : Z) (ustack : list Z) : M xsys (option (list Z * Z)) :=
  match argv with
  | [] => mret (Some (ustack, sp))
  | arg :: argv =>
      if Z.of_nat MAXARG <=? argc then mret None
      else
        let sp := Z.land (u64 (sp - (Z.of_nat (length arg) + 1))) (u64 (-8)) in
        r ← on_mem (copyout pgdir sp (arg ++ [0]));
        if r <? 0 then mret None else push_args pgdir argv (argc + 1) sp (ustack ++ [sp])
  end.

(** [bad:] with the address space built so far, if any, and the inode while
    it is locked. *)
Definition bad (pgdir : Z) (ip : option nat) : M xsys Z :=
  (if pgdir =? 0 then mret tt else on_mem (freevm pgdir));;
  (match ip with
   | Some ip => on_kfs (iunlockput mypid ip);; on_kfs (on_log (end_op mypid))
   | None => mret tt
   end);;
  mret (-1).

(** From the check of the ELF header to the loaded program: the header, the
    page table and the size, or what [goto bad] finds in [pgdir]. *)
Definition load_program (ip : nat) : M xsys (Z + (elfhdr * Z * Z)) :=
  rd ← readi' ip 0 sizeof_elfhdr;
  if negb (rd.1 =? sizeof_elfhdr) then mret (inl 0)
  else
    let elf := decode_elf rd.2 in
    if negb (eh_magic elf =? ELF_MAGIC) then mret (inl 0)
    else
      pgdir ← on_mem setupkvm;
      if pgdir =? 0 then mret (inl 0)
      else
        r ← while (S (Z.to_nat (eh_phnum elf))) (seg_step pgdir ip (eh_phnum elf)) (0, s32 (eh_phoff elf), PGSIZE);
        match r with
        | None => mret (inl pgdir)
        | Some sz => mret (inr (elf, pgdir, sz))
        end.

(** The stack: a guard page, the strings and the array of their addresses.
    The result is the size and the stack pointer. *)
Definition build_stack (pgdir sz : Z) (argv : list (list Z)) : M xsys (option (Z * Z)) :=
  let sz := PGROUNDUP sz in
  sz ← on_mem (allocuvm pgdir sz (u64 (sz + 2 * PGSIZE)));
  if sz =? 0 then mret None
  else
    on_mem (clearpteu pgdir (u64 (sz - 2 * PGSIZE)));;
    r ← push_args pgdir argv 0 sz [];
    match r with
    | None => mret None
    | Some (ptrs, sp) =>
        let argc := Z.of_nat (length ptrs) in
        set_regs (fun g => mkRegs argc (u64 (sp - (argc + 1) * 8)) (r_rip g) (r_rcx g) (r_rsp g));;
        let sp := u64 (sp - (1 + argc + 1) * 8) in
        r ← on_mem (copyout pgdir sp (concat (map (le_bytes 8) ([2 ^ 64 - 1] ++ ptrs ++ [0]))));
        if r <? 0 then mret None else mret (Some (sz, sp))
    end.

Definition exec (path : list Z) (argv : list (list Z)) : M xsys Z :=
  p ← on_vm (vproc_of mypid);
  on_kfs (on_log begin_op);;
  ip ← on_kfs (namei mypid cwd devsw_read path);
  match ip with
  | None => on_kfs (on_log (end_op mypid));; mret (-1)
  | Some ip =>
      on_kfs (ilock mypid (Some ip));;
      r ← load_program ip;
      match r with
      | inl pgdir => bad pgdir (Some ip)
      | inr (elf, pgdir, sz) =>
          on_kfs (iunlockput mypid ip);;
          on_kfs (on_log (end_op mypid));;
          r ← build_stack pgdir sz argv;
          match r with
          | None => bad pgdir None
          | Some (sz, sp) =>
              last ← of_option OutOfBounds (last_elem path path);
              nm ← gets x_name;
              nm ← of_option OutOfBounds (safestrcpy nm last 16);
              set_name nm;;
              on_vm (set_vproc mypid (VProc pgdir sz (p_kstack p)));;
              set_regs (fun g => mkRegs (r_rdi g) (r_rsi g) (eh_entry elf) (eh_entry elf) sp);;
              on_mem (freevm (p_pgdir p));;
              mret 0
          end
      end
  end.
End exec.
