(* ===== verification/ExecMem.v ===== *)
(** * ExecMem: address spaces that are being built

    What [exec] needs beside the operations of VmProc: the guard page of the
    stack, and a new address space beside those of the processes, which is
    thrown away or put in place of an old one. *)
From S2P Require Import Prelude Mmu Kalloc PgTable Vm VmWalk VmSpace VmProc VmSystem.

Section execmem.
Context `{Kernel}.
Implicit Types (m : Z -> Z) (d va : Z) (k : kmem) (s : vsys).

(** ** The guard page *)

Lemma ldiff_user x : PTE_ADDR (Z.ldiff x PTE_U) = PTE_ADDR x /\ pte_p (Z.ldiff x PTE_U) = pte_p x /\ PTE_FLAGS (Z.ldiff x PTE_U) = Z.ldiff (PTE_FLAGS x) PTE_U.
Proof.
  assert (Hm : forall M, Z.testbit M 2 = false -> Z.land (Z.ldiff x PTE_U) M = Z.land x M).
  { intros M HM. apply Z.bits_inj'. intros i Hi. rewrite !Z.land_spec, Z.ldiff_spec. destruct (decide (i = 2)) as [->|Hne]; [by rewrite HM, !andb_false_r|].
    assert (Z.testbit PTE_U i = false) as ->; [|by rewrite andb_true_r]. change PTE_U with (2 ^ 2). apply Z.pow2_bits_false. lia. }
  split; [unfold PTE_ADDR; by apply Hm|]. split; [unfold pte_p; by rewrite Hm|].
  unfold PTE_FLAGS. apply Z.bits_inj'. intros i Hi. rewrite !Z.land_spec, !Z.ldiff_spec, Z.land_spec. by destruct (Z.testbit x i), (Z.testbit PTE_U i), (Z.testbit 0xFFF i).
Qed.

Lemma ldiff_user_range x : 0 <= x < 2 ^ 64 -> 0 <= Z.ldiff x PTE_U < 2 ^ 64.
Proof.
  intros Hx. assert (E : Z.ldiff x PTE_U = Z.land (Z.ldiff x PTE_U) (Z.ones 64)).
  { rewrite <- (Z.mod_small x (2 ^ 64)), <- Z.land_ones by lia. apply Z.bits_inj'. intros i Hi. rewrite !Z.land_spec, !Z.ldiff_spec, !Z.land_spec.
    by destruct (Z.testbit x i), (Z.testbit PTE_U i), (Z.testbit (Z.ones 64) i). }
  rewrite E, Z.land_ones by lia. by apply Z.mod_pos_bound.
Qed.

(** The page of [va] is not for the user. *)
Definition guarded va (V : Z -> option (Z * Z)) (y : Z) : option (Z * Z) :=
  if decide (y / PGSIZE = va / PGSIZE) then (fun x => (x.1, Z.ldiff x.2 PTE_U)) <$> V y else V y.

Lemma clearpteu_spec k free d va : space k free d -> user va -> uview (km_mem k) d va <> None ->
  wp (clearpteu d va) (fun _ k' => vstep d k k' free free /\ forall y, user y -> uview (km_mem k') d y = guarded va (uview (km_mem k) d) y) no_halt k.
Proof.
  intros Hsp Hu Hmap. pose proof (user_range4 va Hu) as Hv. set (v := va / PGSIZE) in *. set (m := km_mem k) in *. set (e := root d).
  destruct (pte 4 m e v) as [x|] eqn:Hx; [|by destruct Hmap; apply uview_none].
  destruct (pte_present m e v x Hx) as (Hp & a & Hsl & Ex). destruct (ldiff_user x) as (E1 & E2 & E3). set (x' := Z.ldiff x PTE_U) in *.
  destruct (sp_nodups _ _ _ Hsp) as (Hnd & Hndt & _ & Htok & _). fold m e in Hnd, Hndt, Htok.
  unfold clearpteu. wp_step. apply wp_lookup; [apply Hsp|done|]. fold m e v. rewrite Hsl. unfold load64, store64. do 2 wp_step. wp_step. fold m. rewrite Ex. fold x'.
  assert (Hr : 0 <= x' < 2 ^ 64) by (apply ldiff_user_range; rewrite <- Ex; apply read64_range; apply Hsp).
  destruct (tree_write 4 m e v a x') as (T & F & P); [lia|done..|]. rewrite Ex in F. unfold leaf, sub in F. rewrite E2, Hp in F.
  assert (Ec : child x' = child x) by (unfold child; by rewrite E1). rewrite Ec in F. apply Permutation_app_inv_l in F.
  destruct (free_list_write k free a x' 4 e v) as [Hf2 (t & Ht & St)]; [apply Hsp|done| |lia|done|done|].
  { apply NoDup_app in Hnd as (_ & Hd & _). exact Hd. }
  fold m in Hf2, Ht, St.
  assert (Hperm : free ++ pages (write64 a x' m) d ≡ₚ free ++ pages m d) by (unfold pages; fold e; by rewrite T, F).
  split; [split|]; cbn [km_mem set_mem km_pdpt]; fold m.
  - split; [done|apply Hsp| |]; cbn [km_mem set_mem]; fold m; [|rewrite Hperm; apply Hsp]. unfold pages. fold e. rewrite T, F. apply Hsp.
  - done.
  - eapply same_except_weaken; [|exact St]. unfold pages. fold e. intros p ->%list_elem_of_singleton. in_lists.
  - done.
  - intros y Hy. pose proof (user_range4 y Hy) as Hw. unfold guarded. fold v. destruct (decide (y / PGSIZE = v)) as [Ew|Ew].
    + unfold uview. fold e. rewrite P, decide_True, E2, Hp, Ew, Hx by done. cbn [fmap option_fmap option_map fst snd]. rewrite Ec, E3. do 3 f_equal.
      destruct (mapped_frame _ _ _ _ _ Hsp Hv Hx) as (Hok & _ & _ & Hnt). fold m e in Hnt. apply St. intros q ->%list_elem_of_singleton Hin.
      apply Hnt. assert (child x = t) as ->; [|done]. rewrite Forall_forall in Htok. eapply pages_apart; [done|by apply Htok| |exact Hin].
      pose proof (Z.mod_pos_bound y PGSIZE ltac:(done)). unfold in_page. lia.
    + apply uview_ext; fold e; [by rewrite P, decide_False|]. intros z Hz. destruct (mapped_frame _ _ _ _ _ Hsp Hw Hz) as (Hoky & _ & _ & Hny). fold m e in Hny.
      rewrite Forall_forall in Htok. eapply same_except_page; [| | |exact St]; [constructor; [by apply Htok|constructor]|done|]. intros E%list_elem_of_singleton. apply Hny. by rewrite E.
Qed.

(** Nothing is written at an address of the guard page. *)
Lemma copyout_guard k d va bs b f : page_ok d -> user va -> uview (km_mem k) d va = Some (b, f) -> Z.testbit f 2 = false -> bs <> [] ->
  copyout d va bs k = (Ret (-1), k).
Proof.
  intros Hd Hu Hv Hf Hbs. destruct bs as [|b0 bs]; [done|]. destruct (page_of va _ Hu eq_refl) as (Hu0 & _ & Ed & _).
  unfold uview in Hv. destruct (pte 4 (km_mem k) (root d) (va / PGSIZE)) as [x|] eqn:Hx; [|done]. injection Hv as _ <-.
  destruct (pte_present _ _ _ _ Hx) as (Hp & a & Hsl & Ex).
  assert (Hux : pte_u x = false).
  { unfold PTE_FLAGS in Hf. rewrite Z.land_spec, andb_true_r in Hf. unfold pte_u, PTE_U. apply negb_false_iff, Z.eqb_eq, Z.bits_inj'. intros i Hi.
    rewrite Z.land_spec, Z.bits_0. destruct (decide (i = 2)) as [->|Hne]; [by rewrite Hf|]. change 4 with (2 ^ 2). by rewrite Z.pow2_bits_false, andb_false_r by lia. }
  unfold copyout. cbn [while copyout_step length]. unfold mbind, M_bind. unfold uva2ka, mbind, M_bind.
  rewrite walkpgdir_lookup by done. rewrite Ed, Hsl. unfold load64, gets. rewrite Ex, Hp, Hux. done.
Qed.

(** ** An address space beside those of the processes *)

(** Pages that were free and are free again. *)
Lemma vrel_frame all kern s A free k2 free2 :
  vrel all kern s A -> free ++ kern ++ owned (km_mem (v_km s)) (v_procs s) ≡ₚ all ->
  free_list k2 free2 -> free2 ≡ₚ free -> same_except free (km_mem (v_km s)) (km_mem k2) -> vrel all kern (VSys k2 (v_procs s)) A.
Proof.
  intros [_ [Hnd Hok] Hdom Hprocs] Hall Hf2 Hperm Hsame. pose proof Hnd as Hnd'. pose proof Hok as Hok'. rewrite <- Hall in Hnd', Hok'.
  apply NoDup_app in Hnd' as (_ & Hdis & _). apply Forall_app in Hok' as [Hok1 [_ Hok2]%Forall_app].
  destruct (procs_frame (km_mem (v_km s)) (km_mem k2) (v_procs s) free) as [Eo Hpf]; [done|done|done| |].
  { intros q Hq Hq'. apply (Hdis q Hq'). in_lists. }
  split; cbn [v_km v_procs]; [|done|done|].
  - exists free2. split; [done|]. by rewrite Eo, Hperm.
  - intros pid p x Hp Hx. apply (Hpf pid); [done|by apply (Hprocs pid)].
Qed.

(** A new address space that is thrown away. *)
Lemma discard_spec all kern s A free k free' d :
  vrel all kern s A -> free ++ kern ++ owned (km_mem (v_km s)) (v_procs s) ≡ₚ all -> fresh d (v_km s) k free free' ->
  wp (freevm d) (fun _ k' => vrel all kern (VSys k' (v_procs s)) A) no_halt k.
Proof.
  intros HR Hall [Hsp Hperm Hsame _]. eapply wp_conseq; [by apply freevm_spec|]. intros _ k' (free2 & Hf2 & E2 & S2 & _).
  eapply vrel_frame; [done|done|done|by rewrite E2, Hperm|]. eapply same_except_trans; [exact Hsame|]. eapply same_except_weaken; [|exact S2].
  intros p Hp. rewrite <- Hperm. in_lists.
Qed.

(** A new address space in place of that of a process. *)
Lemma replace_spec all kern s A free k free' d pid p x sz x' :
  vrel all kern s A -> free ++ kern ++ owned (km_mem (v_km s)) (v_procs s) ≡ₚ all -> v_procs s !! pid = Some p -> A !! pid = Some x ->
  fresh d (v_km s) k free free' -> proc_ok (km_mem k) (VProc d sz (p_kstack p)) x' ->
  wp (freevm (p_pgdir p)) (fun _ k' => vrel all kern (VSys k' (<[pid := VProc d sz (p_kstack p)]> (v_procs s))) (<[pid := x']> A)) no_halt k.
Proof.
  intros [_ [Hnd Hok] Hdom Hprocs] Hall Hp Hx [Hsp Hperm Hsame _] Hpo. set (m0 := km_mem (v_km s)) in *. set (m := km_mem k) in *. set (old := p_pgdir p) in *.
  assert (Hall' : (free ++ pages m0 old) ++ p_kstack p :: kern ++ owned m0 (delete pid (v_procs s)) ≡ₚ all).
  { rewrite <- Hall, (owned_delete _ _ _ _ Hp), <- app_assoc. apply Permutation_app; [done|]. unfold owned_by.
    rewrite (Permutation_app_swap_app kern). cbn [app]. by rewrite <- Permutation_middle. }
  pose proof Hnd as Hnd'. pose proof Hok as Hok'. rewrite <- Hall' in Hnd', Hok'.
  apply NoDup_app in Hnd' as (Hnd1 & Hdis & _). apply Forall_app in Hok' as [Hok1 [_ [_ Hok2]%Forall_app]%Forall_cons].
  pose proof Hok1 as [Hokf Hoko]%Forall_app. pose proof Hnd1 as (_ & Hdo & _)%NoDup_app.
  destruct (view_frame m0 m old free) as (Ep & _); [done|done|done| |]. { intros q Hq Hq'. by apply (Hdo q). }
  assert (Hso : space k free' old).
  { split; fold m; rewrite ?Ep; [apply Hsp|by apply (Hprocs pid p x)|done|]. rewrite <- Hperm in Hnd1. fold m in Hnd1.
    rewrite <- app_assoc, Permutation_app_swap_app in Hnd1. by apply NoDup_app in Hnd1 as (_ & _ & ?). }
  eapply wp_conseq; [by apply freevm_spec|]. fold m. rewrite Ep. intros _ k' (free2 & Hf2 & E2 & S2 & _). fold m in S2.
  destruct (view_frame m (km_mem k') d (pages m0 old)) as (Ed & _ & _ & HU); [apply Hsp|done|done| |].
  { intros q Hq Hq'. apply (Hdo q); [|done]. rewrite <- Hperm. fold m. in_lists. }
  destruct (procs_frame m0 (km_mem k') (delete pid (v_procs s)) (free ++ pages m0 old)) as [Eo Hpf]; [done|done| | |].
  { eapply same_except_trans; eapply same_except_weaken; [|exact Hsame| |exact S2]; intros q Hq; in_lists. }
  { intros q Hq Hq'. apply (Hdis q Hq'). in_lists. }
  split; cbn [v_km v_procs]; [|done| |].
  - exists free2. split; [done|]. rewrite owned_insert, Eo, E2, <- Hall', <- Hperm. fold m. unfold owned_by. cbn [p_kstack p_pgdir]. rewrite Ed, <- !app_assoc.
    apply Permutation_app; [done|]. rewrite (Permutation_app_swap_app (pages m d)). apply Permutation_app; [done|].
    rewrite (Permutation_app_swap_app kern). cbn [app]. rewrite <- Permutation_middle. done.
  - intros pid'. rewrite !lookup_insert_is_Some'. by rewrite Hdom.
  - intros pid' q y. rewrite !lookup_insert_Some. intros [[<- <-]|[Hne Hq]] [[? <-]|[? Hy]]; try done.
    + destruct Hpo as [P1 P2 P3 P4 P5]. split; [done..| |done]. cbn [p_pgdir] in *. intros va Hva. by rewrite HU, P4.
    + apply (Hpf pid'); [by rewrite lookup_delete_ne|by apply (Hprocs pid')].
Qed.
End execmem.
