(* ===== verification/ExecSpec.v ===== *)
(** * ExecSpec: what running a program means

    The address space and the registers a program starts with, as a function
    of the bytes of the executable and of its arguments. *)
From S2P Require Import Prelude FsFormat Mmu Kalloc Vm VmSpace VmProc VmSystem Exec ExecMem.

(** What the process sees. *)
Abbreviation umem := (Z -> option (Z * Z)).

(** The result of [readi] on a file with contents [c]. *)
Definition fread (c : list Z) (off n : Z) : Z * list Z :=
  if Z.of_nat (length c) <? off then (-1, [])
  else let k := Z.min n (Z.of_nat (length c) - off) in (k, slice (Z.to_nat off) (Z.to_nat k) c).

(** Zeroed pages up to [newsz]. *)
Definition zeroed (sz newsz : Z) (V : umem) : umem := fun va =>
  if decide (PGROUNDUP sz <= va < PGROUNDUP newsz) then Some (0, 7) else V va.
Definition enlarge (sz newsz : Z) (V : umem) : Z * umem := if newsz <? sz then (sz, V) else (newsz, zeroed sz newsz V).

(** The bytes of a segment that are in the file. *)
Definition aload (c : list Z) (va off n : Z) (V : umem) : option umem :=
  if ((n =? 0) || (off + n <=? Z.of_nat (length c)))%bool then Some (uwrite va (slice (Z.to_nat off) (Z.to_nat n) c) V) else None.

Definition aseg (c : list Z) (ph : proghdr) (sz : Z) (V : umem) : option (Z * umem) :=
  if negb (ph_type ph =? ELF_PROG_LOAD) then Some (sz, V)
  else if ph_memsz ph <? ph_filesz ph then None
  else if u64 (ph_vaddr ph + ph_memsz ph) <? ph_vaddr ph then None
  else
    let x := enlarge sz (ph_vaddr ph + ph_memsz ph) V in
    if negb (ph_vaddr ph mod PGSIZE =? 0) then None
    else pair x.1 <$> aload c (ph_vaddr ph) (u32 (ph_off ph)) (u32 (ph_filesz ph)) x.2.

(** Program header [i], as it is read. *)
Definition ph_read (c : list Z) (phoff i : Z) : Z * list Z := fread c (u32 (phoff + sizeof_proghdr * i)) sizeof_proghdr.

(** [n] program headers from the [i]-th on. *)
Fixpoint asegs (c : list Z) (phoff : Z) (n : nat) (i sz : Z) (V : umem) : option (Z * umem) :=
  match n with
  | O => Some (sz, V)
  | S n =>
      if negb ((ph_read c phoff i).1 =? sizeof_proghdr) then None
      else x ← aseg c (decode_ph (ph_read c phoff i).2) sz V; asegs c phoff n (i + 1) x.1 x.2
  end.

(** The strings below [sp] in a stack that ends at [bottom]: their addresses,
    the stack pointer and what the process sees. *)
Fixpoint apush (bottom : Z) (argv : list (list Z)) (argc sp : Z) (ptrs : list Z) (V : umem) : option (list Z * Z * umem) :=
  match argv with
  | [] => Some (ptrs, sp, V)
  | arg :: argv =>
      let sp := 8 * ((sp - (Z.of_nat (length arg) + 1)) / 8) in
      if Z.of_nat MAXARG <=? argc then None
      else if sp <? bottom then None
      else apush bottom argv (argc + 1) sp (ptrs ++ [sp]) (uwrite sp (arg ++ [0]) V)
  end.

(** The stack frame of [main]. *)
Definition frame (ptrs : list Z) : list Z := concat (map (le_bytes 8) ([2 ^ 64 - 1] ++ ptrs ++ [0])).

(** The size, the view, the stack pointer, argc and argv. *)
Definition astack (sz : Z) (V : umem) (argv : list (list Z)) : option (Z * umem * Z * Z * Z) :=
  let sz := PGROUNDUP sz in
  let top := sz + 2 * PGSIZE in
  '(ptrs, sp, V) ← apush (sz + PGSIZE) argv 0 top [] (guarded sz (zeroed sz top V));
  let argc := Z.of_nat (length ptrs) in
  let sp' := sp - (1 + argc + 1) * 8 in
  if sp' <? sz + PGSIZE then None else Some (top, uwrite sp' (frame ptrs) V, sp', argc, sp - (argc + 1) * 8).

Definition nothing : umem := fun _ => None.

(** The header, the size and the view of the loaded program. *)
Definition aprogram (c : list Z) : option (elfhdr * Z * umem) :=
  let x := fread c 0 sizeof_elfhdr in
  let elf := decode_elf x.2 in
  if negb (x.1 =? sizeof_elfhdr) then None
  else if negb (eh_magic elf =? ELF_MAGIC) then None
  else y ← asegs c (eh_phoff elf) (Z.to_nat (eh_phnum elf)) 0 PGSIZE nothing; Some (elf, y.1, y.2).

Definition aexec (c : list Z) (argv : list (list Z)) : option (uspace * uregs) :=
  '(elf, sz, V) ← aprogram c;
  '(sz, V, sp, argc, av) ← astack sz V argv;
  Some ((sz, V), mkRegs argc av (eh_entry elf) (eh_entry elf) sp).

(** ** Executables the kernel can load *)

(** Segments lie in the lower half of the address space of a process, and above
    the first page, which is not mapped. *)
Definition seg_ok (ph : proghdr) : bool :=
  (negb (ph_type ph =? ELF_PROG_LOAD) || (ph_memsz ph <? ph_filesz ph) || (u64 (ph_vaddr ph + ph_memsz ph) <? ph_vaddr ph) ||
   ((PGSIZE <=? ph_vaddr ph) && (ph_vaddr ph + ph_memsz ph <=? MAXSZ / 2)))%bool.

Definition loadable (c : list Z) : bool :=
  let elf := decode_elf (fread c 0 sizeof_elfhdr).2 in
  forallb (fun i => let x := ph_read c (eh_phoff elf) i in (negb (x.1 =? sizeof_proghdr) || seg_ok (decode_ph x.2))%bool) (seqZ 0 (eh_phnum elf)).

(** ** Sizes and the stack *)

Section views.
Context `{Kernel}.
Implicit Types (V W : umem).

(** What is mapped, from the second page on. *)
Definition sized (sz : Z) V : Prop := PGSIZE <= sz <= MAXSZ / 2 + 2 * PGSIZE /\ forall y, user y -> (V y <> None <-> PGSIZE <= y < PGROUNDUP sz).

Lemma roundup_le a b : 0 <= a <= b -> b <= USERTOP -> PGROUNDUP a <= PGROUNDUP b.
Proof.
  intros Ha Hb. destruct (npages_user a) as [_ ->]; [lia|]. destruct (npages_user b) as [_ ->]; [lia|]. pose proof (npages_mono a b). unfold PGSIZE. lia.
Qed.

Lemma roundup_ge a : 0 <= a <= USERTOP -> a <= PGROUNDUP a < a + PGSIZE.
Proof.
  intros Ha. destruct (npages_user a) as [_ ->]; [lia|]. unfold npages, PGSIZE. pose proof (Z.div_mod (a + 4096 - 1) 4096 ltac:(lia)). pose proof (Z.mod_pos_bound (a + 4096 - 1) 4096). lia.
Qed.

Lemma enlarge_sized sz newsz V : sized sz V -> newsz <= MAXSZ / 2 + 2 * PGSIZE -> sized (enlarge sz newsz V).1 (enlarge sz newsz V).2.
Proof.
  intros [Hsz HV] Hn. unfold enlarge. destruct (Z.ltb_spec newsz sz) as [Hlt|Hge]; [done|]. split; [cbn; lia|]. intros y Hy. cbn [fst snd]. unfold zeroed.
  assert (newsz <= USERTOP) by (unfold MAXSZ, USERTOP, PGSIZE in *; change (2 ^ 32 / 2) with (2 ^ 31) in *; lia).
  pose proof (roundup_le sz newsz ltac:(unfold PGSIZE in *; lia) ltac:(lia)). pose proof (roundup_ge sz ltac:(unfold PGSIZE in *; lia)).
  case_decide as Hd; [|rewrite HV by done; unfold PGSIZE in *; lia]. split; [intros _; unfold PGSIZE in *; lia|done].
Qed.

Lemma uwrite_some va bs V y : uwrite va bs V y <> None <-> V y <> None.
Proof.
  unfold uwrite. case_decide as Hd; [|done]. destruct (V y) as [[b f]|]; [|done]. by destruct (lookup_lt_is_Some_2 bs (Z.to_nat (y - va))) as [b' ->]; [lia|].
Qed.

Lemma uwrite_sized sz va bs V : sized sz V -> sized sz (uwrite va bs V).
Proof. intros [Hsz HV]. split; [done|]. intros y Hy. rewrite uwrite_some. by apply HV. Qed.

Lemma field_range off n bs : bytes_ok bs -> 0 <= field off n bs < 256 ^ Z.of_nat n.
Proof.
  intros Hbs. unfold field. pose proof (le_Z_range (slice off n bs)) as Hr. assert (bytes_ok (slice off n bs)) by (by apply Forall_slice). specialize (Hr ltac:(done)).
  assert (length (slice off n bs) <= n)%nat by (unfold slice; rewrite length_take; lia).
  pose proof (Z.pow_le_mono_r 256 (Z.of_nat (length (slice off n bs))) (Z.of_nat n)). lia.
Qed.

Lemma u32_s32 x : u32 (s32 x) = u32 x.
Proof.
  unfold u32, s32. rewrite Zminus_mod_idemp_l. f_equal. lia.
Qed.

Lemma nothing_sized : sized PGSIZE nothing.
Proof. split; [by vm_compute|]. intros y _. change (PGROUNDUP PGSIZE) with PGSIZE. unfold nothing. split; [done|lia]. Qed.

Lemma align8 x : 0 <= x < 2 ^ 64 -> Z.land x (u64 (-8)) = 8 * (x / 8).
Proof.
  intros Hx. change (u64 (-8)) with (Z.ldiff (Z.ones 64) (Z.ones 3)). rewrite Z.ldiff_land, Z.land_assoc, Z.land_ones, Z.mod_small by lia.
  rewrite <- Z.ldiff_land, Z.ldiff_ones_r by lia. rewrite Z.shiftr_div_pow2, Z.shiftl_mul_pow2 by lia. change (2 ^ 3) with 8. lia.
Qed.

(** The guard page at [base] and the stack page above it. *)
Definition stack_ok (base : Z) W : Prop :=
  PGSIZE <= base <= MAXSZ / 2 /\ base mod PGSIZE = 0 /\
  (forall y, base + PGSIZE <= y < base + 2 * PGSIZE -> exists b, W y = Some (b, 7)) /\
  (forall y, base <= y < base + PGSIZE -> exists b, W y = Some (b, 3)).

Lemma uwrite_flags va bs W y b f : W y = Some (b, f) -> exists b', uwrite va bs W y = Some (b', f).
Proof.
  intros E. unfold uwrite. rewrite E. case_decide; [|by eauto]. destruct (lookup_lt_is_Some_2 bs (Z.to_nat (y - va))) as [b' ->]; [lia|by eauto].
Qed.

Lemma stack_uwrite base va bs W : stack_ok base W -> stack_ok base (uwrite va bs W).
Proof.
  intros (A1 & A2 & A3 & A4). split_and!; [lia|lia|done| |]; intros y Hy; [destruct (A3 y Hy) as [b E]|destruct (A4 y Hy) as [b E]]; by eapply uwrite_flags.
Qed.

Definition arg_ok (arg : list Z) : Prop := Z.of_nat (length arg) + 8 <= PGSIZE /\ bytes_ok arg.

Lemma frame_length ptrs : Z.of_nat (length (frame ptrs)) = (1 + Z.of_nat (length ptrs) + 1) * 8.
Proof.
  unfold frame. rewrite length_concat, !map_app, !map_map, !list_sum_app. cbn [map list_sum foldr]. rewrite !length_le_bytes.
  assert (E : list_sum (map (fun x => length (le_bytes 8 x)) ptrs) = (8 * length ptrs)%nat); [|rewrite E; lia].
  induction ptrs as [|p ptrs IH]; [done|]. change (length (le_bytes 8 p) + list_sum (map (fun x => length (le_bytes 8 x)) ptrs) = 8 * S (length ptrs))%nat. rewrite IH, length_le_bytes. lia.
Qed.

Lemma frame_bytes ptrs : bytes_ok (frame ptrs).
Proof. unfold frame. apply Forall_concat, Forall_map, Forall_true. intros x. apply le_bytes_ok. Qed.

Lemma roundup_aligned x : 0 <= x <= USERTOP -> x mod PGSIZE = 0 -> PGROUNDUP x = x.
Proof.
  intros Hx E. destruct (npages_user x) as [_ ->]; [done|]. unfold npages, PGSIZE in *. pose proof (Z.div_mod x 4096 ltac:(lia)).
  replace (x + 4096 - 1) with (x / 4096 * 4096 + 4095) by lia. rewrite Z.div_add_l by lia. change (4095 / 4096) with 0. lia.
Qed.

Lemma roundup_base sz : PGSIZE <= sz <= MAXSZ / 2 -> let base := PGROUNDUP sz in
  PGSIZE <= base <= MAXSZ / 2 /\ base mod PGSIZE = 0 /\ PGROUNDUP base = base /\ PGROUNDUP (base + 2 * PGSIZE) = base + 2 * PGSIZE.
Proof.
  intros Hsz base. change (MAXSZ / 2) with (2 ^ 31) in *. assert (Htop : 2 ^ 31 + 2 * PGSIZE <= USERTOP) by by vm_compute.
  pose proof (roundup_ge sz ltac:(unfold PGSIZE in *; lia)) as Hge. pose proof (roundup_le sz (2 ^ 31) ltac:(unfold PGSIZE in *; lia) ltac:(unfold PGSIZE in *; lia)) as Hle.
  change (PGROUNDUP (2 ^ 31)) with (2 ^ 31) in Hle. fold base in Hge, Hle. assert (E : base mod PGSIZE = 0).
  { unfold base. destruct (npages_user sz) as [_ ->]; [unfold PGSIZE in *; lia|]. rewrite Z.mul_comm. by apply Z.mod_mul. }
  split; [lia|]. split; [done|]. split; apply roundup_aligned; try (unfold PGSIZE in *; lia). by rewrite Z.mod_add.
Qed.

Lemma stack_made sz V : sized sz V -> sz <= MAXSZ / 2 -> let base := PGROUNDUP sz in let W := guarded base (zeroed base (base + 2 * PGSIZE) V) in
  stack_ok base W /\ sized (base + 2 * PGSIZE) W.
Proof.
  intros [Hsz HV] Hle base W. destruct (roundup_base sz ltac:(lia)) as (B1 & B2 & B3 & B4). fold base in B1, B2, B3, B4. unfold sized, stack_ok. rewrite B4. change (MAXSZ / 2) with (2 ^ 31) in *.
  pose proof (Z.div_mod base PGSIZE ltac:(done)) as Eb.
  assert (HW : forall y, base <= y < base + 2 * PGSIZE -> W y = Some (0, if decide (y < base + PGSIZE) then 3 else 7)).
  { intros y Hy. unfold W, guarded, zeroed. rewrite B3, B4, (decide_True (P := base <= y < base + 2 * PGSIZE)) by done.
    pose proof (Z.div_mod y PGSIZE ltac:(done)). pose proof (Z.mod_pos_bound y PGSIZE ltac:(done)). repeat case_decide; try done; exfalso; unfold PGSIZE in *; nia. }
  split; [split_and!; [lia|lia|done| |]; intros y Hy; rewrite HW by (unfold PGSIZE in *; lia); case_decide; eauto; exfalso; unfold PGSIZE in *; lia|]. split; [unfold PGSIZE in *; lia|].
  intros y Hu. destruct (decide (base <= y < base + 2 * PGSIZE)) as [Hi|Ho]; [rewrite HW by done; unfold PGSIZE in *; split; [lia|done]|].
  assert (E : W y <> None <-> V y <> None).
  { unfold W, guarded, zeroed. rewrite B3, B4, (decide_False (P := base <= y < base + 2 * PGSIZE)) by done. case_decide; [|done]. by destruct (V y). }
  rewrite E, HV by done. fold base. unfold PGSIZE in *. lia.
Qed.
End views.
