(* ===== verification/ExecProof.v ===== *)
(** * ExecProof: exec loads the program it is given *)
From S2P Require Import Prelude CString FsFormat Bio Log LogProof LogTx LogAdmit KFs KFsProof.
From S2P Require Import Mmu Kalloc PgTable Vm VmWalk VmSpace VmProc VmSystem.
From S2P Require Import Mkfs MkfsData MkfsProof MkfsTheorems KRead Exec ExecMem ExecSpec.

(** ** Parts of the state *)

Definition xoom (h : halt) (s : xsys) : Prop := h = Panic "Out of memory!".

Definition with_mem (k : kmem) (s : xsys) : xsys := XSys (VSys k (v_procs (x_vm s))) (x_fs s) (x_regs s) (x_name s).
Definition with_fs (f : kfs) (s : xsys) : xsys := XSys (x_vm s) f (x_regs s) (x_name s).

Lemma wp_on_mem `{Kernel} {A} (c : MK A) (Q : A -> xsys -> Prop) s :
  wp c (fun a k => Q a (with_mem k s)) oom (v_km (x_vm s)) -> wp (on_vm (on_km c)) Q xoom s.
Proof. unfold wp, on_vm, on_km, oom, xoom. by destruct (c (v_km (x_vm s))) as [[a|h] k]. Qed.

Lemma wp_on_kfs {A} (c : M kfs A) (Q : A -> xsys -> Prop) s :
  wp c (fun a f => Q a (with_fs f s)) no_halt (x_fs s) -> wp (on_kfs c) Q xoom s.
Proof. unfold wp, on_kfs, no_halt, xoom. by destruct (c (x_fs s)) as [[a|h] k]. Qed.

Section execproof.
Context `{Kernel}.
Context (mypid : Z) (cwd : nat) (devsw_read : Z -> option (nat -> Z -> Z -> M kfs (Z * list Z))).
(** An idle log on a disk that holds an image, and the state exec starts in. *)
Context (g : log) (c0 : bcache) (v : Z -> list Z) (img : list (list Z)) (room : nat).
Context (Hv : forall b, 0 <= b < FSSIZE -> v b = blk img b) (Hsize : disksize c0 = FSSIZE).
Context (s0 : xsys) (free : list Z).
Implicit Types (V W : umem) (d : Z) (s : xsys) (l : list inode) (c : list Z).

Abbreviation kstate' := (kstate g c0 v room).

(** No operation is open. *)
Definition kidle l (f : kfs) : Prop :=
  ls_log (k_log f) = set_outstanding 0 g /\ kstate' l (with_log (mkLsys g (ls_cache (k_log f))) f).

Lemma begin_op_idle l f : kidle l f -> wp (on_log begin_op) (fun _ f' => kstate' l f') no_halt f.
Proof.
  intros (Hg & Htx & Hsb & Hl). apply wp_on_log. unfold wp. rewrite begin_op_admit, Hg. unfold admit_op. cbn [set_outstanding lg_committing lg_n lg_outstanding].
  rewrite (tx_idle _ _ _ _ _ _ Htx), (lo_n _ _ _ (tx_ok _ _ _ _ _ _ Htx)). change (negb _) with false. cbv iota. change (_ <? _) with false. cbv iota. split; [|exact (conj Hsb Hl)].
  assert (E : set_outstanding (0 + 1) (set_outstanding 0 g) = g).
  { pose proof (tx_open _ _ _ _ _ _ Htx) as E. clear - E. destruct g. cbn in *. by subst. }
  cbn [with_log k_log] in Htx |- *. rewrite E. exact Htx.
Qed.

Lemma end_op_idle l f : kstate' l f -> wp (on_log (end_op mypid)) (fun _ f' => kidle l f') no_halt f.
Proof.
  intros (Htx & Hsb & Hl). apply wp_on_log. pose proof (tx_open _ _ _ _ _ _ Htx) as Ho. pose proof (tx_idle _ _ _ _ _ _ Htx) as Hc. pose proof (tx_log _ _ _ _ _ _ Htx) as Hg.
  pose proof (lo_n _ _ _ (tx_ok _ _ _ _ _ _ Htx)) as Hn. unfold wp. rewrite end_op_leave, Hg. unfold leave_op. cbn [set_outstanding lg_committing lg_outstanding]. rewrite Hc, Ho.
  change (1 - 1) with 0. change (0 =? 0) with true. cbn [negb]. cbv iota. change (lg_committing _) with 1. change (1 =? 0) with false. cbv iota.
  unfold mbind, M_bind, commit, mbind, M_bind, gets. cbn [ls_log lg_n set_outstanding set_committing]. rewrite Hn.
  cbn [length Z.of_nat Z.ltb Z.compare when]. unfold mret, M_ret, set_log, modify. cbn [ls_log ls_cache]. split; cbn [with_log k_log ls_log ls_cache].
  - clear - Hc. destruct g. unfold set_committing, set_outstanding. cbn in *. by subst.
  - split; [|done]. cbn [with_log k_log]. replace (mkLsys g (ls_cache (k_log f))) with (k_log f); [done|]. destruct (k_log f). cbn in *. by subst.
Qed.

(** ** Reading the executable *)

(** Inode [i] is that of a file with contents [c]. *)
Definition file_inode l (i : nat) c : Prop :=
  exists ip, l !! i = Some ip /\ i_dev ip = 1 /\ di_type (i_din ip) <> T_DEV /\ stores img (i_din ip) c /\ di_size (i_din ip) = Z.of_nat (length c).

Lemma xread l s i c off n (Q : Z * list Z -> xsys -> Prop) :
  kstate' l (x_fs s) -> file_inode l i c -> Z.of_nat (length c) < 2 ^ 30 -> 0 <= off -> 0 <= n < 2 ^ 30 ->
  (forall f, kstate' l f -> Q (fread c off n) (with_fs f s)) -> wp (on_kfs (readi mypid devsw_read i off n)) Q xoom s.
Proof using Hv Hsize.
  intros Hs (ip & Hi & Hdev & Ht & Hst & Hsz) Hc Hoff Hn HQ. apply wp_on_kfs. destruct (decide (Z.of_nat (length c) < off)) as [Hlt|Hge].
  - unfold readi. wp_step. eapply kthe_inode; [apply Hs|done|]. cbv zeta. rewrite (proj2 (Z.eqb_neq _ _) Ht), Hsz, (proj2 (Z.ltb_lt _ _) Hlt). cbn [orb]. wp_step.
    assert (E : fread c off n = (-1, [])) by (unfold fread; by rewrite (proj2 (Z.ltb_lt _ _) Hlt)). rewrite <- E. by apply HQ.
  - eapply wp_conseq; [eapply (kreadi mypid devsw_read g c0 v img room Hv Hsize l _ i ip c off n); try done; try lia; rewrite ?Hsz; unfold is_u32; lia|].
    cbv beta. rewrite Hsz. intros r f (Hf & ->). by apply HQ.
Qed.

(** ** The address space under construction *)

(** [d] was built from free pages of [s0] and holds [V]; the rest of the state
    is that of [s0] but for the file system. *)
Record built (F : kfs -> Prop) d V (rg : uregs) s : Prop := {
  bu_fs : F (x_fs s);
  bu_regs : x_regs s = rg;
  bu_name : x_name s = x_name s0;
  bu_procs : v_procs (x_vm s) = v_procs (x_vm s0);
  bu_fresh : exists free', fresh d (v_km (x_vm s0)) (v_km (x_vm s)) free free';
  bu_view : forall y, user y -> uview (km_mem (v_km (x_vm s))) d y = V y;
}.

Lemma built_ext F d V W rg s : (forall y, user y -> V y = W y) -> built F d V rg s -> built F d W rg s.
Proof. intros E [B1 B2 B3 B4 B5 B6]. split; [done..|]. intros y Hy. by rewrite B6, E. Qed.

Lemma built_fs F G d V rg s f : built F d V rg s -> G f -> built G d V rg (with_fs f s).
Proof. intros [B1 B2 B3 B4 B5 B6] Hf. by split. Qed.

Lemma built_regs F d V rg rg' s : built F d V rg s -> built F d V rg' (XSys (x_vm s) (x_fs s) rg' (x_name s)).
Proof. intros [B1 B2 B3 B4 B5 B6]. by split. Qed.

(** A step on its memory. *)
Lemma xmem {A} (m : MK A) F d V rg s (P : A -> umem -> Prop) :
  built F d V rg s ->
  (forall k free', space k free' d -> (forall y, user y -> uview (km_mem k) d y = V y) ->
     wp m (fun r k' => exists W free2, vstep d k k' free' free2 /\ (forall y, user y -> uview (km_mem k') d y = W y) /\ P r W) oom k) ->
  wp (on_vm (on_km m)) (fun r s' => exists W, built F d W rg s' /\ P r W) xoom s.
Proof.
  intros [B1 B2 B3 B4 (free' & B5) B6] Hm. apply wp_on_mem. eapply wp_conseq; [apply (Hm _ free'); [apply B5|done]|]. cbv beta.
  intros r k' (W & free2 & Hst & HU & HP). exists W. split; [|done]. split; [done..| |done]. exists free2. by eapply fresh_vstep.
Qed.

Lemma xalloc F d V rg s sz newsz : built F d V rg s -> sized sz V -> 0 <= newsz <= MAXSZ / 2 + 2 * PGSIZE ->
  wp (on_vm (on_km (allocuvm d sz newsz))) (fun r s' => r = (enlarge sz newsz V).1 /\ built F d (enlarge sz newsz V).2 rg s') xoom s.
Proof.
  intros Hb [Hsz HV] Hn. assert (Htop : newsz <= USERTOP) by (unfold MAXSZ, USERTOP, PGSIZE in *; change (2 ^ 32 / 2) with (2 ^ 31) in *; lia).
  eapply wp_conseq; [apply (xmem _ _ _ _ _ _ (fun r W => r = (enlarge sz newsz V).1 /\ forall y, user y -> W y = (enlarge sz newsz V).2 y) Hb)|].
  - intros k free' Hsp HU. unfold enlarge. destruct (Z.ltb_spec newsz sz) as [Hlt|Hge].
    + unfold allocuvm. rewrite (proj2 (Z.leb_gt _ _)) by (unfold USERTOP, KERNBASE in *; lia). rewrite (proj2 (Z.ltb_lt _ _)) by lia. wp_step.
      exists V, free'. split; [by apply vstep_refl|done].
    + eapply wp_conseq; [apply (allocuvm_spec k free'); [done|unfold PGSIZE in *; lia|done|]|].
      * intros y Hy. pose proof (roundup_ge sz ltac:(unfold PGSIZE in *; lia)). assert (Hu : user y) by (unfold user; unfold PGSIZE in *; lia).
        rewrite HU by done. destruct (V y) eqn:E; [|done]. destruct (proj1 (HV y Hu)); [by rewrite E|lia].
      * intros r k' (-> & free2 & Hst & HW). exists (zeroed sz newsz V), free2. split; [done|]. split; [|done]. intros y Hy. rewrite HW by done. unfold zeroed. by rewrite HU.
  - cbv beta. intros r s' (W & HW & -> & E). split; [done|]. by eapply built_ext.
Qed.

(** ** Loading a segment *)

Section load.
Context (l : list inode) (ino : nat) (c : list Z) (Hino : file_inode l ino c) (Hc : Z.of_nat (length c) < 2 ^ 30) (Hbytes : bytes_ok c).

Lemma fread_bytes off n : bytes_ok (fread c off n).2 /\ Z.of_nat (length (fread c off n).2) <= Z.max 0 n.
Proof.
  unfold fread. destruct (Z.ltb_spec (Z.of_nat (length c)) off) as [Hlt|Hge]; cbn [snd]; [split; [constructor|cbn; lia]|].
  split; [by apply Forall_slice|]. unfold slice. rewrite length_take. lia.
Qed.

Lemma load_page d V rg s addr off sz i :
  built (kstate' l) d V rg s -> user (addr + i) -> (addr + i) mod PGSIZE = 0 -> V (addr + i) <> None -> 0 <= i < sz -> sz < 2 ^ 32 - PGSIZE ->
  let n := Z.min (sz - i) PGSIZE in let x := fread c (u32 (off + i)) n in
  wp (load_step mypid devsw_read d addr ino off sz i)
     (fun r s' => built (kstate' l) d (uwrite (addr + i) x.2 V) rg s' /\ r = if u32 x.1 =? n then inl (i + PGSIZE) else inr (-1)) xoom s.
Proof.
  intros Hb Hu Hal HV Hi Hsz n x. pose proof Hb as [B1 B2 B3 B4 (free' & B5) B6]. destruct s as [[k ps] f rg' nm]. cbn [x_vm x_fs x_regs x_name v_km v_procs] in *.
  unfold load_step. rewrite (proj2 (Z.ltb_lt i sz)) by lia. replace (u64 (addr + i)) with (addr + i) by (unfold u64; rewrite Z.mod_small; unfold user, USERTOP in *; lia).
  assert (En : (if sz - i <? PGSIZE then sz - i else PGSIZE) = n) by (unfold n; destruct (Z.ltb_spec (sz - i) PGSIZE); lia).
  rewrite <- B6 in HV by done. destruct (pte 4 (km_mem k) (root d) ((addr + i) / PGSIZE)) as [e|] eqn:He; [|by destruct HV; apply uview_none].
  destruct (pte_present _ _ _ _ He) as (Hp & a & Hsl & Ea). pose proof (fr_space _ _ _ _ _ B5) as Hsp.
  wp_step. apply wp_on_mem. apply wp_lookup; [apply Hsp|done|]. cbn [x_vm v_km]. rewrite Hsl. cbv beta iota. unfold with_mem; cbn [x_vm x_fs x_regs x_name v_procs].
  wp_step. apply wp_on_mem. unfold load64. wp_step. cbn [x_vm v_km]. rewrite Ea. unfold with_mem; cbn [x_vm x_fs x_regs x_name v_procs]. cbv zeta. rewrite En.
  wp_step. eapply (xread l _ ino c); [done|done|done|apply u32_range|unfold n, PGSIZE; lia|]. fold x. intros f' Hf'. cbn [with_fs x_vm x_fs x_regs x_name].
  wp_step. apply wp_on_mem. wp_step. cbn [x_vm v_km]. destruct (fread_bytes (u32 (off + i)) n) as [Hby Hlen]. fold x in Hby, Hlen.
  destruct (poke_page k free' d (addr + i) e x.2 (poke (child e) x.2 (km_mem k))) as [Hst HW]; [done|done|done| | | |].
  { apply mem_ok_poke; [apply Hsp|done]. } { rewrite Hal. unfold n, PGSIZE in *. lia. } { intros y. by rewrite Hal, Z.add_0_r. }
  assert (Hb' : built (kstate' l) d (uwrite (addr + i) x.2 V) rg (with_mem (set_mem (poke (child e) x.2 (km_mem k)) k) (XSys (VSys k ps) f' rg' nm))).
  { split; [done..| |]; unfold with_mem; cbn [x_vm v_km]; [exists free'; by eapply fresh_vstep|]. intros y Hy. rewrite HW by done. unfold uwrite. by rewrite B6. }
  unfold negb. destruct (u32 x.1 =? n); wp_step; split; try done. f_equal. rewrite u32_id; [done|]. unfold is_u32, PGSIZE in *. lia.
Qed.

Lemma fread_full off n : 0 <= off -> 0 < n < 2 ^ 30 ->
  if decide (off + n <= Z.of_nat (length c)) then fread c off n = (n, slice (Z.to_nat off) (Z.to_nat n) c) else u32 (fread c off n).1 <> n.
Proof using Hc.
  intros Hoff Hn. unfold fread. case_decide as Hd.
  - rewrite (proj2 (Z.ltb_ge _ _)) by lia. cbv zeta. by replace (Z.min n (Z.of_nat (length c) - off)) with n by lia.
  - destruct (Z.ltb_spec (Z.of_nat (length c)) off); cbn [fst]; [change (u32 (-1)) with (2 ^ 32 - 1); lia|]. rewrite u32_id by (unfold is_u32; lia). lia.
Qed.

Lemma uwrite_slices va off i n V y : (Z.to_nat off + Z.to_nat i <= length c)%nat -> 0 <= off -> 0 <= i -> 0 <= n ->
  uwrite (va + i) (slice (Z.to_nat (off + i)) (Z.to_nat n) c) (uwrite va (slice (Z.to_nat off) (Z.to_nat i) c) V) y =
  uwrite va (slice (Z.to_nat off) (Z.to_nat (i + n)) c) V y.
Proof.
  intros Hle Ho Hi Hn. assert (Hl : length (slice (Z.to_nat off) (Z.to_nat i) c) = Z.to_nat i) by (by apply length_slice).
  rewrite !Z2Nat.inj_add, <- slice_join, <- uwrite_app by done. by rewrite Hl, Z2Nat.id.
Qed.

Abbreviation loaded d rg r s' o := (match o with
  | Some W => r = 0 /\ built (kstate' l) d W rg s'
  | None => r = -1 /\ exists W, built (kstate' l) d W rg s'
  end).

Lemma xload d V rg s addr off n :
  built (kstate' l) d V rg s -> addr mod PGSIZE = 0 -> 0 <= addr -> 0 <= n -> addr + n <= MAXSZ / 2 + 2 * PGSIZE -> 0 <= off < 2 ^ 32 ->
  (forall y, addr <= y < addr + n -> V y <> None) ->
  wp (loaduvm mypid devsw_read d addr ino off n) (fun r s' => loaded d rg r s' (aload c addr off n V)) xoom s.
Proof.
  intros Hb Hal Ha Hn Htop Hoff HV. change (MAXSZ / 2) with (2 ^ 31) in Htop. unfold loaduvm. rewrite (proj2 (Z.eqb_eq _ _) Hal). cbn [negb].
  apply (wp_while (fun i s1 => exists j, i = PGSIZE * j /\ 0 <= j /\ let m := Z.min i n in
      built (kstate' l) d (uwrite addr (slice (Z.to_nat off) (Z.to_nat m) c) V) rg s1 /\ (m = 0 \/ off + m <= Z.of_nat (length c)))
    (fun i => Z.to_nat (npages n - i / PGSIZE))).
  - exists 0. cbv zeta. split_and!; [done|done| |left; lia]. rewrite Z.min_l by lia. eapply built_ext; [|exact Hb]. intros y _. by rewrite uwrite_other by (unfold slice; rewrite length_take; lia).
  - assert (npages n <= n / PGSIZE + 1); [|change (0 / PGSIZE) with 0; lia]. unfold npages. rewrite <- Z.div_add by done. apply Z.div_le_mono; unfold PGSIZE; lia.
  - intros i s1 (j & -> & Hj & Hb1 & Hm). cbv zeta in *. set (i := PGSIZE * j) in *. destruct (decide (i < n)) as [Hlt|Hge].
    + rewrite (Z.min_l i n) in Hb1, Hm by lia. assert (Hi0 : 0 <= i) by (unfold i, PGSIZE; lia).
      assert (Hsl : Z.of_nat (length (slice (Z.to_nat off) (Z.to_nat i) c)) <= i) by (unfold slice; rewrite length_take; lia).
      eapply wp_conseq; [apply (load_page d _ rg s1 addr off n i Hb1); [unfold user, USERTOP, PGSIZE in *; lia| | |lia|unfold PGSIZE in *; lia]|].
      * unfold i. by rewrite Z.mul_comm, Z.mod_add.
      * rewrite uwrite_other by lia. apply HV. lia.
      * cbv beta. intros r s2 [Hb2 ->]. set (nn := Z.min (n - i) PGSIZE) in *. assert (Hnn : 0 < nn < 2 ^ 30) by (unfold nn, PGSIZE; lia).
        assert (Eo : u32 (off + i) = off + i) by (apply u32_id; unfold is_u32; lia). rewrite Eo in Hb2 |- *. pose proof (fread_full (off + i) nn ltac:(lia) Hnn) as Hfr. case_decide as Hd.
        -- rewrite Hfr in Hb2 |- *. cbn [fst snd] in *. rewrite u32_id, Z.eqb_refl by (unfold is_u32; lia). split.
           ++ exists (j + 1). cbv zeta. replace (Z.min (i + PGSIZE) n) with (i + nn) by (unfold nn; lia). split_and!; [unfold i; lia|lia| |right; lia].
              eapply built_ext; [|exact Hb2]. intros y _. apply uwrite_slices; lia.
           ++ assert (j < npages n) by (apply npages_spec; fold i; lia). replace (i + PGSIZE) with ((j + 1) * PGSIZE) by (unfold i; lia).
              unfold i. rewrite (Z.mul_comm PGSIZE), !Z.div_mul by done. lia.
        -- rewrite (proj2 (Z.eqb_neq _ _) Hfr). unfold aload. rewrite (proj2 (Z.eqb_neq n 0)), (proj2 (Z.leb_gt _ _)) by (unfold nn in *; lia). cbn [orb]. by eauto.
    + unfold load_step. rewrite (proj2 (Z.ltb_ge i n)) by lia. wp_step. rewrite Z.min_r in Hb1, Hm by lia. unfold aload.
      destruct Hm as [->|Hm]; [done|]. rewrite (proj2 (Z.leb_le _ _) Hm), orb_true_r. done.
Qed.

(** ** The program headers *)

Lemma xseg d V rg s phoff phnum j sz :
  built (kstate' l) d V rg s -> sized sz V -> sz <= MAXSZ / 2 -> 0 <= j < phnum ->
  let x := ph_read c phoff j in
  (x.1 = sizeof_proghdr -> seg_ok (decode_ph x.2) = true) ->
  wp (seg_step mypid devsw_read d ino phnum (j, s32 (phoff + sizeof_proghdr * j), sz))
     (fun r s' => match (if negb (x.1 =? sizeof_proghdr) then None else aseg c (decode_ph x.2) sz V) with
                  | None => r = inr None /\ exists W, built (kstate' l) d W rg s'
                  | Some y => r = inl (j + 1, s32 (phoff + sizeof_proghdr * (j + 1)), y.1) /\ built (kstate' l) d y.2 rg s' /\ sized y.1 y.2 /\ y.1 <= MAXSZ / 2
                  end) xoom s.
Proof.
  intros Hb HV Hsz Hj x Hok. unfold seg_step. rewrite (proj2 (Z.ltb_lt _ _)) by lia. rewrite u32_s32.
  assert (En : s32 (s32 (phoff + sizeof_proghdr * j) + sizeof_proghdr) = s32 (phoff + sizeof_proghdr * (j + 1))) by (rewrite s32_add_l; f_equal; lia). rewrite En.
  wp_step. eapply (xread l _ ino c); [apply Hb|done|done|apply u32_range|done|]. change (fread c (u32 _) _) with x. intros f Hf.
  assert (Hb1 : built (kstate' l) d V rg (with_fs f s)) by (by eapply built_fs). set (s1 := with_fs f s) in *.
  destruct (Z.eqb_spec x.1 sizeof_proghdr) as [Hx|Hx]; cbn [negb]; [|wp_step; by eauto]. specialize (Hok Hx).
  destruct (fread_bytes (u32 (phoff + sizeof_proghdr * j)) sizeof_proghdr) as [Hby _]. change (fread c (u32 _) _) with x in Hby.
  pose proof (field_range 16 8 _ Hby) as Rv. pose proof (field_range 40 8 _ Hby) as Rm. pose proof (field_range 32 8 _ Hby) as Rf. change (256 ^ Z.of_nat 8) with (2 ^ 64) in *.
  cbv zeta. unfold aseg. set (ph := decode_ph x.2) in *. change (field 16 8 x.2) with (ph_vaddr ph) in Rv. change (field 40 8 x.2) with (ph_memsz ph) in Rm. change (field 32 8 x.2) with (ph_filesz ph) in Rf.
  unfold seg_ok in Hok. destruct (ph_type ph =? ELF_PROG_LOAD); cbn [negb orb] in *; [|by wp_step].
  destruct (Z.ltb_spec (ph_memsz ph) (ph_filesz ph)) as [|Hms]; cbn [orb] in *; [wp_step; by eauto|].
  destruct (Z.ltb_spec (u64 (ph_vaddr ph + ph_memsz ph)) (ph_vaddr ph)) as [|Hov]; cbn [orb] in *; [wp_step; by eauto|].
  apply andb_true_iff in Hok as [Hlo%Z.leb_le Hhi%Z.leb_le]. change (MAXSZ / 2) with (2 ^ 31) in *.
  assert (Eu : u64 (ph_vaddr ph + ph_memsz ph) = ph_vaddr ph + ph_memsz ph) by (unfold u64; rewrite Z.mod_small; lia). rewrite Eu.
  pose proof (enlarge_sized sz (ph_vaddr ph + ph_memsz ph) V HV ltac:(change (MAXSZ / 2) with (2 ^ 31); unfold PGSIZE; lia)) as HV2.
  wp_step. eapply wp_conseq; [apply (xalloc (kstate' l) d V rg s1 sz); [done|done|change (MAXSZ / 2) with (2 ^ 31); unfold PGSIZE in *; lia]|]. cbv beta.
  set (z := enlarge sz (ph_vaddr ph + ph_memsz ph) V) in *. intros r s2 [-> Hb2].
  assert (Hz : ph_vaddr ph + ph_memsz ph <= z.1 <= 2 ^ 31) by (unfold z, enlarge; destruct (Z.ltb_spec (ph_vaddr ph + ph_memsz ph) sz); cbn [fst]; lia).
  rewrite (proj2 (Z.eqb_neq z.1 0)) by (destruct HV2; unfold PGSIZE in *; lia).
  destruct (Z.eqb_spec (ph_vaddr ph mod PGSIZE) 0) as [Hal|Hal]; cbn [negb]; [|wp_step; by eauto].
  assert (Hfs : 0 <= u32 (ph_filesz ph) <= ph_filesz ph) by (unfold u32; split; [apply Z.mod_pos_bound; lia|apply Z.mod_le; lia]).
  wp_step. eapply wp_conseq; [apply (xload d z.2 rg s2); [done|done|lia|lia|change (MAXSZ / 2) with (2 ^ 31); unfold PGSIZE; lia|apply u32_range|]|].
  { intros y Hy. apply (proj2 HV2); [unfold user, USERTOP; unfold PGSIZE in *; lia|]. pose proof (roundup_ge z.1 ltac:(unfold USERTOP; unfold PGSIZE in *; lia)). lia. }
  cbv beta. intros r s3 H3. destruct (aload c (ph_vaddr ph) (u32 (ph_off ph)) (u32 (ph_filesz ph)) z.2) as [W|] eqn:EW; cbn [fmap option_fmap option_map fst snd].
  - destruct H3 as [-> H3]. change (0 <? 0) with false. cbv iota. wp_step. split_and!; [done|done| |lia]. unfold aload in EW. destruct (_ || _)%bool; [|done]. injection EW as <-. by apply uwrite_sized.
  - destruct H3 as [-> H3]. change (-1 <? 0) with true. cbv iota. by wp_step.
Qed.

Abbreviation program d rg s' y := (built (kstate' l) d y.2 rg s' /\ sized y.1 y.2 /\ y.1 <= MAXSZ / 2).

Lemma xsegs d rg s phoff phnum :
  built (kstate' l) d nothing rg s -> 0 <= phnum ->
  (forall j, 0 <= j < phnum -> let x := ph_read c phoff j in x.1 = sizeof_proghdr -> seg_ok (decode_ph x.2) = true) ->
  wp (while (S (Z.to_nat phnum)) (seg_step mypid devsw_read d ino phnum) (0, s32 phoff, PGSIZE))
     (fun r s' => match asegs c phoff (Z.to_nat phnum) 0 PGSIZE nothing with
                  | None => r = None /\ exists W, built (kstate' l) d W rg s'
                  | Some y => r = Some y.1 /\ program d rg s' y
                  end) xoom s.
Proof.
  intros Hb Hn Hok. set (final := asegs c phoff (Z.to_nat phnum) 0 PGSIZE nothing).
  apply (wp_while (fun st s1 => exists j y, st = (j, s32 (phoff + sizeof_proghdr * j), y.1) /\ 0 <= j <= phnum /\ program d rg s1 y /\
      asegs c phoff (Z.to_nat (phnum - j)) j y.1 y.2 = final) (fun st => Z.to_nat (phnum - st.1.1))).
  - exists 0, (PGSIZE, nothing). cbn [fst snd]. rewrite Z.mul_0_r, Z.add_0_r, Z.sub_0_r. split_and!; [done|lia|lia|done|apply nothing_sized|by vm_compute|done].
  - cbn [fst]. lia.
  - intros st s1 (j & y & -> & Hj & (Hb1 & HV1 & Hs1) & Hfin). cbn [fst]. destruct (decide (j < phnum)) as [Hlt|Hge].
    + eapply wp_conseq; [apply (xseg d y.2 rg s1); [done|done|done|lia|apply Hok; lia]|]. cbv beta zeta. intros r s2 H2.
      replace (Z.to_nat (phnum - j)) with (S (Z.to_nat (phnum - (j + 1)))) in Hfin by lia. cbn [asegs] in Hfin.
      destruct (negb _); [destruct H2 as [-> H2]; by rewrite <- Hfin|]. destruct (aseg _ _ _ _) as [z|]; cbn [mbind option_bind] in Hfin; [|destruct H2 as [-> H2]; by rewrite <- Hfin].
      destruct H2 as [-> H2]. split; [exists (j + 1), z; split_and!; [done|lia|lia|apply H2|apply H2|apply H2|done]|cbn [fst]; lia].
    + unfold seg_step. rewrite (proj2 (Z.ltb_ge _ _)) by lia. wp_step. replace (Z.to_nat (phnum - j)) with 0%nat in Hfin by lia. cbn [asegs] in Hfin. by rewrite <- Hfin.
Qed.

(** Nothing is allocated yet. *)
Definition started (F : kfs -> Prop) (rg : uregs) s : Prop := F (x_fs s) /\ x_vm s = x_vm s0 /\ x_regs s = rg /\ x_name s = x_name s0.

Lemma xsetup F rg s : started F rg s -> free_list (v_km (x_vm s0)) free ->
  wp (on_vm (on_km setupkvm)) (fun d s' => d <> 0 /\ built F d nothing rg s') xoom s.
Proof.
  intros (H1 & H2 & H3 & H4) Hf. apply wp_on_mem. rewrite H2. eapply wp_conseq; [by apply setupkvm_spec|]. cbv beta. intros d k (free' & Hfr & HU).
  pose proof (page_ok_u64 d (sp_dir _ _ _ (fr_space _ _ _ _ _ Hfr))). split; [lia|]. split; unfold with_mem; cbn [x_fs x_regs x_name x_vm v_procs v_km]; rewrite ?H2; try done. by exists free'.
Qed.

Lemma xprogram rg s : started (kstate' l) rg s -> free_list (v_km (x_vm s0)) free -> loadable c = true ->
  wp (load_program mypid devsw_read ino)
     (fun r s' => match aprogram c with
                  | None => exists d, r = inl d /\ if decide (d = 0) then started (kstate' l) rg s' else exists W, built (kstate' l) d W rg s'
                  | Some y => exists d, r = inr (y.1.1, d, y.1.2) /\ program d rg s' (y.1.2, y.2)
                  end) xoom s.
Proof.
  intros Hs Hf Hok. pose proof Hs as (H1 & H2 & H3 & H4). unfold load_program. wp_step. eapply (xread l _ ino c); [done|done|done|lia|done|]. intros f Hfs.
  unfold aprogram. unfold loadable in Hok. set (x := fread c 0 sizeof_elfhdr) in *. cbv zeta in *. set (elf := decode_elf x.2) in *.
  assert (Hst : started (kstate' l) rg (with_fs f s)) by done. destruct (negb (x.1 =? _)); [wp_step; by exists 0|].
  destruct (negb (eh_magic elf =? _)); [wp_step; by exists 0|]. wp_step. eapply wp_conseq; [by apply xsetup|]. cbv beta. intros d s1 [Hd Hb].
  rewrite (proj2 (Z.eqb_neq _ _) Hd). wp_step. destruct (fread_bytes 0 sizeof_elfhdr) as [Hby _]. fold x in Hby.
  eapply wp_conseq; [apply (xsegs d rg s1); [done|by apply (field_range 56 2)|]|].
  - intros j Hj y Hy. rewrite forallb_forall in Hok. specialize (Hok j ltac:(apply list_elem_of_In, elem_of_seqZ; lia)). cbv beta zeta in Hok. fold y in Hok.
    apply orb_true_iff in Hok as [Hok|Hok]; [|done]. by rewrite Hy in Hok.
  - cbv beta. intros r s2 Hr. destruct (asegs _ _ _ _ _ _) as [y|]; cbn [mbind option_bind fst snd]; destruct Hr as [-> Hr]; wp_step; exists d; [by destruct y|].
    split; [done|]. by rewrite decide_False.
Qed.
End load.

(** ** The stack *)

Lemma xcopyout F d W rg s base va bs : built F d W rg s -> stack_ok base W -> base <= va -> va + Z.of_nat (length bs) <= base + 2 * PGSIZE -> bs <> [] -> bytes_ok bs ->
  wp (on_vm (on_km (copyout d va bs)))
     (fun r s' => if va <? base + PGSIZE then r = -1 /\ built F d W rg s' else r = 0 /\ built F d (uwrite va bs W) rg s') xoom s.
Proof.
  intros Hb (A1 & A2 & A3 & A4) Hlo Hhi Hne Hbs. change (MAXSZ / 2) with (2 ^ 31) in A1. assert (Hl : 0 < Z.of_nat (length bs)) by (destruct bs; [done|cbn; lia]).
  assert (Htop : base + 2 * PGSIZE <= USERTOP) by (unfold USERTOP, PGSIZE in *; lia).
  eapply wp_conseq; [apply (xmem _ _ _ _ _ _ (fun r W' => if va <? base + PGSIZE then r = -1 /\ W' = W else r = 0 /\ W' = uwrite va bs W) Hb)|].
  - intros k free' Hsp HU. destruct (Z.ltb_spec va (base + PGSIZE)) as [Hlt|Hge].
    + destruct (A4 va) as [b E]; [lia|]. unfold wp. rewrite (copyout_guard k d va bs b 3); [|apply Hsp|unfold user, PGSIZE in *; lia| |done|done].
      * exists W, free'. split; [by apply vstep_refl|done].
      * rewrite HU by (unfold user, PGSIZE in *; lia). done.
    + eapply wp_total; [apply (copyout_spec k free' d va bs); [done|unfold PGSIZE in *; lia|lia|done|]|].
      * intros y Hy. destruct (A3 y) as [b E]; [lia|]. exists b, 7. split; [|done]. rewrite HU; [done|]. unfold user, PGSIZE in *. lia.
      * cbv beta. intros r k' (-> & Hst & HW). exists (uwrite va bs W), free'. split; [done|]. split; [|done]. intros y Hy. rewrite HW by done. unfold uwrite. by rewrite HU.
  - cbv beta. intros r s' (W' & HW & HP). destruct (va <? base + PGSIZE); destruct HP as [-> ->]; done.
Qed.

Lemma xpush F d rg base argv : forall s W argc sp ptrs, built F d W rg s -> stack_ok base W -> sized (base + 2 * PGSIZE) W ->
  Forall arg_ok argv -> base + PGSIZE <= sp <= base + 2 * PGSIZE -> argc = Z.of_nat (length ptrs) -> argc <= Z.of_nat MAXARG ->
  wp (push_args d argv argc sp ptrs)
     (fun r s' => match apush (base + PGSIZE) argv argc sp ptrs W with
                  | None => r = None /\ exists W', built F d W' rg s'
                  | Some y => r = Some (y.1.1, y.1.2) /\ built F d y.2 rg s' /\ stack_ok base y.2 /\ sized (base + 2 * PGSIZE) y.2 /\
                      base + PGSIZE <= y.1.2 <= base + 2 * PGSIZE /\ (length y.1.1 <= MAXARG)%nat
                  end) xoom s.
Proof.
  induction argv as [|arg argv IH]; intros s W argc sp ptrs Hb Hst Hsz Hargs Hsp Hc Hmax; cbn [push_args apush].
  { wp_step. cbn [fst snd]. split_and!; try done; lia. }
  apply Forall_cons in Hargs as [[Hlen Hby] Hargs]. destruct (Z.leb_spec (Z.of_nat MAXARG) argc) as [|Hlt]; [wp_step; by eauto|].
  destruct Hst as (A1 & A2 & A3 & A4). set (sp0 := sp - (Z.of_nat (length arg) + 1)). change (MAXSZ / 2) with (2 ^ 31) in A1.
  assert (Hsp0 : 0 <= sp0 < 2 ^ 64) by (unfold sp0, PGSIZE in *; lia). assert (E : Z.land (u64 sp0) (u64 (-8)) = 8 * (sp0 / 8)).
  { rewrite <- align8 by done. unfold u64 at 1. by rewrite Z.mod_small. }
  cbv zeta. rewrite E. pose proof (Z.div_mod sp0 8 ltac:(lia)) as Edm. pose proof (Z.mod_pos_bound sp0 8 ltac:(lia)) as Emod. set (sp1 := 8 * (sp0 / 8)) in *.
  wp_step. eapply wp_conseq; [apply (xcopyout F d W rg s base sp1 (arg ++ [0])); [done|done|unfold sp0, PGSIZE in *; lia| |by destruct arg|]|].
  { rewrite length_app. cbn [length]. unfold sp0, PGSIZE in *. lia. } { apply Forall_app. split; [done|]. by repeat constructor. }
  cbv beta. intros r s1. destruct (Z.ltb_spec sp1 (base + PGSIZE)) as [Hl|Hg]; intros [-> Hb1].
  - change (-1 <? 0) with true. cbv iota. wp_step. by eauto.
  - change (0 <? 0) with false. cbv iota. apply IH; [done|by apply stack_uwrite|by apply uwrite_sized|done|unfold sp0, PGSIZE in *; lia|rewrite length_app; cbn; lia|lia].
Qed.

Definition same_pc (rg rg' : uregs) : Prop := r_rip rg' = r_rip rg /\ r_rcx rg' = r_rcx rg /\ r_rsp rg' = r_rsp rg.

Lemma xstack F d V rg s sz argv : built F d V rg s -> sized sz V -> sz <= MAXSZ / 2 -> Forall arg_ok argv ->
  wp (build_stack d sz argv)
     (fun r s' => match astack sz V argv with
                  | None => r = None /\ exists W rg', built F d W rg' s' /\ same_pc rg rg'
                  | Some (top, W, sp, argc, av) => r = Some (top, sp) /\ built F d W (mkRegs argc av (r_rip rg) (r_rcx rg) (r_rsp rg)) s' /\ sized top W /\ top < MAXSZ
                  end) xoom s.
Proof.
  intros Hb HV Hle Hargs. pose proof HV as [Hsz HVy]. destruct (roundup_base sz ltac:(lia)) as (B1 & B2 & B3 & B4). destruct (stack_made sz V HV Hle) as [Hst Hsd].
  unfold build_stack, astack. set (base := PGROUNDUP sz) in *. cbv zeta in *. set (top := base + 2 * PGSIZE) in *. change (MAXSZ / 2) with (2 ^ 31) in *.
  assert (HVb : sized base V) by (split; [change (MAXSZ / 2) with (2 ^ 31); unfold PGSIZE in *; lia|rewrite B3; done]).
  replace (u64 top) with top by (unfold u64; rewrite Z.mod_small; unfold top, PGSIZE in *; lia).
  wp_step. eapply wp_conseq; [apply (xalloc F d V rg s base top); [done|done|change (MAXSZ / 2) with (2 ^ 31); unfold top, PGSIZE in *; lia]|]. cbv beta.
  unfold enlarge. rewrite (proj2 (Z.ltb_ge top base)) by (unfold top, PGSIZE; lia). cbn [fst snd]. intros r s1 [-> Hb1]. rewrite (proj2 (Z.eqb_neq top 0)) by (unfold top, PGSIZE in *; lia).
  replace (u64 (top - 2 * PGSIZE)) with base by (unfold u64; rewrite Z.mod_small; unfold top, PGSIZE in *; lia).
  set (V1 := zeroed base top V) in *. assert (Hub : user base) by (unfold user, USERTOP, PGSIZE in *; lia).
  wp_step. eapply wp_conseq; [apply (xmem _ _ _ _ _ _ (fun _ W => forall y, user y -> W y = guarded base V1 y) Hb1)|].
  { intros k free' Hsp HU. eapply wp_total; [apply (clearpteu_spec k free' d base); [done|done|]|].
    - rewrite HU by done. unfold V1, zeroed. rewrite B3, B4, decide_True; [done|]. unfold top, PGSIZE; lia.
    - cbv beta. intros _ k' [Hvs HW]. exists (guarded base V1), free'. split; [done|]. split; [|done]. intros y Hy. rewrite HW by done. unfold guarded. by rewrite HU. }
  cbv beta. intros _ s2 (W & Hb2 & EW). assert (Hb2' : built F d (guarded base V1) rg s2) by (by eapply built_ext). clear W EW Hb2.
  wp_step. eapply wp_conseq; [apply (xpush F d rg base argv s2 (guarded base V1) 0 top []); [done|done|done|done|unfold top, PGSIZE; lia|done|done]|]. cbv beta. intros r s3 H3.
  destruct (apush _ _ _ _ _ _) as [[[ptrs sp] W]|]; cbn [mbind option_bind fst snd] in *; [|destruct H3 as (-> & W & H3); wp_step; split; [done|]; by exists W, rg].
  destruct H3 as (-> & Hb3 & Hst3 & Hsd3 & Hsp & Hmax). set (argc := Z.of_nat (length ptrs)) in *. assert (Hac : 0 <= argc <= 32) by (unfold argc; unfold MAXARG in Hmax; lia).
  pose proof (bu_regs _ _ _ _ _ Hb3) as Er. wp_step. unfold set_regs. wp_step. rewrite Er. set (rg' := mkRegs _ _ _ _ _). apply (built_regs _ _ _ _ rg') in Hb3. set (s4 := XSys _ _ _ _) in *.
  replace (u64 (sp - (1 + argc + 1) * 8)) with (sp - (1 + argc + 1) * 8) by (unfold u64; rewrite Z.mod_small; unfold PGSIZE in *; lia). set (sp' := sp - (1 + argc + 1) * 8).
  pose proof (frame_length ptrs) as Hfl. fold argc in Hfl.
  wp_step. eapply wp_conseq; [apply (xcopyout F d W rg' s4 base sp' (frame ptrs)); [done|done|unfold sp', PGSIZE in *; lia|rewrite Hfl; unfold sp', top in *; lia|by destruct ptrs|apply frame_bytes]|].
  assert (Erg : rg' = mkRegs argc (sp - (argc + 1) * 8) (r_rip rg) (r_rcx rg) (r_rsp rg)).
  { unfold rg'. f_equal. unfold u64. rewrite Z.mod_small; unfold PGSIZE in *; lia. }
  cbv beta. intros r s5. destruct (sp' <? base + PGSIZE); intros [-> Hb5].
  - change (-1 <? 0) with true. cbv iota. wp_step. split; [done|]. exists W, rg'. by rewrite Erg in Hb5 |- *.
  - change (0 <? 0) with false. cbv iota. wp_step. rewrite Erg in Hb5. split_and!; [done|done|by apply uwrite_sized|unfold top, PGSIZE, MAXSZ in *; lia].
Qed.
End execproof.
