(* ===== verification/ExecTheorems.v ===== *)
(** * ExecTheorems: exec runs programs of an image written by mkfs *)
From S2P Require Import Prelude CString FsFormat Bio Log LogProof LogTx KFs KFsProof.
From S2P Require Import Mmu Kalloc PgTable Vm VmSpace VmProc VmSystem.
From S2P Require Import Mkfs MkfsData MkfsProof MkfsTheorems KRead VmBoot Exec ExecMem ExecSpec ExecProof.

Lemma last_elem_some s : forall last, nul_terminated s -> nul_terminated last -> exists r, last_elem last s = Some r /\ nul_terminated r.
Proof.
  unfold nul_terminated. induction s as [|c s IH]; intros last Hs Hl; [by apply not_elem_of_nil in Hs|]. cbn [last_elem].
  destruct (Z.eqb_spec c 0) as [|Hc]; [by eauto|]. apply elem_of_cons in Hs as [?|Hs]; [done|]. apply IH; [done|]. by destruct (c =? SLASH).
Qed.

Lemma stores_length img d c : stores img d c -> Z.of_nat (length c) <= 140 * 512.
Proof.
  intros [Hm _]. destruct (decide (length c = 0%nat)) as [->|Hne]; [lia|]. unfold nblk_for in Hm.
  pose proof (Nat.div_mod_eq (length c + 511) 512). pose proof (Nat.mod_upper_bound (length c + 511) 512 ltac:(lia)).
  destruct (Hm ((length c + 511) / 512 - 1)%nat) as [? _]; lia.
Qed.

(** ** The arguments *)

Lemma sees_uwrite va bs (V : umem) : (forall y, va <= y < va + Z.of_nat (length bs) -> V y <> None) -> sees (uwrite va bs V) va bs.
Proof.
  intros HV j b Hj. pose proof (lookup_lt_Some _ _ _ Hj). unfold uwrite. rewrite decide_True by lia. replace (Z.to_nat (va + Z.of_nat j - va)) with j by lia. rewrite Hj.
  destruct (V (va + Z.of_nat j)) as [[b' f]|] eqn:E; [by exists f|]. destruct (HV (va + Z.of_nat j)); [lia|done].
Qed.

Lemma sees_ext va bs (V W : umem) : (forall y, va <= y < va + Z.of_nat (length bs) -> W y = V y) -> sees V va bs -> sees W va bs.
Proof. intros E Hs j b Hj. pose proof (lookup_lt_Some _ _ _ Hj). rewrite E by lia. by apply Hs. Qed.

(** The strings are above the final stack pointer, and nothing above the first one changes. *)
Lemma apush_strings bottom argv : forall argc sp ptrs (V : umem) ptrs' sp' V', apush bottom argv argc sp ptrs V = Some (ptrs', sp', V') -> bottom <= sp ->
  (forall y, bottom <= y < sp -> V y <> None) ->
  exists new, ptrs' = ptrs ++ new /\ bottom <= sp' <= sp /\ (forall y, sp <= y -> V' y = V y) /\ (forall y, bottom <= y < sp' -> V' y <> None) /\
    Forall2 (fun arg p => sp' <= p /\ p + Z.of_nat (length arg) + 1 <= sp /\ sees V' p (arg ++ [0])) argv new.
Proof.
  induction argv as [|arg argv IH]; intros argc sp ptrs V ptrs' sp' V' E Hb HV; cbn [apush] in E.
  { injection E as <- <- <-. exists []. rewrite app_nil_r. split_and!; [done|lia|lia|done|done|constructor]. }
  cbv zeta in E. set (sp1 := 8 * ((sp - (Z.of_nat (length arg) + 1)) / 8)) in *. destruct (_ <=? argc); [done|]. destruct (Z.ltb_spec sp1 bottom) as [|Hge]; [done|].
  assert (Hsp1 : sp1 + Z.of_nat (length arg) + 1 <= sp) by (unfold sp1; pose proof (Z.mul_div_le (sp - (Z.of_nat (length arg) + 1)) 8); lia).
  assert (Hl : Z.of_nat (length (arg ++ [0])) = Z.of_nat (length arg) + 1) by (rewrite length_app; cbn; lia).
  destruct (IH _ _ _ _ _ _ _ E Hge) as (new & -> & Hsp' & Habove & Hmap & Hall).
  { intros y Hy. apply uwrite_some, HV. lia. }
  exists (sp1 :: new). split_and!; [by rewrite <- app_assoc|lia|lia| |done|].
  - intros y Hy. rewrite Habove by lia. apply uwrite_other. lia.
  - constructor; [|eapply Forall2_impl; [exact Hall|]; cbv beta; intros a p (? & ? & ?); split_and!; [lia|lia|done]].
    split_and!; [lia|lia|]. assert (Hs : sees (uwrite sp1 (arg ++ [0]) V) sp1 (arg ++ [0])) by (apply sees_uwrite; intros y Hy; apply HV; lia).
    eapply sees_ext; [|exact Hs]. intros y Hy. apply Habove. lia.
Qed.

(** [argc] and [argv] as [main] finds them. *)
Definition argv_at (V : umem) (regs : uregs) (argv : list (list Z)) : Prop :=
  r_rdi regs = Z.of_nat (length argv) /\
  exists ptrs, sees V (r_rsi regs) (concat (map (le_bytes 8) (ptrs ++ [0]))) /\ Forall2 (fun arg p => sees V p (arg ++ [0])) argv ptrs.

Lemma sees_drop (V : umem) va bs cs : sees V va (bs ++ cs) -> sees V (va + Z.of_nat (length bs)) cs.
Proof. intros Hs j b Hj. destruct (Hs (length bs + j)%nat b) as [f Hf]; [rewrite lookup_app_r by lia; by replace (length bs + j - length bs)%nat with j by lia|]. exists f. rewrite <- Hf. f_equal. lia. Qed.

Lemma astack_argv `{Kernel} sz V argv top W sp argc av rip rcx : sized sz V -> sz <= MAXSZ / 2 -> astack sz V argv = Some (top, W, sp, argc, av) ->
  argv_at W (mkRegs argc av rip rcx sp) argv.
Proof.
  intros HV Hle E. destruct (stack_made sz V HV Hle) as [(_ & _ & Hmap & _) _]. unfold astack in E. set (base := PGROUNDUP sz) in *. cbv zeta in *.
  destruct (apush _ _ _ _ _ _) as [[[ptrs sp1] V1]|] eqn:Ep; cbn [mbind option_bind] in E; [|done]. destruct (Z.ltb_spec (sp1 - (1 + Z.of_nat (length ptrs) + 1) * 8) (base + PGSIZE)) as [|Hge]; [done|].
  injection E as <- <- <- <- <-. apply apush_strings in Ep as (new & -> & Hsp & _ & Hmap1 & Hargs); [|unfold PGSIZE; lia|].
  2: { intros y Hy. by destruct (Hmap y) as [b ->]. }
  cbn [app] in *. pose proof (frame_length new) as Hfl. set (sp' := sp1 - (1 + Z.of_nat (length new) + 1) * 8) in *. split; [by rewrite (Forall2_length _ _ _ Hargs)|]. exists new. cbn [r_rsi]. split.
  - assert (Hs : sees (uwrite sp' (frame new) V1) sp' (frame new)) by (apply sees_uwrite; intros y Hy; apply Hmap1; unfold sp' in *; lia).
    change (frame new) with (le_bytes 8 (2 ^ 64 - 1) ++ concat (map (le_bytes 8) (new ++ [0]))) in Hs at 2. apply sees_drop in Hs. rewrite length_le_bytes in Hs.
    by replace (sp1 - (Z.of_nat (length new) + 1) * 8) with (sp' + Z.of_nat 8) by (unfold sp'; lia).
  - eapply Forall2_impl; [exact Hargs|]. cbv beta. intros arg q (Hq & _ & Hs). eapply sees_ext; [|exact Hs]. intros y Hy. apply uwrite_other. unfold sp' in *. lia.
Qed.

Section exec_file.
Context `{Kernel}.
Context (mypid : Z) (cwd : nat) (devsw_read : Z -> option (nat -> Z -> Z -> M kfs (Z * list Z))).
Context (g : log) (c0 : bcache) (v : Z -> list Z) (img : list (list Z)) (room : nat).
Context (Hv : forall b, 0 <= b < FSSIZE -> v b = blk img b) (Hsize : disksize c0 = FSSIZE).
Implicit Types (s : xsys) (l : list inode).

Abbreviation kstate' := (kstate g c0 v room).
Abbreviation kidle' := (kidle g c0 v room).

(** The file system is idle again, with as many references to inodes. *)
Definition fs_idle (k : nat) (n : Z) (f : kfs) : Prop := exists l, kidle' l f /\ icache_ok img None l /\ free_slots k l /\ isum l = n.

(** The executable is locked. *)
Definition fs_open (k : nat) (n : Z) (i : nat) (inum : Z) l : Prop :=
  icache_ok img (Some i) l /\ free_slots k l /\ isum l = n + 1 /\ locked_inode img l i inum.

Lemma wp_my_proc pid p (Q : vproc -> xsys -> Prop) s : v_procs (x_vm s) !! pid = Some p -> Q p s -> wp (on_vm (vproc_of pid)) Q xoom s.
Proof. intros Hp HQ. unfold wp, on_vm, vproc_of, mbind, M_bind, getS. rewrite Hp. by destruct s. Qed.

Lemma wp_set_vproc pid p (Q : unit -> xsys -> Prop) s :
  Q tt (XSys (VSys (v_km (x_vm s)) (<[pid := p]> (v_procs (x_vm s)))) (x_fs s) (x_regs s) (x_name s)) -> wp (on_vm (set_vproc pid p)) Q xoom s.
Proof. done. Qed.

Lemma xclose k n i inum l s : kstate' l (x_fs s) -> fs_open k n i inum l -> di_nlink (img_inode img inum) <> 0 ->
  forall (Q : unit -> xsys -> Prop), (forall f, fs_idle k n f -> Q tt (with_fs f s)) ->
  wp (on_kfs (iunlockput mypid i)) (fun _ => wp (on_kfs (on_log (end_op mypid))) Q xoom) xoom s.
Proof.
  intros Hs (Hok & Hfree & Hsum & Hlk) Hnl Q HQ. apply wp_on_kfs. eapply wp_conseq; [by apply (kiunlockput mypid g c0 v img room k l _ i inum)|]. cbv beta.
  intros _ f1 (l1 & H1 & Hok1 & Hf1 & Hsum1 & _). apply wp_on_kfs. eapply wp_conseq; [by apply end_op_idle|]. cbv beta. intros [] f2 H2. apply (HQ f2). exists l1. split_and!; [done..|lia].
Qed.

Section load_file.
Context (all kern : list Z) (s0 : xsys) (A : gmap Z uspace) (free : list Z).
Context (HR : vrel all kern (x_vm s0) A) (Hall : free ++ kern ++ owned (km_mem (v_km (x_vm s0))) (v_procs (x_vm s0)) ≡ₚ all).

Lemma xdiscard F d W rg s (Q : unit -> xsys -> Prop) : built s0 free F d W rg s ->
  (forall s', vrel all kern (x_vm s') A -> x_fs s' = x_fs s -> x_regs s' = rg -> x_name s' = x_name s0 -> Q tt s') -> wp (on_vm (on_km (freevm d))) Q xoom s.
Proof.
  intros [B1 B2 B3 B4 (free' & B5) B6] HQ. apply wp_on_mem. eapply wp_total; [by eapply discard_spec|]. cbv beta. intros [] k' Hk. apply HQ; [|done..].
  unfold with_mem. cbn [x_vm]. by rewrite B4.
Qed.

(** [bad:] *)
Lemma xbad k n i inum l rg s d (ip : option nat) (F : kfs -> Prop) : x_regs s = rg -> x_name s = x_name s0 ->
  (if decide (d = 0) then x_vm s = x_vm s0 else exists W, built s0 free F d W rg s) ->
  match ip with
  | Some j => j = i /\ kstate' l (x_fs s) /\ fs_open k n i inum l /\ di_nlink (img_inode img inum) <> 0
  | None => fs_idle k n (x_fs s)
  end ->
  wp (bad mypid d ip) (fun r s' => r = -1 /\ fs_idle k n (x_fs s') /\ vrel all kern (x_vm s') A /\ x_regs s' = rg /\ x_name s' = x_name s0) xoom s.
Proof.
  intros Hrg Hnm Hd Hip. unfold bad. wp_step. assert (Hgo : forall s', vrel all kern (x_vm s') A -> x_fs s' = x_fs s -> x_regs s' = rg -> x_name s' = x_name s0 ->
    wp (match ip with Some ip => on_kfs (iunlockput mypid ip);; on_kfs (on_log (end_op mypid)) | None => mret tt end;; mret (-1))
       (fun r s' => r = -1 /\ fs_idle k n (x_fs s') /\ vrel all kern (x_vm s') A /\ x_regs s' = rg /\ x_name s' = x_name s0) xoom s').
  { intros s' H1 H2 H3 H4. wp_step. destruct ip as [j|]; [|wp_step; wp_step; by rewrite H2]. destruct Hip as (-> & Hk & Ho & Hnl).
    wp_step. eapply xclose; [by rewrite H2|done|done|]. intros f Hf. by wp_step. }
  destruct (Z.eqb_spec d 0) as [->|Hne].
  - wp_step. apply Hgo; [|done..]. rewrite decide_True in Hd by done. by rewrite Hd.
  - rewrite decide_False in Hd by done. destruct Hd as [W HW]. eapply xdiscard; [exact HW|done].
Qed.

(** The new image in place of the old one. *)
Lemma xreplace F d W rg s s1 p x top (Q : unit -> xsys -> Prop) :
  v_procs (x_vm s0) !! mypid = Some p -> A !! mypid = Some x -> built s0 free F d W rg s -> sized top W -> top < MAXSZ ->
  x_vm s1 = VSys (v_km (x_vm s)) (<[mypid := VProc d top (p_kstack p)]> (v_procs (x_vm s))) ->
  (forall s', vrel all kern (x_vm s') (<[mypid := (top, W)]> A) -> x_fs s' = x_fs s1 -> x_regs s' = x_regs s1 -> x_name s' = x_name s1 -> Q tt s') ->
  wp (on_vm (on_km (freevm (p_pgdir p)))) Q xoom s1.
Proof.
  intros Hp Hx [B1 B2 B3 B4 (free' & B5) B6] [Hsz HW] Htop E1 HQ.
  apply wp_on_mem. rewrite E1. cbn [v_km]. eapply wp_total; [eapply (replace_spec all kern (x_vm s0) A free _ free' d mypid p x top (top, W)); try done|].
  - split; cbn [fst snd p_sz p_pgdir]; [done|unfold PGSIZE in *; lia|apply (sp_dir _ _ _ (fr_space _ _ _ _ _ B5))|done|done].
  - cbv beta. intros [] k' Hk'. apply HQ; [|done..]. unfold with_mem. cbn [x_vm]. rewrite E1. cbn [v_procs]. by rewrite B4.
Qed.
End load_file.

(** C3: [exec] of a file of an image written by mkfs replaces the caller's
    address space by the one that the bytes of the file and the arguments
    determine: the segments of the ELF file, a guard page, a stack with the
    argument strings and the vector of their addresses, and the registers.  If
    the file is not an executable, a segment is not in the file or the arguments
    do not fit on the stack, the result is -1, the caller keeps its address
    space and every page taken for the new one is free again.  In both cases the
    operation of the log is closed and no reference to an inode is left.  The
    third outcome, [xoom], is the panic of a kernel without a free page.  The
    segments that the checks of [exec] accept are to lie between the first page
    and 2 GB ([loadable]), and an argument is to fit on a page ([arg_ok]). *)
Theorem exec_runs_program all kern s0 A x k l path argv files n f :
  vrel all kern (x_vm s0) A -> A !! mypid = Some x -> length (x_name s0) = 16%nat ->
  kidle' l (x_fs s0) -> icache_ok img None l -> free_slots (S (S k)) l -> image_of img files -> (length files <= 206)%nat ->
  findable files n f -> head path = Some SLASH -> nul_terminated path -> components (cstr path) = [fname f] ->
  bytes_ok (content f) -> loadable (content f) = true -> Forall arg_ok argv ->
  wp (exec mypid cwd devsw_read path argv)
     (fun r s' => fs_idle k (isum l) (x_fs s') /\
        match aexec (content f) argv with
        | Some (image, regs) => r = 0 /\ vrel all kern (x_vm s') (<[mypid := image]> A) /\ x_regs s' = regs /\ argv_at image.2 regs argv /\
            exists last, last_elem path path = Some last /\ cstr (x_name s') = take 15 (cstr last)
        | None => r = -1 /\ vrel all kern (x_vm s') A /\ same_pc (x_regs s0) (x_regs s') /\ x_name s' = x_name s0
        end) xoom s0.
Proof.
  intros HR Hx Hnm Hid Hok Hfs Himg Hlen Hfind Hhead Hnul Hcomp Hby Hld Hargs. destruct (vr_free _ _ _ _ HR) as (free & Hfree & Hall).
  destruct (proj2 (vr_dom _ _ _ _ HR mypid)) as [p Hp]; [by eexists|].
  destruct (io_files _ _ Himg n f (fi_file _ _ _ Hfind)) as (Hty & Hnl & Hsz & Hst). set (inum := Z.of_nat n + 2) in *. pose proof (stores_length _ _ _ Hst) as Hcl.
  unfold exec. wp_step. eapply wp_my_proc; [done|]. wp_step. apply wp_on_kfs. eapply wp_conseq; [by apply begin_op_idle|]. cbv beta. intros _ f1 H1.
  wp_step. apply wp_on_kfs. cbn [with_fs x_fs]. eapply wp_conseq; [by apply (knamei mypid cwd devsw_read g c0 v img room Hv Hsize k l f1 path files n f)|]. cbv beta.
  intros r f2 (i & l2 & ip & -> & H2 & Hi & Hin & Hir & Hok2 & Hf2 & Hsum2). fold inum in Hin.
  wp_step. apply wp_on_kfs. cbn [with_fs x_fs]. eapply wp_conseq; [apply (kilock mypid g c0 v img room Hv Hsize k l2 f2 i ip); [done..|by rewrite Hin, Hty]|]. cbv beta.
  intros _ f3 (l3 & H3 & Hok3 & Hf3 & Hsum3 & _ & Hlk). rewrite Hin in Hlk. set (s3 := with_fs f3 _).
  assert (Hopen : fs_open k (isum l) i inum l3) by (split_and!; [done|done|lia|done]).
  assert (Hino : file_inode img l3 i (content f)).
  { destruct Hlk as (jp & Hj & Hdev & _ & Hdin & _). exists jp. rewrite Hdin, Hty. done. }
  assert (Hst3 : started s0 (kstate' l3) (x_regs s0) s3) by done.
  wp_step. eapply wp_conseq; [apply (xprogram mypid devsw_read g c0 v img room Hv Hsize s0 free l3 i (content f) Hino ltac:(lia) Hby (x_regs s0) s3 Hst3 Hfree Hld)|]. cbv beta.
  intros r s4 H4. unfold aexec. destruct (aprogram (content f)) as [[[elf sz] V]|]; cbn [mbind option_bind fst snd] in *.
  2: { destruct H4 as (d & -> & Hd). assert (Hs4 : x_regs s4 = x_regs s0 /\ x_name s4 = x_name s0 /\ kstate' l3 (x_fs s4)).
       { destruct (decide (d = 0)); [by destruct Hd as (? & ? & ? & ?)|]. destruct Hd as [W [? ? ? _ _ _]]. done. }
       destruct Hs4 as (Hr4 & Hn4 & Hk4). eapply wp_conseq; [apply (xbad all kern s0 A free HR Hall k (isum l) i inum l3 (x_regs s0) s4 d (Some i) (kstate' l3)); [done..| |]|].
       - destruct (decide (d = 0)); [apply Hd|done].
       - split_and!; [done..|by rewrite Hnl].
       - cbv beta. intros r s5 (-> & Hf & HR5 & Hr5 & Hn5). split; [done|]. rewrite Hr5. done. }
  destruct H4 as (d & -> & Hb4 & HV & Hsz4). cbv iota.
  wp_step. eapply wp_conseq; [eapply (xclose k (isum l) i inum l3 s4 (bu_fs _ _ _ _ _ _ _ Hb4) Hopen ltac:(by rewrite Hnl) (fun _ => wp _ _ _))|by intros [] ? ?; apply wp_bind]. intros f5 Hf5. apply (built_fs _ _ _ (fs_idle k (isum l)) _ _ _ _ f5) in Hb4; [|done].
  wp_step. eapply wp_conseq; [by apply (xstack s0 free (fs_idle k (isum l)) d V (x_regs s0) _ sz argv)|]. cbv beta. intros r s6 H6.
  destruct (astack sz V argv) as [[[[[top W] sp] argc] av]|] eqn:Ea; cbn [mbind option_bind].
  2: { destruct H6 as (-> & W & rg & Hb6 & Hpc). destruct (bu_fresh _ _ _ _ _ _ _ Hb6) as (free' & Hfr).
       pose proof (page_ok_u64 d (sp_dir _ _ _ (fr_space _ _ _ _ _ Hfr))) as Hd.
       eapply wp_conseq; [apply (xbad all kern s0 A free HR Hall k (isum l) i inum l3 rg s6 d None (fs_idle k (isum l))); [apply Hb6|apply Hb6| |apply Hb6]|].
       - rewrite decide_False by lia. by exists W.
       - cbv beta. intros r s7 (-> & Hf & HR7 & Hr7 & Hn7). split; [done|]. rewrite Hr7. done. }
  destruct H6 as (-> & Hb6 & HW & Htop). destruct (last_elem_some path path Hnul Hnul) as (last & Hlast & Hlnul). wp_step. eapply wp_of_option; [done|]. do 2 wp_step.
  rewrite (bu_name _ _ _ _ _ _ _ Hb6). destruct (safestrcpy_loop_spec 15 (x_name s0) last) as (nm & Hcpy & _ & _ & Hc); [lia|by right|].
  wp_step. eapply wp_of_option; [exact Hcpy|]. wp_step. unfold set_name. wp_step. wp_step. apply wp_set_vproc. cbn [x_vm x_fs x_regs x_name].
  wp_step. unfold set_regs. wp_step. cbn [x_vm x_fs x_regs x_name]. wp_step. rewrite (bu_regs _ _ _ _ _ _ _ Hb6). cbn [r_rdi r_rsi].
  eapply (xreplace all kern s0 A free HR Hall); [done|done|exact Hb6|done|done|done|]. cbn [x_fs x_regs x_name]. intros s7 HR7 Hf7 Hr7 Hn7.
  wp_step. rewrite Hf7, Hr7, Hn7. split; [apply Hb6|]. split_and!; [done|done|done|eapply (astack_argv sz V); [exact HV|exact Hsz4|exact Ea]|]. exists last. split; [done|]. by rewrite Hc, cstrn_take.
Qed.
End exec_file.

(** ** An instance: a program of four bytes *)
Module ExecInstances.
#[local] Existing Instance VmInstances.small.

Definition elf : list Z :=
  le_bytes 4 ELF_MAGIC ++ replicate 12 0 ++ le_bytes 2 2 ++ le_bytes 2 62 ++ le_bytes 4 1 ++ le_bytes 8 4096 ++ le_bytes 8 64 ++ le_bytes 8 0 ++
  le_bytes 4 0 ++ le_bytes 2 64 ++ le_bytes 2 56 ++ le_bytes 2 1 ++ le_bytes 2 0 ++ le_bytes 2 0 ++ le_bytes 2 0.
Definition segment : list Z :=
  le_bytes 4 ELF_PROG_LOAD ++ le_bytes 4 5 ++ le_bytes 8 120 ++ le_bytes 8 4096 ++ le_bytes 8 4096 ++ le_bytes 8 4 ++ le_bytes 8 16 ++ le_bytes 8 4096.
Definition program : list Z := elf ++ segment ++ [235; 254; 144; 144].

Definition spin : hostfile := mkHost [95; 115; 112; 105; 110] [program].
Definition path : list Z := [47; 115; 112; 105; 110; 0].
Definition argv : list (list Z) := [[115; 112; 105; 110]; [45; 118]].

Definition disk_log : log := mkLog 2 30 1 0 1 0 (replicate 30 0).
Definition started_fs (img : list (list Z)) : kfs := mkKfs (mkLsys (set_outstanding 0 disk_log) (binit img)) mkfs_sb (replicate 50 zero_inode).
Definition first_proc (img : list (list Z)) : xsys := XSys VmInstances.booted (started_fs img) (mkRegs 0 0 0 0 0) (replicate 16 0).

Lemma spin_fits : fits_disk [spin].
Proof.
  split; [by vm_compute|cbn [length]; lia| |by repeat constructor]. repeat (apply Forall_cons; split; [apply Nat.leb_le; by vm_compute|]). by apply Forall_nil.
Qed.

Lemma spin_findable : findable [spin] 0 spin.
Proof.
  split; [done|cbn; unfold DIRSIZ; lia|done| |intros k' g _ Hk; lia]. apply Forall_cons; split; [unfold fname; cbn; set_solver|]. by apply Forall_nil.
Qed.

Lemma idle_fs img files : image_of img files -> kidle disk_log (binit img) (Bio.view (binit img)) 9 (replicate 50 zero_inode) (started_fs img).
Proof.
  intros Himg. destruct (io_size _ _ Himg) as [Hl Hb]. destruct (binit_quiescent img Hb) as [(l & Hinv & _) Hview]. split; [done|]. split; [|done].
  split; try done; [|by exists l|apply Nat.leb_le; by vm_compute].
  assert (disksize (binit img) = FSSIZE) as -> by exact Hl. constructor; try done; [cbn; lia|apply NoDup_nil_2|by intros b ?%not_elem_of_nil].
Qed.

Lemma loaded_regs : snd <$> aexec program argv = Some (mkRegs 2 16344 4096 4096 16336).
Proof. by vm_compute. Qed.

Lemma empty_icache img n : icache_ok img None (replicate n zero_inode) /\ free_slots n (replicate n zero_inode).
Proof.
  split.
  - intros i ip [-> _]%lookup_replicate. split; [done|by split|done|cbn; lia].
  - exists (seq 0 n). split; [apply NoDup_seq|]. split; [apply length_seq|]. intros i [_ Hi]%elem_of_seq. exists zero_inode. split; [by apply lookup_replicate_2|done].
Qed.

Lemma program_bytes : bytes_ok (content spin).
Proof.
  unfold content, spin, program, elf, segment. cbn [h_chunks concat]. rewrite app_nil_r. repeat (apply Forall_app; split); try apply le_bytes_ok; [by apply Forall_replicate|by repeat constructor].
Qed.

Lemma exec_runs_program_witness :
  wp (mkfs_main [spin]) (fun _ m => exists kern, wp (exec 1 0 (fun _ => None) path argv)
    (fun r s' => r = 0 /\ r_rip (x_regs s') = 4096 /\ r_rdi (x_regs s') = 2 /\ exists image, argv_at image.2 (x_regs s') argv /\
       vrel (range_pages VmInstances.vstart VmInstances.vend) kern (x_vm s') (<[1 := image]> VmInstances.init_space)) xoom (first_proc (mk_img m))) no_halt mkfs_start.
Proof.
  eapply wp_conseq; [apply (mkfs_image [spin] spin_fits)|]. cbv beta. intros _ m Himg. destruct VmInstances.booted_ok as [kern HR]. exists kern.
  destruct (io_size _ _ Himg) as [Hl Hb]. destruct (binit_quiescent (mk_img m) Hb) as [_ Hview].
  eapply wp_conseq; [eapply (exec_runs_program 1 0 (fun _ => None) disk_log (binit (mk_img m)) (Bio.view (binit (mk_img m))) (mk_img m) 9 (fun b _ => Hview b) Hl
    (range_pages VmInstances.vstart VmInstances.vend) kern (first_proc (mk_img m)) VmInstances.init_space _ 48 (replicate 50 zero_inode) path argv [spin] 0 spin HR)|].
  - reflexivity.
  - reflexivity.
  - exact (idle_fs _ _ Himg).
  - apply empty_icache.
  - exact (proj2 (empty_icache (mk_img m) 50)).
  - exact Himg.
  - cbn [length]. lia.
  - exact spin_findable.
  - reflexivity.
  - unfold nul_terminated, path. set_solver.
  - reflexivity.
  - exact program_bytes.
  - vm_compute. reflexivity.
  - repeat (apply Forall_cons; split; [split; [cbn; unfold PGSIZE; lia|repeat (apply Forall_cons; split; [unfold is_u8; lia|]); by apply Forall_nil]|]). by apply Forall_nil.
  - cbv beta. intros r s' [_ Hs]. pose proof loaded_regs as Hregs. change (content spin) with program in Hs. destruct (aexec program argv) as [[image regs]|]; [|discriminate].
    injection Hregs as ->. destruct Hs as (-> & Hvm & -> & Hargs & _). split; [reflexivity|]. split; [reflexivity|]. split; [reflexivity|]. exists image. split; [exact Hargs|exact Hvm].
Defined.
End ExecInstances.
