(* ===== verification/Trap.v ===== *)
(** * Trap: interrupts, system calls and the clock (trap.c, syscall.c, sysproc.c)

    The interrupt table, the handler [trap], the dispatch of system calls, and
    [sys_sleep] and [sys_uptime], over the process table of Proc and the
    console.  Messages the handlers print and the acknowledgement of the
    interrupt controller are left out. *)
From S2P Require Import Prelude Mmu Proc ProcInv Console Kbd.

(** ** The interrupt descriptor table *)

Definition KERNEL_CS : Z := Z.shiftl 1 3.

(** [idt] is an array of 32-bit words. *)
Definition mkgate (idt : list Z) (n kva pl : Z) : list Z :=
  let n := Z.to_nat (u32 (n * 4)) in
  <[(n + 3)%nat := 0]>
    (<[(n + 2)%nat := u32 (Z.shiftr kva 32)]>
       (<[(n + 1)%nat := u32 (Z.lor (Z.lor (Z.land kva 0xFFFF0000) 0x8E00) (Z.shiftl (Z.land pl 3) 13))]>
          (<[n := u32 (Z.lor (Z.land kva 0xFFFF) (Z.shiftl KERNEL_CS 16))]> idt))).

(** [vectors] is the array of entry points that vectors.pl generates. *)
Definition tvinit (vectors : Z -> Z) : list Z :=
  foldl (fun idt n => mkgate idt n (vectors n) 0) (replicate 1024 0) (seqZ 0 256).

(** ** The trap handler *)

Definition T_IRQ0 : Z := 32.
Definition IRQ_TIMER : Z := 0.
Definition IRQ_KBD : Z := 1.
Definition IRQ_COM1 : Z := 4.
Definition IRQ_IDE : Z := 14.
Definition IRQ_SPURIOUS : Z := 31.
Definition DPL_USER : Z := 3.

(** [&ticks] and [&input.r]. *)
Definition TICKS : chan := ChOther 1.
Definition INPUT_R : chan := ChOther 2.

Record tsys := mkTsys { ts_tab : ptable; ts_ticks : Z; ts_cons : console }.

Definition on_tab (f : ptable -> ptable) : M tsys unit := modify (fun s => mkTsys (f (ts_tab s)) (ts_ticks s) (ts_cons s)).

(** A console handler; its calls of [wakeup(&input.r)] take effect here. *)
Definition on_cons (m : M console unit) : M tsys unit := fun s =>
  let '(r, c) := m (ts_cons s) in
  (r, mkTsys (Nat.iter (cn_wakeups c - cn_wakeups (ts_cons s)) (wakeup1 INPUT_R) (ts_tab s)) (ts_ticks s) c).

(** How the handler ends: it returns to the interrupted code, gives up the
    processor, or calls [exit]. *)
Inductive trapres : Type := TReturn | TYield | TExit.

Section trap.
(** The number of the processor, [proc], the saved code segment, and what
    [procdump] prints. *)
Context (cpunum : Z) (cur : option nat) (cs : Z) (rows : list dump_row).

Definition user_mode : bool := Z.land cs 3 =? DPL_USER.

Definition killed_now (t : ptable) : bool :=
  match cur with Some i => (negb (p_killed (procn t i) =? 0) && user_mode)%bool | None => false end.

(** The switch on [tf->trapno]. *)
Definition trap_switch (trapno : Z) : M tsys unit :=
  if trapno =? T_IRQ0 + IRQ_TIMER then
    if cpunum =? 0 then
      modify (fun s => mkTsys (ts_tab s) (u32 (ts_ticks s + 1)) (ts_cons s));;
      on_tab (wakeup1 TICKS)
    else mret tt
  else if trapno =? T_IRQ0 + IRQ_IDE then mret tt
  else if trapno =? T_IRQ0 + IRQ_IDE + 1 then mret tt
  else if trapno =? T_IRQ0 + IRQ_KBD then on_cons (kbdintr rows)
  else if trapno =? T_IRQ0 + IRQ_COM1 then on_cons (uartintr rows)
  else if ((trapno =? T_IRQ0 + 7) || (trapno =? T_IRQ0 + IRQ_SPURIOUS))%bool then mret tt
  else
    match cur with
    | None => panic "trap"
    | Some i => if Z.land cs 3 =? 0 then panic "trap" else on_tab (upd i (set_killed 1))
    end.

Definition trap (trapno : Z) : M tsys trapres :=
  trap_switch trapno;;
  t ← gets ts_tab;
  if killed_now t then mret TExit
  else
    match cur with
    | Some i =>
        if (is_state RUNNING (procn t i) && (trapno =? T_IRQ0 + IRQ_TIMER))%bool
        then on_tab (yield i);; mret TYield
        else mret TReturn
    | None => mret TReturn
    end.

(** The rest of [trap] when the process runs again after [yield]. *)
Definition trap_resume : M tsys trapres :=
  t ← gets ts_tab;
  if killed_now t then mret TExit else mret TReturn.
End trap.

(** ** The clock *)

(** [sys_sleep] from the test of its loop on; [None] while it sleeps. *)
Definition sleep_loop (cur : nat) (ticks0 n : Z) (s : tsys) : option Z * tsys :=
  if u32 (ts_ticks s - ticks0) <? u32 n then
    if negb (p_killed (procn (ts_tab s) cur) =? 0) then (Some (-1), s)
    else (None, mkTsys (sleep cur TICKS (ts_tab s)) (ts_ticks s) (ts_cons s))
  else (Some 0, s).

Definition sys_sleep (cur : nat) (n : Z) (s : tsys) : option Z * tsys := sleep_loop cur (ts_ticks s) n s.
Definition sleep_resume (cur : nat) (ticks0 n : Z) (s : tsys) : option Z * tsys :=
  sleep_loop cur ticks0 n (mkTsys (sleep_return cur (ts_tab s)) (ts_ticks s) (ts_cons s)).

Definition sys_uptime (s : tsys) : Z := s32 (ts_ticks s).

(** ** System calls *)

Inductive sysfun : Type :=
| Fn_fork | Fn_exit | Fn_wait | Fn_pipe | Fn_read | Fn_kill | Fn_exec | Fn_fstat | Fn_chdir | Fn_dup | Fn_getpid | Fn_sbrk | Fn_sleep
| Fn_uptime | Fn_open | Fn_write | Fn_mknod | Fn_unlink | Fn_link | Fn_mkdir | Fn_close | Fn_send | Fn_recv | Fn_register_fsserver
| Fn_disk_request.

(** The table with its designators, whose numbers are those of syscall.h. *)
Definition syscalls : list (option sysfun) :=
  foldl (fun t x => <[x.1 := Some x.2]> t) (replicate 26 None)
    [(1%nat, Fn_fork); (2%nat, Fn_exit); (3%nat, Fn_wait); (4%nat, Fn_pipe); (5%nat, Fn_read); (6%nat, Fn_kill); (7%nat, Fn_exec); (8%nat, Fn_fstat);
     (9%nat, Fn_chdir); (10%nat, Fn_dup); (11%nat, Fn_getpid); (12%nat, Fn_sbrk); (13%nat, Fn_sleep); (14%nat, Fn_uptime); (15%nat, Fn_open);
     (16%nat, Fn_write); (17%nat, Fn_mknod); (18%nat, Fn_unlink); (19%nat, Fn_link); (20%nat, Fn_mkdir); (21%nat, Fn_close); (22%nat, Fn_send);
     (23%nat, Fn_recv); (24%nat, Fn_register_fsserver); (25%nat, Fn_disk_request)].

(** [run] is the system call itself; the result is the new [rax] and whether
    the process goes on to [exit]. *)
Definition syscall {S} (run : sysfun -> M S Z) (killed : S -> bool) (rax : Z) : M S (Z * bool) :=
  r ← (if ((0 <? rax) && (rax <? Z.of_nat (length syscalls)))%bool then
         match syscalls !! Z.to_nat rax with Some (Some f) => run f | _ => mret (-1) end
       else mret (-1));
  k ← gets killed;
  mret (u64 r, k).

(** ** Gates as the processor reads them *)

Definition gate_target (w0 w1 w2 : Z) : Z := Z.lor (Z.lor (Z.land w0 0xFFFF) (Z.land w1 0xFFFF0000)) (Z.shiftl w2 32).
Definition gate_selector (w0 : Z) : Z := Z.shiftr w0 16.
Definition gate_attributes (w1 : Z) : Z := Z.land w1 0xFFFF.

Lemma testbit_u32 x i : 0 <= i -> Z.testbit (u32 x) i = ((i <? 32) && Z.testbit x i)%bool.
Proof.
  intros Hi. unfold u32. destruct (Z.ltb_spec i 32); [by rewrite Z.mod_pow2_bits_low|]. by rewrite Z.mod_pow2_bits_high by lia.
Qed.

Lemma testbit_low i : 0 <= i -> Z.testbit 0xFFFF i = (i <? 16).
Proof. intros Hi. change 0xFFFF with (Z.ones 16). destruct (Z.ltb_spec i 16); [by apply Z.ones_spec_low|by apply Z.ones_spec_high]. Qed.

Lemma testbit_high i : 0 <= i -> Z.testbit 0xFFFF0000 i = ((16 <=? i) && (i <? 32))%bool.
Proof.
  intros Hi. change 0xFFFF0000 with (Z.shiftl (Z.ones 16) 16). rewrite Z.shiftl_spec by done. destruct (Z.leb_spec 16 i); cbn [andb]; [|by rewrite Z.testbit_neg_r by lia].
  destruct (Z.ltb_spec i 32); [apply Z.ones_spec_low; lia|apply Z.ones_spec_high; lia].
Qed.

Lemma testbit_u64 x i : 0 <= x < 2 ^ 64 -> 64 <= i -> Z.testbit x i = false.
Proof. intros Hx Hi. rewrite <- (Z.mod_small x (2 ^ 64)) by done. apply Z.mod_pow2_bits_high. lia. Qed.

(** A gate leads to the address it was made for, in the kernel's code segment,
    as a present interrupt gate of the kernel's level. *)
Definition gate_to (idt : list Z) (n kva : Z) : Prop :=
  exists w0 w1 w2, idt !! (Z.to_nat (4 * n) + 0)%nat = Some w0 /\ idt !! (Z.to_nat (4 * n) + 1)%nat = Some w1 /\ idt !! (Z.to_nat (4 * n) + 2)%nat = Some w2 /\
    gate_target w0 w1 w2 = kva /\ gate_selector w0 = KERNEL_CS /\ gate_attributes w1 = 0x8E00.

Lemma mkgate_spec idt n kva : 0 <= n < 256 -> length idt = 1024%nat -> 0 <= kva < 2 ^ 64 -> gate_to (mkgate idt n kva 0) n kva.
Proof.
  intros Hn Hl Hk. unfold mkgate. replace (u32 (n * 4)) with (4 * n) by (rewrite u32_id; [lia|unfold is_u32; lia]). set (i := Z.to_nat (4 * n)).
  assert (Hi : (i + 3 < length idt)%nat) by (unfold i; lia). cbv zeta. unfold gate_to. fold i. rewrite Nat.add_0_r.
  eexists _, _, _. split; [|split; [|split]].
  - rewrite !list_lookup_insert_ne by lia. apply list_lookup_insert_eq. lia.
  - rewrite !list_lookup_insert_ne by lia. apply list_lookup_insert_eq. rewrite length_insert. lia.
  - rewrite list_lookup_insert_ne by lia. apply list_lookup_insert_eq. rewrite !length_insert. lia.
  - split; [|split]; apply Z.bits_inj'; intros j Hj.
    + unfold gate_target. rewrite !Z.lor_spec, Z.shiftl_spec, !Z.land_spec, !testbit_u32 by done. rewrite !Z.lor_spec, !Z.land_spec, testbit_low, testbit_high, Z.shiftl_spec by done.
      destruct (Z.ltb_spec j 32) as [H32|H32]; cbn [andb].
      * rewrite (Z.testbit_neg_r _ (j - 32)), orb_false_r by lia. destruct (Z.ltb_spec j 16) as [H16|H16].
        -- rewrite (proj2 (Z.leb_gt 16 j)), (Z.testbit_neg_r _ (j - 16)) by lia. by destruct (Z.testbit kva j), (Z.testbit 0x8E00 j), (Z.testbit (Z.shiftl (Z.land 0 3) 13) j).
        -- rewrite (proj2 (Z.leb_le 16 j)), (Z.bits_above_log2 0x8E00) by (cbn; lia). change (Z.shiftl (Z.land 0 3) 13) with 0. rewrite Z.bits_0. by destruct (Z.testbit kva j), (Z.testbit KERNEL_CS (j - 16)).
      * cbn [andb orb]. rewrite testbit_u32 by lia. rewrite Z.shiftr_spec by lia. replace (j - 32 + 32) with j by lia.
        destruct (Z.ltb_spec (j - 32) 32); [done|]. by rewrite testbit_u64 by (done || lia).
    + unfold gate_selector. rewrite Z.shiftr_spec, testbit_u32, Z.lor_spec, Z.land_spec, testbit_low, Z.shiftl_spec by lia. rewrite (proj2 (Z.ltb_ge (j + 16) 16)), andb_false_r by lia. cbn [orb].
      replace (j + 16 - 16) with j by lia. destruct (Z.ltb_spec (j + 16) 32); [done|]. symmetry. change KERNEL_CS with 8. apply Z.bits_above_log2; cbn; lia.
    + unfold gate_attributes. rewrite Z.land_spec, testbit_u32, !Z.lor_spec, Z.land_spec, testbit_high, testbit_low by done. change (Z.shiftl (Z.land 0 3) 13) with 0. rewrite Z.bits_0, orb_false_r.
      destruct (Z.ltb_spec j 16) as [H16|H16].
      * rewrite (proj2 (Z.leb_gt 16 j)), (proj2 (Z.ltb_lt j 32)) by lia. cbn [andb]. by rewrite andb_false_r, andb_true_r.
      * rewrite andb_false_r. symmetry. apply Z.bits_above_log2; cbn; lia.
Qed.

(** [tvinit] sets all gates. *)
Lemma mkgate_other idt n kva pl j : 0 <= n < 256 -> 0 <= j < 256 -> j <> n -> forall k, (k < 3)%nat ->
  mkgate idt n kva pl !! (Z.to_nat (4 * j) + k)%nat = idt !! (Z.to_nat (4 * j) + k)%nat.
Proof.
  intros Hn Hj Hne k Hk. unfold mkgate. replace (u32 (n * 4)) with (4 * n) by (rewrite u32_id; [lia|unfold is_u32; lia]). cbv zeta. by rewrite !list_lookup_insert_ne by lia.
Qed.

Lemma gates_made vectors l : forall idt, NoDup l -> (forall n, n ∈ l -> 0 <= n < 256) -> (forall n, 0 <= vectors n < 2 ^ 64) -> length idt = 1024%nat ->
  forall n, 0 <= n < 256 -> n ∈ l \/ gate_to idt n (vectors n) -> gate_to (foldl (fun idt n => mkgate idt n (vectors n) 0) idt l) n (vectors n).
Proof.
  induction l as [|m l IH]; intros idt Hnd Hl Hvec Hlen n Hn Hor; cbn [foldl]; [destruct Hor as [Hin|]; [by apply not_elem_of_nil in Hin|done]|].
  apply NoDup_cons in Hnd as [Hm Hnd]. assert (Hm' : 0 <= m < 256) by (apply Hl, list_elem_of_here).
  apply IH; [done|intros k Hk; by apply Hl, list_elem_of_further|done|unfold mkgate; cbv zeta; by rewrite !length_insert|done|].
  destruct (decide (n = m)) as [->|Hne]; [right; by apply mkgate_spec|]. destruct Hor as [[?|Hin]%elem_of_cons|Hg]; [done|by left|]. right.
  destruct Hg as (w0 & w1 & w2 & E0 & E1 & E2 & Hg). exists w0, w1, w2. by rewrite !mkgate_other by (done || lia).
Qed.

(** Every trap number has a gate to its entry point. *)
Theorem tvinit_gates vectors n : (forall n, 0 <= vectors n < 2 ^ 64) -> 0 <= n < 256 -> gate_to (tvinit vectors) n (vectors n).
Proof.
  intros Hvec Hn. unfold tvinit. apply gates_made; [apply NoDup_seqZ|by intros k Hk%elem_of_seqZ|done|by rewrite length_replicate|done|]. left. apply elem_of_seqZ. lia.
Qed.

(** ** Ends of a trap *)

(** A process that was killed does not get back to user mode. *)
Lemma trap_return_alive cpunum i cs rows trapno s s' : user_mode cs = true ->
  trap cpunum (Some i) cs rows trapno s = (Ret TReturn, s') -> p_killed (procn (ts_tab s') i) = 0.
Proof.
  intros Hu. unfold trap, mbind, M_bind, gets. destruct (trap_switch _ _ _ _ _ s) as [[[]|h] s1]; [|done]. unfold killed_now. rewrite Hu, andb_true_r.
  destruct (Z.eqb_spec (p_killed (procn (ts_tab s1) i)) 0) as [E|E]; cbn [negb]; [|done]. destruct (_ && _)%bool; [done|]. by intros [= <-].
Qed.

(** Numbers of interrupts. *)
Definition interrupt (trapno : Z) : bool :=
  bool_decide (trapno ∈ [T_IRQ0 + IRQ_TIMER; T_IRQ0 + IRQ_KBD; T_IRQ0 + IRQ_COM1; T_IRQ0 + 7; T_IRQ0 + IRQ_IDE; T_IRQ0 + IRQ_IDE + 1; T_IRQ0 + IRQ_SPURIOUS]).

Lemma trap_switch_fault cpunum cur cs rows trapno : interrupt trapno = false ->
  trap_switch cpunum cur cs rows trapno = match cur with None => panic "trap" | Some i => if Z.land cs 3 =? 0 then panic "trap" else on_tab (upd i (set_killed 1)) end.
Proof.
  intros Hn%bool_decide_eq_false_1. rewrite !not_elem_of_cons in Hn. destruct Hn as (H1 & H2 & H3 & H4 & H5 & H6 & H7 & _). unfold trap_switch.
  by rewrite (proj2 (Z.eqb_neq _ _) H1), (proj2 (Z.eqb_neq _ _) H2), (proj2 (Z.eqb_neq _ _) H3), (proj2 (Z.eqb_neq _ _) H4), (proj2 (Z.eqb_neq _ _) H5), (proj2 (Z.eqb_neq _ _) H6), (proj2 (Z.eqb_neq _ _) H7).
Qed.

(** A fault ends the process that caused it in user mode, and nothing else; in
    the kernel it stops the system. *)
Theorem fault_is_contained cpunum cur cs rows trapno s : interrupt trapno = false ->
  match cur with
  | Some i => in_table (ts_tab s) i -> 
      trap cpunum (Some i) cs rows trapno s =
        if Z.land cs 3 =? 0 then (Halt (Panic "trap"), s)
        else if user_mode cs then (Ret TExit, mkTsys (upd i (set_killed 1) (ts_tab s)) (ts_ticks s) (ts_cons s))
        else (Ret TReturn, mkTsys (upd i (set_killed 1) (ts_tab s)) (ts_ticks s) (ts_cons s))
  | None => trap cpunum None cs rows trapno s = (Halt (Panic "trap"), s)
  end.
Proof.
  intros Hn. destruct cur as [i|]; [intros Hin|]; unfold trap, mbind, M_bind; rewrite trap_switch_fault by done; [|done]. destruct (Z.land cs 3 =? 0); [done|].
  unfold on_tab, modify, gets. cbn [ts_tab]. unfold killed_now. rewrite procn_upd_eq by done. cbn [p_killed set_killed negb andb Z.eqb]. destruct (user_mode cs); [done|].
  assert (E : (trapno =? T_IRQ0 + IRQ_TIMER) = false). { apply Z.eqb_neq. intros ->. done. } rewrite E, andb_false_r. done.
Qed.
