(* ===== verification/Clock.v ===== *)
(** * Clock: processes that sleep for a number of ticks

    The processes of Proc together with the trap handler and [sys_sleep]:
    traps on any processor, system calls and switches interleave. *)
From S2P Require Import Prelude Ipc Proc ProcInv Console Trap.

(** [ck_call i] is the call of [sys_sleep] slot [i] is in: [ticks0], [n] and,
    for the specification, the number of ticks since boot when it began.
    [ck_now] counts all ticks, and [ck_done] the calls that ended: [n], how long
    they took, the result and [proc->killed]. *)
Record clock := mkClock {
  ck_sys : sys;
  ck_ticks : Z;
  ck_cons : console;
  ck_call : nat -> option (Z * Z * Z);
  ck_now : Z;
  ck_done : list (Z * Z * Z * Z);
}.

Definition tsys_of (c : clock) : tsys := mkTsys (y_pt (ck_sys c)) (ck_ticks c) (ck_cons c).
Definition with_sys (s : sys) (c : clock) : clock := mkClock s (ck_ticks c) (ck_cons c) (ck_call c) (ck_now c) (ck_done c).
Definition with_tsys (s : tsys) (c : clock) : clock :=
  mkClock (mkSys (ts_tab s) (y_kont (ck_sys c)) (y_log (ck_sys c))) (ts_ticks s) (ts_cons s) (ck_call c) (ck_now c) (ck_done c).
Definition advance (d : Z) (c : clock) : clock := mkClock (ck_sys c) (ck_ticks c) (ck_cons c) (ck_call c) (ck_now c + d) (ck_done c).

(** The call of slot [cur] that began at [start] sleeps on, or ends. *)
Definition after_sleep (cur : nat) (ticks0 n start : Z) (r : option Z) (c : clock) : clock :=
  mkClock (ck_sys c) (ck_ticks c) (ck_cons c)
    (fun i => if decide (i = cur) then match r with None => Some (ticks0, n, start) | Some _ => None end else ck_call c i) (ck_now c)
    (ck_done c ++ match r with None => [] | Some r => [(n, ck_now c - start, r, p_killed (procn (y_pt (ck_sys c)) cur))] end).

Definition runs (c : clock) (i : nat) : Prop := is_state RUNNING (procn (y_pt (ck_sys c)) i) = true.

Inductive cstep : clock -> clock -> Prop :=
| cs_switch i t' c :
    scheduler_run i (y_pt (ck_sys c)) = Some t' -> cstep c (with_sys (mkSys t' (y_kont (ck_sys c)) (y_log (ck_sys c))) c)
| cs_act cur a s' c :
    runs c cur -> ck_call c cur = None -> exec cur a (ck_sys c) = Some s' -> cstep c (with_sys s' c)
| cs_trap cpunum cur cs rows trapno r s' c :
    (forall i, cur = Some i -> runs c i) -> trap cpunum cur cs rows trapno (tsys_of c) = (Ret r, s') ->
    cstep c (advance (if ((trapno =? T_IRQ0 + IRQ_TIMER) && (cpunum =? 0))%bool then 1 else 0) (with_tsys s' c))
| cs_sleep cur n r s' c :
    runs c cur -> ck_call c cur = None -> y_kont (ck_sys c) cur = KUser -> sys_sleep cur n (tsys_of c) = (r, s') ->
    cstep c (after_sleep cur (ck_ticks c) n (ck_now c) r (with_tsys s' c))
| cs_resume cur ticks0 n start r s' c :
    runs c cur -> ck_call c cur = Some (ticks0, n, start) -> sleep_resume cur ticks0 n (tsys_of c) = (r, s') ->
    cstep c (after_sleep cur ticks0 n start r (with_tsys s' c)).

Inductive creach (cons : console) : clock -> Prop :=
| cr_boot t : userinit ptable_static = Some t -> creach cons (mkClock (mkSys t (fun _ => KUser) []) 0 cons (fun _ => None) 0 [])
| cr_step c c' : creach cons c -> cstep c c' -> creach cons c'.

(** ** Sleepers are left alone or woken *)

Definition still (cur : option nat) (t t' : ptable) : Prop := forall i, cur <> Some i -> p_state (procn t' i) = SLEEPING ->
  p_state (procn t i) = SLEEPING /\ p_chan (procn t' i) = p_chan (procn t i).

Lemma still_refl cur t : still cur t t.
Proof. by intros i _ ?. Qed.

Lemma still_trans cur t1 t2 t3 : still cur t1 t2 -> still cur t2 t3 -> still cur t1 t3.
Proof. intros H1 H2 i Hi H. destruct (H2 i Hi H) as [H' E]. destruct (H1 i Hi H') as [H'' E']. split; [done|congruence]. Qed.

Lemma still_calm cur t t' : calm cur t t' -> still (Some cur) t t'.
Proof. intros Hc i Hi Hs. eapply calm_sleeping; [done| |done]. congruence. Qed.

Lemma still_wakeup1 cur c t : still cur t (wakeup1 c t).
Proof. intros i _. rewrite procn_wakeup1. intros Hs. destruct (sleeping_woken _ _ Hs) as (H & E & _). split; [done|by rewrite E]. Qed.

Lemma still_upd cur f t : still (Some cur) t (upd cur f t).
Proof. intros i Hi. rewrite procn_upd_ne by congruence. done. Qed.

Lemma still_upd_other cur j f t : (p_state (f (procn t j)) = SLEEPING -> p_state (procn t j) = SLEEPING /\ p_chan (f (procn t j)) = p_chan (procn t j)) -> still cur t (upd j f t).
Proof. intros Hf i _. rewrite procn_upd. case_decide as E; [destruct E as [-> _]; done|done]. Qed.

Lemma still_send_loop cur tgt m t : still (Some cur) t (send_loop cur tgt m t).2.
Proof.
  unfold send_loop. destruct (_ =? 1); [destruct (_ || _)%bool; cbn [snd]; [apply still_refl|apply still_upd]|]. cbn [snd].
  eapply still_trans; [|apply still_wakeup1]. by apply still_upd_other.
Qed.

Lemma still_ipc_send cur pid m t : still (Some cur) t (ipc_send_msg cur pid m t).2.
Proof.
  unfold ipc_send_msg. destruct (negb _); [apply still_refl|]. destruct (find_slot _ t) as [tgt|]; [|apply still_refl]. cbv zeta. destruct (_ || _)%bool; [apply still_refl|].
  pose proof (still_send_loop cur tgt (set_sender (p_pid (procn t cur)) m) t) as Hs. by destruct (send_loop _ _ _ _) as [r t'].
Qed.

Lemma still_recv cur t : still (Some cur) t (recv_loop cur t).2.
Proof.
  unfold recv_loop. destruct (_ =? 0); [destruct (negb _); cbn [snd]; [apply still_refl|apply still_upd]|]. cbn [snd]. eapply still_trans; [apply still_upd|apply still_wakeup1].
Qed.

Lemma still_wait cur t : still (Some cur) t (wait_loop cur t).2.
Proof.
  unfold wait_loop. destruct (find_slot _ t) as [i|]; cbn [snd]; [by apply still_upd_other|]. destruct (_ || _)%bool; [apply still_refl|apply still_upd].
Qed.

Lemma still_kill cur pid t : still cur t (kill pid t).2.
Proof.
  unfold kill. destruct (find_slot _ t) as [i|]; [|apply still_refl]. cbn [snd]. apply still_upd_other. cbv zeta. unfold is_state. case_bool_decide as E; [done|]. cbn in *. done.
Qed.

Lemma still_exit cur t : still (Some cur) t (exit_finish cur t).
Proof.
  unfold exit_finish. cbv zeta. eapply still_trans; [|apply still_upd]. eapply still_trans; [|by apply still_calm, calm_reparent].
  set (t1 := wakeup1 _ _). assert (H1 : still (Some cur) t t1).
  { eapply still_trans; [|apply still_wakeup1]. eapply still_trans; [|apply still_upd]. by destruct (_ =? _). }
  destruct (p_parent _); [|done]. by eapply still_trans; [|apply still_wakeup1].
Qed.

Lemma still_alloc cur t : still cur t (allocproc t).2.
Proof. unfold allocproc. destruct (find_slot _ t) as [i|]; [|apply still_refl]. cbn [snd]. intros j Hj. by apply (still_upd_other cur i). Qed.

Create HintDb still.
#[export] Hint Resolve still_refl still_wakeup1 still_upd still_exit still_kill : still.
#[export] Hint Extern 2 (still _ _ _) => by apply still_upd_other : still.

Lemma exec_still cur a s s' : exec cur a s = Some s' -> still (Some cur) (y_pt s) (y_pt s').
Proof.
  assert (Hsend : forall ex r w t, still (Some cur) (y_pt s) t -> still (Some cur) (y_pt s) (y_pt (after_send s cur ex r w t))).
  { intros ex r w t Ht. unfold after_send. destruct r, w as [[? ?]|]; try done; apply still_refl. }
  assert (Hrecv : forall r t, still (Some cur) (y_pt s) t -> still (Some cur) (y_pt s) (y_pt (after_recv s cur r t))) by (intros [[? ?]|] t Ht; done).
  assert (Hwait : forall r t, still (Some cur) (y_pt s) t -> still (Some cur) (y_pt s) (y_pt (after_wait s cur r t))) by (intros [[? ?]|] t Ht; done).
  assert (Hback : forall t, still (Some cur) (sleep_return cur (y_pt s)) t -> still (Some cur) (y_pt s) t) by (intros t Ht; eapply still_trans; [apply still_upd|exact Ht]).
  unfold exec. cbv zeta. destruct a, (y_kont s cur); try done; intros E; try (injection E as <-; cbn [y_pt]).
  all: try solve [auto with still|by apply still_upd_other|apply still_upd|exact (still_refl (Some cur) (y_pt s))].
  - pose proof (still_ipc_send cur pid msg (y_pt s)) as Hs. destruct (ipc_send_msg _ _ _ _) as [[r w] t']. injection E as <-. by apply Hsend.
  - pose proof (still_recv cur (y_pt s)) as Hs. unfold ipc_recv_msg in E. destruct (recv_loop _ _) as [r t']. injection E as <-. by apply Hrecv.
  - pose proof (still_wait cur (y_pt s)) as Hs. destruct (wait_loop _ _) as [r t']. injection E as <-. by apply Hwait.
  - destruct (_ =? _)%nat; [done|]. destruct (exit_notice _ _) as [pid|]; [|injection E as <-; apply still_refl].
    pose proof (still_ipc_send cur pid exit_msg (y_pt s)) as Hs. destruct (ipc_send_msg _ _ _ _) as [[r w] t']. injection E as <-. by apply Hsend.
  - pose proof (still_alloc (Some cur) (y_pt s)) as Hs. destruct (allocproc _) as [[np|] t']; by injection E as <-.
  - pose proof (still_send_loop cur tgt kmsg (sleep_return cur (y_pt s))) as Hs. unfold send_resume in E. destruct (send_loop _ _ _ _) as [r t']. injection E as <-. by apply Hsend, Hback.
  - pose proof (still_recv cur (sleep_return cur (y_pt s))) as Hs. unfold recv_resume in E. destruct (recv_loop _ _) as [r t']. injection E as <-. by apply Hrecv, Hback.
  - pose proof (still_wait cur (sleep_return cur (y_pt s))) as Hs. unfold wait_resume in E. destruct (wait_loop _ _) as [r t']. injection E as <-. by apply Hwait, Hback.
Qed.

(** ** The trap handler *)

Lemma wakeups_still cur ch n t : still cur t (Nat.iter n (wakeup1 ch) t).
Proof. induction n as [|n IH]; [apply still_refl|]. cbn [Nat.iter]. eapply still_trans; [exact IH|apply still_wakeup1]. Qed.

(** A trap leaves sleepers alone or wakes them; a tick wakes those that wait
    for the clock. *)
Lemma trap_still cpunum cur cs rows trapno s r s' : trap cpunum cur cs rows trapno s = (Ret r, s') ->
  let tick := ((trapno =? T_IRQ0 + IRQ_TIMER) && (cpunum =? 0))%bool in
  still None (ts_tab s) (ts_tab s') /\ ts_ticks s' = (if tick then u32 (ts_ticks s + 1) else ts_ticks s) /\
  (tick = true -> forall i, p_state (procn (ts_tab s') i) = SLEEPING -> p_chan (procn (ts_tab s') i) <> Some TICKS).
Proof.
  intros E tick.
  assert (Hsw : exists s1, trap_switch cpunum cur cs rows trapno s = (Ret tt, s1) /\ (ts_ticks s' = ts_ticks s1 /\ still None (ts_tab s1) (ts_tab s'))).
  { unfold trap in E. unfold mbind, M_bind, gets in E. destruct (trap_switch cpunum cur cs rows trapno s) as [[[]|h] s1]; [|done]. exists s1. split; [done|].
    destruct (killed_now _ _ _); [by injection E as <- <-|]. destruct cur as [i|]; [|by injection E as <- <-]. destruct (_ && _)%bool; [|by injection E as <- <-].
    unfold on_tab, modify in E. injection E as <- <-. split; [done|]. by apply still_upd_other. }
  destruct Hsw as (s1 & Esw & Et & Hst). rewrite Et. unfold tick. clear E. unfold trap_switch in Esw.
  assert (Hgo : still None (ts_tab s) (ts_tab s1) /\ ts_ticks s1 = (if tick then u32 (ts_ticks s + 1) else ts_ticks s) /\
    (tick = true -> forall i, p_state (procn (ts_tab s1) i) = SLEEPING -> p_chan (procn (ts_tab s1) i) <> Some TICKS)).
  { unfold tick. destruct (trapno =? T_IRQ0 + IRQ_TIMER); cbn [andb].
    { destruct (cpunum =? 0); [|by injection Esw as <-]. unfold mbind, M_bind, modify, on_tab in Esw. injection Esw as <-. cbn [ts_tab ts_ticks]. split; [apply still_wakeup1|]. split; [done|].
      intros _ i. rewrite procn_wakeup1. intros Hs. destruct (sleeping_woken _ _ Hs) as (_ & -> & Hne). done. }
    assert (Hcons : forall m, on_cons m s = (Ret tt, s1) -> still None (ts_tab s) (ts_tab s1) /\ ts_ticks s1 = ts_ticks s).
    { intros m Em. unfold on_cons in Em. destruct (m (ts_cons s)) as [o c]. injection Em as _ <-. split; [apply wakeups_still|done]. }
    assert (Hk : still None (ts_tab s) (ts_tab s1) /\ ts_ticks s1 = ts_ticks s); [|destruct Hk; split_and!; done].
    destruct (trapno =? T_IRQ0 + IRQ_IDE); [by injection Esw as <-|]. destruct (trapno =? T_IRQ0 + IRQ_IDE + 1); [by injection Esw as <-|].
    destruct (trapno =? T_IRQ0 + IRQ_KBD); [by eapply Hcons|]. destruct (trapno =? T_IRQ0 + IRQ_COM1); [by eapply Hcons|]. destruct (_ || _)%bool; [by injection Esw as <-|].
    destruct cur as [i|]; [|done]. destruct (Z.land cs 3 =? 0); [done|]. unfold on_tab, modify in Esw. injection Esw as <-. split; [|done]. by apply still_upd_other. }
  destruct Hgo as (G1 & G2 & G3). split; [by eapply still_trans|]. split; [done|]. intros Ht i Hs Hc. destruct (Hst i ltac:(done) Hs) as [Hs1 Hc1]. rewrite Hc1 in Hc. by apply (G3 Ht i).
Qed.

(** ** Sleeping for the time asked *)

Record cinv (c : clock) : Prop := {
  ci_ticks : ck_ticks c = u32 (ck_now c);
  ci_call : forall i ticks0 n start, ck_call c i = Some (ticks0, n, start) -> ticks0 = u32 start /\ start <= ck_now c /\
    (p_state (procn (y_pt (ck_sys c)) i) = SLEEPING -> p_chan (procn (y_pt (ck_sys c)) i) = Some TICKS /\ u32 (ck_now c - start) < u32 n);
  ci_done : forall n e r k, (n, e, r, k) ∈ ck_done c -> r = 0 /\ u32 n <= e \/ r = -1 /\ k <> 0;
}.

Lemma u32_sub x y : u32 (u32 x - u32 y) = u32 (x - y).
Proof. unfold u32. by rewrite <- Zminus_mod. Qed.

(** Steps of processes that are not in [sys_sleep]. *)
Lemma cinv_still cur s' c : cinv c -> still cur (y_pt (ck_sys c)) (y_pt s') -> (forall i, cur = Some i -> ck_call c i = None) -> cinv (with_sys s' c).
Proof.
  intros [I1 I2 I3] Hst Hcur. split; cbn; [done| |done]. intros i t0 n st Hc. destruct (I2 i t0 n st Hc) as (E1 & E2 & E3). split; [done|]. split; [done|].
  intros Hs. destruct (Hst i) as [Hs0 ->]; [|done|by apply E3]. intros E. by rewrite (Hcur i E) in Hc.
Qed.

(** A test of the loop of [sys_sleep]. *)
Lemma cinv_sleep cur t0 n start t1 r s' c : cinv c -> in_table t1 cur -> t0 = u32 start -> start <= ck_now c -> still (Some cur) (y_pt (ck_sys c)) t1 ->
  sleep_loop cur t0 n (mkTsys t1 (ck_ticks c) (ck_cons c)) = (r, s') -> cinv (after_sleep cur t0 n start r (with_tsys s' c)).
Proof.
  intros [I1 I2 I3] Hin -> Hst Hs1 E. unfold sleep_loop in E. cbn [ts_tab ts_ticks ts_cons] in E. rewrite I1, u32_sub in E.
  assert (Hother : forall t2, still (Some cur) t1 t2 -> forall i, i <> cur -> forall t0 n st, ck_call c i = Some (t0, n, st) -> t0 = u32 st /\ st <= ck_now c /\
    (p_state (procn t2 i) = SLEEPING -> p_chan (procn t2 i) = Some TICKS /\ u32 (ck_now c - st) < u32 n)).
  { intros t2 H2 i Hi t0 n0 st Hc. destruct (I2 i t0 n0 st Hc) as (E1 & E2 & E3). split; [done|]. split; [done|]. intros Hs.
    destruct (still_trans _ _ _ _ Hs1 H2 i ltac:(congruence) Hs) as [Hs0 ->]. by apply E3. }
  pose proof (u32_range (ck_now c - start)) as Hr. unfold is_u32 in Hr. assert (Hle : u32 (ck_now c - start) <= ck_now c - start) by (unfold u32; apply Z.mod_le; lia).
  destruct (Z.ltb_spec (u32 (ck_now c - start)) (u32 n)) as [Hlt|Hge]; [destruct (negb (p_killed (procn t1 cur) =? 0)) eqn:Ek|]; injection E as <- <-;
    (split; cbn [with_tsys after_sleep ck_sys ck_ticks ck_cons ck_call ck_now ck_done y_pt ts_tab ts_ticks]; [done| |]).
  - intros i t0 n0 st. case_decide as Ei; [done|]. by apply Hother; [apply still_refl|].
  - intros n0 e r k [Hin0|[= -> -> -> ->]%list_elem_of_singleton]%elem_of_app; [by eapply I3|]. right. split; [done|]. by apply negb_true_iff, Z.eqb_neq in Ek.
  - intros i t0 n0 st. case_decide as Ei; [|by apply Hother; [apply still_upd|]]. intros [= <- <- <-]. subst i. split; [done|]. split; [done|]. intros _.
    unfold sleep. rewrite procn_upd_eq by done. done.
  - intros n0 e r k. rewrite app_nil_r. apply I3.
  - intros i t0 n0 st. case_decide as Ei; [done|]. by apply Hother; [apply still_refl|].
  - intros n0 e r k [Hin0|[= -> -> -> ->]%list_elem_of_singleton]%elem_of_app; [by eapply I3|]. left. split; [done|lia].
Qed.

Lemma runs_in_table c i : runs c i -> in_table (y_pt (ck_sys c)) i.
Proof. unfold runs. rewrite is_state_true. intros Hr. apply live_in_table. unfold used. by rewrite Hr. Qed.

Lemma cstep_inv c c' : cinv c -> cstep c c' -> cinv c'.
Proof.
  intros Hc Hstep. revert Hc. destruct Hstep as [i t' c0 Hs|cur a s' c0 Hr Hn He|cpunum cur cs rows trapno r s' c0 Hr Ht|cur n r s' c0 Hr Hn Hk Hs|cur t0 n st r s' c0 Hr Hn Hs]; intros Hc.
  - unfold scheduler_run in Hs. destruct (is_state _ _); [|done]. injection Hs as <-. eapply (cinv_still None); [done| |by intros ? ?]. by apply still_upd_other.
  - eapply (cinv_still (Some cur)); [done|by eapply exec_still|]. by intros i [= ->].
  - destruct (trap_still _ _ _ _ _ _ _ _ Ht) as (Hst & Hti & Htick). destruct Hc as [I1 I2 I3]. set (tick := (_ && _)%bool) in *. cbn [tsys_of ts_tab ts_ticks] in *.
    split; cbn [advance with_tsys ck_sys ck_ticks ck_call ck_now ck_done y_pt].
    + rewrite Hti, I1. destruct tick; [unfold u32; by rewrite Zplus_mod_idemp_l|by rewrite Z.add_0_r].
    + intros i t0 n st Hi. destruct (I2 i t0 n st Hi) as (E1 & E2 & E3). split; [done|]. split; [destruct tick; lia|]. intros Hs.
      destruct (Hst i ltac:(done) Hs) as [Hs0 Hch]. destruct (E3 Hs0) as [E4 E5]. rewrite Hch, E4. split; [done|].
      destruct tick; [|by rewrite Z.add_0_r]. destruct (Htick eq_refl i Hs). by rewrite Hch.
    + done.
  - eapply (cinv_sleep cur _ n _ (y_pt (ck_sys c0))); [done|by apply runs_in_table|apply Hc|lia|apply still_refl|exact Hs].
  - destruct (ci_call _ Hc _ _ _ _ Hn) as (E1 & E2 & _). eapply (cinv_sleep cur t0 n st (sleep_return cur (y_pt (ck_sys c0)))); [done| |done|done|apply still_upd|exact Hs].
    unfold in_table, sleep_return. rewrite length_upd. by apply runs_in_table.
Qed.

(** C11: In every interleaving of processes, interrupts and system calls, on any
    number of processors: a process asleep in [sleep(n)] has not yet slept for
    [n] ticks (it is woken in time); a call that returns 0 took at least [n] ticks,
    also when the tick counter wraps around; a call that returns -1 was killed;
    and [uptime] is the number of ticks as a 32-bit integer. *)
Theorem sleep_is_on_time cons c : creach cons c ->
  (forall i ticks0 n start, ck_call c i = Some (ticks0, n, start) -> p_state (procn (y_pt (ck_sys c)) i) = SLEEPING -> u32 (ck_now c - start) < u32 n) /\
  (forall n e r k, (n, e, r, k) ∈ ck_done c -> r = 0 /\ u32 n <= e \/ r = -1 /\ k <> 0) /\
  sys_uptime (tsys_of c) = s32 (u32 (ck_now c)).
Proof.
  intros Hr. assert (Hi : cinv c). { induction Hr as [t Ht|c c' _ IH Hs]; [|by eapply cstep_inv]. by split; [..|intros n e r k ?%not_elem_of_nil]. }
  destruct Hi as [I1 I2 I3]. split; [|split; [done|]].
  - intros i t0 n st Hc Hs. by apply (I2 i t0 n st Hc).
  - unfold sys_uptime. cbn [tsys_of ts_ticks]. by rewrite I1.
Qed.

(** ** An instance: the first process sleeps for a tick *)
Module ClockInstances.
Definition boot : ptable := default ptable_static (userinit ptable_static).
Definition screen : console := mkConsole false true true [] (replicate CRTCELLS 0) 0 (mkInput (replicate 128 0) 0 0 0) 0 false [] [] 0.
Definition c0 : clock := mkClock (mkSys boot (fun _ => KUser) []) 0 screen (fun _ => None) 0 [].
Definition switch (i : nat) (c : clock) : clock :=
  with_sys (mkSys (default ptable_static (scheduler_run i (y_pt (ck_sys c)))) (y_kont (ck_sys c)) (y_log (ck_sys c))) c.
Definition c1 : clock := switch 0 c0.
Definition c2 : clock := after_sleep 0 0 1 0 None (with_tsys (sys_sleep 0 1 (tsys_of c1)).2 c1).
Definition c3 : clock := advance 1 (with_tsys (trap 0 None 8 [] 32 (tsys_of c2)).2 c2).
Definition c4 : clock := switch 0 c3.
Definition c5 : clock := after_sleep 0 0 1 0 (Some 0) (with_tsys (sleep_resume 0 0 1 (tsys_of c4)).2 c4).

Lemma switch_step i c : is_state RUNNABLE (procn (y_pt (ck_sys c)) i) = true -> cstep c (switch i c).
Proof. intros E. apply (cs_switch i). unfold scheduler_run. by rewrite E. Qed.

Lemma result_pair {A B} (x : A * B) a : x.1 = a -> x = (a, x.2).
Proof. by destruct x as [? ?]; intros <-. Qed.

Lemma reached : creach screen c5.
Proof.
  assert (H0 : creach screen c0). { apply (cr_boot screen boot). unfold boot. by destruct (userinit ptable_static) eqn:E; [|vm_compute in E]. }
  assert (H1 : creach screen c1). { eapply cr_step; [exact H0|]. apply switch_step. by vm_compute. }
  assert (H2 : creach screen c2). { eapply cr_step; [exact H1|]. apply (cs_sleep 0 1 None); [by vm_compute|done|done|]. apply result_pair. by vm_compute. }
  assert (H3 : creach screen c3). { eapply cr_step; [exact H2|]. apply (cs_trap 0 None 8 [] 32 TReturn); [done|]. apply result_pair. by vm_compute. }
  assert (H4 : creach screen c4). { eapply cr_step; [exact H3|]. apply switch_step. by vm_compute. }
  eapply cr_step; [exact H4|]. apply (cs_resume 0 0 1 0 (Some 0)); [by vm_compute|by vm_compute|]. apply result_pair. by vm_compute.
Qed.

Lemma sleep_is_on_time_witness : ck_done c5 = [(1, 1, 0, 0)] /\ sys_uptime (tsys_of c5) = s32 (u32 (ck_now c5)).
Proof. split; [vm_compute; reflexivity|]. exact (proj2 (proj2 (sleep_is_on_time screen c5 reached))). Defined.
End ClockInstances.
