(* ===== verification/UserProgs.v ===== *)
(** * UserProgs: wc.c, cat.c, echo.c, the names of ls.c, and input lines

    A file that is read is the list of what its [read] calls return before the
    last one, which returns 0 at the end of the file and -1 on an error. *)
From S2P Require Import Prelude CString FsFormat.

Record source := mkSource { src_chunks : list (list Z); src_error : bool }.

(** ** wc *)

(** The counters of [wc]: lines, words, characters and [inword]. *)
Record counts := mkCounts { n_l : Z; n_w : Z; n_c : Z; n_in : bool }.

Definition wc_space : list Z := [32; 13; 9; 10; 11; 0].

(** One round of the loop over the buffer. *)
Definition wc_char (st : counts) (ch : Z) : counts :=
  let c := s32 (n_c st + 1) in
  let l := if ch =? 10 then s32 (n_l st + 1) else n_l st in
  match strchr wc_space ch with
  | Some (Some _) => mkCounts l (n_w st) c false
  | _ => if n_in st then mkCounts l (n_w st) c true else mkCounts l (s32 (n_w st + 1)) c true
  end.

(** The loop over the buffers; [None] is the read error. *)
Definition wc (f : source) : option (Z * Z * Z) :=
  let st := foldl (foldl wc_char) (mkCounts 0 0 0 false) (src_chunks f) in
  if src_error f then None else Some (n_l st, n_w st, n_c st).

(** ** cat *)

Inductive cat_end : Type := CatDone | CatReadError | CatWriteError.

(** [wrote n] is what the call of [write] for [n] bytes returns; the result is
    what the complete calls have written and how the function ends. *)
Fixpoint cat_loop (wrote : list Z -> Z) (chunks : list (list Z)) (error : bool) : list Z * cat_end :=
  match chunks with
  | [] => ([], if error then CatReadError else CatDone)
  | buf :: chunks =>
      if negb (wrote buf =? Z.of_nat (length buf)) then ([], CatWriteError)
      else let x := cat_loop wrote chunks error in (buf ++ x.1, x.2)
  end.
Definition cat (wrote : list Z -> Z) (f : source) : list Z * cat_end := cat_loop wrote (src_chunks f) (src_error f).

(** ** echo *)

(** The loop of [main] on [argv[i..]]. *)
Fixpoint echo_loop (argv : list (list Z)) : list Z :=
  match argv with
  | [] => []
  | a :: argv => a ++ (match argv with [] => [10] | _ => [32] end) ++ echo_loop argv
  end.
Definition echo (argv : list (list Z)) : list Z := echo_loop (drop 1 argv).

(** ** ls *)

(** [for(p=path+strlen(path); p >= path && *p != '/'; p--); p++;] on the path
    read backwards. *)
Fixpoint back_to_slash (rpath p : list Z) : list Z :=
  match rpath with
  | [] => p
  | c :: rpath => if c =? SLASH then p else back_to_slash rpath (c :: p)
  end.

Definition fmtname (path : list Z) : list Z :=
  let p := back_to_slash (rev path) [] in
  if (DIRSIZ <=? length p)%nat then p else p ++ replicate (DIRSIZ - length p) 32.

(** ** Input lines *)

(** The loop of [gets] with [room] characters left; each [read] gets the next
    character of the input. *)
Fixpoint gets_loop (room : nat) (input : list Z) : list Z * list Z :=
  match room, input with
  | S room, c :: rest =>
      if ((c =? 10) || (c =? 13))%bool then ([c], rest)
      else let x := gets_loop room rest in (c :: x.1, x.2)
  | _, _ => ([], input)
  end.
Definition gets (max : Z) (input : list Z) : list Z * list Z := let x := gets_loop (Z.to_nat (max - 1)) input in (x.1 ++ [0], x.2).

(** [getcmd] of sh.c: the buffer, zeroed first, and the rest of the input, or
    [None] at its end. *)
Definition getcmd (nbuf : Z) (input : list Z) : option (list Z * list Z) :=
  let x := gets nbuf input in
  let buf := x.1 ++ replicate (Z.to_nat nbuf - length x.1) 0 in
  if default 0 (head buf) =? 0 then None else Some (buf, x.2).

(** The commands the loop of [main] reads. *)
Fixpoint getcmds (fuel : nat) (input : list Z) : list (list Z) :=
  match fuel with
  | O => []
  | S fuel => match getcmd 100 input with Some (buf, rest) => buf :: getcmds fuel rest | None => [] end
  end.

(** ** What they compute *)

Definition space (c : Z) : bool := bool_decide (c ∈ [32; 13; 9; 10; 11]).

(** A word starts at position [i]. *)
Definition word_start (s : list Z) (i : nat) : bool :=
  match s !! i with
  | Some c => (negb (space c) && match i with O => true | S j => match s !! j with Some d => space d | None => true end end)%bool
  | None => false
  end.
Definition words (s : list Z) : nat := length (List.filter (word_start s) (seq 0 (length s))).
Definition newlines (s : list Z) : nat := length (List.filter (fun c => c =? 10) s).

Lemma strchr_space c : match strchr wc_space c with Some (Some _) => space c = true | _ => space c = false end.
Proof.
  unfold wc_space, space. cbn [strchr]. change (32 =? 0) with false. change (13 =? 0) with false. change (9 =? 0) with false. change (10 =? 0) with false.
  change (11 =? 0) with false. change (0 =? 0) with true. cbv iota. destruct (Z.eqb_spec 32 c) as [<-|]; [done|]. destruct (Z.eqb_spec 13 c) as [<-|]; [done|].
  destruct (Z.eqb_spec 9 c) as [<-|]; [done|]. destruct (Z.eqb_spec 10 c) as [<-|]; [done|]. destruct (Z.eqb_spec 11 c) as [<-|]; [done|]. apply bool_decide_false. rewrite !elem_of_cons, elem_of_nil. intuition lia.
Qed.

Lemma word_start_app s x i : (i < length s)%nat -> word_start (s ++ [x]) i = word_start s i.
Proof.
  intros Hi. unfold word_start. rewrite lookup_app_l by done. destruct (s !! i); [|done]. destruct i as [|j]; [done|]. by rewrite lookup_app_l by lia.
Qed.

(** A word is running at the end of [s]. *)
Definition in_word (s : list Z) : bool := match last s with Some c => negb (space c) | None => false end.

Lemma words_snoc s x : words (s ++ [x]) = (words s + (if (negb (space x) && negb (in_word s))%bool then 1 else 0))%nat.
Proof.
  unfold words. rewrite length_app, seq_app, List.filter_app, length_app. f_equal.
  - f_equal. apply List.filter_ext_in. intros i Hi%in_seq. apply word_start_app. lia.
  - cbn [Nat.add seq length List.filter]. unfold word_start. rewrite lookup_app_r, Nat.sub_diag by done. cbn [lookup list_lookup].
    assert (E : match length s with O => true | S j => match (s ++ [x]) !! j with Some d => space d | None => true end end = negb (in_word s)).
    { unfold in_word. destruct s as [|y s _] using rev_ind; [done|]. rewrite length_app, last_snoc, Nat.add_1_r. cbn [length Nat.add]. rewrite lookup_app_l, lookup_app_r, Nat.sub_diag by (rewrite ?length_app; cbn; lia).
      cbn [lookup list_lookup]. by rewrite negb_involutive. }
    rewrite E. by destruct (_ && _)%bool.
Qed.

Lemma wc_fold s : Z.of_nat (length s) < 2 ^ 31 ->
  foldl wc_char (mkCounts 0 0 0 false) s = mkCounts (Z.of_nat (newlines s)) (Z.of_nat (words s)) (Z.of_nat (length s)) (in_word s).
Proof.
  induction s as [|x s IH] using rev_ind; intros Hl; [done|]. rewrite length_app in Hl. cbn [length] in Hl. rewrite foldl_app, IH by lia. cbn [foldl]. unfold wc_char. cbn [n_l n_w n_c n_in].
  pose proof (strchr_space x) as Hx. rewrite words_snoc. unfold newlines. rewrite List.filter_app, !length_app. cbn [length List.filter].
  assert (Hn : (length (List.filter (fun c => (c =? 10)%Z) s) <= length s)%nat) by apply List.filter_length_le.
  assert (Hw : (words s <= length s)%nat) by (unfold words; etransitivity; [apply List.filter_length_le|]; by rewrite length_seq).
  assert (El : in_word (s ++ [x]) = negb (space x)) by (unfold in_word; by rewrite last_snoc). rewrite El.
  assert (Hs : forall y, (y <= length s)%nat -> s32 (Z.of_nat y + 1) = Z.of_nat (y + 1)) by (intros y Hy; rewrite s32_id by (unfold is_s32; lia); lia).
  destruct (strchr wc_space x) as [[?|]|]; rewrite Hx; cbn [negb andb]; destruct (x =? 10); cbn [length]; try destruct (in_word s); cbn [negb]; rewrite ?Hs, ?Nat.add_0_r by lia; done.
Qed.

(** C35: [wc] prints the number of newlines, of words and of bytes of its input,
    however [read] cuts the input into pieces; a word is a longest run of bytes
    that are not white space. *)
Theorem wc_counts chunks : Z.of_nat (length (concat chunks)) < 2 ^ 31 ->
  let s := concat chunks in
  wc (mkSource chunks false) = Some (Z.of_nat (newlines s), Z.of_nat (words s), Z.of_nat (length s)).
Proof.
  intros Hl s. unfold wc. cbn [src_chunks src_error].
  assert (E : forall l st, foldl (foldl wc_char) st l = foldl wc_char st (concat l)).
  { induction l as [|c l IH]; intros st; [done|]. cbn [foldl concat]. by rewrite IH, foldl_app. }
  rewrite E, wc_fold by done. done.
Qed.

Lemma wc_counts_witness : wc (mkSource [[97; 98]; [99; 32; 32; 100; 10]; [10; 101]] false) = Some (2, 3, 9).
Proof. apply (wc_counts [[97; 98]; [99; 32; 32; 100; 10]; [10; 101]]). reflexivity. Defined.

(** [cat] copies its input if all writes are complete, and else a part of it
    from the start. *)
Lemma cat_copies wrote f : exists rest, concat (src_chunks f) = (cat wrote f).1 ++ rest /\ ((cat wrote f).2 <> CatWriteError -> rest = []).
Proof.
  unfold cat. induction (src_chunks f) as [|c l IH]; cbn [cat_loop concat]; [by exists []|]. destruct (negb _); cbn [fst snd]; [by eexists|].
  destruct IH as (rest & -> & Hr). exists rest. by rewrite app_assoc.
Qed.

(** A line that fits is read whole; of a longer one the first [max - 1]
    characters, so that [sh] takes the rest for the next command. *)
Lemma gets_line max line rest : Forall (fun c => c <> 10 /\ c <> 13) line -> 0 < max ->
  if decide (Z.of_nat (length line) + 1 < max) then gets max (line ++ 10 :: rest) = (line ++ [10; 0], rest)
  else gets max (line ++ 10 :: rest) = (take (Z.to_nat (max - 1)) line ++ [0], drop (Z.to_nat (max - 1)) line ++ 10 :: rest).
Proof.
  intros Hl Hmax. unfold gets. assert (E : forall room, gets_loop room (line ++ 10 :: rest) =
    if decide (length line < room)%nat then (line ++ [10], rest) else (take room line, drop room line ++ 10 :: rest)).
  { clear Hmax. induction line as [|c line IH]; intros [|room]; cbn [gets_loop app length]; [done|done|done|]. apply Forall_cons in Hl as [[H1 H2] Hl].
    rewrite (proj2 (Z.eqb_neq c 10)), (proj2 (Z.eqb_neq c 13)) by done. cbn [orb]. rewrite (IH Hl room). repeat case_decide; try lia; done. }
  rewrite E. repeat case_decide; try lia; cbn [fst snd]; [by rewrite <- app_assoc|done].
Qed.

(** [fmtname] gives the last element of the path, padded with blanks to the
    width of a directory entry. *)
Lemma back_to_slash_app l r : forall p, SLASH ∉ l -> back_to_slash (l ++ SLASH :: r) p = rev l ++ p.
Proof.
  induction l as [|c l IH]; intros p Hl; cbn [app back_to_slash rev]; [done|]. apply not_elem_of_cons in Hl as [Hc Hl].
  rewrite (proj2 (Z.eqb_neq c SLASH)) by congruence. rewrite IH by done. by rewrite <- app_assoc.
Qed.

Lemma fmtname_last dir name : SLASH ∉ name -> fmtname (dir ++ SLASH :: name) = name ++ replicate (DIRSIZ - length name) 32.
Proof.
  intros Hn. unfold fmtname. rewrite rev_app_distr. cbn [rev]. rewrite <- app_assoc. cbn [app].
  rewrite back_to_slash_app, rev_involutive, app_nil_r by (by intros ?%list_elem_of_In%in_rev%list_elem_of_In). destruct (Nat.leb_spec DIRSIZ (length name)); [|done].
  replace (DIRSIZ - length name)%nat with 0%nat by lia. by rewrite app_nil_r.
Qed.
