(* ===== verification/ShRun.v ===== *)
(** * ShRun: the shell runs commands (runcmd and main of sh.c)

    The code of a user process is the tree of its system calls, a process has a
    table of descriptors as in sysfile.c, and the processes a shell starts
    interleave.  Pipes are numbered in the order they are made.  What the
    programs do that [exec] starts is left open. *)
From S2P Require Import Prelude CString FsFormat Sh.

(** ** Descriptors *)

Inductive ofile : Type :=
| OConsole
| OFile (path : list Z) (mode : Z)
| OPipeR (n : nat)
| OPipeW (n : nat).

Abbreviation fds := (list (option ofile)).

(** [fdalloc]: the lowest free descriptor. *)
Definition lowest (T : fds) : option nat :=
  List.find (fun fd => match T !! fd with Some None => true | _ => false end) (seq 0 (length T)).

(** [argfd]. *)
Definition fd_get (fd : Z) (T : fds) : option ofile := if fd <? 0 then None else mjoin (T !! Z.to_nat fd).

Definition fd_close (fd : Z) (T : fds) : fds := match fd_get fd T with Some _ => <[Z.to_nat fd := None]> T | None => T end.

Definition fd_dup (fd : Z) (T : fds) : fds :=
  match fd_get fd T, lowest T with Some f, Some d => <[d := Some f]> T | _, _ => T end.

(** ** Programs *)

(** A system call and what follows it, given its result; [PPrint] is a [printf],
    its format without the newline at the end. *)
Inductive prog : Type :=
| PExit
| PPrint (fd : Z) (fmt : string) (args : list (list Z)) (k : prog)
| PExec (path : list Z) (argv : list (list Z)) (k : prog)
| PClose (fd : Z) (k : prog)
| PDup (fd : Z) (k : prog)
| POpen (path : list Z) (mode : Z) (k : Z -> prog)
| PPipe (k : Z -> Z -> Z -> prog)
| PFork (k : Z -> prog)
| PWait (k : prog)
| PChdir (path : list Z) (k : Z -> prog).

Definition sh_panic (s : string) : prog := PPrint 2 s [] PExit.

Definition fork1 (k : Z -> prog) : prog := PFork (fun pid => if pid =? -1 then sh_panic "fork" else k pid).

(** The parser returns no null command. *)
Fixpoint runcmd (c : cmd (list Z)) : prog :=
  match c with
  | EXEC argv =>
      match argv with
      | [] => PExit
      | a :: _ => PExec a argv (PPrint 2 "exec %s failed" [a] PExit)
      end
  | REDIR c file mode fd =>
      PClose fd (POpen file mode (fun r => if r <? 0 then PPrint 2 "open %s failed" [file] PExit else runcmd c))
  | LIST l r =>
      fork1 (fun pid => if pid =? 0 then runcmd l else PWait (runcmd r))
  | PIPE l r =>
      PPipe (fun x p0 p1 =>
        if x <? 0 then sh_panic "pipe"
        else fork1 (fun pid =>
          if pid =? 0 then PClose 1 (PDup p1 (PClose p0 (PClose p1 (runcmd l))))
          else fork1 (fun pid =>
            if pid =? 0 then PClose 0 (PDup p0 (PClose p0 (PClose p1 (runcmd r))))
            else PClose p0 (PClose p1 (PWait (PWait PExit))))))
  | BACK c => fork1 (fun pid => if pid =? 0 then runcmd c else PExit)
  end.

(** The command of a line, its strings read from the buffer, or the message of
    the parser. *)
Fixpoint resolve (buf : list Z) (c : cmd (nat * nat)) : cmd (list Z) :=
  match c with
  | EXEC argv => EXEC (map (fun sp => cstr (drop sp.1 buf)) argv)
  | REDIR c f mode fd => REDIR (resolve buf c) (cstr (drop f.1 buf)) mode fd
  | PIPE l r => PIPE (resolve buf l) (resolve buf r)
  | LIST l r => LIST (resolve buf l) (resolve buf r)
  | BACK c => BACK (resolve buf c)
  end.

Definition run_line (buf : list Z) : prog :=
  match (parsecmd buf []).1 with
  | Ret (c, buf) => runcmd (resolve buf c)
  | Halt (Panic msg) => sh_panic msg
  | Halt _ => PExit
  end.

(** [main] after it has opened the console, on the lines that [getcmd] reads. *)
Fixpoint sh_loop (lines : list (list Z)) : prog :=
  match lines with
  | [] => PExit
  | buf :: lines =>
      if bool_decide (take 3 buf = [99; 100; 32]) then
        let dir := drop 3 (removelast (cstr buf)) in
        PChdir dir (fun r => if r <? 0 then PPrint 2 "cannot cd %s" [dir] (sh_loop lines) else sh_loop lines)
      else fork1 (fun pid => if pid =? 0 then run_line buf else PWait (sh_loop lines))
  end.

(** The descriptors 0, 1 and 2 are made sure of; there are [fuel] of them. *)
Fixpoint open_console (fuel : nat) (k : prog) : prog :=
  match fuel with
  | O => k
  | S fuel => POpen [99; 111; 110; 115; 111; 108; 101] 2 (fun fd => if 0 <=? fd then if 3 <=? fd then PClose fd k else open_console fuel k else k)
  end.

Definition sh_main (lines : list (list Z)) : prog := open_console 17 (sh_loop lines).

(** ** The processes of a shell *)

(** [exec] was called with the path, the arguments and these descriptors. *)
Abbreviation exec_event := (list Z * list (list Z) * fds)%type.

Inductive life : Type := Running (p : prog) | Other | Zombie | Reaped.

Record shproc := mkU { up_life : life; up_fds : fds; up_parent : option nat }.

(** The processes by pid, the number of pipes, and the programs started. *)
Record ush := mkUsh { us_procs : list shproc; us_pipes : nat; us_log : list exec_event }.

(** Calls of a process that only change its own descriptors; [ns] are the pipes
    they make. *)
Inductive lstep (n : nat) : prog -> fds -> prog -> fds -> list nat -> Prop :=
| l_print fd fmt args k T : lstep n (PPrint fd fmt args k) T k T []
| l_exec_fails path argv k T : lstep n (PExec path argv k) T k T []
| l_close fd k T : lstep n (PClose fd k) T k (fd_close fd T) []
| l_dup fd k T : lstep n (PDup fd k) T k (fd_dup fd T) []
| l_open path mode k d T : lowest T = Some d -> lstep n (POpen path mode k) T (k (Z.of_nat d)) (<[d := Some (OFile path mode)]> T) []
| l_open_fails path mode k T : lstep n (POpen path mode k) T (k (-1)) T []
| l_pipe k T d0 d1 : lowest T = Some d0 -> lowest (<[d0 := Some (OPipeR n)]> T) = Some d1 ->
    lstep n (PPipe k) T (k 0 (Z.of_nat d0) (Z.of_nat d1)) (<[d1 := Some (OPipeW n)]> (<[d0 := Some (OPipeR n)]> T)) [n]
| l_pipe_fails k p0 p1 T : lstep n (PPipe k) T (k (-1) p0 p1) T []
| l_fork_fails k T : lstep n (PFork k) T (k (-1)) T []
| l_chdir path k r T : r = 0 \/ r = -1 -> lstep n (PChdir path k) T (k r) T [].

(** [exit] gives the children to init. *)
Definition orphan (i : nat) (u : shproc) : shproc :=
  mkU (up_life u) (up_fds u) (if decide (up_parent u = Some i) then None else up_parent u).

Inductive mstep : ush -> ush -> Prop :=
| m_local i u p p' T' ns s : us_procs s !! i = Some u -> up_life u = Running p -> lstep (us_pipes s) p (up_fds u) p' T' ns ->
    mstep s (mkUsh (<[i := mkU (Running p') T' (up_parent u)]> (us_procs s)) (us_pipes s + length ns) (us_log s))
| m_exec i u path argv k s : us_procs s !! i = Some u -> up_life u = Running (PExec path argv k) ->
    mstep s (mkUsh (<[i := mkU Other (up_fds u) (up_parent u)]> (us_procs s)) (us_pipes s) (us_log s ++ [(path, argv, up_fds u)]))
| m_fork i u k s : us_procs s !! i = Some u -> up_life u = Running (PFork k) ->
    mstep s (mkUsh (<[i := mkU (Running (k (Z.of_nat (length (us_procs s))))) (up_fds u) (up_parent u)]> (us_procs s) ++
                    [mkU (Running (k 0)) (up_fds u) (Some i)]) (us_pipes s) (us_log s))
| m_wait i u k j w s : us_procs s !! i = Some u -> up_life u = Running (PWait k) ->
    us_procs s !! j = Some w -> up_parent w = Some i -> up_life w = Zombie ->
    mstep s (mkUsh (<[i := mkU (Running k) (up_fds u) (up_parent u)]> (<[j := mkU Reaped (up_fds w) None]> (us_procs s))) (us_pipes s) (us_log s))
| m_wait_none i u k s : us_procs s !! i = Some u -> up_life u = Running (PWait k) -> Forall (fun w => up_parent w <> Some i) (us_procs s) ->
    mstep s (mkUsh (<[i := mkU (Running k) (up_fds u) (up_parent u)]> (us_procs s)) (us_pipes s) (us_log s))
| m_exit i u s : us_procs s !! i = Some u -> up_life u = Running PExit \/ up_life u = Other ->
    mstep s (mkUsh (orphan i <$> <[i := mkU Zombie (up_fds u) (up_parent u)]> (us_procs s)) (us_pipes s) (us_log s)).

Inductive mreach (p : prog) (T : fds) : ush -> Prop :=
| mr_start : mreach p T (mkUsh [mkU (Running p) T None] 0 [])
| mr_step s s' : mreach p T s -> mstep s s' -> mreach p T s'.
