(* ===== verification/ShWires.v ===== *)
(** * ShWires: every program of a command line gets the right descriptors *)
From S2P Require Import Prelude CString FsFormat Sh ShProof ShRun.

(** ** Processes without their interleaving *)

(** The programs [es] that a process and its descendants start, and the pipes
    [ns] they make, up to some point of their execution. *)
Inductive tree : prog -> fds -> list exec_event -> list nat -> Prop :=
| tr_stop p T : tree p T [] []
| tr_local n p T p' T' ns es ms : lstep n p T p' T' ns -> tree p' T' es ms -> tree p T es (ns ++ ms)
| tr_exec path argv k T : tree (PExec path argv k) T [(path, argv, T)] []
| tr_fork k pid T e1 n1 e2 n2 : 0 < pid -> tree (k 0) T e1 n1 -> tree (k pid) T e2 n2 -> tree (PFork k) T (e1 ++ e2) (n1 ++ n2)
| tr_wait k T es ns : tree k T es ns -> tree (PWait k) T es ns.

(** What a process is still going to do. *)
Definition plan (u : shproc) (g : list exec_event * list nat) : Prop :=
  match up_life u with Running p => tree p (up_fds u) g.1 g.2 | _ => g = ([], []) end.

Lemma focus procs i u u' gs : procs !! i = Some u -> Forall2 plan (<[i := u']> procs) gs ->
  exists g1 g g2, gs = g1 ++ g :: g2 /\ plan u' g /\ forall g0, plan u g0 -> Forall2 plan procs (g1 ++ g0 :: g2).
Proof.
  intros Hi HF. pose proof (take_drop_middle _ _ _ Hi) as E. pose proof (lookup_lt_Some _ _ _ Hi) as Hlt. rewrite <- E in HF. rewrite insert_app_r_alt in HF by (rewrite length_take; lia).
  rewrite length_take, Nat.min_l, Nat.sub_diag in HF by lia. cbn in HF. apply Forall2_app_inv_l in HF as (g1 & gs' & H1 & H2 & ->).
  apply Forall2_cons_inv_l in H2 as (g & g2 & Hg & H2 & ->). exists g1, g, g2. split; [done|]. split; [done|]. intros g0 H0. rewrite <- E. apply Forall2_app; [done|]. by constructor.
Qed.

Lemma lstep_pipes n p T p' T' ns : lstep n p T p' T' ns -> ns = seq n (length ns).
Proof. by intros []. Qed.

Lemma plan_orphan i l gs : Forall2 plan (orphan i <$> l) gs <-> Forall2 plan l gs.
Proof. rewrite Forall2_fmap_l. split; intros HF; (eapply Forall2_impl; [exact HF|]); by intros u g. Qed.

(** Whatever the live processes do next completes what has been done to an
    execution of the first process without interleaving. *)
Lemma simulate p T s : mreach p T s -> forall gs, Forall2 plan (us_procs s) gs ->
  exists es ns, tree p T es ns /\ es ≡ₚ us_log s ++ concat gs.*1 /\ ns ≡ₚ seq 0 (us_pipes s) ++ concat gs.*2.
Proof.
  induction 1 as [|s s' Hr IH Hstep]; intros gs HF.
  { cbn in HF. apply Forall2_cons_inv_l in HF as (g & g' & Hg & ->%Forall2_nil_inv_l & ->). exists g.1, g.2. split; [done|]. cbn. by rewrite !app_nil_r. }
  revert Hr IH HF. destruct Hstep as [i u q p' T' ns s Hi Hu Hl|i u path argv k s Hi Hu|i u k s Hi Hu|i u k j w s Hi Hu Hj Hpw Hw|i u k s Hi Hu Hn|i u s Hi Hu]; intros Hr IH HF; cbn [us_procs us_pipes us_log] in *.
  - destruct (focus _ _ _ _ _ Hi HF) as (g1 & g & g2 & -> & Hg & Hback). destruct (IH (g1 ++ (g.1, ns ++ g.2) :: g2)) as (es & ms & Htr & He & Hm).
    { apply Hback. unfold plan in *. rewrite Hu. cbn in *. by eapply tr_local. }
    exists es, ms. split; [done|]. split; [by rewrite He, !fmap_app|]. rewrite Hm, seq_app, !fmap_app, !concat_app. cbn. rewrite <- (lstep_pipes _ _ _ _ _ _ Hl).
    rewrite <- !app_assoc. apply Permutation_app_head, Permutation_app_swap_app.
  - destruct (focus _ _ _ _ _ Hi HF) as (g1 & g & g2 & -> & Hg & Hback). destruct (IH (g1 ++ ([(path, argv, up_fds u)], []) :: g2)) as (es & ms & Htr & He & Hm).
    { apply Hback. unfold plan. rewrite Hu. apply tr_exec. }
    unfold plan in Hg. cbn in Hg. subst g. exists es, ms. split; [done|]. split; [|by rewrite Hm, !fmap_app, !concat_app]. rewrite He, !fmap_app, !concat_app. cbn. rewrite <- !app_assoc. apply Permutation_app_head.
    by rewrite Permutation_app_swap_app.
  - apply Forall2_app_inv_l in HF as (gs1 & gc & HF & Hc & ->). apply Forall2_cons_inv_l in Hc as (gc' & ? & Hc & ->%Forall2_nil_inv_l & ->).
    destruct (focus _ _ _ _ _ Hi HF) as (g1 & g & g2 & -> & Hg & Hback). destruct (IH (g1 ++ (gc'.1 ++ g.1, gc'.2 ++ g.2) :: g2)) as (es & ms & Htr & He & Hm).
    { apply Hback. unfold plan in *. rewrite Hu. cbn in *. eapply tr_fork; [|done|done]. pose proof (lookup_lt_Some _ _ _ Hi). lia. }
    exists es, ms. split; [done|]. split; [rewrite He|rewrite Hm]; rewrite !fmap_app, !concat_app; cbn; rewrite app_nil_r, <- !app_assoc; apply Permutation_app_head, Permutation_app_head;
      by rewrite Permutation_app_comm, <- !app_assoc.
  - assert (Hij : i <> j) by (intros ->; congruence). rewrite list_insert_insert_ne in HF by done.
    destruct (focus (<[i := mkU (Running k) (up_fds u) (up_parent u)]> (us_procs s)) j w (mkU Reaped (up_fds w) None) gs) as (g1 & g & g2 & -> & Hg & Hback); [by rewrite list_lookup_insert_ne|done|].
    specialize (Hback ([], []) ltac:(unfold plan; by rewrite Hw)). unfold plan in Hg. cbn in Hg. subst g.
    destruct (focus _ _ _ _ _ Hi Hback) as (h1 & h & h2 & Eh & Hh & Hb). rewrite Eh. apply (IH (h1 ++ h :: h2)). apply Hb. unfold plan in *. rewrite Hu. by apply tr_wait.
  - destruct (focus _ _ _ _ _ Hi HF) as (g1 & g & g2 & -> & Hg & Hback). apply (IH (g1 ++ g :: g2)). apply Hback. unfold plan in *. rewrite Hu. by apply tr_wait.
  - rewrite plan_orphan in HF. destruct (focus _ _ _ _ _ Hi HF) as (g1 & g & g2 & -> & Hg & Hback). apply (IH (g1 ++ g :: g2)). apply Hback.
    unfold plan in Hg |- *. cbn in Hg. subst g. destruct Hu as [->| ->]; [apply tr_stop|done].
Qed.

(** ** Descriptors *)

(** The standard descriptors are open. *)
Definition std (T : fds) : Prop := forall d, (d < 3)%nat -> exists f, T !! d = Some (Some f).

Lemma find_seq (P : nat -> bool) n d : forall a, List.find P (seq a n) = Some d <-> (a <= d < a + n)%nat /\ P d = true /\ forall e, (a <= e < d)%nat -> P e = false.
Proof.
  induction n as [|n IH]; intros a; cbn [seq List.find]; [split; [done|lia]|]. destruct (P a) eqn:Ea.
  - split; [intros [= <-]; split; [lia|]; split; [done|]; intros e He; lia|]. intros (H1 & H2 & H3). destruct (decide (a = d)) as [->|]; [done|]. rewrite H3 in Ea by lia. done.
  - rewrite IH. split; intros (H1 & H2 & H3).
    + split; [lia|]. split; [done|]. intros e He. destruct (decide (e = a)) as [->|]; [done|apply H3; lia].
    + assert (d <> a) by (intros ->; congruence). split; [lia|]. split; [done|]. intros e He. apply H3; lia.
Qed.

Lemma lowest_spec T d : lowest T = Some d <-> T !! d = Some None /\ forall e, (e < d)%nat -> exists f, T !! e = Some (Some f).
Proof.
  unfold lowest. rewrite find_seq. split.
  - intros (Hd & HP & Hmin). destruct (T !! d) as [[f|]|] eqn:E; try done. split; [done|]. intros e He. specialize (Hmin e ltac:(lia)).
    destruct (lookup_lt_is_Some_2 T e) as [[f|] Ef]; [lia|by eauto|]. by rewrite Ef in Hmin.
  - intros [Hd Hmin]. rewrite Hd. split_and!; [lia|by eapply lookup_lt_Some|done|]. intros e He. by destruct (Hmin e ltac:(lia)) as [f ->].
Qed.

Lemma fd_close_open fd T f : T !! fd = Some (Some f) -> fd_close (Z.of_nat fd) T = <[fd := None]> T.
Proof. intros E. unfold fd_close, fd_get. rewrite (proj2 (Z.ltb_ge _ _)) by lia. rewrite Nat2Z.id, E. done. Qed.

(** [close(fd)] and then [open] or [dup]: the standard descriptor is replaced. *)
Lemma reopen fd T : std T -> (fd < 3)%nat -> lowest (<[fd := None]> T) = Some fd.
Proof.
  intros Hs Hf. destruct (Hs fd Hf) as [f Ef]. pose proof (lookup_lt_Some _ _ _ Ef). apply lowest_spec. split; [by apply list_lookup_insert_eq|].
  intros e He. rewrite list_lookup_insert_ne by lia. apply Hs. lia.
Qed.

Lemma std_insert fd x T : std T -> std (<[fd := Some x]> T).
Proof. intros Hs d Hd. destruct (Hs d Hd) as [f Ef]. rewrite list_lookup_insert. case_decide; eauto. Qed.

(** The pipe of a [PIPE] command gets descriptors of its own. *)
Lemma pipe_fds n T d0 d1 : std T -> lowest T = Some d0 -> lowest (<[d0 := Some (OPipeR n)]> T) = Some d1 ->
  (3 <= d0)%nat /\ (3 <= d1)%nat /\ d0 <> d1 /\ T !! d0 = Some None /\ T !! d1 = Some None.
Proof.
  intros Hs [E0 _]%lowest_spec [E1 _]%lowest_spec. assert (Hge : forall d, T !! d = Some None -> (3 <= d)%nat).
  { intros d Hd. destruct (decide (d < 3)%nat) as [Hl|]; [|lia]. destruct (Hs d Hl) as [f Ef]. congruence. }
  assert (Hne : d0 <> d1). { intros ->. rewrite list_lookup_insert_eq in E1; [done|]. by eapply lookup_lt_Some. }
  rewrite list_lookup_insert_ne in E1 by done. auto.
Qed.

(** [close(fd); dup(p); close(p0); close(p1);] with [p] an end of the pipe. *)
Lemma take_end (fd d0 d1 : nat) (p : nat) x0 x1 x T : std T -> (fd < 3)%nat -> (3 <= d0)%nat -> (3 <= d1)%nat -> d0 <> d1 -> T !! d0 = Some None -> T !! d1 = Some None ->
  (p = d0 /\ x = x0 \/ p = d1 /\ x = x1) ->
  fd_close (Z.of_nat d1) (fd_close (Z.of_nat d0) (fd_dup (Z.of_nat p) (fd_close (Z.of_nat fd) (<[d1 := Some x1]> (<[d0 := Some x0]> T))))) = <[fd := Some x]> T.
Proof.
  intros Hs Hf H0 H1 Hne E0 E1 Hp. set (T2 := <[d1 := Some x1]> (<[d0 := Some x0]> T)). pose proof (lookup_lt_Some _ _ _ E0) as L0. pose proof (lookup_lt_Some _ _ _ E1) as L1.
  assert (Hs2 : std T2) by (by apply std_insert, std_insert). destruct (Hs2 fd Hf) as [f Ef]. rewrite (fd_close_open fd T2 f Ef).
  assert (Ep : T2 !! p = Some (Some x)).
  { unfold T2. destruct Hp as [[-> ->]|[-> ->]]; [rewrite list_lookup_insert_ne by done|]; apply list_lookup_insert_eq; rewrite ?length_insert; done. }
  assert (E2 : fd_dup (Z.of_nat p) (<[fd := None]> T2) = <[fd := Some x]> T2).
  { unfold fd_dup, fd_get. rewrite (proj2 (Z.ltb_ge _ _)) by lia. rewrite Nat2Z.id, list_lookup_insert_ne, Ep by (destruct Hp as [[-> _]|[-> _]]; lia). cbn [mjoin option_join].
    rewrite (reopen fd T2) by done. apply list_insert_insert_eq. }
  rewrite E2. rewrite (fd_close_open d0 _ x0).
  2: { unfold T2. rewrite !list_lookup_insert_ne by lia. by apply list_lookup_insert_eq. }
  rewrite (fd_close_open d1 _ x1).
  2: { rewrite !list_lookup_insert_ne by lia. apply list_lookup_insert_eq. by rewrite length_insert. }
  apply list_eq. intros j. unfold T2. rewrite !list_lookup_insert, !length_insert. repeat case_decide; try done; intuition (try lia; try congruence).
Qed.

(** ** What a command line means *)

(** Programs started for a command, with their descriptors, when the shell has
    the descriptors [T]; [ns] are the pipes.  Parts of the command may not have
    run, or have failed. *)
Inductive wires : cmd (list Z) -> fds -> list exec_event -> list nat -> Prop :=
| w_none c T : wires c T [] []
| w_exec a argv T : wires (EXEC (a :: argv)) T [(a, a :: argv, T)] []
| w_redir c file mode fd T es ns : wires c (<[Z.to_nat fd := Some (OFile file mode)]> T) es ns -> wires (REDIR c file mode fd) T es ns
| w_pipe n l r T e1 n1 e2 n2 : wires l (<[1%nat := Some (OPipeW n)]> T) e1 n1 -> wires r (<[0%nat := Some (OPipeR n)]> T) e2 n2 ->
    wires (PIPE l r) T (e1 ++ e2) (n :: n1 ++ n2)
| w_list l r T e1 n1 e2 n2 : wires l T e1 n1 -> wires r T e2 n2 -> wires (LIST l r) T (e1 ++ e2) (n1 ++ n2)
| w_back c T es ns : wires c T es ns -> wires (BACK c) T es ns.

(** Redirections of standard descriptors, as the parser makes them. *)
Fixpoint redirs_ok {W} (c : cmd W) : bool :=
  match c with
  | EXEC _ => true
  | REDIR c _ _ fd => ((0 <=? fd) && (fd <? 3) && redirs_ok c)%bool
  | PIPE l r | LIST l r => (redirs_ok l && redirs_ok r)%bool
  | BACK c => redirs_ok c
  end.

(** ** Inversion of executions *)

Lemma tree_exit T es ns : tree PExit T es ns -> es = [] /\ ns = [].
Proof. inversion 1 as [|n p T1 p' T' ns1 es1 ms1 Hl _| | |]; subst; [done|inversion Hl]. Qed.

Lemma tree_print fd fmt args k T es ns : tree (PPrint fd fmt args k) T es ns -> tree k T es ns.
Proof. inversion 1 as [|n p T1 p' T' ns1 es1 ms1 Hl Ht| | |]; subst; [apply tr_stop|]. inversion Hl; subst. done. Qed.

Lemma tree_close fd k T es ns : tree (PClose fd k) T es ns -> tree k (fd_close fd T) es ns.
Proof. inversion 1 as [|n p T1 p' T' ns1 es1 ms1 Hl Ht| | |]; subst; [apply tr_stop|]. inversion Hl; subst. done. Qed.

Lemma tree_dup fd k T es ns : tree (PDup fd k) T es ns -> tree k (fd_dup fd T) es ns.
Proof. inversion 1 as [|n p T1 p' T' ns1 es1 ms1 Hl Ht| | |]; subst; [apply tr_stop|]. inversion Hl; subst. done. Qed.

Lemma tree_wait k T es ns : tree (PWait k) T es ns -> tree k T es ns.
Proof. inversion 1 as [|n p T1 p' T' ns1 es1 ms1 Hl Ht| | |]; subst; [apply tr_stop|inversion Hl|done]. Qed.

Lemma tree_exec path argv k T es ns : tree (PExec path argv k) T es ns -> es = [(path, argv, T)] /\ ns = [] \/ tree k T es ns.
Proof. inversion 1 as [|n p T1 p' T' ns1 es1 ms1 Hl Ht| | |]; subst; [right; apply tr_stop|right; inversion Hl; by subst|by left]. Qed.

Lemma tree_open path mode k T es ns : tree (POpen path mode k) T es ns ->
  es = [] /\ ns = [] \/ tree (k (-1)) T es ns \/ exists d, lowest T = Some d /\ tree (k (Z.of_nat d)) (<[d := Some (OFile path mode)]> T) es ns.
Proof. inversion 1 as [|n p T1 p' T' ns1 es1 ms1 Hl Ht| | |]; subst; [by left|]. inversion Hl; subst; eauto. Qed.

Lemma tree_pipe k T es ns : tree (PPipe k) T es ns ->
  es = [] /\ ns = [] \/ (exists p0 p1, tree (k (-1) p0 p1) T es ns) \/
  exists n d0 d1 ms, ns = n :: ms /\ lowest T = Some d0 /\ lowest (<[d0 := Some (OPipeR n)]> T) = Some d1 /\
    tree (k 0 (Z.of_nat d0) (Z.of_nat d1)) (<[d1 := Some (OPipeW n)]> (<[d0 := Some (OPipeR n)]> T)) es ms.
Proof. inversion 1 as [|n p T1 p' T' ns1 es1 ms1 Hl Ht| | |]; subst; [by left|]. inversion Hl; subst; [right; right; by eexists _, _, _, _|right; left; eauto]. Qed.

Lemma tree_panic msg T es ns : tree (sh_panic msg) T es ns -> es = [] /\ ns = [].
Proof. intros Ht%tree_print%tree_exit. done. Qed.

Lemma tree_fork1 k T es ns : tree (fork1 k) T es ns ->
  es = [] /\ ns = [] \/ exists pid e1 n1 e2 n2, 0 < pid /\ es = e1 ++ e2 /\ ns = n1 ++ n2 /\ tree (k 0) T e1 n1 /\ tree (k pid) T e2 n2.
Proof.
  inversion 1 as [|n p T1 p' T' ns1 es1 ms1 Hl Ht| |? pid ? e1 n1 e2 n2 Hp Ht1 Ht2|]; subst; [by left|inversion Hl; subst; left; by apply tree_panic in Ht|].
  right. exists pid, e1, n1, e2, n2. rewrite (proj2 (Z.eqb_neq pid (-1))) in Ht2 by lia. done.
Qed.

(** ** The theorem *)

Lemma tree_runcmd c : forall T es ns, redirs_ok c = true -> std T -> tree (runcmd c) T es ns -> wires c T es ns.
Proof.
  induction c as [argv|c IH file mode fd|l IHl r IHr|l IHl r IHr|c IH]; intros T es ns Hok Hs Ht; cbn [runcmd redirs_ok] in *.
  - destruct argv as [|a argv]; [apply tree_exit in Ht as [-> ->]; constructor|].
    apply tree_exec in Ht as [[-> ->]|Ht%tree_print%tree_exit]; [constructor|destruct Ht as [-> ->]; constructor].
  - apply andb_true_iff in Hok as [[Hlo%Z.leb_le Hhi%Z.ltb_lt]%andb_true_iff Hok]. destruct (Hs (Z.to_nat fd)) as [f Ef]; [lia|].
    apply tree_close in Ht. rewrite <- (Z2Nat.id fd) in Ht by done. rewrite (fd_close_open _ _ _ Ef) in Ht.
    apply tree_open in Ht as [[-> ->]|[Ht|(d & Hd & Ht)]]; [constructor|apply tree_print, tree_exit in Ht as [-> ->]; constructor|].
    rewrite reopen in Hd by (done || lia). injection Hd as <-. rewrite (proj2 (Z.ltb_ge _ _)), list_insert_insert_eq in Ht by lia. constructor. apply IH; [done|by apply std_insert|done].
  - apply andb_true_iff in Hok as [Hl Hr].
    apply tree_pipe in Ht as [[-> ->]|[(p0 & p1 & Ht)|(n & d0 & d1 & ms & -> & E0 & E1 & Ht)]]; [constructor|apply tree_panic in Ht as [-> ->]; constructor|].
    destruct (pipe_fds n T d0 d1 Hs E0 E1) as (H0 & H1 & Hne & F0 & F1). cbn [Z.ltb Z.compare] in Ht.
    apply tree_fork1 in Ht as [[-> ->]|(pid & e1 & n1 & e2 & n2 & Hp & -> & -> & Hl' & Ht)]; [exact (w_pipe n l r T [] [] [] [] (w_none _ _) (w_none _ _))|].
    cbn [Z.eqb] in Hl'. apply tree_close, tree_dup, tree_close, tree_close in Hl'.
    change 1 with (Z.of_nat 1) in Hl'. rewrite (take_end 1 d0 d1 d1 (OPipeR n) (OPipeW n) (OPipeW n)) in Hl' by (done || lia || auto).
    rewrite (proj2 (Z.eqb_neq pid 0)) in Ht by lia.
    apply tree_fork1 in Ht as [[-> ->]|(pid2 & e3 & n3 & e4 & n4 & Hp2 & -> & -> & Hr' & Ht)]; [apply w_pipe; [apply IHl; [done|by apply std_insert|done]|constructor]|].
    cbn [Z.eqb] in Hr'. apply tree_close, tree_dup, tree_close, tree_close in Hr'.
    change 0 with (Z.of_nat 0) in Hr'. rewrite (take_end 0 d0 d1 d0 (OPipeR n) (OPipeW n) (OPipeR n)) in Hr' by (done || lia || auto).
    rewrite (proj2 (Z.eqb_neq pid2 0)) in Ht by lia. apply tree_close, tree_close, tree_wait, tree_wait, tree_exit in Ht as [-> ->]. rewrite !app_nil_r.
    apply w_pipe; [apply IHl|apply IHr]; try done; by apply std_insert.
  - apply andb_true_iff in Hok as [Hl Hr]. apply tree_fork1 in Ht as [[-> ->]|(pid & e1 & n1 & e2 & n2 & Hp & -> & -> & Hl' & Ht)]; [constructor|].
    cbn [Z.eqb] in Hl'. rewrite (proj2 (Z.eqb_neq pid 0)) in Ht by lia. apply tree_wait in Ht. constructor; [by apply IHl|by apply IHr].
  - apply tree_fork1 in Ht as [[-> ->]|(pid & e1 & n1 & e2 & n2 & Hp & -> & -> & Hl' & Ht)]; [constructor|].
    cbn [Z.eqb] in Hl'. rewrite (proj2 (Z.eqb_neq pid 0)) in Ht by lia. apply tree_exit in Ht as [-> ->]. rewrite !app_nil_r. constructor. by apply IH.
Qed.

(** ** The parser makes only such redirections *)

Definition redir_ok (r : redir) : bool := ((0 <=? r.2) && (r.2 <? 3))%bool.

Lemma wp_any {S A} (m : M S A) (Q : A -> S -> Prop) s : (forall a s', Q a s') -> wp m Q any_halt s.
Proof. intros HQ. unfold wp. by destruct (m s) as [[a|h] s']. Qed.

Lemma wrap_ok rs : forall c, forallb redir_ok rs = true -> redirs_ok c = true -> redirs_ok (wrap c rs) = true.
Proof.
  induction rs as [|[[f mode] fd] rs IH]; intros c Hrs Hc; [done|]. cbn [forallb] in Hrs. apply andb_true_iff in Hrs as [Hr Hrs]. apply IH; [done|]. cbn. by rewrite Hc, andb_true_r.
Qed.

Lemma parseredirs_ok n fuel : forall acc s, forallb redir_ok acc = true -> wp (parseredirs_loop n fuel acc) (fun rs _ => forallb redir_ok rs = true) any_halt s.
Proof.
  induction fuel as [|fuel IH]; intros acc s Hacc; cbn [parseredirs_loop]; [done|]. wp_step. apply wp_any. intros more s1. destruct more; [|by wp_step].
  wp_step. apply wp_any. intros t s2. wp_step. apply wp_any. intros f s3. wp_step; [done|]. cbv zeta. apply IH. rewrite forallb_app, Hacc. cbn [andb].
  destruct t.1 as [|ch| |]; try done. destruct (ch =? LT); [done|]. by destruct (ch =? GT).
Qed.

Lemma redirs_are_ok n s : wp (parseredirs n) (fun rs _ => forallb redir_ok rs = true) any_halt s.
Proof. unfold parseredirs. do 2 wp_step. by apply parseredirs_ok. Qed.

Lemma parseexec_ok n fuel : forall argv rs s, forallb redir_ok rs = true -> wp (parseexec_loop n fuel argv rs) (fun c _ => redirs_ok c = true) any_halt s.
Proof.
  induction fuel as [|fuel IH]; intros argv rs s Hrs; cbn [parseexec_loop]; [done|]. wp_step. apply wp_any. intros stop s1. destruct stop; [wp_step; by apply wrap_ok|].
  wp_step. apply wp_any. intros t s2. wp_step; [wp_step; by apply wrap_ok|]. wp_step; [done|]. cbv zeta. wp_step; [done|].
  wp_step. eapply wp_conseq; [apply redirs_are_ok|]. cbv beta. intros rs' s3 Hrs'. apply IH. by rewrite forallb_app, Hrs, Hrs'.
Qed.

Lemma parseback_ok n fuel : forall c s, redirs_ok c = true -> wp (parseback_loop n fuel c) (fun c _ => redirs_ok c = true) any_halt s.
Proof.
  induction fuel as [|fuel IH]; intros c s Hc; cbn [parseback_loop]; [done|]. wp_step. apply wp_any. intros more s1. destruct more; [|by wp_step].
  wp_step. apply wp_any. intros t s2. by apply IH.
Qed.

Abbreviation makes_ok m := (forall s, wp m (fun c _ => redirs_ok c = true) any_halt s).

Lemma parse_ok n fuel : makes_ok (parseline n fuel) /\ makes_ok (parsepipe n fuel) /\ makes_ok (parseexec n fuel) /\ makes_ok (parseblock n fuel).
Proof.
  induction fuel as [|fuel (IHl & IHp & IHe & IHb)]; [done|]. split_and!; intros s.
  - cbn [parseline]. wp_step. eapply wp_conseq; [apply IHp|]. cbv beta. intros c s1 Hc. do 2 wp_step. wp_step. eapply wp_conseq; [by apply parseback_ok|]. cbv beta. intros c1 s2 Hc1.
    wp_step. apply wp_any. intros more s3. destruct more; [|by wp_step]. wp_step. apply wp_any. intros t s4. wp_step. eapply wp_conseq; [apply IHl|]. cbv beta. intros c2 s5 Hc2. wp_step.
    cbn [redirs_ok]. by rewrite Hc1, Hc2.
  - cbn [parsepipe]. wp_step. eapply wp_conseq; [apply IHe|]. cbv beta. intros c s1 Hc. wp_step. apply wp_any. intros more s3. destruct more; [|by wp_step].
    wp_step. apply wp_any. intros t s4. wp_step. eapply wp_conseq; [apply IHp|]. cbv beta. intros c2 s5 Hc2. wp_step. cbn [redirs_ok]. by rewrite Hc, Hc2.
  - cbn [parseexec]. wp_step. apply wp_any. intros block s1. destruct block; [apply IHb|]. wp_step. eapply wp_conseq; [apply redirs_are_ok|]. cbv beta. intros rs s2 Hrs.
    do 2 wp_step. by apply parseexec_ok.
  - cbn [parseblock]. wp_step. apply wp_any. intros open s1. wp_step; [done|]. wp_step. apply wp_any. intros t s2. wp_step. eapply wp_conseq; [apply IHl|]. cbv beta. intros c s3 Hc.
    wp_step. apply wp_any. intros closed s4. wp_step; [done|]. wp_step. apply wp_any. intros t' s5. wp_step. eapply wp_conseq; [apply redirs_are_ok|]. cbv beta. intros rs s6 Hrs. wp_step.
    by apply wrap_ok.
Qed.

Lemma parsecmd_ok buf c buf' s' : parsecmd buf [] = (Ret (c, buf'), s') -> redirs_ok c = true.
Proof.
  intros E. assert (Hw : wp (parsecmd buf) (fun r _ => redirs_ok r.1 = true) any_halt []).
  { unfold parsecmd. do 2 wp_step. wp_step. eapply wp_conseq; [apply parse_ok|]. cbv beta. intros c1 s1 Hc. wp_step. apply wp_any. intros b s2. do 2 wp_step. destruct s2; [by wp_step|done]. }
  unfold wp in Hw. by rewrite E in Hw.
Qed.

Lemma resolve_ok buf c : redirs_ok (resolve buf c) = redirs_ok c.
Proof. induction c as [argv|c IH f mode fd|l IHl r IHr|l IHl r IHr|c IH]; cbn; by rewrite ?IH, ?IHl, ?IHr. Qed.

(** ** A session *)

(** Programs started for the lines of a session; lines with errors, lines that
    change the directory and lines not reached start none. *)
Inductive session : list (list Z) -> fds -> list exec_event -> list nat -> Prop :=
| ss_stop lines T : session lines T [] []
| ss_line buf lines c buf' s' T e1 n1 e2 n2 : parsecmd buf [] = (Ret (c, buf'), s') -> wires (resolve buf' c) T e1 n1 -> session lines T e2 n2 ->
    session (buf :: lines) T (e1 ++ e2) (n1 ++ n2)
| ss_skip buf lines T es ns : session lines T es ns -> session (buf :: lines) T es ns.

Lemma tree_chdir path k T es ns : tree (PChdir path k) T es ns -> es = [] /\ ns = [] \/ exists r, tree (k r) T es ns.
Proof. inversion 1 as [|n p T1 p' T' ns1 es1 ms1 Hl Ht| | |]; subst; [by left|]. inversion Hl; subst. eauto. Qed.

Lemma tree_loop lines : forall T es ns, std T -> tree (sh_loop lines) T es ns -> session lines T es ns.
Proof.
  induction lines as [|buf lines IH]; intros T es ns Hs Ht; cbn [sh_loop] in Ht; [apply tree_exit in Ht as [-> ->]; constructor|].
  case_bool_decide as Hcd.
  { cbv zeta in Ht. apply tree_chdir in Ht as [[-> ->]|[r Ht]]; [constructor|]. apply ss_skip, IH; [done|]. destruct (r <? 0); [by apply tree_print in Ht|done]. }
  apply tree_fork1 in Ht as [[-> ->]|(pid & e1 & n1 & e2 & n2 & Hp & -> & -> & Hl & Ht)]; [constructor|]. cbn [Z.eqb] in Hl. rewrite (proj2 (Z.eqb_neq pid 0)) in Ht by lia.
  apply tree_wait, IH in Ht; [|done]. unfold run_line in Hl. destruct (parsecmd buf []) as [[[c buf']|h] s'] eqn:E; cbn [fst] in Hl.
  - eapply ss_line; [exact E| |done]. apply tree_runcmd; [|done|done]. rewrite resolve_ok. by eapply parsecmd_ok.
  - assert (e1 = [] /\ n1 = []) as [-> ->] by (destruct h; by apply tree_exit in Hl || apply tree_panic in Hl). by apply ss_skip.
Qed.

(** With the standard descriptors open already, [main] opens nothing. *)
Lemma tree_console fuel k : forall T es ns, std T -> tree (open_console fuel k) T es ns -> tree k T es ns.
Proof.
  induction fuel as [|fuel IH]; intros T es ns Hs Ht; cbn [open_console] in Ht; [done|].
  apply tree_open in Ht as [[-> ->]|[Ht|(d & Hd & Ht)]]; [apply tr_stop|done|]. apply lowest_spec in Hd as [Hd _]. pose proof (lookup_lt_Some _ _ _ Hd).
  assert (3 <= d)%nat. { destruct (decide (d < 3)%nat) as [Hl|]; [|lia]. destruct (Hs d Hl) as [f Ef]. congruence. }
  rewrite (proj2 (Z.leb_le 0 _)), (proj2 (Z.leb_le 3 _)) in Ht by lia. apply tree_close in Ht.
  rewrite (fd_close_open d _ (OFile [99; 111; 110; 115; 111; 108; 101] 2)) in Ht by (by apply list_lookup_insert_eq).
  by rewrite list_insert_insert_eq, list_insert_id in Ht.
Qed.

(** C5: However the processes of the shell are scheduled, and whichever of their
    system calls fail, every program it has started was started for a command of
    a line, with that command's arguments and with exactly the descriptors the
    line asks for: those of the shell, but for redirected ones and for the two
    ends of a pipe, output of the left command and input of the right one.  No
    program holds another end of a pipe, and every pipe is a new one. *)
Theorem shell_wires_commands lines T s : std T -> mreach (sh_main lines) T s ->
  exists es ns, session lines T es ns /\ es ≡ₚ us_log s /\ NoDup ns.
Proof.
  intros Hs Hr. destruct (simulate _ _ _ Hr (replicate (length (us_procs s)) ([], []))) as (es & ns & Ht & He & Hn).
  { apply Forall2_replicate_r; [done|]. apply Forall_true. intros u. change (plan u ([], [])). unfold plan. destruct (up_life u); [apply tr_stop|done..]. }
  assert (Hnil : forall {A} n, concat (replicate n (@nil A)) = []) by (intros A n; by induction n).
  rewrite fmap_replicate, Hnil, app_nil_r in He. rewrite fmap_replicate, Hnil, app_nil_r in Hn. exists es, ns. split; [|split; [done|]].
  - apply tree_loop; [done|]. by eapply tree_console.
  - rewrite Hn. apply NoDup_seq.
Qed.

(** ** An instance: the line "cat x | wc" *)
Module ShellInstances.
Definition T0 : fds := replicate 3 (Some OConsole) ++ replicate 13 None.
Definition line : list Z := [99; 97; 116; 32; 120; 32; 124; 32; 119; 99; 10; 0].

Lemma T0_std : std T0.
Proof. intros d Hd. exists OConsole. do 3 (destruct d as [|d]; [done|]). lia. Qed.

(** Process [i] makes its next call, which succeeds. *)
Definition go (i : nat) (s : ush) : option ush :=
  u ← us_procs s !! i;
  let T := up_fds u in
  let local p T ns := Some (mkUsh (<[i := mkU (Running p) T (up_parent u)]> (us_procs s)) (us_pipes s + length ns) (us_log s)) in
  match up_life u with
  | Running (PClose fd k) => local k (fd_close fd T) (@nil nat)
  | Running (PDup fd k) => local k (fd_dup fd T) []
  | Running (POpen path mode k) => d ← lowest T; local (k (Z.of_nat d)) (<[d := Some (OFile path mode)]> T) []
  | Running (PPipe k) =>
      d0 ← lowest T;
      d1 ← lowest (<[d0 := Some (OPipeR (us_pipes s))]> T);
      local (k 0 (Z.of_nat d0) (Z.of_nat d1)) (<[d1 := Some (OPipeW (us_pipes s))]> (<[d0 := Some (OPipeR (us_pipes s))]> T)) [us_pipes s]
  | Running (PFork k) =>
      Some (mkUsh (<[i := mkU (Running (k (Z.of_nat (length (us_procs s))))) T (up_parent u)]> (us_procs s) ++ [mkU (Running (k 0)) T (Some i)]) (us_pipes s) (us_log s))
  | Running (PExec path argv k) =>
      Some (mkUsh (<[i := mkU Other T (up_parent u)]> (us_procs s)) (us_pipes s) (us_log s ++ [(path, argv, T)]))
  | _ => None
  end.

Lemma go_step i s s' : go i s = Some s' -> mstep s s'.
Proof.
  unfold go. destruct (us_procs s !! i) as [u|] eqn:Hi; [|done]. cbn [mbind option_bind]. cbv zeta. destruct (up_life u) as [p| | |] eqn:Hu; try done. destruct p; try done.
  - intros [= <-]. by eapply m_exec.
  - intros [= <-]. eapply (m_local i u _ _ _ [] s Hi Hu). constructor.
  - intros [= <-]. eapply (m_local i u _ _ _ [] s Hi Hu). constructor.
  - destruct (lowest (up_fds u)) as [d|] eqn:Ed; [|done]. cbn [mbind option_bind]. intros [= <-]. eapply (m_local i u _ _ _ [] s Hi Hu). by constructor.
  - destruct (lowest (up_fds u)) as [d0|] eqn:E0; [|done]. cbn [mbind option_bind]. destruct (lowest (<[d0 := Some (OPipeR (us_pipes s))]> (up_fds u))) as [d1|] eqn:E1; [|done].
    cbn [mbind option_bind]. intros [= <-]. eapply (m_local i u _ _ _ [us_pipes s] s Hi Hu). by constructor.
  - intros [= <-]. by eapply m_fork.
Qed.

Fixpoint run (l : list nat) (s : ush) : option ush :=
  match l with
  | [] => Some s
  | i :: l => s ← go i s; run l s
  end.

Lemma run_reach p T l : forall s s', mreach p T s -> run l s = Some s' -> mreach p T s'.
Proof.
  induction l as [|i l IH]; intros s s' Hr E; cbn [run] in E; [by injection E as <-|]. destruct (go i s) as [s1|] eqn:Eg; [|done]. cbn [mbind option_bind] in E.
  eapply IH; [|exact E]. eapply mr_step; [exact Hr|by eapply go_step].
Qed.

(** The shell forks the child, which makes the pipe and forks twice; the second
    command starts before the first. *)
Definition picks : list nat := [0; 0; 0; 1; 1; 1; 3; 3; 2; 2; 3; 3; 3; 2; 2; 2]%nat.
Definition start : ush := mkUsh [mkU (Running (sh_main [line])) T0 None] 0 [].
Definition final : ush := default start (run picks start).

Lemma reached_final : mreach (sh_main [line]) T0 final.
Proof.
  unfold final. destruct (run picks start) as [s|] eqn:E; [|apply mr_start]. eapply run_reach; [apply mr_start|exact E].
Qed.

Lemma shell_wires_commands_witness :
  us_log final = [([119; 99], [[119; 99]], Some (OPipeR 0) :: replicate 2 (Some OConsole) ++ replicate 13 None);
                  ([99; 97; 116], [[99; 97; 116]; [120]], Some OConsole :: Some (OPipeW 0) :: Some OConsole :: replicate 13 None)] /\
  exists es ns, session [line] T0 es ns /\ es ≡ₚ us_log final /\ NoDup ns.
Proof. split; [vm_compute; reflexivity|]. exact (shell_wires_commands [line] T0 final T0_std reached_final). Defined.
End ShellInstances.
